(* ===== verification/_CoqProject ===== *)
-Q . S2P
Prelude.v
Config.v
CapTypes.v
CapTable.v
CapList.v
KState.v
Proc.v
Sched.v
Channel.v
CapOps.v
CapPmp.v
CapIpc.v
CapMonitor.v
Syscall.v
Trap.v
KernelInit.v
Invariant.v
View.v
Spec.v
Refine.v
Steps.v
Revoke.v
IpcSafe.v
IpcSpec.v
SyscallSafe.v
SyscallSpec.v
SchedSafe.v
Machine.v
PmpInv.v
Authority.v
Integrity.v
Boot.v
CapTheorems.v
UserCaps.v
UserTheorems.v
UserSyscall.v
SystemTheorems.v
Printf.v
Console.v
Ns16550a.v
Sifive.v
PrintfTheorems.v
ConsoleTheorems.v
Smp.v
SchedTheorems.v
Schedule.v
TimeTheorems.v
IpcTheorems.v
SyscallTheorems.v
TrapTheorems.v
UserKernel.v
Tutorial.v
Apps.v
Tutorials.v
AppTheorems.v
VirtioDisk.v
VirtioTheorems.v
FatData.v
FatFs.v
FatPath.v
FatFile.v
FatDir.v
Exercise.v
FatVolume.v
FatTable.v
FatChain.v
FatAlloc.v
FatContents.v
FatRead.v
FatWrite.v
FatSeek.v
FatTheorems.v
FatMount.v
FatEntries.v
FatNames.v
FatOpen.v
FatSync.v
FatRam.v
FatVirtio.v
FatBoot.v
