(* ===== verification/Prelude.v ===== *)
(** * S3K: a verified model of the kernel and its user library

    S3K is a separation kernel for RISC-V.  It gives user processes no objects
    but capabilities: for time slots of a hart, for memory, for regions of the
    physical memory protection (PMP), for monitoring processes, for channels and
    for sockets.  A process calls the kernel to read, move, delete, derive and
    revoke its capabilities, to load PMP capabilities into its PMP registers, to
    send messages with or without a capability through sockets, and to control
    the processes it monitors.  A static schedule of time slots, which follows
    the time capabilities, decides who runs.  This development models the kernel
    ([src/kernel]), the library processes are linked with ([src/common/src/s3k],
    [altc], [drivers]) and the examples under [src/projects] with their disk driver
    and file system, function by function, and proves the kernel safe, its
    operations what they are specified to be, processes separated, and the files of
    the file system what is on the disk and what was written to them.

    ** Conventions

    Machine integers are [Z] with their wrap-around written out ([u8] to [u64]);
    a pointer into a table is the index it is computed from ([cte_t]: an entry of
    the capability table; a [proc_t *]: a pid; a string or buffer: a position),
    and a null pointer is [None].  Code runs in the monad [M] of this file: a
    function of the state that ends in [Done] with a result and a new state, or in
    a [fault]: a failed KASSERT, an access out of bounds, a null dereference, a bad
    shift, or a busy-waiting loop that has spent its fuel.  [wp m Q s] says that
    [m] runs from [s] without any fault to a state in [Q]; [wpe E] allows the faults
    in [E]: [wlp] the last kind only, [wpe any_fault] all of them, which leaves
    partial correctness.  The hardware decides through oracles in the state (the clock,
    the pending interrupts, the lock word other harts write), one value per
    access; theorems hold for all of them.  A configuration of the build is an
    instance of the class [Config.Config], with the relations the kernel relies
    on in [ConfigOk].

    ** Files and the code they model

    The program (definitions only):
    - [Config]: [kernel/s3k_conf.h], [common/inc/plat/qemu_virt.h] and
      [qemu_virt4.h];
    - [CapTypes]: [cap_types.h], [cap_util.h], [cap_util.c]: the capability word
      and its bit fields, constructors, validation, PMP address encoding;
    - [CapTable]: [cap_table.c]: the table of entries, linked in one ring;
    - [KState]: [proc.h], the data of [cap_ipc.c] and [sched.c], [error.h],
      [drivers/time.c], [csr.h]: the record [kstate], one field per global
      variable of the kernel;
    - [Proc], [Sched], [Channel], [CapOps], [CapPmp], [CapIpc], [CapMonitor],
      [Syscall], [Trap], [KernelInit]: the C files of these names ([KernelInit]:
      [kernel.c] and the [_init] functions);
    - [Smp]: [smp/semaphore.c], [smp/taslock.c], [cap_lock.c], with its theorems;
    - [Printf]: [altc/printf.c] and the printing of capabilities in [cap_util.c];
    - [Console]: [altc/puts.c], [gets.c], [init.c], [alt_printf] and [kprintf.c],
      on a driver that is an instance of the class [Serial];
    - [Ns16550a], [Sifive]: the drivers, [drivers/uart/ns16550a.c] and [sifive.c],
      on devices that are classes with their documented behaviour, and the proofs
      that both are what [Console.SerialWorks] asks for;
    - [UserCaps], [UserSyscall]: [s3k/s3k.c], [s3k/util.h], [s3k/syscall.c];
    - [Tutorial]: [projects/tutorial-commons/utils.h], over an environment call that
      is a parameter; [Apps]: the demonstrations [hello], [ping-pong] and [trapped];
      [Tutorials]: the tutorials 01 to 08; [Exercise]: tutorial 09 and the exercise,
      which serve files;
    - [VirtioDisk]: the disk driver of the examples, [virtio_disk.c] and
      [diskio.c] in [projects/exercise/app0];
    - [FatData], [FatFs], [FatPath], [FatFile], [FatDir]: the file system of the
      examples, [ff.c] as [ffconf.h] configures it, on a drive that is the class
      [FatData.Drive]: the sector window, the FAT, directories; paths and mounting;
      the functions of the application on files and on directories.

    The proofs:
    - [CapList]: the ring of the table as a list, [represents];
    - [Invariant], [View]: the well-formedness invariant [wf]; a [view], which is
      the state with functions for arrays and a list for the ring; [sees s v]
      relates them, and a rule of the program logic per primitive operation says
      which update of the view it is;
    - [Spec], [Refine], [Revoke]: the capability operations as pure functions on
      views ([a_move], [a_delete], [a_revoke], [a_derive], [a_pmp_load], ...) and
      the proofs that the code computes them; the loop of [cap_revoke];
    - [IpcSpec], [SyscallSpec]: the same for message passing and for the table of
      system calls ([call_effect]: a function of the view for each call but
      [SYS_CAP_REVOKE], which is a relation, as the timer may cut it short);
    - [Steps], [IpcSafe], [SyscallSafe], [SchedSafe], [Machine]: capability
      operations as labels [cap_op] with their conditions [op_ok] and the
      authority they need [authorised]; every handler is a sequence of such
      steps; the machine that alternates user steps and traps, [mstep], with every
      trap that returns for a step;
    - [PmpInv], [Authority], [Integrity], [Schedule]: the invariants: PMP
      registers are backed by loaded capabilities, no capability grants more than
      the initial ones, who may change what, and the schedule is that of the time
      capabilities;
    - [Boot]: the boot states of both platforms, computed, with executable checks
      of the invariants; the witnesses start from them.
    - [FatVolume], [FatTable], [FatChain], [FatAlloc]: the contract of a drive that
      works ([WorkingDrive]); the volume behind the sector window as a [view] of
      its geometry, its counters and its sectors ([holds]); the FAT as a function
      [entries], the cluster chains in it, and what each operation on the FAT does
      to the view; [FatContents], [FatRead], [FatWrite], [FatSeek]: the bytes of a
      file behind its chain and its sector buffer ([sees], [file_byte]), and the
      loops of reading, writing and seeking; [FatMount]: what is on the disk of a
      volume that can be mounted, as functions of the boot sector, and that
      [f_mount] finds it; [FatEntries], [FatNames], [FatOpen]: directories as
      sequences of entries ([dir_lookup]), names of 8.3 form and their text, and
      where a path leads ([leads]), with what [dir_find], [create_name],
      [follow_path] and [f_open] do; [FatSync]: the entry and the
      sectors as [f_sync] leaves them ([saved]), and the path, the entry and the
      bytes of a file through writing, [f_sync] and another mount;
      [FatVirtio]: the file system linked with the disk driver, which is an instance of
      [WorkingDrive] for one sector at a time; [FatRam], [FatBoot]: a RAM drive, two
      small volumes and the modelled device, for the witnesses.

    ** Theorems

    - The system ([SystemTheorems]): what the PMP registers of a process allow is
      granted by a PMP capability of its own and by the initial capabilities, in
      every state that is reached by user steps and by traps that return; traps are
      handled within the authority of the process, and without a fault when the
      numbers a system call uses at full width fit the widths they are checked at;
      confinement, integrity, no amplification, and the well-formedness of
      reachable states.
    - System calls ([SyscallTheorems]): the exact effect of a call with valid
      arguments, and the exact error of a call with invalid ones.
    - Messages ([IpcTheorems]): the sockets refine their specification, sending
      delivers or does nothing, and a call with its reply is a round trip.
    - Time ([TimeTheorems], [SchedTheorems]): every operation keeps the schedule
      equal to the time capabilities, a process is dispatched only on its own
      time, revocation of time is complete; the scheduler finds the process of
      the slot, and two harts do not find the same one.
    - Capabilities ([CapTheorems]): each operation refines its specification, and
      revocation ends.
    - Start and exceptions ([TrapTheorems]), locks of several harts ([Smp]),
      formatted output ([PrintfTheorems], down to the registers of the serial ports
      in [ConsoleTheorems]), and the agreement of the user library
      with the kernel: its descriptions and predictions ([UserTheorems]), and its
      wrappers run on the modelled kernel ([UserKernel]).
    - Applications ([AppTheorems]): the set-up code of the tutorials run on the
      modelled kernel from its start, with the accesses to the serial port checked
      against the PMP registers: what the new application may access, and the ends
      of the sockets.  The runs are not interrupted and find the lock free
      ([quiet_for]).
    - Disk ([VirtioTheorems]): for every device that keeps the contract
      [block_device], a request that the device answers with success transfers its
      sector and ends, and one that it answers with an error never ends;
      initialisation leads to the state this starts from.
    - Files ([FatTheorems]): the FAT entries of all three widths, allocating and
      freeing clusters, reading, writing, and reading back what was written, on a
      mounted volume whose drive works.
    - Volumes, directories and paths ([FatMount], [FatEntries], [FatNames], [FatOpen]):
      which volumes [f_mount] takes and what it makes of them; [dir_find] is a search
      in the sequence of entries; names survive the way to the entry and back;
      [f_open] follows a path to the file of its entry, or returns the error; and
      mounting, opening and reading deliver the bytes that the contents of the drive
      determine, which [FatBoot] runs on the virtio driver.
    - Writing back ([FatSync]): after [f_sync] the drive alone holds the
      volume, with the entry of the file up to date and all else as it was
      ([f_sync_stores]); what is written and synchronised is read again by a system
      that starts with the contents of the drive and nothing else ([write_survives]).

    ** Fuel

    Loops over ranges and lists are structural.  The loops that wait take fuel,
    and a theorem about them says how much is enough: [cap_revoke] and the system
    calls more than the number of device accesses after which the timer interrupt
    of the slice is pending and the lock is free ([fires], [settles]:
    [cap_revoke_terminates], [syscall_confined], [syscall_performs]); the
    scheduler one search and [S3K_SCHED_TIME * pace] clock readings when the owner of
    the current slot can run and the clock advances once in [pace] readings
    ([sched_returns]).  The digit loops have a round
    for each bit of a 64-bit number, more than it has digits; the buffers bound
    them ([numerals_roundtrip]).  The wrappers of the user library that call again
    after a preemption take one round when no interrupt comes ([wrappers_perform]).
    A disk request that succeeds needs five rounds more than the device takes turns
    ([disk_rw_transfers]).  The loops of the file system take the number of rounds
    that bounds them in the code: the entries of the FAT for the searches and
    chains, the bytes asked for in [f_read] and [f_write], the clusters below the
    offset in [f_lseek], and the size a directory can have; the theorems on them
    exclude running out.  A driver of a serial port needs more rounds than the device
    reports to be busy ([alt_printf_sends]).  Loops of applications that never end are
    modelled by their first [rounds] rounds, and loops that wait for another
    application take fuel.

    ** Hypotheses

    The validators of the kernel check indices and process numbers at 16 bits and
    register numbers at 32, and some handlers use all 64 bits of the argument.  That
    a system call does not fault and has its effect ([trap_handler_safe],
    [syscall_performs]) therefore asks that the arguments used as they are fit
    ([fits_args]); [SyscallTheorems.wide_register_read] and [wide_index_passes] show
    what happens otherwise.  The theorems on reachable states ask nothing of the
    arguments: a call that faults has no next state, and of every other call they
    hold.  The exceptions of [schedule_kept] are named in [straight]; the theorems
    that start from an exact schedule say so.

    The theorems that read or write files ask for a drive that transfers a cluster at
    once ([g_csize <= many]).  The driver of the repository transfers one sector
    right and of more only the first ([FatVirtio.cluster_misread]), so on it they
    are about clusters of one sector; and it has to have a device that fails no
    request, since the driver does not return from one that does.  Mounting asks
    that the sizes in the boot sector do not overflow ([bpb_fits]), which the code
    does not check ([FatBoot.fat_size_overflows]).

    ** Not modelled

    - Kernel code of several harts interleaves at the locks only ([Smp]); inside
      the operations the other harts show as the oracles of the lock word, of the
      clock and of the interrupts.  The semaphore calls in [sched.c] are left out of
      the functions they bracket.
    - The assembly files ([head.S], [trap.S], [stack.S], [start.S], the memory
      routines of [altc]) are not C; the exits of [trap.S] are part of [Trap].
    - Of FatFs, what its configuration leaves to the preprocessor: long names,
      exFAT, file locks, relative paths, [f_mkfs], [f_fdisk] and the string functions.
    - Of the applications, loops that only count in a local variable; what two
      applications do in turn is the composition of their definitions with the
      kernel, which only the set-up code is run on here.
    - The Rust code: the file server and the bindings it uses. *)

From Stdlib Require Export ZArith Lia Bool.
From stdpp Require Export prelude.

#[global] Open Scope Z_scope.

(** ** Machine words *)

Definition u8 (z : Z) : Z := z mod 2 ^ 8.
Definition u16 (z : Z) : Z := z mod 2 ^ 16.
Definition u32 (z : Z) : Z := z mod 2 ^ 32.
Definition u64 (z : Z) : Z := z mod 2 ^ 64.
Definition U64_MAX : Z := 2 ^ 64 - 1.

(** ** Bit fields of a 64-bit word *)

Record field := Field { f_off : Z; f_wid : Z }.

Definition fget (f : field) (c : Z) : Z :=
  Z.land (Z.shiftr c (f_off f)) (Z.ones (f_wid f)).

Definition fset (f : field) (v c : Z) : Z :=
  Z.lor (Z.ldiff c (Z.shiftl (Z.ones (f_wid f)) (f_off f)))
        (Z.shiftl (Z.land v (Z.ones (f_wid f))) (f_off f)).

Definition field_ok (f : field) : bool :=
  (0 <=? f_off f) && (0 <=? f_wid f) && (f_off f + f_wid f <=? 64).

Definition field_disj (f g : field) : bool :=
  field_ok f && field_ok g &&
  ((f_off f + f_wid f <=? f_off g) || (f_off g + f_wid g <=? f_off f)).

(** ** Arrays indexed by machine integers *)

Definition zlen {A} (l : list A) : Z := Z.of_nat (length l).

Definition lookupZ {A} (l : list A) (i : Z) : option A :=
  if 0 <=? i then l !! Z.to_nat i else None.

Definition insertZ {A} (i : Z) (x : A) (l : list A) : list A :=
  if 0 <=? i then <[Z.to_nat i := x]> l else l.

(** Update of a function at a point. *)
Definition fupd {B} (f : Z -> B) (a : Z) (b : B) : Z -> B :=
  fun x => if x =? a then b else f x.

(** ** The state and fault monad *)

Inductive fault :=
| AssertFail   (** a KASSERT that does not hold *)
| OutOfBounds  (** an access outside an array *)
| NullDeref    (** a use of a null pointer *)
| BadShift     (** a shift by a negative or too large amount *)
| OutOfFuel.   (** a busy-waiting loop still running when the fuel is spent *)

Inductive outcome (St A : Type) :=
| Done (a : A) (s : St)
| Fault (f : fault).
Arguments Done {St A} a s.
Arguments Fault {St A} f.

Definition M (St A : Type) : Type := St -> outcome St A.

Definition ret {St A} (a : A) : M St A := fun s => Done a s.

Definition bind {St A B} (m : M St A) (k : A -> M St B) : M St B :=
  fun s => match m s with
           | Done a s' => k a s'
           | Fault f => Fault f
           end.

Definition fail {St A} (f : fault) : M St A := fun _ => Fault f.
Definition gets {St A} (f : St -> A) : M St A := fun s => Done (f s) s.
Definition modify {St} (f : St -> St) : M St unit := fun s => Done tt (f s).

(** [KASSERT(expr)]. *)
Definition kassert {St} (b : bool) : M St unit :=
  if b then ret tt else fail AssertFail.

(** Reading element [i] of an array. *)
Definition array_get {St A} (l : list A) (i : Z) : M St A :=
  match lookupZ l i with
  | Some x => ret x
  | None => fail OutOfBounds
  end.

(** Dereferencing a pointer that may be null. *)
Definition deref {St A} (p : option A) : M St A :=
  match p with
  | Some a => ret a
  | None => fail NullDeref
  end.

(** [x << n] and [x >> n] on 64-bit words: undefined unless [0 <= n < 64]. *)
Definition shl64 {St} (x n : Z) : M St Z :=
  if (0 <=? n) && (n <? 64) then ret (u64 (Z.shiftl x n)) else fail BadShift.
Definition shr64 {St} (x n : Z) : M St Z :=
  if (0 <=? n) && (n <? 64) then ret (Z.shiftr x n) else fail BadShift.

(** [for (i = from; i < from + n; i++) body] *)
Fixpoint for_loop {St} (n : nat) (i : Z) (body : Z -> M St unit) : M St unit :=
  match n with
  | O => ret tt
  | S n => bind (body i) (fun _ => for_loop n (i + 1) body)
  end.

(** [for (i = from; i < to; i++) body]: the bound is fixed, the loop ends. *)
Definition for_range {St} (from to : Z) (body : Z -> M St unit) : M St unit :=
  for_loop (Z.to_nat (to - from)) from body.

(** [for (i = from; i < to; i++) if (test) goto out;]: whether the loop is left
    through the [goto]. *)
Fixpoint exists_loop {St} (n : nat) (i : Z) (test : Z -> M St bool) : M St bool :=
  match n with
  | O => ret false
  | S n => bind (test i) (fun b => if b then ret true else exists_loop n (i + 1) test)
  end.

Definition exists_range {St} (from to : Z) (test : Z -> M St bool) : M St bool :=
  exists_loop (Z.to_nat (to - from)) from test.

(** [while (test) ;] with at most [fuel] evaluations of the test. *)
Fixpoint while_busy {St} (fuel : nat) (test : M St bool) : M St unit :=
  match fuel with
  | O => fail OutOfFuel
  | S fuel => bind test (fun b => if b then while_busy fuel test else ret tt)
  end.

(** Running an operation of a component on the whole state. *)
Record lens (S T : Type) := Lens { l_get : S -> T; l_set : T -> S -> S }.
Arguments Lens {S T} _ _.
Arguments l_get {S T} _ _.
Arguments l_set {S T} _ _ _.

Definition zoom {S T A} (L : lens S T) (m : M T A) : M S A :=
  fun s => match m (l_get L s) with
           | Done a t => Done a (l_set L t s)
           | Fault f => Fault f
           end.

(** Weakest precondition: the operation returns, without a fault, and the
    result satisfies [Q]. *)
Definition wp {St A} (m : M St A) (Q : A -> St -> Prop) (s : St) : Prop :=
  match m s with
  | Done a s' => Q a s'
  | Fault _ => False
  end.

(** The same with faults in [E] allowed: [wp] allows none.  With every fault it is
    partial correctness: if the operation returns, the result satisfies [Q]. *)
Definition wpe {St A} (E : fault -> Prop) (m : M St A) (Q : A -> St -> Prop) (s : St) : Prop :=
  match m s with
  | Done a s' => Q a s'
  | Fault f => E f
  end.

Definition any_fault : fault -> Prop := fun _ => True.

(** Partial correctness up to the fuel: a loop may run out of it. *)
Definition wlp {St A} (m : M St A) (Q : A -> St -> Prop) (s : St) : Prop :=
  wpe (fun f => f = OutOfFuel) m Q s.

Declare Scope kernel_scope.
Delimit Scope kernel_scope with K.

Notation "'let*' x ':=' m 'in' k" := (bind m (fun x => k))
  (at level 10, x name, m at level 100, k at level 200,
   format "'[v' 'let*'  x  ':='  m  'in' '/' k ']'") : kernel_scope.
Notation "'let*' ' x ':=' m 'in' k" := (bind m (fun x => k))
  (at level 10, x strict pattern, m at level 100, k at level 200) : kernel_scope.
Notation "'do*' m 'in' k" := (bind m (fun _ => k))
  (at level 10, m at level 100, k at level 200,
   format "'[v' 'do*'  m  'in' '/' k ']'") : kernel_scope.

#[global] Open Scope kernel_scope.

(** ** Words and bit fields: lemmas *)

Lemma ones_bit w n : 0 <= w -> 0 <= n -> Z.testbit (Z.ones w) n = (n <? w).
Proof.
  intros Hw Hn. destruct (Z.ltb_spec n w).
  - apply Z.ones_spec_low; lia.
  - apply Z.ones_spec_high; lia.
Qed.

Lemma fget_bit f c n :
  field_ok f = true -> 0 <= n ->
  Z.testbit (fget f c) n = (n <? f_wid f) && Z.testbit c (n + f_off f).
Proof.
  unfold field_ok, fget. rewrite !andb_true_iff, !Z.leb_le. intros [[??]?] Hn.
  rewrite Z.land_spec, Z.shiftr_spec, ones_bit by lia. apply andb_comm.
Qed.

Lemma fset_bit f v c n :
  field_ok f = true -> 0 <= n ->
  Z.testbit (fset f v c) n =
  if (f_off f <=? n) && (n <? f_off f + f_wid f)
  then Z.testbit v (n - f_off f) else Z.testbit c n.
Proof.
  unfold field_ok, fset. rewrite !andb_true_iff, !Z.leb_le. intros [[??]?] Hn.
  rewrite Z.lor_spec, Z.ldiff_spec, !Z.shiftl_spec by lia.
  destruct (Z.leb_spec (f_off f) n); simpl.
  - rewrite Z.land_spec, !ones_bit by lia.
    destruct (Z.ltb_spec (n - f_off f) (f_wid f)), (Z.ltb_spec n (f_off f + f_wid f));
      try lia; rewrite ?andb_true_r, ?andb_false_r, ?orb_false_r; reflexivity.
  - rewrite !(Z.testbit_neg_r _ (n - f_off f)) by lia.
    rewrite andb_true_r, orb_false_r. reflexivity.
Qed.

Lemma fget_range f c : field_ok f = true -> 0 <= fget f c < 2 ^ f_wid f.
Proof.
  unfold field_ok, fget. rewrite !andb_true_iff, !Z.leb_le. intros [[??]?].
  rewrite Z.land_ones by lia. apply Z.mod_pos_bound, Z.pow_pos_nonneg; lia.
Qed.

Lemma fget_fset_eq f v c :
  field_ok f = true -> fget f (fset f v c) = v mod 2 ^ f_wid f.
Proof.
  intros Hf. pose proof Hf as Hf'. unfold field_ok in Hf'.
  rewrite !andb_true_iff, !Z.leb_le in Hf'. destruct Hf' as [[??]?].
  apply Z.bits_inj'. intros n Hn.
  rewrite fget_bit, fset_bit by (auto; lia).
  destruct (Z.ltb_spec n (f_wid f)); simpl.
  - rewrite Z.mod_pow2_bits_low by lia.
    replace (f_off f <=? n + f_off f) with true by (symmetry; apply Z.leb_le; lia).
    replace (n + f_off f <? f_off f + f_wid f) with true by (symmetry; apply Z.ltb_lt; lia).
    simpl. f_equal; lia.
  - rewrite Z.mod_pow2_bits_high by lia. reflexivity.
Qed.

Lemma fget_fset_ne f g v c :
  field_disj f g = true -> fget f (fset g v c) = fget f c.
Proof.
  unfold field_disj. rewrite !andb_true_iff, orb_true_iff, !Z.leb_le.
  intros [[Hf Hg] Hd]. apply Z.bits_inj'. intros n Hn.
  assert (H0 : 0 <= f_off f).
  { unfold field_ok in Hf. rewrite !andb_true_iff, !Z.leb_le in Hf. tauto. }
  rewrite !fget_bit, fset_bit by (auto; lia).
  destruct (Z.ltb_spec n (f_wid f)); simpl; [|reflexivity].
  destruct (Z.leb_spec (f_off g) (n + f_off f)),
    (Z.ltb_spec (n + f_off f) (f_off g + f_wid g)); simpl; (reflexivity || lia).
Qed.

Lemma testbit_high x w n : 0 <= w -> 0 <= x < 2 ^ w -> w <= n -> Z.testbit x n = false.
Proof.
  intros Hw Hx Hn. rewrite <- (Z.mod_small x (2 ^ w)) by lia.
  apply Z.mod_pow2_bits_high. lia.
Qed.

Lemma bits_range x w :
  0 <= w -> (forall n, w <= n -> Z.testbit x n = false) -> 0 <= x < 2 ^ w.
Proof.
  intros Hw Hb.
  assert (x = x mod 2 ^ w) as ->.
  { apply Z.bits_inj'. intros n Hn. destruct (Z.ltb_spec n w).
    - rewrite Z.mod_pow2_bits_low by lia. reflexivity.
    - rewrite Z.mod_pow2_bits_high, Hb by lia. reflexivity. }
  apply Z.mod_pos_bound, Z.pow_pos_nonneg; lia.
Qed.

Lemma fset_range f v c :
  field_ok f = true -> 0 <= c < 2 ^ 64 -> 0 <= fset f v c < 2 ^ 64.
Proof.
  intros Hf Hc. apply bits_range; [lia|]. intros n Hn.
  rewrite fset_bit by (auto; lia).
  unfold field_ok in Hf. rewrite !andb_true_iff, !Z.leb_le in Hf.
  destruct (Z.ltb_spec n (f_off f + f_wid f)); [lia|].
  rewrite andb_false_r. apply (testbit_high c 64); lia.
Qed.

Lemma fget_0 f : fget f 0 = 0.
Proof. unfold fget. rewrite Z.shiftr_0_l. apply Z.land_0_l. Qed.

(** ** Arrays: lemmas *)

Section Arrays.
Context {A : Type}.
Implicit Types (l : list A) (x : A).

Lemma lookupZ_Some_range l i x : lookupZ l i = Some x -> 0 <= i < zlen l.
Proof.
  unfold lookupZ, zlen. destruct (Z.leb_spec 0 i); [|done].
  intros H1%lookup_lt_Some. lia.
Qed.

Lemma lookupZ_lt l i : 0 <= i < zlen l -> exists x, lookupZ l i = Some x.
Proof.
  unfold lookupZ, zlen. intros Hi. destruct (Z.leb_spec 0 i); [|lia].
  destruct (lookup_lt_is_Some_2 l (Z.to_nat i)) as [x Hx]; [lia|]. eauto.
Qed.

Lemma zlen_insertZ l i x : zlen (insertZ i x l) = zlen l.
Proof. unfold zlen, insertZ. case_match; by rewrite ?length_insert. Qed.

Lemma lookupZ_insertZ_eq l i x :
  0 <= i < zlen l -> lookupZ (insertZ i x l) i = Some x.
Proof.
  unfold lookupZ, insertZ, zlen. intros Hi. destruct (Z.leb_spec 0 i); [|lia].
  apply list_lookup_insert_eq. lia.
Qed.

Lemma lookupZ_insertZ_ne l i j x :
  i <> j -> lookupZ (insertZ i x l) j = lookupZ l j.
Proof.
  unfold lookupZ, insertZ. intros Hij.
  destruct (Z.leb_spec 0 i), (Z.leb_spec 0 j); try done.
  apply list_lookup_insert_ne. lia.
Qed.

Lemma lookupZ_insertZ l i j x :
  0 <= i < zlen l ->
  lookupZ (insertZ i x l) j = if j =? i then Some x else lookupZ l j.
Proof.
  intros Hi. destruct (Z.eqb_spec j i) as [->|].
  - by apply lookupZ_insertZ_eq.
  - by apply lookupZ_insertZ_ne.
Qed.

Lemma insertZ_id l i x : lookupZ l i = Some x -> insertZ i x l = l.
Proof.
  unfold lookupZ, insertZ. destruct (0 <=? i); [|done]. apply list_insert_id.
Qed.

Lemma insertZ_insertZ l i x y : insertZ i x (insertZ i y l) = insertZ i x l.
Proof. unfold insertZ. case_match; [|done]. apply list_insert_insert_eq. Qed.

Lemma zlen_nonneg l : 0 <= zlen l.
Proof. unfold zlen. lia. Qed.

Lemma zlen_app l k : zlen (l ++ k) = zlen l + zlen k.
Proof. unfold zlen. rewrite length_app. lia. Qed.

(** Extensionality. *)
Lemma lookupZ_ext l1 l2 :
  zlen l1 = zlen l2 -> (forall i, 0 <= i < zlen l1 -> lookupZ l1 i = lookupZ l2 i) ->
  l1 = l2.
Proof.
  intros Hlen Heq. apply list_eq_same_length with (length l1); [|done|].
  { unfold zlen in *. lia. }
  intros i x y Hi H1 H2. specialize (Heq (Z.of_nat i)).
  unfold lookupZ, zlen in *. destruct (Z.leb_spec 0 (Z.of_nat i)); [|lia].
  rewrite Nat2Z.id in Heq. rewrite H1, H2 in Heq.
  assert (Some x = Some y) by (apply Heq; lia). congruence.
Qed.
End Arrays.

Lemma fupd_eq {B} (f : Z -> B) a b : fupd f a b a = b.
Proof. unfold fupd. by rewrite Z.eqb_refl. Qed.

Lemma fupd_ne {B} (f : Z -> B) a b x : x <> a -> fupd f a b x = f x.
Proof. unfold fupd. destruct (Z.eqb_spec x a); [lia|done]. Qed.

(** ** Rules of the program logic *)

Section ProgramLogic.
Context {St : Type}.

Lemma wp_ret {A} (a : A) Q (s : St) : Q a s -> wp (ret a) Q s.
Proof. done. Qed.

Lemma wp_bind {A B} (m : M St A) (k : A -> M St B) Q s :
  wp m (fun a => wp (k a) Q) s -> wp (bind m k) Q s.
Proof. unfold wp, bind. by destruct (m s). Qed.

Lemma wp_mono {A} (m : M St A) (P Q : A -> St -> Prop) s :
  wp m P s -> (forall a s', P a s' -> Q a s') -> wp m Q s.
Proof. unfold wp. destruct (m s); auto. Qed.

Lemma wp_and {A} (m : M St A) (P Q : A -> St -> Prop) s :
  wp m P s -> wp m Q s -> wp m (fun a s' => P a s' /\ Q a s') s.
Proof. unfold wp. destruct (m s); auto. Qed.

Lemma wp_gets {A} (f : St -> A) Q s : Q (f s) s -> wp (gets f) Q s.
Proof. done. Qed.

Lemma wp_modify (f : St -> St) Q s : Q tt (f s) -> wp (modify f) Q s.
Proof. done. Qed.

Lemma wp_kassert b Q (s : St) : b = true -> Q tt s -> wp (kassert b) Q s.
Proof. by intros ->. Qed.

Lemma wp_array_get {A} (l : list A) i x Q (s : St) :
  lookupZ l i = Some x -> Q x s -> wp (array_get l i) Q s.
Proof. unfold array_get. by intros ->. Qed.

Lemma wp_deref {A} (a : A) p Q (s : St) : p = Some a -> Q a s -> wp (deref p) Q s.
Proof. by intros ->. Qed.

Lemma wp_if {A} (b : bool) (m1 m2 : M St A) Q s :
  (b = true -> wp m1 Q s) -> (b = false -> wp m2 Q s) -> wp (if b then m1 else m2) Q s.
Proof. destruct b; auto. Qed.

Lemma wp_zoom {T A} (L : lens St T) (m : M T A) Q s :
  wp m (fun a t => Q a (l_set L t s)) (l_get L s) -> wp (zoom L m) Q s.
Proof. unfold wp, zoom. by destruct (m (l_get L s)). Qed.

Lemma wp_Done {A} (m : M St A) Q s a s' : m s = Done a s' -> Q a s' -> wp m Q s.
Proof. unfold wp. by intros ->. Qed.

Lemma wp_ext {A} (m m' : M St A) Q s : m s = m' s -> wp m' Q s -> wp m Q s.
Proof. unfold wp. by intros ->. Qed.

Lemma wp_inv {A} (m : M St A) Q s : wp m Q s -> exists a s', m s = Done a s' /\ Q a s'.
Proof. unfold wp. destruct (m s); [eauto|done]. Qed.

(** *** With faults *)

Section Faults.
Context (E : fault -> Prop).

Lemma wpe_wp {A} (m : M St A) Q s : wp m Q s -> wpe E m Q s.
Proof. unfold wp, wpe. by destruct (m s). Qed.

Lemma wpe_wlp {A} (m : M St A) Q s : E OutOfFuel -> wlp m Q s -> wpe E m Q s.
Proof. unfold wlp, wpe. destruct (m s); [done|by intros ? ->]. Qed.

Lemma wpe_bind {A B} (m : M St A) (k : A -> M St B) Q s :
  wpe E m (fun a => wpe E (k a) Q) s -> wpe E (bind m k) Q s.
Proof. unfold wpe, bind. by destruct (m s). Qed.

Lemma wpe_assoc {A B C} (m : M St A) (k : A -> M St B) (h : B -> M St C) Q s :
  wpe E (bind (bind m k) h) Q s -> wpe E (bind m (fun a => bind (k a) h)) Q s.
Proof. unfold wpe, bind. by destruct (m s). Qed.

Lemma wpe_ret {A} (a : A) Q (s : St) : Q a s -> wpe E (ret a) Q s.
Proof. done. Qed.

Lemma wpe_mono {A} (m : M St A) (P Q : A -> St -> Prop) s :
  wpe E m P s -> (forall a s', P a s' -> Q a s') -> wpe E m Q s.
Proof. unfold wpe. destruct (m s); auto. Qed.

Lemma wpe_Done {A} (m : M St A) Q s a s' : wpe E m Q s -> m s = Done a s' -> Q a s'.
Proof. unfold wpe. by intros H E'; rewrite E' in H. Qed.

Lemma wpe_fail {A} f (Q : A -> St -> Prop) s : E f -> wpe E (fail f) Q s.
Proof. done. Qed.
End Faults.

Lemma wp_wpe {A} (m : M St A) Q s : wpe (fun _ => False) m Q s -> wp m Q s.
Proof. done. Qed.

Lemma wlp_wp {A} (m : M St A) Q s : wp m Q s -> wlp m Q s.
Proof. apply wpe_wp. Qed.

Lemma wlp_bind {A B} (m : M St A) (k : A -> M St B) Q s :
  wlp m (fun a => wlp (k a) Q) s -> wlp (bind m k) Q s.
Proof. apply wpe_bind. Qed.

Lemma wlp_mono {A} (m : M St A) (P Q : A -> St -> Prop) s :
  wlp m P s -> (forall a s', P a s' -> Q a s') -> wlp m Q s.
Proof. apply wpe_mono. Qed.

Lemma wlp_Done {A} (m : M St A) Q s a s' : wlp m Q s -> m s = Done a s' -> Q a s'.
Proof. apply wpe_Done. Qed.

(** Loop rule: [I i] holds when the loop reaches [i]. *)
Lemma wp_for_loop (I : Z -> St -> Prop) n i body Q s :
  I i s ->
  (forall j s, i <= j < i + Z.of_nat n -> I j s -> wp (body j) (fun _ => I (j + 1)) s) ->
  (forall s, I (i + Z.of_nat n) s -> Q tt s) ->
  wp (for_loop n i body) Q s.
Proof.
  revert i s. induction n as [|n IH]; intros i s HI Hb HQ; cbn [for_loop].
  - apply wp_ret, HQ. by replace (i + Z.of_nat 0) with i by lia.
  - apply wp_bind. eapply wp_mono; [apply Hb; [lia|done]|]. intros [] s' HI'.
    apply IH; [done| |].
    + intros j s'' Hj. apply Hb. lia.
    + intros s'' HI''. apply HQ. by replace (i + Z.of_nat (S n)) with (i + 1 + Z.of_nat n) by lia.
Qed.

Lemma wp_for_range (I : Z -> St -> Prop) from to body Q s :
  I from s ->
  (forall j s, from <= j < to -> I j s -> wp (body j) (fun _ => I (j + 1)) s) ->
  (forall s, I (Z.max from to) s -> Q tt s) ->
  wp (for_range from to body) Q s.
Proof.
  intros HI Hb HQ. apply (wp_for_loop I); [done| |].
  - intros j s' Hj. apply Hb. lia.
  - intros s'. replace (from + Z.of_nat (Z.to_nat (to - from))) with (Z.max from to) by lia.
    apply HQ.
Qed.

Lemma bind_Done {A B} (m : M St A) (k : A -> M St B) s a s' :
  m s = Done a s' -> bind m k s = k a s'.
Proof. unfold bind. by intros ->. Qed.

Lemma bind_assoc {A B C} (m : M St A) (k : A -> M St B) (h : B -> M St C) s :
  bind (bind m k) h s = bind m (fun a => bind (k a) h) s.
Proof. unfold bind. by destruct (m s). Qed.

Lemma wp_assoc {A B C} (m : M St A) (k : A -> M St B) (h : B -> M St C) Q s :
  wp (bind (bind m k) h) Q s -> wp (bind m (fun a => bind (k a) h)) Q s.
Proof. unfold wp. by rewrite bind_assoc. Qed.
End ProgramLogic.

(** ** Automation *)

Create HintDb s3k.
Create Rewrite HintDb s3k.
Create Rewrite HintDb fields.

#[export] Hint Rewrite @fupd_eq : s3k.
#[export] Hint Rewrite @zlen_insertZ : s3k.
#[export] Hint Rewrite fget_fset_eq using reflexivity : fields.
#[export] Hint Rewrite fget_fset_ne using reflexivity : fields.
#[export] Hint Rewrite fget_0 : fields.

(** Turning the boolean conditions of the code into propositions. *)
Ltac breflect :=
  repeat match goal with
  | H : context [_ && _ = true] |- _ => rewrite andb_true_iff in H
  | H : context [_ || _ = true] |- _ => rewrite orb_true_iff in H
  | H : context [_ && _ = false] |- _ => rewrite andb_false_iff in H
  | H : context [_ || _ = false] |- _ => rewrite orb_false_iff in H
  | H : context [negb _ = true] |- _ => rewrite negb_true_iff in H
  | H : context [negb _ = false] |- _ => rewrite negb_false_iff in H
  | H : context [(_ <=? _) = true] |- _ => rewrite Z.leb_le in H
  | H : context [(_ <? _) = true] |- _ => rewrite Z.ltb_lt in H
  | H : context [(_ =? _) = true] |- _ => rewrite Z.eqb_eq in H
  | H : context [(_ <=? _) = false] |- _ => rewrite Z.leb_gt in H
  | H : context [(_ <? _) = false] |- _ => rewrite Z.ltb_ge in H
  | H : context [(_ =? _) = false] |- _ => rewrite Z.eqb_neq in H
  end.

(** One step of symbolic execution in the program logic. *)
Ltac wp_step :=
  lazymatch goal with
  | |- wp (bind _ _) _ _ => apply wp_bind
  | |- wp (ret _) _ _ => apply wp_ret
  | |- wp (gets _) _ _ => apply wp_gets
  | |- wp (modify _) _ _ => apply wp_modify
  | |- wp (if _ then _ else _) _ _ => apply wp_if; intros
  | |- wp (zoom _ _) _ _ => apply wp_zoom
  end; cbn beta.
Ltac wp_steps := repeat wp_step.
