(* ===== verification/Config.v ===== *)
(** * Build configuration

    The preprocessor constants of [kernel/s3k_conf.h] and
    [common/inc/plat/*.h], as the fields of a class: every definition and
    theorem of the development is stated for an arbitrary configuration, and
    [ConfigOk] collects the relations between the constants the kernel relies
    on.  The instances at the end are the configurations of the repository. *)

From S2P Require Import Prelude.

Class Config := {
  S3K_PROC_CNT : Z;     (** number of user processes *)
  S3K_CAP_CNT : Z;      (** capabilities per process *)
  S3K_CHAN_CNT : Z;     (** number of IPC channels *)
  S3K_SLOT_CNT : Z;     (** time slots per period *)
  S3K_SLOT_LEN : Z;     (** length of a slot, in ticks *)
  S3K_SCHED_TIME : Z;   (** time reserved for the scheduler *)
  S3K_MIN_HART : Z;
  S3K_MAX_HART : Z;
  S3K_PMP_CNT : Z       (** number of PMP slots *)
}.

Definition S3K_HART_CNT `{Config} : Z := S3K_MAX_HART - S3K_MIN_HART + 1.

(** [#if S3K_HART_CNT > 1 / #define SMP] *)
Definition SMP `{Config} : bool := 1 <? S3K_HART_CNT.

(** Size of the capability table. *)
Definition CTABLE_LEN `{Config} : Z := S3K_PROC_CNT * S3K_CAP_CNT.

Class ConfigOk (C : Config) : Prop := {
  proc_cnt_pos : 0 < S3K_PROC_CNT;
  proc_cnt_8bit : S3K_PROC_CNT <= 2 ^ 8;       (** pids are stored in 8 bits of a slot *)
  cap_cnt_pos : 0 < S3K_CAP_CNT;
  cap_cnt_16bit : S3K_CAP_CNT <= 2 ^ 16;
  chan_cnt_16bit : 0 <= S3K_CHAN_CNT < 2 ^ 16;
  slot_cnt_8bit : 0 < S3K_SLOT_CNT < 2 ^ 8;     (** lengths are stored in 8 bits *)
  slot_len_pos : 0 < S3K_SLOT_LEN < 2 ^ 32;
  sched_time_lt : 0 <= S3K_SCHED_TIME < S3K_SLOT_LEN;
  hart_range : 0 <= S3K_MIN_HART <= S3K_MAX_HART;
  hart_8bit : S3K_MAX_HART < 2 ^ 8;
  hart_lanes : S3K_MAX_HART - S3K_MIN_HART < 4; (** four 16-bit lanes in a slot word *)
  pmp_cnt_8 : S3K_PMP_CNT = 8                   (** [proc_pmp_sync] writes eight registers *)
}.

(** [kernel/s3k_conf.h] on [common/inc/plat/qemu_virt.h]: one hart. *)
Definition qemu_virt : Config := {|
  S3K_PROC_CNT := 2; S3K_CAP_CNT := 32; S3K_CHAN_CNT := 2; S3K_SLOT_CNT := 32;
  S3K_SLOT_LEN := 1000000 / 32; S3K_SCHED_TIME := 1000000 / 32 / 10;
  S3K_MIN_HART := 0; S3K_MAX_HART := 0; S3K_PMP_CNT := 8
|}.

(** [kernel/s3k_conf.h] on [common/inc/plat/qemu_virt4.h]: four harts, SMP. *)
Definition qemu_virt4 : Config := {|
  S3K_PROC_CNT := 2; S3K_CAP_CNT := 32; S3K_CHAN_CNT := 2; S3K_SLOT_CNT := 32;
  S3K_SLOT_LEN := 1000000 / 32; S3K_SCHED_TIME := 1000000 / 32 / 10;
  S3K_MIN_HART := 0; S3K_MAX_HART := 3; S3K_PMP_CNT := 8
|}.

#[global] Instance qemu_virt_ok : ConfigOk qemu_virt.
Proof. split; vm_compute; intuition congruence. Qed.

#[global] Instance qemu_virt4_ok : ConfigOk qemu_virt4.
Proof. split; vm_compute; intuition congruence. Qed.

(** The bounds of the configuration, in the context of a proof. *)
Ltac config_bounds :=
  match goal with
  | C : ConfigOk _ |- _ =>
      pose proof (@proc_cnt_pos _ C); pose proof (@proc_cnt_8bit _ C);
      pose proof (@cap_cnt_pos _ C); pose proof (@cap_cnt_16bit _ C);
      pose proof (@chan_cnt_16bit _ C); pose proof (@slot_cnt_8bit _ C);
      pose proof (@hart_range _ C); pose proof (@hart_8bit _ C);
      pose proof (@hart_lanes _ C); pose proof (@pmp_cnt_8 _ C)
  end.

Section ConfigFacts.
Context `{C : Config} {Cok : ConfigOk C}.

Lemma ctable_len_pos : 0 < CTABLE_LEN.
Proof. unfold CTABLE_LEN. config_bounds. nia. Qed.

Lemma ctable_len_32bit : CTABLE_LEN <= 2 ^ 24.
Proof. unfold CTABLE_LEN. config_bounds. nia. Qed.
End ConfigFacts.
