(* ===== verification/CapTypes.v ===== *)
(** * Capabilities

    [kernel/inc/cap_types.h] and [kernel/src/cap_util.c], [kernel/inc/cap_util.h].
    A capability is the 64-bit [raw] word of the union [cap_t]; each member of
    the union is a list of bit fields of that word, at the offsets the RV64
    ABI gives them (bit fields are allocated from the least significant bit).
    Reading through another member than the one that was written, as
    [cap_is_valid] does for channels, is therefore what it is in the code: the
    same bits of the same word. *)

From S2P Require Import Prelude Config.

Notation "c ⟦ f ⟧" := (fget f c) (at level 1, format "c ⟦ f ⟧") : kernel_scope.
Notation "c ⟦ f := v ⟧" := (fset f v c)
  (at level 1, v at level 200, format "c ⟦ f  :=  v ⟧") : kernel_scope.

Definition MIN_BLOCK_SIZE : Z := 12.
Definition MAX_BLOCK_SIZE : Z := 27.

Inductive capty_t :=
| CAPTY_NONE | CAPTY_TIME | CAPTY_MEMORY | CAPTY_PMP
| CAPTY_MONITOR | CAPTY_CHANNEL | CAPTY_SOCKET | CAPTY_COUNT.

Definition capty (t : capty_t) : Z :=
  match t with
  | CAPTY_NONE => 0 | CAPTY_TIME => 1 | CAPTY_MEMORY => 2 | CAPTY_PMP => 3
  | CAPTY_MONITOR => 4 | CAPTY_CHANNEL => 5 | CAPTY_SOCKET => 6 | CAPTY_COUNT => 7
  end.
Coercion capty : capty_t >-> Z.

(** [mem_perm_t] *)
Definition MEM_R : Z := 1.
Definition MEM_W : Z := 2.
Definition MEM_X : Z := 4.
Definition MEM_RW : Z := Z.lor MEM_R MEM_W.
Definition MEM_RWX : Z := Z.lor (Z.lor MEM_R MEM_W) MEM_X.

(** [ipc_mode_t] *)
Definition IPC_NOYIELD : Z := 0.
Definition IPC_YIELD : Z := 1.

(** [ipc_perm_t] *)
Definition IPC_SDATA : Z := 1.
Definition IPC_SCAP : Z := 2.
Definition IPC_CDATA : Z := 4.
Definition IPC_CCAP : Z := 8.

(** The union [cap_t], by its raw word, and its bit fields. *)
Definition cap_t : Type := Z.

Definition cap_type : field := Field 0 4.
Definition time_hart : field := Field 8 8.
Definition time_bgn : field := Field 16 16.
Definition time_mrk : field := Field 32 16.
Definition time_end : field := Field 48 16.
Definition mem_rwx : field := Field 4 3.
Definition mem_lck : field := Field 7 1.
Definition mem_tag : field := Field 8 8.
Definition mem_bgn : field := Field 16 16.
Definition mem_mrk : field := Field 32 16.
Definition mem_end : field := Field 48 16.
Definition pmp_rwx : field := Field 4 3.
Definition pmp_used : field := Field 7 1.
Definition pmp_slot : field := Field 8 8.
Definition pmp_addr : field := Field 16 48.
Definition mon_bgn : field := Field 16 16.
Definition mon_mrk : field := Field 32 16.
Definition mon_end : field := Field 48 16.
Definition chan_bgn : field := Field 16 16.
Definition chan_mrk : field := Field 32 16.
Definition chan_end : field := Field 48 16.
Definition sock_mode : field := Field 4 4.
Definition sock_perm : field := Field 8 8.
Definition sock_chan : field := Field 16 16.
Definition sock_tag : field := Field 32 32.

(** The cases of the union. *)
Inductive cap_view :=
| VNone
| VTime (hart bgn mrk end_ : Z)
| VMemory (rwx lck tag bgn mrk end_ : Z)
| VPmp (rwx used slot addr : Z)
| VMonitor (bgn mrk end_ : Z)
| VChannel (bgn mrk end_ : Z)
| VSocket (mode perm chan tag : Z)
| VUnknown.

Definition cap_decode (c : cap_t) : cap_view :=
  if c⟦cap_type⟧ =? CAPTY_NONE then VNone else
  if c⟦cap_type⟧ =? CAPTY_TIME then
    VTime c⟦time_hart⟧ c⟦time_bgn⟧ c⟦time_mrk⟧ c⟦time_end⟧ else
  if c⟦cap_type⟧ =? CAPTY_MEMORY then
    VMemory c⟦mem_rwx⟧ c⟦mem_lck⟧ c⟦mem_tag⟧ c⟦mem_bgn⟧ c⟦mem_mrk⟧ c⟦mem_end⟧ else
  if c⟦cap_type⟧ =? CAPTY_PMP then
    VPmp c⟦pmp_rwx⟧ c⟦pmp_used⟧ c⟦pmp_slot⟧ c⟦pmp_addr⟧ else
  if c⟦cap_type⟧ =? CAPTY_MONITOR then VMonitor c⟦mon_bgn⟧ c⟦mon_mrk⟧ c⟦mon_end⟧ else
  if c⟦cap_type⟧ =? CAPTY_CHANNEL then VChannel c⟦chan_bgn⟧ c⟦chan_mrk⟧ c⟦chan_end⟧ else
  if c⟦cap_type⟧ =? CAPTY_SOCKET then
    VSocket c⟦sock_mode⟧ c⟦sock_perm⟧ c⟦sock_chan⟧ c⟦sock_tag⟧ else
  VUnknown.

(** ** Constructors

    A constructor starts from an uninitialised [cap_t], the argument [u] here:
    the padding bits keep whatever it held. *)

Section Constructors.
Context `{C : Config} {St : Type}.

Definition cap_mk_time (u : cap_t) (hart bgn end_ : Z) : M St cap_t :=
  let hart := u8 hart in
  let bgn := u16 bgn in
  let end_ := u16 end_ in
  do* kassert (bgn <? end_) in
  do* kassert (if 0 <? S3K_MIN_HART then S3K_MIN_HART <=? hart else true) in
  do* kassert (hart <=? S3K_MAX_HART) in
  do* kassert (end_ <=? S3K_SLOT_CNT) in
  let cap := u in
  let cap := cap⟦cap_type := CAPTY_TIME⟧ in
  let cap := cap⟦time_hart := hart⟧ in
  let cap := cap⟦time_bgn := bgn⟧ in
  let cap := cap⟦time_mrk := bgn⟧ in
  let cap := cap⟦time_end := end_⟧ in
  ret cap.

Definition cap_mk_memory (u : cap_t) (bgn end_ rwx : Z) : M St cap_t :=
  let bgn := u64 bgn in
  let end_ := u64 end_ in
  let rwx := u8 rwx in
  let tag := Z.shiftr bgn MAX_BLOCK_SIZE in
  do* kassert (bgn <? end_) in
  do* kassert (end_ <=? u64 (Z.shiftl (u64 (tag + 1)) MAX_BLOCK_SIZE)) in
  let cap := u in
  let cap := cap⟦cap_type := CAPTY_MEMORY⟧ in
  let cap := cap⟦mem_tag := tag⟧ in
  let cap := cap⟦mem_bgn :=
    Z.shiftr (u64 (bgn - u64 (Z.shiftl tag MAX_BLOCK_SIZE))) MIN_BLOCK_SIZE⟧ in
  let cap := cap⟦mem_end :=
    Z.shiftr (u64 (end_ - u64 (Z.shiftl tag MAX_BLOCK_SIZE))) MIN_BLOCK_SIZE⟧ in
  let cap := cap⟦mem_mrk := cap⟦mem_bgn⟧⟧ in
  let cap := cap⟦mem_rwx := rwx⟧ in
  let cap := cap⟦mem_lck := 0⟧ in
  ret cap.

Definition cap_mk_pmp (u : cap_t) (addr rwx : Z) : M St cap_t :=
  let addr := u64 addr in
  let rwx := u8 rwx in
  let cap := u in
  let cap := cap⟦cap_type := CAPTY_PMP⟧ in
  let cap := cap⟦pmp_addr := addr⟧ in
  let cap := cap⟦pmp_rwx := rwx⟧ in
  let cap := cap⟦pmp_used := 0⟧ in
  let cap := cap⟦pmp_slot := 0⟧ in
  ret cap.

Definition cap_mk_monitor (u : cap_t) (bgn end_ : Z) : M St cap_t :=
  let bgn := u16 bgn in
  let end_ := u16 end_ in
  do* kassert (bgn <? end_) in
  do* kassert (end_ <=? S3K_PROC_CNT) in
  let cap := u in
  let cap := cap⟦cap_type := CAPTY_MONITOR⟧ in
  let cap := cap⟦mon_bgn := bgn⟧ in
  let cap := cap⟦mon_end := end_⟧ in
  let cap := cap⟦mon_mrk := bgn⟧ in
  ret cap.

Definition cap_mk_channel (u : cap_t) (bgn end_ : Z) : M St cap_t :=
  let bgn := u16 bgn in
  let end_ := u16 end_ in
  do* kassert (bgn <? end_) in
  do* kassert (end_ <=? S3K_CHAN_CNT) in
  let cap := u in
  let cap := cap⟦cap_type := CAPTY_CHANNEL⟧ in
  let cap := cap⟦chan_bgn := bgn⟧ in
  let cap := cap⟦chan_end := end_⟧ in
  let cap := cap⟦chan_mrk := bgn⟧ in
  ret cap.

Definition cap_mk_socket (u : cap_t) (chan mode perm tag : Z) : M St cap_t :=
  let chan := u16 chan in
  let tag := u32 tag in
  let cap := u in
  let cap := cap⟦cap_type := CAPTY_SOCKET⟧ in
  let cap := cap⟦sock_chan := chan⟧ in
  let cap := cap⟦sock_mode := mode⟧ in
  let cap := cap⟦sock_perm := perm⟧ in
  let cap := cap⟦sock_tag := tag⟧ in
  ret cap.
End Constructors.

(** ** [cap_util.h] *)

Definition tag_block_to_addr (tag block : Z) : Z :=
  u64 (u64 (Z.shiftl tag MAX_BLOCK_SIZE) + u64 (Z.shiftl block MIN_BLOCK_SIZE)).

(** [pmp_napot_decode(addr, &base, &size)], as the pair of its outputs. *)
Definition pmp_napot_decode (addr : Z) : Z * Z :=
  (u64 (Z.shiftl (Z.land (u64 (addr + 1)) addr) 2),
   u64 (Z.shiftl (u64 (Z.lxor (u64 (addr + 1)) addr + 1)) 2)).

Definition pmp_napot_encode (base size : Z) : Z :=
  Z.shiftr (Z.lor base (u64 (size / 2 - 1))) 2.

Definition cap_is_valid (cap : cap_t) : bool :=
  if cap⟦cap_type⟧ =? CAPTY_TIME then
    (cap⟦time_bgn⟧ <? cap⟦time_end⟧) && (cap⟦time_bgn⟧ =? cap⟦time_mrk⟧)
  else if cap⟦cap_type⟧ =? CAPTY_MEMORY then
    (cap⟦mem_lck⟧ =? 0) && (cap⟦mem_bgn⟧ <? cap⟦mem_end⟧) &&
    (cap⟦mem_mrk⟧ =? cap⟦mem_bgn⟧)
  else if cap⟦cap_type⟧ =? CAPTY_PMP then
    (cap⟦pmp_used⟧ =? 0) && (cap⟦pmp_slot⟧ =? 0)
  else if cap⟦cap_type⟧ =? CAPTY_MONITOR then
    (cap⟦mon_bgn⟧ <? cap⟦mon_end⟧) && (cap⟦mon_bgn⟧ =? cap⟦mon_mrk⟧)
  else if cap⟦cap_type⟧ =? CAPTY_CHANNEL then
    (cap⟦mem_bgn⟧ <? cap⟦mem_end⟧) && (cap⟦mem_bgn⟧ =? cap⟦mem_mrk⟧)
  else if cap⟦cap_type⟧ =? CAPTY_SOCKET then
    (cap⟦sock_mode⟧ =? IPC_YIELD) || (cap⟦sock_mode⟧ =? IPC_NOYIELD)
  else false.
