(* ===== verification/CapTable.v ===== *)
(** * The capability table

    [kernel/src/cap_table.c]: the table [ctable] of capability table entries,
    which are the nodes of one circular doubly linked list, the capability
    derivation list.  A [cte_t] is the address of an entry; here it is the
    index of the entry in the table, the value the code computes with
    [offset].  The operations are those of the C file, in the fault monad over
    the table: an access outside the table is the fault [OutOfBounds]. *)

From S2P Require Import Prelude Config CapTypes.

(** [struct cte] *)
Record cte := Cte { c_prev : Z; c_next : Z; c_cap : cap_t }.

Definition cte_t : Type := Z.
Definition ctable_t : Type := list cte.

(** The table in [.bss]: all zero. *)
Definition ctable_bss `{Config} : ctable_t :=
  replicate (Z.to_nat CTABLE_LEN) (Cte 0 0 0).

Section Operations.
Context `{C : Config}.

Definition offset (c : cte_t) : Z := u32 c.

(** [c->field] and [c->field = v] *)
Definition cte_load (c : cte_t) : M ctable_t cte := fun ct => array_get ct c ct.

Definition cte_store (c : cte_t) (e : cte) : M ctable_t unit :=
  do* cte_load c in modify (insertZ c e).

Definition ctable_get (pid index : Z) : M ctable_t cte_t :=
  do* kassert (pid <? S3K_PROC_CNT) in
  do* kassert (index <? S3K_CAP_CNT) in
  ret (pid * S3K_CAP_CNT + index).

Definition cte_is_empty (c : cte_t) : M ctable_t bool :=
  let* e := cte_load c in ret ((c_cap e)⟦cap_type⟧ =? 0).

Definition cte_set_next (c next : cte_t) : M ctable_t unit :=
  let* e := cte_load c in cte_store c (Cte (c_prev e) (offset next) (c_cap e)).

Definition cte_set_prev (c prev : cte_t) : M ctable_t unit :=
  let* e := cte_load c in cte_store c (Cte (offset prev) (c_next e) (c_cap e)).

Definition cte_set_cap (c : cte_t) (cap : cap_t) : M ctable_t unit :=
  let* e := cte_load c in cte_store c (Cte (c_prev e) (c_next e) cap).

Definition cte_next (c : cte_t) : M ctable_t cte_t :=
  let* e := cte_load c in ret (c_next e).

Definition cte_prev (c : cte_t) : M ctable_t cte_t :=
  let* e := cte_load c in ret (c_prev e).

Definition cte_cap (c : cte_t) : M ctable_t cap_t :=
  let* e := cte_load c in ret (c_cap e).

Definition cte_pid (c : cte_t) : Z := offset c / S3K_CAP_CNT.

Definition cte_move (src dst : cte_t) : M ctable_t unit :=
  if src =? dst then ret tt else
  let* cap := cte_cap src in
  do* cte_set_cap dst cap in
  do* cte_set_cap src 0 in
  let* p := cte_prev src in
  do* cte_set_prev dst p in
  let* n := cte_next src in
  do* cte_set_next dst n in
  (* cte_prev(dst)->next = offset(dst); *)
  let* p := cte_prev dst in
  do* cte_set_next p dst in
  (* cte_next(dst)->prev = offset(dst); *)
  let* n := cte_next dst in
  cte_set_prev n dst.

Definition cte_delete (c : cte_t) : M ctable_t cap_t :=
  let* cap := cte_cap c in
  do* cte_set_cap c 0 in
  let* p := cte_prev c in
  let* n := cte_next c in
  do* cte_set_next p n in
  let* n := cte_next c in
  let* p := cte_prev c in
  do* cte_set_prev n p in
  ret cap.

Definition cte_insert (c : cte_t) (cap : cap_t) (prev : cte_t) : M ctable_t unit :=
  do* cte_set_prev c prev in
  let* n := cte_next prev in
  do* cte_set_next c n in
  let* p := cte_prev c in
  do* cte_set_next p c in
  let* n := cte_next c in
  do* cte_set_prev n c in
  cte_set_cap c cap.

(** [ctable_init] on the list of initial capabilities, without the prints. *)
Fixpoint ctable_init_from (i : Z) (init_caps : list cap_t) : M ctable_t unit :=
  match init_caps with
  | [] => ret tt
  | cap :: caps =>
      do* (if cap⟦cap_type⟧ =? CAPTY_NONE then ret tt else cte_insert i cap 0) in
      ctable_init_from (i + 1) caps
  end.

Definition ctable_init (init_caps : list cap_t) : M ctable_t unit :=
  ctable_init_from 0 init_caps.
End Operations.
