(* ===== verification/CapList.v ===== *)
(** * The capability derivation list

    What the linked-list operations of [kernel/src/cap_table.c] do: the
    occupied entries of the table form one ring, and insertion, deletion and
    moving are insertion after, removal and replacement on the list of its
    elements.

    [tbl ct nx pv cp] describes a table by its [next], [prev] and [cap]
    columns; [repr nx pv cp l] says the ring starting at the head of [l] visits
    exactly the occupied entries, in the order of [l]. *)

From S2P Require Import Prelude Config CapTypes CapTable.

Definition cap_at (ct : ctable_t) (c : cte_t) : cap_t :=
  match lookupZ ct c with Some e => c_cap e | None => 0 end.
Definition next_at (ct : ctable_t) (c : cte_t) : cte_t :=
  match lookupZ ct c with Some e => c_next e | None => 0 end.
Definition prev_at (ct : ctable_t) (c : cte_t) : cte_t :=
  match lookupZ ct c with Some e => c_prev e | None => 0 end.

Section Definitions.
Context `{C : Config}.

Definition in_table (c : cte_t) : Prop := 0 <= c < CTABLE_LEN.

Definition tbl (ct : ctable_t) (nx pv cp : Z -> Z) : Prop :=
  zlen ct = CTABLE_LEN /\
  forall c, in_table c -> lookupZ ct c = Some (Cte (pv c) (nx c) (cp c)).

(** Links stay inside the table. *)
Definition links_ok (nx pv : Z -> Z) : Prop :=
  forall c, in_table c -> in_table (nx c) /\ in_table (pv c).

Definition occupied (cp : Z -> Z) (c : cte_t) : Prop :=
  in_table c /\ (cp c)⟦cap_type⟧ <> 0.

Definition linked (nx pv : Z -> Z) (a b : Z) : Prop := nx a = b /\ pv b = a.

Fixpoint chain (nx pv : Z -> Z) (a : Z) (l : list Z) (b : Z) : Prop :=
  match l with
  | [] => linked nx pv a b
  | x :: l => linked nx pv a x /\ chain nx pv x l b
  end.

Definition ring (nx pv : Z -> Z) (l : list Z) : Prop :=
  match l with
  | [] => True
  | h :: t => chain nx pv h t h
  end.

Definition repr (nx pv cp : Z -> Z) (l : list Z) : Prop :=
  NoDup l /\ ring nx pv l /\ forall c, c ∈ l <-> occupied cp c.

(** The list of the occupied entries of a table, in ring order. *)
Definition cap_list (ct : ctable_t) (l : list Z) : Prop :=
  repr (next_at ct) (prev_at ct) (cap_at ct) l.
End Definitions.

(** ** The abstract list

    The contract of the table: the entries in derivation order, with insertion
    after an element, removal, replacement and the circular successor. *)

Fixpoint l_insert (c p : cte_t) (l : list cte_t) : list cte_t :=
  match l with
  | [] => []
  | x :: l => if x =? p then x :: c :: l else x :: l_insert c p l
  end.

Fixpoint l_remove (c : cte_t) (l : list cte_t) : list cte_t :=
  match l with
  | [] => []
  | x :: l => if x =? c then l else x :: l_remove c l
  end.

Definition l_replace (src dst : cte_t) (l : list cte_t) : list cte_t :=
  map (fun x => if x =? src then dst else x) l.

Fixpoint after (c : cte_t) (l : list cte_t) : option cte_t :=
  match l with
  | [] => None
  | x :: l => if x =? c then head l else after c l
  end.

Definition l_next (c : cte_t) (l : list cte_t) : cte_t :=
  match after c l with Some d => d | None => hd c l end.

(** ** Columns *)

Section Columns.
Context `{C : Config} {Cok : ConfigOk C}.

Lemma offset_in_table c : in_table c -> offset c = c.
Proof.
  intros [H1 H2]. unfold offset, u32. pose proof ctable_len_32bit.
  apply Z.mod_small. lia.
Qed.

Lemma tbl_canon ct :
  zlen ct = CTABLE_LEN -> tbl ct (next_at ct) (prev_at ct) (cap_at ct).
Proof.
  intros Hl. split; [done|]. intros c Hc. unfold next_at, prev_at, cap_at.
  destruct (lookupZ_lt ct c) as [[p n k] ->]; [by unfold in_table in Hc; lia|done].
Qed.

Lemma tbl_at ct nx pv cp c :
  tbl ct nx pv cp -> in_table c ->
  next_at ct c = nx c /\ prev_at ct c = pv c /\ cap_at ct c = cp c.
Proof.
  intros [_ Ht] Hc. unfold next_at, prev_at, cap_at. by rewrite (Ht c Hc).
Qed.

Lemma wp_cte_load ct nx pv cp c Q :
  tbl ct nx pv cp -> in_table c ->
  Q (Cte (pv c) (nx c) (cp c)) ct -> wp (cte_load c) Q ct.
Proof.
  intros [_ Ht] Hc HQ. unfold wp, cte_load, array_get. by rewrite (Ht c Hc).
Qed.

Lemma wp_cte_store ct nx pv cp c p n k Q :
  tbl ct nx pv cp -> in_table c ->
  (forall ct', tbl ct' (fupd nx c n) (fupd pv c p) (fupd cp c k) -> Q tt ct') ->
  wp (cte_store c (Cte p n k)) Q ct.
Proof.
  intros [Hl Ht] Hc HQ. apply wp_bind. eapply wp_cte_load; [by split|done|].
  apply wp_modify, HQ. split; [by rewrite zlen_insertZ|]. intros x Hx.
  rewrite lookupZ_insertZ by (unfold in_table in *; lia). unfold fupd.
  by destruct (Z.eqb_spec x c) as [->|]; [|apply Ht].
Qed.

Lemma tbl_ext ct nx pv cp nx' pv' cp' :
  tbl ct nx pv cp ->
  (forall c, in_table c -> nx' c = nx c /\ pv' c = pv c /\ cp' c = cp c) ->
  tbl ct nx' pv' cp'.
Proof.
  intros [Hl Ht] He. split; [done|]. intros c Hc. rewrite Ht by done.
  by destruct (He c Hc) as (-> & -> & ->).
Qed.

Section Primitives.
Context (ct : ctable_t) (nx pv cp : Z -> Z) (c : cte_t).
Hypothesis (Ht : tbl ct nx pv cp) (Hc : in_table c).

Lemma wp_cte_next Q : Q (nx c) ct -> wp (cte_next c) Q ct.
Proof. intros. apply wp_bind. by eapply wp_cte_load. Qed.
Lemma wp_cte_prev Q : Q (pv c) ct -> wp (cte_prev c) Q ct.
Proof. intros. apply wp_bind. by eapply wp_cte_load. Qed.
Lemma wp_cte_cap Q : Q (cp c) ct -> wp (cte_cap c) Q ct.
Proof. intros. apply wp_bind. by eapply wp_cte_load. Qed.
Lemma wp_cte_is_empty Q : Q ((cp c)⟦cap_type⟧ =? 0) ct -> wp (cte_is_empty c) Q ct.
Proof. intros. apply wp_bind. by eapply wp_cte_load. Qed.

Lemma fupd_id (f : Z -> Z) x : fupd f c (f c) x = f x.
Proof. unfold fupd. by destruct (Z.eqb_spec x c) as [->|]. Qed.

Lemma wp_cte_set_next n Q :
  in_table n -> (forall ct', tbl ct' (fupd nx c n) pv cp -> Q tt ct') ->
  wp (cte_set_next c n) Q ct.
Proof.
  intros Hn HQ. apply wp_bind. eapply wp_cte_load; [done|done|].
  eapply wp_cte_store; [done|done|]. intros ct' Ht'. apply HQ.
  eapply tbl_ext; [done|]. intros x _. cbn [c_prev c_next c_cap].
  by rewrite !fupd_id, offset_in_table.
Qed.

Lemma wp_cte_set_prev n Q :
  in_table n -> (forall ct', tbl ct' nx (fupd pv c n) cp -> Q tt ct') ->
  wp (cte_set_prev c n) Q ct.
Proof.
  intros Hn HQ. apply wp_bind. eapply wp_cte_load; [done|done|].
  eapply wp_cte_store; [done|done|]. intros ct' Ht'. apply HQ.
  eapply tbl_ext; [done|]. intros x _. cbn [c_prev c_next c_cap].
  by rewrite !fupd_id, offset_in_table.
Qed.

Lemma wp_cte_set_cap k Q :
  (forall ct', tbl ct' nx pv (fupd cp c k) -> Q tt ct') ->
  wp (cte_set_cap c k) Q ct.
Proof.
  intros HQ. apply wp_bind. eapply wp_cte_load; [done|done|].
  eapply wp_cte_store; [done|done|]. intros ct' Ht'. apply HQ.
  eapply tbl_ext; [done|]. intros x _. cbn [c_prev c_next c_cap].
  by rewrite !fupd_id.
Qed.
End Primitives.
End Columns.

(** One step through a list operation whose entries are in the table. *)
Ltac cte_step :=
  cbn beta;
  lazymatch goal with
  | |- wp (bind _ _) _ _ => apply wp_bind
  | |- wp (cte_next _) _ _ => eapply wp_cte_next; [eassumption|by auto|]
  | |- wp (cte_prev _) _ _ => eapply wp_cte_prev; [eassumption|by auto|]
  | |- wp (cte_cap _) _ _ => eapply wp_cte_cap; [eassumption|by auto|]
  | |- wp (cte_set_next _ _) _ _ =>
      eapply wp_cte_set_next; [eassumption|by auto|by auto|]; intros ?ct ?Ht
  | |- wp (cte_set_prev _ _) _ _ =>
      eapply wp_cte_set_prev; [eassumption|by auto|by auto|]; intros ?ct ?Ht
  | |- wp (cte_set_cap _ _) _ _ =>
      eapply wp_cte_set_cap; [eassumption|by auto|]; intros ?ct ?Ht
  end.

Section ListOperations.
Context `{C : Config} {Cok : ConfigOk C}.
Context (ct : ctable_t) (nx pv cp : Z -> Z).
Hypothesis (Ht : tbl ct nx pv cp) (Hlk : links_ok nx pv).

Lemma wp_cte_insert c k p Q :
  in_table c -> in_table p -> c <> p ->
  (forall ct', tbl ct' (fupd (fupd nx c (nx p)) p c) (fupd (fupd pv c p) (nx p) c)
                (fupd cp c k) -> Q tt ct') ->
  wp (cte_insert c k p) Q ct.
Proof.
  intros Hc Hp Hne HQ. unfold cte_insert. destruct (Hlk p Hp) as [Hnp _].
  repeat cte_step. rewrite fupd_eq. repeat cte_step.
  rewrite fupd_ne, fupd_eq by done. repeat cte_step. apply HQ. assumption.
Qed.

Lemma wp_cte_delete c Q :
  in_table c ->
  (forall ct', tbl ct' (fupd nx (pv c) (nx c)) (fupd pv (nx c) (pv c)) (fupd cp c 0) ->
     Q (cp c) ct') ->
  wp (cte_delete c) Q ct.
Proof.
  intros Hc HQ. unfold cte_delete. destruct (Hlk c Hc) as [Hn Hp].
  repeat cte_step.
  assert (fupd nx (pv c) (nx c) c = nx c) as ->
    by (unfold fupd; by destruct (c =? pv c)).
  repeat cte_step. apply wp_ret, HQ. assumption.
Qed.

(** The new successor of [dst] is its own link when [dst] precedes [src]. *)
Definition move_next (src dst : cte_t) : cte_t := if dst =? pv src then dst else nx src.

Lemma wp_cte_move src dst Q :
  in_table src -> in_table dst -> src <> dst ->
  (forall ct', tbl ct' (fupd (fupd nx dst (nx src)) (pv src) dst)
                (fupd (fupd pv dst (pv src)) (move_next src dst) dst)
                (fupd (fupd cp dst (cp src)) src 0) -> Q tt ct') ->
  wp (cte_move src dst) Q ct.
Proof.
  intros Hs Hd Hne HQ. unfold cte_move. destruct (Hlk src Hs) as [Hn Hp].
  destruct (Z.eqb_spec src dst); [done|].
  repeat cte_step. rewrite fupd_eq. repeat cte_step.
  assert (fupd (fupd nx dst (nx src)) (pv src) dst dst = move_next src dst) as ->.
  { unfold move_next, fupd. by rewrite Z.eqb_refl. }
  assert (in_table (move_next src dst)) by (unfold move_next; by case_match).
  repeat cte_step. apply HQ. assumption.
Qed.
End ListOperations.

(** Deciding which updates of a column an access meets. *)
Ltac fupd_cases :=
  unfold fupd in *;
  repeat match goal with
  | |- context [?x =? ?y] => destruct (Z.eqb_spec x y); subst
  end;
  try (repeat split; congruence).

(** ** Chains and rings *)

Section Chains.
Implicit Types (nx pv : Z -> Z) (l : list Z).

Lemma chain_app nx pv a l1 x l2 b :
  chain nx pv a (l1 ++ x :: l2) b <-> chain nx pv a l1 x /\ chain nx pv x l2 b.
Proof.
  revert a. induction l1 as [|y l1 IH]; intros a; simpl; [done|]. rewrite IH. tauto.
Qed.

(** A chain only reads [next] before its end and [prev] after its start. *)
Lemma chain_frame nx pv nx' pv' a l b :
  (forall x, x ∈ a :: l -> nx' x = nx x) -> (forall x, x ∈ l ++ [b] -> pv' x = pv x) ->
  chain nx pv a l b -> chain nx' pv' a l b.
Proof.
  revert a. induction l as [|y l IH]; intros a Hn Hp; simpl; unfold linked.
  - rewrite Hn, Hp by set_solver. done.
  - intros [[? ?] ?]. rewrite Hn, Hp by (simpl; apply elem_of_cons; auto). split; [done|].
    apply IH; [| |done]; intros z Hz; [apply Hn|apply Hp]; simpl; apply elem_of_cons; auto.
Qed.

(** The ring may be started at any element. *)
Lemma ring_rotate nx pv l1 l2 : ring nx pv (l1 ++ l2) -> ring nx pv (l2 ++ l1).
Proof.
  destruct l2 as [|x l2], l1 as [|y l1]; rewrite ?app_nil_r; try done.
  cbn [app ring]. rewrite !chain_app. tauto.
Qed.

Lemma chain_first nx pv a l b : chain nx pv a l b -> nx a = hd b l.
Proof. destruct l as [|x l]; cbn [chain hd]; unfold linked; intros H; apply H. Qed.

Lemma chain_last nx pv a l b : chain nx pv a l b -> pv b = default a (last l).
Proof.
  revert a. induction l as [|x l IH]; intros a; simpl; unfold linked; [by intros [_ ?]|].
  intros [_ H]. rewrite (IH _ H). pose proof (last_cons x l) as Hl. simpl in Hl.
  rewrite Hl. by destruct (last l).
Qed.

Lemma ring_insert nx pv p t c :
  NoDup (c :: p :: t) -> ring nx pv (p :: t) ->
  ring (fupd (fupd nx c (nx p)) p c) (fupd (fupd pv c p) (nx p) c) (p :: c :: t).
Proof.
  rewrite !NoDup_cons. intros (Hc & Hp & Ht) Hr. cbn [ring chain] in *.
  apply not_elem_of_cons in Hc as [Hcp Hct].
  destruct t as [|x t]; cbn [chain] in *.
  - destruct Hr as [-> _]. split; unfold linked; fupd_cases.
  - destruct Hr as [[-> _] Hr]. apply NoDup_cons in Ht as [Hx Ht].
    apply not_elem_of_cons in Hp as [Hpx Hpt]. apply not_elem_of_cons in Hct as [Hcx Hct].
    split; [|split]; [unfold linked; fupd_cases..|].
    apply (chain_frame nx pv); [| |done]; intros y Hy.
    + fupd_cases; set_solver.
    + fupd_cases; set_solver.
Qed.

Lemma ring_delete nx pv c t :
  NoDup (c :: t) -> ring nx pv (c :: t) ->
  ring (fupd nx (pv c) (nx c)) (fupd pv (nx c) (pv c)) t.
Proof.
  rewrite NoDup_cons. intros [Hc Ht] Hr. cbn [ring] in Hr.
  destruct t as [|x t]; [done|]. cbn [ring chain] in *. destruct Hr as [[-> Hp] Hr].
  apply NoDup_cons in Ht as [Hx Ht].
  destruct t as [|y t' _] using rev_ind.
  - destruct Hr as [H1 ->]. cbn [chain]. unfold linked; fupd_cases.
  - apply chain_app in Hr as [Hr [H1 ->]]. apply chain_app.
    apply NoDup_app in Ht as (Ht1 & Ht2 & _). split.
    + apply (chain_frame nx pv); [| |done]; intros z Hz; fupd_cases; set_solver.
    + cbn [chain]. unfold linked; fupd_cases.
Qed.

Lemma ring_replace nx pv src dst t :
  NoDup (dst :: src :: t) -> t <> [] -> ring nx pv (src :: t) ->
  ring (fupd (fupd nx dst (nx src)) (pv src) dst)
       (fupd (fupd pv dst (pv src)) (nx src) dst) (dst :: t).
Proof.
  rewrite !NoDup_cons. intros (Hd & Hs & Ht) Hne Hr.
  apply not_elem_of_cons in Hd as [Hds Hdt].
  destruct t as [|x t]; [done|]. cbn [ring chain] in *. destruct Hr as [[-> Hp] Hr].
  apply NoDup_cons in Ht as [Hx Ht]. apply not_elem_of_cons in Hdt as [Hdx Hdt].
  destruct t as [|y t' _] using rev_ind.
  - destruct Hr as [H1 ->]. cbn [chain]. unfold linked; split; fupd_cases.
  - apply chain_app in Hr as [Hr [H1 ->]].
    assert (dst <> y) by set_solver. split; [unfold linked; fupd_cases|].
    apply NoDup_app in Ht as (Ht1 & Ht2 & _). apply chain_app. split.
    + apply (chain_frame nx pv); [| |done]; intros z Hz; fupd_cases; set_solver.
    + cbn [chain]. unfold linked; fupd_cases.
Qed.
End Chains.

(** ** The list of the occupied entries *)

Section Representation.
Context `{C : Config} {Cok : ConfigOk C}.
Implicit Types (nx pv cp : Z -> Z) (l : list Z).

Lemma repr_rotate nx pv cp l1 l2 : repr nx pv cp (l1 ++ l2) -> repr nx pv cp (l2 ++ l1).
Proof.
  intros (Hnd & Hr & Ho). split; [|split].
  - by rewrite (Permutation_app_comm l2 l1).
  - by apply ring_rotate.
  - intros c. rewrite <- Ho. set_solver.
Qed.

(** To show [repr] of a list it is enough to show it of a rotation. *)
Lemma repr_at nx pv cp l1 c l2 :
  repr nx pv cp (c :: l2 ++ l1) <-> repr nx pv cp (l1 ++ c :: l2).
Proof.
  split; intros H.
  - change (c :: l2 ++ l1) with ((c :: l2) ++ l1) in H. by apply repr_rotate.
  - change (c :: l2 ++ l1) with ((c :: l2) ++ l1). by apply repr_rotate.
Qed.

Lemma repr_ext nx pv cp nx' pv' cp' l :
  (forall c, in_table c -> nx' c = nx c /\ pv' c = pv c /\ cp' c = cp c) ->
  repr nx pv cp l -> repr nx' pv' cp' l.
Proof.
  intros He (Hnd & Hr & Ho). split; [done|]. split.
  - destruct l as [|h t]; [done|].
    apply (chain_frame nx pv); [| |done]; intros x Hx; apply He, (Ho x); set_solver.
  - intros c. rewrite Ho. unfold occupied.
    split; intros [H1 H2]; (split; [done|]); destruct (He c H1) as (_ & _ & E); congruence.
Qed.

Lemma repr_in_table nx pv cp l c : repr nx pv cp l -> c ∈ l -> in_table c.
Proof. intros (_ & _ & Ho) Hc. by apply Ho. Qed.

Lemma repr_insert nx pv cp l1 p l2 c k :
  repr nx pv cp (l1 ++ p :: l2) -> in_table c -> ~ occupied cp c -> k⟦cap_type⟧ <> 0 ->
  repr (fupd (fupd nx c (nx p)) p c) (fupd (fupd pv c p) (nx p) c) (fupd cp c k)
    (l1 ++ p :: c :: l2).
Proof.
  rewrite <- !repr_at. cbn [app]. intros (Hnd & Hr & Ho) Hc Hco Hk.
  rewrite <- Ho in Hco. split; [|split].
  - rewrite (Permutation_swap c p). by constructor.
  - apply ring_insert; [by constructor|done].
  - intros x. unfold occupied, fupd. destruct (Z.eqb_spec x c) as [->|Hx].
    + split; [intros _; done|set_solver].
    + specialize (Ho x). unfold occupied in Ho. rewrite <- Ho. set_solver.
Qed.

Lemma repr_delete nx pv cp l1 c l2 :
  repr nx pv cp (l1 ++ c :: l2) ->
  repr (fupd nx (pv c) (nx c)) (fupd pv (nx c) (pv c)) (fupd cp c 0) (l1 ++ l2).
Proof.
  rewrite <- repr_at. intros (Hnd & Hr & Ho).
  apply repr_rotate. split; [|split].
  - apply NoDup_cons in Hnd as [_ Hnd]. done.
  - by apply ring_delete.
  - intros x. unfold occupied, fupd. apply NoDup_cons in Hnd as [Hnc _].
    destruct (Z.eqb_spec x c) as [->|Hx].
    + split; [done|]. intros [_ H]. by rewrite fget_0 in H.
    + specialize (Ho x). unfold occupied in Ho. rewrite <- Ho. set_solver.
Qed.

Lemma repr_move nx pv cp l1 src l2 dst :
  repr nx pv cp (l1 ++ src :: l2) -> l1 ++ l2 <> [] -> in_table dst -> ~ occupied cp dst ->
  repr (fupd (fupd nx dst (nx src)) (pv src) dst)
       (fupd (fupd pv dst (pv src)) (nx src) dst)
       (fupd (fupd cp dst (cp src)) src 0) (l1 ++ dst :: l2).
Proof.
  rewrite <- !repr_at. intros (Hnd & Hr & Ho) Hne Hd Hdo. rewrite <- Ho in Hdo.
  assert (src <> dst) by (intros ->; set_solver).
  split; [|split].
  - apply NoDup_cons in Hnd as [_ Hnd]. constructor; [set_solver|done].
  - apply ring_replace; [by constructor| |done].
    intros E. apply app_eq_nil in E as [-> ->]. done.
  - intros x. apply NoDup_cons in Hnd as [Hs _].
    pose proof (proj1 (Ho src) ltac:(set_solver)) as [_ Hsrc].
    unfold occupied, fupd. destruct (Z.eqb_spec x src) as [->|Hx].
    + split; [set_solver|]. intros [_ E]. by rewrite fget_0 in E.
    + destruct (Z.eqb_spec x dst) as [->|Hxd]; [split; [done|set_solver]|].
      specialize (Ho x). unfold occupied in Ho. rewrite <- Ho. set_solver.
Qed.

Lemma repr_set_cap nx pv cp l c k :
  repr nx pv cp l -> occupied cp c -> k⟦cap_type⟧ <> 0 -> repr nx pv (fupd cp c k) l.
Proof.
  intros (Hnd & Hr & Ho) [Hc Hk0] Hk. split; [done|]. split; [done|].
  intros x. rewrite Ho. unfold occupied, fupd.
  by destruct (Z.eqb_spec x c) as [->|].
Qed.

(** In a ring of two elements or more, no entry outside precedes one inside. *)
Lemma repr_prev nx pv cp l c : repr nx pv cp l -> c ∈ l -> pv c ∈ l.
Proof.
  intros Hr (l1 & l2 & ->)%list_elem_of_split. rewrite <- repr_at in Hr.
  destruct Hr as (_ & Hr & _). apply chain_last in Hr. rewrite Hr.
  destruct (last (l2 ++ l1)) as [x|] eqn:E; simpl; [|set_solver].
  apply last_Some_elem_of in E. set_solver.
Qed.

Lemma repr_next nx pv cp l1 c d l2 : repr nx pv cp (l1 ++ c :: d :: l2) -> nx c = d.
Proof.
  rewrite <- repr_at. intros (_ & Hr & _). apply chain_first in Hr. done.
Qed.

Lemma repr_next_last nx pv cp c l1 : repr nx pv cp (l1 ++ [c]) -> nx c = hd c l1.
Proof.
  rewrite <- (repr_at _ _ _ l1 c []). intros (_ & Hr & _). by apply chain_first in Hr.
Qed.
End Representation.

(** ** The operations, on the list *)

Section Refinement.
Context `{C : Config} {Cok : ConfigOk C}.

Definition table_ok (ct : ctable_t) : Prop :=
  zlen ct = CTABLE_LEN /\ links_ok (next_at ct) (prev_at ct).

(** The capabilities of [ct'] are those given by [cp]. *)
Definition caps_are (ct : ctable_t) (cp : Z -> cap_t) : Prop :=
  forall c, in_table c -> cap_at ct c = cp c.

(** The table holds the capabilities [cp], in the derivation order [l]. *)
Definition represents (ct : ctable_t) (l : list Z) (cp : Z -> cap_t) : Prop :=
  table_ok ct /\ cap_list ct l /\ caps_are ct cp.

Lemma table_ok_tbl ct : table_ok ct -> tbl ct (next_at ct) (prev_at ct) (cap_at ct).
Proof. intros [H _]. by apply tbl_canon. Qed.

Lemma tbl_table_ok ct nx pv cp : tbl ct nx pv cp -> links_ok nx pv -> table_ok ct.
Proof.
  intros Ht Hl. split; [apply Ht|]. intros c Hc.
  destruct (tbl_at _ _ _ _ _ Ht Hc) as (-> & -> & _). by apply Hl.
Qed.

Lemma tbl_caps ct nx pv cp : tbl ct nx pv cp -> caps_are ct cp.
Proof. intros Ht c Hc. by apply (tbl_at _ _ _ _ _ Ht Hc). Qed.

Lemma tbl_cap_list ct nx pv cp l : tbl ct nx pv cp -> repr nx pv cp l -> cap_list ct l.
Proof. intros Ht. apply repr_ext. intros c Hc. by apply tbl_at. Qed.

Lemma links_fupd nx pv a b c d :
  links_ok nx pv -> in_table b -> in_table d -> links_ok (fupd nx a b) (fupd pv c d).
Proof.
  intros Hl Hb Hd x Hx. destruct (Hl x Hx). unfold fupd. by repeat case_match.
Qed.

Lemma wp_insert_list ct l1 p l2 c k Q :
  table_ok ct -> cap_list ct (l1 ++ p :: l2) ->
  in_table c -> ~ occupied (cap_at ct) c -> k⟦cap_type⟧ <> 0 ->
  (forall ct', table_ok ct' -> cap_list ct' (l1 ++ p :: c :: l2) ->
     caps_are ct' (fupd (cap_at ct) c k) -> Q tt ct') ->
  wp (cte_insert c k p) Q ct.
Proof.
  intros Hok Hl Hc Hco Hk HQ.
  assert (Hp : occupied (cap_at ct) p) by (apply Hl; set_solver).
  assert (c <> p) by (intros ->; done). destruct Hp as [Hp _].
  pose proof (table_ok_tbl _ Hok) as Ht. destruct Hok as [Hlen Hlk].
  eapply wp_cte_insert; [done..|]. intros ct' Ht'.
  destruct (Hlk p Hp). apply HQ.
  - eapply tbl_table_ok; [done|]. repeat apply links_fupd; auto.
  - eapply tbl_cap_list; [done|]. by apply repr_insert.
  - by eapply tbl_caps.
Qed.

Lemma wp_delete_list ct l1 c l2 Q :
  table_ok ct -> cap_list ct (l1 ++ c :: l2) ->
  (forall ct', table_ok ct' -> cap_list ct' (l1 ++ l2) ->
     caps_are ct' (fupd (cap_at ct) c 0) -> Q (cap_at ct c) ct') ->
  wp (cte_delete c) Q ct.
Proof.
  intros Hok Hl HQ.
  assert (Hc : occupied (cap_at ct) c) by (apply Hl; set_solver).
  destruct Hc as [Hc _]. pose proof (table_ok_tbl _ Hok) as Ht. destruct Hok as [Hlen Hlk].
  eapply wp_cte_delete; [done..|]. intros ct' Ht'.
  destruct (Hlk c Hc). apply HQ.
  - eapply tbl_table_ok; [done|]. repeat apply links_fupd; auto.
  - eapply tbl_cap_list; [done|]. by apply repr_delete.
  - by eapply tbl_caps.
Qed.

Lemma wp_move_list ct l1 src l2 dst Q :
  table_ok ct -> cap_list ct (l1 ++ src :: l2) -> l1 ++ l2 <> [] ->
  in_table dst -> ~ occupied (cap_at ct) dst ->
  (forall ct', table_ok ct' -> cap_list ct' (l1 ++ dst :: l2) ->
     caps_are ct' (fupd (fupd (cap_at ct) dst (cap_at ct src)) src 0) -> Q tt ct') ->
  wp (cte_move src dst) Q ct.
Proof.
  intros Hok Hl Hne Hd Hdo HQ.
  assert (Hs : occupied (cap_at ct) src) by (apply Hl; set_solver).
  assert (src <> dst) by (intros ->; done).
  assert (Hp : dst <> prev_at ct src).
  { intros ->. apply Hdo, Hl. eapply repr_prev; [done|set_solver]. }
  destruct Hs as [Hs _]. pose proof (table_ok_tbl _ Hok) as Ht. destruct Hok as [Hlen Hlk].
  eapply wp_cte_move; [done..|]. intros ct' Ht'.
  assert (move_next (next_at ct) (prev_at ct) src dst = next_at ct src) as E.
  { unfold move_next. by destruct (Z.eqb_spec dst (prev_at ct src)). }
  rewrite E in Ht'. destruct (Hlk src Hs). apply HQ.
  - eapply tbl_table_ok; [done|]. repeat apply links_fupd; auto.
  - eapply tbl_cap_list; [done|]. by apply repr_move.
  - by eapply tbl_caps.
Qed.

Lemma wp_set_cap_list ct l c k Q :
  table_ok ct -> cap_list ct l -> c ∈ l -> k⟦cap_type⟧ <> 0 ->
  (forall ct', table_ok ct' -> cap_list ct' l ->
     caps_are ct' (fupd (cap_at ct) c k) -> Q tt ct') ->
  wp (cte_set_cap c k) Q ct.
Proof.
  intros Hok Hl Hc Hk HQ. assert (Hco : occupied (cap_at ct) c) by by apply Hl.
  pose proof (table_ok_tbl _ Hok) as Ht. destruct Hok as [Hlen Hlk].
  eapply wp_cte_set_cap; [done|apply Hco|]. intros ct' Ht'. apply HQ.
  - by eapply tbl_table_ok.
  - eapply tbl_cap_list; [done|]. by apply repr_set_cap.
  - by eapply tbl_caps.
Qed.
End Refinement.

(** ** Refinement of the abstract list *)

Section Abstract.
Context `{C : Config} {Cok : ConfigOk C}.
Implicit Types (l : list Z).

Lemma nodup_split c l :
  NoDup l -> c ∈ l -> exists l1 l2, l = l1 ++ c :: l2 /\ (c ∉ l1) /\ (c ∉ l2).
Proof.
  intros Hnd (l1 & l2 & ->)%list_elem_of_split. exists l1, l2.
  apply NoDup_app in Hnd as (_ & Hd & [Hc _]%NoDup_cons).
  split; [done|]. split; [|done]. intros Hc1. apply (Hd c Hc1). set_solver.
Qed.

Lemma l_insert_split c p l1 l2 :
  p ∉ l1 -> l_insert c p (l1 ++ p :: l2) = l1 ++ p :: c :: l2.
Proof.
  induction l1 as [|x l1 IH]; cbn [app l_insert].
  - by rewrite Z.eqb_refl.
  - intros [Hx Hn]%not_elem_of_cons. destruct (Z.eqb_spec x p); [done|]. by rewrite IH.
Qed.

Lemma l_remove_split c l1 l2 :
  c ∉ l1 -> l_remove c (l1 ++ c :: l2) = l1 ++ l2.
Proof.
  induction l1 as [|x l1 IH]; cbn [app l_remove].
  - by rewrite Z.eqb_refl.
  - intros [Hx Hn]%not_elem_of_cons. destruct (Z.eqb_spec x c); [done|]. by rewrite IH.
Qed.

Lemma l_replace_id src dst l : src ∉ l -> l_replace src dst l = l.
Proof.
  intros Hn. unfold l_replace. induction l as [|x l IH]; [done|].
  apply not_elem_of_cons in Hn as [Hx Hn]. cbn [map].
  destruct (Z.eqb_spec x src); [done|]. by rewrite IH.
Qed.

Lemma l_replace_split src dst l1 l2 :
  src ∉ l1 -> src ∉ l2 -> l_replace src dst (l1 ++ src :: l2) = l1 ++ dst :: l2.
Proof.
  intros H1 H2. transitivity (l_replace src dst l1 ++ dst :: l_replace src dst l2).
  - unfold l_replace. rewrite map_app. cbn [map]. by rewrite Z.eqb_refl.
  - by rewrite !l_replace_id.
Qed.

Lemma after_split c d l1 l2 : c ∉ l1 -> after c (l1 ++ c :: d :: l2) = Some d.
Proof.
  induction l1 as [|x l1 IH]; cbn [app after].
  - by rewrite Z.eqb_refl.
  - intros [Hx Hn]%not_elem_of_cons. destruct (Z.eqb_spec x c); [done|]. by rewrite IH.
Qed.

Lemma after_last c l1 : c ∉ l1 -> after c (l1 ++ [c]) = None.
Proof.
  induction l1 as [|x l1 IH]; cbn [app after].
  - by rewrite Z.eqb_refl.
  - intros [Hx Hn]%not_elem_of_cons. destruct (Z.eqb_spec x c); [done|]. by rewrite IH.
Qed.

Lemma caps_are_fupd ct cp ct' c k :
  caps_are ct cp -> caps_are ct' (fupd (cap_at ct) c k) -> caps_are ct' (fupd cp c k).
Proof. intros H H' x Hx. rewrite H' by done. unfold fupd. case_match; [done|by apply H]. Qed.

Lemma represents_occupied ct l cp c : represents ct l cp -> c ∈ l <-> occupied cp c.
Proof.
  intros (_ & (_ & _ & Ho) & Hcp). rewrite Ho. unfold occupied.
  split; intros [H1 H2]; (split; [done|]); by rewrite ?Hcp in * by done.
Qed.

Lemma represents_next ct l cp c :
  represents ct l cp -> c ∈ l -> next_at ct c = l_next c l.
Proof.
  intros (_ & Hl & _) Hc. pose proof Hl as [Hnd _]. unfold l_next.
  destruct (nodup_split c l Hnd Hc) as (l1 & l2 & -> & H1 & H2).
  destruct l2 as [|d l2].
  - rewrite after_last by done. apply repr_next_last in Hl. rewrite Hl. by destruct l1.
  - rewrite after_split by done. by apply repr_next in Hl.
Qed.

Lemma wp_insert ct l cp c k p Q :
  represents ct l cp -> p ∈ l -> in_table c -> c ∉ l -> k⟦cap_type⟧ <> 0 ->
  (forall ct', represents ct' (l_insert c p l) (fupd cp c k) -> Q tt ct') ->
  wp (cte_insert c k p) Q ct.
Proof.
  intros Hr Hp Hct Hc Hk HQ. pose proof Hr as (Hok & Hl & Hcp). pose proof Hl as [Hnd _].
  destruct (nodup_split p l Hnd Hp) as (l1 & l2 & -> & H1 & H2).
  eapply wp_insert_list; [done..| |done|].
  { intros Ho. apply Hc. by apply Hl. }
  intros ct' Hok' Hl' Hcp'. apply HQ. rewrite l_insert_split by done.
  split; [done|]. split; [done|]. by eapply caps_are_fupd.
Qed.

Lemma wp_delete ct l cp c Q :
  represents ct l cp -> c ∈ l ->
  (forall ct', represents ct' (l_remove c l) (fupd cp c 0) -> Q (cp c) ct') ->
  wp (cte_delete c) Q ct.
Proof.
  intros Hr Hc HQ. pose proof Hr as (Hok & Hl & Hcp). pose proof Hl as [Hnd _].
  assert (Hct : in_table c) by by apply (represents_occupied _ _ _ _ Hr).
  destruct (nodup_split c l Hnd Hc) as (l1 & l2 & -> & H1 & H2).
  eapply wp_delete_list; [done..|]. intros ct' Hok' Hl' Hcp'. rewrite Hcp by done.
  apply HQ. rewrite l_remove_split by done.
  split; [done|]. split; [done|]. by eapply caps_are_fupd.
Qed.

Lemma wp_move ct l cp src dst Q :
  represents ct l cp -> src ∈ l -> in_table dst -> dst ∉ l -> (1 < length l)%nat ->
  (forall ct', represents ct' (l_replace src dst l) (fupd (fupd cp dst (cp src)) src 0) ->
     Q tt ct') ->
  wp (cte_move src dst) Q ct.
Proof.
  intros Hr Hs Hdt Hd Hlen HQ. pose proof Hr as (Hok & Hl & Hcp). pose proof Hl as [Hnd _].
  assert (Hst : in_table src) by by apply (represents_occupied _ _ _ _ Hr).
  destruct (nodup_split src l Hnd Hs) as (l1 & l2 & -> & H1 & H2).
  rewrite length_app in Hlen. cbn [length] in Hlen.
  eapply wp_move_list; [done|done| |done| |].
  { destruct l1, l2; simpl in *; (done || lia). }
  { intros Ho. apply Hd. by apply Hl. }
  intros ct' Hok' Hl' Hcp'. apply HQ. rewrite l_replace_split by done.
  split; [done|]. split; [done|]. intros x Hx. rewrite Hcp' by done. unfold fupd.
  repeat case_match; auto.
Qed.
End Abstract.
