(* ===== verification/KState.v ===== *)
(** * The kernel state

    The data of the kernel and its access to the hardware: the process control
    blocks of [kernel/inc/proc.h], the channel table of [kernel/src/cap_ipc.c],
    the schedule of [kernel/src/sched.c], the error codes of
    [kernel/inc/error.h], the timer of [common/src/drivers/time.c] and the
    control registers of [kernel/inc/csr.h].

    What the hardware and the other harts decide is an oracle of the state:
    [mtime n], [mip n] and [lock_word n] are the values the [n]-th access to
    the device reads, and [tick] counts the accesses.  Every theorem holds for
    all oracles, hence for every timing and every interleaving of timer
    interrupts with the kernel. *)

From S2P Require Import Prelude Config CapTypes CapTable.

(** ** Error codes *)

Inductive err_t :=
| SUCCESS | ERR_EMPTY | ERR_SRC_EMPTY | ERR_DST_OCCUPIED | ERR_INVALID_INDEX
| ERR_INVALID_DERIVATION | ERR_INVALID_MONITOR | ERR_INVALID_PID | ERR_INVALID_STATE
| ERR_INVALID_PMP | ERR_INVALID_SLOT | ERR_INVALID_SOCKET | ERR_INVALID_SYSCALL
| ERR_INVALID_REGISTER | ERR_INVALID_CAPABILITY | ERR_NO_RECEIVER | ERR_PREEMPTED
| ERR_TIMEOUT | ERR_SUSPENDED | CONTINUE.

#[global] Instance err_t_eq_dec : EqDecision err_t.
Proof. solve_decision. Defined.

Definition err_code (e : err_t) : Z :=
  match e with
  | SUCCESS => 0 | ERR_EMPTY => 1 | ERR_SRC_EMPTY => 2 | ERR_DST_OCCUPIED => 3
  | ERR_INVALID_INDEX => 4 | ERR_INVALID_DERIVATION => 5 | ERR_INVALID_MONITOR => 6
  | ERR_INVALID_PID => 7 | ERR_INVALID_STATE => 8 | ERR_INVALID_PMP => 9
  | ERR_INVALID_SLOT => 10 | ERR_INVALID_SOCKET => 11 | ERR_INVALID_SYSCALL => 12
  | ERR_INVALID_REGISTER => 13 | ERR_INVALID_CAPABILITY => 14 | ERR_NO_RECEIVER => 15
  | ERR_PREEMPTED => 16 | ERR_TIMEOUT => 17 | ERR_SUSPENDED => 18 | CONTINUE => -1
  end.

(** [if (err)] *)
Definition is_err (e : err_t) : bool := negb (err_code e =? 0).

(** An [err_t] stored in a 64-bit register. *)
Definition err_u64 (e : err_t) : Z := u64 (err_code e).

(** ** Processes *)

(** [proc_state_flag_t] *)
Definition PSF_BUSY : Z := 1.
Definition PSF_BLOCKED : Z := 2.
Definition PSF_SUSPENDED : Z := 4.

(** [reg_t] *)
Definition REG_PC : Z := 0.
Definition REG_RA : Z := 1.
Definition REG_SP : Z := 2.
Definition REG_T0 : Z := 5.
Definition REG_A0 : Z := 10.
Definition REG_A1 : Z := 11.
Definition REG_A2 : Z := 12.
Definition REG_A3 : Z := 13.
Definition REG_A4 : Z := 14.
Definition REG_A5 : Z := 15.
Definition REG_A6 : Z := 16.
Definition REG_A7 : Z := 17.
Definition REG_TPC : Z := 32.
Definition REG_TSP : Z := 33.
Definition REG_EPC : Z := 34.
Definition REG_ESP : Z := 35.
Definition REG_ECAUSE : Z := 36.
Definition REG_EVAL : Z := 37.
Definition REG_SERVTIME : Z := 38.
Definition REG_CNT : Z := 39.

(** [proc_t] *)
Record proc_t := Proc {
  p_state : Z;
  p_regs : list Z;
  p_pmpcfg : list Z;
  p_pmpaddr : list Z;
  p_pid : Z;
  p_timeout : Z;
  p_serv_time : Z
}.

Definition set_state (v : Z) (p : proc_t) : proc_t :=
  Proc v (p_regs p) (p_pmpcfg p) (p_pmpaddr p) (p_pid p) (p_timeout p) (p_serv_time p).
Definition set_regs (v : list Z) (p : proc_t) : proc_t :=
  Proc (p_state p) v (p_pmpcfg p) (p_pmpaddr p) (p_pid p) (p_timeout p) (p_serv_time p).
Definition set_pmpcfg (v : list Z) (p : proc_t) : proc_t :=
  Proc (p_state p) (p_regs p) v (p_pmpaddr p) (p_pid p) (p_timeout p) (p_serv_time p).
Definition set_pmpaddr (v : list Z) (p : proc_t) : proc_t :=
  Proc (p_state p) (p_regs p) (p_pmpcfg p) v (p_pid p) (p_timeout p) (p_serv_time p).
Definition set_pid (v : Z) (p : proc_t) : proc_t :=
  Proc (p_state p) (p_regs p) (p_pmpcfg p) (p_pmpaddr p) v (p_timeout p) (p_serv_time p).
Definition set_timeout (v : Z) (p : proc_t) : proc_t :=
  Proc (p_state p) (p_regs p) (p_pmpcfg p) (p_pmpaddr p) (p_pid p) v (p_serv_time p).

(** ** Channels *)

(** An element of [channels]: pointers to processes and to a table entry,
    [None] for [NULL]. *)
Record channel := Channel {
  ch_server : option Z;
  ch_client : option Z;
  ch_cap_buf : option cte_t
}.

Definition set_server (v : option Z) (c : channel) : channel :=
  Channel v (ch_client c) (ch_cap_buf c).
Definition set_client (v : option Z) (c : channel) : channel :=
  Channel (ch_server c) v (ch_cap_buf c).
Definition set_cap_buf (v : option cte_t) (c : channel) : channel :=
  Channel (ch_server c) (ch_client c) v.

(** ** Hardware *)

Record hw_t := Hw {
  mtime : nat -> Z;         (** the real-time clock *)
  mip : nat -> Z;           (** the interrupt-pending register *)
  lock_word : nat -> Z;     (** the capability lock, as the other harts leave it *)
  tick : nat;               (** accesses made so far *)
  mtimecmp : list Z;        (** the timer of each hart *)
  mhartid : Z;              (** the hart that runs the kernel *)
  pmp_csr : list Z * list Z (** the PMP address and configuration registers *)
}.

Definition hw_tick (h : hw_t) : hw_t :=
  Hw (mtime h) (mip h) (lock_word h) (S (tick h)) (mtimecmp h) (mhartid h) (pmp_csr h).
Definition set_mtimecmp (v : list Z) (h : hw_t) : hw_t :=
  Hw (mtime h) (mip h) (lock_word h) (tick h) v (mhartid h) (pmp_csr h).
Definition set_pmp_csr (v : list Z * list Z) (h : hw_t) : hw_t :=
  Hw (mtime h) (mip h) (lock_word h) (tick h) (mtimecmp h) (mhartid h) v.

(** ** The state *)

Record kstate := KState {
  ctable : ctable_t;
  procs : list proc_t;
  channels : list channel;
  slots : list Z;
  hw : hw_t
}.

Definition set_ctable (v : ctable_t) (s : kstate) : kstate :=
  KState v (procs s) (channels s) (slots s) (hw s).
Definition set_procs (v : list proc_t) (s : kstate) : kstate :=
  KState (ctable s) v (channels s) (slots s) (hw s).
Definition set_channels (v : list channel) (s : kstate) : kstate :=
  KState (ctable s) (procs s) v (slots s) (hw s).
Definition set_slots (v : list Z) (s : kstate) : kstate :=
  KState (ctable s) (procs s) (channels s) v (hw s).
Definition set_hw (v : hw_t) (s : kstate) : kstate :=
  KState (ctable s) (procs s) (channels s) (slots s) v.

Definition l_ctable : lens kstate ctable_t := Lens ctable set_ctable.
Definition l_slots : lens kstate (list Z) := Lens slots set_slots.
Definition l_hw : lens kstate hw_t := Lens hw set_hw.

Abbreviation K := (M kstate).

(** An operation on the capability table. *)
Definition on_ct {A} (m : M ctable_t A) : K A := zoom l_ctable m.

(** A process, through its pointer: the index in [procs]. *)
Definition proc_load (p : Z) : K proc_t := fun s => array_get (procs s) p s.
Definition proc_store (p : Z) (x : proc_t) : K unit :=
  do* proc_load p in modify (fun s => set_procs (insertZ p x (procs s)) s).
Definition proc_update (p : Z) (f : proc_t -> proc_t) : K unit :=
  let* x := proc_load p in proc_store p (f x).

(** [proc->regs[r]] and [proc->regs[r] = v] *)
Definition reg_get (p r : Z) : K Z :=
  let* x := proc_load p in array_get (p_regs x) r.
Definition reg_set (p r v : Z) : K unit :=
  let* x := proc_load p in
  do* array_get (p_regs x) r in
  proc_store p (set_regs (insertZ r v (p_regs x)) x).

(** [channels[i]] *)
Definition chan_load (i : Z) : K channel := fun s => array_get (channels s) i s.
Definition chan_store (i : Z) (x : channel) : K unit :=
  do* chan_load i in modify (fun s => set_channels (insertZ i x (channels s)) s).
Definition chan_update (i : Z) (f : channel -> channel) : K unit :=
  let* x := chan_load i in chan_store i (f x).

(** ** [time.c] and [csr.h] *)

Definition time_get : K Z :=
  let* h := gets hw in
  do* modify (set_hw (hw_tick h)) in
  ret (u64 (mtime h (tick h))).

Definition timeout_get (hartid : Z) : K Z :=
  let* h := gets hw in array_get (mtimecmp h) hartid.

Definition timeout_set (hartid timeout : Z) : K unit :=
  let* h := gets hw in
  do* array_get (mtimecmp h) hartid in
  modify (set_hw (set_mtimecmp (insertZ hartid timeout (mtimecmp h)) h)).

(** [csrr(mhartid)], [csrr(mip)] *)
Definition csrr_mhartid : K Z := gets (fun s => mhartid (hw s)).
Definition csrr_mip : K Z :=
  let* h := gets hw in
  do* modify (set_hw (hw_tick h)) in
  ret (mip h (tick h)).

(** [kernel_preempt] of [kernel.c] *)
Definition kernel_preempt : K bool :=
  let* v := csrr_mip in ret (negb (Z.land v 128 =? 0)).
