(* ===== verification/Proc.v ===== *)
(** * Processes

    [kernel/src/proc.c]: acquiring and releasing processes, suspension, IPC
    waiting, and the PMP registers kept for each process. *)

From S2P Require Import Prelude Config CapTypes CapTable KState.

Section Operations.
Context `{C : Config}.

Definition proc_get (pid : Z) : K Z :=
  let pid := u16 pid in
  do* kassert (pid <? S3K_PROC_CNT) in
  let* p := proc_load pid in
  do* kassert (p_pid p =? pid) in
  ret pid.

Definition proc_get_state (proc : Z) : K Z :=
  let* p := proc_load proc in
  let state := p_state p in
  if state =? PSF_BLOCKED then
    let* t := time_get in
    let* p := proc_load proc in
    if p_timeout p <=? t then ret 0 else ret state
  else ret state.

(** [__atomic_compare_exchange(&proc->state, &expected, &desired, ...)] *)
Definition state_cas (proc expected desired : Z) : K bool :=
  let* p := proc_load proc in
  if p_state p =? expected
  then do* proc_update proc (set_state desired) in ret true
  else ret false.

Definition proc_acquire (proc : Z) : K bool :=
  let* p := proc_load proc in
  let expected := p_state p in
  let desired := PSF_BUSY in
  if negb (Z.land expected (Z.lor PSF_BUSY PSF_SUSPENDED) =? 0) then ret false else
  let* t := time_get in
  let* p := proc_load proc in
  if t <? p_timeout p then ret false else
  if SMP then state_cas proc expected desired
  else do* proc_update proc (set_state desired) in ret true.

Definition proc_release (proc : Z) : K unit :=
  let* p := proc_load proc in
  do* kassert (negb (Z.land (p_state p) PSF_BUSY =? 0)) in
  if SMP then proc_update proc (fun p => set_state (Z.lxor (p_state p) PSF_BUSY) p)
  else proc_update proc (fun p => set_state (Z.land (p_state p) (Z.lnot PSF_BUSY)) p).

Definition proc_suspend (proc : Z) : K unit :=
  let* p := proc_load proc in
  let prev := p_state p in
  do* proc_update proc (set_state (Z.lor prev PSF_SUSPENDED)) in
  if negb (Z.land prev PSF_BLOCKED =? 0) then
    do* proc_update proc (set_state PSF_SUSPENDED) in
    reg_set proc REG_T0 (err_u64 ERR_SUSPENDED)
  else ret tt.

Definition proc_resume (proc : Z) : K unit :=
  let* p := proc_load proc in
  do* (if p_state p =? PSF_SUSPENDED then proc_update proc (set_timeout 0) else ret tt) in
  proc_update proc (fun p => set_state (Z.land (p_state p) (Z.lnot PSF_SUSPENDED)) p).

(** [PSF_BLOCKED | ((uint64_t)chan << 48)] *)
Definition blocked_on (chan : Z) : Z := Z.lor PSF_BLOCKED (u64 (Z.shiftl (u16 chan) 48)).

Definition proc_ipc_wait (proc chan : Z) : K unit :=
  let* p := proc_load proc in
  do* kassert (p_state p =? PSF_BUSY) in
  proc_update proc (set_state (Z.lor (blocked_on chan) PSF_BUSY)).

Definition proc_ipc_acquire (proc chan : Z) : K bool :=
  let expected := blocked_on chan in
  let desired := PSF_BUSY in
  let* p := proc_load proc in
  if negb (p_state p =? expected) then ret false else
  let* t := time_get in
  let* p := proc_load proc in
  if p_timeout p <=? t then ret false else
  if SMP then state_cas proc expected desired
  else do* proc_update proc (set_state desired) in ret true.

Definition proc_is_suspended (proc : Z) : K bool :=
  let* p := proc_load proc in ret (p_state p =? PSF_SUSPENDED).

Definition proc_pmp_avail (proc slot : Z) : K bool :=
  let* p := proc_load proc in
  let* cfg := array_get (p_pmpcfg p) slot in
  ret (cfg =? 0).

(** [proc->pmpcfg[slot] = cfg], [proc->pmpaddr[slot] = addr] *)
Definition pmpcfg_set (proc slot cfg : Z) : K unit :=
  let* p := proc_load proc in
  do* array_get (p_pmpcfg p) slot in
  proc_store proc (set_pmpcfg (insertZ slot cfg (p_pmpcfg p)) p).
Definition pmpaddr_set (proc slot addr : Z) : K unit :=
  let* p := proc_load proc in
  do* array_get (p_pmpaddr p) slot in
  proc_store proc (set_pmpaddr (insertZ slot addr (p_pmpaddr p)) p).

Definition proc_pmp_load (proc slot rwx addr : Z) : K unit :=
  do* pmpcfg_set proc slot (u8 (Z.lor rwx 24)) in
  pmpaddr_set proc slot addr.

Definition proc_pmp_unload (proc slot : Z) : K unit :=
  pmpcfg_set proc slot 0.

(** The eight [csrw pmpaddrN] and [csrw pmpcfg0]. *)
Definition proc_pmp_sync (proc : Z) : K unit :=
  let* p := proc_load proc in
  let* a0 := array_get (p_pmpaddr p) 0 in
  let* a1 := array_get (p_pmpaddr p) 1 in
  let* a2 := array_get (p_pmpaddr p) 2 in
  let* a3 := array_get (p_pmpaddr p) 3 in
  let* a4 := array_get (p_pmpaddr p) 4 in
  let* a5 := array_get (p_pmpaddr p) 5 in
  let* a6 := array_get (p_pmpaddr p) 6 in
  let* a7 := array_get (p_pmpaddr p) 7 in
  let* h := gets hw in
  modify (set_hw (set_pmp_csr ([a0; a1; a2; a3; a4; a5; a6; a7], p_pmpcfg p) h)).
End Operations.
