(* ===== verification/Sched.v ===== *)
(** * The scheduler

    [kernel/src/sched.c].  The schedule is the array [slots]: one 64-bit word
    per time slot, with a 16-bit lane per hart holding the owner's pid and the
    number of slots left in its slice.  The semaphore that brackets the bodies
    on SMP builds, which makes them atomic, is not part of these definitions. *)

From S2P Require Import Prelude Config CapTypes CapTable KState Proc.

(** [slot_info_t] *)
Record slot_info := SlotInfo { si_pid : Z; si_length : Z }.

Section Operations.
Context `{C : Config}.

Definition slot_get (i : Z) : M (list Z) Z := fun sl => array_get sl i sl.
Definition slot_set (i v : Z) : M (list Z) unit :=
  do* slot_get i in modify (insertZ i v).

Definition slots_update (pid end_ hart from to : Z) : M (list Z) unit :=
  let hart := u64 (hart - S3K_MIN_HART) in
  let offset := hart * 16 in
  let* mask := shl64 65535 offset in
  for_range from to (fun i =>
    let* v := slot_get i in
    do* slot_set i (Z.ldiff v mask) in
    let* e := shl64 (Z.lor (u64 (Z.shiftl pid 8)) (u64 (end_ - i))) offset in
    let* v := slot_get i in
    slot_set i (Z.lor v e)).

Definition slots_delete (hart from to : Z) : M (list Z) unit :=
  let hart := u64 (hart - S3K_MIN_HART) in
  let offset := hart * 16 in
  let* mask := shl64 65535 offset in
  for_range from to (fun i =>
    let* v := slot_get i in
    slot_set i (Z.ldiff v mask)).

Definition sched_update (pid end_ hart from to : Z) : K unit :=
  zoom l_slots (slots_update pid end_ hart from to).

Definition sched_delete (hart from to : Z) : K unit :=
  zoom l_slots (slots_delete hart from to).

Definition sched_init : K unit :=
  for_range S3K_MIN_HART (S3K_MAX_HART + 1) (fun hartid =>
    sched_update 0 S3K_SLOT_CNT hartid 0 S3K_SLOT_CNT).

Definition slot_info_get (hart slot : Z) : M (list Z) slot_info :=
  let* v := slot_get (slot mod S3K_SLOT_CNT) in
  let* entry := shr64 v (u64 (u64 (hart - S3K_MIN_HART) * 16)) in
  ret (SlotInfo (Z.land (Z.shiftr entry 8) 255) (Z.land entry 255)).

(** The two loops of [sched_fetch]: whether another hart has priority. *)
Definition sched_yield_to_lower (hart slot : Z) (si : slot_info) : K bool :=
  exists_range S3K_MIN_HART hart (fun i =>
    let* other := zoom l_slots (slot_info_get i slot) in
    ret ((si_pid si =? si_pid other) && (si_length si <=? si_length other))).

Definition sched_yield_to_higher (hart slot : Z) (si : slot_info) : K bool :=
  exists_range (hart + 1) S3K_MAX_HART (fun i =>
    let* other := zoom l_slots (slot_info_get i slot) in
    ret ((si_pid si =? si_pid other) && (si_length si <? si_length other))).

(** The process to run, [None] for [NULL]. *)
Definition sched_fetch (hart slot : Z) : K (option Z) :=
  let* si := zoom l_slots (slot_info_get hart slot) in
  if si_length si =? 0 then ret None else
  let* b1 := (if SMP then sched_yield_to_lower hart slot si else ret false) in
  if b1 : bool then ret None else
  let* b2 := (if SMP then sched_yield_to_higher hart slot si else ret false) in
  if b2 : bool then ret None else
  let* proc := proc_get (si_pid si) in
  let* ok := proc_acquire proc in
  if negb ok then ret None else
  do* proc_update proc
        (set_timeout (u64 (u64 ((slot + si_length si) * S3K_SLOT_LEN) - S3K_SCHED_TIME))) in
  ret (Some proc).

(** The [do ... while (!proc)] loop: [wait] bounds each wait for the start of
    the slot, [fuel] the slots tried. *)
Fixpoint sched_loop (wait fuel : nat) (hart : Z) : K Z :=
  match fuel with
  | O => fail OutOfFuel
  | S fuel =>
      let* t := time_get in
      let slot := u64 (t + S3K_SCHED_TIME) / S3K_SLOT_LEN in
      do* while_busy wait
            (let* t := time_get in ret (t <? u64 (slot * S3K_SLOT_LEN))) in
      let* p := sched_fetch hart slot in
      match p with
      | Some proc => ret proc
      | None => sched_loop wait fuel hart
      end
  end.

Definition sched (wait fuel : nat) : K Z :=
  let* hart := csrr_mhartid in
  do* timeout_set hart U64_MAX in
  let* proc := sched_loop wait fuel hart in
  let* p := proc_load proc in
  do* timeout_set hart (p_timeout p) in
  ret proc.
End Operations.

(** ** The schedule as a table of lanes *)

Section Lanes.
Context `{C : Config}.

(** The 16-bit lane of a hart in a slot word. *)
Definition lane (hart : Z) : field := Field (16 * (hart - S3K_MIN_HART)) 16.

Definition valid_hart (hart : Z) : Prop := S3K_MIN_HART <= hart <= S3K_MAX_HART.

(** [(pid << 8) | length] *)
Definition slot_word (pid length : Z) : Z := Z.lor (Z.shiftl pid 8) length.

(** What the schedule holds for a hart in a slot. *)
Definition slot_lane (sl : list Z) (hart i : Z) : Z :=
  match lookupZ sl i with Some v => fget (lane hart) v | None => 0 end.
End Lanes.

Section LaneFacts.
Context `{C : Config} {Cok : ConfigOk C}.

Lemma lane_ok h : valid_hart h -> field_ok (lane h) = true.
Proof.
  unfold valid_hart, field_ok, lane. cbn [f_off f_wid]. intros Hh. config_bounds.
  rewrite !andb_true_iff, !Z.leb_le. lia.
Qed.

Lemma lane_disj h h' : valid_hart h -> valid_hart h' -> h <> h' ->
  field_disj (lane h) (lane h') = true.
Proof.
  intros H H' Hne. unfold field_disj. rewrite !lane_ok by done.
  unfold lane. cbn [f_off f_wid andb]. rewrite orb_true_iff, !Z.leb_le. lia.
Qed.

Lemma slot_word_range pid len :
  0 <= pid < 256 -> 0 <= len < 256 -> 0 <= slot_word pid len < 2 ^ 16.
Proof.
  intros Hp Hl. unfold slot_word. apply bits_range; [lia|]. intros n Hn.
  rewrite Z.lor_spec, Z.shiftl_spec by lia.
  rewrite (testbit_high pid 8), (testbit_high len 8) by lia. done.
Qed.

Lemma slot_word_pid pid len : 0 <= pid < 256 -> 0 <= len < 256 ->
  Z.land (Z.shiftr (slot_word pid len) 8) 255 = pid.
Proof.
  intros Hp Hl. unfold slot_word. change 255 with (Z.ones 8).
  apply Z.bits_inj'. intros n Hn.
  rewrite Z.land_spec, Z.shiftr_spec, Z.lor_spec, Z.shiftl_spec, ones_bit by lia.
  rewrite (testbit_high len 8 (n + 8)) by lia.
  replace (n + 8 - 8) with n by lia. rewrite orb_false_r.
  destruct (Z.ltb_spec n 8); [by rewrite andb_true_r|].
  by rewrite andb_false_r, (testbit_high pid 8).
Qed.

Lemma slot_word_len pid len : 0 <= pid < 256 -> 0 <= len < 256 ->
  Z.land (slot_word pid len) 255 = len.
Proof.
  intros Hp Hl. unfold slot_word. change 255 with (Z.ones 8).
  apply Z.bits_inj'. intros n Hn. rewrite Z.land_spec, Z.lor_spec, Z.shiftl_spec, ones_bit by lia.
  destruct (Z.ltb_spec n 8).
  - rewrite (Z.testbit_neg_r pid) by lia. by rewrite andb_true_r.
  - by rewrite andb_false_r, (testbit_high len 8).
Qed.

Lemma hart_index h : valid_hart h -> u64 (h - S3K_MIN_HART) = h - S3K_MIN_HART.
Proof. unfold valid_hart, u64. intros. config_bounds. apply Z.mod_small. lia. Qed.

(** [0xFFFF << offset] *)
Lemma lane_mask h : valid_hart h ->
  u64 (Z.shiftl 65535 ((h - S3K_MIN_HART) * 16)) = Z.shiftl (Z.ones 16) (f_off (lane h)).
Proof.
  intros Hh. unfold valid_hart in Hh. config_bounds. unfold lane. cbn [f_off].
  change 65535 with (Z.ones 16). rewrite Z.mul_comm. unfold u64. apply Z.mod_small.
  apply bits_range; [lia|]. intros n Hn.
  rewrite Z.shiftl_spec, ones_bit by lia. apply Z.ltb_ge. lia.
Qed.

(** The masked update of a slot word is a store to its lane. *)
Lemma lane_store h e v : valid_hart h -> 0 <= e < 2 ^ 16 ->
  Z.lor (Z.ldiff v (Z.shiftl (Z.ones 16) (f_off (lane h))))
        (u64 (Z.shiftl e ((h - S3K_MIN_HART) * 16))) = fset (lane h) e v.
Proof.
  intros Hh He. unfold fset. cbn [f_wid lane]. f_equal.
  rewrite Z.land_ones, Z.mod_small by lia. unfold lane. cbn [f_off].
  rewrite Z.mul_comm. unfold u64. apply Z.mod_small.
  unfold valid_hart in Hh. config_bounds. apply bits_range; [lia|]. intros n Hn.
  rewrite Z.shiftl_spec by lia. apply (testbit_high e 16); lia.
Qed.

Lemma lane_clear h v : valid_hart h ->
  Z.ldiff v (Z.shiftl (Z.ones 16) (f_off (lane h))) = fset (lane h) 0 v.
Proof. intros Hh. unfold fset. by rewrite Z.land_0_l, Z.shiftl_0_l, Z.lor_0_r. Qed.

Lemma slot_lane_insert sl i v h j :
  0 <= i < zlen sl ->
  slot_lane (insertZ i v sl) h j = if j =? i then fget (lane h) v else slot_lane sl h j.
Proof. intros Hi. unfold slot_lane. rewrite lookupZ_insertZ by done. by destruct (j =? i). Qed.

Lemma wp_slot_get (sl : list Z) i v Q :
  lookupZ sl i = Some v -> Q v sl -> wp (slot_get i) Q sl.
Proof. intros Hv HQ. unfold wp, slot_get, array_get. by rewrite Hv. Qed.

Lemma wp_slot_set (sl : list Z) i v Q :
  0 <= i < zlen sl -> Q tt (insertZ i v sl) -> wp (slot_set i v) Q sl.
Proof.
  intros Hi HQ. destruct (lookupZ_lt sl i Hi) as [w Hw]. apply wp_bind.
  eapply wp_slot_get; [done|]. by apply wp_modify.
Qed.

Lemma wp_shl64 {St} x n Q (s : St) :
  0 <= n < 64 -> Q (u64 (Z.shiftl x n)) s -> wp (shl64 x n) Q s.
Proof.
  intros Hn HQ. unfold wp, shl64.
  destruct (Z.leb_spec 0 n), (Z.ltb_spec n 64); (lia || done).
Qed.

(** One iteration writes a value to the lane of the hart. *)
Definition lanes_upto (sl : list Z) (hart from to : Z) (e : Z -> Z) (i : Z)
    (sl' : list Z) : Prop :=
  zlen sl' = zlen sl /\
  forall h j, valid_hart h -> 0 <= j < zlen sl ->
    slot_lane sl' h j =
    if (h =? hart) && (from <=? j) && (j <? i) then e j else slot_lane sl h j.

Lemma lanes_upto_start sl hart from to e : lanes_upto sl hart from to e from sl.
Proof.
  split; [done|]. intros h j _ _.
  destruct (h =? hart), (Z.leb_spec from j), (Z.ltb_spec j from); (lia || done).
Qed.

Lemma lanes_upto_step sl hart from to e i sl' v :
  valid_hart hart -> 0 <= from <= i -> i < zlen sl -> 0 <= e i < 2 ^ 16 ->
  lanes_upto sl hart from to e i sl' -> lookupZ sl' i = Some v ->
  lanes_upto sl hart from to e (i + 1) (insertZ i (fset (lane hart) (e i) v) sl').
Proof.
  intros Hh Hi Hi' He [Hlen Hl] Hv. split; [by rewrite zlen_insertZ|]. intros h j Hj Hjr.
  rewrite slot_lane_insert by lia. specialize (Hl h j Hj Hjr).
  destruct (Z.eqb_spec j i) as [->|Hne].
  - destruct (Z.eqb_spec h hart) as [Heq|Hhh].
    + subst h. rewrite fget_fset_eq by by apply lane_ok.
      cbn [f_wid lane]. rewrite Z.mod_small by lia.
      destruct (Z.leb_spec from i), (Z.ltb_spec i (i + 1)); (lia || done).
    + rewrite fget_fset_ne by by apply lane_disj. cbn [andb] in *. rewrite <- Hl.
      unfold slot_lane. by rewrite Hv.
  - rewrite Hl. destruct (h =? hart), (Z.leb_spec from j), (Z.ltb_spec j i),
      (Z.ltb_spec j (i + 1)); (lia || done).
Qed.

Lemma wp_slots_update sl pid end_ hart from to Q :
  valid_hart hart -> 0 <= pid < 256 -> 0 <= from -> to <= end_ < 256 -> to <= zlen sl ->
  (forall sl', zlen sl' = zlen sl ->
     (forall h i, valid_hart h -> 0 <= i < zlen sl -> slot_lane sl' h i =
        if (h =? hart) && (from <=? i) && (i <? to)
        then slot_word pid (end_ - i) else slot_lane sl h i) -> Q tt sl') ->
  wp (slots_update pid end_ hart from to) Q sl.
Proof.
  intros Hh Hp Hf Ht Hlen HQ. unfold slots_update. rewrite hart_index by done.
  pose proof Hh as [??]. config_bounds.
  apply wp_bind, wp_shl64; [lia|]. rewrite lane_mask by done.
  apply (wp_for_range (lanes_upto sl hart from to (fun i => slot_word pid (end_ - i)))).
  - apply lanes_upto_start.
  - intros i sl' Hi HI. pose proof HI as [Hl _].
    destruct (lookupZ_lt sl' i) as [v Hv]; [lia|].
    apply wp_bind. eapply wp_slot_get; [done|].
    apply wp_bind, wp_slot_set; [lia|]. apply wp_bind, wp_shl64; [lia|].
    apply wp_bind. eapply wp_slot_get; [apply lookupZ_insertZ_eq; lia|].
    apply wp_slot_set; [rewrite zlen_insertZ; lia|].
    assert (Hw : 0 <= slot_word pid (end_ - i) < 2 ^ 16) by (apply slot_word_range; lia).
    replace (u64 (Z.shiftl pid 8)) with (Z.shiftl pid 8)
      by (unfold u64; rewrite Z.shiftl_mul_pow2, Z.mod_small by lia; lia).
    replace (u64 (end_ - i)) with (end_ - i) by (unfold u64; rewrite Z.mod_small; lia).
    rewrite lane_store by done.
    rewrite insertZ_insertZ.
    apply (lanes_upto_step sl hart from to (fun i => slot_word pid (end_ - i)));
      [done|lia|lia|done..].
  - intros sl' [Hl Hlanes]. apply HQ; [done|]. intros h i Hvh Hi. rewrite Hlanes by done.
    destruct (h =? hart), (Z.leb_spec from i), (Z.ltb_spec i to),
      (Z.ltb_spec i (Z.max from to)); (lia || done).
Qed.

Lemma wp_slots_delete sl hart from to Q :
  valid_hart hart -> 0 <= from -> to <= zlen sl ->
  (forall sl', zlen sl' = zlen sl ->
     (forall h i, valid_hart h -> 0 <= i < zlen sl -> slot_lane sl' h i =
        if (h =? hart) && (from <=? i) && (i <? to) then 0 else slot_lane sl h i) ->
     Q tt sl') ->
  wp (slots_delete hart from to) Q sl.
Proof.
  intros Hh Hf Hlen HQ. unfold slots_delete. rewrite hart_index by done.
  pose proof Hh as [??]. config_bounds.
  apply wp_bind, wp_shl64; [lia|]. rewrite lane_mask by done.
  apply (wp_for_range (lanes_upto sl hart from to (fun _ => 0))).
  - apply lanes_upto_start.
  - intros i sl' Hi HI. pose proof HI as [Hl _].
    destruct (lookupZ_lt sl' i) as [v Hv]; [lia|].
    apply wp_bind. eapply wp_slot_get; [done|]. apply wp_slot_set; [lia|].
    rewrite lane_clear by done.
    apply (lanes_upto_step sl hart from to (fun _ => 0)); [done|lia|lia|lia|done..].
  - intros sl' [Hl Hlanes]. apply HQ; [done|]. intros h i Hvh Hi. rewrite Hlanes by done.
    destruct (h =? hart), (Z.leb_spec from i), (Z.ltb_spec i to),
      (Z.ltb_spec i (Z.max from to)); (lia || done).
Qed.
End LaneFacts.
