(* ===== verification/Channel.v ===== *)
(** * IPC channels

    The part of [kernel/src/cap_ipc.c] that the capability operations use: the
    receivers registered in the table [channels] and [cap_sock_clear]. *)

From S2P Require Import Prelude Config CapTypes CapTable KState.

Definition cap_sock_clear (cap : cap_t) (p : Z) : K unit :=
  let chan := cap⟦sock_chan⟧ in
  if cap⟦sock_tag⟧ =? 0 then
    do* chan_update chan (set_server None) in
    do* chan_update chan (set_client None) in
    chan_update chan (set_cap_buf None)
  else
    let* ch := chan_load chan in
    if bool_decide (ch_client ch = Some p) then chan_update chan (set_client None)
    else ret tt.
