(* ===== verification/CapOps.v ===== *)
(** * Operations on capabilities

    [kernel/src/cap_ops.c]: reading, moving, deleting, revoking and deriving
    capabilities.  Each dispatches on the type of the capability through a
    table of handlers, as in the code: entry 0 is [NULL], and a type outside
    the table is an access out of bounds. *)

From S2P Require Import Prelude Config CapTypes CapTable KState Proc Sched Channel.

Section Operations.
Context `{C : Config}.

Definition cap_read (c : cte_t) : K (err_t * cap_t) :=
  let* cap := on_ct (cte_cap c) in
  ret ((if negb (cap =? 0) then SUCCESS else ERR_EMPTY), cap).

Definition cap_ipc_move_hook (src dst : cte_t) : K unit :=
  let* cap := on_ct (cte_cap src) in
  if cap⟦cap_type⟧ =? CAPTY_TIME then
    sched_update (cte_pid dst) cap⟦time_end⟧ cap⟦time_hart⟧ cap⟦time_mrk⟧ cap⟦time_end⟧
  else if cap⟦cap_type⟧ =? CAPTY_PMP then
    if negb (cap⟦pmp_used⟧ =? 0) then
      let* proc := proc_get (cte_pid src) in
      do* proc_pmp_unload proc cap⟦pmp_slot⟧ in
      let cap := cap⟦pmp_used := 0⟧ in
      let cap := cap⟦pmp_slot := 0⟧ in
      on_ct (cte_set_cap src cap)
    else ret tt
  else ret tt.

Definition cap_move (src dst : cte_t) : K err_t :=
  let* e := on_ct (cte_is_empty src) in
  if e : bool then ret ERR_SRC_EMPTY else
  let* e := on_ct (cte_is_empty dst) in
  if negb e then ret ERR_DST_OCCUPIED else
  do* (if negb (cte_pid src =? cte_pid dst) then cap_ipc_move_hook src dst else ret tt) in
  do* on_ct (cte_move src dst) in
  ret SUCCESS.

(** ** Deletion *)

Definition cap_delete_time (c : cte_t) (cap : cap_t) : K err_t :=
  do* sched_delete cap⟦time_hart⟧ cap⟦time_mrk⟧ cap⟦time_end⟧ in
  do* on_ct (cte_delete c) in
  ret SUCCESS.

Definition cap_delete_memory (c : cte_t) (cap : cap_t) : K err_t :=
  do* on_ct (cte_delete c) in
  ret SUCCESS.

Definition cap_delete_pmp (c : cte_t) (cap : cap_t) : K err_t :=
  let* proc := proc_get (cte_pid c) in
  do* (if negb (cap⟦pmp_used⟧ =? 0) then proc_pmp_unload proc cap⟦pmp_slot⟧ else ret tt) in
  do* on_ct (cte_delete c) in
  ret SUCCESS.

Definition cap_delete_monitor (c : cte_t) (cap : cap_t) : K err_t :=
  do* on_ct (cte_delete c) in
  ret SUCCESS.

Definition cap_delete_channel (c : cte_t) (cap : cap_t) : K err_t :=
  do* on_ct (cte_delete c) in
  ret SUCCESS.

Definition cap_delete_socket (c : cte_t) (cap : cap_t) : K err_t :=
  let* proc := proc_get (cte_pid c) in
  do* cap_sock_clear cap proc in
  do* on_ct (cte_delete c) in
  ret SUCCESS.

(** ** Revocation: one step, [CONTINUE] when there may be more to do *)

Definition cap_revoke_time (parent : cte_t) (pcap : cap_t) : K err_t :=
  let* child := on_ct (cte_next parent) in
  let* ccap := on_ct (cte_cap child) in
  if (ccap⟦cap_type⟧ =? CAPTY_TIME) && (pcap⟦time_hart⟧ =? ccap⟦time_hart⟧)
     && (pcap⟦time_bgn⟧ <=? ccap⟦time_bgn⟧) && (ccap⟦time_end⟧ <=? pcap⟦time_end⟧) then
    do* on_ct (cte_delete child) in
    do* sched_update (cte_pid parent) pcap⟦time_end⟧ pcap⟦time_hart⟧
          ccap⟦time_mrk⟧ pcap⟦time_mrk⟧ in
    let pcap := pcap⟦time_mrk := ccap⟦time_mrk⟧⟧ in
    do* on_ct (cte_set_cap parent pcap) in
    ret (if pcap⟦time_mrk⟧ =? pcap⟦time_bgn⟧ then SUCCESS else CONTINUE)
  else
    do* sched_update (cte_pid parent) pcap⟦time_end⟧ pcap⟦time_hart⟧
          pcap⟦time_bgn⟧ pcap⟦time_mrk⟧ in
    let pcap := pcap⟦time_mrk := pcap⟦time_bgn⟧⟧ in
    do* on_ct (cte_set_cap parent pcap) in
    ret SUCCESS.

Definition cap_revoke_memory (parent : cte_t) (pcap : cap_t) : K err_t :=
  let* child := on_ct (cte_next parent) in
  let* ccap := on_ct (cte_cap child) in
  if (ccap⟦cap_type⟧ =? CAPTY_MEMORY) && (pcap⟦mem_tag⟧ =? ccap⟦mem_tag⟧)
     && (pcap⟦mem_bgn⟧ <=? ccap⟦mem_bgn⟧) then
    do* on_ct (cte_delete child) in
    let pcap := pcap⟦mem_mrk := ccap⟦mem_mrk⟧⟧ in
    let pcap := pcap⟦mem_lck := ccap⟦mem_lck⟧⟧ in
    do* on_ct (cte_set_cap parent pcap) in
    ret (if (pcap⟦mem_mrk⟧ =? pcap⟦mem_bgn⟧) && (pcap⟦mem_lck⟧ =? 0)
         then SUCCESS else CONTINUE)
  else
    let base := fst (pmp_napot_decode ccap⟦pmp_addr⟧) in
    if (ccap⟦cap_type⟧ =? CAPTY_PMP)
       && (tag_block_to_addr pcap⟦mem_tag⟧ pcap⟦mem_bgn⟧ <=? base) then
      do* on_ct (cte_delete child) in
      do* (if negb (ccap⟦pmp_used⟧ =? 0) then
             let* proc := proc_get (cte_pid child) in
             proc_pmp_unload proc ccap⟦pmp_slot⟧
           else ret tt) in
      ret CONTINUE
    else
      let pcap := pcap⟦mem_mrk := pcap⟦mem_bgn⟧⟧ in
      let pcap := pcap⟦mem_lck := 0⟧ in
      do* on_ct (cte_set_cap parent pcap) in
      ret SUCCESS.

Definition cap_revoke_pmp (parent : cte_t) (pcap : cap_t) : K err_t :=
  ret SUCCESS.

Definition cap_revoke_monitor (parent : cte_t) (pcap : cap_t) : K err_t :=
  let* child := on_ct (cte_next parent) in
  let* ccap := on_ct (cte_cap child) in
  if (ccap⟦cap_type⟧ =? CAPTY_MONITOR) && (pcap⟦mon_bgn⟧ <=? ccap⟦mon_bgn⟧) then
    do* on_ct (cte_delete child) in
    let pcap := pcap⟦mon_mrk := ccap⟦mon_mrk⟧⟧ in
    do* on_ct (cte_set_cap parent pcap) in
    ret (if pcap⟦mon_mrk⟧ =? pcap⟦mon_bgn⟧ then SUCCESS else CONTINUE)
  else
    let pcap := pcap⟦mon_mrk := pcap⟦mon_bgn⟧⟧ in
    do* on_ct (cte_set_cap parent pcap) in
    ret SUCCESS.

Definition cap_revoke_channel (parent : cte_t) (pcap : cap_t) : K err_t :=
  let* child := on_ct (cte_next parent) in
  let* ccap := on_ct (cte_cap child) in
  if (ccap⟦cap_type⟧ =? CAPTY_CHANNEL) && (pcap⟦chan_bgn⟧ <=? ccap⟦chan_bgn⟧) then
    do* on_ct (cte_delete child) in
    let pcap := pcap⟦chan_mrk := ccap⟦chan_mrk⟧⟧ in
    do* on_ct (cte_set_cap parent pcap) in
    ret (if pcap⟦chan_mrk⟧ =? pcap⟦chan_bgn⟧ then SUCCESS else CONTINUE)
  else if (ccap⟦cap_type⟧ =? CAPTY_SOCKET) && (pcap⟦chan_bgn⟧ <=? ccap⟦sock_chan⟧) then
    do* on_ct (cte_delete child) in
    let* proc := proc_get (cte_pid child) in
    do* cap_sock_clear ccap proc in
    ret CONTINUE
  else
    let pcap := pcap⟦chan_mrk := pcap⟦chan_bgn⟧⟧ in
    do* on_ct (cte_set_cap parent pcap) in
    ret SUCCESS.

Definition cap_revoke_socket (parent : cte_t) (pcap : cap_t) : K err_t :=
  let* child := on_ct (cte_next parent) in
  let* ccap := on_ct (cte_cap child) in
  if (ccap⟦cap_type⟧ =? CAPTY_SOCKET) && (pcap⟦sock_chan⟧ =? ccap⟦sock_chan⟧)
     && (pcap⟦sock_tag⟧ =? 0) then
    do* on_ct (cte_delete child) in
    let* proc := proc_get (cte_pid child) in
    do* cap_sock_clear ccap proc in
    ret CONTINUE
  else ret SUCCESS.

(** ** Derivation *)

Definition cap_derive_time (src : cte_t) (cap : cap_t) (dst : cte_t) (new_cap : cap_t)
    : K err_t :=
  if (new_cap⟦cap_type⟧ =? CAPTY_TIME) && (new_cap⟦time_hart⟧ =? cap⟦time_hart⟧)
     && (new_cap⟦time_bgn⟧ =? cap⟦time_mrk⟧) && (new_cap⟦time_end⟧ <=? cap⟦time_end⟧) then
    do* sched_update (cte_pid dst) new_cap⟦time_end⟧ new_cap⟦time_hart⟧
          new_cap⟦time_bgn⟧ new_cap⟦time_end⟧ in
    let cap := cap⟦time_mrk := new_cap⟦time_end⟧⟧ in
    do* on_ct (cte_set_cap src cap) in
    do* on_ct (cte_insert dst new_cap src) in
    ret SUCCESS
  else ret ERR_INVALID_DERIVATION.

Definition cap_derive_memory (src : cte_t) (cap : cap_t) (dst : cte_t) (new_cap : cap_t)
    : K err_t :=
  if (new_cap⟦cap_type⟧ =? CAPTY_MEMORY) && (cap⟦mem_tag⟧ =? new_cap⟦mem_tag⟧)
     && (cap⟦mem_tag⟧ =? new_cap⟦mem_tag⟧) && (cap⟦mem_mrk⟧ <=? new_cap⟦mem_bgn⟧)
     && (new_cap⟦mem_end⟧ <=? cap⟦mem_end⟧)
     && (Z.land new_cap⟦mem_rwx⟧ cap⟦mem_rwx⟧ =? new_cap⟦mem_rwx⟧)
     && (cap⟦mem_lck⟧ =? 0) then
    let cap := cap⟦mem_mrk := new_cap⟦mem_end⟧⟧ in
    do* on_ct (cte_set_cap src cap) in
    do* on_ct (cte_insert dst new_cap src) in
    ret SUCCESS
  else
    let pmp_begin := fst (pmp_napot_decode new_cap⟦pmp_addr⟧) in
    let pmp_end := u64 (snd (pmp_napot_decode new_cap⟦pmp_addr⟧) + pmp_begin) in
    let mem_mrk_addr := tag_block_to_addr cap⟦mem_tag⟧ cap⟦mem_mrk⟧ in
    let mem_end_addr := tag_block_to_addr cap⟦mem_tag⟧ cap⟦mem_end⟧ in
    if (new_cap⟦cap_type⟧ =? CAPTY_PMP) && (mem_mrk_addr <=? pmp_begin)
       && (pmp_end <=? mem_end_addr)
       && (Z.land new_cap⟦pmp_rwx⟧ cap⟦mem_rwx⟧ =? new_cap⟦pmp_rwx⟧) then
      let cap := cap⟦mem_lck := 1⟧ in
      do* on_ct (cte_set_cap src cap) in
      do* on_ct (cte_insert dst new_cap src) in
      ret SUCCESS
    else ret ERR_INVALID_DERIVATION.

Definition cap_derive_pmp (src : cte_t) (cap : cap_t) (dst : cte_t) (new_cap : cap_t)
    : K err_t :=
  ret ERR_INVALID_DERIVATION.

Definition cap_derive_monitor (src : cte_t) (cap : cap_t) (dst : cte_t) (new_cap : cap_t)
    : K err_t :=
  if (new_cap⟦cap_type⟧ =? CAPTY_MONITOR) && (cap⟦mon_mrk⟧ <=? new_cap⟦mon_bgn⟧)
     && (new_cap⟦mon_end⟧ <=? cap⟦mon_end⟧) then
    let cap := cap⟦mon_mrk := new_cap⟦mon_end⟧⟧ in
    do* on_ct (cte_set_cap src cap) in
    do* on_ct (cte_insert dst new_cap src) in
    ret SUCCESS
  else ret ERR_INVALID_DERIVATION.

Definition cap_derive_channel (src : cte_t) (cap : cap_t) (dst : cte_t) (new_cap : cap_t)
    : K err_t :=
  if (new_cap⟦cap_type⟧ =? CAPTY_CHANNEL) && (cap⟦chan_mrk⟧ <=? new_cap⟦chan_bgn⟧)
     && (new_cap⟦chan_end⟧ <=? cap⟦chan_end⟧) then
    let cap := cap⟦chan_mrk := new_cap⟦chan_end⟧⟧ in
    do* on_ct (cte_set_cap src cap) in
    do* on_ct (cte_insert dst new_cap src) in
    ret SUCCESS
  else if (new_cap⟦cap_type⟧ =? CAPTY_SOCKET) && (cap⟦chan_mrk⟧ <=? new_cap⟦sock_chan⟧)
     && (new_cap⟦sock_chan⟧ <? cap⟦chan_end⟧) then
    let cap := cap⟦chan_mrk := new_cap⟦sock_chan⟧ + 1⟧ in
    do* on_ct (cte_set_cap src cap) in
    do* on_ct (cte_insert dst new_cap src) in
    ret SUCCESS
  else ret ERR_INVALID_DERIVATION.

Definition cap_derive_socket (src : cte_t) (cap : cap_t) (dst : cte_t) (new_cap : cap_t)
    : K err_t :=
  if (new_cap⟦cap_type⟧ =? CAPTY_SOCKET) && (new_cap⟦sock_chan⟧ =? cap⟦sock_chan⟧)
     && (new_cap⟦sock_perm⟧ =? cap⟦sock_perm⟧) && (new_cap⟦sock_mode⟧ =? cap⟦sock_mode⟧)
     && (cap⟦sock_tag⟧ =? 0) && negb (new_cap⟦sock_tag⟧ =? 0) then
    do* on_ct (cte_insert dst new_cap src) in
    ret SUCCESS
  else ret ERR_INVALID_DERIVATION.

(** ** Dispatch *)

Definition delete_handlers : list (option (cte_t -> cap_t -> K err_t)) :=
  [ None; Some cap_delete_time; Some cap_delete_memory; Some cap_delete_pmp;
    Some cap_delete_monitor; Some cap_delete_channel; Some cap_delete_socket ].

Definition revoke_handlers : list (option (cte_t -> cap_t -> K err_t)) :=
  [ None; Some cap_revoke_time; Some cap_revoke_memory; Some cap_revoke_pmp;
    Some cap_revoke_monitor; Some cap_revoke_channel; Some cap_revoke_socket ].

Definition derive_handlers
    : list (option (cte_t -> cap_t -> cte_t -> cap_t -> K err_t)) :=
  [ None; Some cap_derive_time; Some cap_derive_memory; Some cap_derive_pmp;
    Some cap_derive_monitor; Some cap_derive_channel; Some cap_derive_socket ].

(** [handlers[type]], called. *)
Definition handler_at {A} (hs : list (option A)) (type : Z) : K A :=
  let* h := array_get hs type in deref h.

Definition cap_delete (c : cte_t) : K err_t :=
  let* e := on_ct (cte_is_empty c) in
  if e : bool then ret ERR_EMPTY else
  let* cap := on_ct (cte_cap c) in
  let* h := handler_at delete_handlers cap⟦cap_type⟧ in
  h c cap.

(** The [do ... while (err < 0 && !kernel_preempt())] loop, with at most
    [fuel] iterations. *)
Fixpoint cap_revoke_loop (fuel : nat) (type : Z) (parent : cte_t) : K err_t :=
  match fuel with
  | O => fail OutOfFuel
  | S fuel =>
      let* cap := on_ct (cte_cap parent) in
      let* h := handler_at revoke_handlers type in
      let* err := h parent cap in
      if err_code err <? 0 then
        let* b := kernel_preempt in
        if negb b then cap_revoke_loop fuel type parent else ret err
      else ret err
  end.

Definition cap_revoke (fuel : nat) (parent : cte_t) : K err_t :=
  let* pcap := on_ct (cte_cap parent) in
  if pcap⟦cap_type⟧ =? CAPTY_NONE then ret ERR_EMPTY else
  let* err := cap_revoke_loop fuel pcap⟦cap_type⟧ parent in
  ret (if err_code err <? 0 then ERR_PREEMPTED else SUCCESS).

Definition cap_derive (src dst : cte_t) (ncap : cap_t) : K err_t :=
  let* e := on_ct (cte_is_empty src) in
  if e : bool then ret ERR_SRC_EMPTY else
  let* e := on_ct (cte_is_empty dst) in
  if negb e then ret ERR_DST_OCCUPIED else
  let* scap := on_ct (cte_cap src) in
  let* h := handler_at derive_handlers scap⟦cap_type⟧ in
  h src scap dst ncap.
End Operations.
