(* ===== verification/CapPmp.v ===== *)
(** * Loading and unloading PMP capabilities

    [kernel/src/cap_pmp.c]. *)

From S2P Require Import Prelude Config CapTypes CapTable KState Proc.

Section Operations.
Context `{C : Config}.

Definition cap_pmp_load (pmp : cte_t) (slot : Z) : K err_t :=
  let slot := u8 slot in
  let* proc := proc_get (cte_pid pmp) in
  let* cap := on_ct (cte_cap pmp) in
  if cap⟦cap_type⟧ =? CAPTY_NONE then ret ERR_EMPTY else
  if negb (cap⟦cap_type⟧ =? CAPTY_PMP) || negb (cap⟦pmp_used⟧ =? 0)
  then ret ERR_INVALID_PMP else
  let* avail := proc_pmp_avail proc slot in
  if negb avail then ret ERR_DST_OCCUPIED else
  do* proc_pmp_load proc slot cap⟦pmp_rwx⟧ cap⟦pmp_addr⟧ in
  let cap := cap⟦pmp_slot := slot⟧ in
  let cap := cap⟦pmp_used := 1⟧ in
  do* on_ct (cte_set_cap pmp cap) in
  ret SUCCESS.

Definition cap_pmp_unload (pmp : cte_t) : K err_t :=
  let* proc := proc_get (cte_pid pmp) in
  let* cap := on_ct (cte_cap pmp) in
  if cap⟦cap_type⟧ =? CAPTY_NONE then ret ERR_EMPTY else
  if negb (cap⟦cap_type⟧ =? CAPTY_PMP) || (cap⟦pmp_used⟧ =? 0)
  then ret ERR_INVALID_PMP else
  do* proc_pmp_unload proc cap⟦pmp_slot⟧ in
  let cap := cap⟦pmp_slot := 0⟧ in
  let cap := cap⟦pmp_used := 0⟧ in
  do* on_ct (cte_set_cap pmp cap) in
  ret SUCCESS.
End Operations.
