(* ===== verification/CapIpc.v ===== *)
(** * Inter-process communication

    [kernel/src/cap_ipc.c]: sending, receiving and the combined operations on
    socket capabilities.  The in-out parameter [proc_t **next] of the C
    functions is the last argument and the second component of the result:
    the process to run next, [None] for [NULL]. *)

From S2P Require Import Prelude Config CapTypes CapTable KState Proc Sched Channel.
From S2P Require Import CapOps.

(** [ipc_msg_t] *)
Record ipc_msg := IpcMsg { m_cap_buf : cte_t; m_send_cap : bool; m_data : list Z }.

Section Operations.
Context `{C : Config}.

(** [cap_move(src, dst)] through a destination pointer that may be null: the
    source is examined first. *)
Definition cap_move_to (src : cte_t) (dst : option cte_t) : K err_t :=
  match dst with
  | Some dst => cap_move src dst
  | None =>
      let* e := on_ct (cte_is_empty src) in
      if e : bool then ret ERR_SRC_EMPTY else fail NullDeref
  end.

(** The receiver of a message, [None] when there is none: the part of
    [do_send] before [proc_ipc_acquire]. *)
Definition send_target (cap : cap_t) (curr_time timeout : Z) : K (option Z) :=
  let chan := cap⟦sock_chan⟧ in
  let* ch := chan_load chan in
  if cap⟦sock_tag⟧ =? 0 then
    match ch_client ch with
    | None => ret None
    | Some recv =>
        do* chan_update chan (set_client None) in
        ret (Some recv)
    end
  else
    match ch_server ch with
    | None => ret None
    | Some recv =>
        if cap⟦sock_mode⟧ =? IPC_YIELD then
          let* serv_time := reg_get recv REG_SERVTIME in
          if timeout <=? u64 (curr_time + serv_time) then ret None else ret (Some recv)
        else ret (Some recv)
    end.

(** The registers written to the receiver, and the capability moved to it. *)
Definition deliver (cap : cap_t) (msg : ipc_msg) (cap_buf : option cte_t) (recv : Z)
    : K unit :=
  do* reg_set recv REG_T0 (err_u64 SUCCESS) in
  do* reg_set recv REG_A0 cap⟦sock_tag⟧ in
  let* d0 := array_get (m_data msg) 0 in
  do* reg_set recv REG_A2 d0 in
  let* d1 := array_get (m_data msg) 1 in
  do* reg_set recv REG_A3 d1 in
  let* d2 := array_get (m_data msg) 2 in
  do* reg_set recv REG_A4 d2 in
  let* d3 := array_get (m_data msg) 3 in
  do* reg_set recv REG_A5 d3 in
  if m_send_cap msg then
    let* raw := on_ct (cte_cap (m_cap_buf msg)) in
    do* reg_set recv REG_A1 raw in
    do* cap_move_to (m_cap_buf msg) cap_buf in
    ret tt
  else reg_set recv REG_A1 0.

Definition do_send (cap : cap_t) (msg : ipc_msg) (next : Z) : K (err_t * option Z) :=
  let* ch := chan_load cap⟦sock_chan⟧ in
  let cap_buf := ch_cap_buf ch in
  let* curr_time := time_get in
  let* hart := csrr_mhartid in
  let* timeout := timeout_get hart in
  if timeout <=? curr_time then ret (ERR_PREEMPTED, Some next) else
  let* target := send_target cap curr_time timeout in
  match target with
  | None => ret (ERR_NO_RECEIVER, Some next)
  | Some recv =>
      let* ok := proc_ipc_acquire recv cap⟦sock_chan⟧ in
      if negb ok then ret (ERR_NO_RECEIVER, Some next) else
      do* deliver cap msg cap_buf recv in
      if cap⟦sock_mode⟧ =? IPC_YIELD then
        let* n := proc_load next in
        do* proc_update recv (set_timeout (p_timeout n)) in
        ret (SUCCESS, Some recv)
      else if cap⟦sock_mode⟧ =? IPC_NOYIELD then
        do* proc_update recv (set_timeout 0) in
        do* proc_release recv in
        ret (SUCCESS, Some next)
      else
        do* kassert false in
        ret (SUCCESS, Some next)
  end.

Definition do_recv (cap : cap_t) (cap_buf : cte_t) (recv : Z) : K unit :=
  let chan := cap⟦sock_chan⟧ in
  if cap⟦sock_tag⟧ =? 0 then
    do* chan_update chan (set_server (Some recv)) in
    do* chan_update chan (set_cap_buf (Some cap_buf)) in
    do* proc_update recv (set_timeout U64_MAX) in
    proc_ipc_wait recv chan
  else
    do* chan_update chan (set_client (Some recv)) in
    do* chan_update chan (set_cap_buf (Some cap_buf)) in
    do* (if cap⟦sock_mode⟧ =? IPC_NOYIELD
         then proc_update recv (set_timeout U64_MAX) else ret tt) in
    proc_ipc_wait recv chan.

Definition has_perm (cap : cap_t) (perm : Z) : bool :=
  negb (Z.land cap⟦sock_perm⟧ perm =? 0).

Definition reply (cap : cap_t) (msg : ipc_msg) (next : Z) : K (err_t * option Z) :=
  if m_send_cap msg && negb (has_perm cap IPC_SCAP)
  then ret (ERR_INVALID_SOCKET, Some next) else do_send cap msg next.

Definition send (cap : cap_t) (msg : ipc_msg) (next : Z) : K (err_t * option Z) :=
  if m_send_cap msg && negb (has_perm cap IPC_CCAP)
  then ret (ERR_INVALID_SOCKET, Some next) else do_send cap msg next.

(** [perm && !cte_is_empty(cap_buf) && !msg->send_cap] *)
Definition buffer_blocked (perm : bool) (msg : ipc_msg) : K bool :=
  if perm then
    let* e := on_ct (cte_is_empty (m_cap_buf msg)) in
    ret (negb e && negb (m_send_cap msg))
  else ret false.

Definition replyrecv (cap : cap_t) (msg : ipc_msg) (next : Z) : K (err_t * option Z) :=
  let cap_buf := m_cap_buf msg in
  let server := next in
  let* p := proc_load server in
  do* kassert (p_state p =? PSF_BUSY) in
  if m_send_cap msg && negb (has_perm cap IPC_SCAP)
  then ret (ERR_INVALID_SOCKET, Some next) else
  let* blocked := buffer_blocked (has_perm cap IPC_CCAP) msg in
  if blocked : bool then ret (ERR_DST_OCCUPIED, Some next) else
  let* r := do_send cap msg next in
  if decide (fst r = ERR_PREEMPTED) then ret (fst r, None) else
  do* (if decide (fst r = ERR_NO_RECEIVER) then
         if m_send_cap msg then let* _e := cap_delete (m_cap_buf msg) in ret tt
         else ret tt
       else ret tt) in
  do* do_recv cap cap_buf server in
  ret (ERR_TIMEOUT, if decide (snd r = Some server) then None else snd r).

Definition call (cap : cap_t) (msg : ipc_msg) (next : Z) : K (err_t * option Z) :=
  let cap_buf := m_cap_buf msg in
  let client := next in
  if m_send_cap msg && negb (has_perm cap IPC_CCAP)
  then ret (ERR_INVALID_SOCKET, Some next) else
  let* blocked := buffer_blocked (has_perm cap IPC_SCAP) msg in
  if blocked : bool then ret (ERR_DST_OCCUPIED, Some next) else
  let* r := do_send cap msg next in
  if is_err (fst r) then ret r else
  do* do_recv cap cap_buf client in
  ret (ERR_TIMEOUT, if decide (snd r = Some client) then None else snd r).

(** The test of the [PSF_SUSPENDED] flag of the current process. *)
Definition is_preempted_by_suspend (next : Z) : K bool :=
  let* p := proc_load next in
  ret (negb (Z.land (p_state p) PSF_SUSPENDED =? 0)).

Definition cap_sock_send (sock : cte_t) (msg : ipc_msg) (next : Z) : K (err_t * option Z) :=
  let* cap := on_ct (cte_cap sock) in
  if cap⟦cap_type⟧ =? CAPTY_NONE then ret (ERR_EMPTY, Some next) else
  if negb (cap⟦cap_type⟧ =? CAPTY_SOCKET) then ret (ERR_INVALID_SOCKET, Some next) else
  let* sus := is_preempted_by_suspend next in
  if sus : bool then ret (ERR_PREEMPTED, None) else
  if cap⟦sock_tag⟧ =? 0 then reply cap msg next else send cap msg next.

Definition cap_sock_recv (sock cap_buf : cte_t) (next : Z) : K (err_t * option Z) :=
  let* cap := on_ct (cte_cap sock) in
  if cap⟦cap_type⟧ =? CAPTY_NONE then ret (ERR_EMPTY, Some next) else
  if negb (cap⟦cap_type⟧ =? CAPTY_SOCKET) then ret (ERR_INVALID_CAPABILITY, Some next) else
  let* blocked :=
    (if has_perm cap IPC_CCAP then
       let* e := on_ct (cte_is_empty cap_buf) in ret (negb e)
     else ret false) in
  if blocked : bool then ret (ERR_DST_OCCUPIED, Some next) else
  let* sus := is_preempted_by_suspend next in
  if sus : bool then ret (ERR_PREEMPTED, None) else
  if cap⟦sock_tag⟧ =? 0 then
    do* do_recv cap cap_buf next in
    ret (ERR_TIMEOUT, None)
  else
    let chan := cap⟦sock_chan⟧ in
    let* ch := chan_load chan in
    if bool_decide (ch_client ch = Some next) then
      let client := next in
      match ch_server ch with
      | None => ret (ERR_TIMEOUT, Some next)
      | Some server =>
          if negb (cap⟦sock_mode⟧ =? IPC_YIELD) then ret (ERR_TIMEOUT, Some next) else
          let* ok := proc_acquire server in
          if negb ok then ret (ERR_TIMEOUT, Some next) else
          do* proc_ipc_wait client chan in
          do* chan_update chan (set_cap_buf (Some cap_buf)) in
          let* n := proc_load next in
          do* proc_update server (set_timeout (p_timeout n)) in
          ret (ERR_TIMEOUT, Some server)
      end
    else ret (ERR_INVALID_STATE, Some next).

Definition cap_sock_sendrecv (sock : cte_t) (msg : ipc_msg) (next : Z)
    : K (err_t * option Z) :=
  let* cap := on_ct (cte_cap sock) in
  if cap⟦cap_type⟧ =? CAPTY_NONE then ret (ERR_EMPTY, Some next) else
  if negb (cap⟦cap_type⟧ =? CAPTY_SOCKET) then ret (ERR_INVALID_CAPABILITY, Some next) else
  let* sus := is_preempted_by_suspend next in
  if sus : bool then ret (ERR_PREEMPTED, None) else
  let* p := proc_load next in
  do* kassert (p_state p =? PSF_BUSY) in
  if cap⟦sock_tag⟧ =? 0 then replyrecv cap msg next else call cap msg next.
End Operations.
