(* ===== verification/CapMonitor.v ===== *)
(** * Monitors

    [kernel/src/cap_monitor.c]: operations on other processes under a monitor
    capability. *)

From S2P Require Import Prelude Config CapTypes CapTable KState Proc Sched Channel.
From S2P Require Import CapOps CapPmp.

Section Operations.
Context `{C : Config}.

Definition check_monitor (mon : cte_t) (pid : Z) (check_suspended : bool) : K err_t :=
  let pid := u16 pid in
  let* mon_cap := on_ct (cte_cap mon) in
  if negb (mon_cap⟦cap_type⟧ =? CAPTY_MONITOR) || (pid <? mon_cap⟦mon_mrk⟧)
     || (mon_cap⟦mon_end⟧ <=? pid) then ret ERR_INVALID_MONITOR else
  if check_suspended then
    let* proc := proc_get pid in
    let* sus := proc_is_suspended proc in
    if negb sus then ret ERR_INVALID_STATE else ret SUCCESS
  else ret SUCCESS.

Definition check_monitor_move (mon src dst : cte_t) : K err_t :=
  let mon_pid := cte_pid mon in
  let src_pid := cte_pid src in
  let dst_pid := cte_pid dst in
  let* err := (if negb (mon_pid =? src_pid) then check_monitor mon src_pid true
               else ret SUCCESS) in
  if is_err err then ret err else
  let* err := (if negb (mon_pid =? dst_pid) then check_monitor mon dst_pid true
               else ret SUCCESS) in
  if is_err err then ret err else ret SUCCESS.

Definition cap_monitor_suspend (mon : cte_t) (pid : Z) : K err_t :=
  let pid := u16 pid in
  let* err := check_monitor mon pid false in
  do* (if negb (is_err err) then
         let* proc := proc_get pid in proc_suspend proc
       else ret tt) in
  ret err.

Definition cap_monitor_resume (mon : cte_t) (pid : Z) : K err_t :=
  let pid := u16 pid in
  let* err := check_monitor mon pid false in
  do* (if negb (is_err err) then
         let* proc := proc_get pid in proc_resume proc
       else ret tt) in
  ret err.

(** The state is stored through [state] only on success. *)
Definition cap_monitor_state_get (mon : cte_t) (pid : Z) : K (err_t * option Z) :=
  let pid := u16 pid in
  let* err := check_monitor mon pid false in
  if negb (is_err err) then
    let* proc := proc_get pid in
    let* p := proc_load proc in
    ret (err, Some (p_state p))
  else ret (err, None).

Definition cap_monitor_yield (mon : cte_t) (pid : Z) (next : Z) : K (err_t * Z) :=
  let pid := u16 pid in
  let* err := check_monitor mon pid false in
  if negb (is_err err) then
    let* proc := proc_get pid in
    let* ok := proc_acquire proc in
    if ok : bool then ret (SUCCESS, proc) else ret (ERR_INVALID_STATE, next)
  else ret (err, next).

Definition cap_monitor_reg_read (mon : cte_t) (pid reg : Z) : K (err_t * option Z) :=
  let pid := u16 pid in
  let reg := u32 reg in
  let* err := check_monitor mon pid true in
  if negb (is_err err) then
    let* proc := proc_get pid in
    let* v := reg_get proc reg in
    ret (err, Some v)
  else ret (err, None).

Definition cap_monitor_reg_write (mon : cte_t) (pid reg val : Z) : K err_t :=
  let pid := u16 pid in
  let reg := u32 reg in
  let* err := check_monitor mon pid true in
  do* (if negb (is_err err) then
         let* proc := proc_get pid in reg_set proc reg val
       else ret tt) in
  ret err.

Definition cap_monitor_cap_read (mon src : cte_t) : K (err_t * option cap_t) :=
  let* err := check_monitor mon (cte_pid src) true in
  if negb (is_err err) then
    let* r := cap_read src in ret (fst r, Some (snd r))
  else ret (err, None).

Definition cap_monitor_cap_move (mon src dst : cte_t) : K err_t :=
  let* err := check_monitor_move mon src dst in
  if negb (is_err err) then cap_move src dst else ret err.

Definition cap_monitor_pmp_load (mon pmp : cte_t) (slot : Z) : K err_t :=
  let slot := u8 slot in
  let* err := check_monitor mon (cte_pid pmp) true in
  if negb (is_err err) then cap_pmp_load pmp slot else ret err.

Definition cap_monitor_pmp_unload (mon pmp : cte_t) : K err_t :=
  let* err := check_monitor mon (cte_pid pmp) true in
  if negb (is_err err) then cap_pmp_unload pmp else ret err.
End Operations.
