(* ===== verification/Syscall.v ===== *)
(** * System calls

    [kernel/src/syscall.c]: the validators and handlers of the 25 system calls
    and [syscall_handler], with the capability lock of [kernel/src/cap_lock.c]
    and [kernel/src/smp/taslock.c].  The arguments [sys_args_t] alias the
    registers [A0..A7] of the calling process, so an argument is read from the
    process when the code reads it.  Parameters narrower than the 64-bit
    argument truncate it, as the C conversions do. *)

From S2P Require Import Prelude Config CapTypes CapTable KState Proc Sched Channel.
From S2P Require Import CapOps CapPmp CapIpc CapMonitor.

(** [syscall_t] *)
Definition SYS_GET_INFO : Z := 0.
Definition SYS_REG_READ : Z := 1.
Definition SYS_REG_WRITE : Z := 2.
Definition SYS_SYNC : Z := 3.
Definition SYS_SLEEP : Z := 4.
Definition SYS_CAP_READ : Z := 5.
Definition SYS_CAP_MOVE : Z := 6.
Definition SYS_CAP_DELETE : Z := 7.
Definition SYS_CAP_REVOKE : Z := 8.
Definition SYS_CAP_DERIVE : Z := 9.
Definition SYS_PMP_LOAD : Z := 10.
Definition SYS_PMP_UNLOAD : Z := 11.
Definition SYS_MON_SUSPEND : Z := 12.
Definition SYS_MON_RESUME : Z := 13.
Definition SYS_MON_STATE_GET : Z := 14.
Definition SYS_MON_YIELD : Z := 15.
Definition SYS_MON_REG_READ : Z := 16.
Definition SYS_MON_REG_WRITE : Z := 17.
Definition SYS_MON_CAP_READ : Z := 18.
Definition SYS_MON_CAP_MOVE : Z := 19.
Definition SYS_MON_PMP_LOAD : Z := 20.
Definition SYS_MON_PMP_UNLOAD : Z := 21.
Definition SYS_SOCK_SEND : Z := 22.
Definition SYS_SOCK_RECV : Z := 23.
Definition SYS_SOCK_SENDRECV : Z := 24.

(** ** The capability lock *)

(** An atomic access to the lock word: the value it finds. *)
Definition lock_access : K Z :=
  let* h := gets hw in
  do* modify (set_hw (hw_tick h)) in
  ret (lock_word h (tick h)).

(** [taslock_try_acquire]: [__atomic_fetch_or] found 0. *)
Definition taslock_try_acquire : K bool :=
  let* v := lock_access in ret (v =? 0).

(** The inner loop of [taslock_acquire]: [true] when the word was seen free,
    [false] when a timer interrupt is pending. *)
Fixpoint taslock_wait (fuel : nat) : K bool :=
  match fuel with
  | O => fail OutOfFuel
  | S fuel =>
      let* v := lock_access in
      if v =? 0 then ret true else
      let* p := kernel_preempt in
      if p : bool then ret false else taslock_wait fuel
  end.

Fixpoint taslock_acquire (fuel : nat) : K bool :=
  match fuel with
  | O => fail OutOfFuel
  | S fuel =>
      let* free := taslock_wait fuel in
      if negb free then ret false else
      let* ok := taslock_try_acquire in
      if ok : bool then ret true else taslock_acquire fuel
  end.

(** [cap_lock_release], an atomic store.  What an access finds afterwards is
    again up to all the harts. *)
Definition lock_release : K unit := modify (fun s => set_hw (hw_tick (hw s)) s).

Section Operations.
Context `{C : Config}.

(** [args->a_i] *)
Definition arg (p i : Z) : K Z := reg_get p (REG_A0 + i).

Definition set_t0 (p : Z) (e : err_t) : K unit := reg_set p REG_T0 (err_u64 e).

Definition p_pid_of (p : Z) : K Z := let* x := proc_load p in ret (p_pid x).

(** [ctable_get(p->pid, idx)] *)
Definition own_cte (p idx : Z) : K cte_t :=
  let* pid := p_pid_of p in on_ct (ctable_get pid idx).

(** ** Validators *)

Definition valid_idx (idx : Z) : bool := u16 idx <? S3K_CAP_CNT.
Definition valid_slot (slot : Z) : bool := u8 slot <? S3K_PMP_CNT.
Definition valid_pid (pid : Z) : bool := u16 pid <? S3K_PROC_CNT.
Definition valid_reg (reg : Z) : bool := u32 reg <? REG_CNT.

Definition validate_get_info (p : Z) : K err_t := ret SUCCESS.
Definition validate_reg_read (p : Z) : K err_t :=
  let* reg := arg p 0 in
  if negb (valid_reg reg) then ret ERR_INVALID_REGISTER else ret SUCCESS.
Definition validate_reg_write (p : Z) : K err_t :=
  let* reg := arg p 0 in
  if negb (valid_reg reg) then ret ERR_INVALID_REGISTER else ret SUCCESS.
Definition validate_sync (p : Z) : K err_t := ret SUCCESS.
Definition validate_sleep (p : Z) : K err_t := ret SUCCESS.
Definition validate_cap_read (p : Z) : K err_t :=
  let* idx := arg p 0 in
  if negb (valid_idx idx) then ret ERR_INVALID_INDEX else ret SUCCESS.
Definition validate_cap_move (p : Z) : K err_t :=
  let* src_idx := arg p 0 in
  if negb (valid_idx src_idx) then ret ERR_INVALID_INDEX else
  let* dst_idx := arg p 1 in
  if negb (valid_idx dst_idx) then ret ERR_INVALID_INDEX else ret SUCCESS.
Definition validate_cap_delete (p : Z) : K err_t :=
  let* idx := arg p 0 in
  if negb (valid_idx idx) then ret ERR_INVALID_INDEX else ret SUCCESS.
Definition validate_cap_revoke (p : Z) : K err_t :=
  let* idx := arg p 0 in
  if negb (valid_idx idx) then ret ERR_INVALID_INDEX else ret SUCCESS.
Definition validate_cap_derive (p : Z) : K err_t :=
  let* src_idx := arg p 0 in
  if negb (valid_idx src_idx) then ret ERR_INVALID_INDEX else
  let* dst_idx := arg p 1 in
  if negb (valid_idx dst_idx) then ret ERR_INVALID_INDEX else
  let* cap_raw := arg p 2 in
  if negb (cap_is_valid cap_raw) then ret ERR_INVALID_DERIVATION else ret SUCCESS.
Definition validate_pmp_load (p : Z) : K err_t :=
  let* idx := arg p 0 in
  if negb (valid_idx idx) then ret ERR_INVALID_INDEX else
  let* slot := arg p 1 in
  if negb (valid_slot slot) then ret ERR_INVALID_SLOT else ret SUCCESS.
Definition validate_pmp_unload (p : Z) : K err_t :=
  let* idx := arg p 0 in
  if negb (valid_idx idx) then ret ERR_INVALID_INDEX else ret SUCCESS.

(** [mon_state]: the four validators have the same body. *)
Definition validate_mon_state (p : Z) : K err_t :=
  let* mon_idx := arg p 0 in
  if negb (valid_idx mon_idx) then ret ERR_INVALID_INDEX else
  let* pid := arg p 1 in
  if negb (valid_pid pid) then ret ERR_INVALID_PID else ret SUCCESS.
Definition validate_mon_suspend : Z -> K err_t := validate_mon_state.
Definition validate_mon_resume : Z -> K err_t := validate_mon_state.
Definition validate_mon_state_get : Z -> K err_t := validate_mon_state.
Definition validate_mon_yield : Z -> K err_t := validate_mon_state.
Definition validate_mon_reg_read (p : Z) : K err_t :=
  let* mon_idx := arg p 0 in
  if negb (valid_idx mon_idx) then ret ERR_INVALID_INDEX else
  let* pid := arg p 1 in
  if negb (valid_pid pid) then ret ERR_INVALID_PID else
  let* reg := arg p 2 in
  if negb (valid_reg reg) then ret ERR_INVALID_REGISTER else ret SUCCESS.
Definition validate_mon_reg_write (p : Z) : K err_t :=
  let* mon_idx := arg p 0 in
  if negb (valid_idx mon_idx) then ret ERR_INVALID_INDEX else
  let* pid := arg p 1 in
  if negb (valid_pid pid) then ret ERR_INVALID_PID else
  let* reg := arg p 2 in
  if negb (valid_reg reg) then ret ERR_INVALID_REGISTER else ret SUCCESS.
Definition validate_mon_cap_read (p : Z) : K err_t :=
  let* mon_idx := arg p 0 in
  if negb (valid_idx mon_idx) then ret ERR_INVALID_INDEX else
  let* pid := arg p 1 in
  if negb (valid_pid pid) then ret ERR_INVALID_PID else
  let* idx := arg p 2 in
  if negb (valid_idx idx) then ret ERR_INVALID_INDEX else ret SUCCESS.
Definition validate_mon_cap_move (p : Z) : K err_t :=
  let* mon_idx := arg p 0 in
  if negb (valid_idx mon_idx) then ret ERR_INVALID_INDEX else
  let* src_pid := arg p 1 in
  if negb (valid_pid src_pid) then ret ERR_INVALID_PID else
  let* src_idx := arg p 2 in
  if negb (valid_idx src_idx) then ret ERR_INVALID_INDEX else
  let* dst_pid := arg p 3 in
  if negb (valid_pid dst_pid) then ret ERR_INVALID_PID else
  let* dst_idx := arg p 4 in
  if negb (valid_idx dst_idx) then ret ERR_INVALID_INDEX else ret SUCCESS.
Definition validate_mon_pmp_load (p : Z) : K err_t :=
  let* mon_idx := arg p 0 in
  if negb (valid_idx mon_idx) then ret ERR_INVALID_INDEX else
  let* pid := arg p 1 in
  if negb (valid_pid pid) then ret ERR_INVALID_PID else
  let* idx := arg p 2 in
  if negb (valid_idx idx) then ret ERR_INVALID_INDEX else
  let* slot := arg p 3 in
  if negb (valid_slot slot) then ret ERR_INVALID_SLOT else ret SUCCESS.
Definition validate_mon_pmp_unload (p : Z) : K err_t :=
  let* mon_idx := arg p 0 in
  if negb (valid_idx mon_idx) then ret ERR_INVALID_INDEX else
  let* pid := arg p 1 in
  if negb (valid_pid pid) then ret ERR_INVALID_PID else
  let* idx := arg p 2 in
  if negb (valid_idx idx) then ret ERR_INVALID_INDEX else ret SUCCESS.

(** [sock]: the three validators have the same body. *)
Definition validate_sock (p : Z) : K err_t :=
  let* sock_idx := arg p 0 in
  if negb (valid_idx sock_idx) then ret ERR_INVALID_INDEX else
  let* cap_idx := arg p 1 in
  if negb (valid_idx cap_idx) then ret ERR_INVALID_INDEX else ret SUCCESS.
Definition validate_sock_send : Z -> K err_t := validate_sock.
Definition validate_sock_recv : Z -> K err_t := validate_sock.
Definition validate_sock_sendrecv : Z -> K err_t := validate_sock.

Definition validators : list (Z -> K err_t) :=
  [ validate_get_info; validate_reg_read; validate_reg_write; validate_sync;
    validate_sleep; validate_cap_read; validate_cap_move; validate_cap_delete;
    validate_cap_revoke; validate_cap_derive; validate_pmp_load; validate_pmp_unload;
    validate_mon_suspend; validate_mon_resume; validate_mon_state_get;
    validate_mon_yield; validate_mon_reg_read; validate_mon_reg_write;
    validate_mon_cap_read; validate_mon_cap_move; validate_mon_pmp_load;
    validate_mon_pmp_unload; validate_sock_send; validate_sock_recv;
    validate_sock_sendrecv ].

(** ** Handlers: the process to run next, [None] for [NULL] *)

Definition handle_get_info (p : Z) : K (option Z) :=
  let* info := arg p 0 in
  do* (if info =? 0 then let* pid := p_pid_of p in reg_set p REG_A0 pid
       else if info =? 1 then let* t := time_get in reg_set p REG_A0 t
       else if info =? 2 then
         let* hart := csrr_mhartid in
         let* t := timeout_get hart in reg_set p REG_A0 t
       else reg_set p REG_A0 0) in
  do* set_t0 p SUCCESS in
  ret (Some p).

Definition handle_reg_read (p : Z) : K (option Z) :=
  do* set_t0 p SUCCESS in
  let* reg := arg p 0 in
  let* v := reg_get p reg in
  do* reg_set p REG_A0 v in
  ret (Some p).

Definition handle_reg_write (p : Z) : K (option Z) :=
  do* set_t0 p SUCCESS in
  let* reg := arg p 0 in
  let* v := arg p 1 in
  do* reg_set p reg v in
  ret (Some p).

Definition handle_sync (p : Z) : K (option Z) :=
  let* full := arg p 0 in
  if negb (full =? 0) then
    do* proc_update p (set_timeout 0) in
    ret None
  else
    do* proc_pmp_sync p in
    ret (Some p).

Definition handle_sleep (p : Z) : K (option Z) :=
  do* set_t0 p SUCCESS in
  let* time := arg p 0 in
  do* (if negb (time =? 0) then proc_update p (set_timeout time) else ret tt) in
  ret None.

Definition handle_cap_read (p : Z) : K (option Z) :=
  let* idx := arg p 0 in
  let* c := own_cte p idx in
  let* r := cap_read c in
  do* reg_set p REG_A0 (snd r) in
  do* set_t0 p (fst r) in
  ret (Some p).

Definition handle_cap_move (p : Z) : K (option Z) :=
  let* src_idx := arg p 0 in
  let* src := own_cte p src_idx in
  let* dst_idx := arg p 1 in
  let* dst := own_cte p dst_idx in
  let* err := cap_move src dst in
  do* set_t0 p err in
  ret (Some p).

Definition handle_cap_delete (p : Z) : K (option Z) :=
  let* idx := arg p 0 in
  let* c := own_cte p idx in
  let* err := cap_delete c in
  do* set_t0 p err in
  ret (Some p).

Definition handle_cap_revoke (fuel : nat) (p : Z) : K (option Z) :=
  let* idx := arg p 0 in
  let* c := own_cte p idx in
  let* err := cap_revoke fuel c in
  do* set_t0 p err in
  let* t0 := reg_get p REG_T0 in
  ret (if t0 =? err_u64 ERR_PREEMPTED then None else Some p).

Definition handle_cap_derive (p : Z) : K (option Z) :=
  let* src_idx := arg p 0 in
  let* src := own_cte p src_idx in
  let* dst_idx := arg p 1 in
  let* dst := own_cte p dst_idx in
  let* cap_raw := arg p 2 in
  let* err := cap_derive src dst cap_raw in
  do* set_t0 p err in
  ret (Some p).

Definition handle_pmp_load (p : Z) : K (option Z) :=
  let* idx := arg p 0 in
  let* pmp := own_cte p idx in
  let* slot := arg p 1 in
  let* err := cap_pmp_load pmp slot in
  do* set_t0 p err in
  ret (Some p).

Definition handle_pmp_unload (p : Z) : K (option Z) :=
  let* idx := arg p 0 in
  let* pmp := own_cte p idx in
  let* err := cap_pmp_unload pmp in
  do* set_t0 p err in
  ret (Some p).

Definition handle_mon_suspend (p : Z) : K (option Z) :=
  let* mon_idx := arg p 0 in
  let* mon := own_cte p mon_idx in
  let* pid := arg p 1 in
  let* err := cap_monitor_suspend mon pid in
  do* set_t0 p err in
  ret (Some p).

Definition handle_mon_resume (p : Z) : K (option Z) :=
  let* mon_idx := arg p 0 in
  let* mon := own_cte p mon_idx in
  let* pid := arg p 1 in
  let* err := cap_monitor_resume mon pid in
  do* set_t0 p err in
  ret (Some p).

(** [*out = v] through a pointer to [p->regs[REG_A0]], when the callee stored. *)
Definition store_a0 (p : Z) (out : option Z) : K unit :=
  match out with
  | Some v => reg_set p REG_A0 v
  | None => ret tt
  end.

Definition handle_mon_state_get (p : Z) : K (option Z) :=
  let* mon_idx := arg p 0 in
  let* mon := own_cte p mon_idx in
  let* pid := arg p 1 in
  let* r := cap_monitor_state_get mon pid in
  do* store_a0 p (snd r) in
  do* set_t0 p (fst r) in
  ret (Some p).

Definition handle_mon_yield (p : Z) : K (option Z) :=
  let* mon_idx := arg p 0 in
  let* mon := own_cte p mon_idx in
  let* pid := arg p 1 in
  let* r := cap_monitor_yield mon pid p in
  do* set_t0 p (fst r) in
  ret (Some (snd r)).

Definition handle_mon_reg_read (p : Z) : K (option Z) :=
  let* mon_idx := arg p 0 in
  let* mon := own_cte p mon_idx in
  let* pid := arg p 1 in
  let* reg := arg p 2 in
  let* r := cap_monitor_reg_read mon pid reg in
  do* store_a0 p (snd r) in
  do* set_t0 p (fst r) in
  ret (Some p).

Definition handle_mon_reg_write (p : Z) : K (option Z) :=
  let* mon_idx := arg p 0 in
  let* mon := own_cte p mon_idx in
  let* pid := arg p 1 in
  let* reg := arg p 2 in
  let* val := arg p 3 in
  let* err := cap_monitor_reg_write mon pid reg val in
  do* set_t0 p err in
  ret (Some p).

Definition handle_mon_cap_read (p : Z) : K (option Z) :=
  let* mon_idx := arg p 0 in
  let* mon := own_cte p mon_idx in
  let* pid := arg p 1 in
  let* idx := arg p 2 in
  let* src := on_ct (ctable_get pid idx) in
  let* r := cap_monitor_cap_read mon src in
  do* store_a0 p (snd r) in
  do* set_t0 p (fst r) in
  ret (Some p).

Definition handle_mon_cap_move (p : Z) : K (option Z) :=
  let* mon_idx := arg p 0 in
  let* mon := own_cte p mon_idx in
  let* src_pid := arg p 1 in
  let* src_idx := arg p 2 in
  let* src := on_ct (ctable_get src_pid src_idx) in
  let* dst_pid := arg p 3 in
  let* dst_idx := arg p 4 in
  let* dst := on_ct (ctable_get dst_pid dst_idx) in
  let* err := cap_monitor_cap_move mon src dst in
  do* set_t0 p err in
  ret (Some p).

Definition handle_mon_pmp_load (p : Z) : K (option Z) :=
  let* mon_idx := arg p 0 in
  let* mon := own_cte p mon_idx in
  let* pid := arg p 1 in
  let* idx := arg p 2 in
  let* pmp := on_ct (ctable_get pid idx) in
  let* slot := arg p 3 in
  let* err := cap_monitor_pmp_load mon pmp slot in
  do* set_t0 p err in
  ret (Some p).

Definition handle_mon_pmp_unload (p : Z) : K (option Z) :=
  let* mon_idx := arg p 0 in
  let* mon := own_cte p mon_idx in
  let* pid := arg p 1 in
  let* idx := arg p 2 in
  let* pmp := on_ct (ctable_get pid idx) in
  let* err := cap_monitor_pmp_unload mon pmp in
  do* set_t0 p err in
  ret (Some p).

(** The message of [handle_sock_send] and [handle_sock_sendrecv]. *)
Definition sock_msg (p : Z) : K ipc_msg :=
  let* cap_idx := arg p 1 in
  let* cap_buf := own_cte p cap_idx in
  let* send_cap := arg p 2 in
  let* d0 := arg p 3 in
  let* d1 := arg p 4 in
  let* d2 := arg p 5 in
  let* d3 := arg p 6 in
  ret (IpcMsg cap_buf (negb (send_cap =? 0)) [d0; d1; d2; d3]).

Definition handle_sock_send (p : Z) : K (option Z) :=
  let* sock_idx := arg p 0 in
  let* sock := own_cte p sock_idx in
  let* msg := sock_msg p in
  let* r := cap_sock_send sock msg p in
  do* set_t0 p (fst r) in
  ret (snd r).

Definition handle_sock_recv (p : Z) : K (option Z) :=
  let* sock_idx := arg p 0 in
  let* sock := own_cte p sock_idx in
  let* cap_idx := arg p 1 in
  let* cap_buf := own_cte p cap_idx in
  let* r := cap_sock_recv sock cap_buf p in
  do* set_t0 p (fst r) in
  ret (snd r).

Definition handle_sock_sendrecv (p : Z) : K (option Z) :=
  let* sock_idx := arg p 0 in
  let* sock := own_cte p sock_idx in
  let* msg := sock_msg p in
  let* r := cap_sock_sendrecv sock msg p in
  do* set_t0 p (fst r) in
  ret (snd r).

Definition handlers (fuel : nat) : list (Z -> K (option Z)) :=
  [ handle_get_info; handle_reg_read; handle_reg_write; handle_sync; handle_sleep;
    handle_cap_read; handle_cap_move; handle_cap_delete; handle_cap_revoke fuel;
    handle_cap_derive; handle_pmp_load; handle_pmp_unload; handle_mon_suspend;
    handle_mon_resume; handle_mon_state_get; handle_mon_yield; handle_mon_reg_read;
    handle_mon_reg_write; handle_mon_cap_read; handle_mon_cap_move;
    handle_mon_pmp_load; handle_mon_pmp_unload; handle_sock_send; handle_sock_recv;
    handle_sock_sendrecv ].

(** ** Dispatch *)

(** [proc->regs[REG_PC] += 4] *)
Definition advance_pc (p : Z) : K unit :=
  let* pc := reg_get p REG_PC in reg_set p REG_PC (u64 (pc + 4)).

Definition run_handler (fuel : nat) (call p : Z) : K (option Z) :=
  let* h := array_get (handlers fuel) call in h p.

Definition syscall_handler (fuel : nat) (proc : Z) : K (option Z) :=
  let* call := reg_get proc REG_T0 in
  let* err := (if call <? zlen validators
               then let* v := array_get validators call in v proc
               else ret ERR_INVALID_SYSCALL) in
  if is_err err then
    do* advance_pc proc in
    do* set_t0 proc err in
    ret (Some proc)
  else
    let* preempt := kernel_preempt in
    if preempt : bool then ret None else
    if negb SMP || (call <? SYS_CAP_MOVE) then
      do* advance_pc proc in
      run_handler fuel call proc
    else
      let* locked := taslock_acquire fuel in
      if locked : bool then
        do* advance_pc proc in
        let* next := run_handler fuel call proc in
        do* lock_release in
        ret next
      else
        do* advance_pc proc in
        do* set_t0 proc ERR_PREEMPTED in
        ret None.
End Operations.
