(* ===== verification/Trap.v ===== *)
(** * Traps

    [kernel/src/trap.c], [kernel/src/exception.c], [kernel/src/interrupt.c] and
    the exit paths of [kernel/src/trap.S]: what the kernel does between a trap
    from a process and its return to user mode. *)

From S2P Require Import Prelude Config CapTypes CapTable KState Proc Sched Channel.
From S2P Require Import CapOps CapPmp CapIpc CapMonitor Syscall.

Definition ILLEGAL_INSTRUCTION : Z := 2.
Definition MRET : Z := 0x30200073.
Definition SRET : Z := 0x10200073.
Definition URET : Z := 0x00200073.

Definition copy_reg (p dst src : Z) : K unit :=
  let* v := reg_get p src in reg_set p dst v.

Definition exception_delegate (p mcause mtval : Z) : K Z :=
  do* reg_set p REG_ECAUSE mcause in
  do* reg_set p REG_EVAL mtval in
  do* copy_reg p REG_EPC REG_PC in
  do* copy_reg p REG_ESP REG_SP in
  do* copy_reg p REG_PC REG_TPC in
  do* copy_reg p REG_SP REG_TSP in
  ret p.

Definition exception_trap_return (p : Z) : K Z :=
  do* copy_reg p REG_PC REG_EPC in
  do* copy_reg p REG_SP REG_ESP in
  do* reg_set p REG_ECAUSE 0 in
  do* reg_set p REG_EVAL 0 in
  do* reg_set p REG_EPC 0 in
  do* reg_set p REG_ESP 0 in
  ret p.

Definition exception_handler (p mcause mtval : Z) : K Z :=
  if (mcause =? ILLEGAL_INSTRUCTION)
     && ((mtval =? MRET) || (mtval =? SRET) || (mtval =? URET))
  then exception_trap_return p else exception_delegate p mcause mtval.

(** How the kernel leaves: [trap_return(p)], which keeps the PMP registers of
    the hart, or returning [p] to [trap_resume], which loads those of [p]. *)
Inductive trap_exit :=
| TrapReturn (p : Z)
| TrapResume (p : Z).

Section Operations.
Context `{C : Config}.
(** Fuel of the revocation and lock loops, of the wait for a time slot, and
    of the scheduler's search. *)
Context (fuel wait search : nat).

Definition interrupt_handler (p mcause mtval : Z) : K Z :=
  do* proc_release p in
  sched wait search.

Definition trap_handler (p mcause mtval : Z) : K trap_exit :=
  if mcause =? 8 then
    let* next := syscall_handler fuel p in
    if bool_decide (next = Some p) then ret (TrapReturn p) else
    do* proc_release p in
    match next with
    | Some n => ret (TrapResume n)
    | None => let* n := sched wait search in ret (TrapResume n)
    end
  else if Z.testbit mcause 63 then
    let* n := interrupt_handler p mcause mtval in ret (TrapResume n)
  else
    let* n := exception_handler p mcause mtval in ret (TrapReturn n).

(** [trap_resume] and [trap_return] of [trap.S]: the process that runs. *)
Definition trap_leave (e : trap_exit) : K Z :=
  match e with
  | TrapReturn p => ret p
  | TrapResume p => do* proc_pmp_sync p in ret p
  end.
End Operations.
