(* ===== verification/KernelInit.v ===== *)
(** * Initialisation

    [kernel_init] of [kernel/src/kernel.c], [ctable_init], [sched_init] and
    [proc_init], from the zeroed [.bss], on the initial capabilities
    [INIT_CAPS] of the platform headers. *)

From S2P Require Import Prelude Config CapTypes CapTable KState Proc Sched Channel.
From S2P Require Import CapOps CapPmp.

Section Operations.
Context `{C : Config}.

Definition proc_bss : proc_t :=
  Proc 0 (replicate (Z.to_nat REG_CNT) 0) (replicate (Z.to_nat S3K_PMP_CNT) 0)
    (replicate (Z.to_nat S3K_PMP_CNT) 0) 0 0 0.

Definition kstate_bss (h : hw_t) : kstate :=
  KState ctable_bss (replicate (Z.to_nat S3K_PROC_CNT) proc_bss)
    (replicate (Z.to_nat S3K_CHAN_CNT) (Channel None None None))
    (replicate (Z.to_nat S3K_SLOT_CNT) 0) h.

(** [proc_init], with the address [payload] of the symbol [_payload]. *)
Definition proc_init (payload : Z) : K unit :=
  do* for_range 0 S3K_PROC_CNT (fun i =>
        do* proc_update i (set_pid (u16 i)) in
        proc_update i (set_state PSF_SUSPENDED)) in
  do* proc_update 0 (set_state 0) in
  do* reg_set 0 REG_PC payload in
  let* c := on_ct (ctable_get 0 0) in
  let* err := cap_pmp_load c 0 in
  kassert (bool_decide (err = SUCCESS)).

(** [kernel_init], without the console: [init_caps] evaluates [INIT_CAPS]. *)
Definition kernel_init (init_caps : M ctable_t (list cap_t)) (payload : Z) : K unit :=
  let* caps := on_ct init_caps in
  do* on_ct (ctable_init caps) in
  do* sched_init in
  proc_init payload.

(** [INIT_CAPS] of [plat/qemu_virt.h] and [plat/qemu_virt4.h]; entries the
    designated initialisers leave out are zero. *)
Definition init_caps_qemu_virt {St} : M St (list cap_t) :=
  let* c0 := cap_mk_pmp 0 0x2007ffff MEM_RWX in
  let* c1 := cap_mk_memory 0 0x80020000 0x88000000 MEM_RWX in
  let* c2 := cap_mk_memory 0 0x10000000 0x10001000 MEM_RW in
  let* c3 := cap_mk_memory 0 0x200b000 0x200c000 MEM_R in
  let* c4 := cap_mk_time 0 0 0 S3K_SLOT_CNT in
  let* c8 := cap_mk_monitor 0 0 S3K_PROC_CNT in
  let* c9 := cap_mk_channel 0 0 S3K_CHAN_CNT in
  ret [c0; c1; c2; c3; c4; 0; 0; 0; c8; c9].

Definition init_caps_qemu_virt4 {St} : M St (list cap_t) :=
  let* c0 := cap_mk_pmp 0 0x2007ffff MEM_RWX in
  let* c1 := cap_mk_memory 0 0x80020000 0x88000000 MEM_RWX in
  let* c2 := cap_mk_memory 0 0x10000000 0x10002000 MEM_RW in
  let* c3 := cap_mk_memory 0 0x200b000 0x200c000 MEM_R in
  let* c25 := cap_mk_memory 0 0x04000000 0x04010000 MEM_RW in
  let* c4 := cap_mk_time 0 0 0 S3K_SLOT_CNT in
  let* c5 := cap_mk_time 0 1 0 S3K_SLOT_CNT in
  let* c6 := cap_mk_time 0 2 0 S3K_SLOT_CNT in
  let* c7 := cap_mk_time 0 3 0 S3K_SLOT_CNT in
  let* c8 := cap_mk_monitor 0 0 S3K_PROC_CNT in
  let* c9 := cap_mk_channel 0 0 S3K_CHAN_CNT in
  ret ([c0; c1; c2; c3; c4; c5; c6; c7; c8; c9] ++ replicate 15 0 ++ [c25]).
End Operations.

(** Hardware at reset, for a given clock: no timer interrupt pending, the lock
    free. *)
Definition hw_reset (hart : Z) (clock : nat -> Z) : hw_t :=
  Hw clock (fun _ => 0) (fun _ => 0) 0%nat (replicate 4 U64_MAX) hart
     (replicate 8 0, replicate 8 0).

(** The state after [kernel_init] on the two QEMU platforms, with [_payload] as in
    [kernel/linker.ld]. *)
Definition boot_qemu_virt (clock : nat -> Z) : outcome kstate unit :=
  kernel_init (C := qemu_virt) (init_caps_qemu_virt (C := qemu_virt)) 0x80010000
    (kstate_bss (C := qemu_virt) (hw_reset 0 clock)).
Definition boot_qemu_virt4 (clock : nat -> Z) : outcome kstate unit :=
  kernel_init (C := qemu_virt4) (init_caps_qemu_virt4 (C := qemu_virt4)) 0x80010000
    (kstate_bss (C := qemu_virt4) (hw_reset 0 clock)).

Definition state_of {A} (o : outcome kstate A) (dflt : kstate) : kstate :=
  match o with Done _ s => s | Fault _ => dflt end.
