(* ===== verification/Invariant.v ===== *)
(** * The well-formedness invariant

    What every kernel operation relies on and keeps: the table links stay in
    the table, every capability in the table is well formed for its type, the
    process, channel and slot tables have their sizes, pointers point to
    elements of their tables.  The second half are the rules of the program
    logic for the table operations under this invariant. *)

From S2P Require Import Prelude Config CapTypes CapTable CapList KState Proc Sched.
From S2P Require Import Channel.

Section Definitions.
Context `{C : Config}.

Definition word_ok (c : Z) : bool := (0 <=? c) && (c <? 2 ^ 64).

(** A capability the table may hold. *)
Definition cap_wf (c : cap_t) : bool :=
  word_ok c &&
  (if c⟦cap_type⟧ =? CAPTY_NONE then c =? 0
   else if c⟦cap_type⟧ =? CAPTY_TIME then
     (S3K_MIN_HART <=? c⟦time_hart⟧) && (c⟦time_hart⟧ <=? S3K_MAX_HART)
     && (c⟦time_bgn⟧ <=? c⟦time_mrk⟧) && (c⟦time_mrk⟧ <=? c⟦time_end⟧)
     && (c⟦time_bgn⟧ <? c⟦time_end⟧) && (c⟦time_end⟧ <=? S3K_SLOT_CNT)
   else if c⟦cap_type⟧ =? CAPTY_MEMORY then c⟦mem_bgn⟧ <? c⟦mem_end⟧
   else if c⟦cap_type⟧ =? CAPTY_PMP then c⟦pmp_slot⟧ <? S3K_PMP_CNT
   else if c⟦cap_type⟧ =? CAPTY_MONITOR then c⟦mon_end⟧ <=? S3K_PROC_CNT
   else if c⟦cap_type⟧ =? CAPTY_CHANNEL then c⟦chan_end⟧ <=? S3K_CHAN_CNT
   else if c⟦cap_type⟧ =? CAPTY_SOCKET then
     (c⟦sock_chan⟧ <? S3K_CHAN_CNT)
     && ((c⟦sock_mode⟧ =? IPC_YIELD) || (c⟦sock_mode⟧ =? IPC_NOYIELD))
   else false).

Definition ct_wf (ct : ctable_t) : Prop :=
  table_ok ct /\ forall c, in_table c -> cap_wf (cap_at ct c) = true.

Definition proc_wf (i : Z) (x : proc_t) : Prop :=
  p_pid x = i /\ zlen (p_regs x) = REG_CNT /\
  zlen (p_pmpcfg x) = S3K_PMP_CNT /\ zlen (p_pmpaddr x) = S3K_PMP_CNT.

Definition procs_wf (ps : list proc_t) : Prop :=
  zlen ps = S3K_PROC_CNT /\ forall i x, lookupZ ps i = Some x -> proc_wf i x.

Definition valid_proc (p : Z) : Prop := 0 <= p < S3K_PROC_CNT.

(** A registered receiver comes with a capability buffer. *)
Definition chan_wf (ch : channel) : Prop :=
  (forall p, ch_server ch = Some p -> valid_proc p) /\
  (forall p, ch_client ch = Some p -> valid_proc p) /\
  (forall c, ch_cap_buf ch = Some c -> in_table c) /\
  (ch_cap_buf ch = None -> ch_server ch = None /\ ch_client ch = None).

Definition chans_wf (chs : list channel) : Prop :=
  zlen chs = S3K_CHAN_CNT /\ forall i ch, lookupZ chs i = Some ch -> chan_wf ch.

(** Every lane of the schedule names a process. *)
Definition lane_wf (w : Z) : Prop := valid_proc (Z.land (Z.shiftr w 8) 255).
Definition slots_wf (sl : list Z) : Prop :=
  zlen sl = S3K_SLOT_CNT /\
  forall h i, valid_hart h -> 0 <= i < S3K_SLOT_CNT -> lane_wf (slot_lane sl h i).

Definition hw_wf (h : hw_t) : Prop :=
  valid_hart (mhartid h) /\ mhartid h < zlen (mtimecmp h).

Record wf (s : kstate) : Prop := {
  wf_ct : ct_wf (ctable s);
  wf_procs : procs_wf (procs s);
  wf_chans : chans_wf (channels s);
  wf_slots : slots_wf (slots s);
  wf_hw : hw_wf (hw s)
}.
End Definitions.

(** ** Well-formed capabilities *)

Section CapFacts.
Context `{C : Config} {Cok : ConfigOk C}.

Lemma word_ok_fset f v c : field_ok f = true -> word_ok c = true -> word_ok (fset f v c) = true.
Proof.
  unfold word_ok. intros Hf Hc. breflect.
  pose proof (fset_range f v c Hf ltac:(lia)).
  rewrite andb_true_iff, Z.leb_le, Z.ltb_lt. lia.
Qed.

Lemma fget_bounds f c w : field_ok f = true -> f_wid f = w -> 0 <= fget f c < 2 ^ w.
Proof. intros Hf <-. by apply fget_range. Qed.

Lemma cap_wf_empty c : cap_wf c = true -> c⟦cap_type⟧ = 0 -> c = 0.
Proof.
  unfold cap_wf. intros H E. rewrite E in H. simpl in H. breflect. tauto.
Qed.

Lemma cap_wf_0 : cap_wf 0 = true.
Proof. reflexivity. Qed.

Lemma cap_wf_type c : cap_wf c = true -> c⟦cap_type⟧ <> 0 ->
  c⟦cap_type⟧ = CAPTY_TIME \/ c⟦cap_type⟧ = CAPTY_MEMORY \/ c⟦cap_type⟧ = CAPTY_PMP \/
  c⟦cap_type⟧ = CAPTY_MONITOR \/ c⟦cap_type⟧ = CAPTY_CHANNEL \/ c⟦cap_type⟧ = CAPTY_SOCKET.
Proof.
  unfold cap_wf. intros H Hne. apply andb_true_iff in H as [_ H]. revert H.
  repeat (case_match; breflect; [tauto|]). done.
Qed.

(** What well-formedness says for each type. *)
Lemma cap_wf_time c : cap_wf c = true -> c⟦cap_type⟧ = CAPTY_TIME ->
  valid_hart c⟦time_hart⟧ /\ c⟦time_bgn⟧ <= c⟦time_mrk⟧ <= c⟦time_end⟧ /\
  c⟦time_bgn⟧ < c⟦time_end⟧ <= S3K_SLOT_CNT.
Proof.
  unfold cap_wf, valid_hart. intros H E. rewrite E in H. simpl in H. breflect. lia.
Qed.
Lemma cap_wf_memory c : cap_wf c = true -> c⟦cap_type⟧ = CAPTY_MEMORY ->
  c⟦mem_bgn⟧ < c⟦mem_end⟧.
Proof. unfold cap_wf. intros H E. rewrite E in H. simpl in H. breflect. lia. Qed.
Lemma cap_wf_pmp c : cap_wf c = true -> c⟦cap_type⟧ = CAPTY_PMP ->
  0 <= c⟦pmp_slot⟧ < S3K_PMP_CNT.
Proof.
  unfold cap_wf. intros H E. rewrite E in H. simpl in H. breflect.
  pose proof (fget_range pmp_slot c eq_refl). lia.
Qed.
Lemma cap_wf_monitor c : cap_wf c = true -> c⟦cap_type⟧ = CAPTY_MONITOR ->
  c⟦mon_end⟧ <= S3K_PROC_CNT.
Proof. unfold cap_wf. intros H E. rewrite E in H. simpl in H. breflect. lia. Qed.
Lemma cap_wf_channel c : cap_wf c = true -> c⟦cap_type⟧ = CAPTY_CHANNEL ->
  c⟦chan_end⟧ <= S3K_CHAN_CNT.
Proof. unfold cap_wf. intros H E. rewrite E in H. simpl in H. breflect. lia. Qed.
Lemma cap_wf_socket c : cap_wf c = true -> c⟦cap_type⟧ = CAPTY_SOCKET ->
  0 <= c⟦sock_chan⟧ < S3K_CHAN_CNT /\
  (c⟦sock_mode⟧ = IPC_YIELD \/ c⟦sock_mode⟧ = IPC_NOYIELD).
Proof.
  unfold cap_wf. intros H E. rewrite E in H. simpl in H. breflect.
  pose proof (fget_range sock_chan c eq_refl). tauto || (split; [lia|tauto]).
Qed.

Lemma cap_wf_word c : cap_wf c = true -> word_ok c = true.
Proof. unfold cap_wf. intros H. breflect. tauto. Qed.
End CapFacts.

Section ChannelFacts.
Context `{C : Config}.

Lemma chan_wf_clear_server ch : chan_wf ch -> chan_wf (set_server None ch).
Proof.
  intros (H1 & H2 & H3 & H4). split; [done|]. split; [done|]. split; [done|].
  intros E. split; [done|by apply H4].
Qed.

Lemma chan_wf_clear_client ch : chan_wf ch -> chan_wf (set_client None ch).
Proof.
  intros (H1 & H2 & H3 & H4). split; [done|]. split; [done|]. split; [done|].
  intros E. split; [by apply H4|done].
Qed.
End ChannelFacts.

#[export] Hint Resolve chan_wf_clear_server chan_wf_clear_client : s3k.
#[export] Hint Resolve cap_wf_0 : s3k.

(** Well-formedness of a capability with updated fields. *)
Ltac solve_word_ok :=
  repeat (apply word_ok_fset; [reflexivity|]); first [assumption | apply cap_wf_word; assumption].
Ltac solve_cap_wf :=
  unfold cap_wf;
  lazymatch goal with
  | |- context [word_ok ?c] =>
      let H := fresh in assert (H : word_ok c = true) by solve_word_ok; rewrite H; clear H
  end;
  autorewrite with fields;
  repeat match goal with
  | E : _⟦cap_type⟧ = _ |- _ => rewrite E
  end; simpl;
  rewrite ?andb_true_iff, ?orb_true_iff, ?Z.leb_le, ?Z.ltb_lt, ?Z.eqb_eq.

(** ** Table operations under the invariant *)

Section TableRules.
Context `{C : Config} {Cok : ConfigOk C}.

Lemma ct_wf_cap ct c : ct_wf ct -> cap_wf (cap_at ct c) = true.
Proof.
  intros [[Hlen _] H]. destruct (decide (in_table c)) as [Hc|Hc]; [by apply H|].
  unfold cap_at. destruct (lookupZ ct c) eqn:E; [|apply cap_wf_0].
  apply lookupZ_Some_range in E. unfold in_table in Hc. lia.
Qed.

Lemma ct_wf_caps ct cp :
  table_ok ct -> caps_are ct cp -> (forall c, in_table c -> cap_wf (cp c) = true) -> ct_wf ct.
Proof. intros Hok Hcp H. split; [done|]. intros c Hc. rewrite Hcp by done. auto. Qed.

Lemma cap_wf_fupd cp a k c :
  (forall c, cap_wf (cp c) = true) -> cap_wf k = true -> cap_wf (fupd cp a k c) = true.
Proof. intros H Hk. unfold fupd. by destruct (c =? a). Qed.

Section Rules.
Context (ct : ctable_t) (Hct : ct_wf ct).

Lemma wf_cte_insert c k p Q :
  in_table c -> in_table p -> c <> p -> cap_wf k = true ->
  (forall ct', ct_wf ct' -> caps_are ct' (fupd (cap_at ct) c k) -> Q tt ct') ->
  wp (cte_insert c k p) Q ct.
Proof.
  intros Hc Hp Hne Hk HQ. pose proof Hct as [Hok _].
  pose proof (table_ok_tbl _ Hok) as Ht. destruct Hok as [_ Hlk].
  eapply wp_cte_insert; [done..|]. intros ct' Ht'. destruct (Hlk p Hp).
  apply HQ; [|by eapply tbl_caps]. eapply ct_wf_caps; [|by eapply tbl_caps|].
  - eapply tbl_table_ok; [done|]. repeat apply links_fupd; auto.
  - intros x _. apply cap_wf_fupd; [|done]. intros y. by apply ct_wf_cap.
Qed.

Lemma wf_cte_delete c Q :
  in_table c ->
  (forall ct', ct_wf ct' -> caps_are ct' (fupd (cap_at ct) c 0) -> Q (cap_at ct c) ct') ->
  wp (cte_delete c) Q ct.
Proof.
  intros Hc HQ. pose proof Hct as [Hok _].
  pose proof (table_ok_tbl _ Hok) as Ht. destruct Hok as [_ Hlk].
  eapply wp_cte_delete; [done..|]. intros ct' Ht'. destruct (Hlk c Hc).
  apply HQ; [|by eapply tbl_caps]. eapply ct_wf_caps; [|by eapply tbl_caps|].
  - eapply tbl_table_ok; [done|]. repeat apply links_fupd; auto.
  - intros x _. apply cap_wf_fupd; [|apply cap_wf_0]. intros y. by apply ct_wf_cap.
Qed.

Lemma wf_cte_move src dst Q :
  in_table src -> in_table dst -> src <> dst ->
  (forall ct', ct_wf ct' ->
     caps_are ct' (fupd (fupd (cap_at ct) dst (cap_at ct src)) src 0) -> Q tt ct') ->
  wp (cte_move src dst) Q ct.
Proof.
  intros Hs Hd Hne HQ. pose proof Hct as [Hok _].
  pose proof (table_ok_tbl _ Hok) as Ht. destruct Hok as [_ Hlk].
  eapply wp_cte_move; [done..|]. intros ct' Ht'. destruct (Hlk src Hs).
  apply HQ; [|by eapply tbl_caps]. eapply ct_wf_caps; [|by eapply tbl_caps|].
  - eapply tbl_table_ok; [done|]. repeat apply links_fupd; auto.
  - intros x _. apply cap_wf_fupd; [|apply cap_wf_0]. intros y.
    apply cap_wf_fupd; [intros z|]; by apply ct_wf_cap.
Qed.

Lemma wf_cte_set_cap c k Q :
  in_table c -> cap_wf k = true ->
  (forall ct', ct_wf ct' -> caps_are ct' (fupd (cap_at ct) c k) -> Q tt ct') ->
  wp (cte_set_cap c k) Q ct.
Proof.
  intros Hc Hk HQ. pose proof Hct as [Hok _].
  pose proof (table_ok_tbl _ Hok) as Ht. destruct Hok as [_ Hlk].
  eapply wp_cte_set_cap; [done..|]. intros ct' Ht'.
  apply HQ; [|by eapply tbl_caps]. eapply ct_wf_caps; [|by eapply tbl_caps|].
  - by eapply tbl_table_ok.
  - intros x _. apply cap_wf_fupd; [|done]. intros y. by apply ct_wf_cap.
Qed.

Lemma wf_cte_cap c Q : in_table c -> Q (cap_at ct c) ct -> wp (cte_cap c) Q ct.
Proof.
  intros Hc HQ. pose proof Hct as [Hok _]. eapply wp_cte_cap; [by apply table_ok_tbl|done..].
Qed.
Lemma wf_cte_is_empty c Q :
  in_table c -> Q ((cap_at ct c)⟦cap_type⟧ =? 0) ct -> wp (cte_is_empty c) Q ct.
Proof.
  intros Hc HQ. pose proof Hct as [Hok _].
  eapply wp_cte_is_empty; [by apply table_ok_tbl|done..].
Qed.
Lemma wf_cte_next c Q :
  in_table c -> (in_table (next_at ct c) -> Q (next_at ct c) ct) -> wp (cte_next c) Q ct.
Proof.
  intros Hc HQ. pose proof Hct as [Hok _].
  eapply wp_cte_next; [by apply table_ok_tbl|done|]. apply HQ. by apply Hok.
Qed.
End Rules.

Lemma cte_pid_range c : in_table c -> valid_proc (cte_pid c).
Proof.
  intros Hc. unfold cte_pid, valid_proc. rewrite offset_in_table by done.
  unfold in_table, CTABLE_LEN in Hc. config_bounds. split.
  - apply Z.div_pos; lia.
  - apply Z.div_lt_upper_bound; lia.
Qed.

Lemma ctable_entry pid idx : 0 <= pid < S3K_PROC_CNT -> 0 <= idx < S3K_CAP_CNT ->
  in_table (pid * S3K_CAP_CNT + idx).
Proof. unfold in_table, CTABLE_LEN. intros. nia. Qed.
End TableRules.
