(* ===== verification/View.v ===== *)
(** * The kernel state as a view

    A view is the kernel state with its arrays as functions and, when the links
    of the table form one ring, the derivation order of its entries.  [sees s v]
    says the state [s] is well formed and shows [v].  The lemmas are the rules of
    the program logic for the primitive operations of the kernel: each runs
    without a fault from a state that shows [v], and the state it leaves shows
    an explicit update of [v]. *)

From S2P Require Import Prelude Config CapTypes CapTable CapList KState Proc Sched.
From S2P Require Import Channel Invariant.

Record view := View {
  v_cap : cte_t -> cap_t;
  v_list : option (list cte_t);
  v_lane : Z -> Z -> Z;          (** hart and slot to lane *)
  v_proc : Z -> proc_t;
  v_chan : Z -> channel;
  v_hw : hw_t
}.

Definition v_set_table (cp : cte_t -> cap_t) (l : option (list cte_t)) (v : view) : view :=
  View cp l (v_lane v) (v_proc v) (v_chan v) (v_hw v).
Definition v_set_lane (ln : Z -> Z -> Z) (v : view) : view :=
  View (v_cap v) (v_list v) ln (v_proc v) (v_chan v) (v_hw v).
Definition v_set_proc (p : Z) (x : proc_t) (v : view) : view :=
  View (v_cap v) (v_list v) (v_lane v) (fupd (v_proc v) p x) (v_chan v) (v_hw v).
Definition v_set_chan (i : Z) (ch : channel) (v : view) : view :=
  View (v_cap v) (v_list v) (v_lane v) (v_proc v) (fupd (v_chan v) i ch) (v_hw v).
Definition v_set_hw (h : hw_t) (v : view) : view :=
  View (v_cap v) (v_list v) (v_lane v) (v_proc v) (v_chan v) h.

(** ** The table operations on a view *)

Definition empty (c : cap_t) : bool := c⟦cap_type⟧ =? 0.

Definition v_insert (c : cte_t) (k : cap_t) (p : cte_t) (v : view) : view :=
  v_set_table (fupd (v_cap v) c k) (l_insert c p <$> v_list v) v.

Definition v_remove (c : cte_t) (v : view) : view :=
  v_set_table (fupd (v_cap v) c 0) (l_remove c <$> v_list v) v.

(** Moving the only capability breaks the ring. *)
Definition v_replace (src dst : cte_t) (v : view) : view :=
  v_set_table (fupd (fupd (v_cap v) dst (v_cap v src)) src 0)
    (match v_list v with
     | Some l => if (1 <? length l)%nat then Some (l_replace src dst l) else None
     | None => None
     end) v.

(** A store to an empty entry makes an entry outside the ring. *)
Definition v_store (c : cte_t) (k : cap_t) (v : view) : view :=
  v_set_table (fupd (v_cap v) c k)
    (if empty (v_cap v c) || empty k then None else v_list v) v.

Section Schedule.
Context `{C : Config}.

Definition v_sched_update (pid end_ hart from to : Z) (v : view) : view :=
  v_set_lane (fun h i => if (h =? hart) && (from <=? i) && (i <? to)
                         then slot_word pid (end_ - i) else v_lane v h i) v.

Definition v_sched_delete (hart from to : Z) (v : view) : view :=
  v_set_lane (fun h i => if (h =? hart) && (from <=? i) && (i <? to)
                         then 0 else v_lane v h i) v.

Definition sees (s : kstate) (v : view) : Prop :=
  wf s /\
  (caps_are (ctable s) (v_cap v) /\
   forall l, v_list v = Some l -> represents (ctable s) l (v_cap v)) /\
  (forall h i, valid_hart h -> 0 <= i < S3K_SLOT_CNT -> slot_lane (slots s) h i = v_lane v h i) /\
  (forall p, valid_proc p -> lookupZ (procs s) p = Some (v_proc v p)) /\
  (forall i, 0 <= i < S3K_CHAN_CNT -> lookupZ (channels s) i = Some (v_chan v i)) /\
  hw s = v_hw v.

(** Views that agree on the entries, harts, slots, processes and channels there
    are. *)
#[global] Instance view_equiv : Equiv view := fun v v' =>
  (forall c, in_table c -> v_cap v c = v_cap v' c) /\
  v_list v = v_list v' /\
  (forall h i, valid_hart h -> 0 <= i < S3K_SLOT_CNT -> v_lane v h i = v_lane v' h i) /\
  (forall p, valid_proc p -> v_proc v p = v_proc v' p) /\
  (forall i, 0 <= i < S3K_CHAN_CNT -> v_chan v i = v_chan v' i) /\
  v_hw v = v_hw v'.

(** The view of a state. *)
Definition view_of (s : kstate) (l : option (list cte_t)) : view :=
  View (cap_at (ctable s)) l (slot_lane (slots s))
    (fun p => default (Proc 0 [] [] [] 0 0 0) (lookupZ (procs s) p))
    (fun i => default (Channel None None None) (lookupZ (channels s) i)) (hw s).
End Schedule.

Section Rules.
Context `{C : Config} {Cok : ConfigOk C}.

#[global] Instance view_equivalence : Equivalence (≡@{view}).
Proof.
  split.
  - done.
  - intros v v' (H1 & H2 & H3 & H4 & H5 & H6). do 5 (split; [intros; symmetry; auto|]). auto.
  - intros v1 v2 v3 (H1 & H2 & H3 & H4 & H5 & H6) (G1 & G2 & G3 & G4 & G5 & G6).
    split; [intros; rewrite H1, G1 by done; done|]. split; [congruence|].
    split; [intros; rewrite H3, G3 by done; done|].
    split; [intros; rewrite H4, G4 by done; done|].
    split; [intros; rewrite H5, G5 by done; done|]. congruence.
Qed.

#[global] Instance sees_proper s : Proper ((≡) ==> iff) (sees s).
Proof.
  assert (forall v v', v ≡ v' -> sees s v -> sees s v') as H; [|intros v v' E; split; by apply H].
  intros v v' (E1 & E2 & E3 & E4 & E5 & E6) (H1 & [H2 H2'] & H3 & H4 & H5 & H6).
  assert (caps_are (ctable s) (v_cap v')) by (intros c Hc; by rewrite H2, E1).
  split; [done|]. split; [split; [done|]|split; [|split; [|split]]].
  - rewrite <- E2. intros l El. destruct (H2' l El) as (? & ? & _). done.
  - intros. by rewrite H3, E3.
  - intros. by rewrite H4, E4.
  - intros. by rewrite H5, E5.
  - congruence.
Qed.

#[global] Instance v_insert_proper c k p : Proper ((≡) ==> (≡)) (v_insert c k p).
Proof.
  intros v v' (E1 & E2 & E3 & E4 & E5 & E6). split; [|split; [|done]]; cbn.
  - intros x Hx. unfold fupd. case_match; [done|by apply E1].
  - by rewrite E2.
Qed.

Lemma set_ctable_id s : set_ctable (ctable s) s = s.
Proof. by destruct s. Qed.

Lemma sees_view_of s l :
  wf s -> (forall l', l = Some l' -> cap_list (ctable s) l') -> sees s (view_of s l).
Proof.
  intros Hwf Hl. split; [done|]. destruct Hwf as [[Hok Hct] [Hps _] [Hch _] Hsl Hhw].
  split; [split; [done|]|split; [done|split; [|split; [|done]]]].
  - intros l' E. split; [done|]. split; [by apply Hl|done].
  - intros p Hp. cbn. unfold valid_proc in Hp.
    by destruct (lookupZ_lt (procs s) p) as [x ->]; [lia|].
  - intros i Hi. cbn. by destruct (lookupZ_lt (channels s) i) as [x ->]; [lia|].
Qed.

Section State.
Context (s : kstate) (v : view) (Hs : sees s v).

Lemma sees_wf : wf s.
Proof. apply Hs. Qed.
Lemma sees_cap c : in_table c -> cap_at (ctable s) c = v_cap v c.
Proof. destruct Hs as (_ & [H _] & _). apply H. Qed.
Lemma sees_cap_wf c : in_table c -> cap_wf (v_cap v c) = true.
Proof. intros Hc. rewrite <- sees_cap by done. apply ct_wf_cap, sees_wf. Qed.
Lemma sees_proc p : valid_proc p -> lookupZ (procs s) p = Some (v_proc v p).
Proof. destruct Hs as (_ & _ & _ & H & _). apply H. Qed.
Lemma sees_proc_wf p : valid_proc p -> proc_wf p (v_proc v p).
Proof. intros Hp. apply (wf_procs _ sees_wf). by apply sees_proc. Qed.
Lemma sees_chan i : 0 <= i < S3K_CHAN_CNT -> lookupZ (channels s) i = Some (v_chan v i).
Proof. destruct Hs as (_ & _ & _ & _ & H & _). apply H. Qed.
Lemma sees_chan_wf i : 0 <= i < S3K_CHAN_CNT -> chan_wf (v_chan v i).
Proof. intros Hi. destruct (wf_chans _ sees_wf) as [_ H]. apply (H i). by apply sees_chan. Qed.
Lemma sees_hw : hw s = v_hw v.
Proof. apply Hs. Qed.
Lemma sees_lane h i :
  valid_hart h -> 0 <= i < S3K_SLOT_CNT -> slot_lane (slots s) h i = v_lane v h i.
Proof. destruct Hs as (_ & _ & H & _). apply H. Qed.
Lemma sees_occupied l c : v_list v = Some l -> c ∈ l <-> occupied (v_cap v) c.
Proof. destruct Hs as (_ & [_ H] & _). intros E. by eapply represents_occupied, H. Qed.

(** ** The capability table *)

Lemma sees_table ct cp l :
  ct_wf ct -> caps_are ct cp -> (forall l', l = Some l' -> represents ct l' cp) ->
  sees (set_ctable ct s) (v_set_table cp l v).
Proof.
  intros H1 H2 H3. destruct Hs as ([? ? ? ? ?] & _ & ? & ? & ? & ?).
  split; [by split|]. by repeat (split; [done|]).
Qed.

Lemma caps_are_sees ct' c k :
  caps_are ct' (fupd (cap_at (ctable s)) c k) -> caps_are ct' (fupd (v_cap v) c k).
Proof. eapply caps_are_fupd. apply Hs. Qed.

Lemma see_cte_cap c Q :
  in_table c -> (cap_wf (v_cap v c) = true -> Q (v_cap v c) s) ->
  wp (on_ct (cte_cap c)) Q s.
Proof.
  intros Hc HQ. apply wp_zoom. apply wf_cte_cap; [apply sees_wf|done|].
  cbn [l_get l_set l_ctable]. rewrite set_ctable_id, sees_cap by done.
  by apply HQ, sees_cap_wf.
Qed.

Lemma see_cte_is_empty c Q :
  in_table c -> (cap_wf (v_cap v c) = true -> Q (empty (v_cap v c)) s) ->
  wp (on_ct (cte_is_empty c)) Q s.
Proof.
  intros Hc HQ. apply wp_zoom. apply wf_cte_is_empty; [apply sees_wf|done|].
  cbn [l_get l_set l_ctable]. rewrite set_ctable_id, sees_cap by done.
  by apply HQ, sees_cap_wf.
Qed.

Lemma see_cte_next c Q :
  in_table c ->
  (forall n, in_table n -> (forall l, v_list v = Some l -> c ∈ l -> n = l_next c l) -> Q n s) ->
  wp (on_ct (cte_next c)) Q s.
Proof.
  intros Hc HQ. apply wp_zoom. apply wf_cte_next; [apply sees_wf|done|]. intros Hn.
  cbn [l_get l_set l_ctable]. rewrite set_ctable_id.
  apply HQ; [done|]. intros l El Hl. destruct Hs as (_ & [_ H] & _).
  eapply represents_next; [by apply H|done].
Qed.

(** An operation on the table, from its rules on capabilities and lists. *)
Lemma see_table {A} (m : M ctable_t A) a cp l Q :
  wp m (fun r ct => r = a /\ ct_wf ct /\ caps_are ct cp) (ctable s) ->
  (forall l', l = Some l' -> wp m (fun _ ct => represents ct l' cp) (ctable s)) ->
  (forall s', sees s' (v_set_table cp l v) -> Q a s') ->
  wp (on_ct m) Q s.
Proof.
  intros Hm Hl HQ. apply wp_zoom. cbn [l_get l_ctable].
  destruct (wp_inv _ _ _ Hm) as (r & ct' & E & -> & H1 & H2).
  eapply wp_Done; [done|]. apply HQ, sees_table; [done..|]. intros l' El.
  destruct (wp_inv _ _ _ (Hl l' El)) as (r & ct2 & E2 & H). congruence.
Qed.

Lemma see_cte_insert c k p Q :
  in_table c -> in_table p -> empty (v_cap v c) = true -> empty (v_cap v p) = false ->
  cap_wf k = true -> empty k = false ->
  (forall s', sees s' (v_insert c k p v) -> Q tt s') ->
  wp (on_ct (cte_insert c k p)) Q s.
Proof.
  intros Hc Hp Ec Ep Hk Ek HQ. unfold empty in *. breflect.
  assert (c <> p) by congruence. eapply see_table; [| |exact HQ].
  - apply wf_cte_insert; [apply sees_wf|done..|]. eauto using caps_are_sees.
  - intros l' El. destruct (v_list v) as [l|] eqn:E; [|done]. injection El as <-.
    pose proof (sees_occupied l c E) as Oc. pose proof (sees_occupied l p E) as Op.
    eapply wp_insert; [by apply Hs| |done| |done|done].
    + by apply Op.
    + rewrite Oc. by intros [_ ?].
Qed.

Lemma see_cte_delete c Q :
  in_table c -> empty (v_cap v c) = false ->
  (forall s', sees s' (v_remove c v) -> Q (v_cap v c) s') ->
  wp (on_ct (cte_delete c)) Q s.
Proof.
  intros Hc Ec HQ. unfold empty in *. breflect. eapply see_table; [| |exact HQ].
  - apply wf_cte_delete; [apply sees_wf|done|]. rewrite sees_cap by done.
    eauto using caps_are_sees.
  - intros l' El. destruct (v_list v) as [l|] eqn:E; [|done]. injection El as <-.
    eapply wp_delete; [by apply Hs| |done]. by apply (sees_occupied l).
Qed.

Lemma see_cte_move src dst Q :
  in_table src -> in_table dst -> empty (v_cap v src) = false -> empty (v_cap v dst) = true ->
  (forall s', sees s' (v_replace src dst v) -> Q tt s') ->
  wp (on_ct (cte_move src dst)) Q s.
Proof.
  intros Hsrc Hd Es Ed HQ. unfold empty in *. breflect.
  assert (src <> dst) by congruence. eapply see_table; [| |exact HQ].
  - apply wf_cte_move; [apply sees_wf|done..|]. intros ct' H1 H2. split; [done|].
    split; [done|]. intros x Hx. rewrite H2 by done. unfold fupd.
    repeat case_match; rewrite ?sees_cap; done.
  - intros l' El. destruct (v_list v) as [l|] eqn:E; [|done].
    destruct (Nat.ltb_spec 1 (length l)); [|done]. injection El as <-.
    pose proof (sees_occupied l dst E) as Od.
    eapply wp_move; [by apply Hs| |done| |done|done].
    + by apply (sees_occupied l).
    + rewrite Od. by intros [_ ?].
Qed.

Lemma see_cte_set_cap c k Q :
  in_table c -> cap_wf k = true ->
  (forall s', sees s' (v_store c k v) -> Q tt s') ->
  wp (on_ct (cte_set_cap c k)) Q s.
Proof.
  intros Hc Hk HQ. eapply see_table; [| |exact HQ].
  - apply wf_cte_set_cap; [apply sees_wf|done..|]. eauto using caps_are_sees.
  - intros l' El. destruct (empty (v_cap v c)) eqn:Ec, (empty k) eqn:Ek; try done.
    unfold empty in *. breflect. assert (Hr : represents (ctable s) l' (v_cap v)) by by apply Hs.
    pose proof Hr as (H1 & H2 & H3).
    eapply wp_set_cap_list; [done|done|by eapply represents_occupied|done|].
    intros ct' ? ? ?. split; [done|]. split; [done|]. by apply caps_are_sees.
Qed.

(** ** The schedule *)

Lemma sees_slots sl ln :
  slots_wf sl ->
  (forall h i, valid_hart h -> 0 <= i < S3K_SLOT_CNT -> slot_lane sl h i = ln h i) ->
  sees (set_slots sl s) (v_set_lane ln v).
Proof.
  intros H1 H2. destruct Hs as ([? ? ? ? ?] & ? & ? & ? & ? & ?).
  split; [by split|]. by repeat (split; [done|]).
Qed.

Lemma see_sched_update pid end_ hart from to Q :
  valid_hart hart -> valid_proc pid -> 0 <= from -> to <= end_ -> end_ <= S3K_SLOT_CNT ->
  (forall s', sees s' (v_sched_update pid end_ hart from to v) -> Q tt s') ->
  wp (sched_update pid end_ hart from to) Q s.
Proof.
  intros Hh Hp Hf Ht He HQ. pose proof (wf_slots _ sees_wf) as [Hlen Hsl].
  unfold valid_proc in *. config_bounds.
  apply wp_zoom. cbn [l_get l_slots]. apply wp_slots_update; [done|lia..|].
  intros sl' Hlen' Hl. apply HQ, sees_slots.
  - split; [lia|]. intros h i Hvh Hi. rewrite Hl by (done || lia).
    case_match eqn:E; [|by apply Hsl]. breflect. unfold lane_wf, valid_proc.
    rewrite slot_word_pid by lia. done.
  - intros h i Hvh Hi. rewrite Hl, sees_lane by (done || lia). done.
Qed.

Lemma see_sched_delete hart from to Q :
  valid_hart hart -> 0 <= from -> to <= S3K_SLOT_CNT ->
  (forall s', sees s' (v_sched_delete hart from to v) -> Q tt s') ->
  wp (sched_delete hart from to) Q s.
Proof.
  intros Hh Hf Ht HQ. pose proof (wf_slots _ sees_wf) as [Hlen Hsl].
  apply wp_zoom. cbn [l_get l_slots]. apply wp_slots_delete; [done|lia..|].
  intros sl' Hlen' Hl. apply HQ, sees_slots.
  - split; [lia|]. intros h i Hvh Hi. rewrite Hl by (done || lia).
    case_match; [|by apply Hsl]. unfold lane_wf, valid_proc. config_bounds.
    rewrite Z.shiftr_0_l, Z.land_0_l. lia.
  - intros h i Hvh Hi. rewrite Hl, sees_lane by (done || lia). done.
Qed.

(** ** Processes *)

Lemma sees_procs p x :
  valid_proc p -> proc_wf p x ->
  sees (set_procs (insertZ p x (procs s)) s) (v_set_proc p x v).
Proof.
  intros Hp Hx. destruct Hs as ([? [Hlen Hps] ? ? ?] & ? & ? & H & ? & ?).
  unfold valid_proc in *.
  assert (Hl : forall q, lookupZ (insertZ p x (procs s)) q =
               if q =? p then Some x else lookupZ (procs s) q).
  { intros q. apply lookupZ_insertZ. lia. }
  split; [|split; [done|split; [done|split; [|done]]]].
  - split; [done| |done|done|done]. cbn. split; [by rewrite zlen_insertZ|].
    intros i y. rewrite Hl. destruct (Z.eqb_spec i p) as [->|]; [congruence|apply Hps].
  - intros q Hq. cbn. rewrite Hl. unfold fupd. case_match; [done|by apply H].
Qed.

Lemma see_proc_load p Q :
  valid_proc p -> (proc_wf p (v_proc v p) -> Q (v_proc v p) s) -> wp (proc_load p) Q s.
Proof.
  intros Hp HQ. unfold wp, proc_load, array_get. rewrite sees_proc by done.
  by apply HQ, sees_proc_wf.
Qed.

Lemma see_proc_store p x Q :
  valid_proc p -> proc_wf p x ->
  (forall s', sees s' (v_set_proc p x v) -> Q tt s') -> wp (proc_store p x) Q s.
Proof.
  intros Hp Hx HQ. apply wp_bind, see_proc_load; [done|]. intros _.
  by apply wp_modify, HQ, sees_procs.
Qed.

Lemma see_proc_update p f Q :
  valid_proc p -> (proc_wf p (v_proc v p) -> proc_wf p (f (v_proc v p))) ->
  (forall s', sees s' (v_set_proc p (f (v_proc v p)) v) -> Q tt s') ->
  wp (proc_update p f) Q s.
Proof.
  intros Hp Hf HQ. apply wp_bind, see_proc_load; [done|]. intros Hw.
  apply see_proc_store; [done|by apply Hf|done].
Qed.

Lemma see_proc_get pid Q : valid_proc pid -> Q pid s -> wp (proc_get pid) Q s.
Proof.
  intros Hp HQ. pose proof Hp as Hp'. unfold valid_proc in Hp'. config_bounds.
  unfold proc_get. replace (u16 pid) with pid by (unfold u16; rewrite Z.mod_small; lia).
  apply wp_bind, wp_kassert; [apply Z.ltb_lt; lia|]. apply wp_bind, see_proc_load; [done|].
  intros (Hpid & _). apply wp_bind, wp_kassert; [by apply Z.eqb_eq|]. done.
Qed.

Lemma see_reg_get p r Q :
  valid_proc p -> 0 <= r < REG_CNT ->
  (forall x, lookupZ (p_regs (v_proc v p)) r = Some x -> Q x s) -> wp (reg_get p r) Q s.
Proof.
  intros Hp Hr HQ. apply wp_bind, see_proc_load; [done|]. intros (_ & Hl & _).
  destruct (lookupZ_lt (p_regs (v_proc v p)) r) as [x Hx]; [lia|].
  eapply wp_array_get; [done|]. by apply HQ.
Qed.

Lemma see_reg_set p r x Q :
  valid_proc p -> 0 <= r < REG_CNT ->
  (forall s', sees s' (v_set_proc p (set_regs (insertZ r x (p_regs (v_proc v p)))
                                      (v_proc v p)) v) -> Q tt s') ->
  wp (reg_set p r x) Q s.
Proof.
  intros Hp Hr HQ. apply wp_bind, see_proc_load; [done|]. intros (H1 & H2 & H3).
  destruct (lookupZ_lt (p_regs (v_proc v p)) r) as [y Hy]; [lia|].
  apply wp_bind. eapply wp_array_get; [done|]. apply see_proc_store; [done| |done].
  split; [done|]. split; [|done]. cbn. by rewrite zlen_insertZ.
Qed.

Lemma see_pmpcfg_set p slot x Q :
  valid_proc p -> 0 <= slot < S3K_PMP_CNT ->
  (forall s', sees s' (v_set_proc p (set_pmpcfg (insertZ slot x (p_pmpcfg (v_proc v p)))
                                      (v_proc v p)) v) -> Q tt s') ->
  wp (pmpcfg_set p slot x) Q s.
Proof.
  intros Hp Hr HQ. apply wp_bind, see_proc_load; [done|]. intros (H1 & H2 & H3 & H4).
  destruct (lookupZ_lt (p_pmpcfg (v_proc v p)) slot) as [y Hy]; [lia|].
  apply wp_bind. eapply wp_array_get; [done|]. apply see_proc_store; [done| |done].
  repeat split; cbn; rewrite ?zlen_insertZ; done.
Qed.

Lemma see_pmpaddr_set p slot x Q :
  valid_proc p -> 0 <= slot < S3K_PMP_CNT ->
  (forall s', sees s' (v_set_proc p (set_pmpaddr (insertZ slot x (p_pmpaddr (v_proc v p)))
                                      (v_proc v p)) v) -> Q tt s') ->
  wp (pmpaddr_set p slot x) Q s.
Proof.
  intros Hp Hr HQ. apply wp_bind, see_proc_load; [done|]. intros (H1 & H2 & H3 & H4).
  destruct (lookupZ_lt (p_pmpaddr (v_proc v p)) slot) as [y Hy]; [lia|].
  apply wp_bind. eapply wp_array_get; [done|]. apply see_proc_store; [done| |done].
  repeat split; cbn; rewrite ?zlen_insertZ; done.
Qed.

Lemma see_proc_pmp_avail p slot Q :
  valid_proc p -> 0 <= slot < S3K_PMP_CNT ->
  (forall x, lookupZ (p_pmpcfg (v_proc v p)) slot = Some x -> Q (x =? 0) s) ->
  wp (proc_pmp_avail p slot) Q s.
Proof.
  intros Hp Hr HQ. apply wp_bind, see_proc_load; [done|]. intros (H1 & H2 & H3 & H4).
  destruct (lookupZ_lt (p_pmpcfg (v_proc v p)) slot) as [y Hy]; [lia|].
  apply wp_bind. eapply wp_array_get; [done|]. by apply HQ.
Qed.

(** ** Channels *)

Lemma sees_channels i ch :
  0 <= i < S3K_CHAN_CNT -> chan_wf ch ->
  sees (set_channels (insertZ i ch (channels s)) s) (v_set_chan i ch v).
Proof.
  intros Hi Hx. destruct Hs as ([? ? [Hlen Hch] ? ?] & ? & ? & ? & H & ?).
  assert (Hl : forall q, lookupZ (insertZ i ch (channels s)) q =
               if q =? i then Some ch else lookupZ (channels s) q).
  { intros q. apply lookupZ_insertZ. lia. }
  split; [|split; [done|split; [done|split; [done|split; [|done]]]]].
  - split; [done|done| |done|done]. cbn. split; [by rewrite zlen_insertZ|].
    intros j y. rewrite Hl. destruct (Z.eqb_spec j i) as [->|]; [congruence|apply Hch].
  - intros q Hq. cbn. rewrite Hl. unfold fupd. case_match; [done|by apply H].
Qed.

Lemma see_chan_load i Q :
  0 <= i < S3K_CHAN_CNT -> (chan_wf (v_chan v i) -> Q (v_chan v i) s) ->
  wp (chan_load i) Q s.
Proof.
  intros Hi HQ. unfold wp, chan_load, array_get. rewrite sees_chan by done.
  by apply HQ, sees_chan_wf.
Qed.

Lemma see_chan_update i f Q :
  0 <= i < S3K_CHAN_CNT -> (chan_wf (v_chan v i) -> chan_wf (f (v_chan v i))) ->
  (forall s', sees s' (v_set_chan i (f (v_chan v i)) v) -> Q tt s') ->
  wp (chan_update i f) Q s.
Proof.
  intros Hi Hf HQ. apply wp_bind, see_chan_load; [done|]. intros Hw.
  apply wp_bind, see_chan_load; [done|]. intros _. apply wp_modify, HQ, sees_channels; auto.
Qed.

(** ** Hardware *)

Lemma sees_set_hw h : hw_wf h -> sees (set_hw h s) (v_set_hw h v).
Proof.
  intros Hh. destruct Hs as ([? ? ? ? ?] & ? & ? & ? & ? & ?).
  split; [by split|]. by repeat (split; [done|]).
Qed.

Lemma sees_hw_wf : hw_wf (v_hw v).
Proof. rewrite <- sees_hw. apply (wf_hw _ sees_wf). Qed.

Lemma see_time_get Q :
  (forall s', sees s' (v_set_hw (hw_tick (v_hw v)) v) ->
     Q (u64 (mtime (v_hw v) (tick (v_hw v)))) s') ->
  wp time_get Q s.
Proof.
  intros HQ. unfold wp, time_get, bind, gets, modify, ret. rewrite sees_hw.
  apply HQ, sees_set_hw, sees_hw_wf.
Qed.

Lemma see_kernel_preempt Q :
  (forall s', sees s' (v_set_hw (hw_tick (v_hw v)) v) ->
     Q (negb (Z.land (mip (v_hw v) (tick (v_hw v))) 128 =? 0)) s') ->
  wp kernel_preempt Q s.
Proof.
  intros HQ. unfold wp, kernel_preempt, csrr_mip, bind, gets, modify, ret. rewrite sees_hw.
  apply HQ, sees_set_hw, sees_hw_wf.
Qed.

Lemma see_csrr_mhartid Q :
  (valid_hart (mhartid (v_hw v)) -> Q (mhartid (v_hw v)) s) -> wp csrr_mhartid Q s.
Proof. intros HQ. apply wp_gets. rewrite sees_hw. apply HQ, sees_hw_wf. Qed.

Lemma see_timeout_get Q :
  (forall t, Q t s) -> wp (timeout_get (mhartid (v_hw v))) Q s.
Proof.
  intros HQ. apply wp_bind, wp_gets. rewrite sees_hw. destruct sees_hw_wf as [Hh Hl].
  unfold valid_hart in Hh. config_bounds.
  destruct (lookupZ_lt (mtimecmp (v_hw v)) (mhartid (v_hw v))) as [t Ht]; [lia|].
  by eapply wp_array_get.
Qed.

Lemma see_timeout_set t Q :
  (forall s', sees s' (v_set_hw (set_mtimecmp
      (insertZ (mhartid (v_hw v)) t (mtimecmp (v_hw v))) (v_hw v)) v) -> Q tt s') ->
  wp (timeout_set (mhartid (v_hw v)) t) Q s.
Proof.
  intros HQ. apply wp_bind, wp_gets. rewrite sees_hw. pose proof sees_hw_wf as [Hh Hl].
  unfold valid_hart in Hh. config_bounds.
  destruct (lookupZ_lt (mtimecmp (v_hw v)) (mhartid (v_hw v))) as [t' Ht]; [lia|].
  apply wp_bind. eapply wp_array_get; [done|]. apply wp_modify.
  apply HQ, sees_set_hw. split; [done|]. cbn. by rewrite zlen_insertZ.
Qed.
End State.
End Rules.

(** ** Time passes *)

Section Later.
(** The same devices, later. *)
Record later (h h' : hw_t) : Prop := {
  later_mip : mip h' = mip h;
  later_lock : lock_word h' = lock_word h;
  later_tick_le : (tick h <= tick h')%nat;
  later_mtime : mtime h' = mtime h;
  later_mtimecmp : mtimecmp h' = mtimecmp h;
  later_mhartid : mhartid h' = mhartid h
}.

#[global] Instance later_preorder : PreOrder later.
Proof. split; [done|]. intros x y z [] []. split; (congruence || lia). Qed.

Lemma later_tick h : later h (hw_tick h).
Proof. split; cbn; (done || lia). Qed.

(** States that differ by device accesses. *)
Definition ticked (v v' : view) : Prop :=
  exists h, later (v_hw v) h /\ v' = v_set_hw h v.

Lemma ticked_trans u v w : ticked u v -> ticked v w -> ticked u w.
Proof. intros (h & H1 & ->) (h' & H2 & ->). exists h'. split; [by etrans|done]. Qed.

Lemma ticked_tick v : ticked v (v_set_hw (hw_tick (v_hw v)) v).
Proof. eexists. split; [apply later_tick|done]. Qed.

#[global] Instance ticked_preorder : PreOrder ticked.
Proof.
  split; [|exact ticked_trans]. intros v. exists (v_hw v). split; [done|by destruct v].
Qed.
End Later.

#[export] Hint Resolve cte_pid_range sees_cap_wf sees_proc_wf sees_chan_wf : s3k.

(** Side conditions of the rules. *)
Ltac see_side := solve [ eassumption | eauto with s3k | lia ].

(** One step of symbolic execution on a view. *)
Ltac see_step :=
  cbn beta iota;
  lazymatch goal with
  | |- wp (bind _ _) _ _ => apply wp_bind
  | |- wp (ret _) _ _ => apply wp_ret
  | |- wp (on_ct (cte_cap _)) _ _ => eapply see_cte_cap; [eassumption|see_side|intros ?]
  | |- wp (on_ct (cte_is_empty _)) _ _ =>
      eapply see_cte_is_empty; [eassumption|see_side|intros ?]
  | |- wp (on_ct (cte_set_cap _ _)) _ _ =>
      eapply see_cte_set_cap; [eassumption|see_side|try see_side|intros ?s ?Hs]
  | |- wp (on_ct (cte_delete _)) _ _ =>
      eapply see_cte_delete; [eassumption|see_side|try see_side|intros ?s ?Hs]
  | |- wp (proc_get _) _ _ => eapply see_proc_get; [eassumption|see_side|]
  | |- wp (proc_load _) _ _ => eapply see_proc_load; [eassumption|see_side|intros ?]
  | |- wp (proc_update _ _) _ _ =>
      eapply see_proc_update; [eassumption|see_side|try done|intros ?s ?Hs]
  | |- wp (reg_get _ _) _ _ =>
      eapply see_reg_get; [eassumption|see_side|try done|intros ? ?]
  | |- wp (reg_set _ _ _) _ _ =>
      eapply see_reg_set; [eassumption|see_side|try done|intros ?s ?Hs]
  | |- wp (pmpcfg_set _ _ _) _ _ =>
      eapply see_pmpcfg_set; [eassumption|see_side|try see_side|intros ?s ?Hs]
  | |- wp (pmpaddr_set _ _ _) _ _ =>
      eapply see_pmpaddr_set; [eassumption|see_side|try see_side|intros ?s ?Hs]
  | |- wp (chan_load _) _ _ => eapply see_chan_load; [eassumption|see_side|intros ?]
  | |- wp (chan_update _ _) _ _ =>
      eapply see_chan_update; [eassumption|see_side|try solve [auto with s3k]|intros ?s ?Hs]
  | |- wp time_get _ _ => eapply see_time_get; [eassumption|intros ?s ?Hs]
  | |- wp kernel_preempt _ _ => eapply see_kernel_preempt; [eassumption|intros ?s ?Hs]
  | |- wp csrr_mhartid _ _ => eapply see_csrr_mhartid; [eassumption|intros ?]
  | |- wp (timeout_get _) _ _ => eapply see_timeout_get; [eassumption|intros ?]
  | |- wp (timeout_set _ _) _ _ => eapply see_timeout_set; [eassumption|intros ?s ?Hs]
  end.
Ltac see := repeat see_step.
