(* ===== verification/Spec.v ===== *)
(** * Specification of the capability operations

    What moving, deleting, revoking, deriving, loading and unloading a
    capability promise, as pure functions on views: no links, no bit lanes, no
    faults.  The derivation and revocation conditions are boolean functions of
    the two capabilities.  [Refine] proves that [cap_ops.c] and [cap_pmp.c]
    implement these functions. *)

From S2P Require Import Prelude Config CapTypes CapTable CapList KState Proc Sched.
From S2P Require Import Channel Invariant View.

Section Conditions.
(** ** Which capabilities a capability may derive *)

Definition time_derivable (cap k : cap_t) : bool :=
  (k⟦cap_type⟧ =? CAPTY_TIME) && (k⟦time_hart⟧ =? cap⟦time_hart⟧)
  && (k⟦time_bgn⟧ =? cap⟦time_mrk⟧) && (k⟦time_end⟧ <=? cap⟦time_end⟧).

Definition mem_derivable (cap k : cap_t) : bool :=
  (k⟦cap_type⟧ =? CAPTY_MEMORY) && (cap⟦mem_tag⟧ =? k⟦mem_tag⟧)
  && (cap⟦mem_mrk⟧ <=? k⟦mem_bgn⟧) && (k⟦mem_end⟧ <=? cap⟦mem_end⟧)
  && (Z.land k⟦mem_rwx⟧ cap⟦mem_rwx⟧ =? k⟦mem_rwx⟧) && (cap⟦mem_lck⟧ =? 0).

Definition pmp_begin (k : cap_t) : Z := fst (pmp_napot_decode k⟦pmp_addr⟧).
Definition pmp_end (k : cap_t) : Z := u64 (snd (pmp_napot_decode k⟦pmp_addr⟧) + pmp_begin k).

Definition pmp_derivable (cap k : cap_t) : bool :=
  (k⟦cap_type⟧ =? CAPTY_PMP)
  && (tag_block_to_addr cap⟦mem_tag⟧ cap⟦mem_mrk⟧ <=? pmp_begin k)
  && (pmp_end k <=? tag_block_to_addr cap⟦mem_tag⟧ cap⟦mem_end⟧)
  && (Z.land k⟦pmp_rwx⟧ cap⟦mem_rwx⟧ =? k⟦pmp_rwx⟧).

Definition mon_derivable (cap k : cap_t) : bool :=
  (k⟦cap_type⟧ =? CAPTY_MONITOR) && (cap⟦mon_mrk⟧ <=? k⟦mon_bgn⟧)
  && (k⟦mon_end⟧ <=? cap⟦mon_end⟧).

Definition chan_derivable (cap k : cap_t) : bool :=
  (k⟦cap_type⟧ =? CAPTY_CHANNEL) && (cap⟦chan_mrk⟧ <=? k⟦chan_bgn⟧)
  && (k⟦chan_end⟧ <=? cap⟦chan_end⟧).

Definition server_derivable (cap k : cap_t) : bool :=
  (k⟦cap_type⟧ =? CAPTY_SOCKET) && (cap⟦chan_mrk⟧ <=? k⟦sock_chan⟧)
  && (k⟦sock_chan⟧ <? cap⟦chan_end⟧).

Definition client_derivable (cap k : cap_t) : bool :=
  (k⟦cap_type⟧ =? CAPTY_SOCKET) && (k⟦sock_chan⟧ =? cap⟦sock_chan⟧)
  && (k⟦sock_perm⟧ =? cap⟦sock_perm⟧) && (k⟦sock_mode⟧ =? cap⟦sock_mode⟧)
  && (cap⟦sock_tag⟧ =? 0) && negb (k⟦sock_tag⟧ =? 0).

(** The capability left in place of [cap] when [k] is derived from it, if it
    may be. *)
Definition derive_mark (cap k : cap_t) : option cap_t :=
  if cap⟦cap_type⟧ =? CAPTY_TIME then
    if time_derivable cap k then Some cap⟦time_mrk := k⟦time_end⟧⟧ else None
  else if cap⟦cap_type⟧ =? CAPTY_MEMORY then
    if mem_derivable cap k then Some cap⟦mem_mrk := k⟦mem_end⟧⟧
    else if pmp_derivable cap k then Some cap⟦mem_lck := 1⟧ else None
  else if cap⟦cap_type⟧ =? CAPTY_MONITOR then
    if mon_derivable cap k then Some cap⟦mon_mrk := k⟦mon_end⟧⟧ else None
  else if cap⟦cap_type⟧ =? CAPTY_CHANNEL then
    if chan_derivable cap k then Some cap⟦chan_mrk := k⟦chan_end⟧⟧
    else if server_derivable cap k then Some cap⟦chan_mrk := k⟦sock_chan⟧ + 1⟧ else None
  else if cap⟦cap_type⟧ =? CAPTY_SOCKET then
    if client_derivable cap k then Some cap else None
  else None.

(** ** Which capabilities revocation deletes *)

Definition time_child (cap k : cap_t) : bool :=
  (k⟦cap_type⟧ =? CAPTY_TIME) && (cap⟦time_hart⟧ =? k⟦time_hart⟧)
  && (cap⟦time_bgn⟧ <=? k⟦time_bgn⟧) && (k⟦time_end⟧ <=? cap⟦time_end⟧).

Definition mem_child (cap k : cap_t) : bool :=
  (k⟦cap_type⟧ =? CAPTY_MEMORY) && (cap⟦mem_tag⟧ =? k⟦mem_tag⟧)
  && (cap⟦mem_bgn⟧ <=? k⟦mem_bgn⟧).

Definition pmp_child (cap k : cap_t) : bool :=
  (k⟦cap_type⟧ =? CAPTY_PMP)
  && (tag_block_to_addr cap⟦mem_tag⟧ cap⟦mem_bgn⟧ <=? pmp_begin k).

Definition mon_child (cap k : cap_t) : bool :=
  (k⟦cap_type⟧ =? CAPTY_MONITOR) && (cap⟦mon_bgn⟧ <=? k⟦mon_bgn⟧).

Definition chan_child (cap k : cap_t) : bool :=
  (k⟦cap_type⟧ =? CAPTY_CHANNEL) && (cap⟦chan_bgn⟧ <=? k⟦chan_bgn⟧).

Definition server_child (cap k : cap_t) : bool :=
  (k⟦cap_type⟧ =? CAPTY_SOCKET) && (cap⟦chan_bgn⟧ <=? k⟦sock_chan⟧).

Definition client_child (cap k : cap_t) : bool :=
  (k⟦cap_type⟧ =? CAPTY_SOCKET) && (cap⟦sock_chan⟧ =? k⟦sock_chan⟧)
  && (cap⟦sock_tag⟧ =? 0).

(** Whether revoking [cap] deletes [k] when [k] follows it in the list.  A
    socket that is alone in the list is its own child: once it is deleted, the
    loop goes on with an empty capability as with a socket. *)
Definition revocable (cap k : cap_t) : bool :=
  if cap⟦cap_type⟧ =? CAPTY_TIME then time_child cap k
  else if cap⟦cap_type⟧ =? CAPTY_MEMORY then mem_child cap k || pmp_child cap k
  else if cap⟦cap_type⟧ =? CAPTY_PMP then false
  else if cap⟦cap_type⟧ =? CAPTY_MONITOR then mon_child cap k
  else if cap⟦cap_type⟧ =? CAPTY_CHANNEL then chan_child cap k || server_child cap k
  else client_child cap k.

(** The revoked capability after its child [k] is deleted, when it changes. *)
Definition revoke_mark (cap k : cap_t) : option cap_t :=
  if cap⟦cap_type⟧ =? CAPTY_TIME then Some cap⟦time_mrk := k⟦time_mrk⟧⟧
  else if cap⟦cap_type⟧ =? CAPTY_MEMORY then
    if mem_child cap k
    then Some cap⟦mem_mrk := k⟦mem_mrk⟧⟧⟦mem_lck := k⟦mem_lck⟧⟧ else None
  else if cap⟦cap_type⟧ =? CAPTY_MONITOR then Some cap⟦mon_mrk := k⟦mon_mrk⟧⟧
  else if cap⟦cap_type⟧ =? CAPTY_CHANNEL then
    if chan_child cap k then Some cap⟦chan_mrk := k⟦chan_mrk⟧⟧ else None
  else None.

(** The revoked capability at the end, when it changes. *)
Definition revoke_reset (cap : cap_t) : option cap_t :=
  if cap⟦cap_type⟧ =? CAPTY_TIME then Some cap⟦time_mrk := cap⟦time_bgn⟧⟧
  else if cap⟦cap_type⟧ =? CAPTY_MEMORY then
    Some cap⟦mem_mrk := cap⟦mem_bgn⟧⟧⟦mem_lck := 0⟧
  else if cap⟦cap_type⟧ =? CAPTY_MONITOR then Some cap⟦mon_mrk := cap⟦mon_bgn⟧⟧
  else if cap⟦cap_type⟧ =? CAPTY_CHANNEL then Some cap⟦chan_mrk := cap⟦chan_bgn⟧⟧
  else None.

(** Whether the marks show that the last child is gone. *)
Definition unmarked (cap : cap_t) : bool :=
  if cap⟦cap_type⟧ =? CAPTY_TIME then cap⟦time_mrk⟧ =? cap⟦time_bgn⟧
  else if cap⟦cap_type⟧ =? CAPTY_MEMORY then
    (cap⟦mem_mrk⟧ =? cap⟦mem_bgn⟧) && (cap⟦mem_lck⟧ =? 0)
  else if cap⟦cap_type⟧ =? CAPTY_MONITOR then cap⟦mon_mrk⟧ =? cap⟦mon_bgn⟧
  else if cap⟦cap_type⟧ =? CAPTY_CHANNEL then cap⟦chan_mrk⟧ =? cap⟦chan_bgn⟧
  else false.
End Conditions.

Section Operations.
Context `{C : Config}.

(** ** Effects on the resources a capability stands for *)

Definition v_pmp_set (p slot cfg : Z) (v : view) : view :=
  v_set_proc p (set_pmpcfg (insertZ slot cfg (p_pmpcfg (v_proc v p))) (v_proc v p)) v.

Definition v_pmp_load (p slot cfg addr : Z) (v : view) : view :=
  let v := v_pmp_set p slot cfg v in
  v_set_proc p (set_pmpaddr (insertZ slot addr (p_pmpaddr (v_proc v p))) (v_proc v p)) v.

Definition pmp_loaded (k : cap_t) : bool :=
  (k⟦cap_type⟧ =? CAPTY_PMP) && negb (k⟦pmp_used⟧ =? 0).

(** Freeing the PMP slot of the capability in entry [c]. *)
Definition v_unload (c : cte_t) (v : view) : view :=
  if pmp_loaded (v_cap v c) then v_pmp_set (cte_pid c) (v_cap v c)⟦pmp_slot⟧ 0 v else v.

(** Withdrawing the receivers registered through a socket of process [p]. *)
Definition v_sock_clear (cap : cap_t) (p : Z) (v : view) : view :=
  let chan := cap⟦sock_chan⟧ in
  if cap⟦sock_tag⟧ =? 0 then v_set_chan chan (Channel None None None) v
  else if bool_decide (ch_client (v_chan v chan) = Some p)
       then v_set_chan chan (set_client None (v_chan v chan)) v
       else v.

(** ** Moving *)

(** The resources of a capability that changes owner. *)
Definition v_handover (src dst : cte_t) (v : view) : view :=
  let k := v_cap v src in
  if k⟦cap_type⟧ =? CAPTY_TIME then
    v_sched_update (cte_pid dst) k⟦time_end⟧ k⟦time_hart⟧ k⟦time_mrk⟧ k⟦time_end⟧ v
  else if pmp_loaded k then
    v_store src k⟦pmp_used := 0⟧⟦pmp_slot := 0⟧ (v_unload src v)
  else v.

Definition v_move (src dst : cte_t) (v : view) : view :=
  v_replace src dst (if cte_pid src =? cte_pid dst then v else v_handover src dst v).

Definition a_move (src dst : cte_t) (v : view) : err_t * view :=
  if empty (v_cap v src) then (ERR_SRC_EMPTY, v)
  else if negb (empty (v_cap v dst)) then (ERR_DST_OCCUPIED, v)
  else (SUCCESS, v_move src dst v).

(** ** Deleting *)

Definition v_release (c : cte_t) (v : view) : view :=
  let k := v_cap v c in
  if k⟦cap_type⟧ =? CAPTY_TIME then v_sched_delete k⟦time_hart⟧ k⟦time_mrk⟧ k⟦time_end⟧ v
  else if k⟦cap_type⟧ =? CAPTY_SOCKET then v_sock_clear k (cte_pid c) v
  else v_unload c v.

Definition v_delete (c : cte_t) (v : view) : view := v_remove c (v_release c v).

Definition a_delete (c : cte_t) (v : view) : err_t * view :=
  if empty (v_cap v c) then (ERR_EMPTY, v) else (SUCCESS, v_delete c v).

(** ** Revoking: one step, for the entry [child] that follows [parent] *)

(** The time between two marks goes back to the owner of [parent]. *)
Definition v_reclaim (parent : cte_t) (from : Z) (v : view) : view :=
  let k := v_cap v parent in
  if k⟦cap_type⟧ =? CAPTY_TIME then
    v_sched_update (cte_pid parent) k⟦time_end⟧ k⟦time_hart⟧ from k⟦time_mrk⟧ v
  else v.

(** The resources of a child that is revoked; its time is reclaimed. *)
Definition v_revoke_child (child : cte_t) (v : view) : view :=
  let k := v_cap v child in
  if k⟦cap_type⟧ =? CAPTY_SOCKET then v_sock_clear k (cte_pid child) v else v_unload child v.

Definition v_revoke_step (parent child : cte_t) (v : view) : view :=
  let pk := v_cap v parent in
  let k := v_cap v child in
  let v1 := v_remove child (v_revoke_child child (v_reclaim parent k⟦time_mrk⟧ v)) in
  match revoke_mark pk k with
  | Some pk' => v_store parent pk' v1
  | None => v1
  end.

Definition v_revoke_end (parent : cte_t) (v : view) : view :=
  let pk := v_cap v parent in
  let v1 := v_reclaim parent pk⟦time_bgn⟧ v in
  match revoke_reset pk with
  | Some pk' => v_store parent pk' v1
  | None => v1
  end.

Definition a_revoke (parent child : cte_t) (v : view) : err_t * view :=
  let pk := v_cap v parent in
  let k := v_cap v child in
  if revocable pk k then
    (match revoke_mark pk k with
     | Some pk' => if unmarked pk' then SUCCESS else CONTINUE
     | None => CONTINUE
     end, v_revoke_step parent child v)
  else (SUCCESS, v_revoke_end parent v).

(** ** Deriving *)

Definition v_derive (src dst : cte_t) (cap' k : cap_t) (v : view) : view :=
  let v := if k⟦cap_type⟧ =? CAPTY_TIME then
             v_sched_update (cte_pid dst) k⟦time_end⟧ k⟦time_hart⟧ k⟦time_bgn⟧ k⟦time_end⟧ v
           else v in
  v_insert dst k src (v_store src cap' v).

Definition a_derive (src dst : cte_t) (k : cap_t) (v : view) : err_t * view :=
  if empty (v_cap v src) then (ERR_SRC_EMPTY, v)
  else if negb (empty (v_cap v dst)) then (ERR_DST_OCCUPIED, v)
  else match derive_mark (v_cap v src) k with
       | Some cap' => (SUCCESS, v_derive src dst cap' k v)
       | None => (ERR_INVALID_DERIVATION, v)
       end.

(** ** Loading and unloading PMP capabilities *)

(** The configuration byte of a NAPOT region. *)
Definition pmp_cfg (rwx : Z) : Z := u8 (Z.lor rwx 24).

Definition a_pmp_load (c : cte_t) (slot : Z) (v : view) : err_t * view :=
  let k := v_cap v c in
  if empty k then (ERR_EMPTY, v)
  else if negb (k⟦cap_type⟧ =? CAPTY_PMP) || negb (k⟦pmp_used⟧ =? 0)
  then (ERR_INVALID_PMP, v)
  else match lookupZ (p_pmpcfg (v_proc v (cte_pid c))) slot with
       | Some 0 =>
           (SUCCESS, v_store c k⟦pmp_slot := slot⟧⟦pmp_used := 1⟧
                       (v_pmp_load (cte_pid c) slot (pmp_cfg k⟦pmp_rwx⟧) k⟦pmp_addr⟧ v))
       | _ => (ERR_DST_OCCUPIED, v)
       end.

Definition a_pmp_unload (c : cte_t) (v : view) : err_t * view :=
  let k := v_cap v c in
  if empty k then (ERR_EMPTY, v)
  else if negb (pmp_loaded k) then (ERR_INVALID_PMP, v)
  else (SUCCESS, v_store c k⟦pmp_slot := 0⟧⟦pmp_used := 0⟧ (v_unload c v)).
End Operations.
