(* ===== verification/Refine.v ===== *)
(** * The capability operations implement their specification

    [cap_move], [cap_delete], a step of [cap_revoke], [cap_derive],
    [cap_pmp_load] and [cap_pmp_unload] run without a fault from every
    well-formed state, return the error code of their specification in [Spec]
    and leave a state that shows the specified view. *)

From S2P Require Import Prelude Config CapTypes CapTable CapList KState Proc Sched.
From S2P Require Import Channel CapOps CapPmp Invariant View Spec.

(** The condition of the code, by its name in the specification. *)
Ltac wp_cond_as c :=
  lazymatch goal with |- wp (if ?b then _ else _) _ _ => change b with c end.

(** The specification, for capabilities whose type is known by [E]. *)
Ltac spec_unfold E HQ :=
  unfold a_revoke, revocable, revoke_mark, v_revoke_step, v_revoke_end, revoke_mark,
    v_reclaim, v_revoke_child, v_unload, pmp_loaded, unmarked, revoke_reset in HQ;
  repeat (progress (
    rewrite ?(fget_fset_ne cap_type) in HQ by reflexivity; rewrite ?E in HQ;
    cbn [Z.eqb Pos.eqb capty andb orb negb fst snd v_cap v_sched_update v_set_lane] in HQ)).

Section Refinement.
Context `{C : Config} {Cok : ConfigOk C}.
Implicit Types (s : kstate) (v : view).

Lemma empty_type k t : k⟦cap_type⟧ = t -> t <> 0 -> empty k = false.
Proof. unfold empty. intros -> Ht. by apply Z.eqb_neq. Qed.

(** [proc_pmp_unload] for a loaded capability. *)
Lemma see_unload s v p k Q :
  sees s v -> valid_proc p -> cap_wf k = true -> k⟦cap_type⟧ = CAPTY_PMP ->
  (forall s', sees s' (v_pmp_set p k⟦pmp_slot⟧ 0 v) -> Q tt s') ->
  wp (proc_pmp_unload p k⟦pmp_slot⟧) Q s.
Proof.
  intros Hs Hp Hk Ek HQ. pose proof (cap_wf_pmp _ Hk Ek). unfold proc_pmp_unload.
  see_step. by apply HQ.
Qed.

Lemma see_sock_clear s v k p Q :
  sees s v -> valid_proc p -> cap_wf k = true -> k⟦cap_type⟧ = CAPTY_SOCKET ->
  (forall s', sees s' (v_sock_clear k p v) -> Q tt s') ->
  wp (cap_sock_clear k p) Q s.
Proof.
  intros Hs Hp Hk Ek HQ. pose proof (cap_wf_socket _ Hk Ek) as [Hch _].
  unfold cap_sock_clear, v_sock_clear in *.
  destruct (k⟦sock_tag⟧ =? 0).
  - see.
    { intros (H1 & H2 & H3 & H4). cbn. unfold fupd. rewrite !Z.eqb_refl. by repeat split. }
    apply HQ. revert Hs2. apply sees_proper. split; [done|].
    repeat (split; [done|]). split; [|done]. intros i _. cbn. unfold fupd.
    rewrite !Z.eqb_refl. by case_match.
  - see. case_bool_decide; [|by apply HQ]. see. by apply HQ.
Qed.

(** ** Moving *)

Lemma cap_wf_unload k : cap_wf k = true -> k⟦cap_type⟧ = CAPTY_PMP ->
  cap_wf k⟦pmp_used := 0⟧⟦pmp_slot := 0⟧ = true.
Proof. intros Hk Ek. config_bounds. solve_cap_wf. rewrite Z.mod_0_l by lia. lia. Qed.

Lemma see_move_hook s v src dst Q :
  sees s v -> in_table src -> in_table dst ->
  (forall s', sees s' (v_handover src dst v) -> Q tt s') ->
  wp (cap_ipc_move_hook src dst) Q s.
Proof.
  intros Hs Hsrc Hdst HQ. unfold cap_ipc_move_hook, v_handover, v_unload, pmp_loaded in *.
  see. destruct (Z.eqb_spec (v_cap v src)⟦cap_type⟧ CAPTY_TIME) as [Et|Et].
  - destruct (cap_wf_time _ H Et) as (H1 & H2 & H3).
    pose proof (fget_range time_bgn (v_cap v src) eq_refl).
    eapply see_sched_update; [done|done|by apply cte_pid_range|lia..|]. intros. by apply HQ.
  - destruct (Z.eqb_spec (v_cap v src)⟦cap_type⟧ CAPTY_PMP) as [Ep|Ep]; [|see; by apply HQ].
    cbn [andb] in HQ. destruct (negb _) eqn:Eu; [|see; by apply HQ].
    do 3 see_step. eapply see_unload; [done|see_side|done|done|]. intros s1 Hs1. see.
    { by apply cap_wf_unload. }
    by apply HQ.
Qed.

Lemma see_cap_move s v src dst Q :
  sees s v -> in_table src -> in_table dst ->
  (forall s', sees s' (a_move src dst v).2 -> Q (a_move src dst v).1 s') ->
  wp (cap_move src dst) Q s.
Proof.
  intros Hs Hsrc Hdst HQ. unfold cap_move, a_move in *.
  see. destruct (empty (v_cap v src)) eqn:Es; [see; by apply HQ|].
  see. destruct (empty (v_cap v dst)) eqn:Ed; cbn [negb] in *; [|see; by apply HQ].
  see_step. eapply (wp_mono _ (fun _ s' => sees s'
    (if cte_pid src =? cte_pid dst then v else v_handover src dst v))).
  - destruct (Z.eqb_spec (cte_pid src) (cte_pid dst)); cbn [negb]; [by see|].
    by eapply see_move_hook.
  - intros [] s1 Hs1. see_step. eapply see_cte_move; [done..| | |].
    + destruct (_ =? _); [done|]. unfold v_handover, pmp_loaded in *.
      repeat case_match; cbn; try done. unfold empty, fupd. rewrite Z.eqb_refl.
      by autorewrite with fields.
    + destruct (_ =? _); [done|]. unfold v_handover, pmp_loaded, v_unload in *.
      repeat case_match; cbn; try done; unfold fupd; case_match; breflect; congruence.
    + intros s2 Hs2. see. by apply HQ.
Qed.

Lemma wp_handler_at {A} (hs : list (option A)) t h Q s :
  lookupZ hs t = Some (Some h) -> Q h s -> wp (handler_at hs t) Q s.
Proof. intros E HQ. apply wp_bind. eapply wp_array_get; [done|]. by eapply wp_deref. Qed.

(** ** Deleting *)

Lemma see_delete_entry s v v' c Q :
  sees s v' -> in_table c -> v_cap v' c = v_cap v c -> empty (v_cap v c) = false ->
  (forall s', sees s' (v_remove c v') -> Q SUCCESS s') ->
  wp (do* on_ct (cte_delete c) in ret SUCCESS) Q s.
Proof.
  intros Hs Hc E He HQ. see_step. eapply see_cte_delete; [done|done|by rewrite E|].
  intros s' Hs'. see. by apply HQ.
Qed.

Lemma see_cap_delete s v c Q :
  sees s v -> in_table c ->
  (forall s', sees s' (a_delete c v).2 -> Q (a_delete c v).1 s') ->
  wp (cap_delete c) Q s.
Proof.
  intros Hs Hc HQ. unfold cap_delete, a_delete in *.
  see. destruct (empty (v_cap v c)) eqn:Ee; [see; by apply HQ|].
  see. cbn [fst snd] in HQ. unfold v_delete, v_release, v_unload, pmp_loaded in HQ.
  pose proof Ee as Ht. unfold empty in Ht. breflect.
  apply cap_wf_type in Ht; [|done].
  destruct Ht as [E|[E|[E|[E|[E|E]]]]]; rewrite E in HQ |- *; cbn in HQ;
    (eapply wp_handler_at; [reflexivity|]).
  - destruct (cap_wf_time _ H E) as (H1 & H2 & H3).
    pose proof (fget_range time_bgn (v_cap v c) eq_refl).
    apply wp_bind. eapply see_sched_delete; [done|done|lia..|]. intros s1 Hs1.
    by eapply (see_delete_entry _ v).
  - by eapply (see_delete_entry _ v).
  - unfold cap_delete_pmp. do 2 see_step. apply wp_bind. destruct (negb _) eqn:Eu.
    + eapply see_unload; [done|see_side|done..|]. intros s1 Hs1.
      by eapply (see_delete_entry _ v).
    + see. by apply HQ.
  - by eapply (see_delete_entry _ v).
  - by eapply (see_delete_entry _ v).
  - unfold cap_delete_socket. do 3 see_step. eapply see_sock_clear; [done|see_side|done..|].
    intros s1 Hs1. eapply (see_delete_entry _ v); [done|done| |done|done].
    unfold v_sock_clear. by repeat case_match.
Qed.

(** ** Revoking *)

Lemma cap_wf_time_mark k m : cap_wf k = true -> k⟦cap_type⟧ = CAPTY_TIME ->
  k⟦time_bgn⟧ <= m <= k⟦time_end⟧ -> cap_wf k⟦time_mrk := m⟧ = true.
Proof.
  intros Hk E Hm. destruct (cap_wf_time _ Hk E) as ([H1 H2] & H3 & H4).
  pose proof (fget_range time_bgn k eq_refl). pose proof (fget_range time_end k eq_refl).
  cbn [f_wid time_bgn time_end] in *.
  solve_cap_wf. rewrite Z.mod_small by (cbn; lia). lia.
Qed.

Lemma cap_wf_mem_mark k m l : cap_wf k = true -> k⟦cap_type⟧ = CAPTY_MEMORY ->
  cap_wf k⟦mem_mrk := m⟧⟦mem_lck := l⟧ = true.
Proof. intros Hk E. pose proof (cap_wf_memory _ Hk E). solve_cap_wf. done. Qed.

Lemma cap_wf_mon_mark k m : cap_wf k = true -> k⟦cap_type⟧ = CAPTY_MONITOR ->
  cap_wf k⟦mon_mrk := m⟧ = true.
Proof. intros Hk E. pose proof (cap_wf_monitor _ Hk E). solve_cap_wf. done. Qed.

Lemma cap_wf_chan_mark k m : cap_wf k = true -> k⟦cap_type⟧ = CAPTY_CHANNEL ->
  cap_wf k⟦chan_mrk := m⟧ = true.
Proof. intros Hk E. pose proof (cap_wf_channel _ Hk E). solve_cap_wf. done. Qed.

(** Storing back the capability of an entry changes nothing. *)
Lemma store_same v c t : (v_cap v c)⟦cap_type⟧ = t -> t <> 0 -> v_store c (v_cap v c) v ≡ v.
Proof.
  intros E Ht. assert (empty (v_cap v c) = false) as He by by eapply empty_type.
  split; [|split; [|by repeat split]]; cbn.
  - intros x _. unfold fupd. by destruct (Z.eqb_spec x c) as [->|].
  - by rewrite He.
Qed.

Lemma sock_clear_remove s k p c v :
  sees s (v_sock_clear k p (v_remove c v)) -> sees s (v_remove c (v_sock_clear k p v)).
Proof. unfold v_sock_clear. cbn [v_chan v_remove v_set_table]. by repeat case_match. Qed.

(** The child examined by a revocation step. *)
Definition child_of (v : view) (parent child : cte_t) : Prop :=
  in_table child /\
  forall l, v_list v = Some l -> parent ∈ l -> child = l_next parent l.

Lemma see_revoke_time s v parent Q :
  sees s v -> in_table parent -> (v_cap v parent)⟦cap_type⟧ = CAPTY_TIME ->
  (forall child s', child_of v parent child -> sees s' (a_revoke parent child v).2 ->
     Q (a_revoke parent child v).1 s') ->
  wp (cap_revoke_time parent (v_cap v parent)) Q s.
Proof.
  intros Hs Hp E HQ. unfold cap_revoke_time.
  pose proof (sees_cap_wf _ _ Hs _ Hp) as Hpk.
  destruct (cap_wf_time _ Hpk E) as (H1 & H2 & H3).
  pose proof (fget_range time_bgn (v_cap v parent) eq_refl).
  see_step. eapply see_cte_next; [done..|]. intros child Hc Hl.
  assert (Hch : child_of v parent child) by done.
  specialize (HQ child). see_step. see_step. spec_unfold E HQ.
  wp_cond_as (time_child (v_cap v parent) (v_cap v child)).
  destruct (time_child _ _) eqn:Ec; cbn [fst snd] in HQ.
  - unfold time_child in Ec. breflect. destruct Ec as [[[Ek _] Eb] Ee].
    destruct (cap_wf_time _ H0 Ek) as (G1 & G2 & G3). spec_unfold Ek HQ. spec_unfold E HQ.
    see_step. eapply see_cte_delete; [done|done|by eapply empty_type|]. intros s1 Hs1.
    apply wp_bind. eapply see_sched_update; [done|done|see_side|lia..|]. intros s2 Hs2.
    see. { apply cap_wf_time_mark; [done|done|lia]. } by apply HQ.
  - apply wp_bind. eapply see_sched_update; [done|done|see_side|lia..|]. intros s2 Hs2.
    see. { apply cap_wf_time_mark; [done|done|lia]. } by apply HQ.
Qed.

Lemma see_revoke_memory s v parent Q :
  sees s v -> in_table parent -> (v_cap v parent)⟦cap_type⟧ = CAPTY_MEMORY ->
  (forall child s', child_of v parent child -> sees s' (a_revoke parent child v).2 ->
     Q (a_revoke parent child v).1 s') ->
  wp (cap_revoke_memory parent (v_cap v parent)) Q s.
Proof.
  intros Hs Hp E HQ. unfold cap_revoke_memory.
  pose proof (sees_cap_wf _ _ Hs _ Hp) as Hpk.
  see_step. eapply see_cte_next; [done..|]. intros child Hc Hl.
  assert (Hch : child_of v parent child) by done.
  specialize (HQ child). see_step. see_step. spec_unfold E HQ.
  wp_cond_as (mem_child (v_cap v parent) (v_cap v child)).
  destruct (mem_child _ _) eqn:Ec; cbn [orb] in HQ; cbn [fst snd] in HQ.
  - unfold mem_child in Ec. breflect. destruct Ec as [[Ek _] _]. spec_unfold Ek HQ. spec_unfold E HQ.
    see_step. eapply see_cte_delete; [done|done|by eapply empty_type|]. intros s1 Hs1.
    see. { by apply cap_wf_mem_mark. } by apply HQ.
  - wp_cond_as (pmp_child (v_cap v parent) (v_cap v child)).
    destruct (pmp_child _ _) eqn:Ec2; cbn [fst snd] in HQ.
    + unfold pmp_child in Ec2. breflect. destruct Ec2 as [Ek _]. spec_unfold Ek HQ. spec_unfold E HQ.
      see_step. eapply see_cte_delete; [done|done|by eapply empty_type|]. intros s1 Hs1.
      apply wp_bind. destruct (negb _) eqn:Eu; [|see; by apply HQ].
      do 2 see_step. eapply see_unload; [done|see_side|done|done|]. intros s2 Hs2. see.
      by apply HQ.
    + see. { by apply cap_wf_mem_mark. } by apply HQ.
Qed.

Lemma see_revoke_monitor s v parent Q :
  sees s v -> in_table parent -> (v_cap v parent)⟦cap_type⟧ = CAPTY_MONITOR ->
  (forall child s', child_of v parent child -> sees s' (a_revoke parent child v).2 ->
     Q (a_revoke parent child v).1 s') ->
  wp (cap_revoke_monitor parent (v_cap v parent)) Q s.
Proof.
  intros Hs Hp E HQ. unfold cap_revoke_monitor.
  pose proof (sees_cap_wf _ _ Hs _ Hp) as Hpk.
  see_step. eapply see_cte_next; [done..|]. intros child Hc Hl.
  assert (Hch : child_of v parent child) by done.
  specialize (HQ child). see_step. see_step. spec_unfold E HQ.
  wp_cond_as (mon_child (v_cap v parent) (v_cap v child)).
  destruct (mon_child _ _) eqn:Ec; cbn [fst snd] in HQ.
  - unfold mon_child in Ec. breflect. destruct Ec as [Ek _]. spec_unfold Ek HQ. spec_unfold E HQ.
    see_step. eapply see_cte_delete; [done|done|by eapply empty_type|]. intros s1 Hs1.
    see. { by apply cap_wf_mon_mark. } by apply HQ.
  - see. { by apply cap_wf_mon_mark. } by apply HQ.
Qed.

Lemma see_revoke_channel s v parent Q :
  sees s v -> in_table parent -> (v_cap v parent)⟦cap_type⟧ = CAPTY_CHANNEL ->
  (forall child s', child_of v parent child -> sees s' (a_revoke parent child v).2 ->
     Q (a_revoke parent child v).1 s') ->
  wp (cap_revoke_channel parent (v_cap v parent)) Q s.
Proof.
  intros Hs Hp E HQ. unfold cap_revoke_channel.
  pose proof (sees_cap_wf _ _ Hs _ Hp) as Hpk.
  see_step. eapply see_cte_next; [done..|]. intros child Hc Hl.
  assert (Hch : child_of v parent child) by done.
  specialize (HQ child). see_step. see_step. spec_unfold E HQ.
  wp_cond_as (chan_child (v_cap v parent) (v_cap v child)).
  destruct (chan_child _ _) eqn:Ec; cbn [orb] in HQ; cbn [fst snd] in HQ.
  - unfold chan_child in Ec. breflect. destruct Ec as [Ek _]. spec_unfold Ek HQ. spec_unfold E HQ.
    see_step. eapply see_cte_delete; [done|done|by eapply empty_type|]. intros s1 Hs1.
    see. { by apply cap_wf_chan_mark. } by apply HQ.
  - wp_cond_as (server_child (v_cap v parent) (v_cap v child)).
    destruct (server_child _ _) eqn:Ec2; cbn [fst snd] in HQ.
    + unfold server_child in Ec2. breflect. destruct Ec2 as [Ek _]. spec_unfold Ek HQ. spec_unfold E HQ.
      see_step. eapply see_cte_delete; [done|done|by eapply empty_type|]. intros s1 Hs1.
      do 3 see_step. eapply see_sock_clear; [done|see_side|done|done|]. intros s2 Hs2. see.
      apply HQ; [done|]. by apply sock_clear_remove.
    + see. { by apply cap_wf_chan_mark. } by apply HQ.
Qed.

Lemma see_revoke_socket s v parent Q :
  sees s v -> in_table parent ->
  (v_cap v parent)⟦cap_type⟧ = CAPTY_SOCKET \/ (v_cap v parent)⟦cap_type⟧ = CAPTY_NONE ->
  (forall child s', child_of v parent child -> sees s' (a_revoke parent child v).2 ->
     Q (a_revoke parent child v).1 s') ->
  wp (cap_revoke_socket parent (v_cap v parent)) Q s.
Proof.
  intros Hs Hp Ep HQ. unfold cap_revoke_socket.
  pose proof (sees_cap_wf _ _ Hs _ Hp) as Hpk.
  see_step. eapply see_cte_next; [done..|]. intros child Hc Hl.
  assert (Hch : child_of v parent child) by done.
  specialize (HQ child). see_step. see_step. wp_cond_as (client_child (v_cap v parent) (v_cap v child)).
  destruct Ep as [E|E]; spec_unfold E HQ.
  all: destruct (client_child _ _) eqn:Ec; cbn [fst snd] in HQ; [|see; by apply HQ].
  all: unfold client_child in Ec; breflect; destruct Ec as [[Ek _] _];
    spec_unfold Ek HQ; spec_unfold E HQ.
  all: see_step; eapply see_cte_delete; [done|done|by eapply empty_type|]; intros s1 Hs1.
  all: do 3 see_step; eapply see_sock_clear; [done|see_side|done|done|]; intros s2 Hs2; see.
  all: apply HQ; [done|]; by apply sock_clear_remove.
Qed.

Lemma see_revoke_pmp s v parent Q :
  sees s v -> in_table parent -> (v_cap v parent)⟦cap_type⟧ = CAPTY_PMP ->
  (forall child s', child_of v parent child -> sees s' (a_revoke parent child v).2 ->
     Q (a_revoke parent child v).1 s') ->
  wp (cap_revoke_pmp parent (v_cap v parent)) Q s.
Proof.
  intros Hs Hp E HQ. apply wp_ret.
  pose proof (wf_ct _ (sees_wf _ _ Hs)) as [[_ Hlk] _]. destruct (Hlk _ Hp) as [Hn _].
  specialize (HQ (next_at (ctable s) parent) s). spec_unfold E HQ. apply HQ; [|done].
  split; [done|]. intros l El Hl. destruct Hs as (_ & [_ Hr] & _).
  eapply represents_next; [by apply Hr|done].
Qed.

(** One step of a revocation, with the handler of type [t]: the type of the
    capability, or that of a socket that is gone. *)
Definition revoke_type (t : Z) (k : cap_t) : Prop :=
  k⟦cap_type⟧ = t /\ t <> 0 \/ k⟦cap_type⟧ = CAPTY_NONE /\ t = CAPTY_SOCKET.

Lemma see_revoke_step s v t parent Q :
  sees s v -> in_table parent -> revoke_type t (v_cap v parent) ->
  (forall child s', child_of v parent child -> sees s' (a_revoke parent child v).2 ->
     Q (a_revoke parent child v).1 s') ->
  wp (let* h := handler_at revoke_handlers t in h parent (v_cap v parent)) Q s.
Proof.
  intros Hs Hp Ht HQ. pose proof (sees_cap_wf _ _ Hs _ Hp) as Hpk. apply wp_bind.
  destruct Ht as [[<- Hne]|[E ->]].
  - apply cap_wf_type in Hne; [|done].
    destruct Hne as [E|[E|[E|[E|[E|E]]]]]; rewrite E; (eapply wp_handler_at; [reflexivity|]).
    + by eapply see_revoke_time.
    + by eapply see_revoke_memory.
    + by eapply see_revoke_pmp.
    + by eapply see_revoke_monitor.
    + by eapply see_revoke_channel.
    + eapply see_revoke_socket; eauto.
  - eapply wp_handler_at; [reflexivity|]. eapply see_revoke_socket; eauto.
Qed.

(** ** Deriving *)

(** Well-formedness of a valid capability, by type. *)
Section Valid.
Context (k : cap_t) (Hw : word_ok k = true) (Hv : cap_is_valid k = true).

Lemma valid_nonempty : empty k = false.
Proof.
  unfold empty. destruct (Z.eqb_spec k⟦cap_type⟧ 0) as [E|]; [|done].
  unfold cap_is_valid in Hv. by rewrite E in Hv.
Qed.

Lemma valid_time : k⟦cap_type⟧ = CAPTY_TIME ->
  k⟦time_bgn⟧ < k⟦time_end⟧ /\ k⟦time_mrk⟧ = k⟦time_bgn⟧.
Proof. intros E. unfold cap_is_valid in Hv. rewrite E in Hv.
  cbn [Z.eqb Pos.eqb capty] in Hv. breflect. split_and!; (tauto || symmetry; tauto). Qed.
Lemma valid_memory : k⟦cap_type⟧ = CAPTY_MEMORY ->
  k⟦mem_bgn⟧ < k⟦mem_end⟧ /\ k⟦mem_mrk⟧ = k⟦mem_bgn⟧ /\ k⟦mem_lck⟧ = 0.
Proof. intros E. unfold cap_is_valid in Hv. rewrite E in Hv.
  cbn [Z.eqb Pos.eqb capty] in Hv. breflect. split_and!; (tauto || symmetry; tauto). Qed.
Lemma valid_pmp : k⟦cap_type⟧ = CAPTY_PMP -> k⟦pmp_used⟧ = 0 /\ k⟦pmp_slot⟧ = 0.
Proof. intros E. unfold cap_is_valid in Hv. rewrite E in Hv.
  cbn [Z.eqb Pos.eqb capty] in Hv. breflect. split_and!; (tauto || symmetry; tauto). Qed.
Lemma valid_monitor : k⟦cap_type⟧ = CAPTY_MONITOR ->
  k⟦mon_bgn⟧ < k⟦mon_end⟧ /\ k⟦mon_mrk⟧ = k⟦mon_bgn⟧.
Proof. intros E. unfold cap_is_valid in Hv. rewrite E in Hv.
  cbn [Z.eqb Pos.eqb capty] in Hv. breflect. lia. Qed.
(** The channel case is tested through the memory fields of the union. *)
Lemma valid_channel : k⟦cap_type⟧ = CAPTY_CHANNEL ->
  k⟦chan_bgn⟧ < k⟦chan_end⟧ /\ k⟦chan_mrk⟧ = k⟦chan_bgn⟧.
Proof.
  intros E. unfold cap_is_valid in Hv. rewrite E in Hv.
  cbn [Z.eqb Pos.eqb capty] in Hv. breflect.
  change chan_bgn with mem_bgn. change chan_end with mem_end. change chan_mrk with mem_mrk. lia.
Qed.
Lemma valid_socket : k⟦cap_type⟧ = CAPTY_SOCKET ->
  k⟦sock_mode⟧ = IPC_YIELD \/ k⟦sock_mode⟧ = IPC_NOYIELD.
Proof. intros E. unfold cap_is_valid in Hv. rewrite E in Hv. simpl in Hv. by breflect. Qed.

Lemma valid_wf :
  (k⟦cap_type⟧ = CAPTY_TIME -> valid_hart k⟦time_hart⟧ /\ k⟦time_end⟧ <= S3K_SLOT_CNT) ->
  (k⟦cap_type⟧ = CAPTY_MONITOR -> k⟦mon_end⟧ <= S3K_PROC_CNT) ->
  (k⟦cap_type⟧ = CAPTY_CHANNEL -> k⟦chan_end⟧ <= S3K_CHAN_CNT) ->
  (k⟦cap_type⟧ = CAPTY_SOCKET -> k⟦sock_chan⟧ < S3K_CHAN_CNT) ->
  cap_wf k = true.
Proof.
  intros Ht Hm Hc Hs. unfold cap_wf. rewrite Hw. cbn [andb].
  destruct (Z.eqb_spec k⟦cap_type⟧ CAPTY_NONE) as [E|?].
  { pose proof valid_nonempty. unfold empty in *. breflect. done. }
  destruct (Z.eqb_spec k⟦cap_type⟧ CAPTY_TIME) as [E|?].
  { destruct (Ht E) as [[??]?], (valid_time E).
    rewrite !andb_true_iff, !Z.leb_le, !Z.ltb_lt. lia. }
  destruct (Z.eqb_spec k⟦cap_type⟧ CAPTY_MEMORY) as [E|?].
  { apply Z.ltb_lt, (valid_memory E). }
  destruct (Z.eqb_spec k⟦cap_type⟧ CAPTY_PMP) as [E|?].
  { destruct (valid_pmp E) as [_ ->]. config_bounds. apply Z.ltb_lt. lia. }
  destruct (Z.eqb_spec k⟦cap_type⟧ CAPTY_MONITOR) as [E|?].
  { by apply Z.leb_le, Hm. }
  destruct (Z.eqb_spec k⟦cap_type⟧ CAPTY_CHANNEL) as [E|?].
  { by apply Z.leb_le, Hc. }
  destruct (Z.eqb_spec k⟦cap_type⟧ CAPTY_SOCKET) as [E|E1].
  { rewrite andb_true_iff, orb_true_iff, Z.ltb_lt, !Z.eqb_eq.
    split; [by apply Hs|by apply valid_socket]. }
  exfalso. revert Hv. unfold cap_is_valid. repeat (case_match; breflect; [done|]). done.
Qed.
End Valid.

(** A capability that may be derived is well formed, and so is the mark it
    leaves. *)
Lemma derive_mark_wf cap k cap' :
  cap_wf cap = true -> word_ok k = true -> cap_is_valid k = true ->
  derive_mark cap k = Some cap' ->
  cap_wf k = true /\ cap_wf cap' = true /\ cap'⟦cap_type⟧ = cap⟦cap_type⟧.
Proof.
  intros Hcap Hw Hv. unfold derive_mark.
  destruct (Z.eqb_spec cap⟦cap_type⟧ CAPTY_TIME) as [E|_].
  { destruct (time_derivable cap k) eqn:D; [|done]. intros [= <-]. unfold time_derivable in D.
    breflect. destruct D as [[[Ek Eh] Eb] Ee]. destruct (cap_wf_time _ Hcap E) as (?&?&?).
    destruct (valid_time _ Hv Ek).
    split; [|split]; [|apply cap_wf_time_mark; [done|done|lia]|by autorewrite with fields].
    apply valid_wf; [done|done| | | |]; rewrite ?Ek; try done. rewrite Eh. split; [done|lia]. }
  destruct (Z.eqb_spec cap⟦cap_type⟧ CAPTY_MEMORY) as [E|_].
  { assert (cap_wf cap⟦mem_mrk := k⟦mem_end⟧⟧ = true /\ cap_wf cap⟦mem_lck := 1⟧ = true) as [W1 W2].
    { pose proof (cap_wf_memory _ Hcap E). split; by solve_cap_wf. }
    destruct (mem_derivable cap k) eqn:D; [|destruct (pmp_derivable cap k) eqn:D'; [|done]];
      intros [= <-]; (split; [|split]); try done; try by autorewrite with fields.
    - unfold mem_derivable in D. breflect. assert (Ek : k⟦cap_type⟧ = CAPTY_MEMORY) by tauto.
      apply valid_wf; [done|done| | | |]; by rewrite Ek.
    - unfold pmp_derivable in D'. breflect. assert (Ek : k⟦cap_type⟧ = CAPTY_PMP) by tauto.
      apply valid_wf; [done|done| | | |]; by rewrite Ek. }
  destruct (Z.eqb_spec cap⟦cap_type⟧ CAPTY_MONITOR) as [E|_].
  { destruct (mon_derivable cap k) eqn:D; [|done]. intros [= <-]. unfold mon_derivable in D.
    breflect. destruct D as [[Ek Eb] Ee]. pose proof (cap_wf_monitor _ Hcap E).
    split; [|split]; [|by apply cap_wf_mon_mark|by autorewrite with fields].
    apply valid_wf; [done|done| | | |]; rewrite ?Ek; try done. lia. }
  destruct (Z.eqb_spec cap⟦cap_type⟧ CAPTY_CHANNEL) as [E|_].
  { pose proof (cap_wf_channel _ Hcap E).
    destruct (chan_derivable cap k) eqn:D; [|destruct (server_derivable cap k) eqn:D'; [|done]];
      intros [= <-]; (split; [|split]); try (by autorewrite with fields);
      try by apply cap_wf_chan_mark.
    - unfold chan_derivable in D. breflect. destruct D as [[Ek ?] ?].
      apply valid_wf; [done|done| | | |]; rewrite ?Ek; try done. lia.
    - unfold server_derivable in D'. breflect. destruct D' as [[Ek ?] ?].
      apply valid_wf; [done|done| | | |]; rewrite ?Ek; try done. lia. }
  destruct (Z.eqb_spec cap⟦cap_type⟧ CAPTY_SOCKET) as [E|_]; [|done].
  destruct (client_derivable cap k) eqn:D; [|done]. intros [= <-]. unfold client_derivable in D.
  breflect. destruct (cap_wf_socket _ Hcap E) as [? _].
  assert (k⟦cap_type⟧ = CAPTY_SOCKET /\ k⟦sock_chan⟧ = cap⟦sock_chan⟧) as [Ek Ec] by tauto.
  split; [|done]. apply valid_wf; [done|done| | | |]; rewrite ?Ek; try done. lia.
Qed.

Lemma occupied_after_store src cap' dst v :
  empty (v_cap v src) = false -> empty (v_cap v dst) = true -> empty cap' = false ->
  empty (v_cap (v_store src cap' v) dst) = true /\
  empty (v_cap (v_store src cap' v) src) = false.
Proof.
  intros Hs Hd Hk. cbn. split; unfold fupd.
  - destruct (Z.eqb_spec dst src) as [->|]; congruence.
  - by rewrite Z.eqb_refl.
Qed.

(** The common end of the derivation handlers. *)
Lemma see_derive_entry s v src dst cap' k Q :
  sees s v -> in_table src -> in_table dst ->
  empty (v_cap v src) = false -> empty (v_cap v dst) = true ->
  cap_wf cap' = true -> empty cap' = false -> cap_wf k = true -> empty k = false ->
  (forall s', sees s' (v_insert dst k src (v_store src cap' v)) -> Q SUCCESS s') ->
  wp (do* on_ct (cte_set_cap src cap') in
      do* on_ct (cte_insert dst k src) in ret SUCCESS) Q s.
Proof.
  intros Hs Hsrc Hdst Es Ed Hc Ec Hk Ek HQ.
  destruct (occupied_after_store src cap' dst v) as [O1 O2]; [done..|].
  do 3 see_step. eapply see_cte_insert; [done..|]. intros s2 Hs2. see. by apply HQ.
Qed.

(** The handlers of [cap_derive], by the type of the source. *)
Section Derivation.
Context (s : kstate) (v : view) (src dst : cte_t) (k : cap_t).
Context (Hs : sees s v) (Hsrc : in_table src) (Hdst : in_table dst).
Context (Hw : word_ok k = true) (Hv : cap_is_valid k = true).
Context (Es : empty (v_cap v src) = false) (Ed : empty (v_cap v dst) = true).
Context (Q : err_t -> kstate -> Prop).
Abbreviation cap := (v_cap v src).

Definition derive_result : err_t * view :=
  match derive_mark cap k with
  | Some cap' => (SUCCESS, v_derive src dst cap' k v)
  | None => (ERR_INVALID_DERIVATION, v)
  end.

Context (HQ : forall s', sees s' derive_result.2 -> Q derive_result.1 s').

Lemma derived_wf cap' : derive_mark cap k = Some cap' ->
  cap_wf k = true /\ cap_wf cap' = true /\ empty k = false /\ empty cap' = false.
Proof.
  intros E. destruct (derive_mark_wf cap k cap') as (W1 & W2 & W3);
    [by apply (sees_cap_wf _ _ Hs)|done..|].
  repeat split; [done|done|by apply valid_nonempty|]. unfold empty in *. by rewrite W3.
Qed.

(** The type of the source selects the case of the specification. *)
Ltac derive_case E HQ' Hm :=
  pose proof HQ as HQ'; pose proof derived_wf as Hm; revert HQ' Hm;
  unfold derive_result, derive_mark, v_derive; rewrite E; cbn [Z.eqb Pos.eqb capty]; intros HQ' Hm.
(** The derivation is allowed by the condition [D] and gives type [ty]. *)
Ltac derive_entry HQ' Hm D ty :=
  let W1 := fresh in let W2 := fresh in let W3 := fresh in let W4 := fresh in let Ek := fresh in
  destruct (Hm _ eq_refl) as (W1 & W2 & W3 & W4);
  unfold mem_derivable, pmp_derivable, mon_derivable, chan_derivable, server_derivable in D; breflect;
  assert (k⟦cap_type⟧ = ty) as Ek by tauto; rewrite Ek in HQ'; by eapply see_derive_entry.

Lemma see_derive_time : cap⟦cap_type⟧ = CAPTY_TIME -> wp (cap_derive_time src cap dst k) Q s.
Proof.
  intros E. derive_case E HQ' Hm. unfold cap_derive_time. wp_cond_as (time_derivable cap k).
  destruct (time_derivable cap k) eqn:D; [|by apply HQ'].
  destruct (Hm _ eq_refl) as (W1 & W2 & W3 & W4).
  unfold time_derivable in D. breflect. destruct D as [[[Ek Eh] Eb] Ee].
  rewrite Ek in HQ'. destruct (cap_wf_time _ W1 Ek) as (?&?&?).
  pose proof (fget_range time_bgn k eq_refl).
  see_step. eapply see_sched_update; [done|done|see_side|lia..|]. intros s1 Hs1.
  by eapply see_derive_entry.
Qed.

Lemma see_derive_memory : cap⟦cap_type⟧ = CAPTY_MEMORY -> wp (cap_derive_memory src cap dst k) Q s.
Proof.
  intros E. derive_case E HQ' Hm. unfold cap_derive_memory.
  lazymatch goal with |- wp (if ?b then _ else _) _ _ =>
    replace b with (mem_derivable cap k)
      by (unfold mem_derivable;
          by destruct (_ =? CAPTY_MEMORY), (cap⟦mem_tag⟧ =? k⟦mem_tag⟧)) end.
  destruct (mem_derivable cap k) eqn:D; [derive_entry HQ' Hm D CAPTY_MEMORY|].
  cbv zeta. wp_cond_as (pmp_derivable cap k).
  destruct (pmp_derivable cap k) eqn:D'; [derive_entry HQ' Hm D' CAPTY_PMP|by apply HQ'].
Qed.

Lemma see_derive_pmp : cap⟦cap_type⟧ = CAPTY_PMP -> wp (cap_derive_pmp src cap dst k) Q s.
Proof. intros E. derive_case E HQ' Hm. by apply HQ'. Qed.

Lemma see_derive_monitor : cap⟦cap_type⟧ = CAPTY_MONITOR -> wp (cap_derive_monitor src cap dst k) Q s.
Proof.
  intros E. derive_case E HQ' Hm. unfold cap_derive_monitor. wp_cond_as (mon_derivable cap k).
  destruct (mon_derivable cap k) eqn:D; [derive_entry HQ' Hm D CAPTY_MONITOR|by apply HQ'].
Qed.

Lemma see_derive_channel : cap⟦cap_type⟧ = CAPTY_CHANNEL -> wp (cap_derive_channel src cap dst k) Q s.
Proof.
  intros E. derive_case E HQ' Hm. unfold cap_derive_channel. wp_cond_as (chan_derivable cap k).
  destruct (chan_derivable cap k) eqn:D; [derive_entry HQ' Hm D CAPTY_CHANNEL|].
  wp_cond_as (server_derivable cap k).
  destruct (server_derivable cap k) eqn:D'; [derive_entry HQ' Hm D' CAPTY_SOCKET|by apply HQ'].
Qed.

Lemma see_derive_socket : cap⟦cap_type⟧ = CAPTY_SOCKET -> wp (cap_derive_socket src cap dst k) Q s.
Proof.
  intros E. derive_case E HQ' Hm. unfold cap_derive_socket. wp_cond_as (client_derivable cap k).
  destruct (client_derivable cap k) eqn:D; [|by apply HQ'].
  destruct (Hm _ eq_refl) as (W1 & W2 & W3 & W4).
  unfold client_derivable in D. breflect. assert (k⟦cap_type⟧ = CAPTY_SOCKET) as Ek by tauto.
  rewrite Ek in HQ'. see_step. eapply see_cte_insert; [done..|]. intros s1 Hs1. see.
  apply HQ'. cbn [fst snd Z.eqb Pos.eqb capty]. by rewrite (store_same _ _ _ E) by done.
Qed.
End Derivation.

Lemma see_cap_derive s v src dst k Q :
  sees s v -> in_table src -> in_table dst -> word_ok k = true -> cap_is_valid k = true ->
  (forall s', sees s' (a_derive src dst k v).2 -> Q (a_derive src dst k v).1 s') ->
  wp (cap_derive src dst k) Q s.
Proof.
  intros Hs Hsrc Hdst Hw Hv HQ. unfold cap_derive, a_derive in *.
  see. destruct (empty (v_cap v src)) eqn:Es; [see; by apply HQ|].
  see. destruct (empty (v_cap v dst)) eqn:Ed; cbn [negb] in *; [|see; by apply HQ].
  see. pose proof Es as Ht. unfold empty in Ht. breflect.
  apply cap_wf_type in Ht; [|by apply (sees_cap_wf _ _ Hs)].
  destruct Ht as [E|[E|[E|[E|[E|E]]]]]; rewrite E; (eapply wp_handler_at; [reflexivity|]).
  - by eapply see_derive_time.
  - by eapply see_derive_memory.
  - by eapply see_derive_pmp.
  - by eapply see_derive_monitor.
  - by eapply see_derive_channel.
  - by eapply see_derive_socket.
Qed.

(** ** Loading and unloading PMP capabilities *)

Lemma see_cap_pmp_load s v c slot Q :
  sees s v -> in_table c -> u8 slot < S3K_PMP_CNT ->
  (forall s', sees s' (a_pmp_load c (u8 slot) v).2 -> Q (a_pmp_load c (u8 slot) v).1 s') ->
  wp (cap_pmp_load c slot) Q s.
Proof.
  intros Hs Hc Hlt HQ. unfold cap_pmp_load, a_pmp_load in *.
  assert (Hslot : 0 <= u8 slot < S3K_PMP_CNT).
  { split; [|done]. apply Z.mod_pos_bound. lia. }
  revert Hslot HQ. generalize (u8 slot). clear slot Hlt. intros slot Hslot HQ.
  see. wp_cond_as (empty (v_cap v c)).
  destruct (empty (v_cap v c)); [see; by apply HQ|].
  destruct (_ || _) eqn:Eb; [see; by apply HQ|]. breflect. destruct Eb as [Ek Eu].
  see_step. eapply see_proc_pmp_avail; [done|see_side|done|]. intros x Ex. rewrite Ex in HQ.
  destruct (Z.eqb_spec x 0) as [->|Hx]; cbn [negb].
  - unfold proc_pmp_load. see.
    + cbn. pose proof (fget_range pmp_slot (v_cap v c) eq_refl). config_bounds.
      solve_cap_wf. rewrite Z.mod_small by (cbn; lia). lia.
    + by apply HQ.
  - see. by destruct x; [..|apply HQ|apply HQ].
Qed.

Lemma see_cap_pmp_unload s v c Q :
  sees s v -> in_table c ->
  (forall s', sees s' (a_pmp_unload c v).2 -> Q (a_pmp_unload c v).1 s') ->
  wp (cap_pmp_unload c) Q s.
Proof.
  intros Hs Hc HQ. unfold cap_pmp_unload, a_pmp_unload, v_unload in *.
  see. wp_cond_as (empty (v_cap v c)).
  destruct (empty (v_cap v c)); [see; by apply HQ|]. unfold pmp_loaded in *.
  destruct (_ || _) eqn:Eb.
  - see. destruct (Z.eqb_spec (v_cap v c)⟦cap_type⟧ CAPTY_PMP); cbn in *; [|by apply HQ].
    rewrite Eb in HQ. by apply HQ.
  - breflect. destruct Eb as [Ek Eu]. rewrite Ek in HQ. cbn [Z.eqb Pos.eqb capty andb] in HQ.
    rewrite (proj2 (Z.eqb_neq _ _) Eu) in HQ. cbn [negb] in HQ.
    see_step. eapply see_unload; [done|see_side|done..|]. intros s1 Hs1. see; [|by apply HQ].
    config_bounds. solve_cap_wf. rewrite Z.mod_0_l by lia. lia.
Qed.
End Refinement.
