(* ===== verification/Steps.v ===== *)
(** * The kernel as a transition system on views

    The capability operations as labels with their effect, who may perform
    them, and the steps a system call is made of: authorised operations and
    steps that leave capabilities, schedule and PMP registers alone.  The
    handlers of [Syscall] are proved to be sequences of such steps; what every
    step preserves is then an invariant of the kernel. *)

From S2P Require Import Prelude Config CapTypes CapTable CapList KState Proc Sched.
From S2P Require Import Channel CapOps CapPmp Invariant View Spec Refine.

Inductive cap_op :=
| OpMove (src dst : cte_t)
| OpDelete (c : cte_t)
| OpRevoke (parent child : cte_t)
| OpDerive (src dst : cte_t) (k : cap_t)
| OpLoad (c : cte_t) (slot : Z)
| OpUnload (c : cte_t).

Section Steps.
Context `{C : Config}.

Definition exec (o : cap_op) (v : view) : err_t * view :=
  match o with
  | OpMove src dst => a_move src dst v
  | OpDelete c => a_delete c v
  | OpRevoke parent child => a_revoke parent child v
  | OpDerive src dst k => a_derive src dst k v
  | OpLoad c slot => a_pmp_load c slot v
  | OpUnload c => a_pmp_unload c v
  end.

(** The conditions the kernel establishes before it performs an operation. *)
Definition op_ok (o : cap_op) (v : view) : Prop :=
  match o with
  | OpMove src dst => in_table src /\ in_table dst
  | OpDelete c => in_table c
  | OpRevoke parent child =>
      in_table parent /\ child_of v parent child
  | OpDerive src dst k =>
      in_table src /\ in_table dst /\ word_ok k = true /\ cap_is_valid k = true
  | OpLoad c slot => in_table c /\ 0 <= slot < S3K_PMP_CNT
  | OpUnload c => in_table c
  end.

(** Process [p] holds a monitor capability for the suspended process [q]. *)
Definition monitors (v : view) (p q : Z) : Prop :=
  exists mon, in_table mon /\ cte_pid mon = p /\
    (v_cap v mon)⟦cap_type⟧ = CAPTY_MONITOR /\
    (v_cap v mon)⟦mon_mrk⟧ <= q < (v_cap v mon)⟦mon_end⟧ /\
    p_state (v_proc v q) = PSF_SUSPENDED.

Definition controls (v : view) (p : Z) (c : cte_t) : Prop :=
  cte_pid c = p \/ monitors v p (cte_pid c).

(** A receiver registered entry [c] as its buffer. *)
Definition offered (v : view) (c : cte_t) : Prop :=
  exists i, 0 <= i < S3K_CHAN_CNT /\ ch_cap_buf (v_chan v i) = Some c.

(** The operations process [p] may cause. *)
Definition authorised (v : view) (p : Z) (o : cap_op) : Prop :=
  match o with
  | OpMove src dst =>
      (controls v p src /\ controls v p dst) \/ (cte_pid src = p /\ offered v dst)
  | OpDelete c => cte_pid c = p
  | OpRevoke parent _ => cte_pid parent = p
  | OpDerive src dst _ => cte_pid src = p /\ cte_pid dst = p
  | OpLoad c _ | OpUnload c => controls v p c
  end.

(** The protection state: capabilities, schedule, PMP registers. *)
Definition same_pmp (x x' : proc_t) : Prop :=
  p_pmpcfg x' = p_pmpcfg x /\ p_pmpaddr x' = p_pmpaddr x.

Definition frame (v v' : view) : Prop :=
  v_cap v' = v_cap v /\ v_list v' = v_list v /\ v_lane v' = v_lane v /\
  forall q, same_pmp (v_proc v q) (v_proc v' q).

Inductive kstep (p : Z) (v : view) : view -> Prop :=
| k_op o : op_ok o v -> authorised v p o -> kstep p v (exec o v).2
| k_frame v' : frame v v' -> kstep p v v'.

Definition ksteps (p : Z) : relation view := rtc (kstep p).

(** The part of the state no capability operation touches. *)
Definition same_run (x x' : proc_t) : Prop :=
  p_state x' = p_state x /\ p_regs x' = p_regs x /\ p_timeout x' = p_timeout x /\
  p_pid x' = p_pid x.

Definition procs_same (v v' : view) : Prop :=
  forall q, same_run (v_proc v q) (v_proc v' q).
Definition runs_same (v v' : view) : Prop := v_hw v' = v_hw v /\ procs_same v v'.
End Steps.

Create HintDb runs.

Section StepFacts.
Context `{C : Config} {Cok : ConfigOk C}.

#[global] Instance same_run_preorder : PreOrder same_run.
Proof.
  split; [done|]. intros x y z (?&?&?&?) (?&?&?&?). repeat split; congruence.
Qed.

#[global] Instance procs_same_preorder : PreOrder procs_same.
Proof. split; [done|]. intros u v w H1 H2 q. etrans; [apply H1|apply H2]. Qed.

#[global] Instance runs_same_preorder : PreOrder runs_same.
Proof.
  split; [done|]. intros u v w [H1 H2] [H3 H4].
  split; [congruence|by etrans].
Qed.

#[global] Instance frame_preorder : PreOrder frame.
Proof.
  split; [done|]. intros u v w (E1 & E2 & E3 & E4) (F1 & F2 & F3 & F4).
  split; [congruence|]. split; [congruence|]. split; [congruence|].
  intros q. destruct (E4 q), (F4 q). split; congruence.
Qed.

Lemma frame_set_proc v p x : same_pmp (v_proc v p) x -> frame v (v_set_proc p x v).
Proof.
  intros H. do 3 (split; [done|]). intros q. cbn. unfold fupd.
  by destruct (Z.eqb_spec q p) as [->|].
Qed.
Lemma frame_set_chan v i ch : frame v (v_set_chan i ch v).
Proof. done. Qed.
Lemma frame_set_hw v h : frame v (v_set_hw h v).
Proof. done. Qed.

(** Each update of a capability operation leaves the run state alone. *)
Lemma runs_table v v' cp l : runs_same v v' -> runs_same v (v_set_table cp l v').
Proof. done. Qed.
Lemma runs_lane v v' ln : runs_same v v' -> runs_same v (v_set_lane ln v').
Proof. done. Qed.
Lemma runs_chan v v' i ch : runs_same v v' -> runs_same v (v_set_chan i ch v').
Proof. done. Qed.
Lemma runs_proc v v' p x :
  runs_same v v' -> same_run (v_proc v' p) x -> runs_same v (v_set_proc p x v').
Proof.
  intros [H1 H2] H. split; [done|]. intros q. etrans; [apply H2|]. cbn. unfold fupd.
  by destruct (Z.eqb_spec q p) as [->|].
Qed.
Lemma runs_pmp_set v v' p slot cfg : runs_same v v' -> runs_same v (v_pmp_set p slot cfg v').
Proof. intros. by apply runs_proc. Qed.
Lemma runs_pmp_load v v' p slot cfg addr :
  runs_same v v' -> runs_same v (v_pmp_load p slot cfg addr v').
Proof. intros. apply runs_proc; [by apply runs_pmp_set|done]. Qed.
Lemma runs_unload v v' c : runs_same v v' -> runs_same v (v_unload c v').
Proof. unfold v_unload. case_match; [apply runs_pmp_set|done]. Qed.
Lemma runs_sock_clear v v' k p : runs_same v v' -> runs_same v (v_sock_clear k p v').
Proof. unfold v_sock_clear. by repeat case_match. Qed.
Hint Resolve runs_table runs_lane runs_pmp_set runs_pmp_load runs_unload runs_sock_clear : runs.
Hint Extern 0 (runs_same ?v ?v) => reflexivity : runs.

(** Capability operations leave the run state and the hardware alone. *)
Lemma exec_runs o v : runs_same v (exec o v).2.
Proof.
  destruct o as [src dst|c|parent child|src dst k|c slot|c]; cbn [exec].
  - unfold a_move, v_move, v_handover, v_replace, v_store, v_sched_update.
    repeat case_match; cbn [snd]; auto with runs.
  - unfold a_delete, v_delete, v_release, v_remove, v_sched_delete.
    repeat case_match; cbn [snd]; auto with runs.
  - unfold a_revoke, v_revoke_step, v_revoke_end, v_revoke_child, v_reclaim, v_store, v_remove,
      v_sched_update. repeat case_match; cbn [snd]; auto with runs.
  - unfold a_derive, v_derive, v_insert, v_store, v_sched_update.
    repeat case_match; cbn [snd]; auto with runs.
  - unfold a_pmp_load, v_store. repeat case_match; cbn [snd]; auto with runs.
  - unfold a_pmp_unload, v_store. repeat case_match; cbn [snd]; auto with runs.
Qed.
End StepFacts.
