(* ===== verification/Revoke.v ===== *)
(** * Revocation

    The loop of [cap_revoke]: every iteration is a revocation step of the same
    entry, it is interrupted by a pending timer interrupt, and it ends.  The last
    section gives each operation label of [Steps] the code that performs it. *)

From S2P Require Import Prelude Config CapTypes CapTable CapList KState Proc Sched.
From S2P Require Import Channel CapOps CapPmp Invariant View Spec Refine Steps.

Section Effects.
Context `{C : Config}.

(** What the effects on the resources leave alone. *)
Lemma cap_unload c v : v_cap (v_unload c v) = v_cap v.
Proof. unfold v_unload. by case_match. Qed.
Lemma list_unload c v : v_list (v_unload c v) = v_list v.
Proof. unfold v_unload. by case_match. Qed.
Lemma lane_unload c v : v_lane (v_unload c v) = v_lane v.
Proof. unfold v_unload. by case_match. Qed.
Lemma cap_sock_clear k p v : v_cap (v_sock_clear k p v) = v_cap v.
Proof. unfold v_sock_clear. by repeat case_match. Qed.
Lemma list_sock_clear k p v : v_list (v_sock_clear k p v) = v_list v.
Proof. unfold v_sock_clear. by repeat case_match. Qed.
Lemma lane_sock_clear k p v : v_lane (v_sock_clear k p v) = v_lane v.
Proof. unfold v_sock_clear. by repeat case_match. Qed.
Lemma proc_sock_clear k p v : v_proc (v_sock_clear k p v) = v_proc v.
Proof. unfold v_sock_clear. by repeat case_match. Qed.
Lemma cap_reclaim c from v : v_cap (v_reclaim c from v) = v_cap v.
Proof. unfold v_reclaim. by case_match. Qed.
Lemma list_reclaim c from v : v_list (v_reclaim c from v) = v_list v.
Proof. unfold v_reclaim. by case_match. Qed.
Lemma proc_reclaim c from v : v_proc (v_reclaim c from v) = v_proc v.
Proof. unfold v_reclaim. by case_match. Qed.
Lemma cap_revoke_child c v : v_cap (v_revoke_child c v) = v_cap v.
Proof. unfold v_revoke_child. case_match; [apply cap_sock_clear|apply cap_unload]. Qed.
Lemma list_revoke_child c v : v_list (v_revoke_child c v) = v_list v.
Proof. unfold v_revoke_child. case_match; [apply list_sock_clear|apply list_unload]. Qed.
Lemma cap_release c v : v_cap (v_release c v) = v_cap v.
Proof. unfold v_release. repeat case_match; [done|apply cap_sock_clear|apply cap_unload]. Qed.
Lemma list_release c v : v_list (v_release c v) = v_list v.
Proof. unfold v_release. repeat case_match; [done|apply list_sock_clear|apply list_unload]. Qed.
End Effects.

#[export] Hint Rewrite @cap_unload @list_unload @lane_unload @cap_sock_clear @list_sock_clear
  @lane_sock_clear @proc_sock_clear @cap_reclaim @list_reclaim @proc_reclaim
  @cap_revoke_child @list_revoke_child @cap_release @list_release : s3k.

Section Loop.
Context `{C : Config} {Cok : ConfigOk C}.

(** The timer interrupt is pending from the [n]-th device access on. *)
Definition fires (h : hw_t) (n : nat) : Prop :=
  forall m, (tick h + n <= m)%nat -> Z.land (mip h m) 128 <> 0.

Lemma fires_tick h n : fires h n -> fires (hw_tick h) (n - 1).
Proof. intros H m Hm. apply H. cbn in Hm. lia. Qed.

Lemma fires_later h h' n : later h h' -> fires h n -> fires h' n.
Proof. intros [E1 _ E3 _ _ _] H m Hm. rewrite E1. apply H. lia. Qed.

Lemma fires_now h : fires h 0 -> negb (Z.land (mip h (tick h)) 128 =? 0) = true.
Proof. intros H. apply negb_true_iff, Z.eqb_neq, H. lia. Qed.

(** The marks keep the type. *)
Lemma revoke_mark_type pk k pk' : revoke_mark pk k = Some pk' -> pk'⟦cap_type⟧ = pk⟦cap_type⟧.
Proof.
  unfold revoke_mark. repeat case_match; intros [= <-]; by autorewrite with fields.
Qed.

Lemma revoke_reset_type pk pk' : revoke_reset pk = Some pk' -> pk'⟦cap_type⟧ = pk⟦cap_type⟧.
Proof.
  unfold revoke_reset. repeat case_match; intros [= <-]; by autorewrite with fields.
Qed.

(** Only a socket deletes itself, when it is alone. *)
Lemma revocable_self pk :
  revocable pk pk = true -> revoke_mark pk pk = None -> pk⟦cap_type⟧ = CAPTY_SOCKET.
Proof.
  unfold revocable, revoke_mark, mem_child, pmp_child, chan_child, server_child, client_child.
  repeat case_match; try done; breflect; intros; breflect; try tauto; try congruence.
  all: intuition (congruence || lia).
Qed.

Lemma a_revoke_type t v parent child :
  revoke_type t (v_cap v parent) ->
  revoke_type t (v_cap (a_revoke parent child v).2 parent).
Proof.
  intros Ht. unfold a_revoke. destruct (revocable _ _) eqn:Er; cbn [snd].
  - unfold v_revoke_step. destruct (revoke_mark _ _) as [pk'|] eqn:Em.
    + cbn. rewrite fupd_eq. unfold revoke_type in *. by rewrite (revoke_mark_type _ _ _ Em).
    + cbn. autorewrite with s3k. unfold fupd. destruct (Z.eqb_spec parent child) as [<-|]; [|done].
      right. split; [done|]. apply revocable_self in Er; [|done]. destruct Ht as [[E _]|[_ E]]; congruence.
  - unfold v_revoke_end. destruct (revoke_reset _) as [pk'|] eqn:Em.
    + cbn. rewrite fupd_eq. unfold revoke_type in *. by rewrite (revoke_reset_type _ _ Em).
    + by autorewrite with s3k.
Qed.

(** The timer interrupt is pending. *)
Definition pending (v : view) : bool := negb (Z.land (mip (v_hw v) (tick (v_hw v))) 128 =? 0).

(** What revoking the entry does: revocation steps until one of them is the last, or
    the timer interrupt is pending after a step. *)
Inductive revocation (parent : cte_t) (v : view) : err_t -> view -> Prop :=
| rv_last child : child_of v parent child -> (err_code (a_revoke parent child v).1 <? 0) = false ->
    revocation parent v (a_revoke parent child v).1 (a_revoke parent child v).2
| rv_stop child : child_of v parent child -> (err_code (a_revoke parent child v).1 <? 0) = true ->
    pending v = true ->
    revocation parent v (a_revoke parent child v).1 (v_set_hw (hw_tick (v_hw v)) (a_revoke parent child v).2)
| rv_next child e v' : child_of v parent child -> (err_code (a_revoke parent child v).1 <? 0) = true ->
    pending v = false ->
    revocation parent (v_set_hw (hw_tick (v_hw v)) (a_revoke parent child v).2) e v' -> revocation parent v e v'.

(** The result of [cap_revoke] and the view afterwards. *)
Definition revoked (c : cte_t) (v : view) (r : err_t * view) : Prop :=
  if empty (v_cap v c) then r = (ERR_EMPTY, v)
  else exists e v', revocation c v e v' /\ r = (if err_code e <? 0 then ERR_PREEMPTED else SUCCESS, v').

(** The steps are in the authority of the owner of the entry. *)
Lemma revocation_ksteps parent v e v' : in_table parent -> revocation parent v e v' ->
  ksteps (cte_pid parent) v v' /\ procs_same v v'.
Proof.
  intros Hp.
  assert (Hone : forall v child, child_of v parent child ->
    ksteps (cte_pid parent) v (a_revoke parent child v).2 /\ procs_same v (a_revoke parent child v).2).
  { intros v1 child Hch. split; [|apply (exec_runs (OpRevoke parent child) v1)].
    apply rtc_once. by apply (k_op (cte_pid parent) v1 (OpRevoke parent child)). }
  assert (Htick : forall v1 h, ksteps (cte_pid parent) v v1 -> ksteps (cte_pid parent) v (v_set_hw h v1))
    by (intros v1 h Hk; eapply rtc_r; [done|by apply k_frame]).
  induction 1 as [v child Hch _|v child Hch _ _|v child e v' Hch _ _ _ IH]; destruct (Hone v child Hch) as [Hk Hs].
  - done.
  - split; [|done]. eapply rtc_r; [done|]. by apply k_frame.
  - destruct IH as [IH1 IH2].
    { intros v1 h Hk1. eapply rtc_r; [done|by apply k_frame]. }
    split; [|by etrans]. etrans; [exact Hk|]. eapply rtc_l; [|exact IH1]. by apply k_frame.
Qed.

Lemma revoked_ksteps c v r : in_table c -> revoked c v r -> ksteps (cte_pid c) v r.2 /\ procs_same v r.2.
Proof.
  intros Hc. unfold revoked. destruct (empty _); [intros ->; split; [apply rtc_refl|done]|].
  intros (e & v' & Hr & ->). by eapply revocation_ksteps.
Qed.

(** The loop: it ends when the timer fires at the latest.  Without that it may run
    out of fuel. *)
Lemma see_revoke_loop E fuel : forall n s v t parent Q,
  sees s v -> in_table parent -> revoke_type t (v_cap v parent) ->
  E OutOfFuel \/ fires (v_hw v) n /\ (n < fuel)%nat ->
  (forall e s' v', sees s' v' -> revocation parent v e v' -> Q e s') ->
  wpe E (cap_revoke_loop fuel t parent) Q s.
Proof.
  induction fuel as [|fuel IH]; intros n s v t parent Q Hs Hp Ht Hf HQ; [destruct Hf as [?|[_ ?]]; [done|lia]|].
  cbn [cap_revoke_loop]. apply wpe_bind, wpe_wp. see_step.
  apply (wpe_assoc _ _ (fun h => h parent (v_cap v parent))), wpe_bind, wpe_wp.
  eapply see_revoke_step; [done..|]. intros child s1 Hch Hs1.
  pose proof (exec_runs (OpRevoke parent child) v) as [Hhw _]. cbn [exec] in *.
  destruct (_ <? 0) eqn:Ee; [|apply wpe_ret; by eapply HQ, rv_last].
  apply wpe_bind, wpe_wp. see_step. rewrite Hhw in *. fold (pending v).
  destruct (pending v) eqn:Ep; cbn [negb].
  - apply wpe_ret. eapply HQ; [done|]. by apply rv_stop.
  - eapply (IH (n - 1)%nat); [exact Hs0|done|by apply a_revoke_type| |].
    + destruct Hf as [?|[Hf Hn]]; [by left|right]. destruct n as [|n]; [unfold pending in Ep; by rewrite (fires_now _ Hf) in Ep|].
      split; [|lia]. apply fires_tick in Hf. by replace (S n - 1)%nat with n in * by lia.
    + intros e s' v' Hs' Hk. eapply HQ; [done|]. by eapply rv_next.
Qed.

Lemma see_revoked E fuel n s v c Q :
  sees s v -> in_table c -> E OutOfFuel \/ fires (v_hw v) n /\ (n < fuel)%nat ->
  (forall r s', revoked c v r -> sees s' r.2 -> Q r.1 s') -> wpe E (cap_revoke fuel c) Q s.
Proof.
  intros Hs Hc Hf HQ. unfold cap_revoke, revoked in *. apply wpe_bind, wpe_wp. see.
  destruct (Z.eqb_spec (v_cap v c)⟦cap_type⟧ CAPTY_NONE) as [E0|E0].
  - apply wpe_ret. apply (HQ (ERR_EMPTY, v)); [|done]. unfold empty. by rewrite E0.
  - apply wpe_bind. eapply see_revoke_loop; [done..|by left|done|]. intros e s' v' Hs' Hr. apply wpe_ret.
    apply (HQ (_, v')); [|done]. unfold empty. apply Z.eqb_neq in E0. change (_ =? 0) with ((v_cap v c)⟦cap_type⟧ =? CAPTY_NONE). rewrite E0. eauto.
Qed.

Lemma see_cap_revoke E fuel n s v p c Q :
  sees s v -> in_table c -> cte_pid c = p -> E OutOfFuel \/ fires (v_hw v) n /\ (n < fuel)%nat ->
  (forall e s' v', sees s' v' -> ksteps p v v' -> procs_same v v' -> Q e s') ->
  wpe E (cap_revoke fuel c) Q s.
Proof.
  intros Hs Hc <- Hf HQ. eapply see_revoked; [done..|]. intros [e v'] s' Hr Hs'.
  destruct (revoked_ksteps _ _ _ Hc Hr). by eapply HQ.
Qed.
End Loop.

(** ** The code behind an operation *)

Section Run.
Context `{C : Config} {Cok : ConfigOk C}.
Implicit Types (v : view) (c : cte_t).

(** The function of [cap_ops.c] or [cap_pmp.c] behind an operation. *)
Definition run_op (o : cap_op) : K err_t :=
  match o with
  | OpMove src dst => cap_move src dst
  | OpDelete c => cap_delete c
  | OpRevoke parent _ =>
      let* k := on_ct (cte_cap parent) in
      let* h := handler_at revoke_handlers k⟦cap_type⟧ in h parent k
  | OpDerive src dst k => cap_derive src dst k
  | OpLoad c slot => cap_pmp_load c slot
  | OpUnload c => cap_pmp_unload c
  end.

(** A revocation is of an occupied entry. *)
Definition revokes_occupied (o : cap_op) v : Prop :=
  match o with OpRevoke parent _ => empty (v_cap v parent) = false | _ => True end.

Lemma child_unique s v l parent c c' :
  sees s v -> v_list v = Some l -> in_table parent -> empty (v_cap v parent) = false ->
  child_of v parent c -> child_of v parent c' -> c = c'.
Proof.
  intros Hs El Hp He [_ H] [_ H']. assert (parent ∈ l).
  { apply (sees_occupied s v Hs _ _ El). split; [done|]. unfold empty in He. by breflect. }
  by rewrite (H l), (H' l).
Qed.

Lemma see_run_op s v o l Q :
  sees s v -> v_list v = Some l -> op_ok o v -> revokes_occupied o v ->
  (forall s', sees s' (exec o v).2 -> Q (exec o v).1 s') -> wp (run_op o) Q s.
Proof.
  intros Hs El Hok Hocc HQ.
  destruct o as [src dst|c|parent child|src dst k|c slot|c]; cbn [exec op_ok run_op] in *.
  - destruct Hok. by eapply see_cap_move.
  - by eapply see_cap_delete.
  - destruct Hok as [Hp Hc]. do 2 see_step.
    eapply see_revoke_step; [done|done| |].
    + left. split; [done|]. cbn [revokes_occupied] in Hocc. unfold empty in Hocc. by breflect.
    + intros child' s' Hc'. assert (child' = child) as -> by (by eapply child_unique). apply HQ.
  - destruct Hok as (? & ? & ? & ?). by eapply see_cap_derive.
  - destruct Hok as [Hc Hslot]. config_bounds.
    assert (E : u8 slot = slot) by (apply Z.mod_small; lia).
    eapply see_cap_pmp_load; [done|done|lia|]. by rewrite E.
  - by eapply see_cap_pmp_unload.
Qed.
End Run.
