(* ===== verification/IpcSafe.v ===== *)
(** * IPC is safe

    The operations of [kernel/src/cap_ipc.c] run without a fault from every
    well-formed state in which the calling process is busy: no assertion fails,
    no null receiver or buffer is used.  They move at most capabilities of the
    caller, into buffers that a receiver registered, and name as the next
    process one that they made busy. *)

From S2P Require Import Prelude Config CapTypes CapTable CapList KState Proc Sched.
From S2P Require Import Channel CapOps CapPmp CapIpc Invariant View Spec Refine Steps.
From S2P Require Import Revoke.

Section States.
Context `{C : Config} {Cok : ConfigOk C}.

(** The states of the process a hart runs. *)
Definition running (v : view) (p : Z) : Prop :=
  p_state (v_proc v p) = PSF_BUSY \/
  p_state (v_proc v p) = Z.lor PSF_BUSY PSF_SUSPENDED.

Definition busy (v : view) (p : Z) : Prop := Z.land (p_state (v_proc v p)) PSF_BUSY <> 0.

Lemma running_busy v p : running v p -> busy v p.
Proof. unfold running, busy. by intros [-> | ->]. Qed.

Lemma blocked_on_eq chan : 0 <= chan < 2 ^ 16 -> blocked_on chan = 2 + chan * 2 ^ 48.
Proof.
  intros Hc. unfold blocked_on, u16. rewrite (Z.mod_small chan) by lia.
  unfold u64. rewrite Z.shiftl_mul_pow2, Z.mod_small by lia.
  assert (Hd : Z.land PSF_BLOCKED (chan * 2 ^ 48) = 0).
  { apply Z.bits_inj'. intros n Hn. rewrite Z.land_spec, Z.bits_0, <- Z.shiftl_mul_pow2 by lia.
    rewrite Z.shiftl_spec by lia. destruct (Z.ltb_spec n 48).
    - rewrite (Z.testbit_neg_r chan) by lia. apply andb_false_r.
    - rewrite (testbit_high PSF_BLOCKED 2); [done|lia|unfold PSF_BLOCKED; lia|lia]. }
  rewrite <- Z.lxor_lor by done. rewrite <- Z.add_nocarry_lxor by done. done.
Qed.

Lemma blocked_not_running v p chan : 0 <= chan < 2 ^ 16 ->
  p_state (v_proc v p) = blocked_on chan -> ~ running v p.
Proof.
  intros Hc E. unfold running. rewrite E, blocked_on_eq by done. unfold PSF_BUSY.
  change (Z.lor 1 PSF_SUSPENDED) with 5. lia.
Qed.


Lemma lor_busy x : Z.land (Z.lor x PSF_BUSY) PSF_BUSY <> 0.
Proof.
  intros E. apply (f_equal (fun y => Z.testbit y 0)) in E.
  rewrite Z.land_spec, Z.lor_spec, orb_true_r in E. done.
Qed.

(** Steps that change neither the protection state, nor the state of [p], nor
    the registered buffers. *)
Record quiet (p : Z) (v v' : view) : Prop := {
  quiet_frame : frame v v';
  quiet_state : p_state (v_proc v' p) = p_state (v_proc v p);
  quiet_buf : forall i, ch_cap_buf (v_chan v' i) = ch_cap_buf (v_chan v i)
}.

#[global] Instance quiet_preorder p : PreOrder (quiet p).
Proof.
  split; [by split|]. intros u v w [] []. split; [by etrans|congruence|congruence].
Qed.

Lemma quiet_hw p v v' h : quiet p v v' -> quiet p v (v_set_hw h v').
Proof. intros []. by split. Qed.

Lemma quiet_chan p v v' i ch :
  quiet p v v' -> ch_cap_buf ch = ch_cap_buf (v_chan v' i) -> quiet p v (v_set_chan i ch v').
Proof.
  intros [] E. split; [done|done|]. intros j. cbn. unfold fupd.
  destruct (Z.eqb_spec j i) as [->|]; congruence.
Qed.

Lemma quiet_proc p v v' q x :
  quiet p v v' -> same_pmp (v_proc v' q) x ->
  (q = p -> p_state x = p_state (v_proc v' q)) -> quiet p v (v_set_proc q x v').
Proof.
  intros [] Hx Hs. split; [etrans; [done|by apply frame_set_proc]| |done].
  cbn. unfold fupd. destruct (Z.eqb_spec p q) as [->|]; [|done]. rewrite Hs; congruence.
Qed.

Lemma quiet_ksteps p v v' : quiet p v v' -> ksteps p v v'.
Proof. intros []. apply rtc_once. by apply k_frame. Qed.

Lemma quiet_running p v v' : quiet p v v' -> running v p -> running v' p.
Proof. intros [_ E _]. unfold running. by rewrite E. Qed.
End States.

(** Discharging [quiet]. *)
Ltac quiet :=
  first
  [ reflexivity | eassumption
  | apply quiet_hw; quiet
  | apply quiet_chan; [quiet|reflexivity]
  | apply quiet_proc; [quiet|done|first [done | by intros -> | congruence]] ].

Section Primitives.
Context `{C : Config} {Cok : ConfigOk C}.

Lemma see_state_cas s v q expected desired Q :
  sees s v -> valid_proc q -> p_state (v_proc v q) = expected ->
  (forall s', sees s' (v_set_proc q (set_state desired (v_proc v q)) v) -> Q true s') ->
  wp (state_cas q expected desired) Q s.
Proof.
  intros Hs Hq E HQ. unfold state_cas. see. rewrite E, Z.eqb_refl. see. by apply HQ.
Qed.

Lemma see_ipc_acquire s v p q chan Q :
  sees s v -> running v p -> valid_proc q -> 0 <= chan < 2 ^ 16 ->
  (forall s' v', sees s' v' -> quiet p v v' -> Q false s') ->
  (forall s' v', sees s' v' -> quiet p v v' -> q <> p ->
     p_state (v_proc v' q) = PSF_BUSY -> Q true s') ->
  wp (proc_ipc_acquire q chan) Q s.
Proof.
  intros Hs Hrun Hq Hc HF HT. unfold proc_ipc_acquire. see.
  destruct (Z.eqb_spec (p_state (v_proc v q)) (blocked_on chan)) as [E|]; cbn [negb];
    [|see; eapply HF; [done|quiet]].
  assert (Hne : q <> p).
  { intros ->. eapply blocked_not_running; [exact Hc|done|done]. }
  see. destruct (_ <=? _); [see; eapply HF; [done|quiet]|].
  assert (HT' : forall s', sees s' (v_set_proc q (set_state PSF_BUSY (v_proc v q))
                  (v_set_hw (hw_tick (v_hw v)) v)) -> Q true s').
  { intros s' Hs'. eapply HT; [done|quiet|done|]. cbn. by rewrite fupd_eq. }
  destruct SMP.
  - eapply see_state_cas; [done..|]. done.
  - see. by apply HT'.
Qed.

(** A process that [proc_acquire] takes. *)
Definition ready (v : view) (q : Z) : bool :=
  (Z.land (p_state (v_proc v q)) (Z.lor PSF_BUSY PSF_SUSPENDED) =? 0)
  && (p_timeout (v_proc v q) <=? u64 (mtime (v_hw v) (tick (v_hw v)))).

(** [proc_acquire], in full. *)
Lemma see_proc_acquire s v q Q :
  sees s v -> valid_proc q ->
  (forall s' v', ready v q = false -> sees s' v' -> ticked v v' -> Q false s') ->
  (forall s', ready v q = true ->
     sees s' (v_set_proc q (set_state PSF_BUSY (v_proc v q))
                (v_set_hw (hw_tick (v_hw v)) v)) -> Q true s') ->
  wp (proc_acquire q) Q s.
Proof.
  intros Hs Hq HF HT. unfold proc_acquire, ready in *. see.
  destruct (Z.eqb_spec (Z.land (p_state (v_proc v q)) (Z.lor PSF_BUSY PSF_SUSPENDED)) 0)
    as [E|]; cbn [negb andb] in *; [|see; by eapply HF].
  see. rewrite Z.ltb_antisym. cbn [v_proc v_set_hw].
  destruct (p_timeout (v_proc v q) <=? u64 (mtime (v_hw v) (tick (v_hw v)))); cbn [negb];
    [|see; eapply HF; [done|done|apply ticked_tick]].
  destruct SMP.
  - eapply see_state_cas; [done..|]. intros s' Hs'. by apply HT.
  - see. by apply HT.
Qed.

Lemma quiet_ticked p v v' : ticked v v' -> quiet p v v'.
Proof. intros (h & _ & ->). by apply quiet_hw. Qed.

Lemma see_acquire s v p q Q :
  sees s v -> running v p -> valid_proc q ->
  (forall s' v', sees s' v' -> quiet p v v' -> Q false s') ->
  (forall s' v', sees s' v' -> quiet p v v' -> q <> p ->
     p_state (v_proc v' q) = PSF_BUSY -> Q true s') ->
  wp (proc_acquire q) Q s.
Proof.
  intros Hs Hrun Hq HF HT. eapply see_proc_acquire; [done|done| |].
  - intros s' v' _ Hs' Ht. eapply HF; [done|by apply quiet_ticked].
  - intros s' E Hs'. unfold ready in E. breflect. destruct E as [E _]. assert (Hne : q <> p).
    { intros ->. destruct Hrun as [Hr|Hr]; by rewrite Hr in E. }
    eapply HT; [done|quiet|done|]. cbn. by rewrite fupd_eq.
Qed.

Lemma see_release s v q Q :
  sees s v -> valid_proc q -> busy v q ->
  (forall s' x, sees s' (v_set_proc q (set_state x (v_proc v q)) v) -> Q tt s') ->
  wp (proc_release q) Q s.
Proof.
  intros Hs Hq Hb HQ. unfold proc_release. see.
  apply wp_kassert; [by apply negb_true_iff, Z.eqb_neq|].
  destruct SMP; see; by eapply HQ.
Qed.

(** The states of the processes. *)
Definition states_same (v v' : view) : Prop :=
  forall q, p_state (v_proc v' q) = p_state (v_proc v q).

Lemma procs_states v v' : procs_same v v' -> states_same v v'.
Proof. intros H q. apply H. Qed.

(** Register writes: the protection state and the scheduling states stay. *)
Record regs_only (v v' : view) : Prop := {
  regs_frame : frame v v';
  regs_states : states_same v v';
  regs_chan : v_chan v' = v_chan v
}.

#[global] Instance regs_only_preorder : PreOrder regs_only.
Proof.
  split; [by split|]. intros u v w [? H1 ?] [? H2 ?].
  split; [by etrans| |congruence]. intros q. by rewrite H2.
Qed.

Lemma regs_set v v' p regs :
  regs_only v v' -> regs_only v (v_set_proc p (set_regs regs (v_proc v' p)) v').
Proof.
  intros [? H ?]. split; [etrans; [done|by apply frame_set_proc]| |done].
  intros q. cbn. unfold fupd. rewrite <- H. by destruct (Z.eqb_spec q p) as [->|].
Qed.

Lemma see_regs_set s v0 v p r x Q :
  sees s v -> regs_only v0 v -> valid_proc p -> 0 <= r < REG_CNT ->
  (forall s' v', sees s' v' -> regs_only v0 v' -> Q tt s') ->
  wp (reg_set p r x) Q s.
Proof.
  intros Hs Hr Hp Hreg HQ. see_step. eapply HQ; [done|]. by apply regs_set.
Qed.

Lemma wp_data {A} (l : list A) i Q (s : kstate) :
  0 <= i < zlen l -> (forall x, Q x s) -> wp (array_get l i) Q s.
Proof. intros Hi HQ. destruct (lookupZ_lt l i Hi) as [x Hx]. by eapply wp_array_get. Qed.

Lemma see_deliver s v p cap msg buf recv Q :
  sees s v -> valid_proc recv -> in_table (m_cap_buf msg) -> cte_pid (m_cap_buf msg) = p ->
  zlen (m_data msg) = 4 -> in_table buf -> offered v buf ->
  (forall s' v', sees s' v' -> ksteps p v v' -> states_same v v' -> Q tt s') ->
  wp (deliver cap msg (Some buf) recv) Q s.
Proof.
  intros Hs Hv Hm Hpid Hlen Hb Hoff HQ. unfold deliver.
  apply wp_bind. eapply (see_regs_set s v); [done..|]. intros s1 v1 Hs1 R1.
  apply wp_bind. eapply (see_regs_set s1 v); [done..|]. intros s2 v2 Hs2 R2.
  apply wp_bind, wp_data; [lia|]. intros d0.
  apply wp_bind. eapply (see_regs_set s2 v); [done..|]. intros s3 v3 Hs3 R3.
  apply wp_bind, wp_data; [lia|]. intros d1.
  apply wp_bind. eapply (see_regs_set s3 v); [done..|]. intros s4 v4 Hs4 R4.
  apply wp_bind, wp_data; [lia|]. intros d2.
  apply wp_bind. eapply (see_regs_set s4 v); [done..|]. intros s5 v5 Hs5 R5.
  apply wp_bind, wp_data; [lia|]. intros d3.
  apply wp_bind. eapply (see_regs_set s5 v); [done..|]. intros s6 v6 Hs6 R6.
  destruct (m_send_cap msg).
  - do 2 see_step. apply wp_bind. eapply (see_regs_set s6 v); [done..|]. intros s7 v7 Hs7 [Fr Hst Ech].
    apply wp_bind. eapply see_cap_move; [done..|]. intros s8 Hs8. see.
    eapply HQ; [done| |].
    + eapply rtc_l; [by apply k_frame|]. apply rtc_once.
      apply (k_op p v7 (OpMove (m_cap_buf msg) buf)); [done|]. right. split; [done|].
      destruct Hoff as (i & Hi & Ei). exists i. by rewrite Ech.
    + intros q. rewrite <- Hst. apply (exec_runs (OpMove (m_cap_buf msg) buf)).
  - eapply (see_regs_set s6 v); [done..|]. intros s7 v7 Hs7 [Fr Hst Ech].
    eapply HQ; [done| |done]. apply rtc_once. by apply k_frame.
Qed.
End Primitives.

Section Ipc.
Context `{C : Config} {Cok : ConfigOk C}.

(** A message whose buffer is an entry of process [p]. *)
Definition msg_ok (p : Z) (msg : ipc_msg) : Prop :=
  in_table (m_cap_buf msg) /\ cte_pid (m_cap_buf msg) = p /\ zlen (m_data msg) = 4.

Definition socket (cap : cap_t) : Prop :=
  cap_wf cap = true /\ cap⟦cap_type⟧ = CAPTY_SOCKET.

(** The process to run next: none, the caller, or one made busy. *)
Definition next_ok (p : Z) (v : view) (next : option Z) : Prop :=
  match next with
  | None => True
  | Some n => n = p \/ (n <> p /\ valid_proc n /\ p_state (v_proc v n) = PSF_BUSY)
  end.

Lemma socket_chan cap : socket cap -> 0 <= cap⟦sock_chan⟧ < S3K_CHAN_CNT.
Proof. intros [H1 H2]. by apply (cap_wf_socket cap). Qed.

Lemma chan_16bit c : 0 <= c < S3K_CHAN_CNT -> 0 <= c < 2 ^ 16.
Proof. config_bounds. lia. Qed.

(** The receiver of a message was registered with a buffer. *)
Lemma see_send_target s v p cap ct timeout Q :
  sees s v -> socket cap ->
  (forall s' v', sees s' v' -> quiet p v v' -> Q None s') ->
  (forall s' v' recv b, sees s' v' -> quiet p v v' -> valid_proc recv ->
     ch_cap_buf (v_chan v cap⟦sock_chan⟧) = Some b -> in_table b -> Q (Some recv) s') ->
  wp (send_target cap ct timeout) Q s.
Proof.
  intros Hs Hk HN HS. pose proof (socket_chan _ Hk) as Hc. unfold send_target. see.
  destruct H as (H1 & H2 & H3 & H4).
  destruct (ch_cap_buf (v_chan v cap⟦sock_chan⟧)) as [b|] eqn:Eb; cycle 1.
  { destruct (H4 eq_refl) as [-> ->]. destruct (_ =? 0); see; by eapply HN. }
  destruct (_ =? 0).
  - destruct (ch_client (v_chan v cap⟦sock_chan⟧)) as [recv|]; [|see; by eapply HN]. see.
    eapply HS; [done|quiet|by apply H2|done|by apply H3].
  - destruct (ch_server (v_chan v cap⟦sock_chan⟧)) as [recv|]; [|see; by eapply HN].
    assert (valid_proc recv) by by apply H1.
    assert (HQ : Q (Some recv) s) by (eapply HS; [done|done|done|done|by apply H3]).
    destruct (_ =? IPC_YIELD); [|by see]. see. destruct (_ <=? _); see; [by eapply HN|done].
Qed.

Lemma see_do_send s v p cap msg Q :
  sees s v -> running v p -> valid_proc p -> socket cap -> msg_ok p msg ->
  (forall e next s' v', sees s' v' -> ksteps p v v' ->
     p_state (v_proc v' p) = p_state (v_proc v p) -> next_ok p v' next ->
     (e <> SUCCESS -> next = Some p) -> Q (e, next) s') ->
  wp (do_send cap msg p) Q s.
Proof.
  intros Hs Hrun Hp Hk (M1 & M2 & M3) HQ. pose proof (socket_chan _ Hk) as Hc.
  unfold do_send. do 7 see_step. eapply see_timeout_get; [done|]. intros timeout.
  set (v1 := v_set_hw _ v) in *. assert (quiet p v v1) by quiet.
  destruct (_ <=? _).
  { see. eapply HQ; [done|by apply quiet_ksteps|done|by left|done]. }
  apply wp_bind. eapply (see_send_target _ v1 p); [done|done| |].
  { intros s2 v2 Hs2 Q2. see. assert (quiet p v v2) as Hq by by etrans.
    eapply HQ; [done|by apply quiet_ksteps|by apply Hq|by left|done]. }
  intros s2 v2 recv b Hs2 Q2 Hrecv Eb Hb. assert (Hq2 : quiet p v v2) by by etrans.
  apply wp_bind. eapply (see_ipc_acquire _ v2 p);
    [done|by eapply quiet_running|done|by apply chan_16bit| |].
  { intros s3 v3 Hs3 Q3. see. assert (quiet p v v3) as Hq by by etrans.
    eapply HQ; [done|by apply quiet_ksteps|by apply Hq|by left|done]. }
  intros s3 v3 Hs3 Q3 Hne Hbusy. assert (Hq3 : quiet p v v3) by by etrans. cbn [negb].
  change (v_chan v1) with (v_chan v) in Eb. rewrite Eb.
  apply wp_bind. eapply (see_deliver _ v3 p); [done..| |].
  { exists cap⟦sock_chan⟧. split; [done|]. by rewrite (quiet_buf _ _ _ Hq3). }
  intros s4 v4 Hs4 K4 St4.
  assert (ksteps p v v4) by (etrans; [by apply quiet_ksteps|done]).
  assert (Est : p_state (v_proc v4 p) = p_state (v_proc v p)).
  { rewrite St4. by apply Hq3. }
  destruct Hk as [Hk1 Hk2]. destruct (cap_wf_socket _ Hk1 Hk2) as [_ Hmode].
  destruct (Z.eqb_spec cap⟦sock_mode⟧ IPC_YIELD) as [|Hny].
  - see. eapply HQ; [done| | | |done].
    + eapply rtc_r; [done|]. apply k_frame. by apply frame_set_proc.
    + cbn. rewrite fupd_ne; done.
    + right. split; [done|]. split; [done|]. cbn. rewrite fupd_eq. cbn. by rewrite St4.
  - destruct Hmode as [|Emode]; [done|]. rewrite Emode, Z.eqb_refl.
    do 2 see_step. apply wp_bind. eapply see_release; [done|done| |].
    { unfold busy. cbn. rewrite fupd_eq. cbn. by rewrite St4, Hbusy. }
    intros s5 x Hs5. see. eapply HQ; [done| | |by left|done].
    + etrans; [done|]. eapply rtc_l, rtc_once; apply k_frame, frame_set_proc; [done|].
      cbn. by rewrite fupd_eq.
    + cbn. by rewrite !fupd_ne.
Qed.

(** ** Receiving *)

Lemma chan_update_twice i f g s :
  bind (chan_update i f) (fun _ => chan_update i g) s = chan_update i (fun ch => g (f ch)) s.
Proof.
  unfold chan_update, chan_store, chan_load, bind, array_get.
  destruct (lookupZ (channels s) i) as [ch|] eqn:E; cbn; rewrite ?E; cbn; [|done].
  pose proof (lookupZ_Some_range _ _ _ E).
  rewrite lookupZ_insertZ_eq by done. cbn. rewrite lookupZ_insertZ_eq by done. cbn.
  unfold modify. cbn. by rewrite insertZ_insertZ.
Qed.

Lemma see_register s v i f g (k : unit -> K unit) Q :
  sees s v -> 0 <= i < S3K_CHAN_CNT -> chan_wf (g (f (v_chan v i))) ->
  (forall s', sees s' (v_set_chan i (g (f (v_chan v i))) v) -> wp (k tt) Q s') ->
  wp (do* chan_update i f in bind (chan_update i g) k) Q s.
Proof.
  intros Hs Hi Hw HQ. apply (wp_assoc _ (fun _ => chan_update i g)), wp_bind.
  eapply wp_ext; [apply chan_update_twice|].
  by apply (see_chan_update s v Hs i (fun ch => g (f ch))).
Qed.

Lemma see_ipc_wait s v p chan Q :
  sees s v -> valid_proc p -> p_state (v_proc v p) = PSF_BUSY ->
  (forall s', sees s' (v_set_proc p (set_state (Z.lor (blocked_on chan) PSF_BUSY)
                                       (v_proc v p)) v) -> Q tt s') ->
  wp (proc_ipc_wait p chan) Q s.
Proof.
  intros Hs Hp E HQ. unfold proc_ipc_wait. see.
  apply wp_kassert; [by apply Z.eqb_eq|]. see. by apply HQ.
Qed.

Lemma see_do_recv s v p cap buf Q :
  sees s v -> valid_proc p -> socket cap -> in_table buf ->
  p_state (v_proc v p) = PSF_BUSY ->
  (forall s' v', sees s' v' -> frame v v' -> busy v' p ->
     (forall q, q <> p -> p_state (v_proc v' q) = p_state (v_proc v q)) -> Q tt s') ->
  wp (do_recv cap buf p) Q s.
Proof.
  intros Hs Hp Hk Hb Hst HQ. pose proof (socket_chan _ Hk) as Hc. unfold do_recv.
  pose proof (sees_chan_wf _ _ Hs _ Hc) as (H1 & H2 & H3 & H4).
  assert (Hwait : forall v1 s1, sees s1 v1 -> frame v v1 -> states_same v v1 ->
    wp (proc_ipc_wait p cap⟦sock_chan⟧) Q s1).
  { intros v1 s1 Hs1 Hf Hss. eapply see_ipc_wait; [done|done|by rewrite Hss|].
    intros s2 Hs2. eapply HQ; [done| | |].
    - etrans; [done|by apply frame_set_proc].
    - unfold busy. cbn. rewrite fupd_eq. apply lor_busy.
    - intros q Hq. cbn. rewrite fupd_ne by done. apply Hss. }
  destruct (_ =? 0).
  - eapply see_register; [done|done| |].
    { split; [|split; [|split]]; cbn; [by intros ? [= <-]|done|by intros ? [= <-]|done]. }
    intros s1 Hs1. see. eapply Hwait; [done|by apply (frame_set_proc (v_set_chan _ _ v))|].
    intros q. cbn. unfold fupd. by destruct (Z.eqb_spec q p) as [->|].
  - eapply see_register; [done|done| |].
    { split; [|split; [|split]]; cbn; [done|by intros ? [= <-]|by intros ? [= <-]|done]. }
    intros s1 Hs1. see_step. destruct (_ =? IPC_NOYIELD).
    + see. eapply Hwait; [done|by apply (frame_set_proc (v_set_chan _ _ v))|].
      intros q. cbn. unfold fupd. by destruct (Z.eqb_spec q p) as [->|].
    + see_step. by eapply Hwait.
Qed.

(** ** Combined operations *)

(** What an IPC operation of process [p] leaves. *)
Definition ipc_post (p : Z) (v : view) (Q : err_t * option Z -> kstate -> Prop) : Prop :=
  forall e next s' v', sees s' v' -> ksteps p v v' -> busy v' p ->
    (next = Some p -> running v' p) -> next_ok p v' next -> Q (e, next) s'.

Lemma ipc_post_same p v s e Q :
  ipc_post p v Q -> sees s v -> running v p -> Q (e, Some p) s.
Proof.
  intros HQ Hs Hr. eapply HQ; [done|done|by apply running_busy|done|by left].
Qed.

Lemma running_same v v' p :
  p_state (v_proc v' p) = p_state (v_proc v p) -> running v p -> running v' p.
Proof. unfold running. by intros ->. Qed.

Lemma see_send_or_reply s v p cap msg perm Q :
  sees s v -> running v p -> valid_proc p -> socket cap -> msg_ok p msg ->
  ipc_post p v Q ->
  wp (if m_send_cap msg && negb (has_perm cap perm)
      then ret (ERR_INVALID_SOCKET, Some p) else do_send cap msg p) Q s.
Proof.
  intros Hs Hr Hp Hk Hm HQ. destruct (_ && _).
  - see. by eapply ipc_post_same.
  - eapply see_do_send; [done..|]. intros e next s' v' Hs' Hks Hst Hn _.
    assert (running v' p) by by eapply running_same.
    eapply HQ; [done|done|by apply running_busy|done|done].
Qed.

Lemma see_buffer_blocked s perm msg v p Q :
  sees s v -> msg_ok p msg -> (forall b, Q b s) -> wp (buffer_blocked perm msg) Q s.
Proof.
  intros Hs (M1 & _) HQ. unfold buffer_blocked. destruct perm; see; apply HQ.
Qed.

(** Sending, then receiving: the end of both combined operations. *)
Lemma see_recv_after s v p cap msg next Q v0 :
  sees s v -> ksteps p v0 v -> valid_proc p -> socket cap -> msg_ok p msg ->
  p_state (v_proc v p) = PSF_BUSY -> next_ok p v next -> ipc_post p v0 Q ->
  wp (do* do_recv cap (m_cap_buf msg) p in
      ret (ERR_TIMEOUT, if decide (next = Some p) then None else next)) Q s.
Proof.
  intros Hs Hks Hp Hk (M1 & _) Hst Hn HQ. apply wp_bind.
  eapply see_do_recv; [done..|]. intros s' v' Hs' Hf Hb Hq. see.
  eapply HQ; [done| |done| |].
  - eapply rtc_r; [done|]. by apply k_frame.
  - case_decide; [done|]. intros ->. done.
  - case_decide; [done|]. destruct next as [n|]; [|done]. destruct Hn as [->|(Hne & Hv & E)]; [done|].
    right. split; [done|]. split; [done|]. by rewrite Hq.
Qed.

Lemma see_replyrecv s v p cap msg Q :
  sees s v -> p_state (v_proc v p) = PSF_BUSY -> valid_proc p -> socket cap ->
  msg_ok p msg -> ipc_post p v Q -> wp (replyrecv cap msg p) Q s.
Proof.
  intros Hs Hst Hp Hk Hm HQ. assert (running v p) by by left.
  unfold replyrecv. see. apply wp_kassert; [by apply Z.eqb_eq|].
  destruct (_ && _); [see; by eapply ipc_post_same|].
  see_step. eapply see_buffer_blocked; [done..|]. intros [].
  { see; by eapply ipc_post_same. }
  see_step. eapply see_do_send; [done..|]. intros e next s1 v1 Hs1 K1 St1 Hn1 _. cbn [fst snd].
  destruct (decide (e = ERR_PREEMPTED)) as [->|He].
  { see. assert (running v1 p) by by eapply running_same.
    eapply HQ; [done|done|by apply running_busy|done|done]. }
  assert (Hend : forall s2 v2, sees s2 v2 -> ksteps p v v2 -> procs_same v1 v2 ->
    wp (do* do_recv cap (m_cap_buf msg) p in
        ret (ERR_TIMEOUT, if decide (next = Some p) then None else next)) Q s2).
  { intros s2 v2 Hs2 K2 P2. eapply see_recv_after; [done..| | |done].
    - by rewrite (procs_states _ _ P2), St1.
    - destruct next as [n|]; [|done]. cbn in *. by rewrite (procs_states _ _ P2). }
  apply wp_bind. destruct (decide (e = ERR_NO_RECEIVER)); [|see_step; by eapply Hend].
  destruct (m_send_cap msg); [|see_step; by eapply Hend].
  destruct Hm as (M1 & M2 & M3). apply wp_bind. eapply see_cap_delete; [done..|].
  intros s2 Hs2. see_step. eapply Hend; [done| |].
  - eapply rtc_r; [done|]. by apply (k_op p v1 (OpDelete (m_cap_buf msg))).
  - apply (exec_runs (OpDelete (m_cap_buf msg))).
Qed.

Lemma see_call s v p cap msg Q :
  sees s v -> p_state (v_proc v p) = PSF_BUSY -> valid_proc p -> socket cap ->
  msg_ok p msg -> ipc_post p v Q -> wp (call cap msg p) Q s.
Proof.
  intros Hs Hst Hp Hk Hm HQ. assert (running v p) by by left.
  unfold call. destruct (_ && _); [see; by eapply ipc_post_same|].
  see_step. eapply see_buffer_blocked; [done..|]. intros [].
  { see; by eapply ipc_post_same. }
  see_step. eapply see_do_send; [done..|]. intros e next s1 v1 Hs1 K1 St1 Hn1 _. cbn [fst snd].
  destruct (is_err e).
  - see. assert (running v1 p) by by eapply running_same.
    eapply HQ; [done|done|by apply running_busy|done|done].
  - eapply see_recv_after; [done..| |done|done]. by rewrite St1.
Qed.

(** ** Operations on socket capabilities *)

Lemma see_is_preempted s v p Q :
  sees s v -> valid_proc p -> running v p ->
  (Q true s) -> (p_state (v_proc v p) = PSF_BUSY -> Q false s) ->
  wp (is_preempted_by_suspend p) Q s.
Proof.
  intros Hs Hp Hr HT HF. unfold is_preempted_by_suspend. see.
  destruct Hr as [E|E]; rewrite E; cbn; [by apply HF|done].
Qed.

Lemma see_cap_sock_send s v p sock msg Q :
  sees s v -> running v p -> valid_proc p -> in_table sock -> msg_ok p msg ->
  ipc_post p v Q -> wp (cap_sock_send sock msg p) Q s.
Proof.
  intros Hs Hr Hp Hk Hm HQ. unfold cap_sock_send. see.
  destruct (_ =? CAPTY_NONE); [see; by eapply ipc_post_same|].
  destruct (Z.eqb_spec (v_cap v sock)⟦cap_type⟧ CAPTY_SOCKET) as [E|]; cbn [negb];
    [|see; by eapply ipc_post_same].
  see_step. eapply see_is_preempted; [done..| |].
  - see. eapply HQ; [done|done|by apply running_busy|done|done].
  - intros Hst. destruct (_ =? 0); by eapply see_send_or_reply.
Qed.

Lemma see_cap_sock_sendrecv s v p sock msg Q :
  sees s v -> running v p -> valid_proc p -> in_table sock -> msg_ok p msg ->
  ipc_post p v Q -> wp (cap_sock_sendrecv sock msg p) Q s.
Proof.
  intros Hs Hr Hp Hk Hm HQ. unfold cap_sock_sendrecv. see.
  destruct (_ =? CAPTY_NONE); [see; by eapply ipc_post_same|].
  destruct (Z.eqb_spec (v_cap v sock)⟦cap_type⟧ CAPTY_SOCKET) as [E|]; cbn [negb];
    [|see; by eapply ipc_post_same].
  see_step. eapply see_is_preempted; [done..| |].
  - see. eapply HQ; [done|done|by apply running_busy|done|done].
  - intros Hst. see. apply wp_kassert; [by apply Z.eqb_eq|].
    destruct (_ =? 0); [by eapply see_replyrecv|by eapply see_call].
Qed.

(** A client that waits, with its server made busy. *)
Lemma see_client_wait s v p chan buf Q :
  sees s v -> p_state (v_proc v p) = PSF_BUSY -> valid_proc p ->
  0 <= chan < S3K_CHAN_CNT -> in_table buf -> ipc_post p v Q ->
  wp (let* ch := chan_load chan in
      if bool_decide (ch_client ch = Some p) then
        match ch_server ch with
        | None => ret (ERR_TIMEOUT, Some p)
        | Some server =>
            let* ok := proc_acquire server in
            if negb ok then ret (ERR_TIMEOUT, Some p) else
            do* proc_ipc_wait p chan in
            do* chan_update chan (set_cap_buf (Some buf)) in
            let* n := proc_load p in
            do* proc_update server (set_timeout (p_timeout n)) in
            ret (ERR_TIMEOUT, Some server)
        end
      else ret (ERR_INVALID_STATE, Some p)) Q s.
Proof.
  intros Hs Hst Hp Hc Hb HQ. assert (running v p) as Hr by by left. see.
  case_bool_decide; [|see; by eapply ipc_post_same].
  destruct H as (H1 & H2 & H3 & H4).
  destruct (ch_server _) as [server|] eqn:Es; [|see; by eapply ipc_post_same].
  assert (Hv : valid_proc server) by by apply H1.
  see_step. eapply (see_acquire _ v p); [done..| |].
  { intros s1 v1 Hs1 Hq. see. assert (running v1 p) by by eapply quiet_running.
    eapply HQ; [done|by apply quiet_ksteps|by apply running_busy|done|by left]. }
  intros s1 v1 Hs1 Hq Hne Hbusy. cbn [negb]. apply wp_bind.
  eapply see_ipc_wait; [done|done|by rewrite (quiet_state _ _ _ Hq)|]. intros s2 Hs2.
  see.
  { intros (G1 & G2 & G3 & G4). split; [done|]. split; [done|].
    split; [by intros ? [= <-]|done]. }
  eapply HQ; [done| | |by intros [= ->]|].
  - etrans; [by apply quiet_ksteps|]. apply rtc_once, k_frame.
    do 3 (split; [done|]). intros q. cbn. unfold fupd. by repeat (case_match; breflect; subst).
  - unfold busy. cbn. rewrite fupd_ne, fupd_eq by done. apply lor_busy.
  - right. split; [done|]. split; [done|]. cbn. rewrite fupd_eq. cbn. by rewrite fupd_ne.
Qed.

Lemma see_cap_sock_recv s v p sock buf Q :
  sees s v -> running v p -> valid_proc p -> in_table sock -> in_table buf ->
  ipc_post p v Q -> wp (cap_sock_recv sock buf p) Q s.
Proof.
  intros Hs Hr Hp Hk Hb HQ. unfold cap_sock_recv. see.
  destruct (_ =? CAPTY_NONE); [see; by eapply ipc_post_same|].
  destruct (Z.eqb_spec (v_cap v sock)⟦cap_type⟧ CAPTY_SOCKET) as [E|]; cbn [negb];
    [|see; by eapply ipc_post_same].
  assert (Hsock : socket (v_cap v sock)) by done.
  see_step. apply (wp_mono _ (fun _ s' => s' = s)).
  { destruct (has_perm _ _); [|done]. see. done. }
  intros [] s' ->; [see; by eapply ipc_post_same|].
  see_step. eapply see_is_preempted; [done..| |].
  { see. eapply HQ; [done|done|by apply running_busy|done|done]. }
  intros Hst. destruct (_ =? 0).
  - apply wp_bind. eapply see_do_recv; [done..|]. intros s1 v1 Hs1 Hf Hb1 Hq. see.
    eapply HQ; [done| |done|done|done]. apply rtc_once. by apply k_frame.
  - pose proof (socket_chan _ Hsock) as Hc.
    eapply (wp_mono _ Q); [|done].
    pose proof (see_client_wait s v p _ buf Q Hs Hst Hp Hc Hb HQ) as Hw.
    destruct (_ =? IPC_YIELD); cbn [negb].
    + exact Hw.
    + see. case_bool_decide; [|see; by eapply ipc_post_same].
      destruct (ch_server _); see; by eapply ipc_post_same.
Qed.
End Ipc.
