(* ===== verification/IpcSpec.v ===== *)
(** * Specification of message passing

    What sending and receiving through a socket do, as pure functions on views,
    and the proofs that the functions of [cap_ipc.c] compute them: who receives,
    what is written to its registers, where the capability goes, and who runs
    next. *)

From S2P Require Import Prelude Config CapTypes CapTable CapList KState Proc Sched.
From S2P Require Import Channel CapOps CapIpc Invariant View Spec Refine Steps Revoke IpcSafe.

Section Specification.
Context `{C : Config}.
Implicit Types (v : view) (p q : Z).

(** The clock, its next reading, and the timer of the hart. *)
Definition now v : Z := u64 (mtime (v_hw v) (tick (v_hw v))).
Definition v_tick v : view := v_set_hw (hw_tick (v_hw v)) v.
Definition timer v : Z := default 0 (lookupZ (mtimecmp (v_hw v)) (mhartid (v_hw v))).

Definition v_update q (f : proc_t -> proc_t) v : view := v_set_proc q (f (v_proc v q)) v.
Definition v_reg q (r x : Z) v : view :=
  v_update q (fun y => set_regs (insertZ r x (p_regs y)) y) v.

(** A process that waits on the channel is taken, before its time is out. *)
Definition a_ipc_acquire q (chan : Z) v : bool * view :=
  if negb (p_state (v_proc v q) =? blocked_on chan) then (false, v)
  else if p_timeout (v_proc v q) <=? now v then (false, v_tick v)
  else (true, v_update q (set_state PSF_BUSY) (v_tick v)).

(** The receiver on the other side of the channel: for a client the server, if
    the time left is enough for it; for the server the client, which is
    withdrawn. *)
Definition a_target (cap : cap_t) (at_ limit : Z) v : option Z * view :=
  let ch := v_chan v cap⟦sock_chan⟧ in
  if cap⟦sock_tag⟧ =? 0 then
    match ch_client ch with
    | None => (None, v)
    | Some q => (Some q, v_set_chan cap⟦sock_chan⟧ (set_client None ch) v)
    end
  else
    match ch_server ch with
    | None => (None, v)
    | Some q =>
        let serv_time := default 0 (lookupZ (p_regs (v_proc v q)) REG_SERVTIME) in
        if (cap⟦sock_mode⟧ =? IPC_YIELD) && (limit <=? u64 (at_ + serv_time))
        then (None, v) else (Some q, v)
    end.

(** The registers of a receiver with a message. *)
Definition message_regs (cap : cap_t) (msg : ipc_msg) (raw : Z) (regs : list Z) : list Z :=
  let d i := default 0 (lookupZ (m_data msg) i) in
  insertZ REG_A1 raw
    (insertZ REG_A5 (d 3) (insertZ REG_A4 (d 2) (insertZ REG_A3 (d 1) (insertZ REG_A2 (d 0)
      (insertZ REG_A0 cap⟦sock_tag⟧ (insertZ REG_T0 (err_u64 SUCCESS) regs)))))).

(** The message is written, and its capability moved to the buffer, if it can be. *)
Definition a_deliver (cap : cap_t) (msg : ipc_msg) (buf : cte_t) q v : view :=
  let raw := if m_send_cap msg then v_cap v (m_cap_buf msg) else 0 in
  let v := v_update q (fun y => set_regs (message_regs cap msg raw (p_regs y)) y) v in
  if m_send_cap msg then (a_move (m_cap_buf msg) buf v).2 else v.

(** A receiver goes on: in the time of the sender, or when it is scheduled. *)
Definition a_handoff (cap : cap_t) p q v : option Z * view :=
  if cap⟦sock_mode⟧ =? IPC_YIELD
  then (Some q, v_update q (set_timeout (p_timeout (v_proc v p))) v)
  else (Some p, v_update q (fun y => set_state 0 (set_timeout 0 y)) v).

Definition a_send (cap : cap_t) (msg : ipc_msg) p v : (err_t * option Z) * view :=
  let chan := cap⟦sock_chan⟧ in
  let v1 := v_tick v in
  if timer v <=? now v then ((ERR_PREEMPTED, Some p), v1) else
  match a_target cap (now v) (timer v) v1 with
  | (None, v2) => ((ERR_NO_RECEIVER, Some p), v2)
  | (Some q, v2) =>
      match a_ipc_acquire q chan v2 with
      | (false, v3) => ((ERR_NO_RECEIVER, Some p), v3)
      | (true, v3) =>
          let buf := default 0 (ch_cap_buf (v_chan v chan)) in
          let '(next, v4) := a_handoff cap p q (a_deliver cap msg buf q v3) in
          ((SUCCESS, next), v4)
      end
  end.

(** The caller waits on the channel. *)
Definition a_recv (cap : cap_t) (buf : cte_t) p v : view :=
  let chan := cap⟦sock_chan⟧ in
  let ch := v_chan v chan in
  let v := v_set_chan chan
    (if cap⟦sock_tag⟧ =? 0 then Channel (Some p) (ch_client ch) (Some buf)
     else Channel (ch_server ch) (Some p) (Some buf)) v in
  let v := if (cap⟦sock_tag⟧ =? 0) || (cap⟦sock_mode⟧ =? IPC_NOYIELD)
           then v_update p (set_timeout U64_MAX) v else v in
  v_update p (set_state (Z.lor (blocked_on chan) PSF_BUSY)) v.
End Specification.

(** ** The code computes the specification *)

Section Refinement.
Context `{C : Config} {Cok : ConfigOk C}.
Implicit Types (v : view) (p q : Z).

Lemma see_timer s v Q :
  sees s v -> (forall s', sees s' v -> Q (timer v) s') ->
  wp (timeout_get (mhartid (v_hw v))) Q s.
Proof.
  intros Hs HQ. apply wp_bind, wp_gets. rewrite (sees_hw _ _ Hs).
  destruct (sees_hw_wf _ _ Hs) as [Hh Hl]. unfold valid_hart in Hh. config_bounds.
  destruct (lookupZ_lt (mtimecmp (v_hw v)) (mhartid (v_hw v))) as [t Ht]; [lia|].
  eapply wp_array_get; [done|]. specialize (HQ s Hs). unfold timer in HQ. by rewrite Ht in HQ.
Qed.

Lemma see_a_ipc_acquire s v q chan Q :
  sees s v -> valid_proc q ->
  (forall s', sees s' (a_ipc_acquire q chan v).2 -> Q (a_ipc_acquire q chan v).1 s') ->
  wp (proc_ipc_acquire q chan) Q s.
Proof.
  intros Hs Hq HQ. unfold proc_ipc_acquire. unfold a_ipc_acquire in HQ. see.
  destruct (Z.eqb_spec (p_state (v_proc v q)) (blocked_on chan)) as [E|]; cbn [negb] in *;
    [|see; by apply HQ].
  see. fold (now v). fold (v_tick v) in Hs0. change (v_proc (v_set_hw _ v)) with (v_proc v).
  destruct (_ <=? _); [see; by apply HQ|].
  assert (HT : forall s', sees s' (v_update q (set_state PSF_BUSY) (v_tick v)) -> Q true s') by done.
  destruct SMP.
  - eapply see_state_cas; [done..|]. done.
  - see. by apply HT.
Qed.

Lemma see_a_target s v cap at_ limit Q :
  sees s v -> socket cap ->
  (forall s', sees s' (a_target cap at_ limit v).2 -> Q (a_target cap at_ limit v).1 s') ->
  wp (send_target cap at_ limit) Q s.
Proof.
  intros Hs Hk HQ. pose proof (socket_chan _ Hk) as Hc. unfold send_target.
  unfold a_target in HQ. see. destruct H as (H1 & H2 & H3 & H4).
  destruct (_ =? 0).
  - destruct (ch_client (v_chan v cap⟦sock_chan⟧)) as [q|]; [|see; by apply HQ]. see. by apply HQ.
  - destruct (ch_server (v_chan v cap⟦sock_chan⟧)) as [q|]; [|see; by apply HQ].
    assert (valid_proc q) by by apply H1.
    destruct (_ =? IPC_YIELD); cbn [andb] in HQ; [|see; by apply HQ]. see_step. see_step.
    unfold REG_SERVTIME in *. rewrite H0 in HQ. cbn [default] in HQ.
    destruct (_ <=? _); see; by apply HQ.
Qed.

(** Repeated updates of one process. *)
Lemma set_proc_twice v q x y : v_set_proc q y (v_set_proc q x v) ≡ v_set_proc q y v.
Proof. do 3 (split; [done|]). split; [|done]. intros r _. cbn. unfold fupd. by destruct (r =? q). Qed.

Lemma set_proc_same v q : v_set_proc q (v_proc v q) v ≡ v.
Proof.
  do 3 (split; [done|]). split; [|done]. intros r _. cbn. unfold fupd.
  by destruct (Z.eqb_spec r q) as [->|].
Qed.

Lemma see_reg_more s v q regs r x Q :
  sees s (v_set_proc q (set_regs regs (v_proc v q)) v) -> valid_proc q -> 0 <= r < REG_CNT ->
  (forall s', sees s' (v_set_proc q (set_regs (insertZ r x regs) (v_proc v q)) v) -> Q tt s') ->
  wp (reg_set q r x) Q s.
Proof.
  intros Hs Hq Hr HQ. see_step. apply HQ. revert Hs0. cbn [v_proc v_set_proc].
  rewrite fupd_eq. cbn [p_regs set_regs]. by rewrite set_proc_twice.
Qed.

Lemma set_regs_same y : set_regs (p_regs y) y = y.
Proof. by destruct y. Qed.

Lemma see_a_deliver s v cap msg buf q Q :
  sees s v -> valid_proc q -> in_table (m_cap_buf msg) -> zlen (m_data msg) = 4 ->
  in_table buf ->
  (forall s', sees s' (a_deliver cap msg buf q v) -> Q tt s') ->
  wp (deliver cap msg (Some buf) q) Q s.
Proof.
  intros Hs Hq Hm Hlen Hb HQ. unfold deliver.
  assert (Hd : forall i, 0 <= i < 4 -> lookupZ (m_data msg) i =
    Some (default 0 (lookupZ (m_data msg) i))).
  { intros i Hi. by destruct (lookupZ_lt (m_data msg) i) as [x ->]; [lia|]. }
  assert (H0 : sees s (v_set_proc q (set_regs (p_regs (v_proc v q)) (v_proc v q)) v))
    by (rewrite set_regs_same; by rewrite set_proc_same).
  apply wp_bind. eapply (see_reg_more _ v); [exact H0|done|done|]. clear H0. intros s1 H1.
  apply wp_bind. eapply (see_reg_more _ v); [exact H1|done|done|]. clear H1. intros s2 H2.
  apply wp_bind. eapply wp_array_get; [by apply Hd|].
  apply wp_bind. eapply (see_reg_more _ v); [exact H2|done|done|]. clear H2. intros s3 H3.
  apply wp_bind. eapply wp_array_get; [by apply Hd|].
  apply wp_bind. eapply (see_reg_more _ v); [exact H3|done|done|]. clear H3. intros s4 H4.
  apply wp_bind. eapply wp_array_get; [by apply Hd|].
  apply wp_bind. eapply (see_reg_more _ v); [exact H4|done|done|]. clear H4. intros s5 H5.
  apply wp_bind. eapply wp_array_get; [by apply Hd|].
  apply wp_bind. eapply (see_reg_more _ v); [exact H5|done|done|]. clear H5. intros s6 H6.
  unfold a_deliver in HQ. destruct (m_send_cap msg).
  - do 2 see_step. apply wp_bind. eapply (see_reg_more _ v); [exact H6|done|done|]. intros s7 H7.
    apply wp_bind. eapply see_cap_move; [exact H7|done|done|]. intros s8 Hs8. see. by apply HQ.
  - eapply (see_reg_more _ v); [exact H6|done|done|]. intros s7 H7. by apply HQ.
Qed.

Lemma see_release_busy s v q Q :
  sees s v -> valid_proc q -> p_state (v_proc v q) = PSF_BUSY ->
  (forall s', sees s' (v_update q (set_state 0) v) -> Q tt s') ->
  wp (proc_release q) Q s.
Proof.
  intros Hs Hq E HQ. unfold proc_release. see. apply wp_kassert; [by rewrite E|].
  destruct SMP; see; apply HQ; unfold v_update; by rewrite E in *.
Qed.

(** What delivery leaves of the states. *)
Lemma deliver_state cap msg buf q v r :
  p_state (v_proc (a_deliver cap msg buf q v) r) = p_state (v_proc v r) /\
  p_timeout (v_proc (a_deliver cap msg buf q v) r) = p_timeout (v_proc v r).
Proof.
  unfold a_deliver. set (v1 := v_update _ _ v).
  assert (H : p_state (v_proc v1 r) = p_state (v_proc v r) /\
    p_timeout (v_proc v1 r) = p_timeout (v_proc v r)).
  { unfold v1, v_update. cbn. unfold fupd. by destruct (Z.eqb_spec r q) as [->|]. }
  destruct (m_send_cap msg); [|done].
  destruct (exec_runs (OpMove (m_cap_buf msg) buf) v1) as [_ Hr].
  destruct (Hr r) as (E1 & _ & E2 & _). cbn [exec] in *. split; [rewrite E1|rewrite E2]; apply H.
Qed.

Lemma target_valid s v cap at_ limit q v' :
  sees s v -> socket cap -> a_target cap at_ limit v = (Some q, v') ->
  valid_proc q /\ (exists b, ch_cap_buf (v_chan v cap⟦sock_chan⟧) = Some b /\ in_table b) /\
  v_proc v' = v_proc v /\ v_hw v' = v_hw v.
Proof.
  intros Hs Hk E. pose proof (socket_chan _ Hk) as Hc.
  destruct (sees_chan_wf _ _ Hs _ Hc) as (H1 & H2 & H3 & H4).
  assert (H : valid_proc q /\ v_proc v' = v_proc v /\ v_hw v' = v_hw v /\
    ch_cap_buf (v_chan v cap⟦sock_chan⟧) <> None).
  { revert E. unfold a_target. destruct (_ =? 0).
    - destruct (ch_client _) as [x|] eqn:Ec; [|done]. intros [= -> <-].
      split; [by apply H2|]. do 2 (split; [done|]). intros Eb. by destruct (H4 Eb); congruence.
    - destruct (ch_server _) as [x|] eqn:Ec; [|done]. destruct (_ && _); [done|].
      intros [= -> <-]. split; [by apply H1|]. do 2 (split; [done|]). intros Eb.
      by destruct (H4 Eb); congruence. }
  destruct H as (? & ? & ? & Hb). split; [done|]. split; [|done].
  destruct (ch_cap_buf _) as [b|] eqn:Eb; [|done]. exists b. split; [done|by apply H3].
Qed.

Lemma see_a_send s v p cap msg Q :
  sees s v -> valid_proc p -> socket cap -> msg_ok p msg ->
  (forall s', sees s' (a_send cap msg p v).2 -> Q (a_send cap msg p v).1 s') ->
  wp (do_send cap msg p) Q s.
Proof.
  intros Hs Hp Hk (M1 & M2 & M3) HQ. pose proof (socket_chan _ Hk) as Hc.
  unfold do_send. do 7 see_step. unfold a_send in HQ.
  fold (now v). fold (v_tick v) in *. apply (see_timer _ (v_tick v)); [done|]. intros s1 Hs1.
  change (timer (v_tick v)) with (timer v) in *.
  destruct (timer v <=? now v); [see; by apply HQ|].
  apply wp_bind. eapply see_a_target; [done|done|]. intros s2 Hs2.
  destruct (a_target cap (now v) (timer v) (v_tick v)) as [[q|] v2] eqn:Et; cbn [fst snd] in *;
    [|see; by apply HQ].
  destruct (target_valid _ _ _ _ _ _ _ Hs1 Hk Et) as (Hq & (b & Eb & Hb) & _ & _).
  apply wp_bind. eapply see_a_ipc_acquire; [done|done|]. intros s3 Hs3.
  destruct (a_ipc_acquire q cap⟦sock_chan⟧ v2) as [[] v3] eqn:Ea; cbn [fst snd negb] in *;
    [|see; by apply HQ].
  change (v_chan (v_tick v)) with (v_chan v) in Eb. rewrite Eb in *. cbn [default] in HQ.
  apply wp_bind. eapply see_a_deliver; [done..|]. intros s4 Hs4.
  unfold a_handoff in HQ. destruct Hk as [Hk1 Hk2].
  destruct (cap_wf_socket _ Hk1 Hk2) as [_ Hmode].
  destruct (Z.eqb_spec cap⟦sock_mode⟧ IPC_YIELD) as [|Hny]; cbn [fst snd] in HQ.
  - see. by apply HQ.
  - destruct Hmode as [|Emode]; [done|]. rewrite Emode, Z.eqb_refl. do 2 see_step.
    assert (Est : p_state (v_proc v3 q) = PSF_BUSY).
    { revert Ea. unfold a_ipc_acquire. destruct (negb _); [done|]. destruct (_ <=? _); [done|].
      intros [= <-]. cbn. by rewrite fupd_eq. }
    apply wp_bind. eapply see_release_busy; [done|done| |].
    { cbn. rewrite fupd_eq. cbn. rewrite (proj1 (deliver_state _ _ _ _ _ _)). done. }
    intros s6 Hs6. see. apply HQ. revert Hs6. unfold v_update. cbn [v_proc v_set_proc].
    rewrite fupd_eq. by rewrite set_proc_twice.
Qed.

Lemma see_a_recv s v p cap buf Q :
  sees s v -> valid_proc p -> socket cap -> in_table buf -> p_state (v_proc v p) = PSF_BUSY ->
  (forall s', sees s' (a_recv cap buf p v) -> Q tt s') ->
  wp (do_recv cap buf p) Q s.
Proof.
  intros Hs Hp Hk Hb Hst HQ. pose proof (socket_chan _ Hk) as Hc. unfold do_recv.
  unfold a_recv in HQ. pose proof (sees_chan_wf _ _ Hs _ Hc) as (H1 & H2 & H3 & H4).
  destruct (_ =? 0); cbn [orb] in HQ.
  - eapply see_register; [done|done| |].
    { split; [|split; [|split]]; cbn; [by intros ? [= <-]|done|by intros ? [= <-]|done]. }
    intros s1 Hs1. see_step. see_step. eapply see_ipc_wait; [done|done|cbn; by rewrite fupd_eq|done].
  - eapply see_register; [done|done| |].
    { split; [|split; [|split]]; cbn; [done|by intros ? [= <-]|by intros ? [= <-]|done]. }
    intros s1 Hs1. see_step. destruct (_ =? IPC_NOYIELD).
    + see_step. eapply see_ipc_wait; [done|done|cbn; by rewrite fupd_eq|done].
    + see_step. by eapply see_ipc_wait.
Qed.
End Refinement.

(** ** The operations on socket capabilities *)

Section Sockets.
Context `{C : Config}.
Implicit Types (v : view) (p q : Z).

Definition suspended v p : bool := negb (Z.land (p_state (v_proc v p)) PSF_SUSPENDED =? 0).

(** The permission to send a capability in one direction of the channel. *)
Definition cap_perm (from_server : bool) : Z := if from_server then IPC_SCAP else IPC_CCAP.

Definition is_server (cap : cap_t) : bool := cap⟦sock_tag⟧ =? 0.

(** Why an operation on a socket is refused at once. *)
Definition refused (not_a_socket : err_t) v (sock : cte_t) p : option (err_t * option Z) :=
  if empty (v_cap v sock) then Some (ERR_EMPTY, Some p)
  else if negb ((v_cap v sock)⟦cap_type⟧ =? CAPTY_SOCKET) then Some (not_a_socket, Some p)
  else None.

Definition may_not_send (cap : cap_t) (msg : ipc_msg) : bool :=
  m_send_cap msg && negb (has_perm cap (cap_perm (is_server cap))).

Definition a_sock_send (sock : cte_t) (msg : ipc_msg) p v : (err_t * option Z) * view :=
  let cap := v_cap v sock in
  match refused ERR_INVALID_SOCKET v sock p with
  | Some r => (r, v)
  | None =>
      if suspended v p then ((ERR_PREEMPTED, None), v)
      else if may_not_send cap msg then ((ERR_INVALID_SOCKET, Some p), v)
      else a_send cap msg p v
  end.

(** The receive buffer is taken: it holds a capability, and not the one to send. *)
Definition buffer_taken (cap : cap_t) (msg : ipc_msg) v : bool :=
  has_perm cap (cap_perm (negb (is_server cap)))
  && negb (empty (v_cap v (m_cap_buf msg))) && negb (m_send_cap msg).

Definition no_self p (next : option Z) : option Z := if decide (next = Some p) then None else next.

(** A server replies and waits, also when there is nobody to reply to; a client
    waits for the reply to a call it could make. *)
Definition a_sendrecv (cap : cap_t) (msg : ipc_msg) p v : (err_t * option Z) * view :=
  if may_not_send cap msg then ((ERR_INVALID_SOCKET, Some p), v)
  else if buffer_taken cap msg v then ((ERR_DST_OCCUPIED, Some p), v) else
  let buf := m_cap_buf msg in
  let '((e, next), v1) := a_send cap msg p v in
  if is_server cap then
    if decide (e = ERR_PREEMPTED) then ((e, None), v1)
    else
      let v2 := if bool_decide (e = ERR_NO_RECEIVER) && m_send_cap msg
                then (a_delete buf v1).2 else v1 in
      ((ERR_TIMEOUT, no_self p next), a_recv cap buf p v2)
  else if is_err e then ((e, next), v1)
  else ((ERR_TIMEOUT, no_self p next), a_recv cap buf p v1).

Definition a_sock_sendrecv (sock : cte_t) (msg : ipc_msg) p v : (err_t * option Z) * view :=
  let cap := v_cap v sock in
  match refused ERR_INVALID_CAPABILITY v sock p with
  | Some r => (r, v)
  | None =>
      if suspended v p then ((ERR_PREEMPTED, None), v)
      else a_sendrecv cap msg p v
  end.

(** A process that can run is taken. *)
Definition a_acquire q v : bool * view :=
  if negb (Z.land (p_state (v_proc v q)) (Z.lor PSF_BUSY PSF_SUSPENDED) =? 0) then (false, v)
  else if now v <? p_timeout (v_proc v q) then (false, v_tick v)
  else (true, v_update q (set_state PSF_BUSY) (v_tick v)).

(** A client that is registered lends its time to the server again. *)
Definition a_client_recv (cap : cap_t) (buf : cte_t) p v : (err_t * option Z) * view :=
  let chan := cap⟦sock_chan⟧ in
  let ch := v_chan v chan in
  if negb (bool_decide (ch_client ch = Some p)) then ((ERR_INVALID_STATE, Some p), v) else
  match ch_server ch with
  | None => ((ERR_TIMEOUT, Some p), v)
  | Some q =>
      if negb (cap⟦sock_mode⟧ =? IPC_YIELD) then ((ERR_TIMEOUT, Some p), v) else
      match a_acquire q v with
      | (false, v1) => ((ERR_TIMEOUT, Some p), v1)
      | (true, v1) =>
          let v2 := v_update p (set_state (Z.lor (blocked_on chan) PSF_BUSY)) v1 in
          let v3 := v_set_chan chan (set_cap_buf (Some buf) ch) v2 in
          ((ERR_TIMEOUT, Some q), v_update q (set_timeout (p_timeout (v_proc v3 p))) v3)
      end
  end.

Definition a_sock_recv (sock buf : cte_t) p v : (err_t * option Z) * view :=
  let cap := v_cap v sock in
  match refused ERR_INVALID_CAPABILITY v sock p with
  | Some r => (r, v)
  | None =>
      if has_perm cap IPC_CCAP && negb (empty (v_cap v buf)) then ((ERR_DST_OCCUPIED, Some p), v)
      else if suspended v p then ((ERR_PREEMPTED, None), v)
      else if is_server cap then ((ERR_TIMEOUT, None), a_recv cap buf p v)
      else a_client_recv cap buf p v
  end.
End Sockets.

Section SocketRefinement.
Context `{C : Config} {Cok : ConfigOk C}.
Implicit Types (v : view) (p q : Z).

Lemma see_suspended s v p Q :
  sees s v -> valid_proc p -> Q (suspended v p) s -> wp (is_preempted_by_suspend p) Q s.
Proof. intros Hs Hp HQ. unfold is_preempted_by_suspend. by see. Qed.

Lemma running_suspended v p : running v p -> suspended v p = false -> p_state (v_proc v p) = PSF_BUSY.
Proof. unfold suspended. intros [E|E]; rewrite E; [done|]. by cbn. Qed.

(** The first tests of the operations. *)
Lemma see_refused {s v} {sock : cte_t} {p} {e : err_t} (k : K (err_t * option Z)) Q :
  sees s v -> in_table sock ->
  (forall r, refused e v sock p = Some r -> Q r s) ->
  (socket (v_cap v sock) -> refused e v sock p = None -> wp k Q s) ->
  wp (if (v_cap v sock)⟦cap_type⟧ =? CAPTY_NONE then ret (ERR_EMPTY, Some p)
      else if negb ((v_cap v sock)⟦cap_type⟧ =? CAPTY_SOCKET) then ret (e, Some p) else k) Q s.
Proof.
  intros Hs Hk HR HS. unfold refused, empty in *.
  change (capty CAPTY_NONE) with 0. destruct (_ =? 0); [see; by apply HR|].
  destruct (_ =? CAPTY_SOCKET) eqn:E; cbn [negb] in *; [|see; by apply HR].
  breflect. apply HS; [|done]. split; [by apply (sees_cap_wf _ _ Hs)|done].
Qed.

Lemma see_a_sock_send s v p sock msg Q :
  sees s v -> valid_proc p -> in_table sock -> msg_ok p msg ->
  (forall s', sees s' (a_sock_send sock msg p v).2 -> Q (a_sock_send sock msg p v).1 s') ->
  wp (cap_sock_send sock msg p) Q s.
Proof.
  intros Hs Hp Hk Hm HQ. unfold cap_sock_send. unfold a_sock_send in HQ. see.
  eapply (see_refused _ _ Hs Hk); [intros r E; rewrite E in HQ; by apply HQ|].
  intros Hsock E. rewrite E in HQ. see_step. eapply see_suspended; [done|done|].
  destruct (suspended v p); [see; by apply HQ|].
  unfold may_not_send, is_server, cap_perm, reply, send in *.
  destruct (_ =? 0); destruct (_ && _); try (see; by apply HQ); by eapply see_a_send.
Qed.

Lemma see_buffer s v msg (perm : bool) Q :
  sees s v -> in_table (m_cap_buf msg) ->
  Q (perm && negb (empty (v_cap v (m_cap_buf msg))) && negb (m_send_cap msg)) s ->
  wp (buffer_blocked perm msg) Q s.
Proof. intros Hs Hb HQ. unfold buffer_blocked. destruct perm; by see. Qed.

(** Sending leaves the state of the sender alone. *)
Lemma acquire_other q chan v v' p :
  a_ipc_acquire q chan v = (true, v') -> 0 <= chan < 2 ^ 16 -> running v p ->
  q <> p /\ v_proc v' p = v_proc v p.
Proof.
  unfold a_ipc_acquire. destruct (Z.eqb_spec (p_state (v_proc v q)) (blocked_on chan)) as [E|];
    [|done]. cbn [negb]. destruct (_ <=? _); [done|]. intros [= <-] Hc Hr.
  assert (q <> p) by (intros ->; by eapply blocked_not_running).
  split; [done|]. cbn. by rewrite fupd_ne.
Qed.

Lemma target_proc cap at_ limit v : v_proc (a_target cap at_ limit v).2 = v_proc v.
Proof. unfold a_target. by repeat case_match. Qed.

Lemma acquire_proc q chan v :
  (a_ipc_acquire q chan v).1 = false -> v_proc (a_ipc_acquire q chan v).2 = v_proc v.
Proof. unfold a_ipc_acquire. by repeat case_match. Qed.

Lemma handoff_proc cap p q v : p <> q -> v_proc (a_handoff cap p q v).2 p = v_proc v p.
Proof. intros H. unfold a_handoff. destruct (_ =? _); cbn; by rewrite fupd_ne. Qed.

Lemma send_sender cap msg v p :
  socket cap -> running v p ->
  p_state (v_proc (a_send cap msg p v).2 p) = p_state (v_proc v p).
Proof.
  intros Hk Hr. pose proof (chan_16bit _ (socket_chan _ Hk)) as Hc. unfold a_send.
  destruct (_ <=? _); [done|]. pose proof (target_proc cap (now v) (timer v) (v_tick v)) as Ht.
  destruct (a_target _ _ _ _) as [[q|] v2]; cbn [fst snd] in *; [|by rewrite Ht].
  pose proof (acquire_proc q cap⟦sock_chan⟧ v2) as Ha.
  destruct (a_ipc_acquire q cap⟦sock_chan⟧ v2) as [[] v3] eqn:E; cbn [fst snd] in *;
    [|by rewrite Ha, Ht].
  destruct (acquire_other _ _ _ _ p E Hc) as [Hne H3].
  { unfold running in *. rewrite Ht. done. }
  destruct (a_handoff _ _ _ _) as [n v4] eqn:Eh.
  pose proof (handoff_proc cap p q
    (a_deliver cap msg (default 0 (ch_cap_buf (v_chan v cap⟦sock_chan⟧))) q v3)) as Hh.
  rewrite Eh in Hh. cbn [snd] in *. rewrite Hh by done.
  rewrite (proj1 (deliver_state _ _ _ _ _ _)). by rewrite H3, Ht.
Qed.

Lemma see_a_sendrecv s v p cap msg Q :
  sees s v -> valid_proc p -> socket cap -> msg_ok p msg -> p_state (v_proc v p) = PSF_BUSY ->
  (forall s', sees s' (a_sendrecv cap msg p v).2 -> Q (a_sendrecv cap msg p v).1 s') ->
  wp (if cap⟦sock_tag⟧ =? 0 then replyrecv cap msg p else call cap msg p) Q s.
Proof.
  intros Hs Hp Hk Hm Hst HQ. pose proof Hm as (M1 & M2 & M3).
  assert (Hst1 := send_sender cap msg v p Hk (or_introl Hst)). rewrite Hst in Hst1.
  unfold a_sendrecv, may_not_send, buffer_taken, is_server, cap_perm, no_self in *.
  destruct (_ =? 0); cbn [negb] in *.
  - unfold replyrecv. see. apply wp_kassert; [by apply Z.eqb_eq|].
    destruct (_ && _); [see; by apply HQ|]. see_step. eapply see_buffer; [done|done|].
    destruct (_ && _); [see; by apply HQ|]. see_step. eapply see_a_send; [done..|].
    intros s1 Hs1. destruct (a_send cap msg p v) as [[e next] v1]. cbn [fst snd] in *.
    destruct (decide (e = ERR_PREEMPTED)); [see; by apply HQ|]. apply wp_bind.
    assert (Hend : forall s2 v2, sees s2 v2 -> procs_same v1 v2 ->
      (forall s', sees s' (a_recv cap (m_cap_buf msg) p v2) ->
         Q (ERR_TIMEOUT, if decide (next = Some p) then None else next) s') ->
      wp (do* do_recv cap (m_cap_buf msg) p in
          ret (ERR_TIMEOUT, if decide (next = Some p) then None else next)) Q s2).
    { intros s2 v2 Hs2 P2 H2. apply wp_bind. eapply see_a_recv; [done..| |].
      - by rewrite (procs_states _ _ P2).
      - intros s3 Hs3. see. by apply H2. }
    rewrite bool_decide_decide in HQ.
    destruct (decide (e = ERR_NO_RECEIVER)); cbn [andb] in HQ; [|see_step; by eapply Hend].
    destruct (m_send_cap msg); [|see_step; by eapply Hend].
    apply wp_bind. eapply see_cap_delete; [done..|]. intros s2 Hs2. see_step.
    eapply Hend; [done| |done]. apply (exec_runs (OpDelete (m_cap_buf msg))).
  - unfold call. destruct (_ && _); [see; by apply HQ|]. see_step.
    eapply see_buffer; [done|done|]. destruct (_ && _); [see; by apply HQ|]. see_step. eapply see_a_send; [done..|]. intros s1 Hs1.
    destruct (a_send cap msg p v) as [[e next] v1]. cbn [fst snd] in *.
    destruct (is_err e); [see; by apply HQ|]. apply wp_bind.
    eapply see_a_recv; [done..|]. intros s2 Hs2. see. by apply HQ.
Qed.

Lemma see_a_sock_sendrecv s v p sock msg Q :
  sees s v -> valid_proc p -> in_table sock -> msg_ok p msg -> running v p ->
  (forall s', sees s' (a_sock_sendrecv sock msg p v).2 -> Q (a_sock_sendrecv sock msg p v).1 s') ->
  wp (cap_sock_sendrecv sock msg p) Q s.
Proof.
  intros Hs Hp Hk Hm Hr HQ. pose proof Hm as (M1 & _).
  unfold cap_sock_sendrecv. unfold a_sock_sendrecv in HQ. see.
  eapply (see_refused _ _ Hs Hk); [intros r E; rewrite E in HQ; by apply HQ|].
  intros Hsock E. rewrite E in HQ. see_step. eapply see_suspended; [done|done|].
  destruct (suspended v p) eqn:Es; [see; by apply HQ|].
  pose proof (running_suspended _ _ Hr Es) as Hst. see. apply wp_kassert; [by apply Z.eqb_eq|].
  by eapply see_a_sendrecv.
Qed.

Lemma see_a_acquire s v q Q :
  sees s v -> valid_proc q ->
  (forall s', sees s' (a_acquire q v).2 -> Q (a_acquire q v).1 s') ->
  wp (proc_acquire q) Q s.
Proof.
  intros Hs Hq HQ. unfold proc_acquire. unfold a_acquire in HQ. see.
  destruct (_ =? 0) eqn:E; cbn [negb] in *; [|see; by apply HQ].
  see. fold (now v). fold (v_tick v) in Hs0. change (v_proc (v_set_hw _ v)) with (v_proc v).
  destruct (_ <? _); [see; by apply HQ|].
  assert (HT : forall s', sees s' (v_update q (set_state PSF_BUSY) (v_tick v)) -> Q true s') by done.
  destruct SMP; [by eapply see_state_cas|see; by apply HT].
Qed.

Lemma see_a_client_recv s v p cap buf Q :
  sees s v -> valid_proc p -> socket cap -> in_table buf -> p_state (v_proc v p) = PSF_BUSY ->
  (forall s', sees s' (a_client_recv cap buf p v).2 -> Q (a_client_recv cap buf p v).1 s') ->
  wp (let* ch := chan_load cap⟦sock_chan⟧ in
      if bool_decide (ch_client ch = Some p) then
        match ch_server ch with
        | None => ret (ERR_TIMEOUT, Some p)
        | Some server =>
            if negb (cap⟦sock_mode⟧ =? IPC_YIELD) then ret (ERR_TIMEOUT, Some p) else
            let* ok := proc_acquire server in
            if negb ok then ret (ERR_TIMEOUT, Some p) else
            do* proc_ipc_wait p cap⟦sock_chan⟧ in
            do* chan_update cap⟦sock_chan⟧ (set_cap_buf (Some buf)) in
            let* n := proc_load p in
            do* proc_update server (set_timeout (p_timeout n)) in
            ret (ERR_TIMEOUT, Some server)
        end
      else ret (ERR_INVALID_STATE, Some p)) Q s.
Proof.
  intros Hs Hp Hk Hb Hst HQ. pose proof (socket_chan _ Hk) as Hc.
  unfold a_client_recv in HQ. see. case_bool_decide; cbn [negb] in *; [|see; by apply HQ].
  destruct H as (H1 & H2 & H3 & H4).
  destruct (ch_server _) as [q|] eqn:Eq; [|see; by apply HQ].
  destruct (_ =? IPC_YIELD); cbn [negb] in *; [|see; by apply HQ].
  assert (valid_proc q) by by apply H1. see_step. eapply see_a_acquire; [done|done|].
  intros s1 Hs1.
  assert (Hch : v_chan (a_acquire q v).2 = v_chan v) by (unfold a_acquire; by repeat case_match).
  assert (Hps : (a_acquire q v).1 = true -> p_state (v_proc (a_acquire q v).2 p) = PSF_BUSY).
  { unfold a_acquire. destruct (_ =? 0) eqn:E; [|done]. destruct (_ <? _); [done|]. intros _.
    cbn. unfold fupd. by destruct (p =? q). }
  destruct (a_acquire q v) as [[] v1]; cbn [negb fst snd] in *; [|see; by apply HQ].
  apply wp_bind. eapply see_ipc_wait; [done|done|by apply Hps|]. intros s2 Hs2.
  see.
  { intros (G1 & G2 & G3 & G4). split; [done|]. split; [done|]. split; [by intros ? [= <-]|done]. }
  apply HQ. unfold v_update. by rewrite <- Hch.
Qed.

Lemma see_a_sock_recv s v p sock buf Q :
  sees s v -> valid_proc p -> in_table sock -> in_table buf -> running v p ->
  (forall s', sees s' (a_sock_recv sock buf p v).2 -> Q (a_sock_recv sock buf p v).1 s') ->
  wp (cap_sock_recv sock buf p) Q s.
Proof.
  intros Hs Hp Hk Hb Hr HQ.
  unfold cap_sock_recv. unfold a_sock_recv in HQ. see.
  eapply (see_refused _ _ Hs Hk); [intros r E; rewrite E in HQ; by apply HQ|].
  intros Hsock E. rewrite E in HQ. see_step.
  eapply (wp_mono _ (fun b s' => s' = s /\
    b = has_perm (v_cap v sock) IPC_CCAP && negb (empty (v_cap v buf)))).
  { destruct (has_perm _ _); [|done]. by see. }
  intros b s' [-> ->]. destruct (_ && _); [see; by apply HQ|]. see_step.
  eapply see_suspended; [done|done|]. destruct (suspended v p) eqn:Es; [see; by apply HQ|].
  pose proof (running_suspended _ _ Hr Es) as Hst. unfold is_server in HQ.
  destruct (_ =? 0); [|by eapply see_a_client_recv].
  apply wp_bind. eapply see_a_recv; [done..|]. intros s1 Hs1. see. by apply HQ.
Qed.
End SocketRefinement.
