(* ===== verification/SyscallSafe.v ===== *)
(** * System calls are safe

    Every system call of a running process, made with arguments that fit the
    widths the kernel validates them at where it uses them as they are, runs
    without a fault; what it does to capabilities, schedule and PMP registers is
    a sequence of operations in the authority of the caller; and the process it
    names to run next is the caller or one it made busy.  With any other words as
    arguments the call faults, or does the same. *)

From S2P Require Import Prelude Config CapTypes CapTable CapList KState Proc Sched.
From S2P Require Import Channel CapOps CapPmp CapIpc CapMonitor Syscall Invariant View.
From S2P Require Import Spec Refine Steps Revoke IpcSafe.

Section During.
Context `{C : Config} {Cok : ConfigOk C}.

(** During a system call of [p] that started in [v0]. *)
Record during (p : Z) (v0 : view) (s : kstate) (v : view) : Prop := {
  d_sees : sees s v;
  d_steps : ksteps p v0 v;
  d_running : running v p;
  d_valid : valid_proc p
}.

(** What a handler owes to its caller. *)
Definition handled (p : Z) (v0 : view) (Q : option Z -> kstate -> Prop) : Prop :=
  forall next s' v', sees s' v' -> ksteps p v0 v' -> busy v' p ->
    (next = Some p -> running v' p) -> next_ok p v' next -> Q next s'.

Section Rules.
Context (p : Z) (v0 : view) (s : kstate) (v : view) (D : during p v0 s v).

Lemma handled_self Q : handled p v0 Q -> Q (Some p) s.
Proof.
  intros HQ. destruct D as [D1 D2 D3 D4].
  eapply HQ; [done|done|by apply running_busy|done|by left].
Qed.

Lemma handled_none Q : handled p v0 Q -> Q None s.
Proof.
  intros HQ. destruct D as [D1 D2 D3 D4].
  eapply HQ; [done|done|by apply running_busy|done|done].
Qed.

Lemma during_frame s' v' :
  sees s' v' -> frame v v' -> running v' p -> during p v0 s' v'.
Proof.
  intros. destruct D as [D1 D2 D3 D4]. split; [done| |done|done].
  eapply rtc_r; [done|]. by apply k_frame.
Qed.

Lemma during_op o s' :
  op_ok o v -> authorised v p o -> sees s' (exec o v).2 -> during p v0 s' (exec o v).2.
Proof.
  intros. destruct D as [D1 D2 D3 D4]. split; [done| | |done].
  - eapply rtc_r; [done|]. by apply k_op.
  - eapply running_same; [|done]. apply (exec_runs o v).
Qed.

Lemma during_proc s' q x :
  sees s' (v_set_proc q x v) -> same_pmp (v_proc v q) x ->
  (q = p -> running (v_set_proc q x v) p) -> during p v0 s' (v_set_proc q x v).
Proof.
  intros Hs Hx Hr. apply during_frame; [done|by apply frame_set_proc|].
  destruct (decide (q = p)) as [->|Hne]; [by apply Hr|].
  destruct D as [_ _ H _]. unfold running in *. cbn. by rewrite fupd_ne.
Qed.

Lemma in_reg_set q r x Q :
  valid_proc q -> 0 <= r < REG_CNT ->
  (forall s' v', during p v0 s' v' -> Q tt s') -> wp (reg_set q r x) Q s.
Proof.
  intros Hq Hr HQ. pose proof (d_sees _ _ _ _ D) as Hs. see.
  eapply HQ, during_proc; [done|done|]. intros ->. destruct D as [_ _ H _].
  unfold running in *. cbn. by rewrite fupd_eq.
Qed.

(** The end of most handlers. *)
Lemma in_return e Q :
  handled p v0 Q -> wp (do* set_t0 p e in ret (Some p)) Q s.
Proof.
  intros HQ. destruct D as [D1 D2 D3 D4]. apply wp_bind. unfold set_t0. see.
  eapply HQ; [done| | | |by left].
  - eapply rtc_r; [done|]. apply k_frame. by apply frame_set_proc.
  - apply running_busy. unfold running. cbn. by rewrite fupd_eq.
  - unfold running. cbn. by rewrite fupd_eq.
Qed.

(** Arguments of the system call. *)
Definition reg (v : view) (p r : Z) : Z := default 0 (lookupZ (p_regs (v_proc v p)) r).

Lemma in_arg i Q : 0 <= i < 8 -> Q (reg v p (REG_A0 + i)) s -> wp (arg p i) Q s.
Proof.
  intros Hi HQ. destruct D as [D1 D2 D3 D4].
  apply wp_bind. eapply see_proc_load; [done..|]. intros (_ & Hl & _).
  destruct (lookupZ_lt (p_regs (v_proc v p)) (REG_A0 + i)) as [x Hx].
  { rewrite Hl. unfold REG_A0, REG_CNT. lia. }
  eapply wp_array_get; [done|]. unfold reg in HQ. by rewrite Hx in HQ.
Qed.

Lemma wp_ctable_get pid idx Q :
  0 <= pid < S3K_PROC_CNT -> 0 <= idx < S3K_CAP_CNT ->
  (forall c, in_table c -> cte_pid c = pid -> Q c s) ->
  wp (on_ct (ctable_get pid idx)) Q s.
Proof.
  intros Hp Hi HQ. apply wp_zoom. unfold ctable_get.
  apply wp_bind, wp_kassert; [apply Z.ltb_lt; lia|].
  apply wp_bind, wp_kassert; [apply Z.ltb_lt; lia|]. apply wp_ret.
  cbn [l_set l_get l_ctable]. rewrite set_ctable_id. apply HQ.
  - by apply ctable_entry.
  - unfold cte_pid. rewrite offset_in_table by by apply ctable_entry.
    symmetry. apply Z.div_unique with idx; lia.
Qed.

Lemma in_own_cte idx Q :
  0 <= idx < S3K_CAP_CNT ->
  (forall c, in_table c -> cte_pid c = p -> Q c s) -> wp (own_cte p idx) Q s.
Proof.
  intros Hi HQ. destruct D as [D1 D2 D3 D4]. unfold own_cte, p_pid_of. see.
  destruct H as (-> & _). by apply wp_ctable_get.
Qed.

(** Capability operations in the authority of [p]. *)
Definition continues (Q : err_t -> kstate -> Prop) : Prop :=
  forall e s' v', during p v0 s' v' -> Q e s'.

Lemma in_move src dst Q :
  in_table src -> in_table dst -> controls v p src -> controls v p dst -> continues Q ->
  wp (cap_move src dst) Q s.
Proof.
  intros Hs Hd Cs Cd HQ. eapply see_cap_move; [apply D|done..|]. intros s' Hs'.
  eapply HQ, (during_op (OpMove src dst)); [done|by left|done].
Qed.

Lemma in_delete c Q :
  in_table c -> cte_pid c = p -> continues Q -> wp (cap_delete c) Q s.
Proof.
  intros Hc Hp HQ. eapply see_cap_delete; [apply D|done..|]. intros s' Hs'.
  by eapply HQ, (during_op (OpDelete c)).
Qed.

Lemma in_derive src dst k Q :
  in_table src -> in_table dst -> cte_pid src = p -> cte_pid dst = p ->
  word_ok k = true -> cap_is_valid k = true -> continues Q ->
  wp (cap_derive src dst k) Q s.
Proof.
  intros Hs Hd Es Ed Hw Hv HQ. eapply see_cap_derive; [apply D|done..|]. intros s' Hs'.
  by eapply HQ, (during_op (OpDerive src dst k)).
Qed.

Lemma in_pmp_load c slot Q :
  in_table c -> controls v p c -> valid_slot slot = true -> continues Q ->
  wp (cap_pmp_load c slot) Q s.
Proof.
  intros Hc Hp Hsl HQ. unfold valid_slot in Hsl. breflect.
  eapply see_cap_pmp_load; [apply D|done..|]. intros s' Hs'.
  eapply HQ, (during_op (OpLoad c (u8 slot))); [|done|done]. split; [done|].
  split; [|done]. apply Z.mod_pos_bound. lia.
Qed.

Lemma in_pmp_unload c Q :
  in_table c -> controls v p c -> continues Q -> wp (cap_pmp_unload c) Q s.
Proof.
  intros Hc Hp HQ. eapply see_cap_pmp_unload; [apply D|done..|]. intros s' Hs'.
  by eapply HQ, (during_op (OpUnload c)).
Qed.

Lemma in_revoke E fuel n c Q :
  in_table c -> cte_pid c = p -> E OutOfFuel \/ fires (v_hw v) n /\ (n < fuel)%nat -> continues Q ->
  wpe E (cap_revoke fuel c) Q s.
Proof.
  intros Hc Hp Hf HQ. destruct D as [D1 D2 D3 D4].
  eapply see_cap_revoke; [done..|]. intros e s' v' Hs' Hk Hr. apply (HQ e s' v').
  split; [done|by etrans| |done]. eapply running_same; [|done]. apply Hr.
Qed.

(** ** Monitors *)

Lemma u16_pid pid : valid_proc pid -> u16 pid = pid.
Proof. unfold valid_proc. config_bounds. intros. apply Z.mod_small. lia. Qed.

Lemma see_check_monitor mon pid b Q :
  in_table mon -> cte_pid mon = p -> valid_proc pid ->
  (forall e, e <> SUCCESS -> Q e s) ->
  ((b = true -> monitors v p pid) -> Q SUCCESS s) ->
  wp (check_monitor mon pid b) Q s.
Proof.
  intros Hm Hmp Hpid HE HS. pose proof (d_sees _ _ _ _ D) as Hs. unfold check_monitor.
  rewrite u16_pid by done. see.
  destruct (_ || _) eqn:Eb; [see; by apply HE|]. breflect.
  destruct Eb as [[Ek E1] E2]. destruct b; [|see; by apply HS].
  see. unfold proc_is_suspended. see.
  destruct (Z.eqb_spec (p_state (v_proc v pid)) PSF_SUSPENDED) as [E|]; cbn [negb];
    see; [|by apply HE].
  apply HS. intros _. exists mon. by repeat (split; [done|]).
Qed.

Lemma see_check_monitor_move mon src dst Q :
  in_table mon -> cte_pid mon = p -> in_table src -> in_table dst ->
  (forall e, e <> SUCCESS -> Q e s) ->
  (controls v p src -> controls v p dst -> Q SUCCESS s) ->
  wp (check_monitor_move mon src dst) Q s.
Proof.
  intros Hm Hmp Hsrc Hdst HE HS. unfold check_monitor_move. rewrite Hmp.
  assert (Herr : forall e, e <> SUCCESS -> is_err e = true) by by intros [].
  assert (Hone : forall c (P : err_t -> kstate -> Prop), in_table c ->
    (forall e, e <> SUCCESS -> P e s) -> (controls v p c -> P SUCCESS s) ->
    wp (if negb (p =? cte_pid c) then check_monitor mon (cte_pid c) true else ret SUCCESS) P s).
  { intros c P Hc PE PS. destruct (Z.eqb_spec p (cte_pid c)) as [E|]; cbn [negb].
    - see. apply PS. by left.
    - eapply see_check_monitor; [done|done|by apply cte_pid_range|done|].
      intros H. apply PS. right. by apply H. }
  apply wp_bind, Hone; [done| |].
  { intros e He. rewrite Herr by done. see. by apply HE. }
  intros Cs. cbn [is_err err_code Z.eqb negb]. apply wp_bind, Hone; [done| |].
  { intros e He. rewrite Herr by done. see. by apply HE. }
  intros Cd. see. by apply HS.
Qed.
End Rules.
End During.

Section Monitors.
Context `{C : Config} {Cok : ConfigOk C}.
Context (p : Z) (v0 : view) (s : kstate) (v : view) (D : during p v0 s v).

Lemma valid_pid_u16 pid : valid_pid pid = true -> valid_proc (u16 pid).
Proof.
  unfold valid_pid, valid_proc, u16. intros H. breflect. split; [|done].
  apply Z.mod_pos_bound. lia.
Qed.

Lemma is_err_true e : e <> SUCCESS -> is_err e = true.
Proof. by destruct e. Qed.

Lemma in_suspend q Q :
  valid_proc q -> (forall s' v', during p v0 s' v' -> Q tt s') -> wp (proc_suspend q) Q s.
Proof.
  intros Hq HQ. destruct D as [D1 D2 D3 D4]. unfold proc_suspend. see.
  assert (D' : during p v0 s0 (v_set_proc q (set_state
    (Z.lor (p_state (v_proc v q)) PSF_SUSPENDED) (v_proc v q)) v)).
  { eapply during_proc; [done|done|done|]. intros ->. unfold running in *. cbn.
    rewrite fupd_eq. cbn. right. by destruct D3 as [-> | ->]. }
  destruct (Z.eqb_spec (Z.land (p_state (v_proc v q)) PSF_BLOCKED) 0) as [|Hb]; cbn [negb].
  { see. by eapply HQ. }
  assert (Hne : q <> p).
  { intros ->. by destruct D3 as [E|E]; rewrite E in Hb. }
  see_step. see_step. eapply in_reg_set; [|done|done|exact HQ].
  eapply during_proc; [exact D'|done|done|done].
Qed.

Lemma in_resume q Q :
  valid_proc q -> (forall s' v', during p v0 s' v' -> Q tt s') -> wp (proc_resume q) Q s.
Proof.
  intros Hq HQ. pose proof D as [D1 D2 D3 D4]. unfold proc_resume. do 3 see_step.
  assert (Hend : forall s1 v1, during p v0 s1 v1 ->
    wp (proc_update q (fun x => set_state (Z.land (p_state x) (Z.lnot PSF_SUSPENDED)) x)) Q s1).
  { intros s1 v1 D'. pose proof (d_sees _ _ _ _ D'). see.
    eapply HQ, during_proc; [done|done|done|]. intros ->. destruct D' as [_ _ H1 _].
    unfold running in *. cbn. rewrite fupd_eq. cbn. left. by destruct H1 as [-> | ->]. }
  destruct (_ =? PSF_SUSPENDED); [|see_step; by eapply Hend].
  see_step. eapply Hend, during_proc; [done|done|done|]. intros ->.
  unfold running in *. cbn. by rewrite fupd_eq.
Qed.

Lemma in_mon_suspend mon pid Q :
  in_table mon -> cte_pid mon = p -> valid_pid pid = true -> continues p v0 Q ->
  wp (cap_monitor_suspend mon pid) Q s.
Proof.
  intros Hm Hmp Hpid%valid_pid_u16 HQ. unfold cap_monitor_suspend. apply wp_bind.
  eapply see_check_monitor; [done..| |].
  - intros e He. rewrite is_err_true by done. see. by eapply HQ.
  - intros _. cbn [is_err err_code Z.eqb negb]. apply wp_bind.
    apply wp_bind. eapply see_proc_get; [apply D|done|]. eapply in_suspend; [done|].
    intros s' v' D'. see. by eapply HQ.
Qed.

Lemma in_mon_resume mon pid Q :
  in_table mon -> cte_pid mon = p -> valid_pid pid = true -> continues p v0 Q ->
  wp (cap_monitor_resume mon pid) Q s.
Proof.
  intros Hm Hmp Hpid%valid_pid_u16 HQ. unfold cap_monitor_resume. apply wp_bind.
  eapply see_check_monitor; [done..| |].
  - intros e He. rewrite is_err_true by done. see. by eapply HQ.
  - intros _. cbn [is_err err_code Z.eqb negb]. apply wp_bind.
    apply wp_bind. eapply see_proc_get; [apply D|done|]. eapply in_resume; [done|].
    intros s' v' D'. see. by eapply HQ.
Qed.

Lemma in_mon_state_get mon pid Q :
  in_table mon -> cte_pid mon = p -> valid_pid pid = true -> (forall r, Q r s) ->
  wp (cap_monitor_state_get mon pid) Q s.
Proof.
  intros Hm Hmp Hpid%valid_pid_u16 HQ. pose proof (d_sees _ _ _ _ D).
  unfold cap_monitor_state_get. apply wp_bind.
  eapply see_check_monitor; [done..| |].
  - intros e He. rewrite is_err_true by done. see. apply HQ.
  - intros _. cbn [is_err err_code Z.eqb negb]. see. apply HQ.
Qed.

Lemma in_mon_yield mon pid Q :
  in_table mon -> cte_pid mon = p -> valid_pid pid = true ->
  (forall e n s' v', during p v0 s' v' -> next_ok p v' (Some n) -> Q (e, n) s') ->
  wp (cap_monitor_yield mon pid p) Q s.
Proof.
  intros Hm Hmp Hpid%valid_pid_u16 HQ. pose proof D as [D1 D2 D3 D4].
  unfold cap_monitor_yield. apply wp_bind.
  eapply see_check_monitor; [done..| |].
  - intros e He. rewrite is_err_true by done. see. eapply HQ; [done|by left].
  - intros _. cbn [is_err err_code Z.eqb negb]. do 3 see_step.
    eapply (see_acquire _ v p); [done..| |]; intros s1 v1 Hs1 Hq.
    + see. eapply HQ; [|by left].
      eapply during_frame; [done|done|apply Hq|by eapply quiet_running].
    + intros Hne Hb. see. eapply HQ; [|by right].
      eapply during_frame; [done|done|apply Hq|by eapply quiet_running].
Qed.

Lemma u32_reg r : 0 <= u32 r.
Proof. unfold u32. apply Z.mod_pos_bound. lia. Qed.

Lemma in_mon_reg_read mon pid r Q :
  in_table mon -> cte_pid mon = p -> valid_pid pid = true -> valid_reg r = true ->
  (forall x, Q x s) -> wp (cap_monitor_reg_read mon pid r) Q s.
Proof.
  intros Hm Hmp Hpid%valid_pid_u16 Hr HQ. pose proof (d_sees _ _ _ _ D).
  unfold valid_reg in Hr. breflect. pose proof (u32_reg r).
  unfold cap_monitor_reg_read. apply wp_bind.
  eapply see_check_monitor; [done..| |].
  - intros e He. rewrite is_err_true by done. see. apply HQ.
  - intros _. cbn [is_err err_code Z.eqb negb]. see. apply HQ.
Qed.

Lemma in_mon_reg_write mon pid r x Q :
  in_table mon -> cte_pid mon = p -> valid_pid pid = true -> valid_reg r = true ->
  continues p v0 Q -> wp (cap_monitor_reg_write mon pid r x) Q s.
Proof.
  intros Hm Hmp Hpid%valid_pid_u16 Hr HQ. pose proof (d_sees _ _ _ _ D).
  unfold valid_reg in Hr. breflect. pose proof (u32_reg r).
  unfold cap_monitor_reg_write. apply wp_bind.
  eapply see_check_monitor; [done..| |].
  - intros e He. rewrite is_err_true by done. see. by eapply HQ.
  - intros _. cbn [is_err err_code Z.eqb negb]. do 3 see_step.
    eapply in_reg_set; [done|done|done|]. intros s' v' D'. see. by eapply HQ.
Qed.

Lemma in_mon_cap_read mon src Q :
  in_table mon -> cte_pid mon = p -> in_table src -> (forall r, Q r s) ->
  wp (cap_monitor_cap_read mon src) Q s.
Proof.
  intros Hm Hmp Hsrc HQ. pose proof (d_sees _ _ _ _ D).
  unfold cap_monitor_cap_read. apply wp_bind.
  eapply see_check_monitor; [done|done|done|by apply cte_pid_range| |].
  - intros e He. rewrite is_err_true by done. see. apply HQ.
  - intros _. cbn [is_err err_code Z.eqb negb]. unfold cap_read. see. apply HQ.
Qed.

Lemma in_mon_cap_move mon src dst Q :
  in_table mon -> cte_pid mon = p -> in_table src -> in_table dst -> continues p v0 Q ->
  wp (cap_monitor_cap_move mon src dst) Q s.
Proof.
  intros Hm Hmp Hsrc Hdst HQ. unfold cap_monitor_cap_move. apply wp_bind.
  eapply see_check_monitor_move; [done..| |].
  - intros e He. rewrite is_err_true by done. see. by eapply HQ.
  - intros Cs Cd. cbn [is_err err_code Z.eqb negb]. by eapply in_move.
Qed.

Lemma in_mon_pmp_load mon c slot Q :
  in_table mon -> cte_pid mon = p -> in_table c -> valid_slot slot = true ->
  continues p v0 Q -> wp (cap_monitor_pmp_load mon c slot) Q s.
Proof.
  intros Hm Hmp Hc Hsl HQ. unfold cap_monitor_pmp_load. apply wp_bind.
  eapply see_check_monitor; [done|done|done|by apply cte_pid_range| |].
  - intros e He. rewrite is_err_true by done. see. by eapply HQ.
  - intros Cm. cbn [is_err err_code Z.eqb negb]. eapply in_pmp_load; [done|done| | |done].
    + right. by apply Cm.
    + unfold valid_slot in *. breflect. apply Z.ltb_lt. unfold u8 in *.
      rewrite Z.mod_mod by lia. done.
Qed.

Lemma in_mon_pmp_unload mon c Q :
  in_table mon -> cte_pid mon = p -> in_table c -> continues p v0 Q ->
  wp (cap_monitor_pmp_unload mon c) Q s.
Proof.
  intros Hm Hmp Hc HQ. unfold cap_monitor_pmp_unload. apply wp_bind.
  eapply see_check_monitor; [done|done|done|by apply cte_pid_range| |].
  - intros e He. rewrite is_err_true by done. see. by eapply HQ.
  - intros Cm. cbn [is_err err_code Z.eqb negb]. eapply in_pmp_unload; [done|done| |done].
    right. by apply Cm.
Qed.
End Monitors.

(** ** Validation

    What the validator of each system call checks: the kind of the check and
    the number of the argument, in order. *)

Inductive check := CIdx | CPid | CReg | CSlot | CCap.

Definition call_checks : list (list (check * Z)) :=
  [ []; [(CReg, 0)]; [(CReg, 0)]; []; [];
    [(CIdx, 0)]; [(CIdx, 0); (CIdx, 1)]; [(CIdx, 0)]; [(CIdx, 0)];
    [(CIdx, 0); (CIdx, 1); (CCap, 2)]; [(CIdx, 0); (CSlot, 1)]; [(CIdx, 0)];
    [(CIdx, 0); (CPid, 1)]; [(CIdx, 0); (CPid, 1)]; [(CIdx, 0); (CPid, 1)];
    [(CIdx, 0); (CPid, 1)]; [(CIdx, 0); (CPid, 1); (CReg, 2)];
    [(CIdx, 0); (CPid, 1); (CReg, 2)]; [(CIdx, 0); (CPid, 1); (CIdx, 2)];
    [(CIdx, 0); (CPid, 1); (CIdx, 2); (CPid, 3); (CIdx, 4)];
    [(CIdx, 0); (CPid, 1); (CIdx, 2); (CSlot, 3)]; [(CIdx, 0); (CPid, 1); (CIdx, 2)];
    [(CIdx, 0); (CIdx, 1)]; [(CIdx, 0); (CIdx, 1)]; [(CIdx, 0); (CIdx, 1)] ].

Definition checks (call : Z) : list (check * Z) := default [] (lookupZ call_checks call).

(** The error a failed check returns. *)
Definition check_err (k : check) : err_t :=
  match k with
  | CIdx => ERR_INVALID_INDEX
  | CPid => ERR_INVALID_PID
  | CReg => ERR_INVALID_REGISTER
  | CSlot => ERR_INVALID_SLOT
  | CCap => ERR_INVALID_DERIVATION
  end.

Section Validation.
Context `{C : Config} {Cok : ConfigOk C}.

Definition check_ok (k : check) (x : Z) : bool :=
  match k with
  | CIdx => valid_idx x
  | CPid => valid_pid x
  | CReg => valid_reg x
  | CSlot => valid_slot x
  | CCap => cap_is_valid x
  end.

(** The argument fits the width it is checked at. *)
Definition fits (k : check) (x : Z) : Prop :=
  match k with
  | CIdx | CPid => 0 <= x < 2 ^ 16
  | CReg => 0 <= x < 2 ^ 32
  | CSlot => 0 <= x < 2 ^ 8
  | CCap => 0 <= x < 2 ^ 64
  end.

(** The result of the checks on the arguments [args]. *)
Fixpoint run_checks (args : Z -> Z) (l : list (check * Z)) : err_t :=
  match l with
  | [] => SUCCESS
  | (k, i) :: l => if check_ok k (args i) then run_checks args l else check_err k
  end.

Definition args_of (v : view) (p i : Z) : Z := reg v p (REG_A0 + i).

Lemma run_checks_ok args l :
  run_checks args l = SUCCESS <-> Forall (fun ki => check_ok ki.1 (args ki.2) = true) l.
Proof.
  induction l as [|[k i] l IH]; cbn; [by split|]. rewrite Forall_cons, <- IH. cbn.
  destruct (check_ok k (args i)); [tauto|]. split; [by destruct k|by intros [? _]].
Qed.

(** The validators of the code are these checks. *)
Lemma see_validate p v0 s v call Q :
  during p v0 s v -> 0 <= call < zlen validators ->
  Q (run_checks (args_of v p) (checks call)) s ->
  wp (let* f := array_get validators call in f p) Q s.
Proof.
  intros D Hc HQ. apply wp_bind.
  assert (exists n : nat, call = Z.of_nat n /\ (n < 25)%nat) as (n & -> & Hn).
  { exists (Z.to_nat call). change (zlen validators) with 25 in Hc. lia. }
  clear Hc. do 25 (try destruct n as [|n]); [..|lia]; clear Hn.
  all: eapply wp_array_get; [reflexivity|].
  all: match type of HQ with context [checks ?x] =>
         let c := eval vm_compute in (checks x) in change (checks x) with c in HQ end.
  all: unfold args_of in HQ; cbn [run_checks check_ok check_err] in HQ.
  all: cbv delta [validate_get_info validate_reg_read validate_reg_write validate_sync
    validate_sleep validate_cap_read validate_cap_move validate_cap_delete
    validate_cap_revoke validate_cap_derive validate_pmp_load validate_pmp_unload
    validate_mon_suspend validate_mon_resume validate_mon_state_get validate_mon_yield
    validate_mon_state validate_mon_reg_read validate_mon_reg_write validate_mon_cap_read
    validate_mon_cap_move validate_mon_pmp_load validate_mon_pmp_unload validate_sock
    validate_sock_send validate_sock_recv validate_sock_sendrecv] beta.
  all: repeat first
    [ apply wp_ret; exact HQ
    | apply wp_bind; eapply in_arg; [exact D|lia|]
    | match goal with |- wp (if negb ?b then _ else _) _ _ => destruct b; cbn [negb] in HQ |- * end ].
Qed.
End Validation.

(** ** Handlers *)

Section Handlers.
Context `{C : Config} {Cok : ConfigOk C}.

Lemma see_pmp_sync s v p Q :
  sees s v -> valid_proc p ->
  (forall s' h, sees s' (v_set_hw h v) -> Q tt s') -> wp (proc_pmp_sync p) Q s.
Proof.
  intros Hs Hp HQ. unfold proc_pmp_sync. see. destruct H as (_ & _ & _ & Hl). config_bounds.
  do 8 (apply wp_data; [lia|intros ?]; apply wp_bind). apply wp_gets, wp_modify. rewrite (sees_hw _ _ Hs).
  eapply HQ, sees_set_hw; [done|]. exact (sees_hw_wf _ _ Hs).
Qed.

Context (p : Z) (v0 : view) (s : kstate) (v : view) (D : during p v0 s v).
Context (Q : option Z -> kstate -> Prop) (HQ : handled p v0 Q).

Abbreviation A i := (reg v p (REG_A0 + i)).
Definition idx_ok (x : Z) : Prop := 0 <= x < S3K_CAP_CNT.

Ltac hstep :=
  cbn beta iota;
  lazymatch goal with
  | |- wp (bind _ _) _ _ => apply wp_bind
  | |- wp (arg _ _) _ _ => eapply in_arg; [exact D|lia|]
  | |- wp (own_cte _ _) _ _ => eapply in_own_cte; [exact D|assumption|intros ?c ?Hc ?Hp]
  | |- wp (on_ct (ctable_get _ _)) _ _ =>
      eapply wp_ctable_get; [assumption|assumption|intros ?c ?Hc ?Hp]
  end.
Ltac hsteps := repeat hstep.

Lemma safe_get_info : wp (handle_get_info p) Q s.
Proof.
  pose proof D as [D1 D2 D3 D4]. unfold handle_get_info. hsteps.
  destruct (_ =? 0); [|destruct (_ =? 1); [|destruct (_ =? 2)]].
  - unfold p_pid_of. do 3 see_step. eapply in_reg_set; [done..|]. intros s' v' D'.
    by eapply in_return.
  - do 2 see_step. eapply in_reg_set; [|done|done|].
    { eapply during_frame; [done|done|by apply frame_set_hw|done]. }
    intros s' v' D'. by eapply in_return.
  - do 4 see_step. eapply in_reg_set; [done..|]. intros s' v' D'. by eapply in_return.
  - eapply in_reg_set; [done..|]. intros s' v' D'. by eapply in_return.
Qed.

(** A register of [p], after [T0] is written. *)
Lemma reg_after_t0 x i : 0 <= i ->
  reg (v_set_proc p (set_regs (insertZ REG_T0 x (p_regs (v_proc v p))) (v_proc v p)) v) p
    (REG_A0 + i) = A i.
Proof.
  intros Hi. unfold reg. cbn [v_proc v_set_proc]. rewrite fupd_eq. cbn [p_regs set_regs].
  rewrite lookupZ_insertZ_ne; [done|].
  unfold REG_T0, REG_A0. lia.
Qed.

Lemma in_set_t0 e P :
  (forall s' v', during p v0 s' v' -> (forall i, 0 <= i -> reg v' p (REG_A0 + i) = A i) -> P tt s') ->
  wp (set_t0 p e) P s.
Proof.
  intros HP. pose proof D as [D1 D2 D3 D4]. unfold set_t0. see. eapply HP.
  - eapply during_proc; [done|done|done|]. intros _. unfold running in *. cbn. by rewrite fupd_eq.
  - apply reg_after_t0.
Qed.

Lemma safe_reg_read : 0 <= A 0 < REG_CNT -> wp (handle_reg_read p) Q s.
Proof.
  intros Hr. unfold handle_reg_read. apply wp_bind, in_set_t0. intros s1 v1 D1 E1.
  apply wp_bind. eapply in_arg; [done|lia|]. rewrite E1 by lia.
  pose proof D1 as [F1 F2 F3 F4]. do 3 see_step. eapply in_reg_set; [done..|].
  intros s2 v2 D2. see_step. by eapply handled_self.
Qed.

Lemma safe_reg_write : 0 <= A 0 < REG_CNT -> wp (handle_reg_write p) Q s.
Proof.
  intros Hr. unfold handle_reg_write. apply wp_bind, in_set_t0. intros s1 v1 D1 E1.
  apply wp_bind. eapply in_arg; [done|lia|]. rewrite E1 by lia.
  apply wp_bind. eapply in_arg; [done|lia|].
  apply wp_bind. eapply in_reg_set; [done|apply D1|done|].
  intros s2 v2 D2. see_step. by eapply handled_self.
Qed.

Lemma safe_sync : wp (handle_sync p) Q s.
Proof.
  pose proof D as [D1 D2 D3 D4]. unfold handle_sync. hsteps. destruct (negb _).
  - see. eapply handled_none; [|done]. eapply during_proc; [done|done|done|].
    intros _. unfold running in *. cbn. by rewrite fupd_eq.
  - apply wp_bind. eapply see_pmp_sync; [done..|]. intros s1 h Hs1. see_step.
    eapply handled_self; [|done]. eapply during_frame; [done|done|by apply frame_set_hw|done].
Qed.

Lemma safe_sleep : wp (handle_sleep p) Q s.
Proof.
  unfold handle_sleep. apply wp_bind, in_set_t0. intros s1 v1 D1 E1.
  apply wp_bind. eapply in_arg; [done|lia|]. apply wp_bind.
  destruct (negb _); [|see_step; see_step; by eapply handled_none].
  pose proof D1 as [F1 F2 F3 F4]. see. eapply handled_none; [|done].
  eapply during_proc; [done|done|done|]. intros _. unfold running in *. cbn. by rewrite fupd_eq.
Qed.

Lemma safe_cap_read : idx_ok (A 0) -> wp (handle_cap_read p) Q s.
Proof.
  intros H0. unfold handle_cap_read. hsteps. pose proof D as [D1 D2 D3 D4].
  unfold cap_read. do 3 see_step. apply wp_bind. eapply in_reg_set; [done..|].
  intros s1 v1 D'. by eapply in_return.
Qed.

Lemma safe_cap_move : idx_ok (A 0) -> idx_ok (A 1) -> wp (handle_cap_move p) Q s.
Proof.
  intros H0 H1. unfold handle_cap_move. hsteps.
  eapply in_move; [done|done|done|by left|by left|]. intros e s' v' D'. by eapply in_return.
Qed.

Lemma safe_cap_delete : idx_ok (A 0) -> wp (handle_cap_delete p) Q s.
Proof.
  intros H0. unfold handle_cap_delete. hsteps.
  eapply in_delete; [done..|]. intros e s' v' D'. by eapply in_return.
Qed.

Lemma safe_cap_revoke E fuel n :
  idx_ok (A 0) -> E OutOfFuel \/ fires (v_hw v) n /\ (n < fuel)%nat -> wpe E (handle_cap_revoke fuel p) Q s.
Proof.
  intros H0 Hf. unfold handle_cap_revoke. apply wpe_bind, wpe_wp. hsteps. apply wpe_bind, wpe_wp. hsteps.
  apply wpe_bind. eapply in_revoke; [done..|]. intros e s' v' D'. apply wpe_wp, wp_bind.
  pose proof D' as [F1 F2 F3 F4]. eapply in_reg_set; [done..|]. intros s2 v2 D2.
  pose proof D2 as [G1 G2 G3 G4]. see. destruct (_ =? _);
    [by eapply handled_none|by eapply handled_self].
Qed.

Lemma safe_cap_derive :
  idx_ok (A 0) -> idx_ok (A 1) -> word_ok (A 2) = true -> cap_is_valid (A 2) = true ->
  wp (handle_cap_derive p) Q s.
Proof.
  intros H0 H1 Hw Hv. unfold handle_cap_derive. hsteps.
  eapply in_derive; [done..|]. intros e s' v' D'. by eapply in_return.
Qed.

Lemma safe_pmp_load : idx_ok (A 0) -> valid_slot (A 1) = true -> wp (handle_pmp_load p) Q s.
Proof.
  intros H0 Hs. unfold handle_pmp_load. hsteps.
  eapply in_pmp_load; [done|done|by left|done|]. intros e s' v' D'. by eapply in_return.
Qed.

Lemma safe_pmp_unload : idx_ok (A 0) -> wp (handle_pmp_unload p) Q s.
Proof.
  intros H0. unfold handle_pmp_unload. hsteps.
  eapply in_pmp_unload; [done|done|by left|]. intros e s' v' D'. by eapply in_return.
Qed.

Lemma safe_mon_suspend : idx_ok (A 0) -> valid_pid (A 1) = true ->
  wp (handle_mon_suspend p) Q s.
Proof.
  intros H0 H1. unfold handle_mon_suspend. hsteps.
  eapply in_mon_suspend; [done..|]. intros e s' v' D'. by eapply in_return.
Qed.

Lemma safe_mon_resume : idx_ok (A 0) -> valid_pid (A 1) = true ->
  wp (handle_mon_resume p) Q s.
Proof.
  intros H0 H1. unfold handle_mon_resume. hsteps.
  eapply in_mon_resume; [done..|]. intros e s' v' D'. by eapply in_return.
Qed.

Lemma in_store_a0 out e :
  wp (do* store_a0 p out in do* set_t0 p e in ret (Some p)) Q s.
Proof.
  unfold store_a0. apply wp_bind. destruct out as [x|]; [|see_step; by eapply in_return].
  eapply in_reg_set; [done|apply D|done|]. intros s1 v1 D1. by eapply in_return.
Qed.

Lemma safe_mon_state_get : idx_ok (A 0) -> valid_pid (A 1) = true ->
  wp (handle_mon_state_get p) Q s.
Proof.
  intros H0 H1. unfold handle_mon_state_get. hsteps.
  eapply in_mon_state_get; [done..|]. intros r. apply in_store_a0.
Qed.

Lemma safe_mon_yield : idx_ok (A 0) -> valid_pid (A 1) = true ->
  wp (handle_mon_yield p) Q s.
Proof.
  intros H0 H1. unfold handle_mon_yield. hsteps.
  eapply in_mon_yield; [done..|]. intros e n s' v' D' Hn. cbn [fst snd].
  apply wp_bind. unfold set_t0. pose proof D' as [F1 F2 F3 F4]. see.
  assert (D2 : during p v0 s0 (v_set_proc p (set_regs
    (insertZ REG_T0 (err_u64 e) (p_regs (v_proc v' p))) (v_proc v' p)) v')).
  { eapply during_proc; [done|done|done|]. intros _. unfold running in *. cbn. by rewrite fupd_eq. }
  pose proof D2 as [G1 G2 G3 G4]. eapply HQ; [done|done|by apply running_busy|done|].
  destruct Hn as [->|(Hne & Hv & E)]; [by left|]. right. split; [done|]. split; [done|].
  cbn. by rewrite fupd_ne.
Qed.

Lemma safe_mon_reg_read : idx_ok (A 0) -> valid_pid (A 1) = true -> valid_reg (A 2) = true ->
  wp (handle_mon_reg_read p) Q s.
Proof.
  intros H0 H1 H2. unfold handle_mon_reg_read. hsteps.
  eapply in_mon_reg_read; [done..|]. intros r. apply in_store_a0.
Qed.

Lemma safe_mon_reg_write : idx_ok (A 0) -> valid_pid (A 1) = true -> valid_reg (A 2) = true ->
  wp (handle_mon_reg_write p) Q s.
Proof.
  intros H0 H1 H2. unfold handle_mon_reg_write. hsteps.
  eapply in_mon_reg_write; [done..|]. intros e s' v' D'. by eapply in_return.
Qed.

Lemma safe_mon_cap_read : idx_ok (A 0) -> valid_proc (A 1) -> idx_ok (A 2) ->
  wp (handle_mon_cap_read p) Q s.
Proof.
  intros H0 H1 H2. unfold handle_mon_cap_read. hsteps.
  eapply in_mon_cap_read; [done..|]. intros r. apply in_store_a0.
Qed.

Lemma safe_mon_cap_move :
  idx_ok (A 0) -> valid_proc (A 1) -> idx_ok (A 2) -> valid_proc (A 3) -> idx_ok (A 4) ->
  wp (handle_mon_cap_move p) Q s.
Proof.
  intros H0 H1 H2 H3 H4. unfold handle_mon_cap_move. hsteps.
  eapply in_mon_cap_move; [done..|]. intros e s' v' D'. by eapply in_return.
Qed.

Lemma safe_mon_pmp_load :
  idx_ok (A 0) -> valid_proc (A 1) -> idx_ok (A 2) -> valid_slot (A 3) = true ->
  wp (handle_mon_pmp_load p) Q s.
Proof.
  intros H0 H1 H2 H3. unfold handle_mon_pmp_load. hsteps.
  eapply in_mon_pmp_load; [done..|]. intros e s' v' D'. by eapply in_return.
Qed.

Lemma safe_mon_pmp_unload : idx_ok (A 0) -> valid_proc (A 1) -> idx_ok (A 2) ->
  wp (handle_mon_pmp_unload p) Q s.
Proof.
  intros H0 H1 H2. unfold handle_mon_pmp_unload. hsteps.
  eapply in_mon_pmp_unload; [done..|]. intros e s' v' D'. by eapply in_return.
Qed.

(** The result of an IPC operation, and the end of its handlers. *)
Lemma in_ipc (P : err_t * option Z -> kstate -> Prop) :
  (forall e next s' v', sees s' v' -> ksteps p v0 v' -> busy v' p ->
    (next = Some p -> running v' p) -> next_ok p v' next -> P (e, next) s') ->
  ipc_post p v P.
Proof. intros HP e next s' v' H1 H2. apply HP; [done|]. etrans; [apply D|done]. Qed.

Lemma ipc_return s' v' e next :
  sees s' v' -> ksteps p v0 v' -> busy v' p -> (next = Some p -> running v' p) ->
  next_ok p v' next -> wp (do* set_t0 p e in ret next) Q s'.
Proof.
  intros Hs Hk Hb Hr Hn. unfold set_t0. destruct D as [_ _ _ D4]. see.
  eapply HQ; [done| | | |].
  - eapply rtc_r; [done|]. by apply k_frame, frame_set_proc.
  - unfold busy in *. cbn. by rewrite fupd_eq.
  - intros E. specialize (Hr E). unfold running in *. cbn. by rewrite fupd_eq.
  - destruct next as [n|]; [|done]. destruct Hn as [->|(Hne & Hv & E)]; [by left|].
    right. split; [done|]. split; [done|]. cbn. by rewrite fupd_ne.
Qed.

Lemma in_sock_msg P :
  idx_ok (A 1) -> (forall msg, msg_ok p msg -> P msg s) -> wp (sock_msg p) P s.
Proof. intros H1 HP. unfold sock_msg. hsteps. apply wp_ret, HP. by split. Qed.

Lemma safe_sock_send : idx_ok (A 0) -> idx_ok (A 1) -> wp (handle_sock_send p) Q s.
Proof.
  intros H0 H1. unfold handle_sock_send. hsteps. apply in_sock_msg; [done|]. intros msg Hm.
  apply wp_bind. destruct D as [D1 D2 D3 D4]. eapply see_cap_sock_send; [done..|].
  apply in_ipc. intros. by eapply ipc_return.
Qed.

Lemma safe_sock_recv : idx_ok (A 0) -> idx_ok (A 1) -> wp (handle_sock_recv p) Q s.
Proof.
  intros H0 H1. unfold handle_sock_recv. hsteps.
  destruct D as [D1 D2 D3 D4]. eapply see_cap_sock_recv; [done..|].
  apply in_ipc. intros. by eapply ipc_return.
Qed.

Lemma safe_sock_sendrecv : idx_ok (A 0) -> idx_ok (A 1) -> wp (handle_sock_sendrecv p) Q s.
Proof.
  intros H0 H1. unfold handle_sock_sendrecv. hsteps. apply in_sock_msg; [done|]. intros msg Hm.
  apply wp_bind. destruct D as [D1 D2 D3 D4]. eapply see_cap_sock_sendrecv; [done..|].
  apply in_ipc. intros. by eapply ipc_return.
Qed.
End Handlers.

(** ** The capability lock *)

Section Lock.
Context `{C : Config} {Cok : ConfigOk C}.

(** The other harts leave the lock free from the [n]-th access on. *)
Definition lock_frees (h : hw_t) (n : nat) : Prop :=
  forall m, (tick h + n <= m)%nat -> lock_word h m = 0.

(** From the [n]-th access to the devices on, the timer interrupt of the slice
    is pending and the lock is free. *)
Definition settles (h : hw_t) (n : nat) : Prop := fires h n /\ lock_frees h n.

Lemma settles_later h h' n : later h h' -> settles h n -> settles h' n.
Proof.
  intros [E1 E2 E3 _ _ _] [H1 H2]. split; intros m Hm.
  - rewrite E1. apply H1. lia.
  - rewrite E2. apply H2. lia.
Qed.

Lemma lock_frees_later h h' n k :
  later h h' -> (tick h + k <= tick h')%nat -> lock_frees h n -> lock_frees h' (n - k).
Proof. intros [_ E _ _ _ _] Hk H m Hm. rewrite E. apply H. lia. Qed.

Lemma see_lock_access s v Q :
  sees s v ->
  (forall s', sees s' (v_set_hw (hw_tick (v_hw v)) v) -> Q (lock_word (v_hw v) (tick (v_hw v))) s') ->
  wp lock_access Q s.
Proof.
  intros Hs HQ. unfold wp, lock_access, bind, gets, modify, ret. rewrite (sees_hw _ _ Hs).
  apply HQ, sees_set_hw; [done|]. apply (sees_hw_wf _ _ Hs).
Qed.

Lemma see_lock_release s v Q :
  sees s v -> (forall s', sees s' (v_set_hw (hw_tick (v_hw v)) v) -> Q tt s') ->
  wp lock_release Q s.
Proof.
  intros Hs HQ. apply wp_modify, HQ. rewrite (sees_hw _ _ Hs). apply sees_set_hw; [done|].
  apply (sees_hw_wf _ _ Hs).
Qed.

(** The end of a call under the lock. *)
Lemma handled_release p v0 Q :
  handled p v0 Q -> handled p v0 (fun next s => wp (do* lock_release in ret next) Q s).
Proof.
  intros HQ next s v Hs Hk Hb Hr Hn. apply wp_bind. eapply see_lock_release; [done|].
  intros s' Hs'. apply wp_ret. eapply HQ; [done| |done|done|done].
  eapply rtc_r; [done|]. by apply k_frame.
Qed.

Lemma see_taslock_wait E fuel : forall n s v Q,
  sees s v -> E OutOfFuel \/ lock_frees (v_hw v) n /\ (n < fuel)%nat ->
  (forall b s' v', sees s' v' -> ticked v v' -> (tick (v_hw v) < tick (v_hw v'))%nat -> Q b s') ->
  wpe E (taslock_wait fuel) Q s.
Proof.
  induction fuel as [|fuel IH]; intros n s v Q Hs Hf HQ; [destruct Hf as [|[]]; [done|lia]|].
  cbn [taslock_wait]. apply wpe_bind, wpe_wp. eapply see_lock_access; [done|]. intros s1 Hs1.
  destruct (Z.eqb_spec (lock_word (v_hw v) (tick (v_hw v))) 0) as [|Hb].
  { apply wpe_ret. eapply HQ; [done|apply ticked_tick|cbn; lia]. }
  apply wpe_bind, wpe_wp. see. destruct (negb _).
  { apply wpe_ret. eapply HQ; [done|eapply ticked_trans; apply ticked_tick|cbn; lia]. }
  eapply (IH (n - 1)%nat); [done| |].
  - destruct Hf as [|[Hf Hn]]; [by left|right].
    destruct n as [|n]; [exfalso; apply Hb, Hf; lia|]. split; [|lia].
    eapply (lock_frees_later (v_hw v) (hw_tick (hw_tick (v_hw v))) (S n) 1);
      [etrans; apply later_tick|cbn; lia|done].
  - intros b s' v' Hs' Ht Hl. eapply HQ; [done| |cbn in Hl; lia].
    eapply ticked_trans; [|done]. eapply ticked_trans; apply ticked_tick.
Qed.

Lemma see_taslock_acquire E fuel : forall n s v Q,
  sees s v -> E OutOfFuel \/ lock_frees (v_hw v) n /\ (n + 1 < fuel)%nat ->
  (forall b s' v', sees s' v' -> ticked v v' -> Q b s') ->
  wpe E (taslock_acquire fuel) Q s.
Proof.
  induction fuel as [|fuel IH]; intros n s v Q Hs Hf HQ; [destruct Hf as [|[]]; [done|lia]|].
  cbn [taslock_acquire]. apply wpe_bind.
  eapply (see_taslock_wait E fuel n); [done|destruct Hf as [|[]]; [by left|right; split; [done|lia]]|].
  intros b s1 v1 Hs1 T1 L1.
  destruct b; cbn [negb]; [|apply wpe_ret; by eapply HQ]. apply wpe_bind, wpe_bind, wpe_wp.
  eapply see_lock_access; [done|]. intros s2 Hs2. apply wpe_ret.
  assert (T2 : ticked v (v_set_hw (hw_tick (v_hw v1)) v1)).
  { eapply ticked_trans; [done|apply ticked_tick]. }
  destruct (Z.eqb_spec (lock_word (v_hw v1) (tick (v_hw v1))) 0) as [|Hb];
    [apply wpe_ret; by eapply HQ|].
  destruct T1 as (h & Hl & ->). cbn [v_hw v_set_hw] in *.
  eapply (IH (n - 1)%nat); [done| |].
  - destruct Hf as [|[Hf Hn]]; [by left|right]. destruct n as [|n].
    { exfalso. apply Hb. destruct Hl as [_ -> Hl _ _ _]. apply Hf. lia. }
    split; [|lia]. eapply (lock_frees_later (v_hw v) (hw_tick h) (S n) 1);
      [etrans; [done|apply later_tick]|cbn; lia|done].
  - intros b s' v' Hs' Ht. eapply HQ; [done|]. by eapply ticked_trans.
Qed.
End Lock.

(** ** Dispatch *)

Section Dispatch.
Context `{C : Config} {Cok : ConfigOk C}.

(** The arguments of a kind that the handler uses as they are.  Slots, and the pids
    and registers in calls on a monitored process, it truncates to the width they
    are checked at. *)
Definition exact (call : Z) (k : check) : bool :=
  match k with
  | CIdx | CCap => true
  | CPid => SYS_MON_CAP_READ <=? call
  | CReg => call <=? SYS_REG_WRITE
  | CSlot => false
  end.

(** The arguments of the system call of [p] that are used as they are fit the widths
    they are checked at. *)
Definition fits_args (v : view) (p : Z) : Prop :=
  0 <= reg v p REG_T0 /\
  Forall (fun ki => exact (reg v p REG_T0) ki.1 = true -> fits ki.1 (args_of v p ki.2)) (checks (reg v p REG_T0)).

(** The registers of [p] hold words. *)
Definition word_regs (v : view) (p : Z) : Prop := forall r, 0 <= r < REG_CNT -> 0 <= reg v p r < 2 ^ 64.

(** Checked arguments that fit are what the handlers use them for. *)
Lemma fits_idx x : check_ok CIdx x = true -> fits CIdx x -> idx_ok x.
Proof.
  cbn. unfold valid_idx, u16, idx_ok. intros H Hx. breflect. rewrite Z.mod_small in H by lia. lia.
Qed.
Lemma fits_pid x : check_ok CPid x = true -> fits CPid x -> valid_proc x.
Proof.
  cbn. unfold valid_pid, u16, valid_proc. intros H Hx. breflect.
  rewrite Z.mod_small in H by lia. lia.
Qed.
Lemma fits_reg x : check_ok CReg x = true -> fits CReg x -> 0 <= x < REG_CNT.
Proof.
  cbn. unfold valid_reg, u32. intros H Hx. breflect. rewrite Z.mod_small in H by lia. lia.
Qed.
Lemma fits_cap x : fits CCap x -> word_ok x = true.
Proof. cbn. unfold word_ok. intros. rewrite andb_true_iff, Z.leb_le, Z.ltb_lt. lia. Qed.

End Dispatch.

(** The checks of a call and what they give, one by one. *)
Ltac one_call m :=
  do 25 (try destruct m as [|m]); [..|lia].
Ltac given_checks Hok Hfit :=
  match type of Hok with context [checks ?x] =>
    let c := eval vm_compute in (checks x) in change (checks x) with c in Hok, Hfit end;
  repeat match goal with
  | H : Forall _ (_ :: _) |- _ => apply Forall_cons in H as [? ?]
  end; cbn [fst snd] in *;
  repeat match goal with
  | H : exact ?c ?k = true -> _ |- _ =>
      let b := eval vm_compute in (exact c k) in
      lazymatch b with true => specialize (H eq_refl) | false => clear H end
  end.
Ltac used_checks :=
  repeat match goal with
  | H1 : check_ok ?k ?x = true, H2 : fits ?k ?x |- _ =>
      lazymatch k with
      | CIdx => pose proof (fits_idx _ H1 H2); clear H2
      | CPid => pose proof (fits_pid _ H1 H2); clear H2
      | CReg => pose proof (fits_reg _ H1 H2); clear H2
      | CCap => pose proof (fits_cap _ H2); clear H2
      end
  end.

Section Handling.
Context `{C : Config} {Cok : ConfigOk C}.

Lemma safe_handler E p v0 s v fuel n call Q :
  during p v0 s v -> 0 <= call < zlen validators ->
  run_checks (args_of v p) (checks call) = SUCCESS ->
  Forall (fun ki => exact call ki.1 = true -> fits ki.1 (args_of v p ki.2)) (checks call) ->
  E OutOfFuel \/ fires (v_hw v) n /\ (n < fuel)%nat -> handled p v0 Q ->
  wpe E (run_handler fuel call p) Q s.
Proof.
  intros D Hc Hok Hfit Hf HQ. apply run_checks_ok in Hok. apply wpe_bind, wpe_wp.
  assert (exists m : nat, call = Z.of_nat m /\ (m < 25)%nat) as (m & -> & Hm).
  { exists (Z.to_nat call). change (zlen validators) with 25 in Hc. lia. }
  clear Hc. one_call m; clear Hm.
  all: eapply wp_array_get; [reflexivity|]; given_checks Hok Hfit; unfold args_of in *; used_checks.
  9: by eapply safe_cap_revoke.
  all: apply wpe_wp.
  - by eapply safe_get_info.
  - by eapply safe_reg_read.
  - by eapply safe_reg_write.
  - by eapply safe_sync.
  - by eapply safe_sleep.
  - by eapply safe_cap_read.
  - by eapply safe_cap_move.
  - by eapply safe_cap_delete.
  - by eapply safe_cap_derive.
  - by eapply safe_pmp_load.
  - by eapply safe_pmp_unload.
  - by eapply safe_mon_suspend.
  - by eapply safe_mon_resume.
  - by eapply safe_mon_state_get.
  - by eapply safe_mon_yield.
  - by eapply safe_mon_reg_read.
  - by eapply safe_mon_reg_write.
  - by eapply safe_mon_cap_read.
  - by eapply safe_mon_cap_move.
  - by eapply safe_mon_pmp_load.
  - by eapply safe_mon_pmp_unload.
  - by eapply safe_sock_send.
  - by eapply safe_sock_recv.
  - by eapply safe_sock_sendrecv.
Qed.

Lemma see_reg s v p r Q :
  sees s v -> valid_proc p -> 0 <= r < REG_CNT -> Q (reg v p r) s -> wp (reg_get p r) Q s.
Proof.
  intros Hs Hp Hr HQ. eapply see_reg_get; [done..|]. intros x Hx. unfold reg in HQ.
  by rewrite Hx in HQ.
Qed.

Lemma in_advance_pc p v0 s v P :
  during p v0 s v ->
  (forall s' v', during p v0 s' v' -> (forall i, 0 <= i -> args_of v' p i = args_of v p i) ->
     v_hw v' = v_hw v -> P tt s') ->
  wp (advance_pc p) P s.
Proof.
  intros D HP. pose proof D as [D1 D2 D3 D4]. unfold advance_pc. see.
  eapply (HP _ (v_set_proc p _ v)); [| |done].
  - eapply during_proc; [done|done|done|]. intros _. unfold running in *. cbn. by rewrite fupd_eq.
  - intros i Hi. unfold args_of, reg. cbn [v_proc v_set_proc]. rewrite fupd_eq.
    cbn [p_regs set_regs]. rewrite lookupZ_insertZ_ne; [done|]. unfold REG_PC, REG_A0. lia.
Qed.

Lemma during_ticked p v0 s v s' v' :
  during p v0 s v -> sees s' v' -> ticked v v' ->
  during p v0 s' v' /\ (forall i, args_of v' p i = args_of v p i).
Proof.
  intros D Hs (h & Hl & ->). split; [|done].
  eapply during_frame; [done|done|done|]. by destruct D.
Qed.

Lemma run_checks_ext args args' l :
  Forall (fun ki => args' ki.2 = args ki.2) l -> run_checks args' l = run_checks args l.
Proof. induction 1 as [|[k i] l E _ IH]; cbn in *; [done|]. by rewrite E, IH. Qed.

(** The positions of the checks are argument numbers. *)
Lemma checks_nonneg call : Forall (fun ki => 0 <= ki.2) (checks call).
Proof.
  unfold checks. destruct (lookupZ call_checks call) as [l|] eqn:E; [|constructor].
  assert (Forall (Forall (fun ki => 0 <= ki.2)) call_checks) as H.
  { repeat constructor; cbn; lia. }
  unfold lookupZ in E. destruct (0 <=? call); [|done].
  eapply (Forall_lookup_1 _ _ _ _ H). done.
Qed.

(** *** Arguments wider than they are checked

    A capability index, process or register number that passes its check but does
    not fit the width of the check ends in a failed assertion or an access out of
    bounds. *)

#[global] Instance fits_dec k x : Decision (fits k x).
Proof. destruct k; apply _. Defined.

#[global] Instance idx_ok_dec x : Decision (idx_ok x).
Proof. apply _. Defined.

#[global] Instance valid_proc_dec x : Decision (valid_proc x).
Proof. apply _. Defined.

Section Wide.
Context (E : fault -> Prop) (HE : forall f, E f).

Lemma wide_ctable pid idx Q s :
  ~ valid_proc pid /\ 0 <= pid \/ ~ idx_ok idx /\ 0 <= idx ->
  wpe E (on_ct (ctable_get pid idx)) Q s.
Proof.
  unfold valid_proc, idx_ok. intros H.
  unfold wpe, on_ct, zoom, ctable_get, kassert, bind.
  destruct (Z.ltb_spec pid S3K_PROC_CNT); cbn; [|apply HE].
  destruct (Z.ltb_spec idx S3K_CAP_CNT); cbn; [lia|apply HE].
Qed.

Lemma wide_own_cte p idx Q s :
  ~ idx_ok idx -> 0 <= idx -> wpe E (own_cte p idx) Q s.
Proof.
  intros H1 H2. unfold own_cte. apply wpe_bind. unfold wpe at 1.
  destruct (p_pid_of p s); [|apply HE]. apply wide_ctable. by right.
Qed.

Lemma wide_reg_get p r Q s v :
  sees s v -> valid_proc p -> ~ (0 <= r < REG_CNT) -> wpe E (reg_get p r) Q s.
Proof.
  intros Hs Hp Hr. unfold reg_get. apply wpe_bind, wpe_wp. see. destruct H as (_ & Hl & _).
  unfold wpe, array_get. destruct (lookupZ _ r) eqn:E1; [|apply HE].
  apply lookupZ_Some_range in E1. lia.
Qed.

Lemma wide_reg_set p r x Q s v :
  sees s v -> valid_proc p -> ~ (0 <= r < REG_CNT) -> wpe E (reg_set p r x) Q s.
Proof.
  intros Hs Hp Hr. unfold reg_set. apply wpe_bind, wpe_wp. see. destruct H as (_ & Hl & _).
  apply wpe_bind. unfold wpe at 1, array_get. destruct (lookupZ _ r) eqn:E1; [|apply HE].
  apply lookupZ_Some_range in E1. lia.
Qed.

Context (p : Z) (v0 : view) (s : kstate) (v : view) (D : during p v0 s v).
Context (Hw : forall i, 0 <= i < 8 -> 0 <= args_of v p i < 2 ^ 64).

Lemma wide_reg_read Q : ~ (0 <= args_of v p 0 < REG_CNT) -> wpe E (handle_reg_read p) Q s.
Proof.
  intros Hr. unfold handle_reg_read. apply wpe_bind, wpe_wp. eapply in_set_t0; [done|].
  intros s1 v1 D1 E1. apply wpe_bind, wpe_wp. eapply in_arg; [done|lia|]. rewrite E1 by lia.
  apply wpe_bind. eapply wide_reg_get; [apply D1|apply D|done].
Qed.

Lemma wide_reg_write Q : ~ (0 <= args_of v p 0 < REG_CNT) -> wpe E (handle_reg_write p) Q s.
Proof.
  intros Hr. unfold handle_reg_write. apply wpe_bind, wpe_wp. eapply in_set_t0; [done|].
  intros s1 v1 D1 E1. apply wpe_bind, wpe_wp. eapply in_arg; [done|lia|]. rewrite E1 by lia.
  apply wpe_bind, wpe_wp. eapply in_arg; [done|lia|].
  apply wpe_bind. eapply wide_reg_set; [apply D1|apply D|done].
Qed.

Ltac wide_step :=
  cbn beta;
  lazymatch goal with
  | |- wpe _ (bind (bind _ _) _) _ _ => apply wpe_bind
  | |- wpe _ (ret _) _ _ => apply wpe_ret
  | |- wpe _ (bind (arg _ _) _) _ _ => apply wpe_bind, wpe_wp; eapply in_arg; [exact D|lia|]
  | |- wpe _ (bind (own_cte p ?x) _) _ _ =>
      destruct (decide (idx_ok x));
      [ apply wpe_bind, wpe_wp; eapply in_own_cte; [exact D|assumption|intros ? ? ?]
      | apply wpe_bind, wide_own_cte; [assumption|apply Hw; lia] ]
  | |- wpe _ (bind (on_ct (ctable_get ?q ?x)) _) _ _ =>
      destruct (decide (valid_proc q));
      [ destruct (decide (idx_ok x));
        [ apply wpe_bind, wpe_wp; apply wp_ctable_get; [assumption|assumption|intros ? ? ?]
        | apply wpe_bind, wide_ctable; right; split; [assumption|apply Hw; lia] ]
      | apply wpe_bind, wide_ctable; left; split; [assumption|apply Hw; lia] ]
  end.

Lemma idx_fits x : idx_ok x -> 0 <= x < 2 ^ 16.
Proof. unfold idx_ok. config_bounds. lia. Qed.
Lemma proc_fits x : valid_proc x -> 0 <= x < 2 ^ 16.
Proof. unfold valid_proc. config_bounds. lia. Qed.
Lemma reg_fits x : 0 <= x < REG_CNT -> 0 <= x < 2 ^ 32.
Proof. unfold REG_CNT. lia. Qed.

(** When nothing was too wide, all arguments fit. *)
Ltac absurd_fits :=
  exfalso; lazymatch goal with H : ~ Forall _ _ |- _ => apply H end;
  repeat apply Forall_cons_2; try apply Forall_nil_2; cbn [fst snd fits]; intros Hexact;
  first [ discriminate Hexact | by apply idx_fits | by apply proc_fits | by apply reg_fits | apply Hw; lia ].

(** A handler with such an argument does not return. *)
Lemma wide_handler fuel call Q :
  0 <= call < zlen validators ->
  ~ Forall (fun ki => exact call ki.1 = true -> fits ki.1 (args_of v p ki.2)) (checks call) ->
  wpe E (run_handler fuel call p) Q s.
Proof.
  intros Hc Hnot. apply wpe_bind, wpe_wp.
  assert (exists m : nat, call = Z.of_nat m /\ (m < 25)%nat) as (m & -> & Hm).
  { exists (Z.to_nat call). change (zlen validators) with 25 in Hc. lia. }
  clear Hc. one_call m; clear Hm.
  all: eapply wp_array_get; [reflexivity|].
  all: match type of Hnot with context [checks ?x] =>
      let c := eval vm_compute in (checks x) in change (checks x) with c in Hnot end.
  2: apply wide_reg_read; intros Hr; absurd_fits.
  2: apply wide_reg_write; intros Hr; absurd_fits.
  all: cbv delta [handle_cap_read handle_cap_move handle_cap_delete handle_cap_revoke
    handle_cap_derive handle_pmp_load handle_pmp_unload handle_mon_suspend handle_mon_resume
    handle_mon_state_get handle_mon_yield handle_mon_reg_read handle_mon_reg_write
    handle_mon_cap_read handle_mon_cap_move handle_mon_pmp_load handle_mon_pmp_unload
    handle_sock_send handle_sock_recv handle_sock_sendrecv sock_msg] beta.
  all: repeat wide_step; absurd_fits.
Qed.
End Wide.
(** *** The dispatcher *)

Lemma see_run_handler E p v0 s v fuel n call Q :
  during p v0 s v -> 0 <= call < zlen validators ->
  run_checks (args_of v p) (checks call) = SUCCESS ->
  Forall (fun ki => exact call ki.1 = true -> fits ki.1 (args_of v p ki.2)) (checks call) \/
    (forall f, E f) /\ (forall i, 0 <= i < 8 -> 0 <= args_of v p i < 2 ^ 64) ->
  E OutOfFuel \/ fires (v_hw v) n /\ (n < fuel)%nat -> handled p v0 Q ->
  wpe E (run_handler fuel call p) Q s.
Proof.
  intros D Hc Hok Hargs Hf HQ.
  destruct (decide (Forall (fun ki => exact call ki.1 = true -> fits ki.1 (args_of v p ki.2))
    (checks call))) as [Hfit|Hwide]; [by eapply safe_handler|].
  destruct Hargs as [|[HE Hw]]; [done|]. by eapply wide_handler.
Qed.

(** What a system call may rely on: the fuel is enough, or running out of it is
    allowed; and the arguments fit, or any fault is allowed. *)
Definition fuel_ok (E : fault -> Prop) (fuel n : nat) (v : view) : Prop :=
  E OutOfFuel \/ settles (v_hw v) n /\ (n + 1 < fuel)%nat.
Definition args_ok (E : fault -> Prop) (v : view) (p : Z) : Prop :=
  fits_args v p \/ (forall f, E f) /\ word_regs v p.

(** The handler on the caller past the call. *)
Lemma see_run_call E fuel n v p s1 v1 P :
  during p v s1 v1 -> ticked v v1 ->
  args_ok E v p -> fuel_ok E fuel n v -> 0 <= reg v p REG_T0 < zlen validators ->
  run_checks (args_of v p) (checks (reg v p REG_T0)) = SUCCESS -> handled p v P ->
  wpe E (do* advance_pc p in run_handler fuel (reg v p REG_T0) p) P s1.
Proof.
  intros D2 T2 Hargs Hf Hlt Hok HP. apply wpe_bind, wpe_wp. eapply in_advance_pc; [done|].
  intros s2 v2 D3 E2 Ehw. destruct T2 as (h & Hl & ->).
  assert (E3 : forall i, 0 <= i -> args_of v2 p i = args_of v p i) by (intros i Hi; by rewrite E2).
  assert (Hall : Forall (fun ki => args_of v2 p ki.2 = args_of v p ki.2) (checks (reg v p REG_T0))).
  { eapply Forall_impl; [apply checks_nonneg|]. intros ki. apply E3. }
  eapply (see_run_handler E p v s2 v2 fuel n); [done|done|by rewrite (run_checks_ext _ _ _ Hall)| | |done].
  - destruct Hargs as [[_ Hfit]|[HE Hw]]; [left|right; split; [done|]].
    + eapply Forall_impl; [by apply Forall_and, (conj Hall Hfit)|].
      intros ki [-> Hki]. by apply Hki.
    + intros i Hi. rewrite E3 by lia. apply Hw. unfold REG_A0, REG_CNT. lia.
  - destruct Hf as [|[Hf Hn]]; [by left|right]. split; [|lia]. rewrite Ehw.
    by apply (settles_later _ _ _ Hl) in Hf as [? _].
Qed.

Lemma see_syscall_handler E fuel n s v p Q :
  sees s v -> valid_proc p -> running v p ->
  args_ok E v p -> fuel_ok E fuel n v ->
  handled p v Q -> wpe E (syscall_handler fuel p) Q s.
Proof.
  intros Hs Hp Hr Hargs Hf HQ.
  assert (D : during p v s v) by (split; [done|apply rtc_refl|done|done]).
  assert (Hcall : 0 <= reg v p REG_T0).
  { destruct Hargs as [[]|[_ Hw]]; [done|]. by apply Hw. }
  unfold syscall_handler. apply wpe_bind, wpe_wp. eapply see_reg; [done|done|done|].
  assert (Herr : forall e, wpe E (do* advance_pc p in do* set_t0 p e in ret (Some p)) Q s).
  { intros e. apply wpe_wp, wp_bind. eapply in_advance_pc; [done|]. intros s1 v1 D1 _ _.
    by eapply in_return. }
  apply wpe_bind. destruct (Z.ltb_spec (reg v p REG_T0) (zlen validators)) as [Hlt|]; [|apply wpe_ret, Herr].
  apply wpe_wp. eapply see_validate; [done|done|].
  destruct (run_checks (args_of v p) (checks (reg v p REG_T0))) eqn:Hok; try apply Herr.
  cbn [is_err err_code Z.eqb negb]. apply wpe_bind, wpe_wp. see.
  destruct (during_ticked _ _ _ _ _ _ D Hs0 (ticked_tick _)) as [D1 E1].
  destruct (negb _); [apply wpe_ret; by eapply handled_none|].
  destruct (_ || _); [eapply see_run_call; [done|apply ticked_tick|done..]|].
  apply wpe_bind. eapply (see_taslock_acquire E fuel n); [done| |].
  { destruct Hf as [|[[_ Hf] Hn]]; [by left|right]. split; [|done]. intros m Hm. apply Hf. cbn in Hm. lia. }
  intros b s1 v1 Hs1 T1. destruct (during_ticked _ _ _ _ _ _ D1 Hs1 T1) as [D2 _].
  destruct b.
  - apply (wpe_assoc E _ (fun _ => run_handler fuel (reg v p REG_T0) p)), wpe_bind.
    eapply wpe_mono; [eapply see_run_call; [done|by eapply ticked_trans; [apply ticked_tick|]|done..|by apply handled_release]|].
    intros next s2. apply wpe_wp.
  - apply wpe_wp, wp_bind. eapply in_advance_pc; [done|]. intros s2 v2 D3 _ _.
    apply wp_bind. eapply in_set_t0; [done|]. intros s3 v3 D4 _. see. by eapply handled_none.
Qed.
End Handling.
