(* ===== verification/SyscallSpec.v ===== *)
(** * Specification of the system calls

    What each system call does to the view of the kernel, as a pure function of
    the argument registers, and the proof that [syscall_handler] computes it:
    validation, the error written back, the handler.  For [cap_revoke], whose loop
    may stop at any step where the timer fires, it is a relation. *)

From S2P Require Import Prelude Config CapTypes CapTable CapList KState Proc Sched.
From S2P Require Import Channel CapOps CapPmp CapIpc CapMonitor Syscall Invariant View.
From S2P Require Import Spec Refine Steps Revoke IpcSafe IpcSpec SyscallSafe.

Section Specification.
Context `{C : Config}.
Implicit Types (v : view) (p q : Z).

Definition entry p (i : Z) : cte_t := p * S3K_CAP_CNT + i.

Definition v_t0 p (e : err_t) v : view := v_reg p REG_T0 (err_u64 e) v.
Definition v_a0 p (x : Z) v : view := v_reg p REG_A0 x v.
(** A value is stored only when there is one. *)
Definition v_a0_opt p (o : option Z) v : view := match o with Some x => v_a0 p x v | None => v end.
Definition v_advance p v : view := v_reg p REG_PC (u64 (reg v p REG_PC + 4)) v.

(** ** Monitors *)

Definition a_check (mon : cte_t) q (suspended_only : bool) v : err_t :=
  let k := v_cap v mon in
  if negb (k⟦cap_type⟧ =? CAPTY_MONITOR) || (q <? k⟦mon_mrk⟧) || (k⟦mon_end⟧ <=? q)
  then ERR_INVALID_MONITOR
  else if suspended_only && negb (p_state (v_proc v q) =? PSF_SUSPENDED) then ERR_INVALID_STATE
  else SUCCESS.

(** The entries of other processes must be under the monitor. *)
Definition a_check_move (mon src dst : cte_t) v : err_t :=
  let check c := if cte_pid mon =? cte_pid c then SUCCESS else a_check mon (cte_pid c) true v in
  if is_err (check src) then check src else check dst.

Definition v_suspend q v : view :=
  let x := v_proc v q in
  if Z.land (p_state x) PSF_BLOCKED =? 0
  then v_set_proc q (set_state (Z.lor (p_state x) PSF_SUSPENDED) x) v
  else v_reg q REG_T0 (err_u64 ERR_SUSPENDED) (v_set_proc q (set_state PSF_SUSPENDED x) v).

Definition v_resume q v : view :=
  let x := v_proc v q in
  let x := if p_state x =? PSF_SUSPENDED then set_timeout 0 x else x in
  v_set_proc q (set_state (Z.land (p_state x) (Z.lnot PSF_SUSPENDED)) x) v.

(** [f] under a check. *)
Definition guarded {A} (e : err_t) (r : A) (f : A) : A := if is_err e then r else f.

(** ** The handlers *)

Definition effect : Type := Z -> view -> option Z * view.

(** An operation that returns an error: it goes to [t0] and the caller goes on. *)
Definition returning (f : Z -> view -> err_t * view) : effect := fun p v =>
  let r := f p v in (Some p, v_t0 p r.1 r.2).
(** An operation that also returns a value. *)
Definition yielding (f : Z -> view -> (err_t * option Z) * view) : effect := fun p v =>
  let r := f p v in (Some p, v_t0 p r.1.1 (v_a0_opt p r.1.2 r.2)).
(** An operation that chooses the process to run next. *)
Definition switching (f : Z -> view -> (err_t * option Z) * view) : effect := fun p v =>
  let r := f p v in (r.1.2, v_t0 p r.1.1 r.2).

Definition own v p (i : Z) : cte_t := entry p (args_of v p i).

Definition a_get_info : effect := fun p v =>
  let info := args_of v p 0 in
  (Some p, v_t0 p SUCCESS
    (if info =? 0 then v_a0 p p v
     else if info =? 1 then v_a0 p (now v) (v_tick v)
     else if info =? 2 then v_a0 p (timer v) v
     else v_a0 p 0 v)).

Definition a_reg_read : effect := fun p v =>
  let v1 := v_t0 p SUCCESS v in (Some p, v_a0 p (reg v1 p (args_of v p 0)) v1).
Definition a_reg_write : effect := fun p v =>
  (Some p, v_reg p (args_of v p 0) (args_of v p 1) (v_t0 p SUCCESS v)).

Definition a_sync : effect := fun p v =>
  if args_of v p 0 =? 0
  then (Some p, v_set_hw (set_pmp_csr (p_pmpaddr (v_proc v p), p_pmpcfg (v_proc v p)) (v_hw v)) v)
  else (None, v_update p (set_timeout 0) v).

Definition a_sleep : effect := fun p v =>
  let v1 := v_t0 p SUCCESS v in
  (None, if args_of v p 0 =? 0 then v1 else v_update p (set_timeout (args_of v p 0)) v1).

Definition read_err (k : cap_t) : err_t := if k =? 0 then ERR_EMPTY else SUCCESS.
Definition a_cap_read : effect := fun p v =>
  let k := v_cap v (own v p 0) in (Some p, v_t0 p (read_err k) (v_a0 p k v)).

(** The process and the register are truncated to their C types. *)
Definition a_mon_suspend p v : err_t * view :=
  let q := u16 (args_of v p 1) in
  let e := a_check (own v p 0) q false v in (e, guarded e v (v_suspend q v)).
Definition a_mon_resume p v : err_t * view :=
  let q := u16 (args_of v p 1) in
  let e := a_check (own v p 0) q false v in (e, guarded e v (v_resume q v)).
Definition a_mon_state_get p v : (err_t * option Z) * view :=
  let q := u16 (args_of v p 1) in
  let e := a_check (own v p 0) q false v in
  ((e, guarded e None (Some (p_state (v_proc v q)))), v).
Definition a_mon_yield p v : (err_t * option Z) * view :=
  let q := u16 (args_of v p 1) in
  let e := a_check (own v p 0) q false v in
  guarded e ((e, Some p), v)
    (let r := a_acquire q v in if r.1 then ((SUCCESS, Some q), r.2)
                               else ((ERR_INVALID_STATE, Some p), r.2)).
Definition a_mon_reg_read p v : (err_t * option Z) * view :=
  let q := u16 (args_of v p 1) in
  let e := a_check (own v p 0) q true v in
  ((e, guarded e None (Some (reg v q (u32 (args_of v p 2))))), v).
Definition a_mon_reg_write p v : err_t * view :=
  let q := u16 (args_of v p 1) in
  let e := a_check (own v p 0) q true v in
  (e, guarded e v (v_reg q (u32 (args_of v p 2)) (args_of v p 3) v)).

(** The entry named by arguments [i] and [i + 1]. *)
Definition other v p (i : Z) : cte_t := entry (args_of v p i) (args_of v p (i + 1)).

Definition a_mon_cap_read p v : (err_t * option Z) * view :=
  let k := v_cap v (other v p 1) in
  let e := a_check (own v p 0) (args_of v p 1) true v in
  (guarded e (e, None) (read_err k, Some k), v).
Definition a_mon_cap_move p v : err_t * view :=
  let e := a_check_move (own v p 0) (other v p 1) (other v p 3) v in
  guarded e (e, v) (a_move (other v p 1) (other v p 3) v).
Definition a_mon_pmp_load p v : err_t * view :=
  let e := a_check (own v p 0) (args_of v p 1) true v in
  guarded e (e, v) (a_pmp_load (other v p 1) (u8 (args_of v p 3)) v).
Definition a_mon_pmp_unload p v : err_t * view :=
  let e := a_check (own v p 0) (args_of v p 1) true v in
  guarded e (e, v) (a_pmp_unload (other v p 1) v).

Definition message v p : ipc_msg :=
  IpcMsg (own v p 1) (negb (args_of v p 2 =? 0)) (map (args_of v p) [3; 4; 5; 6]).

(** By the number of the call; [cap_revoke] has [a_cap_revoke]. *)
Definition effects : list (option effect) :=
  [ Some a_get_info; Some a_reg_read; Some a_reg_write; Some a_sync; Some a_sleep;
    Some a_cap_read;
    Some (returning (fun p v => a_move (own v p 0) (own v p 1) v));
    Some (returning (fun p v => a_delete (own v p 0) v));
    None;
    Some (returning (fun p v => a_derive (own v p 0) (own v p 1) (args_of v p 2) v));
    Some (returning (fun p v => a_pmp_load (own v p 0) (u8 (args_of v p 1)) v));
    Some (returning (fun p v => a_pmp_unload (own v p 0) v));
    Some (returning a_mon_suspend); Some (returning a_mon_resume);
    Some (yielding a_mon_state_get); Some (switching a_mon_yield);
    Some (yielding a_mon_reg_read); Some (returning a_mon_reg_write);
    Some (yielding a_mon_cap_read); Some (returning a_mon_cap_move);
    Some (returning a_mon_pmp_load); Some (returning a_mon_pmp_unload);
    Some (switching (fun p v => a_sock_send (own v p 0) (message v p) p v));
    Some (switching (fun p v => a_sock_recv (own v p 0) (own v p 1) p v));
    Some (switching (fun p v => a_sock_sendrecv (own v p 0) (message v p) p v)) ].

(** Revocation: each step goes to the entry after the caller's, until none is left
    or the timer interrupt is pending; a call that was cut short leaves the kernel. *)
Definition a_cap_revoke p v (r : option Z * view) : Prop :=
  exists r0, revoked (own v p 0) v r0 /\
    r = (match r0.1 with ERR_PREEMPTED => None | _ => Some p end, v_t0 p r0.1 r0.2).

(** [r] is what the call with number [call] of [p] may do in [v]. *)
Definition call_effect (call : Z) p v (r : option Z * view) : Prop :=
  if call =? SYS_CAP_REVOKE then a_cap_revoke p v r
  else exists f, lookupZ effects call = Some (Some f) /\ r = f p v.

Lemma call_effect_fun call f p v r :
  lookupZ effects call = Some (Some f) -> call_effect call p v r -> r = f p v.
Proof.
  intros Hf. unfold call_effect. destruct (Z.eqb_spec call SYS_CAP_REVOKE) as [->|_]; [done|].
  intros (g & Hg & ->). rewrite Hf in Hg. by injection Hg as ->.
Qed.

(** What validation finds, with the arguments of [p]. *)
Definition verdict p v : err_t :=
  let call := reg v p REG_T0 in
  if call <? zlen validators then run_checks (args_of v p) (checks call) else ERR_INVALID_SYSCALL.

End Specification.

(** ** The handlers compute their effects *)

Section Handlers.
Context `{C : Config} {Cok : ConfigOk C}.
Implicit Types (v : view) (p q : Z).

Lemma see_arg s v p i Q :
  sees s v -> valid_proc p -> 0 <= i < 8 -> Q (args_of v p i) s -> wp (arg p i) Q s.
Proof.
  intros Hs Hp Hi HQ. apply wp_bind. eapply see_proc_load; [done..|]. intros (_ & Hl & _).
  destruct (lookupZ_lt (p_regs (v_proc v p)) (REG_A0 + i)) as [x Hx].
  { rewrite Hl. unfold REG_A0, REG_CNT. lia. }
  eapply wp_array_get; [done|]. unfold args_of, reg in HQ. by rewrite Hx in HQ.
Qed.

Lemma entry_in p i : valid_proc p -> idx_ok i -> in_table (entry p i).
Proof. intros Hp Hi. by apply ctable_entry. Qed.

Lemma entry_pid p i : valid_proc p -> idx_ok i -> cte_pid (entry p i) = p.
Proof.
  intros Hp Hi. unfold cte_pid. rewrite offset_in_table by by apply entry_in.
  symmetry. apply Z.div_unique with i; [left; exact Hi|]. unfold entry. lia.
Qed.

Lemma see_ctable_get s v p i Q :
  sees s v -> valid_proc p -> idx_ok i -> Q (entry p i) s -> wp (on_ct (ctable_get p i)) Q s.
Proof.
  intros Hs [Hp1 Hp2] [Hi1 Hi2] HQ. apply wp_zoom. unfold ctable_get.
  apply wp_bind, wp_kassert; [by apply Z.ltb_lt|].
  apply wp_bind, wp_kassert; [by apply Z.ltb_lt|]. apply wp_ret.
  cbn [l_set l_get l_ctable]. by rewrite set_ctable_id.
Qed.

Lemma see_own s v p i Q :
  sees s v -> valid_proc p -> idx_ok i -> Q (entry p i) s -> wp (own_cte p i) Q s.
Proof.
  intros Hs Hp Hi HQ. unfold own_cte, p_pid_of. see. destruct H as (-> & _).
  by eapply see_ctable_get.
Qed.

(** ** Monitors *)

Lemma see_a_check s v mon q b Q :
  sees s v -> in_table mon -> valid_proc q -> Q (a_check mon q b v) s ->
  wp (check_monitor mon q b) Q s.
Proof.
  intros Hs Hm Hq HQ. unfold check_monitor. rewrite u16_pid by done. unfold a_check in HQ. see.
  destruct (_ || _); [by see|]. destruct b; cbn [andb] in HQ; [|by see].
  see. unfold proc_is_suspended. see. destruct (_ =? PSF_SUSPENDED); by see.
Qed.

Lemma see_a_check_move s v mon src dst Q :
  sees s v -> in_table mon -> in_table src -> in_table dst ->
  Q (a_check_move mon src dst v) s -> wp (check_monitor_move mon src dst) Q s.
Proof.
  intros Hs Hm Hsrc Hdst HQ. unfold check_monitor_move. unfold a_check_move in HQ.
  assert (Hone : forall c (P : err_t -> kstate -> Prop), in_table c ->
    P (if cte_pid mon =? cte_pid c then SUCCESS else a_check mon (cte_pid c) true v) s ->
    wp (if negb (cte_pid mon =? cte_pid c) then check_monitor mon (cte_pid c) true
        else ret SUCCESS) P s).
  { clear HQ. intros c P Hc HP. destruct (cte_pid mon =? cte_pid c); cbn [negb]; [by see|].
    eapply see_a_check; [done|done|by apply cte_pid_range|done]. }
  apply wp_bind, Hone; [done|]. destruct (is_err _); [by see|].
  apply wp_bind, Hone; [done|].
  set (e := if _ : bool then SUCCESS else _) in *. destruct (is_err e) eqn:E; see; [done|].
  by destruct e.
Qed.

Lemma see_v_suspend s v q Q :
  sees s v -> valid_proc q -> (forall s', sees s' (v_suspend q v) -> Q tt s') ->
  wp (proc_suspend q) Q s.
Proof.
  intros Hs Hq HQ. unfold proc_suspend. unfold v_suspend in HQ. see.
  destruct (_ =? 0); cbn [negb]; [see; by apply HQ|]. see. apply HQ.
  match goal with H : sees ?s' _ |- sees ?s' _ => revert H end. unfold v_reg, v_update. cbn [v_proc v_set_proc]. rewrite !fupd_eq.
  by rewrite !set_proc_twice.
Qed.

Lemma see_v_resume s v q Q :
  sees s v -> valid_proc q -> (forall s', sees s' (v_resume q v) -> Q tt s') ->
  wp (proc_resume q) Q s.
Proof.
  intros Hs Hq HQ. unfold proc_resume. unfold v_resume in HQ. see.
  destruct (_ =? PSF_SUSPENDED); see; apply HQ; [|done].
  revert Hs1. cbn [v_proc v_set_proc]. rewrite fupd_eq. by rewrite set_proc_twice.
Qed.
End Handlers.

Section Writes.
Context `{C : Config} {Cok : ConfigOk C}.

Lemma see_v_reg s v p r x Q :
  sees s v -> valid_proc p -> 0 <= r < REG_CNT ->
  (forall s', sees s' (v_reg p r x v) -> Q tt s') -> wp (reg_set p r x) Q s.
Proof. intros Hs Hp Hr HQ. see. by apply HQ. Qed.

Lemma see_set_t0 s v p e Q :
  sees s v -> valid_proc p -> (forall s', sees s' (v_t0 p e v) -> Q tt s') ->
  wp (set_t0 p e) Q s.
Proof. intros Hs Hp HQ. by eapply see_v_reg. Qed.
End Writes.

(** The steps of a handler. *)
Ltac ex_step :=
  cbn beta iota;
  lazymatch goal with
  | |- wp (bind _ _) _ _ => apply wp_bind
  | |- wp (ret _) _ _ => apply wp_ret
  | |- wp (arg _ _) _ _ => eapply see_arg; [eassumption|assumption|lia|]
  | |- wp (own_cte _ _) _ _ => eapply see_own; [eassumption|assumption|assumption|]
  | |- wp (on_ct (ctable_get _ _)) _ _ =>
      eapply see_ctable_get; [eassumption|assumption|assumption|]
  | |- wp (set_t0 _ _) _ _ =>
      eapply see_set_t0; [eassumption|assumption|intros ?s ?Hs]
  | |- wp (reg_set _ _ _) _ _ =>
      eapply see_v_reg; [eassumption|assumption|try done|intros ?s ?Hs]
  | |- wp (reg_get _ _) _ _ => eapply see_reg; [eassumption|assumption|try done|]
  end.
Ltac ex := repeat ex_step.

Section Effects.
Context `{C : Config} {Cok : ConfigOk C}.
Context (s : kstate) (v : view) (p : Z) (Hs : sees s v) (Hp : valid_proc p) (Hr : running v p).
Context (Q : option Z -> kstate -> Prop).

Abbreviation A i := (args_of v p i).
(** [h] computes [f]. *)
Abbreviation computed h f :=
  ((forall s', sees s' (f p v).2 -> Q (f p v).1 s') -> wp (h p) Q s).

(** The end of a handler. *)
Lemma end_t0 s1 v1 e (next : option Z) :
  sees s1 v1 -> (forall s', sees s' (v_t0 p e v1) -> Q next s') ->
  wp (do* set_t0 p e in ret next) Q s1.
Proof. intros Hs1 HQ. ex. by apply HQ. Qed.

Lemma end_a0 s1 v1 o e :
  sees s1 v1 -> (forall s', sees s' (v_t0 p e (v_a0_opt p o v1)) -> Q (Some p) s') ->
  wp (do* store_a0 p o in do* set_t0 p e in ret (Some p)) Q s1.
Proof. intros Hs1 HQ. unfold store_a0. destruct o; ex; by apply HQ. Qed.

Lemma do_get_info : computed handle_get_info a_get_info.
Proof.
  intros HQ. unfold handle_get_info. unfold a_get_info in HQ. ex.
  destruct (A 0 =? 0).
  { unfold p_pid_of. do 3 see_step. destruct H as (-> & _). see_step. ex. by apply HQ. }
  destruct (A 0 =? 1); [see; ex; by apply HQ|].
  destruct (A 0 =? 2); [|ex; by apply HQ].
  do 3 see_step. apply wp_bind. eapply see_timer; [eassumption|]. intros s1 Hs1. ex. by apply HQ.
Qed.

Lemma t0_args i : 0 <= i -> args_of (v_t0 p SUCCESS v) p i = A i.
Proof.
  intros Hi. unfold args_of, reg, v_t0, v_reg, v_update. cbn [v_proc v_set_proc].
  rewrite fupd_eq. cbn [p_regs set_regs]. rewrite lookupZ_insertZ_ne; [done|].
  unfold REG_T0, REG_A0. lia.
Qed.

Lemma do_reg_read : 0 <= A 0 < REG_CNT -> computed handle_reg_read a_reg_read.
Proof.
  intros H0 HQ. unfold handle_reg_read. unfold a_reg_read in HQ.
  ex; rewrite t0_args in * by lia; [done|]. by apply HQ.
Qed.

Lemma do_reg_write : 0 <= A 0 < REG_CNT -> computed handle_reg_write a_reg_write.
Proof.
  intros H0 HQ. unfold handle_reg_write. unfold a_reg_write in HQ.
  ex; rewrite !t0_args in * by lia; [done|]. by apply HQ.
Qed.

Lemma do_sync : computed handle_sync a_sync.
Proof.
  intros HQ. unfold handle_sync. unfold a_sync in HQ. ex. destruct (A 0 =? 0); cbn [negb].
  - apply wp_bind. unfold proc_pmp_sync. see_step. see_step. destruct H as (_ & _ & _ & Hl).
    config_bounds. rewrite pmp_cnt_8 in Hl. unfold zlen in Hl.
    destruct (p_pmpaddr (v_proc v p)) as [|a0 [|a1 [|a2 [|a3 [|a4 [|a5 [|a6 [|a7 [|]]]]]]]]];
      try (cbn in Hl; lia).
    do 8 (apply wp_bind; eapply wp_array_get; [reflexivity|]). apply wp_bind, wp_gets, wp_modify.
    apply wp_ret, HQ. rewrite (sees_hw _ _ Hs). apply sees_set_hw; [done|].
    exact (sees_hw_wf _ _ Hs).
  - see. by apply HQ.
Qed.

Lemma do_sleep : computed handle_sleep a_sleep.
Proof.
  intros HQ. unfold handle_sleep. unfold a_sleep in HQ. ex. rewrite t0_args by lia.
  destruct (A 0 =? 0); cbn [negb]; see; by apply HQ.
Qed.

Lemma do_cap_read : idx_ok (A 0) -> computed handle_cap_read a_cap_read.
Proof.
  intros H0 HQ. pose proof (entry_in p _ Hp H0). unfold handle_cap_read, cap_read.
  unfold a_cap_read, own, read_err in HQ. ex. see. ex. apply HQ. cbn [fst snd].
  by destruct (v_cap v (entry p (A 0)) =? 0).
Qed.

(** ** Operations on the caller's entries *)

Lemma do_cap_move : idx_ok (A 0) -> idx_ok (A 1) ->
  computed handle_cap_move (returning (fun p v => a_move (own v p 0) (own v p 1) v)).
Proof.
  intros H0 H1 HQ. unfold handle_cap_move. ex.
  eapply see_cap_move; [eassumption|by apply entry_in..|]. intros s1 Hs1. ex. by apply HQ.
Qed.

Lemma do_cap_delete : idx_ok (A 0) ->
  computed handle_cap_delete (returning (fun p v => a_delete (own v p 0) v)).
Proof.
  intros H0 HQ. unfold handle_cap_delete. ex.
  eapply see_cap_delete; [eassumption|by apply entry_in|]. intros s1 Hs1. ex. by apply HQ.
Qed.

Lemma do_cap_derive : idx_ok (A 0) -> idx_ok (A 1) ->
  word_ok (A 2) = true -> cap_is_valid (A 2) = true ->
  computed handle_cap_derive (returning (fun p v => a_derive (own v p 0) (own v p 1) (args_of v p 2) v)).
Proof.
  intros H0 H1 H2 H3 HQ. unfold handle_cap_derive. ex.
  eapply see_cap_derive; [eassumption|by apply entry_in..|done|done|]. intros s1 Hs1. ex.
  by apply HQ.
Qed.

Lemma valid_slot_u8 x : valid_slot x = true -> u8 x < S3K_PMP_CNT.
Proof. unfold valid_slot. intros H. by breflect. Qed.

Lemma do_pmp_load : idx_ok (A 0) -> valid_slot (A 1) = true ->
  computed handle_pmp_load (returning (fun p v => a_pmp_load (own v p 0) (u8 (args_of v p 1)) v)).
Proof.
  intros H0 H1 HQ. unfold handle_pmp_load. ex.
  eapply see_cap_pmp_load; [eassumption|by apply entry_in|by apply valid_slot_u8|].
  intros s1 Hs1. ex. by apply HQ.
Qed.

Lemma do_pmp_unload : idx_ok (A 0) ->
  computed handle_pmp_unload (returning (fun p v => a_pmp_unload (own v p 0) v)).
Proof.
  intros H0 HQ. unfold handle_pmp_unload. ex.
  eapply see_cap_pmp_unload; [eassumption|by apply entry_in|]. intros s1 Hs1. ex. by apply HQ.
Qed.

(** ** Monitors *)

Lemma valid_reg_u32 x : valid_reg x = true -> 0 <= u32 x < REG_CNT.
Proof. unfold valid_reg. intros H. breflect. split; [apply u32_reg|done]. Qed.

Lemma do_mon_suspend : idx_ok (A 0) -> valid_pid (A 1) = true ->
  computed handle_mon_suspend (returning a_mon_suspend).
Proof.
  intros H0 H1%valid_pid_u16 HQ. unfold handle_mon_suspend, cap_monitor_suspend. ex.
  unfold returning, a_mon_suspend, own in HQ. eapply see_a_check; [eassumption|by apply entry_in|done|].
  unfold guarded in HQ. cbn [fst snd] in HQ. destruct (is_err _); cbn [negb]; ex; [by apply HQ|].
  see_step. eapply see_v_suspend; [eassumption|done|]. intros s1 Hs1. ex. by apply HQ.
Qed.

Lemma do_mon_resume : idx_ok (A 0) -> valid_pid (A 1) = true ->
  computed handle_mon_resume (returning a_mon_resume).
Proof.
  intros H0 H1%valid_pid_u16 HQ. unfold handle_mon_resume, cap_monitor_resume. ex.
  unfold returning, a_mon_resume, own in HQ. eapply see_a_check; [eassumption|by apply entry_in|done|].
  unfold guarded in HQ. cbn [fst snd] in HQ. destruct (is_err _); cbn [negb]; ex; [by apply HQ|].
  see_step. eapply see_v_resume; [eassumption|done|]. intros s1 Hs1. ex. by apply HQ.
Qed.

Lemma do_mon_state_get : idx_ok (A 0) -> valid_pid (A 1) = true ->
  computed handle_mon_state_get (yielding a_mon_state_get).
Proof.
  intros H0 H1%valid_pid_u16 HQ. unfold handle_mon_state_get, cap_monitor_state_get. ex.
  unfold yielding, a_mon_state_get, own, guarded in HQ. cbn [fst snd] in HQ.
  eapply see_a_check; [eassumption|by apply entry_in|done|]. cbn beta.
  destruct (is_err _); cbn [negb] in *; [see_step; by eapply end_a0|].
  do 5 see_step. by eapply end_a0.
Qed.

Lemma do_mon_yield : idx_ok (A 0) -> valid_pid (A 1) = true ->
  computed handle_mon_yield (switching a_mon_yield).
Proof.
  intros H0 H1%valid_pid_u16 HQ. unfold handle_mon_yield, cap_monitor_yield. ex.
  unfold switching, a_mon_yield, own, guarded in HQ. cbn zeta in HQ.
  eapply see_a_check; [eassumption|by apply entry_in|done|]. cbn beta.
  destruct (is_err _); cbn [negb fst snd] in *; ex; [by apply HQ|].
  see_step. see_step. eapply see_a_acquire; [eassumption|done|]. intros s1 Hs1.
  destruct (a_acquire (u16 (A 1)) v) as [[] v1]; cbn [fst snd] in *; ex; by apply HQ.
Qed.

Lemma do_mon_reg_read : idx_ok (A 0) -> valid_pid (A 1) = true -> valid_reg (A 2) = true ->
  computed handle_mon_reg_read (yielding a_mon_reg_read).
Proof.
  intros H0 H1%valid_pid_u16 H2%valid_reg_u32 HQ. unfold handle_mon_reg_read, cap_monitor_reg_read. ex.
  unfold yielding, a_mon_reg_read, own, guarded in HQ. cbn [fst snd] in HQ.
  eapply see_a_check; [eassumption|by apply entry_in|done|]. cbn beta.
  destruct (is_err _); cbn [negb] in *; [see_step; by eapply end_a0|].
  do 2 see_step. apply wp_bind. eapply see_reg; [eassumption|done|done|]. see_step. by eapply end_a0.
Qed.

Lemma do_mon_reg_write : idx_ok (A 0) -> valid_pid (A 1) = true -> valid_reg (A 2) = true ->
  computed handle_mon_reg_write (returning a_mon_reg_write).
Proof.
  intros H0 H1%valid_pid_u16 H2%valid_reg_u32 HQ. unfold handle_mon_reg_write, cap_monitor_reg_write. ex.
  unfold returning, a_mon_reg_write, own, guarded in HQ. cbn [fst snd] in HQ.
  eapply see_a_check; [eassumption|by apply entry_in|done|]. cbn beta.
  destruct (is_err _); cbn [negb] in *; ex; [by apply HQ|].
  see_step. eapply see_v_reg; [eassumption|done|done|]. intros s1 Hs1. ex. by apply HQ.
Qed.

Lemma do_mon_cap_read : idx_ok (A 0) -> valid_proc (A 1) -> idx_ok (A 2) ->
  computed handle_mon_cap_read (yielding a_mon_cap_read).
Proof.
  intros H0 H1 H2 HQ. unfold handle_mon_cap_read, cap_monitor_cap_read, cap_read. ex.
  rewrite entry_pid by done. pose proof (entry_in _ _ H1 H2).
  unfold yielding, a_mon_cap_read, own, other, guarded, read_err in HQ. cbn [fst snd] in HQ.
  eapply see_a_check; [eassumption|by apply entry_in|done|]. cbn beta.
  destruct (is_err _); cbn [negb] in *; [see_step; by eapply end_a0|].
  do 4 see_step. cbn [fst snd]. see_step. eapply end_a0; [eassumption|]. cbn [fst snd].
  change (1 + 1) with 2 in HQ. by destruct (v_cap v (entry (A 1) (A 2)) =? 0).
Qed.

Lemma do_mon_cap_move :
  idx_ok (A 0) -> valid_proc (A 1) -> idx_ok (A 2) -> valid_proc (A 3) -> idx_ok (A 4) ->
  computed handle_mon_cap_move (returning a_mon_cap_move).
Proof.
  intros H0 H1 H2 H3 H4 HQ. unfold handle_mon_cap_move, cap_monitor_cap_move. ex.
  unfold returning, a_mon_cap_move, own, other, guarded in HQ. cbn zeta in HQ.
  eapply see_a_check_move; [eassumption|by apply entry_in..|]. cbn beta.
  destruct (is_err _); cbn [negb fst snd] in *; [ex; by apply HQ|].
  eapply see_cap_move; [eassumption|by apply entry_in..|]. intros s1 Hs1. ex. by apply HQ.
Qed.

Lemma do_mon_pmp_load :
  idx_ok (A 0) -> valid_proc (A 1) -> idx_ok (A 2) -> valid_slot (A 3) = true ->
  computed handle_mon_pmp_load (returning a_mon_pmp_load).
Proof.
  intros H0 H1 H2 H3 HQ. unfold handle_mon_pmp_load, cap_monitor_pmp_load. ex.
  rewrite entry_pid by done. unfold returning, a_mon_pmp_load, own, other, guarded in HQ.
  cbn zeta in HQ. eapply see_a_check; [eassumption|by apply entry_in|done|]. cbn beta.
  destruct (is_err _); cbn [negb fst snd] in *; [ex; by apply HQ|].
  assert (Eu : u8 (u8 (A 3)) = u8 (A 3)) by (unfold u8; by rewrite Z.mod_mod).
  eapply see_cap_pmp_load; [eassumption|by apply entry_in|rewrite Eu; by apply valid_slot_u8|].
  rewrite Eu. intros s1 Hs1. ex. by apply HQ.
Qed.

Lemma do_mon_pmp_unload : idx_ok (A 0) -> valid_proc (A 1) -> idx_ok (A 2) ->
  computed handle_mon_pmp_unload (returning a_mon_pmp_unload).
Proof.
  intros H0 H1 H2 HQ. unfold handle_mon_pmp_unload, cap_monitor_pmp_unload. ex.
  rewrite entry_pid by done. unfold returning, a_mon_pmp_unload, own, other, guarded in HQ.
  cbn zeta in HQ. eapply see_a_check; [eassumption|by apply entry_in|done|]. cbn beta.
  destruct (is_err _); cbn [negb fst snd] in *; [ex; by apply HQ|].
  eapply see_cap_pmp_unload; [eassumption|by apply entry_in|]. intros s1 Hs1. ex. by apply HQ.
Qed.

(** ** Sockets *)

Lemma do_sock_msg (P : ipc_msg -> kstate -> Prop) :
  idx_ok (A 1) -> (msg_ok p (message v p) -> P (message v p) s) -> wp (sock_msg p) P s.
Proof.
  intros H1 HP. unfold sock_msg. ex. apply HP. split; [by apply entry_in|].
  split; [by apply entry_pid|done].
Qed.

Lemma do_sock_send : idx_ok (A 0) -> idx_ok (A 1) ->
  computed handle_sock_send (switching (fun p v => a_sock_send (own v p 0) (message v p) p v)).
Proof.
  intros H0 H1 HQ. unfold handle_sock_send. ex. eapply do_sock_msg; [done|]. intros Hm.
  apply wp_bind. eapply see_a_sock_send; [eassumption|done|by apply entry_in|done|].
  intros s1 Hs1. ex. by apply HQ.
Qed.

Lemma do_sock_recv : idx_ok (A 0) -> idx_ok (A 1) ->
  computed handle_sock_recv (switching (fun p v => a_sock_recv (own v p 0) (own v p 1) p v)).
Proof.
  intros H0 H1 HQ. unfold handle_sock_recv. ex.
  eapply see_a_sock_recv; [eassumption|done|by apply entry_in..|done|].
  intros s1 Hs1. ex. by apply HQ.
Qed.

Lemma do_sock_sendrecv : idx_ok (A 0) -> idx_ok (A 1) ->
  computed handle_sock_sendrecv
    (switching (fun p v => a_sock_sendrecv (own v p 0) (message v p) p v)).
Proof.
  intros H0 H1 HQ. unfold handle_sock_sendrecv. ex. eapply do_sock_msg; [done|]. intros Hm.
  apply wp_bind. eapply see_a_sock_sendrecv; [eassumption|done|by apply entry_in|done|done|].
  intros s1 Hs1. ex. by apply HQ.
Qed.
End Effects.

(** ** Dispatch *)

Section Dispatch.
Context `{C : Config} {Cok : ConfigOk C}.
Implicit Types (v : view) (p q : Z).

Lemma do_handler s v p fuel call f Q :
  sees s v -> valid_proc p -> running v p -> lookupZ effects call = Some (Some f) ->
  run_checks (args_of v p) (checks call) = SUCCESS ->
  Forall (fun ki => exact call ki.1 = true -> fits ki.1 (args_of v p ki.2)) (checks call) ->
  (forall s', sees s' (f p v).2 -> Q (f p v).1 s') ->
  wp (run_handler fuel call p) Q s.
Proof.
  intros Hs Hp Hr Hf Hok Hfit HQ. apply run_checks_ok in Hok. apply wp_bind.
  pose proof (lookupZ_Some_range _ _ _ Hf) as Hc. change (zlen effects) with 25 in Hc.
  assert (exists m : nat, call = Z.of_nat m /\ (m < 25)%nat) as (m & -> & Hm).
  { exists (Z.to_nat call). lia. }
  clear Hc. do 25 (try destruct m as [|m]); [..|lia]; clear Hm.
  all: injection Hf as <- || discriminate Hf.
  all: eapply wp_array_get; [reflexivity|].
  all: given_checks Hok Hfit; used_checks.
  - by eapply do_get_info.
  - by eapply do_reg_read.
  - by eapply do_reg_write.
  - by eapply do_sync.
  - by eapply do_sleep.
  - by eapply do_cap_read.
  - by eapply do_cap_move.
  - by eapply do_cap_delete.
  - by eapply do_cap_derive.
  - by eapply do_pmp_load.
  - by eapply do_pmp_unload.
  - by eapply do_mon_suspend.
  - by eapply do_mon_resume.
  - by eapply do_mon_state_get.
  - by eapply do_mon_yield.
  - by eapply do_mon_reg_read.
  - by eapply do_mon_reg_write.
  - by eapply do_mon_cap_read.
  - by eapply do_mon_cap_move.
  - by eapply do_mon_pmp_load.
  - by eapply do_mon_pmp_unload.
  - by eapply do_sock_send.
  - by eapply do_sock_recv.
  - by eapply do_sock_sendrecv.
Qed.

Lemma see_v_advance s v p Q :
  sees s v -> valid_proc p -> (forall s', sees s' (v_advance p v) -> Q tt s') ->
  wp (advance_pc p) Q s.
Proof.
  intros Hs Hp HQ. apply wp_bind. eapply see_reg; [done|done|done|].
  eapply see_v_reg; [done|done|done|exact HQ].
Qed.

Lemma advance_args v p i : 0 <= i -> args_of (v_advance p v) p i = args_of v p i.
Proof.
  intros Hi. unfold args_of, reg, v_advance, v_reg, v_update. cbn [v_proc v_set_proc].
  rewrite fupd_eq. cbn [p_regs set_regs]. rewrite lookupZ_insertZ_ne; [done|].
  unfold REG_PC, REG_A0. lia.
Qed.

Lemma do_cap_revoke s v p fuel n Q :
  sees s v -> valid_proc p -> idx_ok (args_of v p 0) -> fires (v_hw v) n -> (n < fuel)%nat ->
  (forall r s', a_cap_revoke p v r -> sees s' r.2 -> Q r.1 s') ->
  wp (handle_cap_revoke fuel p) Q s.
Proof.
  intros Hs Hp H0 Hf Hn HQ. unfold handle_cap_revoke. ex. apply wp_wpe.
  eapply (see_revoked _ fuel n); [done|by apply entry_in|by right|]. intros r0 s1 Hr0 Hs1.
  apply wpe_wp. apply wp_bind. eapply see_set_t0; [done|done|]. intros s2 Hs2. apply wp_bind.
  eapply see_reg; [exact Hs2|done|done|]. apply wp_ret.
  destruct (sees_proc_wf _ _ Hs1 p Hp) as (_ & Hl & _).
  assert (E : reg (v_t0 p r0.1 r0.2) p REG_T0 = err_u64 r0.1).
  { unfold reg, v_t0, v_reg, v_update. cbn [v_proc v_set_proc]. rewrite fupd_eq.
    cbn [p_regs set_regs]. rewrite lookupZ_insertZ_eq; [done|]. by rewrite Hl. }
  rewrite E. apply (HQ (_, v_t0 p r0.1 r0.2)); [|done]. exists r0. split; [done|]. f_equal.
  by destruct r0.1.
Qed.

(** Every valid call has its effect. *)
Lemma do_call s v p fuel n call Q :
  sees s v -> valid_proc p -> running v p -> 0 <= call < zlen validators ->
  run_checks (args_of v p) (checks call) = SUCCESS ->
  Forall (fun ki => exact call ki.1 = true -> fits ki.1 (args_of v p ki.2)) (checks call) ->
  (call = SYS_CAP_REVOKE -> fires (v_hw v) n /\ (n < fuel)%nat) ->
  (forall r s', call_effect call p v r -> sees s' r.2 -> Q r.1 s') ->
  wp (run_handler fuel call p) Q s.
Proof.
  intros Hs Hp Hr Hc Hok Hfit Hrev HQ. unfold call_effect in HQ.
  destruct (Z.eqb_spec call SYS_CAP_REVOKE) as [->|Hne].
  - apply run_checks_ok in Hok. given_checks Hok Hfit. used_checks. destruct (Hrev eq_refl).
    apply wp_bind. eapply wp_array_get; [reflexivity|]. by eapply do_cap_revoke.
  - assert (exists f, lookupZ effects call = Some (Some f)) as [f Hf].
    { assert (exists m : nat, call = Z.of_nat m /\ (m < 25)%nat) as (m & -> & Hm).
      { exists (Z.to_nat call). change (zlen validators) with 25 in Hc. lia. }
      clear - Hne Hm. one_call m; first [by destruct (Hne eq_refl) | by eexists]. }
    eapply do_handler; [done..|]. intros s' Hs'. eapply HQ; eauto.
Qed.

(** Running the handler of a call in a later view, after the program counter. *)
Lemma see_dispatch s v p fuel n v1 Q :
  sees s v1 -> ticked v v1 -> valid_proc p -> running v p -> fits_args v p ->
  verdict p v = SUCCESS ->
  (reg v p REG_T0 = SYS_CAP_REVOKE -> fires (v_hw v) n /\ (n < fuel)%nat) ->
  (forall r s', call_effect (reg v p REG_T0) p (v_advance p v1) r -> sees s' r.2 -> Q r.1 s') ->
  wp (do* advance_pc p in run_handler fuel (reg v p REG_T0) p) Q s.
Proof.
  intros Hs (h & Hl & ->) Hp Hr [Hc Hfit] Hok Hrev HQ.
  assert (Hargs : forall i, 0 <= i -> args_of (v_advance p (v_set_hw h v)) p i = args_of v p i).
  { intros i Hi. by rewrite advance_args. }
  unfold verdict in Hok. destruct (Z.ltb_spec (reg v p REG_T0) (zlen validators)); [|done].
  pose proof (checks_nonneg (reg v p REG_T0)) as Hnn.
  apply wp_bind. eapply see_v_advance; [done|done|]. intros s1 Hs1.
  eapply (do_call _ _ _ _ n); [exact Hs1|done| |done| | | |exact HQ].
  - unfold running in *. cbn. by rewrite fupd_eq.
  - rewrite <- Hok. apply run_checks_ext. eapply Forall_impl; [done|]. intros [k i] Hi. by apply Hargs.
  - eapply Forall_impl; [exact (proj2 (Forall_and _ _) (conj Hfit Hnn))|].
    intros [k i] [H1 Hi] Hex. cbn in *. rewrite Hargs by done. by apply H1.
  - intros E. destruct (Hrev E) as [Hf Hn]. split; [|done]. by eapply fires_later.
Qed.

Lemma see_verdict s v p (k : Z -> err_t -> K (option Z)) Q :
  sees s v -> valid_proc p -> running v p -> 0 <= reg v p REG_T0 ->
  wp (k (reg v p REG_T0) (verdict p v)) Q s ->
  wp (let* call := reg_get p REG_T0 in
      let* err := (if call <? zlen validators
                   then let* f := array_get validators call in f p
                   else ret ERR_INVALID_SYSCALL) in k call err) Q s.
Proof.
  intros Hs Hp Hr Hc HQ.
  assert (D : during p v s v) by (split; [done|apply rtc_refl|done|done]).
  apply wp_bind. eapply see_reg; [done|done|done|]. apply wp_bind. unfold verdict in HQ.
  destruct (Z.ltb_spec (reg v p REG_T0) (zlen validators)); [|by apply wp_ret].
  by eapply see_validate.
Qed.
End Dispatch.
