(* ===== verification/SchedSafe.v ===== *)
(** * The scheduler

    What [sched_fetch] decides from the schedule, that the scheduler never
    faults, and that it ends once some slot has a process that can run. *)

From S2P Require Import Prelude Config CapTypes CapTable CapList KState Proc Sched.
From S2P Require Import Channel CapOps CapPmp CapIpc Invariant View Spec Refine Steps.
From S2P Require Import Revoke IpcSafe.

(** ** Partial correctness: a loop may run out of fuel *)

Section Wlp.
Context {St : Type}.

(** A waiting loop keeps what its test keeps. *)
Lemma wlp_while (I : St -> Prop) (test : M St bool) Q fuel : forall s,
  I s -> (forall s, I s -> wp test (fun _ => I) s) -> (forall s, I s -> Q tt s) ->
  wlp (while_busy fuel test) Q s.
Proof.
  induction fuel as [|fuel IH]; intros s HI Ht HQ; cbn [while_busy]; [done|].
  apply wlp_bind, wlp_wp. eapply wp_mono; [by apply Ht|]. intros [] s' HI'; [by apply IH|by apply HQ].
Qed.
End Wlp.

(** ** Reading the schedule *)

Definition lane_pid (w : Z) : Z := Z.land (Z.shiftr w 8) 255.
Definition lane_len (w : Z) : Z := Z.land w 255.

(** [from, from + 1, ..., to - 1] *)
Definition zrange (from to : Z) : list Z :=
  map (fun n => from + Z.of_nat n) (seq 0 (Z.to_nat (to - from))).

Lemma elem_of_zrange from to i : i ∈ zrange from to <-> from <= i < to.
Proof.
  unfold zrange. rewrite list_elem_of_fmap. split.
  - intros (n & -> & Hn%elem_of_seq). lia.
  - intros Hi. exists (Z.to_nat (i - from)). split; [lia|]. apply elem_of_seq. lia.
Qed.

Section Fetch.
Context `{C : Config} {Cok : ConfigOk C}.

(** Another hart has the slot of process [pid]. *)
Definition yields_lower (v : view) (hart slot : Z) : bool :=
  let w := v_lane v hart (slot mod S3K_SLOT_CNT) in
  existsb (fun i => let o := v_lane v i (slot mod S3K_SLOT_CNT) in
                    (lane_pid w =? lane_pid o) && (lane_len w <=? lane_len o))
    (zrange S3K_MIN_HART hart).

Definition yields_higher (v : view) (hart slot : Z) : bool :=
  let w := v_lane v hart (slot mod S3K_SLOT_CNT) in
  existsb (fun i => let o := v_lane v i (slot mod S3K_SLOT_CNT) in
                    (lane_pid w =? lane_pid o) && (lane_len w <? lane_len o))
    (zrange (hart + 1) S3K_MAX_HART).

(** The hart may run the owner of its lane in the slot. *)
Definition has_slot (v : view) (hart slot : Z) : bool :=
  negb (lane_len (v_lane v hart (slot mod S3K_SLOT_CNT)) =? 0)
  && negb (SMP && (yields_lower v hart slot || yields_higher v hart slot)).

Lemma lane_entry_pid h w : valid_hart h ->
  Z.land (Z.shiftr (Z.shiftr w ((h - S3K_MIN_HART) * 16)) 8) 255 = lane_pid (fget (lane h) w).
Proof.
  intros Hh. pose proof (lane_ok h Hh) as Hok. unfold lane_pid, valid_hart in *.
  change 255 with (Z.ones 8). apply Z.bits_inj'. intros n Hn.
  rewrite !Z.land_spec, !Z.shiftr_spec, ones_bit, fget_bit by (done || lia).
  cbn [f_off f_wid lane]. destruct (Z.ltb_spec n 8); [|by rewrite !andb_false_r].
  destruct (Z.ltb_spec (n + 8) 16); [|lia]. cbn [andb]. f_equal. f_equal. lia.
Qed.

Lemma lane_entry_len h w : valid_hart h ->
  Z.land (Z.shiftr w ((h - S3K_MIN_HART) * 16)) 255 = lane_len (fget (lane h) w).
Proof.
  intros Hh. pose proof (lane_ok h Hh) as Hok. unfold lane_len, valid_hart in *.
  change 255 with (Z.ones 8). apply Z.bits_inj'. intros n Hn.
  rewrite !Z.land_spec, !Z.shiftr_spec, ones_bit, fget_bit by (done || lia).
  cbn [f_off f_wid lane]. destruct (Z.ltb_spec n 8); [|by rewrite !andb_false_r].
  destruct (Z.ltb_spec n 16); [|lia]. cbn [andb]. f_equal. f_equal. lia.
Qed.

Lemma slot_index slot : 0 <= slot mod S3K_SLOT_CNT < S3K_SLOT_CNT.
Proof. config_bounds. apply Z.mod_pos_bound. lia. Qed.

Lemma see_slot_info s v h slot Q :
  sees s v -> valid_hart h ->
  Q (SlotInfo (lane_pid (v_lane v h (slot mod S3K_SLOT_CNT)))
       (lane_len (v_lane v h (slot mod S3K_SLOT_CNT)))) s ->
  wp (zoom l_slots (slot_info_get h slot)) Q s.
Proof.
  intros Hs Hh HQ. pose proof (slot_index slot) as Hi.
  pose proof (wf_slots _ (sees_wf _ _ Hs)) as [Hlen _]. pose proof Hh as [Hh1 Hh2].
  apply wp_zoom. cbn [l_get l_slots]. unfold slot_info_get.
  destruct (lookupZ_lt (slots s) (slot mod S3K_SLOT_CNT)) as [w Hw]; [lia|].
  apply wp_bind. eapply wp_slot_get; [done|]. rewrite hart_index by done. config_bounds.
  replace (u64 ((h - S3K_MIN_HART) * 16)) with ((h - S3K_MIN_HART) * 16)
    by (unfold u64; rewrite Z.mod_small; lia).
  apply wp_bind. unfold shr64. destruct (_ && _) eqn:E; cycle 1.
  { rewrite andb_false_iff, Z.leb_gt, Z.ltb_ge in E. lia. }
  apply wp_ret, wp_ret. rewrite lane_entry_pid, lane_entry_len by done.
  rewrite <- (sees_lane _ _ Hs) in HQ by done. unfold slot_lane in HQ. rewrite Hw in HQ.
  cbn [l_set]. by destruct s.
Qed.

(** A search that only reads. *)
Lemma wp_exists_loop (f : Z -> bool) n : forall i (test : Z -> K bool) Q (s : kstate),
  (forall j, i <= j < i + Z.of_nat n -> wp (test j) (fun b s' => b = f j /\ s' = s) s) ->
  Q (existsb f (map (fun k => i + Z.of_nat k) (seq 0 n))) s ->
  wp (exists_loop n i test) Q s.
Proof.
  induction n as [|n IH]; intros i test Q s Ht HQ; cbn [exists_loop]; [done|].
  apply wp_bind. eapply wp_mono; [apply Ht; lia|]. intros b s' [-> ->].
  cbn [seq map existsb] in HQ. replace (i + Z.of_nat 0) with i in HQ by lia.
  destruct (f i); [by apply wp_ret|]. apply IH; [intros j Hj; apply Ht; lia|].
  cbn [orb] in HQ. rewrite <- seq_shift, map_map in HQ.
  erewrite map_ext; [exact HQ|]. intros k. cbn. lia.
Qed.

Lemma see_yields s v hart slot (lower : bool) Q :
  sees s v -> valid_hart hart ->
  Q (if lower then yields_lower v hart slot else yields_higher v hart slot) s ->
  wp (let si := SlotInfo (lane_pid (v_lane v hart (slot mod S3K_SLOT_CNT)))
                  (lane_len (v_lane v hart (slot mod S3K_SLOT_CNT))) in
      if lower then sched_yield_to_lower hart slot si
      else sched_yield_to_higher hart slot si) Q s.
Proof.
  intros Hs Hh HQ. pose proof Hh as [Hh1 Hh2]. destruct lower.
  - eapply wp_exists_loop; [|exact HQ]. intros j Hj. apply wp_bind.
    eapply see_slot_info; [done|unfold valid_hart; lia|]. done.
  - eapply wp_exists_loop; [|exact HQ]. intros j Hj. apply wp_bind.
    eapply see_slot_info; [done|unfold valid_hart; lia|]. done.
Qed.

(** The deadline of the slice of a slot. *)
Definition deadline (w slot : Z) : Z :=
  u64 (u64 ((slot + lane_len w) * S3K_SLOT_LEN) - S3K_SCHED_TIME).

Lemma lane_pid_valid s v h slot : sees s v -> valid_hart h ->
  valid_proc (lane_pid (v_lane v h (slot mod S3K_SLOT_CNT))).
Proof.
  intros Hs Hh. pose proof (slot_index slot). rewrite <- (sees_lane _ _ Hs) by done.
  by apply (wf_slots _ (sees_wf _ _ Hs)).
Qed.


(** The state after [sched_fetch] returned [q]. *)
Definition v_dispatch (hart slot : Z) (v : view) : view :=
  let w := v_lane v hart (slot mod S3K_SLOT_CNT) in
  let q := lane_pid w in
  v_set_proc q (set_timeout (deadline w slot) (set_state PSF_BUSY (v_proc v q)))
    (v_set_hw (hw_tick (v_hw v)) v).

Lemma see_sched_fetch s v hart slot Q :
  sees s v -> valid_hart hart ->
  let q := lane_pid (v_lane v hart (slot mod S3K_SLOT_CNT)) in
  (forall s' v', has_slot v hart slot && ready v q = false -> sees s' v' -> ticked v v' ->
     Q None s') ->
  (forall s', has_slot v hart slot && ready v q = true -> sees s' (v_dispatch hart slot v) ->
     Q (Some q) s') ->
  wp (sched_fetch hart slot) Q s.
Proof.
  intros Hs Hh q HN HS. unfold sched_fetch. apply wp_bind.
  eapply see_slot_info; [done|done|]. cbn [si_pid si_length].
  pose proof (lane_pid_valid _ _ _ slot Hs Hh) as Hq. fold q in Hq |- *.
  unfold has_slot in HN, HS. destruct (_ =? 0); cbn [negb andb] in HN, HS; [see; by eapply HN|].
  assert (Hpure : forall (lower : bool) P,
    P (SMP && (if lower then yields_lower v hart slot else yields_higher v hart slot)) s ->
    wp (if SMP then if lower then sched_yield_to_lower hart slot
          (SlotInfo q (lane_len (v_lane v hart (slot mod S3K_SLOT_CNT))))
        else sched_yield_to_higher hart slot
          (SlotInfo q (lane_len (v_lane v hart (slot mod S3K_SLOT_CNT)))) else ret false) P s).
  { intros lower P HP. destruct SMP; cbn [andb] in HP; [|by see].
    by eapply (see_yields s v hart slot lower). }
  apply wp_bind, (Hpure true).
  destruct (SMP && yields_lower v hart slot) eqn:E1.
  { see. apply andb_true_iff in E1 as [E1 E2]. rewrite E1, E2 in HN. by eapply HN. }
  apply wp_bind, (Hpure false).
  destruct (SMP && yields_higher v hart slot) eqn:E2.
  { see. apply andb_true_iff in E2 as [E2 E3]. rewrite E2, E3, orb_true_r in HN. by eapply HN. }
  assert (Hgo : negb (SMP && (yields_lower v hart slot || yields_higher v hart slot)) = true).
  { apply negb_true_iff. destruct SMP; [|done]. cbn [andb] in *. by rewrite E1, E2. }
  rewrite Hgo in HN, HS. cbn [andb] in HN, HS.
  do 3 see_step. eapply see_proc_acquire; [done|done| |]; intros s1.
  - intros v1 Hr Hs1 Ht. see. by eapply HN.
  - intros Hr Hs1. cbn [negb]. see. eapply HS; [done|].
    match goal with H : sees ?x _ |- sees ?x _ => revert H end. apply sees_proper.
    split; [done|]. split; [done|]. split; [done|]. split; [|done].
    intros x _. unfold v_dispatch. cbn [v_proc v_set_proc v_set_hw]. fold q. unfold fupd.
    rewrite Z.eqb_refl. by destruct (x =? q).
Qed.

(** The loop keeps everything but what [sched_fetch] does to its choice. *)
Lemma see_sched_loop wait fuel : forall s v hart Q,
  sees s v -> valid_hart hart ->
  (forall s' v' slot, let q := lane_pid (v_lane v hart (slot mod S3K_SLOT_CNT)) in
     ticked v v' -> has_slot v' hart slot && ready v' q = true ->
     sees s' (v_dispatch hart slot v') -> Q q s') ->
  wlp (sched_loop wait fuel hart) Q s.
Proof.
  induction fuel as [|fuel IH]; intros s v hart Q Hs Hh HQ; cbn [sched_loop]; [done|].
  apply wlp_bind, wlp_wp. see_step. apply wlp_bind.
  eapply (wlp_while (fun s' => exists v', sees s' v' /\ ticked v v')).
  - eexists. split; [done|apply ticked_tick].
  - intros s1 (v1 & Hs1 & T1). see. eexists. split; [done|]. etrans; [done|apply ticked_tick].
  - intros s1 (v1 & Hs1 & T1). apply wlp_bind, wlp_wp. eapply see_sched_fetch; [done|done| |].
    + intros s2 v2 _ Hs2 T2. eapply IH; [done|done|].
      assert (T : ticked v v2) by by etrans. destruct T as (h & Hl & ->).
      intros s3 v3 slot q T3 Hr Hs3. eapply HQ; [|done|done]. etrans; [|done].
      by exists h.
    + intros s2 Hr Hs2. apply wlp_wp. see. assert (T := T1). destruct T as (h & Hl & ->).
      by eapply HQ.
Qed.

Lemma dispatch_frame v hart slot : frame v (v_dispatch hart slot v).
Proof. by apply (frame_set_proc (v_set_hw _ v)). Qed.

Lemma ticked_frame v v' : ticked v v' -> frame v v'.
Proof. by intros (h & _ & ->). Qed.

(** The choice of the scheduler, without the details. *)
Lemma see_sched_choice wait fuel s v hart Q :
  sees s v -> valid_hart hart ->
  (forall s' v' q, sees s' v' -> valid_proc q -> frame v v' ->
     p_state (v_proc v' q) = PSF_BUSY -> mhartid (v_hw v') = mhartid (v_hw v) -> Q q s') ->
  wlp (sched_loop wait fuel hart) Q s.
Proof.
  intros Hs Hh HQ. eapply see_sched_loop; [done|done|].
  intros s1 v1 slot q T1 _ Hs1. pose proof (lane_pid_valid _ _ _ slot Hs Hh) as Hq.
  eapply HQ; [done|done| | |].
  - etrans; [by apply ticked_frame|apply dispatch_frame].
  - subst q. destruct T1 as (h & _ & ->). unfold v_dispatch. cbn [v_proc v_set_proc v_lane v_set_hw].
    by rewrite fupd_eq.
  - by destruct T1 as (h & [_ _ _ _ _ E] & ->).
Qed.

Lemma see_sched wait fuel s v Q :
  sees s v ->
  (forall s' v' q, sees s' v' -> valid_proc q -> frame v v' ->
     p_state (v_proc v' q) = PSF_BUSY -> Q q s') ->
  wlp (sched wait fuel) Q s.
Proof.
  intros Hs HQ. unfold sched. apply wlp_bind, wlp_wp. see_step.
  apply wlp_bind, wlp_wp. see_step. apply wlp_bind.
  eapply see_sched_choice; [done|done|]. intros s1 v1 q Hs1 Hq F1 E1 Hhart. cbn in Hhart.
  apply wlp_wp. do 3 see_step. rewrite <- Hhart. see.
  eapply HQ; [done|done| |done]. etrans; [|by apply frame_set_hw].
  etrans; [|exact F1]. apply frame_set_hw.
Qed.
End Fetch.
