(* ===== verification/Machine.v ===== *)
(** * The machine: processes and traps

    A run of the system on a hart alternates steps of the current process, which
    may leave anything in its own registers, and traps into the kernel.  Every
    trap that returns is a step, whatever its cause and its arguments; a trap that
    faults has no next state.  All a trap does to the protection state is a
    sequence of authorised operations; so what those preserve holds in every
    reachable state. *)

From S2P Require Import Prelude Config CapTypes CapTable CapList KState Proc Sched.
From S2P Require Import Channel CapOps CapPmp CapIpc CapMonitor Syscall Trap Invariant.
From S2P Require Import View Spec Refine Steps Revoke IpcSafe SyscallSafe SchedSafe.

Section Traps.
Context `{C : Config} {Cok : ConfigOk C}.

Lemma in_copy_reg p v0 s v dst src Q :
  during p v0 s v -> 0 <= dst < REG_CNT -> 0 <= src < REG_CNT ->
  (forall s' v', during p v0 s' v' -> Q tt s') -> wp (copy_reg p dst src) Q s.
Proof.
  intros D Hd Hsrc HQ. pose proof D as [D1 D2 D3 D4]. unfold copy_reg.
  apply wp_bind. eapply see_reg_get; [done..|]. intros x _. by eapply in_reg_set.
Qed.

Definition process_of (e : trap_exit) : Z :=
  match e with TrapReturn p => p | TrapResume p => p end.

Lemma in_exception p v0 s v mcause mtval Q :
  during p v0 s v -> (forall s' v', during p v0 s' v' -> Q p s') ->
  wp (exception_handler p mcause mtval) Q s.
Proof.
  intros D HQ. pose proof (d_valid _ _ _ _ D) as Hp. unfold exception_handler.
  destruct (_ && _).
  - unfold exception_trap_return.
    apply wp_bind. eapply in_copy_reg; [exact D|done|done|]. clear s v D. intros s v D.
    apply wp_bind. eapply in_copy_reg; [exact D|done|done|]. clear s v D. intros s v D.
    do 4 (apply wp_bind; eapply in_reg_set; [exact D|done|done|]; clear s v D; intros s v D).
    apply wp_ret. by eapply HQ.
  - unfold exception_delegate.
    do 2 (apply wp_bind; eapply in_reg_set; [exact D|done|done|]; clear s v D; intros s v D).
    do 4 (apply wp_bind; eapply in_copy_reg; [exact D|done|done|]; clear s v D; intros s v D).
    apply wp_ret. by eapply HQ.
Qed.

(** A kernel state, with the process of the hart. *)
Record current (s : kstate) (v : view) (p : Z) : Prop := {
  cur_sees : sees s v;
  cur_valid : valid_proc p;
  cur_running : running v p
}.

Lemma current_during s v p : current s v p -> during p v s v.
Proof. intros []. split; [done|apply rtc_refl|done|done]. Qed.

(** The kernel's answer to a trap of [p]. *)
Definition trap_post (p : Z) (v0 : view) (Q : trap_exit -> kstate -> Prop) : Prop :=
  forall e s' v', current s' v' (process_of e) -> ksteps p v0 v' -> Q e s'.

Lemma see_release_sched E p v0 s v wait search Q :
  E OutOfFuel -> sees s v -> ksteps p v0 v -> valid_proc p -> busy v p -> trap_post p v0 Q ->
  wpe E (do* proc_release p in let* n := sched wait search in ret (TrapResume n)) Q s.
Proof.
  intros HE Hs Hk Hp Hb HQ. apply wpe_bind, wpe_wp. eapply see_release; [done..|].
  intros s1 x Hs1. apply wpe_bind, wpe_wlp; [done|]. eapply see_sched; [done|].
  intros s2 v2 q Hs2 Hq F2 E2. apply wpe_ret. eapply HQ; [split; [done|done|by left]|].
  eapply rtc_r; [done|]. apply k_frame. etrans; [|exact F2]. by apply frame_set_proc.
Qed.

Lemma see_trap_handler E fuel wait search p s v mcause mtval Q :
  E OutOfFuel -> current s v p -> (mcause = 8 -> args_ok E v p) ->
  trap_post p v Q -> wpe E (trap_handler fuel wait search p mcause mtval) Q s.
Proof.
  intros HE Cur Hsys HQ. pose proof Cur as [Hs Hp Hr].
  pose proof (current_during _ _ _ Cur) as D. unfold trap_handler.
  destruct (Z.eqb_spec mcause 8) as [E8|_].
  - apply wpe_bind. eapply (see_syscall_handler E fuel 0); [done..|by apply Hsys|by left|].
    intros next s1 v1 Hs1 K1 B1 R1 N1. case_bool_decide as Hnext.
    { apply wpe_ret. eapply HQ; [|done]. split; [done|done|by apply R1]. }
    destruct next as [m|]; [|by eapply see_release_sched].
    apply wpe_bind, wpe_wp. eapply see_release; [done..|]. intros s2 x Hs2.
    apply wpe_ret. destruct N1 as [->|(Hne & Hm & E1)]; [done|].
    eapply HQ.
    + split; [done|done|]. left. cbn. by rewrite fupd_ne.
    + eapply rtc_r; [done|]. by apply k_frame, frame_set_proc.
  - destruct (Z.testbit mcause 63).
    + apply wpe_bind. unfold interrupt_handler.
      pose proof (see_release_sched E p v s v wait search Q HE Hs (rtc_refl _ _) Hp
                    (running_busy _ _ Hr) HQ) as H.
      revert H. unfold wpe, bind. destruct (proc_release p s); [|done].
      by destruct (sched wait search _).
    + apply wpe_bind, wpe_wp. eapply in_exception; [done|]. intros s1 v1 [D1 D2 D3 D4].
      apply wpe_ret. by eapply HQ.
Qed.

Lemma see_trap_leave e s v Q :
  current s v (process_of e) ->
  (forall s' v', current s' v' (process_of e) -> frame v v' -> Q (process_of e) s') ->
  wp (trap_leave e) Q s.
Proof.
  intros Cur HQ. pose proof Cur as [Hs Hp Hr]. destruct e as [p|p]; cbn [trap_leave process_of] in *.
  - apply wp_ret. by eapply HQ.
  - apply wp_bind. eapply see_pmp_sync; [done|done|]. intros s1 h Hs1. apply wp_ret.
    by eapply HQ.
Qed.
End Traps.

(** ** Runs *)

Record machine := Machine { m_kernel : kstate; m_cur : Z }.

Section Runs.
Context `{C : Config} {Cok : ConfigOk C}.

(** What a process can do to the kernel state between two traps, and the
    devices until the next one. *)
Inductive user_step (p : Z) (s : kstate) : kstate -> Prop :=
| user_intro x regs h :
    lookupZ (procs s) p = Some x -> zlen regs = REG_CNT ->
    mhartid h = mhartid (hw s) -> mtimecmp h = mtimecmp (hw s) ->
    user_step p s (set_hw h (set_procs (insertZ p (set_regs regs x) (procs s)) s)).

(** A trap is taken with words in the registers of the process, as [uint64_t]
    holds them.  A system call with a number that is wider than it is checked at
    may fault ([SyscallTheorems.wide_register_read]): what the program does then is
    undefined, and there is no step. *)
Inductive mstep : relation machine :=
| m_user s s' p : user_step p s s' -> mstep (Machine s p) (Machine s' p)
| m_trap s p fuel wait search mcause mtval e s1 s2 q :
    word_regs (view_of s None) p ->
    trap_handler fuel wait search p mcause mtval s = Done e s1 ->
    trap_leave e s1 = Done q s2 ->
    mstep (Machine s p) (Machine s2 q).

(** Steps of some process. *)
Definition anystep (v v' : view) : Prop := exists p, kstep p v v'.

Lemma ksteps_any p v v' : ksteps p v v' -> rtc anystep v v'.
Proof. apply (rtc_congruence id). intros x y H. by exists p. Qed.

Lemma word_regs_sees s v p l :
  sees s v -> valid_proc p -> word_regs (view_of s l) p -> word_regs v p.
Proof.
  intros Hs Hp Hw r Hr. specialize (Hw r Hr). unfold reg in *. cbn [v_proc view_of] in Hw.
  by rewrite (sees_proc _ _ Hs) in Hw.
Qed.

Lemma user_step_current s s' v p :
  current s v p -> user_step p s s' -> exists v', current s' v' p /\ frame v v'.
Proof.
  intros [Hs Hp Hr] [x regs h Hx Hlen E1 E2].
  pose proof (sees_proc _ _ Hs p Hp) as Hx'. rewrite Hx in Hx'. injection Hx' as ->.
  pose proof (sees_proc_wf _ _ Hs _ Hp) as (W1 & _ & W3).
  assert (Hs1 : sees (set_procs (insertZ p (set_regs regs (v_proc v p)) (procs s)) s)
                  (v_set_proc p (set_regs regs (v_proc v p)) v)) by by apply sees_procs.
  eexists. split; [split; [|done|]|].
  - apply sees_set_hw; [done|]. pose proof (sees_hw_wf _ _ Hs) as [H1 H2].
    rewrite <- (sees_hw _ _ Hs) in *. split; congruence.
  - unfold running in *. cbn. by rewrite fupd_eq.
  - by apply (frame_set_proc v).
Qed.

(** One step of the machine is a sequence of steps on views. *)
Lemma mstep_steps m m' v :
  current (m_kernel m) v (m_cur m) -> mstep m m' ->
  exists v', current (m_kernel m') v' (m_cur m') /\ rtc anystep v v'.
Proof.
  intros Cur Hst. destruct Hst as [s s' p Hu|s p fuel wait search mcause mtval e s1 s2 q Hw Ht Hl];
    cbn [m_kernel m_cur] in *.
  - destruct (user_step_current _ _ _ _ Cur Hu) as (v' & Cur' & F). exists v'. split; [done|].
    apply rtc_once. exists p. by apply k_frame.
  - pose proof Cur as [Hs Hp Hr].
    assert (H1 : wpe any_fault (trap_handler fuel wait search p mcause mtval)
      (fun e s1 => exists v1, current s1 v1 (process_of e) /\ rtc anystep v v1) s).
    { eapply see_trap_handler; [done|done| |].
      - intros _. right. split; [done|]. by eapply word_regs_sees.
      - intros e' s' v' Cur' K. exists v'. split; [done|]. by eapply ksteps_any. }
    destruct (wpe_Done _ _ _ _ _ _ H1 Ht) as (v1 & Cur1 & K1).
    assert (H2 : wp (trap_leave e)
      (fun q s2 => exists v2, current s2 v2 q /\ rtc anystep v v2) s1).
    { eapply see_trap_leave; [done|]. intros s' v' Cur' F. exists v'. split; [done|].
      eapply rtc_r; [done|]. exists p. by apply k_frame. }
    by destruct (wlp_Done _ _ _ _ _ (wlp_wp _ _ _ H2) Hl) as (v2 & ? & ?); exists v2.
Qed.

Lemma reachable_steps m m' v :
  current (m_kernel m) v (m_cur m) -> rtc mstep m m' ->
  exists v', current (m_kernel m') v' (m_cur m') /\ rtc anystep v v'.
Proof.
  intros Cur Hst. revert v Cur. induction Hst as [m|m m1 m' Hst _ IH]; intros v Cur.
  - by exists v.
  - destruct (mstep_steps _ _ _ Cur Hst) as (v1 & Cur1 & K1).
    destruct (IH v1 Cur1) as (v' & Cur' & K'). exists v'. split; [done|]. by etrans.
Qed.
End Runs.
