(* ===== verification/PmpInv.v ===== *)
(** * PMP configurations are backed by capabilities

    The separation property of the kernel's memory protection: a process has a
    PMP region configured exactly when it holds, in its own table, a loaded PMP
    capability for that slot, and the region and the rights are those of the
    capability.  No capability operation breaks this. *)

From S2P Require Import Prelude Config CapTypes CapTable CapList KState Proc Sched.
From S2P Require Import Channel CapOps CapPmp Trap Invariant View Spec Refine Steps.
From S2P Require Import Revoke IpcSafe SyscallSafe Machine.

Section Backed.
Context `{C : Config} {Cok : ConfigOk C}.

Definition cfg_at (v : view) (q j : Z) : Z := default 0 (lookupZ (p_pmpcfg (v_proc v q)) j).
Definition addr_at (v : view) (q j : Z) : Z := default 0 (lookupZ (p_pmpaddr (v_proc v q)) j).

(** Entry [c] holds a PMP capability loaded to slot [j]. *)
Definition loaded_at (v : view) (c : cte_t) (j : Z) : Prop :=
  in_table c /\ pmp_loaded (v_cap v c) = true /\ (v_cap v c)⟦pmp_slot⟧ = j.

Record backed (v : view) : Prop := {
  bk_len : forall q, valid_proc q ->
    zlen (p_pmpcfg (v_proc v q)) = S3K_PMP_CNT /\ zlen (p_pmpaddr (v_proc v q)) = S3K_PMP_CNT;
  (** a loaded capability is in force *)
  bk_cap : forall c j, loaded_at v c j ->
    0 <= j < S3K_PMP_CNT /\
    cfg_at v (cte_pid c) j = pmp_cfg (v_cap v c)⟦pmp_rwx⟧ /\
    addr_at v (cte_pid c) j = (v_cap v c)⟦pmp_addr⟧;
  (** a configured region has a loaded capability, *)
  bk_reg : forall q j, valid_proc q -> 0 <= j < S3K_PMP_CNT -> cfg_at v q j <> 0 ->
    exists c, loaded_at v c j /\ cte_pid c = q;
  (** and only one *)
  bk_one : forall c c' j, loaded_at v c j -> loaded_at v c' j -> cte_pid c = cte_pid c' -> c = c'
}.

Lemma pmp_cfg_nonzero rwx : 0 <= rwx < 8 -> pmp_cfg rwx <> 0.
Proof.
  intros H E. apply (f_equal (fun x => Z.testbit x 4)) in E. unfold pmp_cfg, u8 in E.
  rewrite Z.mod_pow2_bits_low, Z.lor_spec, orb_true_r in E by lia. done.
Qed.

Lemma rwx_range k : 0 <= k⟦pmp_rwx⟧ < 8.
Proof. apply (fget_range pmp_rwx k). done. Qed.

(** Only capabilities and PMP registers matter. *)
Lemma backed_ext v v' :
  (forall c, v_cap v' c = v_cap v c) -> (forall q, same_pmp (v_proc v q) (v_proc v' q)) ->
  backed v -> backed v'.
Proof.
  intros Hc Hp [H1 H2 H3 H4].
  assert (El : forall c j, loaded_at v' c j <-> loaded_at v c j).
  { intros c j. unfold loaded_at. by rewrite Hc. }
  assert (Ec : forall q j, cfg_at v' q j = cfg_at v q j).
  { intros q j. unfold cfg_at. by destruct (Hp q) as [-> _]. }
  assert (Ea : forall q j, addr_at v' q j = addr_at v q j).
  { intros q j. unfold addr_at. by destruct (Hp q) as [_ ->]. }
  split.
  - intros q Hq. destruct (Hp q) as [-> ->]. by apply H1.
  - intros c j. rewrite El, Ec, Ea, Hc. apply H2.
  - intros q j. rewrite Ec. intros Hq Hj Hx. destruct (H3 q j Hq Hj Hx) as (c & ? & ?).
    exists c. by rewrite El.
  - intros c c' j. rewrite !El. eauto.
Qed.

(** Changes to capabilities that are not loaded, before or after. *)
Lemma backed_caps v cp l :
  (forall c, in_table c -> pmp_loaded (cp c) = true \/ pmp_loaded (v_cap v c) = true ->
     cp c = v_cap v c) ->
  backed v -> backed (v_set_table cp l v).
Proof.
  intros Hc [H1 H2 H3 H4].
  assert (El : forall c j, loaded_at (v_set_table cp l v) c j <-> loaded_at v c j).
  { intros c j. unfold loaded_at. cbn. split; intros (A & B & D).
    - rewrite <- (Hc c); auto.
    - rewrite (Hc c); auto. }
  split; [done| | |].
  - intros c j Hl. pose proof Hl as Hl'. apply El in Hl'. destruct Hl as (A & B & _). cbn in *.
    rewrite (Hc c) by auto. by apply H2.
  - intros q j Hq Hj Hx. destruct (H3 q j Hq Hj Hx) as (c & ? & ?). exists c. by rewrite El.
  - intros c c' j. rewrite !El. eauto.
Qed.

Lemma cfg_pmp_set v p slot x q j :
  0 <= slot < zlen (p_pmpcfg (v_proc v p)) ->
  cfg_at (v_pmp_set p slot x v) q j =
  if (q =? p) && (j =? slot) then x else cfg_at v q j.
Proof.
  intros Hs. unfold cfg_at, v_pmp_set. cbn [v_proc v_set_proc]. unfold fupd.
  destruct (Z.eqb_spec q p) as [->|]; [|done]. cbn [p_pmpcfg set_pmpcfg].
  rewrite lookupZ_insertZ by done. by destruct (j =? slot).
Qed.

Lemma len_pmp_set v p slot x q :
  zlen (p_pmpcfg (v_proc (v_pmp_set p slot x v) q)) = zlen (p_pmpcfg (v_proc v q)) /\
  p_pmpaddr (v_proc (v_pmp_set p slot x v) q) = p_pmpaddr (v_proc v q).
Proof.
  unfold v_pmp_set. cbn [v_proc v_set_proc]. unfold fupd.
  destruct (Z.eqb_spec q p) as [->|]; [|done]. cbn. by rewrite zlen_insertZ.
Qed.

(** A loaded capability is unloaded and replaced by one that is not loaded. *)
Lemma backed_drop v c cp l :
  in_table c -> pmp_loaded (cp c) = false ->
  (forall x, in_table x -> x <> c ->
     pmp_loaded (cp x) = true \/ pmp_loaded (v_cap v x) = true -> cp x = v_cap v x) ->
  backed v -> backed (v_set_table cp l (v_unload c v)).
Proof.
  intros Hc Hn Hx Hb. unfold v_unload. destruct (pmp_loaded (v_cap v c)) eqn:Ec; cycle 1.
  { apply backed_caps; [|done]. intros x Hxt Hor. destruct (decide (x = c)) as [->|Hne].
    - destruct Hor; congruence.
    - by apply Hx. }
  pose proof Hb as [H1 H2 H3 H4]. set (j0 := (v_cap v c)⟦pmp_slot⟧).
  assert (L0 : loaded_at v c j0) by done. destruct (H2 c j0 L0) as (Hj0 & _).
  assert (Hq0 : valid_proc (cte_pid c)) by by apply cte_pid_range.
  assert (Hlen : 0 <= j0 < zlen (p_pmpcfg (v_proc v (cte_pid c)))) by (destruct (H1 _ Hq0); lia).
  set (v1 := v_set_table cp l (v_pmp_set (cte_pid c) j0 0 v)).
  assert (El : forall x j, loaded_at v1 x j <-> loaded_at v x j /\ x <> c).
  { intros x j. unfold loaded_at, v1. cbn. split.
    - intros (A & B & D). assert (x <> c) by congruence. rewrite <- (Hx x); auto.
    - intros ((A & B & D) & E). rewrite (Hx x); auto. }
  assert (Ecfg : forall q j, cfg_at v1 q j =
    if (q =? cte_pid c) && (j =? j0) then 0 else cfg_at v q j).
  { intros q j. by apply (cfg_pmp_set v). }
  assert (Eaddr : forall q j, addr_at v1 q j = addr_at v q j).
  { intros q j. unfold addr_at. by destruct (len_pmp_set v (cte_pid c) j0 0 q) as [_ <-]. }
  split.
  - intros q Hq. destruct (len_pmp_set v (cte_pid c) j0 0 q) as [E1 E2]. destruct (H1 q Hq).
    split; [by etrans; [exact E1|]|]. by etrans; [exact (f_equal zlen E2)|].
  - intros x j Hl. pose proof Hl as Hl'. apply El in Hl' as [Hl' Hne].
    destruct (H2 x j Hl') as (B1 & B2 & B3). destruct Hl as (A1 & A2 & _).
    assert (Ecp : cp x = v_cap v x) by (apply Hx; auto).
    change (v_cap v1 x) with (cp x). rewrite Ecp, Ecfg, Eaddr. split; [done|]. split; [|done].
    destruct (Z.eqb_spec (cte_pid x) (cte_pid c)) as [E|]; [|done].
    destruct (Z.eqb_spec j j0) as [->|]; [|done]. by destruct (Hne (H4 _ _ _ Hl' L0 E)).
  - intros q j Hq Hj. rewrite Ecfg. destruct (_ && _) eqn:E; [done|]. intros Hne.
    destruct (H3 q j Hq Hj Hne) as (x & Hl & <-). exists x. split; [|done]. apply El.
    split; [done|]. intros ->. destruct Hl as (_ & _ & <-).
    by rewrite !Z.eqb_refl in E.
  - intros x x' j [Hl _]%El [Hl' _]%El. by eapply H4.
Qed.

(** A loaded capability is moved within its process. *)
Lemma backed_rename v src dst l :
  in_table src -> in_table dst -> src <> dst -> cte_pid src = cte_pid dst ->
  pmp_loaded (v_cap v dst) = false ->
  backed v ->
  backed (v_set_table (fupd (fupd (v_cap v) dst (v_cap v src)) src 0) l v).
Proof.
  intros Hsrc Hdst Hne Hpid Hd [H1 H2 H3 H4].
  set (v1 := v_set_table _ l v).
  assert (El : forall x j, loaded_at v1 x j <->
    (x = dst /\ loaded_at v src j) \/ (x <> src /\ x <> dst /\ loaded_at v x j)).
  { intros x j. unfold loaded_at, v1. cbn. unfold fupd.
    destruct (Z.eqb_spec x src) as [->|]; [|destruct (Z.eqb_spec x dst) as [->|]].
    - split; [by intros (_ & ? & _)|]. intros [[? _]|[? _]]; done.
    - split; [intros (_ & A & B); by left|]. by intros [(_ & _ & A & B)|(_ & ? & _)].
    - split; [by right|]. intros [[? _]|(_ & _ & ?)]; done. }
  split.
  - apply H1.
  - intros x j Hl. apply El in Hl as [[-> Hl]|(Hs & Hd' & Hl)].
    + replace (v_cap v1 dst) with (v_cap v src); [rewrite <- Hpid; by apply H2|].
      cbn. rewrite fupd_ne, fupd_eq; done.
    + replace (v_cap v1 x) with (v_cap v x); [by apply H2|]. cbn. by rewrite !fupd_ne.
  - intros q j Hq Hj Hx. destruct (H3 q j Hq Hj Hx) as (x & Hl & <-).
    destruct (decide (x = src)) as [->|Hxs].
    + exists dst. split; [|done]. apply El. by left.
    + exists x. split; [|done]. apply El. right. split; [done|]. split; [|done].
      intros ->. destruct Hl as (_ & ? & _). congruence.
  - intros x x' j Hl Hl' E. apply El in Hl as [[-> Hl]|(A1 & A2 & Hl)],
      Hl' as [[-> Hl']|(A1' & A2' & Hl')]; try done.
    + destruct A1'. symmetry. eapply H4; [done|done|congruence].
    + destruct A1. eapply H4; [done|done|congruence].
    + by eapply H4.
Qed.

(** A capability is loaded to a free slot. *)
Lemma backed_load v c k slot l :
  in_table c -> 0 <= slot < S3K_PMP_CNT -> pmp_loaded (v_cap v c) = false ->
  pmp_loaded k = true -> k⟦pmp_slot⟧ = slot -> cfg_at v (cte_pid c) slot = 0 ->
  backed v ->
  backed (v_set_table (fupd (v_cap v) c k) l
            (v_pmp_load (cte_pid c) slot (pmp_cfg k⟦pmp_rwx⟧) k⟦pmp_addr⟧ v)).
Proof.
  intros Hc Hs Hn Hk Hks Hfree [H1 H2 H3 H4].
  assert (Hq0 : valid_proc (cte_pid c)) by by apply cte_pid_range.
  destruct (H1 _ Hq0) as [L1 L2]. set (v1 := v_set_table _ l _).
  assert (El : forall x j, loaded_at v1 x j <-> (x = c /\ j = slot) \/ (x <> c /\ loaded_at v x j)).
  { intros x j. unfold loaded_at, v1. cbn. unfold fupd.
    destruct (Z.eqb_spec x c) as [->|].
    - split; [intros (_ & _ & E); left; split; congruence|]. intros [[_ ->]|[? _]]; done.
    - split; [by right|]. intros [[? _]|[_ ?]]; done. }
  assert (Ecfg : forall q j, cfg_at v1 q j =
    if (q =? cte_pid c) && (j =? slot) then pmp_cfg k⟦pmp_rwx⟧ else cfg_at v q j).
  { intros q j. unfold cfg_at, v1, v_pmp_load, v_pmp_set. cbn. unfold fupd.
    rewrite Z.eqb_refl. destruct (Z.eqb_spec q (cte_pid c)) as [->|]; [|done]. cbn.
    rewrite lookupZ_insertZ by lia. by destruct (j =? slot). }
  assert (Eaddr : forall q j, addr_at v1 q j =
    if (q =? cte_pid c) && (j =? slot) then k⟦pmp_addr⟧ else addr_at v q j).
  { intros q j. unfold addr_at, v1, v_pmp_load, v_pmp_set. cbn. unfold fupd.
    rewrite Z.eqb_refl. destruct (Z.eqb_spec q (cte_pid c)) as [->|]; [|done]. cbn.
    rewrite lookupZ_insertZ by lia. by destruct (j =? slot). }
  assert (Hother : forall x j, loaded_at v x j -> x <> c ->
    (cte_pid x =? cte_pid c) && (j =? slot) = false).
  { intros x j Hl Hxc. destruct (Z.eqb_spec (cte_pid x) (cte_pid c)) as [E|]; [|done].
    destruct (Z.eqb_spec j slot) as [->|]; [|done]. exfalso.
    destruct (H2 _ _ Hl) as (_ & B & _). rewrite E, Hfree in B.
    by apply (pmp_cfg_nonzero (v_cap v x)⟦pmp_rwx⟧), symmetry; [apply rwx_range|]. }
  split.
  - intros q Hq. unfold v1, v_pmp_load, v_pmp_set. cbn. unfold fupd. rewrite Z.eqb_refl.
    destruct (q =? cte_pid c); cbn; rewrite ?zlen_insertZ; [done|by apply H1].
  - intros x j Hl. rewrite Ecfg, Eaddr. apply El in Hl as [[-> ->]|[Hxc Hl]].
    + rewrite !Z.eqb_refl. cbn. by rewrite fupd_eq.
    + rewrite Hother by done. cbn. rewrite fupd_ne by done. by apply H2.
  - intros q j Hq Hj. rewrite Ecfg. destruct (_ && _) eqn:E.
    + breflect. destruct E as [-> ->]. intros _. exists c. split; [|done]. apply El. by left.
    + intros Hx. destruct (H3 q j Hq Hj Hx) as (x & Hl & <-). exists x. split; [|done].
      apply El. right. split; [|done]. intros ->. destruct Hl as (_ & ? & _). congruence.
  - intros x x' j Hl Hl' E. apply El in Hl as [[-> ->]|[Hxc Hl]],
      Hl' as [[-> Ej]|[Hxc' Hl']]; [done| | |by eapply H4].
    + pose proof (Hother _ _ Hl' Hxc') as Hf. by rewrite E, !Z.eqb_refl in Hf.
    + pose proof (Hother _ _ Hl Hxc) as Hf. by rewrite E, Ej, !Z.eqb_refl in Hf.
Qed.
End Backed.

Section Preservation.
Context `{C : Config} {Cok : ConfigOk C}.

Lemma not_pmp_unloaded k t : k⟦cap_type⟧ = t -> t <> CAPTY_PMP -> pmp_loaded k = false.
Proof. unfold pmp_loaded. intros -> Ht. by rewrite (proj2 (Z.eqb_neq _ _) Ht). Qed.

Lemma retyped_unloaded k k' :
  k'⟦cap_type⟧ = k⟦cap_type⟧ -> k⟦cap_type⟧ <> CAPTY_PMP ->
  pmp_loaded k = false /\ pmp_loaded k' = false.
Proof. intros E Hne. split; [by apply (not_pmp_unloaded k _ eq_refl)|by apply (not_pmp_unloaded k' _ E)]. Qed.

Lemma valid_unloaded k : cap_is_valid k = true -> pmp_loaded k = false.
Proof.
  intros Hv. unfold pmp_loaded. destruct (Z.eqb_spec k⟦cap_type⟧ CAPTY_PMP) as [E|]; [|done].
  by destruct (valid_pmp _ Hv E) as [-> _].
Qed.

Lemma derive_mark_unloaded cap k cap' :
  derive_mark cap k = Some cap' -> pmp_loaded cap = false /\ pmp_loaded cap' = false.
Proof.
  unfold derive_mark. intros H.
  assert (cap'⟦cap_type⟧ = cap⟦cap_type⟧ /\ cap⟦cap_type⟧ <> CAPTY_PMP) as [E Hne].
  { repeat case_match; try done; injection H as <-;
      autorewrite with fields; breflect; cbn [capty] in *; split; congruence. }
  by apply retyped_unloaded.
Qed.

Lemma revoke_mark_unloaded pk k pk' :
  revoke_mark pk k = Some pk' -> pmp_loaded pk = false /\ pmp_loaded pk' = false.
Proof.
  intros H. pose proof (revoke_mark_type _ _ _ H) as E. unfold revoke_mark in H.
  assert (pk⟦cap_type⟧ <> CAPTY_PMP) as Hne
    by (repeat case_match; breflect; cbn [capty] in *; congruence).
  by apply retyped_unloaded.
Qed.

Lemma revoke_reset_unloaded pk pk' :
  revoke_reset pk = Some pk' -> pmp_loaded pk = false /\ pmp_loaded pk' = false.
Proof.
  intros H. pose proof (revoke_reset_type _ _ H) as E. unfold revoke_reset in H.
  assert (pk⟦cap_type⟧ <> CAPTY_PMP) as Hne
    by (repeat case_match; breflect; cbn [capty] in *; congruence).
  by apply retyped_unloaded.
Qed.

Lemma empty_unloaded k : empty k = true -> pmp_loaded k = false.
Proof. unfold empty. intros E. breflect. by eapply not_pmp_unloaded. Qed.

Lemma unloaded_0 : pmp_loaded 0 = false.
Proof. reflexivity. Qed.

Lemma cleared_unloaded k : pmp_loaded k⟦pmp_used := 0⟧⟦pmp_slot := 0⟧ = false.
Proof. unfold pmp_loaded. autorewrite with fields. apply andb_false_r. Qed.
Lemma cleared_unloaded' k : pmp_loaded k⟦pmp_slot := 0⟧⟦pmp_used := 0⟧ = false.
Proof. unfold pmp_loaded. autorewrite with fields. apply andb_false_r. Qed.

Lemma unload_id c v : pmp_loaded (v_cap v c) = false -> v_unload c v = v.
Proof. unfold v_unload. by intros ->. Qed.

Ltac unloaded_tac :=
  unfold fupd; repeat match goal with |- context [?x =? ?y] => destruct (Z.eqb_spec x y) end;
  subst; try congruence; intuition congruence.

Lemma backed_move v src dst :
  op_ok (OpMove src dst) v -> backed v -> backed (a_move src dst v).2.
Proof.
  intros [Hs Hd] Hb. unfold a_move. destruct (empty (v_cap v src)) eqn:Es; [done|].
  destruct (empty (v_cap v dst)) eqn:Ed; cbn [negb snd]; [|done].
  pose proof (empty_unloaded _ Ed) as Ud. pose proof unloaded_0.
  assert (src <> dst) by congruence. unfold v_move.
  destruct (Z.eqb_spec (cte_pid src) (cte_pid dst)); [by apply backed_rename|].
  unfold v_handover. destruct (Z.eqb_spec (v_cap v src)⟦cap_type⟧ CAPTY_TIME) as [E|].
  - assert (pmp_loaded (v_cap v src) = false) by by eapply not_pmp_unloaded.
    apply (backed_caps (v_sched_update _ _ _ _ _ v)); [|by apply (backed_ext v)].
    intros c _. cbn. unloaded_tac.
  - destruct (pmp_loaded (v_cap v src)) eqn:El.
    + apply (backed_drop v src); [done| | |done].
      * cbn. by rewrite fupd_eq.
      * intros x _ Hx. cbn. rewrite cap_unload.
        pose proof (cleared_unloaded (v_cap v src)) as Hcl. unloaded_tac.
    + apply backed_caps; [|done]. intros c _. unloaded_tac.
Qed.

Lemma backed_delete v c :
  op_ok (OpDelete c) v -> backed v -> backed (a_delete c v).2.
Proof.
  intros Hc Hb. unfold a_delete. destruct (empty (v_cap v c)); [done|]. cbn [snd].
  unfold v_delete, v_release. pose proof unloaded_0.
  destruct (Z.eqb_spec (v_cap v c)⟦cap_type⟧ CAPTY_TIME) as [E|].
  - assert (pmp_loaded (v_cap v c) = false) by by eapply not_pmp_unloaded.
    apply (backed_caps (v_sched_delete _ _ _ v)); [|by apply (backed_ext v)].
    intros x _. cbn. unloaded_tac.
  - destruct (Z.eqb_spec (v_cap v c)⟦cap_type⟧ CAPTY_SOCKET) as [E|].
    + assert (pmp_loaded (v_cap v c) = false) by by eapply not_pmp_unloaded.
      apply backed_caps; [|apply (backed_ext v); [intros x; by rewrite cap_sock_clear| |done]].
      * intros x _. rewrite cap_sock_clear. unloaded_tac.
      * intros q. by rewrite proc_sock_clear.
    + apply backed_drop; [done|by rewrite fupd_eq| |done].
      intros x _ Hx. rewrite cap_unload. unloaded_tac.
Qed.

Lemma backed_reclaim v c from : backed v -> backed (v_reclaim c from v).
Proof.
  apply backed_ext; [intros x; by rewrite cap_reclaim|]. intros q. by rewrite proc_reclaim.
Qed.

Lemma backed_revoke v parent child :
  op_ok (OpRevoke parent child) v -> backed v -> backed (a_revoke parent child v).2.
Proof.
  intros (Hp & Hc & _) Hb. unfold a_revoke. pose proof unloaded_0.
  destruct (revocable _ _); cbn [snd]; cycle 1.
  { unfold v_revoke_end. destruct (revoke_reset _) as [pk'|] eqn:Em; [|by apply backed_reclaim].
    destruct (revoke_reset_unloaded _ _ Em).
    apply backed_caps; [|by apply backed_reclaim]. intros x _. rewrite cap_reclaim. unloaded_tac. }
  (* whether the parent is stored or not *)
  assert (Hgo : forall cp l, pmp_loaded (cp child) = false ->
    (forall x, in_table x -> x <> child ->
       pmp_loaded (cp x) = true \/ pmp_loaded (v_cap v x) = true -> cp x = v_cap v x) ->
    backed (v_set_table cp l
      (v_revoke_child child (v_reclaim parent (v_cap v child)⟦time_mrk⟧ v)))).
  { intros cp l Hch Hx. unfold v_revoke_child. rewrite cap_reclaim.
    destruct (Z.eqb_spec (v_cap v child)⟦cap_type⟧ CAPTY_SOCKET) as [E|].
    - assert (pmp_loaded (v_cap v child) = false) by by eapply not_pmp_unloaded.
      apply backed_caps; [|apply (backed_ext v); [intros x; by autorewrite with s3k| |done]].
      + intros x Hxt Hor. autorewrite with s3k in Hor |- *. destruct (decide (x = child)) as [->|];
          [intuition congruence|by apply Hx].
      + intros q. by autorewrite with s3k.
    - apply backed_drop; [done|done| |by apply backed_reclaim].
      intros x Hxt Hne. rewrite cap_reclaim. by apply Hx. }
  unfold v_revoke_step. destruct (revoke_mark _ _) as [pk'|] eqn:Em.
  - destruct (revoke_mark_unloaded _ _ _ Em). apply Hgo.
    + unfold v_remove. cbn [v_cap v_set_table]. unloaded_tac.
    + intros x _ Hne. unfold v_remove. cbn [v_cap v_set_table]. autorewrite with s3k. unloaded_tac.
  - apply Hgo; [by rewrite fupd_eq|]. intros x _ Hne. autorewrite with s3k. unloaded_tac.
Qed.

Lemma backed_derive v src dst k :
  op_ok (OpDerive src dst k) v -> backed v -> backed (a_derive src dst k v).2.
Proof.
  intros (Hs & Hd & Hw & Hv) Hb. unfold a_derive. destruct (empty (v_cap v src)); [done|].
  destruct (empty (v_cap v dst)) eqn:Ed; cbn [negb]; [|done].
  destruct (derive_mark _ _) as [cap'|] eqn:Em; cbn [snd]; [|done].
  destruct (derive_mark_unloaded _ _ _ Em). pose proof (empty_unloaded _ Ed).
  pose proof (valid_unloaded _ Hv). unfold v_derive.
  destruct (_ =? CAPTY_TIME).
  - apply (backed_caps (v_sched_update _ _ _ _ _ v)); [|by apply (backed_ext v)].
    intros x _. cbn. unloaded_tac.
  - apply (backed_caps v); [|done]. intros x _. cbn. unloaded_tac.
Qed.

Lemma backed_pmp_load v c slot :
  op_ok (OpLoad c slot) v -> backed v -> backed (a_pmp_load c slot v).2.
Proof.
  intros [Hc Hs] Hb. unfold a_pmp_load. destruct (empty _); [done|].
  destruct (_ || _) eqn:E; [done|]. breflect. destruct E as [Ek Eu].
  destruct (lookupZ _ slot) as [[| |]|] eqn:Ex; cbn [snd]; try done.
  set (k := (v_cap v c)⟦pmp_slot := slot⟧⟦pmp_used := 1⟧).
  assert (Er : k⟦pmp_rwx⟧ = (v_cap v c)⟦pmp_rwx⟧) by (unfold k; by autorewrite with fields).
  assert (Ea : k⟦pmp_addr⟧ = (v_cap v c)⟦pmp_addr⟧) by (unfold k; by autorewrite with fields).
  rewrite <- Er, <- Ea. config_bounds. apply (backed_load v c k slot); [done|done| | | | |done].
  - unfold pmp_loaded. by rewrite Ek, Eu.
  - unfold pmp_loaded, k. autorewrite with fields. by rewrite Ek.
  - unfold k. autorewrite with fields. apply Z.mod_small. cbn. lia.
  - unfold cfg_at. by rewrite Ex.
Qed.

Lemma backed_pmp_unload v c :
  op_ok (OpUnload c) v -> backed v -> backed (a_pmp_unload c v).2.
Proof.
  intros Hc Hb. unfold a_pmp_unload. destruct (empty _); [done|].
  destruct (pmp_loaded _) eqn:El; cbn [negb snd]; [|done].
  apply backed_drop; [done| | |done].
  - rewrite fupd_eq. apply cleared_unloaded'.
  - intros x _ Hx. rewrite cap_unload. unloaded_tac.
Qed.

Lemma backed_exec o v : op_ok o v -> backed v -> backed (exec o v).2.
Proof.
  destruct o; [apply backed_move|apply backed_delete|apply backed_revoke|apply backed_derive
    |apply backed_pmp_load|apply backed_pmp_unload].
Qed.

Lemma backed_steps v v' : rtc anystep v v' -> backed v -> backed v'.
Proof.
  induction 1 as [|v v1 v' [p [o Hok _|v1' (E1 & _ & _ & E4)]] _ IH]; [done| |].
  - intros Hb. by apply IH, backed_exec.
  - intros Hb. apply IH. eapply backed_ext; [|exact E4|done]. intros c. by rewrite E1.
Qed.
End Preservation.
