(* ===== verification/Authority.v ===== *)
(** * Authority

    What a capability grants, as a set of elementary permissions, and where the
    capabilities of a state come from after an operation.  Operations on
    capabilities never create a permission: in every reachable state each
    capability grants only what some capability of the initial state granted. *)

From S2P Require Import Prelude Config CapTypes CapTable CapList KState Proc Sched.
From S2P Require Import Channel CapOps CapPmp Trap Invariant View Spec Refine Steps.
From S2P Require Import Revoke IpcSafe SyscallSafe Machine PmpInv.

(** ** Origins of capabilities *)

Section Origin.
Context `{C : Config} {Cok : ConfigOk C}.

(** A capability that changes only its PMP slot. *)
Definition reslotted (k k' : cap_t) : Prop :=
  k⟦cap_type⟧ = CAPTY_PMP /\ k'⟦cap_type⟧ = CAPTY_PMP /\
  k'⟦pmp_addr⟧ = k⟦pmp_addr⟧ /\ k'⟦pmp_rwx⟧ = k⟦pmp_rwx⟧ /\
  (cap_wf k = true -> cap_wf k' = true).

(** The capabilities an operation may leave in the table of [v]. *)
Inductive origin (v : view) : cap_t -> Prop :=
| o_same c : in_table c -> origin v (v_cap v c)
| o_none : origin v 0
| o_child src k cap' :
    in_table src -> word_ok k = true -> cap_is_valid k = true ->
    derive_mark (v_cap v src) k = Some cap' -> origin v k
| o_parent src k cap' :
    in_table src -> word_ok k = true -> cap_is_valid k = true ->
    derive_mark (v_cap v src) k = Some cap' -> origin v cap'
| o_revoked parent child pk' :
    in_table parent -> in_table child ->
    revocable (v_cap v parent) (v_cap v child) = true ->
    revoke_mark (v_cap v parent) (v_cap v child) = Some pk' -> origin v pk'
| o_reset parent pk' :
    in_table parent -> revoke_reset (v_cap v parent) = Some pk' -> origin v pk'
| o_reslotted c k' : in_table c -> reslotted (v_cap v c) k' -> origin v k'.

Lemma reslot_word k slot used :
  0 <= slot < S3K_PMP_CNT -> k⟦cap_type⟧ = CAPTY_PMP ->
  reslotted k k⟦pmp_slot := slot⟧⟦pmp_used := used⟧ /\
  reslotted k k⟦pmp_used := used⟧⟦pmp_slot := slot⟧.
Proof.
  intros Hs E. config_bounds. split; (split_and!; [done|by autorewrite with fields..|]);
    intros Hk; solve_cap_wf; rewrite Z.mod_small by (cbn; lia); lia.
Qed.

Lemma origin_fupd v cp a k c :
  (forall c, in_table c -> origin v (cp c)) -> origin v k -> in_table c ->
  origin v (fupd cp a k c).
Proof. intros Hcp Hk Hc. unfold fupd. case_match; auto. Qed.

Lemma origin_move v src dst c :
  op_ok (OpMove src dst) v -> in_table c -> origin v (v_cap (a_move src dst v).2 c).
Proof.
  intros [Hs Hd] Hc. unfold a_move.
  destruct (empty _); [by apply (o_same v)|]. destruct (negb _); [by apply (o_same v)|]. cbn [snd].
  unfold v_move, v_replace. cbn [v_cap v_set_table].
  assert (Hx : forall x, in_table x ->
    origin v (v_cap (if cte_pid src =? cte_pid dst then v else v_handover src dst v) x)).
  { intros x Hx. destruct (_ =? _); [by apply (o_same v)|]. unfold v_handover.
    destruct (_ =? CAPTY_TIME); [by apply (o_same v)|].
    destruct (pmp_loaded (v_cap v src)) eqn:El; [|by apply (o_same v)]. cbn [v_cap v_store v_set_table].
    rewrite cap_unload. apply origin_fupd; [intros; by apply (o_same v)| |done].
    unfold pmp_loaded in El. breflect. destruct El as [E _].
    eapply (o_reslotted v src); [done|]. apply reslot_word; [config_bounds; lia|done]. }
  apply origin_fupd; [|constructor|done]. intros x Hx'. by apply origin_fupd; [..|apply Hx|].
Qed.

Lemma origin_revoke v parent child c :
  op_ok (OpRevoke parent child) v -> in_table c ->
  origin v (v_cap (a_revoke parent child v).2 c).
Proof.
  intros (Hp & Hch & _) Hc. unfold a_revoke. destruct (revocable _ _) eqn:Er; cbn [snd].
  - unfold v_revoke_step, v_store, v_remove. destruct (revoke_mark _ _) as [pk'|] eqn:Em;
      cbn [v_cap v_set_table]; autorewrite with s3k.
    + apply origin_fupd; [|by apply (o_revoked v parent child)|done]. intros x Hx.
      apply origin_fupd; [intros; by apply (o_same v)|constructor|done].
    + apply origin_fupd; [intros; by apply (o_same v)|constructor|done].
  - unfold v_revoke_end, v_store. destruct (revoke_reset _) as [pk'|] eqn:Em;
      cbn [v_cap v_set_table]; autorewrite with s3k; [|by apply (o_same v)].
    apply origin_fupd; [intros; by apply (o_same v)|by apply (o_reset v parent)|done].
Qed.

Lemma origin_exec o v c : op_ok o v -> in_table c -> origin v (v_cap (exec o v).2 c).
Proof.
  destruct o as [src dst|d|parent child|src dst k|d slot|d]; cbn [exec].
  - apply origin_move.
  - intros Hd Hc. unfold a_delete, v_delete, v_remove. destruct (empty _); [by apply (o_same v)|].
    cbn [snd v_cap v_set_table]. autorewrite with s3k.
    apply origin_fupd; [intros; by apply (o_same v)|constructor|done].
  - apply origin_revoke.
  - intros (Hs & Hd & Hw & Hv) Hc. unfold a_derive.
    destruct (empty _); [by apply (o_same v)|]. destruct (negb _); [by apply (o_same v)|].
    destruct (derive_mark _ _) as [cap'|] eqn:Em; [|by apply (o_same v)].
    cbn [snd]. unfold v_derive, v_insert, v_store. cbn [v_cap v_set_table].
    assert (Hsame : forall x, in_table x -> origin v (v_cap (if k⟦cap_type⟧ =? CAPTY_TIME then
             v_sched_update (cte_pid dst) k⟦time_end⟧ k⟦time_hart⟧ k⟦time_bgn⟧ k⟦time_end⟧ v
           else v) x)) by (intros; destruct (_ =? _); by apply (o_same v)).
    apply origin_fupd; [|by apply (o_child v src k cap')|done].
    intros x Hx. apply origin_fupd; [done|by apply (o_parent v src k cap')|done].
  - intros [Hd Hs] Hc. unfold a_pmp_load. destruct (empty _); [by apply (o_same v)|].
    destruct (_ || _) eqn:E; [by apply (o_same v)|]. breflect. destruct E as [E _].
    repeat case_match; cbn [snd]; try by apply (o_same v).
    unfold v_store. cbn [v_cap v_set_table]. apply origin_fupd; [intros; by apply (o_same v)| |done].
    eapply (o_reslotted v d); [done|]. by apply reslot_word.
  - intros Hd Hc. unfold a_pmp_unload. destruct (empty _); [by apply (o_same v)|].
    destruct (pmp_loaded _) eqn:E; [|by apply (o_same v)]. cbn [snd negb].
    unfold v_store. cbn [v_cap v_set_table]. rewrite cap_unload.
    apply origin_fupd; [intros; by apply (o_same v)| |done]. unfold pmp_loaded in E. breflect.
    eapply (o_reslotted v d); [done|]. apply reslot_word; [config_bounds; lia|tauto].
Qed.

(** A property of capabilities that every origin has is kept by every step. *)
Lemma origin_steps (P : cap_t -> Prop) v v' :
  (forall w k, (forall c, in_table c -> P (v_cap w c)) -> origin w k -> P k) ->
  rtc anystep v v' -> (forall c, in_table c -> P (v_cap v c)) ->
  forall c, in_table c -> P (v_cap v' c).
Proof.
  intros HP Hst Hv. induction Hst as [|v v1 v' [p [o Ho _|v1' (E & _)]] _ IH]; [done| |].
  - apply IH. intros c Hc. eapply HP; [exact Hv|]. by apply origin_exec.
  - apply IH. intros c Hc. rewrite E. by apply Hv.
Qed.
End Origin.

(** ** Well-formed marks *)

Section Marks.
Context `{C : Config} {Cok : ConfigOk C}.

(** The mark of a capability is not before its beginning. *)
Definition marks_ok (k : cap_t) : Prop :=
  (k⟦cap_type⟧ = CAPTY_MEMORY -> k⟦mem_bgn⟧ <= k⟦mem_mrk⟧) /\
  (k⟦cap_type⟧ = CAPTY_MONITOR -> k⟦mon_bgn⟧ <= k⟦mon_mrk⟧) /\
  (k⟦cap_type⟧ = CAPTY_CHANNEL -> k⟦chan_bgn⟧ <= k⟦chan_mrk⟧).

Definition cap_sound (k : cap_t) : Prop := cap_wf k = true /\ marks_ok k.
Definition caps_sound (v : view) : Prop := forall c, in_table c -> cap_sound (v_cap v c).

Lemma valid_marks k : cap_is_valid k = true -> marks_ok k.
Proof.
  intros Hv. split_and!; intros E.
  - destruct (valid_memory _ Hv E) as (_ & -> & _). lia.
  - destruct (valid_monitor _ Hv E) as (_ & ->). lia.
  - destruct (valid_channel _ Hv E) as (_ & ->). lia.
Qed.

Lemma marks_type k t :
  k⟦cap_type⟧ = t -> t <> CAPTY_MEMORY -> t <> CAPTY_MONITOR -> t <> CAPTY_CHANNEL -> marks_ok k.
Proof. intros <- H1 H2 H3. split_and!; intros E; by rewrite E in *. Qed.

Lemma field16 f g k :
  f_wid f = 16 -> f_wid g = 16 -> field_ok f = true -> k⟦f⟧ mod 2 ^ f_wid g = k⟦f⟧.
Proof. intros E E' Hf. pose proof (fget_range f k Hf) as H. rewrite E', <- E. by apply Z.mod_small. Qed.

Lemma derive_mark_sound cap k cap' :
  cap_sound cap -> word_ok k = true -> cap_is_valid k = true ->
  derive_mark cap k = Some cap' -> cap_sound k /\ cap_sound cap'.
Proof.
  intros [Hw (M1 & M2 & M3)] Hk Hv Hd.
  destruct (derive_mark_wf _ _ _ Hw Hk Hv Hd) as (W1 & W2 & Ety).
  split; [split; [done|by apply valid_marks]|]. split; [done|]. unfold marks_ok. rewrite Ety.
  unfold derive_mark in Hd. split_and!; intros E; rewrite E in Hd; cbn [Z.eqb Pos.eqb capty] in Hd.
  - pose proof (M1 E). destruct (mem_derivable cap k) eqn:D.
    + injection Hd as <-. autorewrite with fields. unfold mem_derivable in D. breflect.
      destruct (valid_memory _ Hv) as (? & ? & _); [tauto|].
      rewrite (field16 mem_end _ k) by done. lia.
    + destruct (pmp_derivable cap k); [|done]. injection Hd as <-. by autorewrite with fields.
  - pose proof (M2 E). destruct (mon_derivable cap k) eqn:D; [|done]. injection Hd as <-.
    autorewrite with fields. unfold mon_derivable in D. breflect.
    destruct (valid_monitor _ Hv) as [? ?]; [tauto|].
    rewrite (field16 mon_end _ k) by done. lia.
  - pose proof (M3 E). pose proof (cap_wf_channel _ Hw E). config_bounds.
    destruct (chan_derivable cap k) eqn:D.
    + injection Hd as <-. autorewrite with fields. unfold chan_derivable in D. breflect.
      destruct (valid_channel _ Hv) as (? & ?); [tauto|].
      rewrite (field16 chan_end _ k) by done. lia.
    + destruct (server_derivable cap k) eqn:D'; [|done]. injection Hd as <-.
      autorewrite with fields. unfold server_derivable in D'. breflect.
      pose proof (fget_range sock_chan k eq_refl). cbn [f_wid sock_chan chan_mrk] in *.
      rewrite Z.mod_small by lia. lia.
Qed.

Lemma revoke_mark_sound cap k cap' :
  cap_sound cap -> cap_sound k -> revocable cap k = true ->
  revoke_mark cap k = Some cap' -> cap_sound cap'.
Proof.
  intros [Hw (M1 & M2 & M3)] [Hk (K1 & K2 & K3)] Hr Hm.
  pose proof (revoke_mark_type _ _ _ Hm) as Ety. unfold revoke_mark, revocable in *.
  destruct (Z.eqb_spec cap⟦cap_type⟧ CAPTY_TIME) as [E|_].
  { injection Hm as <-. unfold time_child in Hr. breflect. destruct Hr as [[[Ek _] ?] ?].
    destruct (cap_wf_time _ Hk Ek) as (_ & ? & _).
    split; [apply cap_wf_time_mark; [done|done|lia]|]. eapply marks_type; [by rewrite Ety|done..]. }
  destruct (Z.eqb_spec cap⟦cap_type⟧ CAPTY_MEMORY) as [E|_].
  { destruct (mem_child cap k) eqn:D; [|done]. injection Hm as <-. unfold mem_child in D.
    breflect. destruct D as [[Ek _] ?]. split; [by apply cap_wf_mem_mark|].
    unfold marks_ok. rewrite Ety, E. split_and!; try done. intros _. autorewrite with fields.
    rewrite (field16 mem_mrk _ k) by done. specialize (K1 Ek). lia. }
  destruct (Z.eqb_spec cap⟦cap_type⟧ CAPTY_MONITOR) as [E|_].
  { injection Hm as <-. rewrite E in Hr. cbn [Z.eqb Pos.eqb capty] in Hr. unfold mon_child in Hr.
    breflect. destruct Hr as [Ek ?]. split; [by apply cap_wf_mon_mark|].
    unfold marks_ok. rewrite Ety, E. split_and!; try done. intros _. autorewrite with fields.
    rewrite (field16 mon_mrk _ k) by done. specialize (K2 Ek). lia. }
  destruct (Z.eqb_spec cap⟦cap_type⟧ CAPTY_CHANNEL) as [E|_]; [|done].
  destruct (chan_child cap k) eqn:D; [|done]. injection Hm as <-. unfold chan_child in D.
  breflect. destruct D as [Ek ?]. split; [by apply cap_wf_chan_mark|].
  unfold marks_ok. rewrite Ety, E. split_and!; try done. intros _. autorewrite with fields.
  rewrite (field16 chan_mrk _ k) by done. specialize (K3 Ek). lia.
Qed.

Lemma revoke_reset_sound cap cap' :
  cap_sound cap -> revoke_reset cap = Some cap' -> cap_sound cap'.
Proof.
  intros [Hw (M1 & M2 & M3)] Hm.
  pose proof (revoke_reset_type _ _ Hm) as Ety. unfold revoke_reset in *.
  destruct (Z.eqb_spec cap⟦cap_type⟧ CAPTY_TIME) as [E|_].
  { injection Hm as <-. destruct (cap_wf_time _ Hw E) as (_ & ? & _).
    split; [apply cap_wf_time_mark; [done|done|lia]|]. eapply marks_type; [by rewrite Ety|done..]. }
  destruct (Z.eqb_spec cap⟦cap_type⟧ CAPTY_MEMORY) as [E|_].
  { injection Hm as <-. split; [by apply cap_wf_mem_mark|]. unfold marks_ok. rewrite Ety, E.
    split_and!; try done. intros _. autorewrite with fields. rewrite (field16 mem_bgn _ cap) by done. lia. }
  destruct (Z.eqb_spec cap⟦cap_type⟧ CAPTY_MONITOR) as [E|_].
  { injection Hm as <-. split; [by apply cap_wf_mon_mark|]. unfold marks_ok. rewrite Ety, E.
    split_and!; try done. intros _. autorewrite with fields. rewrite (field16 mon_bgn _ cap) by done. lia. }
  destruct (Z.eqb_spec cap⟦cap_type⟧ CAPTY_CHANNEL) as [E|_]; [|done].
  injection Hm as <-. split; [by apply cap_wf_chan_mark|]. unfold marks_ok. rewrite Ety, E.
  split_and!; try done. intros _. autorewrite with fields. rewrite (field16 chan_bgn _ cap) by done. lia.
Qed.

Lemma origin_sound v k : caps_sound v -> origin v k -> cap_sound k.
Proof.
  intros Hv [c Hc| |src k1 cap' Hs Hw Hk Hd|src k1 cap' Hs Hw Hk Hd|parent child pk' Hp Hc Hr Hm
    |parent pk' Hp Hm|c k' Hc (E & E' & _ & _ & W)].
  - by apply Hv.
  - split; [apply cap_wf_0|by apply (marks_type 0 0)].
  - by destruct (derive_mark_sound _ _ _ (Hv src Hs) Hw Hk Hd).
  - by destruct (derive_mark_sound _ _ _ (Hv src Hs) Hw Hk Hd).
  - by apply (revoke_mark_sound _ _ _ (Hv parent Hp) (Hv child Hc)).
  - by apply (revoke_reset_sound _ _ (Hv parent Hp)).
  - split; [apply W, Hv; done|by apply (marks_type k' _ E')].
Qed.

Lemma caps_sound_steps v v' : rtc anystep v v' -> caps_sound v -> caps_sound v'.
Proof. exact (origin_steps cap_sound v v' origin_sound). Qed.
End Marks.

(** ** Permissions *)

Inductive perm :=
| PTime (hart slot : Z)         (** to run on a hart in a slot *)
| PMem (addr right : Z)         (** to access a byte; the right is a bit of [rwx] *)
| PMon (pid : Z)                (** to monitor a process *)
| PChan (chan : Z)              (** to make sockets of a channel *)
| PSock (chan tag right : Z).   (** to use a channel with a tag; a bit of [perm] *)

Section Grants.
Context `{C : Config} {Cok : ConfigOk C}.

Definition in_memory (k : cap_t) (a : Z) : Prop :=
  tag_block_to_addr k⟦mem_tag⟧ k⟦mem_bgn⟧ <= a < tag_block_to_addr k⟦mem_tag⟧ k⟦mem_end⟧.
Definition in_region (addr a : Z) : Prop :=
  fst (pmp_napot_decode addr) <= a <
  u64 (snd (pmp_napot_decode addr) + fst (pmp_napot_decode addr)).

(** What a capability grants, by itself or through capabilities derived from
    it. *)
Definition grants (k : cap_t) (x : perm) : Prop :=
  match x with
  | PTime h i =>
      k⟦cap_type⟧ = CAPTY_TIME /\ k⟦time_hart⟧ = h /\ k⟦time_bgn⟧ <= i < k⟦time_end⟧
  | PMem a b =>
      (k⟦cap_type⟧ = CAPTY_MEMORY /\ in_memory k a /\ Z.testbit k⟦mem_rwx⟧ b = true) \/
      (k⟦cap_type⟧ = CAPTY_PMP /\ in_region k⟦pmp_addr⟧ a /\ Z.testbit k⟦pmp_rwx⟧ b = true)
  | PMon q => k⟦cap_type⟧ = CAPTY_MONITOR /\ k⟦mon_bgn⟧ <= q < k⟦mon_end⟧
  | PChan ch => k⟦cap_type⟧ = CAPTY_CHANNEL /\ k⟦chan_bgn⟧ <= ch < k⟦chan_end⟧
  | PSock ch t b =>
      (k⟦cap_type⟧ = CAPTY_CHANNEL /\ k⟦chan_bgn⟧ <= ch < k⟦chan_end⟧) \/
      (k⟦cap_type⟧ = CAPTY_SOCKET /\ k⟦sock_chan⟧ = ch /\
       (k⟦sock_tag⟧ = 0 \/ k⟦sock_tag⟧ = t) /\ Z.testbit k⟦sock_perm⟧ b = true)
  end.

(** The order of authority, and its equivalence. *)
Definition cap_le (k k' : cap_t) : Prop := forall x, grants k x -> grants k' x.
Definition cap_eqv (k k' : cap_t) : Prop := forall x, grants k x <-> grants k' x.

#[global] Instance cap_le_preorder : PreOrder cap_le.
Proof. split; [by intros k x|]. intros k1 k2 k3 H1 H2 x Hx. by apply H2, H1. Qed.
#[global] Instance cap_eqv_equivalence : Equivalence cap_eqv.
Proof.
  split; [by intros k x|by intros k1 k2 H x; rewrite (H x)|].
  intros k1 k2 k3 H1 H2 x. by rewrite (H1 x).
Qed.
#[global] Instance cap_le_proper : Proper (cap_eqv ==> cap_eqv ==> iff) cap_le.
Proof. intros k1 k2 H k3 k4 H'. split; intros Hle x Hx; apply H', Hle, H, Hx. Qed.

Lemma cap_le_0 k : cap_le 0 k.
Proof. intros []; unfold grants; rewrite !fget_0; cbn [capty]; intuition congruence. Qed.

Lemma land_subset a b i : Z.land a b = a -> Z.testbit a i = true -> Z.testbit b i = true.
Proof. intros <-. rewrite Z.land_spec, andb_true_iff. tauto. Qed.

(** Addresses of blocks grow with the block. *)
Lemma tag_block_eq tag block : 0 <= tag < 2 ^ 8 -> 0 <= block < 2 ^ 16 ->
  tag_block_to_addr tag block = tag * 2 ^ 27 + block * 2 ^ 12.
Proof.
  intros Ht Hb. unfold tag_block_to_addr, u64, MAX_BLOCK_SIZE, MIN_BLOCK_SIZE.
  rewrite !Z.shiftl_mul_pow2 by lia.
  rewrite (Z.mod_small (tag * 2 ^ 27)), (Z.mod_small (block * 2 ^ 12)), Z.mod_small by lia. lia.
Qed.

Lemma tag_block_le tag b b' : 0 <= tag < 2 ^ 8 -> 0 <= b -> b <= b' -> b' < 2 ^ 16 ->
  tag_block_to_addr tag b <= tag_block_to_addr tag b'.
Proof. intros. rewrite !tag_block_eq by lia. lia. Qed.

Ltac eqv_tac E :=
  intros []; unfold grants, in_memory; autorewrite with fields; rewrite ?E; cbn [capty];
  intuition congruence.

(** A capability grants what its descendants do: by the kind of derivation. *)
Section Descendants.
Context (cap k : cap_t).

Ltac granted Ek E :=
  intros []; unfold grants; rewrite Ek, E; cbn [capty]; try by intuition congruence.

Lemma time_le : cap_wf cap = true -> cap⟦cap_type⟧ = CAPTY_TIME ->
  time_derivable cap k = true -> cap_le k cap.
Proof.
  intros Hw E D. unfold time_derivable in D. breflect. destruct D as [[[Ek Eh] Eb] Ee].
  destruct (cap_wf_time _ Hw E) as (_ & ? & _). granted Ek E.
  intros (_ & <- & ?). split; [done|]. split; [done|]. lia.
Qed.

Lemma mem_le : cap⟦cap_type⟧ = CAPTY_MEMORY -> cap⟦mem_bgn⟧ <= cap⟦mem_mrk⟧ ->
  mem_derivable cap k = true -> cap_le k cap.
Proof.
  intros E M D. pose proof (fget_range mem_tag cap eq_refl). pose proof (fget_range mem_bgn cap eq_refl).
  pose proof (fget_range mem_mrk cap eq_refl). pose proof (fget_range mem_end cap eq_refl).
  pose proof (fget_range mem_bgn k eq_refl). pose proof (fget_range mem_end k eq_refl).
  cbn [f_wid mem_tag mem_bgn mem_mrk mem_end] in *.
  unfold mem_derivable in D. breflect. destruct D as [[[[[Ek Et] Eb] Ee] Er] _]. granted Ek E.
  intros [(_ & [Ha1 Ha2] & Hb)|[? _]]; [|done]. left. split; [done|].
  split; [|by eapply land_subset]. rewrite <- Et in *.
  split; [etrans; [|exact Ha1]; apply tag_block_le; lia|].
  eapply Z.lt_le_trans; [exact Ha2|]. apply tag_block_le; lia.
Qed.

Lemma pmp_le : cap⟦cap_type⟧ = CAPTY_MEMORY -> cap⟦mem_bgn⟧ <= cap⟦mem_mrk⟧ ->
  pmp_derivable cap k = true -> cap_le k cap.
Proof.
  intros E M D. pose proof (fget_range mem_tag cap eq_refl). pose proof (fget_range mem_bgn cap eq_refl).
  pose proof (fget_range mem_mrk cap eq_refl). cbn [f_wid mem_tag mem_bgn mem_mrk] in *.
  unfold pmp_derivable, pmp_begin, pmp_end in D. breflect. destruct D as [[[Ek Eb] Ee] Er]. granted Ek E.
  intros [[? _]|(_ & [Ha1 Ha2] & Hb)]; [done|]. left. split; [done|].
  split; [|by eapply land_subset]. split; [|unfold pmp_begin in *; lia].
  etrans; [|exact Ha1]. etrans; [|exact Eb]. apply tag_block_le; lia.
Qed.

Lemma mon_le : cap⟦cap_type⟧ = CAPTY_MONITOR -> cap⟦mon_bgn⟧ <= cap⟦mon_mrk⟧ ->
  mon_derivable cap k = true -> cap_le k cap.
Proof.
  intros E M D. unfold mon_derivable in D. breflect. destruct D as [[Ek Eb] Ee]. granted Ek E.
  intros [_ ?]. split; [done|]. lia.
Qed.

Lemma chan_le : cap⟦cap_type⟧ = CAPTY_CHANNEL -> cap⟦chan_bgn⟧ <= cap⟦chan_mrk⟧ ->
  chan_derivable cap k = true \/ server_derivable cap k = true -> cap_le k cap.
Proof.
  intros E M [D|D]; unfold chan_derivable, server_derivable in D; breflect;
    destruct D as [[Ek Eb] Ee]; granted Ek E.
  - intros [_ ?]. split; [done|]. lia.
  - intros [[_ ?]|[? _]]; [|done]. left. split; [done|]. lia.
  - intros [[? _]|(_ & <- & _)]; [done|]. left. split; [done|]. lia.
Qed.

Lemma client_le : cap⟦cap_type⟧ = CAPTY_SOCKET -> client_derivable cap k = true -> cap_le k cap.
Proof.
  intros E D. unfold client_derivable in D. breflect. destruct D as [[[[[Ek Ec] Ep] Em] Et] _].
  granted Ek E.
Qed.

Lemma derive_mark_le cap' :
  cap_sound cap -> word_ok k = true -> cap_is_valid k = true ->
  derive_mark cap k = Some cap' -> cap_le k cap /\ cap_eqv cap' cap.
Proof.
  intros [Hw (M1 & M2 & M3)] Hk Hv. unfold derive_mark.
  destruct (Z.eqb_spec cap⟦cap_type⟧ CAPTY_TIME) as [E|_].
  { destruct (time_derivable cap k) eqn:D; [|done]. intros [= <-]. split; [by apply time_le|eqv_tac E]. }
  destruct (Z.eqb_spec cap⟦cap_type⟧ CAPTY_MEMORY) as [E|_].
  { destruct (mem_derivable cap k) eqn:D.
    - intros [= <-]. split; [by apply mem_le; auto|eqv_tac E].
    - destruct (pmp_derivable cap k) eqn:D'; [|done]. intros [= <-].
      split; [by apply pmp_le; auto|eqv_tac E]. }
  destruct (Z.eqb_spec cap⟦cap_type⟧ CAPTY_MONITOR) as [E|_].
  { destruct (mon_derivable cap k) eqn:D; [|done]. intros [= <-].
    split; [by apply mon_le; auto|eqv_tac E]. }
  destruct (Z.eqb_spec cap⟦cap_type⟧ CAPTY_CHANNEL) as [E|_].
  { destruct (chan_derivable cap k) eqn:D.
    - intros [= <-]. split; [by apply chan_le; auto|eqv_tac E].
    - destruct (server_derivable cap k) eqn:D'; [|done]. intros [= <-].
      split; [by apply chan_le; auto|eqv_tac E]. }
  destruct (Z.eqb_spec cap⟦cap_type⟧ CAPTY_SOCKET) as [E|_]; [|done].
  destruct (client_derivable cap k) eqn:D; [|done]. intros [= <-]. split; [by apply client_le|done].
Qed.
End Descendants.

(** Revocation and PMP slots leave the authority of a capability alone. *)
Lemma revoke_mark_eqv cap k cap' : revoke_mark cap k = Some cap' -> cap_eqv cap' cap.
Proof.
  unfold revoke_mark.
  repeat match goal with
  | |- context [if ?x =? ?y then _ else _] => destruct (Z.eqb_spec x y) as [E|_]
  end; try done.
  - intros [= <-]. eqv_tac E.
  - destruct (mem_child cap k); [|done]. intros [= <-]. eqv_tac E.
  - intros [= <-]. eqv_tac E.
  - destruct (chan_child cap k); [|done]. intros [= <-]. eqv_tac E.
Qed.

Lemma revoke_reset_eqv cap cap' : revoke_reset cap = Some cap' -> cap_eqv cap' cap.
Proof.
  unfold revoke_reset.
  repeat match goal with
  | |- context [if ?x =? ?y then _ else _] => destruct (Z.eqb_spec x y) as [E|_]
  end; try done; intros [= <-]; eqv_tac E.
Qed.

Lemma reslotted_eqv k k' : reslotted k k' -> cap_eqv k' k.
Proof.
  intros (E & E' & Ea & Er & _) []; unfold grants; rewrite E, E', ?Ea, ?Er; cbn [capty];
    intuition congruence.
Qed.

Lemma cap_eqv_le k k' : cap_eqv k k' -> cap_le k k'.
Proof. intros H x. apply H. Qed.

(** Every origin has no more authority than a capability that was there. *)
Lemma origin_le v k :
  caps_sound v -> origin v k -> k = 0 \/ exists c, in_table c /\ cap_le k (v_cap v c).
Proof.
  intros Hv [c Hc| |src k1 cap' Hs Hw Hk Hd|src k1 cap' Hs Hw Hk Hd|parent child pk' Hp Hc Hr Hm
    |parent pk' Hp Hm|c k' Hc Hre]; [..|right; exists c]; [right; exists c|by left|right; exists src
    |right; exists src|right; exists parent|right; exists parent|]; (split; [done|]).
  - done.
  - by destruct (derive_mark_le _ _ _ (Hv src Hs) Hw Hk Hd).
  - apply cap_eqv_le. by destruct (derive_mark_le _ _ _ (Hv src Hs) Hw Hk Hd).
  - by eapply cap_eqv_le, revoke_mark_eqv.
  - by eapply cap_eqv_le, revoke_reset_eqv.
  - by apply cap_eqv_le, reslotted_eqv.
Qed.

(** All capabilities grant at most [G]. *)
Definition authority (G : perm -> Prop) (v : view) : Prop :=
  forall c x, in_table c -> grants (v_cap v c) x -> G x.

Lemma grants_0 x : ~ grants 0 x.
Proof. destruct x; unfold grants; rewrite !fget_0; cbn [capty]; intuition congruence. Qed.

Lemma authority_steps G v v' :
  rtc anystep v v' -> caps_sound v -> authority G v -> authority G v'.
Proof.
  intros Hst Hv HG.
  assert (H : forall c, in_table c -> cap_sound (v_cap v' c) /\ forall x, grants (v_cap v' c) x -> G x).
  { apply (origin_steps (fun k => cap_sound k /\ forall x, grants k x -> G x) v v'); [|done|].
    - intros w k Hw Ho. assert (Hws : caps_sound w) by (intros c Hc; by apply Hw).
      split; [by eapply origin_sound|]. intros x Hx.
      destruct (origin_le _ _ Hws Ho) as [->|(c & Hc & Hle)]; [by destruct (grants_0 x)|].
      apply (Hw c Hc). by apply Hle.
    - intros c Hc. split; [by apply Hv|]. intros x. by apply HG. }
  intros c x Hc. by apply H.
Qed.
End Grants.
