(* ===== verification/Integrity.v ===== *)
(** * Integrity

    What a step of process [p] may change: entries of the capability table,
    lanes of the schedule and PMP registers, each only by an authority the
    process holds in the state before. *)

From S2P Require Import Prelude Config CapTypes CapTable CapList KState Proc Sched.
From S2P Require Import Channel CapOps CapPmp Trap Invariant View Spec Refine Steps.
From S2P Require Import Revoke IpcSafe SyscallSafe Machine PmpInv Authority.

Section Integrity.
Context `{C : Config} {Cok : ConfigOk C}.

(** Process [p] may revoke entry [c]. *)
Definition revokes (v : view) (p : Z) (c : cte_t) : Prop :=
  exists parent, in_table parent /\ cte_pid parent = p /\ child_of v parent c /\
    revocable (v_cap v parent) (v_cap v c) = true.

(** The reasons for which entry [c] may change to [k]. *)
Definition may_change (v : view) (p : Z) (c : cte_t) (k : cap_t) : Prop :=
  controls v p c \/ (empty (v_cap v c) = true /\ offered v c) \/ (k = 0 /\ revokes v p c).

Lemma integrity_caps p v v' c :
  kstep p v v' -> in_table c ->
  v_cap v' c = v_cap v c \/ may_change v p c (v_cap v' c).
Proof.
  intros [o Hok Ha|v1 (E & _)] Hc; [|left; by rewrite E]. unfold may_change.
  destruct o as [src dst|d|parent child|src dst k|d slot|d]; cbn [exec authorised op_ok] in *.
  - unfold a_move. destruct (empty (v_cap v src)); [by left|].
    destruct (empty (v_cap v dst)) eqn:Ed; [|by left]. cbn [negb snd].
    unfold v_move, v_replace. cbn [v_cap v_set_table].
    assert (Hx : forall x, x <> src ->
      v_cap (if cte_pid src =? cte_pid dst then v else v_handover src dst v) x = v_cap v x).
    { intros x Hx. destruct (_ =? _); [done|]. unfold v_handover, v_store.
      destruct (_ =? CAPTY_TIME); [done|]. destruct (pmp_loaded _); [|done].
      cbn [v_cap v_set_table]. rewrite fupd_ne by done. by rewrite cap_unload. }
    destruct (decide (c = src)) as [->|Hs].
    { right. left. destruct Ha as [[? _]|[? _]]; [done|by left]. }
    destruct (decide (c = dst)) as [->|Hd].
    { right. destruct Ha as [[_ ?]|[_ ?]]; [by left|right; by left]. }
    left. by rewrite !fupd_ne, Hx.
  - unfold a_delete, v_delete, v_remove. destruct (empty _); [by left|].
    cbn [snd v_cap v_set_table]. autorewrite with s3k.
    destruct (decide (c = d)) as [->|]; [right; left; by left|left; by rewrite fupd_ne].
  - destruct Hok as (Hp & Hch). unfold a_revoke. destruct (revocable _ _) eqn:Er; cbn [snd].
    + unfold v_revoke_step, v_store, v_remove. destruct (decide (c = parent)) as [->|];
        [right; left; by left|]. destruct (decide (c = child)) as [->|].
      * right. right. right. split; [|by exists parent].
        destruct (revoke_mark _ _); cbn [v_cap v_set_table]; [by rewrite fupd_ne, fupd_eq|by rewrite fupd_eq].
      * left. destruct (revoke_mark _ _); cbn [v_cap v_set_table]; rewrite !fupd_ne by done;
          by autorewrite with s3k.
    + unfold v_revoke_end, v_store. destruct (decide (c = parent)) as [->|]; [right; left; by left|].
      left. destruct (revoke_reset _); cbn [v_cap v_set_table]; rewrite ?fupd_ne by done;
        by autorewrite with s3k.
  - unfold a_derive. destruct (empty _); [by left|]. destruct (negb _); [by left|].
    destruct (derive_mark _ _); [|by left]. cbn [snd]. unfold v_derive, v_insert, v_store.
    cbn [v_cap v_set_table]. destruct (decide (c = src)) as [->|]; [right; left; left; apply Ha|].
    destruct (decide (c = dst)) as [->|]; [right; left; left; apply Ha|].
    left. rewrite !fupd_ne by done. by destruct (_ =? _).
  - unfold a_pmp_load. destruct (empty _); [by left|]. destruct (_ || _); [by left|].
    destruct (decide (c = d)) as [->|]; [right; by left|]. left.
    repeat case_match; cbn [snd]; try done. unfold v_store. cbn [v_cap v_set_table]. by rewrite fupd_ne.
  - unfold a_pmp_unload. destruct (empty _); [by left|]. destruct (negb _); [by left|].
    destruct (decide (c = d)) as [->|]; [right; by left|]. left. cbn [snd].
    unfold v_store. cbn [v_cap v_set_table]. rewrite fupd_ne by done. by rewrite cap_unload.
Qed.

(** The lanes that differ are in the time of capability [k]. *)
Definition lanes_within (k : cap_t) (v v1 : view) : Prop :=
  forall h i, v_lane v1 h i = v_lane v h i \/ grants k (PTime h i).

Lemma lanes_same k v v1 : v_lane v1 = v_lane v -> lanes_within k v v1.
Proof. intros E h i. left. by rewrite E. Qed.

Lemma lanes_range k v f hart from to :
  k⟦cap_type⟧ = CAPTY_TIME -> hart = k⟦time_hart⟧ ->
  k⟦time_bgn⟧ <= from -> to <= k⟦time_end⟧ ->
  lanes_within k v
    (v_set_lane (fun h i => if (h =? hart) && (from <=? i) && (i <? to)
                            then f i else v_lane v h i) v).
Proof.
  intros E -> H1 H2 h i. cbn [v_lane v_set_lane].
  destruct (_ && _ && _) eqn:Ei; [|by left]. right. breflect. split; [done|].
  split; [symmetry; tauto|lia].
Qed.

Lemma reclaim_lanes v parent from :
  in_table parent -> cap_sound (v_cap v parent) ->
  ((v_cap v parent)⟦cap_type⟧ = CAPTY_TIME -> (v_cap v parent)⟦time_bgn⟧ <= from) ->
  lanes_within (v_cap v parent) v (v_reclaim parent from v).
Proof.
  intros Hp [Hw _] Hfrom. unfold v_reclaim.
  destruct (Z.eqb_spec (v_cap v parent)⟦cap_type⟧ CAPTY_TIME) as [E|]; [|by apply lanes_same].
  destruct (cap_wf_time _ Hw E) as (_ & ? & _). apply lanes_range; [done|done|auto|lia].
Qed.

Lemma lane_revoke_child c v : v_lane (v_revoke_child c v) = v_lane v.
Proof. unfold v_revoke_child. by case_match; autorewrite with s3k. Qed.

(** A lane changes only in the time of a capability the process controls. *)
Lemma integrity_lanes p v v' h i :
  caps_sound v -> kstep p v v' ->
  v_lane v' h i = v_lane v h i \/
  exists c, in_table c /\ controls v p c /\ grants (v_cap v c) (PTime h i).
Proof.
  intros Hsound [o Hok Ha|v1 (_ & _ & E & _)]; [|left; by rewrite E].
  assert (Hby : forall c v1, in_table c -> controls v p c -> lanes_within (v_cap v c) v v1 ->
    v_lane v1 h i = v_lane v h i \/
    exists c, in_table c /\ controls v p c /\ grants (v_cap v c) (PTime h i)).
  { intros c v1 Hc Hcc Hl. destruct (Hl h i); [by left|]. right. by exists c. }
  destruct o as [src dst|d|parent child|src dst k|d slot|d]; cbn [exec authorised op_ok] in *.
  - destruct Hok as [Hs Hd]. assert (Hcs : controls v p src) by (destruct Ha as [[? _]|[? _]]; [done|by left]).
    apply (Hby src); [done|done|]. unfold a_move. destruct (empty _); [by apply lanes_same|].
    destruct (negb _); [by apply lanes_same|]. cbn [snd]. unfold v_move, v_replace, v_handover.
    destruct (_ =? cte_pid dst); [by apply lanes_same|].
    destruct (Z.eqb_spec (v_cap v src)⟦cap_type⟧ CAPTY_TIME) as [E|]; cycle 1.
    { apply lanes_same. destruct (pmp_loaded _); [|done]. cbn. by autorewrite with s3k. }
    destruct (Hsound src Hs) as [Hw _]. destruct (cap_wf_time _ Hw E) as (_ & ? & _).
    apply (lanes_range (v_cap v src) v); [done|done|lia|lia].
  - apply (Hby d); [done|by left|]. unfold a_delete. destruct (empty _); [by apply lanes_same|].
    cbn [snd]. unfold v_delete, v_remove, v_release.
    destruct (Z.eqb_spec (v_cap v d)⟦cap_type⟧ CAPTY_TIME) as [E|]; cycle 1.
    { apply lanes_same. destruct (_ =? _); cbn; by autorewrite with s3k. }
    destruct (Hsound d Hok) as [Hw _]. destruct (cap_wf_time _ Hw E) as (_ & ? & _).
    apply (lanes_range (v_cap v d) v); [done|done|lia|lia].
  - destruct Hok as (Hp & Hc & _). apply (Hby parent); [done|by left|].
    unfold a_revoke. destruct (revocable _ _) eqn:Er; cbn [snd].
    + assert (Hl : lanes_within (v_cap v parent) v (v_reclaim parent (v_cap v child)⟦time_mrk⟧ v)).
      { apply reclaim_lanes; [done|by apply Hsound|]. intros E. unfold revocable in Er.
        rewrite E in Er. cbn [Z.eqb Pos.eqb capty] in Er. unfold time_child in Er. breflect.
        destruct Er as [[[Ek _] ?] ?]. destruct (Hsound child Hc) as [Hw _].
        destruct (cap_wf_time _ Hw Ek) as (_ & ? & _). lia. }
      intros h' i'. destruct (Hl h' i') as [E|]; [left|by right]. rewrite <- E.
      unfold v_revoke_step, v_store, v_remove. destruct (revoke_mark _ _); cbn [v_lane v_set_table];
        by rewrite lane_revoke_child.
    + assert (Hl : lanes_within (v_cap v parent) v (v_reclaim parent (v_cap v parent)⟦time_bgn⟧ v))
        by (apply reclaim_lanes; [done|by apply Hsound|lia]).
      intros h' i'. destruct (Hl h' i') as [E|]; [left|by right]. rewrite <- E.
      unfold v_revoke_end, v_store. by destruct (revoke_reset _).
  - destruct Hok as (Hs & Hd & Hw & Hv). apply (Hby src); [done|left; apply Ha|].
    unfold a_derive. destruct (empty _); [by apply lanes_same|].
    destruct (negb _); [by apply lanes_same|].
    destruct (derive_mark _ _) as [cap'|] eqn:Em; [|by apply lanes_same]. cbn [snd].
    unfold v_derive, v_insert, v_store.
    destruct (Z.eqb_spec k⟦cap_type⟧ CAPTY_TIME) as [E|]; [|by apply lanes_same].
    destruct (derive_mark_le _ _ _ (Hsound src Hs) Hw Hv Em) as [Hle _].
    intros h' i'. cbn [v_lane v_set_table v_sched_update v_set_lane].
    destruct (_ && _ && _) eqn:Ei; [|by left]. right. breflect. apply Hle.
    split; [done|]. split; [symmetry; tauto|lia].
  - left. unfold a_pmp_load. by repeat case_match.
  - left. unfold a_pmp_unload, v_store. destruct (empty _); [done|]. destruct (negb _); [done|].
    cbn. by autorewrite with s3k.
Qed.

(** The PMP registers of a process change only through its own capabilities:
    by itself, by its monitor, or because a loaded one is revoked. *)
Lemma same_pmp_set w q slot x r :
  same_pmp (v_proc w r) (v_proc (v_pmp_set q slot x w) r) \/ r = q.
Proof.
  destruct (decide (r = q)) as [->|]; [by right|]. left. unfold v_pmp_set. cbn. by rewrite fupd_ne.
Qed.

Lemma unload_pmp v c r :
  v_proc (v_unload c v) r = v_proc v r \/ (r = cte_pid c /\ pmp_loaded (v_cap v c) = true).
Proof.
  unfold v_unload. destruct (pmp_loaded _); [|by left]. unfold v_pmp_set. cbn.
  destruct (decide (r = cte_pid c)) as [->|]; [by right|left; by rewrite fupd_ne].
Qed.

Lemma integrity_pmp p v v' q :
  kstep p v v' ->
  same_pmp (v_proc v q) (v_proc v' q) \/
  exists c, in_table c /\ cte_pid c = q /\ (v_cap v c)⟦cap_type⟧ = CAPTY_PMP /\
    (controls v p c \/ revokes v p c).
Proof.
  intros [o Hok Ha|v1 (_ & _ & _ & E)]; [|left; by apply E].
  assert (Hun : forall c v1, in_table c -> controls v p c \/ revokes v p c ->
    v_proc v1 q = v_proc (v_unload c v) q ->
    same_pmp (v_proc v q) (v_proc v1 q) \/
    exists c, in_table c /\ cte_pid c = q /\ (v_cap v c)⟦cap_type⟧ = CAPTY_PMP /\
      (controls v p c \/ revokes v p c)).
  { intros c v1 Hc Hcc ->. destruct (unload_pmp v c q) as [->|[-> El]]; [by left|].
    right. exists c. unfold pmp_loaded in El. breflect. tauto. }
  destruct o as [src dst|d|parent child|src dst k|d slot|d]; cbn [exec authorised op_ok] in *.
  - destruct Hok as [Hs Hd]. assert (Hcs : controls v p src) by (destruct Ha as [[? _]|[? _]]; [done|by left]).
    unfold a_move. destruct (empty _); [by left|]. destruct (negb _); [by left|]. cbn [snd].
    unfold v_move, v_replace, v_handover. destruct (_ =? cte_pid dst); [by left|].
    destruct (_ =? CAPTY_TIME); [by left|]. destruct (pmp_loaded _); [|by left].
    by apply (Hun src); [|left|].
  - unfold a_delete. destruct (empty _); [by left|]. cbn [snd]. unfold v_delete, v_remove, v_release.
    destruct (_ =? CAPTY_TIME); [by left|]. destruct (_ =? CAPTY_SOCKET).
    { left. cbn. by rewrite proc_sock_clear. }
    by apply (Hun d); [|left; left|].
  - destruct Hok as (Hp & Hc). unfold a_revoke. destruct (revocable _ _) eqn:Er; cbn [snd]; cycle 1.
    { left. unfold v_revoke_end, v_store. destruct (revoke_reset _); cbn; by rewrite proc_reclaim. }
    destruct (Z.eqb_spec (v_cap v child)⟦cap_type⟧ CAPTY_SOCKET) as [E|E].
    { left. unfold v_revoke_step, v_store, v_remove, v_revoke_child. rewrite cap_reclaim, E.
      destruct (revoke_mark _ _); cbn; by rewrite proc_sock_clear, proc_reclaim. }
    apply (Hun child); [apply Hc|right; by exists parent|].
    transitivity (v_proc (v_revoke_child child (v_reclaim parent (v_cap v child)⟦time_mrk⟧ v)) q).
    { unfold v_revoke_step, v_store, v_remove. by destruct (revoke_mark _ _). }
    unfold v_revoke_child, v_unload. rewrite cap_reclaim, (proj2 (Z.eqb_neq _ _) E).
    unfold v_pmp_set. destruct (pmp_loaded _); cbn; by rewrite proc_reclaim.
  - left. unfold a_derive. destruct (empty _); [done|]. destruct (negb _); [done|].
    destruct (derive_mark _ _); [|done]. cbn. by destruct (_ =? _).
  - destruct Hok as [Hd _]. unfold a_pmp_load. destruct (empty _); [by left|].
    destruct (_ || _) eqn:E; [by left|]. breflect.
    repeat case_match; cbn [snd]; try by left. unfold v_store, v_pmp_load, v_pmp_set. cbn.
    destruct (decide (q = cte_pid d)) as [->|]; [|left; by rewrite !fupd_ne].
    right. exists d. tauto.
  - unfold a_pmp_unload. destruct (empty _); [by left|]. destruct (negb _); [by left|].
    by apply (Hun d); [|left|].
Qed.
End Integrity.
