(* ===== verification/Boot.v ===== *)
(** * The boot states

    Executable checks of the well-formedness invariant and of the derivation
    list, and the states after [kernel_init] on the platforms of the
    repository: they are well formed, and their capabilities form one list.
    Concrete states for the witnesses are reached from them by running the
    kernel. *)

From S2P Require Import Prelude Config CapTypes CapTable CapList KState Proc Sched.
From S2P Require Import Channel CapOps CapPmp Syscall Trap KernelInit Invariant View.
From S2P Require Import Spec Refine Steps Revoke IpcSafe SchedSafe SyscallSafe Machine.
From S2P Require Import PmpInv Authority.

(** ** Bounded quantification *)

Definition for_all (from to : Z) (P : Z -> bool) : bool := forallb P (zrange from to).

Lemma for_all_spec from to P :
  for_all from to P = true -> forall i, from <= i < to -> P i = true.
Proof.
  unfold for_all. rewrite forallb_forall. intros H i Hi.
  apply H, list_elem_of_In, elem_of_zrange. lia.
Qed.

Section Checks.
Context `{C : Config}.

Definition in_tableb (c : Z) : bool := (0 <=? c) && (c <? CTABLE_LEN).

Definition ct_wfb (ct : ctable_t) : bool :=
  (zlen ct =? CTABLE_LEN) &&
  for_all 0 CTABLE_LEN (fun c =>
    in_tableb (next_at ct c) && in_tableb (prev_at ct c) && cap_wf (cap_at ct c)).

Definition proc_wfb (i : Z) (x : proc_t) : bool :=
  (p_pid x =? i) && (zlen (p_regs x) =? REG_CNT) && (zlen (p_pmpcfg x) =? S3K_PMP_CNT)
  && (zlen (p_pmpaddr x) =? S3K_PMP_CNT).

Definition procs_wfb (ps : list proc_t) : bool :=
  (zlen ps =? S3K_PROC_CNT) &&
  for_all 0 S3K_PROC_CNT (fun i =>
    match lookupZ ps i with Some x => proc_wfb i x | None => false end).

Definition valid_procb (p : Z) : bool := (0 <=? p) && (p <? S3K_PROC_CNT).
Definition opt_allb {A} (P : A -> bool) (o : option A) : bool :=
  match o with Some x => P x | None => true end.

Definition chan_wfb (ch : channel) : bool :=
  opt_allb valid_procb (ch_server ch) && opt_allb valid_procb (ch_client ch)
  && opt_allb in_tableb (ch_cap_buf ch)
  && match ch_cap_buf ch, ch_server ch, ch_client ch with
     | Some _, _, _ | None, None, None => true
     | _, _, _ => false
     end.

Definition chans_wfb (chs : list channel) : bool :=
  (zlen chs =? S3K_CHAN_CNT) &&
  for_all 0 S3K_CHAN_CNT (fun i =>
    match lookupZ chs i with Some ch => chan_wfb ch | None => false end).

Definition slots_wfb (sl : list Z) : bool :=
  (zlen sl =? S3K_SLOT_CNT) &&
  for_all S3K_MIN_HART (S3K_MAX_HART + 1) (fun h =>
    for_all 0 S3K_SLOT_CNT (fun i => valid_procb (lane_pid (slot_lane sl h i)))).

Definition hw_wfb (h : hw_t) : bool :=
  (S3K_MIN_HART <=? mhartid h) && (mhartid h <=? S3K_MAX_HART)
  && (mhartid h <? zlen (mtimecmp h)).

Definition wfb (s : kstate) : bool :=
  ct_wfb (ctable s) && procs_wfb (procs s) && chans_wfb (channels s)
  && slots_wfb (slots s) && hw_wfb (hw s).

Fixpoint chainb (nx pv : Z -> Z) (a : Z) (l : list Z) (b : Z) : bool :=
  match l with
  | [] => (nx a =? b) && (pv b =? a)
  | x :: l => (nx a =? x) && (pv x =? a) && chainb nx pv x l b
  end.

Definition cap_listb (ct : ctable_t) (l : list Z) : bool :=
  bool_decide (NoDup l) &&
  match l with [] => true | h :: t => chainb (next_at ct) (prev_at ct) h t h end &&
  forallb in_tableb l &&
  for_all 0 CTABLE_LEN (fun c => Bool.eqb (bool_decide (c ∈ l)) (negb (empty (cap_at ct c)))).

Definition marks_okb (k : cap_t) : bool :=
  (negb (k⟦cap_type⟧ =? CAPTY_MEMORY) || (k⟦mem_bgn⟧ <=? k⟦mem_mrk⟧))
  && (negb (k⟦cap_type⟧ =? CAPTY_MONITOR) || (k⟦mon_bgn⟧ <=? k⟦mon_mrk⟧))
  && (negb (k⟦cap_type⟧ =? CAPTY_CHANNEL) || (k⟦chan_bgn⟧ <=? k⟦chan_mrk⟧)).

Definition caps_soundb (v : view) : bool :=
  for_all 0 CTABLE_LEN (fun c => cap_wf (v_cap v c) && marks_okb (v_cap v c)).

(** The loaded capabilities, and whether they are as [backed] says. *)
Definition loaded_list (v : view) : list cte_t :=
  List.filter (fun c => pmp_loaded (v_cap v c)) (zrange 0 CTABLE_LEN).

Definition slot_of (v : view) (c : cte_t) : Z * Z := (cte_pid c, (v_cap v c)⟦pmp_slot⟧).

Definition backedb (v : view) : bool :=
  for_all 0 S3K_PROC_CNT (fun q =>
    (zlen (p_pmpcfg (v_proc v q)) =? S3K_PMP_CNT)
    && (zlen (p_pmpaddr (v_proc v q)) =? S3K_PMP_CNT)
    && for_all 0 S3K_PMP_CNT (fun j =>
         (cfg_at v q j =? 0) || bool_decide ((q, j) ∈ map (slot_of v) (loaded_list v))))
  && bool_decide (NoDup (map (slot_of v) (loaded_list v)))
  && forallb (fun c => let k := v_cap v c in
       (k⟦pmp_slot⟧ <? S3K_PMP_CNT)
       && (cfg_at v (cte_pid c) k⟦pmp_slot⟧ =? pmp_cfg k⟦pmp_rwx⟧)
       && (addr_at v (cte_pid c) k⟦pmp_slot⟧ =? k⟦pmp_addr⟧)) (loaded_list v).
End Checks.

Section CheckFacts.
Context `{C : Config} {Cok : ConfigOk C}.

Lemma in_tableb_spec c : in_tableb c = true -> in_table c.
Proof. unfold in_tableb, in_table. intros. breflect. lia. Qed.

Lemma valid_procb_spec p : valid_procb p = true -> valid_proc p.
Proof. unfold valid_procb, valid_proc. intros. breflect. lia. Qed.

Lemma ct_wfb_spec ct : ct_wfb ct = true -> ct_wf ct.
Proof.
  unfold ct_wfb. intros [Hlen Hall]%andb_true_iff. apply Z.eqb_eq in Hlen.
  pose proof (for_all_spec _ _ _ Hall) as H. split; [split; [done|]|].
  - intros c Hc. specialize (H c Hc). cbn beta in H. breflect. destruct H as [[H1 H2] _].
    split; by apply in_tableb_spec.
  - intros c Hc. specialize (H c Hc). cbn beta in H. breflect. tauto.
Qed.

Lemma procs_wfb_spec ps : procs_wfb ps = true -> procs_wf ps.
Proof.
  unfold procs_wfb. intros [Hlen Hall]%andb_true_iff. apply Z.eqb_eq in Hlen.
  split; [done|]. intros i x Hx. pose proof (lookupZ_Some_range _ _ _ Hx) as Hi.
  pose proof (for_all_spec _ _ _ Hall i ltac:(lia)) as H. cbn beta in H. rewrite Hx in H.
  unfold proc_wfb in H. unfold proc_wf. breflect. tauto.
Qed.

Lemma chan_wfb_spec ch : chan_wfb ch = true -> chan_wf ch.
Proof.
  destruct ch as [sv cl b]. unfold chan_wfb, chan_wf, opt_allb. cbn. intros H. breflect.
  destruct H as [[[H1 H2] H3] H4]. split_and!.
  - intros p ->. by apply valid_procb_spec.
  - intros p ->. by apply valid_procb_spec.
  - intros c ->. by apply in_tableb_spec.
  - intros ->. by destruct sv, cl.
Qed.

Lemma chans_wfb_spec chs : chans_wfb chs = true -> chans_wf chs.
Proof.
  unfold chans_wfb. intros [Hlen Hall]%andb_true_iff. apply Z.eqb_eq in Hlen.
  split; [done|]. intros i ch Hch. pose proof (lookupZ_Some_range _ _ _ Hch) as Hi.
  pose proof (for_all_spec _ _ _ Hall i ltac:(lia)) as H. cbn beta in H. rewrite Hch in H.
  by apply chan_wfb_spec.
Qed.

Lemma slots_wfb_spec sl : slots_wfb sl = true -> slots_wf sl.
Proof.
  unfold slots_wfb. intros [Hlen Hall]%andb_true_iff. apply Z.eqb_eq in Hlen.
  split; [done|]. intros h i Hh Hi. unfold valid_hart in Hh.
  pose proof (for_all_spec _ _ _ Hall h ltac:(lia)) as H. cbn beta in H.
  pose proof (for_all_spec _ _ _ H i Hi) as H'. by apply valid_procb_spec.
Qed.

Lemma wfb_spec s : wfb s = true -> wf s.
Proof.
  unfold wfb, hw_wfb. intros H. breflect. destruct H as [[[[H1 H2] H3] H4] [[H5 H6] H7]].
  split; [by apply ct_wfb_spec|by apply procs_wfb_spec|by apply chans_wfb_spec
    |by apply slots_wfb_spec|]. split; [|done]. by split.
Qed.

Lemma chainb_spec nx pv l : forall a b, chainb nx pv a l b = true -> chain nx pv a l b.
Proof.
  induction l as [|x l IH]; intros a b H; cbn in *; breflect.
  - done.
  - destruct H as [[H1 H2] H3]. split; [done|by apply IH].
Qed.

Lemma cap_listb_spec ct l : cap_listb ct l = true -> cap_list ct l.
Proof.
  unfold cap_listb. intros H. breflect. destruct H as [[[H1 H2] H3] H4].
  rewrite forallb_forall in H3. pose proof (for_all_spec _ _ _ H4) as H5. cbn beta in H5.
  split; [by apply bool_decide_eq_true in H1|]. split.
  - destruct l; [done|]. by apply chainb_spec.
  - intros c. unfold occupied. split.
    + intros Hc. assert (in_table c) by by apply in_tableb_spec, H3, list_elem_of_In.
      specialize (H5 c ltac:(done)). split; [done|]. apply eqb_prop in H5.
      rewrite bool_decide_true in H5 by done. unfold empty in H5. symmetry in H5.
      by breflect.
    + intros [Hc Hne]. specialize (H5 c Hc). apply eqb_prop in H5.
      unfold empty in H5. rewrite (proj2 (Z.eqb_neq _ _) Hne) in H5.
      by apply bool_decide_eq_true in H5.
Qed.

Lemma caps_soundb_spec v : caps_soundb v = true -> caps_sound v.
Proof.
  unfold caps_soundb. intros H c Hc. pose proof (for_all_spec _ _ _ H c Hc) as Hk.
  cbn beta in Hk. unfold marks_okb in Hk. breflect. destruct Hk as [Hw [[H1 H2] H3]].
  split; [done|]. split_and!; intros E.
  - destruct H1; [congruence|done].
  - destruct H2; [congruence|done].
  - destruct H3; [congruence|done].
Qed.

Lemma elem_of_loaded v c : c ∈ loaded_list v <-> in_table c /\ pmp_loaded (v_cap v c) = true.
Proof. unfold loaded_list. by rewrite list_elem_of_In, filter_In, <- list_elem_of_In, elem_of_zrange. Qed.

Lemma loaded_at_list v c j :
  loaded_at v c j <-> c ∈ loaded_list v /\ (v_cap v c)⟦pmp_slot⟧ = j.
Proof. unfold loaded_at. rewrite elem_of_loaded. tauto. Qed.

Lemma NoDup_map_inj {A B} (f : A -> B) l x y :
  NoDup (map f l) -> x ∈ l -> y ∈ l -> f x = f y -> x = y.
Proof.
  induction l as [|a l IH]; cbn; [by intros _ []%elem_of_nil|].
  intros [Ha Hnd]%NoDup_cons [->|Hx]%elem_of_cons [->|Hy]%elem_of_cons E; [done| | |by apply IH].
  - destruct Ha. rewrite E. apply list_elem_of_fmap. by exists y.
  - destruct Ha. rewrite <- E. apply list_elem_of_fmap. by exists x.
Qed.

Lemma backedb_spec v : backedb v = true -> backed v.
Proof.
  unfold backedb. intros [[H1 H2]%andb_true_iff H3]%andb_true_iff.
  apply bool_decide_eq_true in H2. rewrite forallb_forall in H3.
  pose proof (for_all_spec _ _ _ H1) as H4. cbn beta in H4. split.
  - intros q Hq. specialize (H4 q Hq). breflect. tauto.
  - intros c j [Hl <-]%loaded_at_list. specialize (H3 c ltac:(by apply list_elem_of_In)).
    cbn beta zeta in H3. breflect. pose proof (fget_range pmp_slot (v_cap v c) eq_refl).
    destruct H3 as [[? ?] ?]. split; [lia|done].
  - intros q j Hq Hj Hne. specialize (H4 q Hq). apply andb_true_iff in H4 as [_ H4].
    pose proof (for_all_spec _ _ _ H4 j Hj) as H5. cbn beta in H5.
    rewrite (proj2 (Z.eqb_neq _ _) Hne) in H5. apply bool_decide_eq_true in H5.
    apply list_elem_of_fmap in H5 as (c & E & Hc). injection E as -> ->.
    exists c. by rewrite loaded_at_list.
  - intros c c' j [Hl E]%loaded_at_list [Hl' E']%loaded_at_list Ep.
    apply (NoDup_map_inj (slot_of v) (loaded_list v)); [done..|]. unfold slot_of. congruence.
Qed.

(** The view of a checked state. *)
Lemma sees_checked s l :
  wfb s = true -> cap_listb (ctable s) l = true -> sees s (view_of s (Some l)).
Proof.
  intros Hw Hl. apply sees_view_of; [by apply wfb_spec|]. intros l' [= <-].
  by apply cap_listb_spec.
Qed.
End CheckFacts.

(** ** The states after [kernel_init] *)

(** A clock that advances by one at each access to a device. *)
Definition clock (n : nat) : Z := Z.of_nat n.

Definition boot1 : kstate :=
  state_of (boot_qemu_virt clock) (kstate_bss (C := qemu_virt) (hw_reset 0 clock)).
Definition boot4 : kstate :=
  state_of (boot_qemu_virt4 clock) (kstate_bss (C := qemu_virt4) (hw_reset 0 clock)).

(** The initial capabilities, in derivation order: each insertion is after
    entry 0. *)
Definition list1 : list cte_t := [0; 9; 8; 4; 3; 2; 1].
Definition list4 : list cte_t := [0; 25; 9; 8; 7; 6; 5; 4; 3; 2; 1].

Lemma boot1_sees : sees (C := qemu_virt) boot1 (view_of (C := qemu_virt) boot1 (Some list1)).
Proof. apply (sees_checked (C := qemu_virt)); vm_compute; reflexivity. Qed.

Lemma boot4_sees : sees (C := qemu_virt4) boot4 (view_of (C := qemu_virt4) boot4 (Some list4)).
Proof. apply (sees_checked (C := qemu_virt4)); vm_compute; reflexivity. Qed.

(** ** Running the boot process *)

(** The hardware, with the timer interrupt pending from access [n] on. *)
Definition hw_timer (n : nat) (h : hw_t) : hw_t :=
  Hw clock (fun m => if (n <=? m)%nat then 128 else 0) (fun _ => 0) 0%nat (mtimecmp h)
     (mhartid h) (pmp_csr h).

Definition timed (s : kstate) : kstate := set_hw (hw_timer 50 (hw s)) s.

(** The registers of process [p] for a call with arguments [args]. *)
Definition regs_call (call : Z) (args : list Z) (regs : list Z) : list Z :=
  insertZ REG_T0 call
    (foldr (fun ia r => insertZ (REG_A0 + Z.of_nat ia.1) ia.2 r) regs
       (combine (seq 0 (length args)) args)).

Definition set_call (p call : Z) (args : list Z) (s : kstate) : kstate :=
  match lookupZ (procs s) p with
  | Some x =>
      timed (set_procs (insertZ p (set_regs (regs_call call args (p_regs x)) x) (procs s)) s)
  | None => s
  end.

Section Running.
Context `{C : Config}.
(** The scheduler's choice on a state, and a system call of process [p]. *)
Definition dispatched (s : kstate) : kstate := state_of (sched 100 100 s) s.
Definition called (p call : Z) (args : list Z) (s : kstate) : kstate :=
  let s := set_call p call args s in
  state_of (trap_handler 100 100 100 p 8 0 s) s.
End Running.

Definition started1 : kstate := dispatched (C := qemu_virt) boot1.
Definition started4 : kstate := dispatched (C := qemu_virt4) boot4.

Lemma fires_timer n h : fires (hw_timer n h) n.
Proof.
  intros m Hm. cbn in *. destruct (Nat.leb_spec n m); [done|lia].
Qed.

Lemma settles_timer n h : settles (hw_timer n h) n.
Proof. split; [apply fires_timer|]. by intros m _. Qed.

(** ** Steps of the machine on concrete states *)

Definition exit_of (o : outcome kstate trap_exit) : option trap_exit :=
  match o with Done e _ => Some e | Fault _ => None end.

Lemma exit_Done o e d : exit_of o = Some e -> o = Done e (state_of o d).
Proof. destruct o; [by intros [= ->]|done]. Qed.

Lemma zlen_regs_call call args regs : zlen (regs_call call args regs) = zlen regs.
Proof.
  unfold regs_call. rewrite zlen_insertZ. generalize (combine (seq 0 (length args)) args).
  intros l. induction l as [|ia l IH]; [done|]. cbn [foldr]. by rewrite zlen_insertZ.
Qed.

Section Traces.
Context `{C : Config} {Cok : ConfigOk C}.

Lemma set_call_user p call args s x :
  lookupZ (procs s) p = Some x -> zlen (p_regs x) = REG_CNT ->
  user_step p s (set_call p call args s).
Proof.
  intros Hx Hl. unfold set_call. rewrite Hx.
  apply (user_intro p s x _ (hw_timer 50 (hw s))); [done|by rewrite zlen_regs_call|done|done].
Qed.

Lemma set_call_settles p call args s :
  is_Some (lookupZ (procs s) p) -> settles (hw (set_call p call args s)) 50.
Proof. intros [x Hx]. unfold set_call. rewrite Hx. apply settles_timer. Qed.

(** A system call of process [p] that returns to it: a user step and a trap. *)
Lemma called_steps p call args s x :
  lookupZ (procs s) p = Some x -> zlen (p_regs x) = REG_CNT ->
  word_regs (view_of (set_call p call args s) None) p ->
  exit_of (trap_handler 100 100 100 p 8 0 (set_call p call args s)) = Some (TrapReturn p) ->
  rtc mstep (Machine s p) (Machine (called p call args s) p).
Proof.
  intros Hx Hl Hw He. eapply rtc_l; [by apply m_user, (set_call_user p call args s x)|].
  apply rtc_once. by eapply (m_trap _ _ 100 100 100 8 0 (TrapReturn p)); [|apply exit_Done|].
Qed.

(** Deciding whether arguments fit, and registers hold words. *)
Definition fits_argsb (v : view) (p : Z) : bool :=
  (0 <=? reg v p REG_T0) &&
  forallb (fun ki => negb (exact (reg v p REG_T0) ki.1) || bool_decide (fits ki.1 (args_of v p ki.2)))
    (checks (reg v p REG_T0)).

Lemma fits_argsb_spec v p : fits_argsb v p = true -> fits_args v p.
Proof.
  unfold fits_argsb. intros [H1 H2]%andb_true_iff. apply Z.leb_le in H1. split; [done|].
  apply Forall_forall. intros ki Hki Hex. rewrite forallb_forall in H2.
  specialize (H2 ki ltac:(by apply list_elem_of_In)). rewrite Hex in H2. by apply bool_decide_eq_true in H2.
Qed.

Definition word_regsb (v : view) (p : Z) : bool :=
  forallb (fun r => (0 <=? reg v p (Z.of_nat r)) && (reg v p (Z.of_nat r) <? 2 ^ 64))
    (seq 0 (Z.to_nat REG_CNT)).

Lemma word_regsb_spec v p : word_regsb v p = true -> word_regs v p.
Proof.
  unfold word_regsb. rewrite forallb_forall. intros H r Hr.
  specialize (H (Z.to_nat r)). rewrite Z2Nat.id in H by lia.
  destruct (andb_prop _ _ (H ltac:(apply in_seq; lia))). lia.
Qed.

Definition currentb (s : kstate) (p : Z) : bool :=
  valid_procb p && match lookupZ (procs s) p with
                   | Some x => p_state x =? PSF_BUSY | None => false end.

Lemma current_checked s p l :
  wfb s = true -> cap_listb (ctable s) l = true -> currentb s p = true ->
  current s (view_of s (Some l)) p.
Proof.
  unfold currentb. intros Hw Hl [Hp Hr]%andb_true_iff. split.
  - by apply sees_checked.
  - by apply valid_procb_spec.
  - left. cbn. destruct (lookupZ (procs s) p); [|done]. by breflect.
Qed.
End Traces.

(** ** The first process, running *)

Section Started.
#[local] Existing Instance qemu_virt.

Lemma started1_current : current started1 (view_of started1 (Some list1)) 0.
Proof. apply current_checked; vm_compute; reflexivity. Qed.

Lemma started1_sound : caps_sound (view_of started1 (Some list1)).
Proof. apply caps_soundb_spec. vm_compute. reflexivity. Qed.

Lemma started1_backed : backed (view_of started1 (Some list1)).
Proof. apply backedb_spec. vm_compute. reflexivity. Qed.

(** A time capability for the first half of the slots of hart 0. *)
Definition half_time : cap_t := 0⟦cap_type := CAPTY_TIME⟧⟦time_end := 16⟧.

(** The first process derives it to entry 10. *)
Definition derived1 : kstate := called 0 SYS_CAP_DERIVE [4; 10; half_time] started1.

Lemma derived1_steps : rtc mstep (Machine started1 0) (Machine derived1 0).
Proof.
  destruct (lookupZ_lt (procs started1) 0) as [x Hx]; [vm_compute; intuition congruence|].
  apply (called_steps _ _ _ _ x Hx).
  - pose proof (sees_wf _ _ (cur_sees _ _ _ started1_current)) as Hwf.
    destruct (wf_procs _ Hwf) as [_ H]. by destruct (H _ _ Hx) as (_ & ? & _).
  - apply word_regsb_spec. vm_compute. reflexivity.
  - vm_compute. reflexivity.
Qed.
End Started.
