(* ===== verification/CapTheorems.v ===== *)
(** * The capability operations implement their specification

    The derivation list, and the operations of [cap_ops.c] and [cap_pmp.c]
    against the pure functions of [Spec]. *)

From S2P Require Import Prelude Config CapTypes CapTable CapList KState Proc Sched.
From S2P Require Import Channel CapOps CapPmp Invariant View Spec Refine Steps Revoke.
From S2P Require Import Boot.

Section Table.
Context `{C : Config} {Cok : ConfigOk C}.
Implicit Types (l : list Z).

(** The operations of the capability table are operations on the
    derivation list.  [cte_insert(c, cap, prev)] inserts [c] after [prev], for a
    free entry [c], an occupied [prev] and a capability with a type;
    [cte_delete(c)] removes [c], empties it and returns the capability it held;
    [cte_move(src, dst)] puts [dst], with the capability of [src], in the place of
    [src], when [dst] is free and [src] is not the only capability.  Every other
    capability and the rest of the order stay as they are. *)
Theorem cte_list_refines ct l cp :
  represents ct l cp ->
  (forall c k p, p ∈ l -> in_table c -> c ∉ l -> k⟦cap_type⟧ <> 0 ->
     wp (cte_insert c k p) (fun _ ct' => represents ct' (l_insert c p l) (fupd cp c k)) ct) /\
  (forall c, c ∈ l ->
     wp (cte_delete c) (fun k ct' => k = cp c /\ represents ct' (l_remove c l) (fupd cp c 0)) ct) /\
  (forall src dst, src ∈ l -> in_table dst -> dst ∉ l -> (1 < length l)%nat ->
     wp (cte_move src dst)
       (fun _ ct' => represents ct' (l_replace src dst l) (fupd (fupd cp dst (cp src)) src 0)) ct).
Proof.
  intros Hr. split_and!; intros.
  - by eapply wp_insert.
  - by eapply wp_delete.
  - by eapply wp_move.
Qed.
End Table.

Section Operations.
Context `{C : Config} {Cok : ConfigOk C}.

(** [cap_move] is its specification [a_move] on every well-formed state:
    it never faults, returns the error of the specification and leaves its
    state: links, schedule and PMP registers included. *)
Theorem cap_move_refines s v src dst :
  sees s v -> in_table src -> in_table dst ->
  wp (cap_move src dst)
    (fun e s' => e = (a_move src dst v).1 /\ sees s' (a_move src dst v).2) s.
Proof. intros. by eapply see_cap_move. Qed.

(** [cap_delete] is its specification [a_delete]: the time slots, the
    PMP region or the registered receivers of the capability are released and
    the entry leaves the derivation list. *)
Theorem cap_delete_refines s v c :
  sees s v -> in_table c ->
  wp (cap_delete c) (fun e s' => e = (a_delete c v).1 /\ sees s' (a_delete c v).2) s.
Proof. intros. by eapply see_cap_delete. Qed.

(** [C13]: [cap_derive] is its specification [a_derive]: a capability that
    passed validation is installed exactly when [derive_mark] allows it, right
    after its parent in the derivation list. *)
Theorem cap_derive_refines s v src dst k :
  sees s v -> in_table src -> in_table dst -> word_ok k = true -> cap_is_valid k = true ->
  wp (cap_derive src dst k)
    (fun e s' => e = (a_derive src dst k v).1 /\ sees s' (a_derive src dst k v).2) s.
Proof. intros. by eapply see_cap_derive. Qed.

(** One step of the revocation loop is its specification [a_revoke],
    for the entry that follows the parent in the derivation list. *)
Theorem revoke_step_refines s v parent :
  sees s v -> in_table parent -> (v_cap v parent)⟦cap_type⟧ <> 0 ->
  wp (let* h := handler_at revoke_handlers (v_cap v parent)⟦cap_type⟧ in
      h parent (v_cap v parent))
    (fun e s' => exists child, child_of v parent child /\
       e = (a_revoke parent child v).1 /\ sees s' (a_revoke parent child v).2) s.
Proof.
  intros Hs Hp Hne. eapply see_revoke_step; [done|done|by left|].
  intros child s' Hc Hs'. by exists child.
Qed.

(** [cap_pmp_load] and [cap_pmp_unload] are their specifications. *)
Theorem cap_pmp_refines s v c slot :
  sees s v -> in_table c -> 0 <= slot < S3K_PMP_CNT ->
  wp (cap_pmp_load c slot)
    (fun e s' => e = (a_pmp_load c slot v).1 /\ sees s' (a_pmp_load c slot v).2) s /\
  wp (cap_pmp_unload c)
    (fun e s' => e = (a_pmp_unload c v).1 /\ sees s' (a_pmp_unload c v).2) s.
Proof.
  intros Hs Hc Hslot. config_bounds.
  assert (E : u8 slot = slot) by (apply Z.mod_small; lia). split.
  - eapply see_cap_pmp_load; [done|done|lia|]. by rewrite E.
  - by eapply see_cap_pmp_unload.
Qed.

(** [C14]: [cap_revoke] terminates: when the timer interrupt of the time slice
    is pending after [n] accesses to the devices at the latest, the loop ends
    after at most [n] further steps, without a fault, in a well-formed state
    reached by revocation steps of the owner of the entry only. *)
Theorem cap_revoke_terminates fuel n s v c :
  sees s v -> in_table c -> fires (v_hw v) n -> (n < fuel)%nat ->
  wp (cap_revoke fuel c)
    (fun _ s' => exists v', sees s' v' /\ ksteps (cte_pid c) v v' /\ procs_same v v') s.
Proof. intros. apply wp_wpe. eapply see_cap_revoke; eauto. Qed.
End Operations.

(** ** Witnesses, at the boot state of one hart *)

#[local] Existing Instance qemu_virt.

Abbreviation view1 := (view_of boot1 (Some list1)).

Lemma boot1_represents : represents (ctable boot1) list1 (cap_at (ctable boot1)).
Proof. destruct boot1_sees as (_ & [_ H] & _). by apply H. Qed.

Ltac in_table_tac := vm_compute; intuition congruence.

Example cte_list_refines_witness :
  wp (cte_insert 10 (cap_at (ctable boot1) 4) 4)
    (fun _ ct' => represents ct' [0; 9; 8; 4; 10; 3; 2; 1]
       (fupd (cap_at (ctable boot1)) 10 (cap_at (ctable boot1) 4))) (ctable boot1) /\
  wp (cte_delete 8)
    (fun k ct' => k = cap_at (ctable boot1) 8 /\
       represents ct' [0; 9; 4; 3; 2; 1] (fupd (cap_at (ctable boot1)) 8 0)) (ctable boot1) /\
  wp (cte_move 4 40)
    (fun _ ct' => represents ct' [0; 9; 8; 40; 3; 2; 1]
       (fupd (fupd (cap_at (ctable boot1)) 40 (cap_at (ctable boot1) 4)) 4 0)) (ctable boot1).
Proof.
  destruct (cte_list_refines (ctable boot1) list1 (cap_at (ctable boot1)) boot1_represents)
    as (H1 & H2 & H3).
  split_and!; [apply (H1 10 (cap_at (ctable boot1) 4) 4)|apply (H2 8)|apply (H3 4 40)];
    first [in_table_tac | by apply (bool_decide_unpack _)].
Defined.

Example cap_move_refines_witness :
  wp (cap_move 4 40)
    (fun e s' => e = (a_move 4 40 view1).1 /\ sees s' (a_move 4 40 view1).2) boot1.
Proof. apply cap_move_refines; [apply boot1_sees|in_table_tac..]. Defined.

Example cap_delete_refines_witness :
  wp (cap_delete 0) (fun e s' => e = (a_delete 0 view1).1 /\ sees s' (a_delete 0 view1).2) boot1.
Proof. apply cap_delete_refines; [apply boot1_sees|in_table_tac]. Defined.

Example cap_derive_refines_witness :
  wp (cap_derive 4 10 half_time)
    (fun e s' => e = (a_derive 4 10 half_time view1).1 /\
                 sees s' (a_derive 4 10 half_time view1).2) boot1.
Proof. apply cap_derive_refines; [apply boot1_sees|in_table_tac..|done|done]. Defined.

Example revoke_step_refines_witness :
  wp (let* h := handler_at revoke_handlers (v_cap view1 4)⟦cap_type⟧ in h 4 (v_cap view1 4))
    (fun e s' => exists child, child_of view1 4 child /\
       e = (a_revoke 4 child view1).1 /\ sees s' (a_revoke 4 child view1).2) boot1.
Proof. apply revoke_step_refines; [apply boot1_sees|in_table_tac|by vm_compute]. Defined.

Example cap_pmp_refines_witness :
  wp (cap_pmp_load 0 3)
    (fun e s' => e = (a_pmp_load 0 3 view1).1 /\ sees s' (a_pmp_load 0 3 view1).2) boot1 /\
  wp (cap_pmp_unload 0)
    (fun e s' => e = (a_pmp_unload 0 view1).1 /\ sees s' (a_pmp_unload 0 view1).2) boot1.
Proof. apply cap_pmp_refines; [apply boot1_sees|in_table_tac..]. Defined.

Lemma timed1_sees : sees (timed boot1) (view_of (timed boot1) (Some list1)).
Proof. apply sees_checked; vm_compute; reflexivity. Qed.

Example cap_revoke_terminates_witness :
  wp (cap_revoke 51 4)
    (fun _ s' => exists v', sees s' v' /\ ksteps (cte_pid 4) (view_of (timed boot1) (Some list1)) v' /\
       procs_same (view_of (timed boot1) (Some list1)) v') (timed boot1).
Proof.
  apply (cap_revoke_terminates 51 50 (timed boot1) (view_of (timed boot1) (Some list1)) 4);
    [apply timed1_sees|in_table_tac|apply fires_timer|lia].
Defined.
