(* ===== verification/UserCaps.v ===== *)
(** * The user library: capabilities

    [common/src/s3k/s3k.c] and [common/inc/s3k/util.h]: the constructors of
    capability descriptions and the predicates with which user code predicts
    what the kernel will accept.  The second half compares them with the
    kernel's own. *)

From S2P Require Import Prelude Config CapTypes CapTable CapList KState Proc Sched.
From S2P Require Import Channel Invariant View Spec.

Section Constructors.
Definition s3k_mk_time (hart bgn end_ : Z) : cap_t :=
  let cap := 0 in
  let cap := cap⟦cap_type := CAPTY_TIME⟧ in
  let cap := cap⟦time_hart := u8 hart⟧ in
  let cap := cap⟦time_bgn := u16 bgn⟧ in
  let cap := cap⟦time_mrk := u16 bgn⟧ in
  cap⟦time_end := u16 end_⟧.

(** A value of type [int], from its low 32 bits. *)
Definition s32 (z : Z) : Z := if u32 z <? 2 ^ 31 then u32 z else u32 z - 2 ^ 32.

(** [tag << S3K_MAX_BLOCK_SIZE] is computed in type [int] and overflows for
    addresses of 2 GiB and more; it wraps, as the compiler of the
    repository does it. *)
Definition tag_base (tag : Z) : Z := s32 (Z.shiftl tag MAX_BLOCK_SIZE).

Definition s3k_mk_memory (bgn end_ rwx : Z) : cap_t :=
  let tag := u8 (Z.shiftr (u64 bgn) MAX_BLOCK_SIZE) in
  let bgn_block := u16 (Z.shiftr (u64 (u64 bgn - tag_base tag)) MIN_BLOCK_SIZE) in
  let end_block := u16 (Z.shiftr (u64 (u64 end_ - tag_base tag)) MIN_BLOCK_SIZE) in
  let cap := 0 in
  let cap := cap⟦cap_type := CAPTY_MEMORY⟧ in
  let cap := cap⟦mem_tag := tag⟧ in
  let cap := cap⟦mem_bgn := bgn_block⟧ in
  let cap := cap⟦mem_end := end_block⟧ in
  let cap := cap⟦mem_mrk := bgn_block⟧ in
  let cap := cap⟦mem_rwx := u8 rwx⟧ in
  cap⟦mem_lck := 0⟧.

Definition s3k_mk_pmp (addr rwx : Z) : cap_t :=
  let cap := 0 in
  let cap := cap⟦cap_type := CAPTY_PMP⟧ in
  let cap := cap⟦pmp_addr := Z.land (u64 addr) 0xFFFFFFFFFF⟧ in
  let cap := cap⟦pmp_rwx := Z.land (u8 rwx) 7⟧ in
  let cap := cap⟦pmp_used := 0⟧ in
  cap⟦pmp_slot := 0⟧.

Definition s3k_mk_monitor (bgn end_ : Z) : cap_t :=
  let cap := 0 in
  let cap := cap⟦cap_type := CAPTY_MONITOR⟧ in
  let cap := cap⟦mon_bgn := u16 bgn⟧ in
  let cap := cap⟦mon_end := u16 end_⟧ in
  cap⟦mon_mrk := u16 bgn⟧.

Definition s3k_mk_channel (bgn end_ : Z) : cap_t :=
  let cap := 0 in
  let cap := cap⟦cap_type := CAPTY_CHANNEL⟧ in
  let cap := cap⟦chan_bgn := u16 bgn⟧ in
  let cap := cap⟦chan_end := u16 end_⟧ in
  cap⟦chan_mrk := u16 bgn⟧.

Definition s3k_mk_socket (chan mode perm tag : Z) : cap_t :=
  let cap := 0 in
  let cap := cap⟦cap_type := CAPTY_SOCKET⟧ in
  let cap := cap⟦sock_chan := u16 chan⟧ in
  let cap := cap⟦sock_mode := mode⟧ in
  let cap := cap⟦sock_perm := perm⟧ in
  cap⟦sock_tag := u32 tag⟧.
End Constructors.

Section Predicates.
(** [s3k_napot_decode(addr, &base, &size)], as the pair of its outputs. *)
Definition s3k_napot_decode (addr : Z) : Z * Z :=
  (u64 (Z.shiftl (Z.land (u64 (addr + 1)) addr) 2),
   u64 (Z.shiftl (u64 (Z.lxor (u64 (addr + 1)) addr + 1)) 2)).

Definition s3k_napot_encode (base size : Z) : Z :=
  Z.shiftr (Z.lor base (u64 (size / 2 - 1))) 2.

Definition is_range_subset (a_bgn a_end b_bgn b_end : Z) : bool :=
  (a_bgn <=? b_bgn) && (b_end <=? a_end).
Definition is_range_prefix (a_bgn a_end b_bgn b_end : Z) : bool :=
  (a_bgn =? b_bgn) && (b_end <=? a_end).
Definition is_bit_subset (a b : Z) : bool := Z.land a b =? a.

Definition s3k_tag_block_to_addr (tag block : Z) : Z :=
  u64 (u64 (Z.shiftl tag MAX_BLOCK_SIZE) + u64 (Z.shiftl block MIN_BLOCK_SIZE)).

(** ** Revocable capabilities *)

Definition s3k_cap_time_revokable (p c : cap_t) : bool :=
  (c⟦cap_type⟧ =? CAPTY_TIME) && (p⟦time_hart⟧ =? c⟦time_hart⟧)
  && is_range_subset p⟦time_bgn⟧ p⟦time_end⟧ c⟦time_bgn⟧ c⟦time_end⟧.

Definition s3k_cap_mem_revokable (p c : cap_t) : bool :=
  if c⟦cap_type⟧ =? CAPTY_PMP then
    let p_bgn := s3k_tag_block_to_addr p⟦mem_tag⟧ p⟦mem_bgn⟧ in
    let p_end := s3k_tag_block_to_addr p⟦mem_tag⟧ p⟦mem_end⟧ in
    let '(c_bgn, c_end) := s3k_napot_decode c⟦pmp_addr⟧ in
    is_range_subset p_bgn p_end c_bgn c_end
  else
    (c⟦cap_type⟧ =? CAPTY_MEMORY) && (p⟦mem_tag⟧ =? c⟦mem_tag⟧)
    && is_range_subset p⟦mem_bgn⟧ p⟦mem_end⟧ c⟦mem_bgn⟧ c⟦mem_end⟧.

Definition s3k_cap_mon_revokable (p c : cap_t) : bool :=
  (c⟦cap_type⟧ =? CAPTY_MONITOR)
  && is_range_subset p⟦mon_bgn⟧ p⟦mon_end⟧ c⟦mon_bgn⟧ c⟦mon_end⟧.

Definition s3k_cap_chan_revokable (p c : cap_t) : bool :=
  if c⟦cap_type⟧ =? CAPTY_SOCKET then
    is_range_subset p⟦chan_bgn⟧ p⟦chan_end⟧ c⟦sock_chan⟧ (c⟦sock_chan⟧ + 1)
  else
    (c⟦cap_type⟧ =? CAPTY_CHANNEL)
    && is_range_subset p⟦chan_bgn⟧ p⟦chan_end⟧ c⟦chan_bgn⟧ c⟦chan_end⟧.

Definition s3k_cap_sock_revokable (p c : cap_t) : bool :=
  (p⟦sock_tag⟧ =? 0) && negb (c⟦sock_tag⟧ =? 0) && (p⟦sock_chan⟧ =? c⟦sock_chan⟧).

Definition s3k_cap_is_revokable (p c : cap_t) : bool :=
  if p⟦cap_type⟧ =? CAPTY_TIME then s3k_cap_time_revokable p c
  else if p⟦cap_type⟧ =? CAPTY_MEMORY then s3k_cap_mem_revokable p c
  else if p⟦cap_type⟧ =? CAPTY_MONITOR then s3k_cap_mon_revokable p c
  else if p⟦cap_type⟧ =? CAPTY_CHANNEL then s3k_cap_chan_revokable p c
  else if p⟦cap_type⟧ =? CAPTY_SOCKET then s3k_cap_sock_revokable p c
  else false.

(** ** Valid capabilities *)

Definition s3k_cap_is_valid (c : cap_t) : bool :=
  if c⟦cap_type⟧ =? CAPTY_TIME then
    (c⟦time_bgn⟧ =? c⟦time_mrk⟧) && (c⟦time_bgn⟧ <? c⟦time_end⟧)
  else if c⟦cap_type⟧ =? CAPTY_MEMORY then
    (c⟦mem_bgn⟧ =? c⟦mem_mrk⟧) && (c⟦mem_bgn⟧ <? c⟦mem_end⟧)
  else if c⟦cap_type⟧ =? CAPTY_PMP then
    (c⟦pmp_used⟧ =? 0) && (c⟦pmp_slot⟧ =? 0)
  else if c⟦cap_type⟧ =? CAPTY_MONITOR then
    (c⟦mon_bgn⟧ =? c⟦mon_mrk⟧) && (c⟦mon_bgn⟧ <? c⟦mon_end⟧)
  else if c⟦cap_type⟧ =? CAPTY_CHANNEL then
    (c⟦chan_bgn⟧ =? c⟦chan_mrk⟧) && (c⟦chan_bgn⟧ <? c⟦chan_end⟧)
  else if c⟦cap_type⟧ =? CAPTY_SOCKET then
    is_bit_subset c⟦sock_perm⟧
      (Z.lor (Z.lor (Z.lor IPC_SDATA IPC_CDATA) IPC_SCAP) IPC_CCAP)
    && is_bit_subset c⟦sock_mode⟧ (Z.lor IPC_YIELD IPC_NOYIELD)
  else false.

(** ** Derivable capabilities *)

Definition s3k_cap_time_derivable (p c : cap_t) : bool :=
  (c⟦cap_type⟧ =? CAPTY_TIME) && (p⟦time_hart⟧ =? c⟦time_hart⟧)
  && is_range_prefix p⟦time_bgn⟧ p⟦time_end⟧ c⟦time_bgn⟧ c⟦time_end⟧.

Definition s3k_cap_mem_derivable (p c : cap_t) : bool :=
  if c⟦cap_type⟧ =? CAPTY_PMP then
    let p_mrk := s3k_tag_block_to_addr p⟦mem_tag⟧ p⟦mem_mrk⟧ in
    let p_end := s3k_tag_block_to_addr p⟦mem_tag⟧ p⟦mem_end⟧ in
    let '(c_bgn, c_end) := s3k_napot_decode c⟦pmp_addr⟧ in
    is_range_subset p_mrk p_end c_bgn c_end && is_bit_subset c⟦pmp_rwx⟧ p⟦mem_rwx⟧
  else
    (c⟦cap_type⟧ =? CAPTY_MEMORY) && (p⟦mem_tag⟧ =? c⟦mem_tag⟧)
    && is_range_subset p⟦mem_mrk⟧ p⟦mem_end⟧ c⟦mem_bgn⟧ c⟦mem_end⟧
    && is_bit_subset c⟦mem_rwx⟧ p⟦mem_rwx⟧.

Definition s3k_cap_mon_derivable (p c : cap_t) : bool :=
  (c⟦cap_type⟧ =? CAPTY_MONITOR)
  && is_range_subset p⟦mon_mrk⟧ p⟦mon_end⟧ c⟦mon_bgn⟧ c⟦mon_end⟧.

Definition s3k_cap_chan_derivable (p c : cap_t) : bool :=
  if c⟦cap_type⟧ =? CAPTY_SOCKET then
    (c⟦sock_tag⟧ =? 0)
    && is_range_subset p⟦chan_mrk⟧ p⟦chan_end⟧ c⟦sock_chan⟧ (c⟦sock_chan⟧ + 1)
  else
    (c⟦cap_type⟧ =? CAPTY_CHANNEL)
    && is_range_subset p⟦chan_mrk⟧ p⟦chan_end⟧ c⟦chan_bgn⟧ c⟦chan_end⟧.

Definition s3k_cap_sock_derivable (p c : cap_t) : bool :=
  (c⟦cap_type⟧ =? CAPTY_SOCKET) && (p⟦sock_chan⟧ =? c⟦sock_chan⟧)
  && (p⟦sock_tag⟧ =? 0) && negb (c⟦sock_tag⟧ =? 0)
  && (p⟦sock_mode⟧ =? c⟦sock_mode⟧) && (p⟦sock_perm⟧ =? c⟦sock_perm⟧).

Definition s3k_cap_is_derivable (p c : cap_t) : bool :=
  if p⟦cap_type⟧ =? CAPTY_TIME then s3k_cap_time_derivable p c
  else if p⟦cap_type⟧ =? CAPTY_MEMORY then s3k_cap_mem_derivable p c
  else if p⟦cap_type⟧ =? CAPTY_MONITOR then s3k_cap_mon_derivable p c
  else if p⟦cap_type⟧ =? CAPTY_CHANNEL then s3k_cap_chan_derivable p c
  else if p⟦cap_type⟧ =? CAPTY_SOCKET then s3k_cap_sock_derivable p c
  else false.

(** ** Process states ([util.h]) *)

Definition s3k_is_ready (state : Z) : bool := state =? 0.
Definition s3k_is_busy (state : Z) : bool := negb (Z.land state PSF_BUSY =? 0).
(** The result, and the channel stored through the pointer. *)
Definition s3k_is_blocked (state : Z) : bool * Z :=
  (negb (Z.land state PSF_BLOCKED =? 0), u16 (Z.shiftr state 32)).
Definition s3k_is_suspended (state : Z) : bool := state =? PSF_SUSPENDED.
End Predicates.
