(* ===== verification/UserTheorems.v ===== *)
(** * The user library agrees with the kernel

    The encoding of regions for the PMP, the constructors of capability
    descriptions, and the predicate with which user code predicts whether the
    kernel will derive a capability. *)

From S2P Require Import Prelude Config CapTypes CapTable CapList KState Proc Sched.
From S2P Require Import Channel CapOps Invariant View Spec Refine UserCaps KernelInit Boot.

(** ** Regions *)

(** The bits of a number with [y] in its low [j] bits. *)
Lemma testbit_split x y j n :
  0 <= j -> 0 <= y < 2 ^ j -> 0 <= n ->
  Z.testbit (x * 2 ^ j + y) n = if n <? j then Z.testbit y n else Z.testbit x (n - j).
Proof.
  intros Hj Hy Hn. destruct (Z.ltb_spec n j).
  - rewrite <- (Z.mod_pow2_bits_low _ j n), <- (Z.mod_pow2_bits_low y j n) by lia.
    by rewrite Z.add_comm, Z.mod_add by lia.
  - replace n with (n - j + j) at 1 by lia.
    rewrite <- (Z.shiftr_spec _ j), Z.shiftr_div_pow2 by lia.
    by rewrite Z.div_add_l, Z.div_small, Z.add_0_r by lia.
Qed.

Section Napot.
Context (x h : Z) (Hh : 0 <= h).

#[local] Abbreviation a := ( x * 2 ^ (h + 1) + Z.ones h).

Lemma ones_range : 0 <= Z.ones h < 2 ^ (h + 1).
Proof. rewrite Z.ones_equiv, Z.pow_add_r by lia. pose proof (Z.pow_pos_nonneg 2 h). lia. Qed.

Lemma napot_succ : a + 1 = x * 2 ^ (h + 1) + 2 ^ h.
Proof. rewrite Z.ones_equiv. lia. Qed.

Lemma napot_land : Z.land (a + 1) a = x * 2 ^ (h + 1).
Proof.
  pose proof ones_range. rewrite napot_succ. apply Z.bits_inj'. intros n Hn.
  assert (0 <= 2 ^ h < 2 ^ (h + 1)).
  { rewrite Z.pow_add_r by lia. pose proof (Z.pow_pos_nonneg 2 h). lia. }
  rewrite Z.land_spec. rewrite !testbit_split by lia.
  replace (x * 2 ^ (h + 1)) with (x * 2 ^ (h + 1) + 0) by lia.
  rewrite testbit_split by lia. destruct (Z.ltb_spec n (h + 1)); [|by rewrite andb_diag].
  rewrite Z.pow2_bits_eqb, ones_bit, Z.bits_0 by lia.
  destruct (Z.eqb_spec h n), (Z.ltb_spec n h); lia || done.
Qed.

Lemma napot_lxor : Z.lxor (a + 1) a = Z.ones (h + 1).
Proof.
  pose proof ones_range. rewrite napot_succ. apply Z.bits_inj'. intros n Hn.
  assert (0 <= 2 ^ h < 2 ^ (h + 1)).
  { rewrite Z.pow_add_r by lia. pose proof (Z.pow_pos_nonneg 2 h). lia. }
  rewrite Z.lxor_spec, ones_bit by lia. rewrite !testbit_split by lia.
  destruct (Z.ltb_spec n (h + 1)); [|by rewrite xorb_nilpotent].
  rewrite Z.pow2_bits_eqb, ones_bit by lia.
  destruct (Z.eqb_spec h n), (Z.ltb_spec n h); lia || done.
Qed.
End Napot.

Lemma napot_encoded x k :
  3 <= k -> 0 <= x -> x * 2 ^ k + 2 ^ k <= 2 ^ 64 ->
  pmp_napot_encode (x * 2 ^ k) (2 ^ k) = x * 2 ^ (k - 3 + 1) + Z.ones (k - 3).
Proof.
  intros Hk Hx Hb. unfold pmp_napot_encode.
  assert (Hk1 : 2 ^ k = 2 ^ (k - 1) * 2).
  { change 2 with (2 ^ 1) at 3. rewrite <- Z.pow_add_r by lia. f_equal. lia. }
  assert (Hk2 : 2 ^ (k - 1) = 2 ^ (k - 3) * 4).
  { change 4 with (2 ^ 2). rewrite <- Z.pow_add_r by lia. f_equal. lia. }
  pose proof (Z.pow_pos_nonneg 2 (k - 3) ltac:(lia) ltac:(lia)) as Hpos.
  rewrite Hk1 at 2. rewrite Z.div_mul by lia.
  assert (u64 (2 ^ (k - 1) - 1) = Z.ones (k - 1)) as ->.
  { rewrite Z.ones_equiv. unfold u64. apply Z.mod_small. nia. }
  assert (Z.lor (x * 2 ^ k) (Z.ones (k - 1)) = x * 2 ^ k + Z.ones (k - 1)) as ->.
  { rewrite <- Z.lxor_lor, <- Z.add_nocarry_lxor; [done| |]; apply Z.bits_inj'; intros n Hn;
      rewrite Z.land_spec, Z.bits_0, ones_bit, <- Z.shiftl_mul_pow2, Z.shiftl_spec by lia;
      destruct (Z.ltb_spec n (k - 1)); rewrite ?andb_false_r; try done;
      by rewrite Z.testbit_neg_r by lia. }
  rewrite Z.shiftr_div_pow2 by lia. rewrite !Z.ones_equiv.
  replace (k - 3 + 1) with (k - 2) by lia.
  assert (Hk3 : 2 ^ k = 2 ^ (k - 2) * 4).
  { change 4 with (2 ^ 2). rewrite <- Z.pow_add_r by lia. f_equal. lia. }
  rewrite Hk3, Hk2. symmetry. apply Z.div_unique with 3; [lia|]. lia.
Qed.

(** The encoding of regions for the PMP is a round trip, in the kernel and
    in the user library: for a region of a power of two of at least eight bytes,
    aligned to its size, within the address space, decoding the encoded address
    gives the beginning and the size back. *)
Theorem napot_roundtrip base k :
  3 <= k < 64 -> 0 <= base -> (2 ^ k | base) -> base + 2 ^ k <= 2 ^ 64 ->
  pmp_napot_decode (pmp_napot_encode base (2 ^ k)) = (base, 2 ^ k) /\
  s3k_napot_decode (s3k_napot_encode base (2 ^ k)) = (base, 2 ^ k).
Proof.
  intros Hk Hb [x ->] Hlt.
  change (s3k_napot_decode (s3k_napot_encode (x * 2 ^ k) (2 ^ k)))
    with (pmp_napot_decode (pmp_napot_encode (x * 2 ^ k) (2 ^ k))).
  enough (H : pmp_napot_decode (pmp_napot_encode (x * 2 ^ k) (2 ^ k)) = (x * 2 ^ k, 2 ^ k)) by done.
  assert (Hx : 0 <= x) by (pose proof (Z.pow_pos_nonneg 2 k); nia).
  rewrite napot_encoded by lia. unfold pmp_napot_decode.
  pose proof (ones_range (k - 3) ltac:(lia)) as Hones.
  assert (Hk3 : 2 ^ k = 2 ^ (k - 3 + 1) * 4).
  { change 4 with (2 ^ 2). rewrite <- Z.pow_add_r by lia. f_equal. lia. }
  pose proof (Z.pow_pos_nonneg 2 (k - 3 + 1) ltac:(lia) ltac:(lia)) as Hpos.
  assert (Hu : forall y, 0 <= y < 2 ^ 64 -> u64 y = y) by (intros; by apply Z.mod_small).
  rewrite (Hu (_ + 1)), napot_land, napot_lxor by nia.
  rewrite !Z.shiftl_mul_pow2 by lia. change (2 ^ 2) with 4.
  replace (Z.ones (k - 3 + 1) + 1) with (2 ^ (k - 3 + 1)) by (rewrite Z.ones_equiv; lia).
  assert (2 ^ k < 2 ^ 64) by (apply Z.pow_lt_mono_r; lia).
  rewrite (Hu (2 ^ (k - 3 + 1))) by lia. rewrite <- Z.mul_assoc, <- Hk3. by rewrite !Hu by lia.
Qed.

(** ** Constructors *)

(** A capability of a known type. *)
Section Types.
Implicit Types k : cap_t.

Lemma decode_time k : k⟦cap_type⟧ = CAPTY_TIME ->
  cap_decode k = VTime k⟦time_hart⟧ k⟦time_bgn⟧ k⟦time_mrk⟧ k⟦time_end⟧ /\
  cap_is_valid k = (k⟦time_bgn⟧ <? k⟦time_end⟧) && (k⟦time_bgn⟧ =? k⟦time_mrk⟧).
Proof. unfold cap_decode, cap_is_valid. by intros ->. Qed.

Lemma decode_memory k : k⟦cap_type⟧ = CAPTY_MEMORY ->
  cap_decode k = VMemory k⟦mem_rwx⟧ k⟦mem_lck⟧ k⟦mem_tag⟧ k⟦mem_bgn⟧ k⟦mem_mrk⟧ k⟦mem_end⟧ /\
  cap_is_valid k = (k⟦mem_lck⟧ =? 0) && (k⟦mem_bgn⟧ <? k⟦mem_end⟧) && (k⟦mem_mrk⟧ =? k⟦mem_bgn⟧).
Proof. unfold cap_decode, cap_is_valid. by intros ->. Qed.

Lemma decode_pmp k : k⟦cap_type⟧ = CAPTY_PMP ->
  cap_decode k = VPmp k⟦pmp_rwx⟧ k⟦pmp_used⟧ k⟦pmp_slot⟧ k⟦pmp_addr⟧ /\
  cap_is_valid k = (k⟦pmp_used⟧ =? 0) && (k⟦pmp_slot⟧ =? 0).
Proof. unfold cap_decode, cap_is_valid. by intros ->. Qed.

Lemma decode_monitor k : k⟦cap_type⟧ = CAPTY_MONITOR ->
  cap_decode k = VMonitor k⟦mon_bgn⟧ k⟦mon_mrk⟧ k⟦mon_end⟧ /\
  cap_is_valid k = (k⟦mon_bgn⟧ <? k⟦mon_end⟧) && (k⟦mon_bgn⟧ =? k⟦mon_mrk⟧).
Proof. unfold cap_decode, cap_is_valid. by intros ->. Qed.

Lemma decode_channel k : k⟦cap_type⟧ = CAPTY_CHANNEL ->
  cap_decode k = VChannel k⟦chan_bgn⟧ k⟦chan_mrk⟧ k⟦chan_end⟧ /\
  cap_is_valid k = (k⟦chan_bgn⟧ <? k⟦chan_end⟧) && (k⟦chan_bgn⟧ =? k⟦chan_mrk⟧).
Proof. unfold cap_decode, cap_is_valid. by intros ->. Qed.

Lemma decode_socket k : k⟦cap_type⟧ = CAPTY_SOCKET ->
  cap_decode k = VSocket k⟦sock_mode⟧ k⟦sock_perm⟧ k⟦sock_chan⟧ k⟦sock_tag⟧ /\
  cap_is_valid k = (k⟦sock_mode⟧ =? IPC_YIELD) || (k⟦sock_mode⟧ =? IPC_NOYIELD).
Proof. unfold cap_decode, cap_is_valid. by intros ->. Qed.
End Types.

Section Constructors.
Context `{C : Config} {Cok : ConfigOk C} {St : Type}.

(** The kernel's constructor succeeds, with the same contents as the user's, and
    the kernel takes the user's as a description of a capability. *)
Definition builds (m : M St cap_t) (k : cap_t) : Prop :=
  (forall s, exists k', m s = Done k' s /\ cap_decode k' = cap_decode k) /\
  cap_is_valid k = true.

Lemma kassert_true b (k : unit -> M St cap_t) s : b = true -> bind (kassert b) k s = k tt s.
Proof. by intros ->. Qed.

Ltac asserts := repeat (rewrite kassert_true by (repeat case_match; breflect; lia)).
Ltac typed := autorewrite with fields; reflexivity.
Ltac known D :=
  first [ rewrite !(fun k H => proj1 (D k H)) by typed | rewrite (fun k H => proj2 (D k H)) by typed ];
  autorewrite with fields; try reflexivity.

Lemma build_time u hart bgn end_ :
  S3K_MIN_HART <= hart <= S3K_MAX_HART -> 0 <= bgn < end_ -> end_ <= S3K_SLOT_CNT ->
  builds (cap_mk_time u hart bgn end_) (s3k_mk_time hart bgn end_).
Proof.
  intros Hh Hb He. config_bounds. unfold cap_mk_time, s3k_mk_time.
  assert (u8 hart = hart) as -> by (apply Z.mod_small; lia).
  assert (u16 bgn = bgn) as -> by (apply Z.mod_small; lia).
  assert (u16 end_ = end_) as -> by (apply Z.mod_small; lia).
  split.
  - intros s. eexists. split; [asserts; reflexivity|].
    known decode_time.
  - known decode_time. cbn [f_wid time_bgn time_end time_mrk].
    rewrite !Z.mod_small by lia. rewrite Z.eqb_refl, andb_true_r. apply Z.ltb_lt. lia.
Qed.

Lemma build_monitor u bgn end_ :
  0 <= bgn < end_ -> end_ <= S3K_PROC_CNT ->
  builds (cap_mk_monitor u bgn end_) (s3k_mk_monitor bgn end_).
Proof.
  intros Hb He. config_bounds. unfold cap_mk_monitor, s3k_mk_monitor.
  assert (u16 bgn = bgn) as -> by (apply Z.mod_small; lia).
  assert (u16 end_ = end_) as -> by (apply Z.mod_small; lia).
  split.
  - intros s. eexists. split; [asserts; reflexivity|]. known decode_monitor.
  - known decode_monitor. cbn [f_wid mon_bgn mon_end mon_mrk].
    rewrite !Z.mod_small by lia. rewrite Z.eqb_refl, andb_true_r. apply Z.ltb_lt. lia.
Qed.

Lemma build_channel u bgn end_ :
  0 <= bgn < end_ -> end_ <= S3K_CHAN_CNT ->
  builds (cap_mk_channel u bgn end_) (s3k_mk_channel bgn end_).
Proof.
  intros Hb He. config_bounds. unfold cap_mk_channel, s3k_mk_channel.
  assert (u16 bgn = bgn) as -> by (apply Z.mod_small; lia).
  assert (u16 end_ = end_) as -> by (apply Z.mod_small; lia).
  split.
  - intros s. eexists. split; [asserts; reflexivity|]. known decode_channel.
  - known decode_channel. cbn [f_wid chan_bgn chan_end chan_mrk].
    rewrite !Z.mod_small by lia. rewrite Z.eqb_refl, andb_true_r. apply Z.ltb_lt. lia.
Qed.

Lemma build_socket u chan mode perm tag :
  mode = IPC_YIELD \/ mode = IPC_NOYIELD ->
  builds (cap_mk_socket u chan mode perm tag) (s3k_mk_socket chan mode perm tag).
Proof.
  intros Hm. unfold cap_mk_socket, s3k_mk_socket. split.
  - intros s. eexists. split; [reflexivity|]. known decode_socket.
  - known decode_socket. by destruct Hm as [-> | ->].
Qed.

Lemma build_pmp u addr rwx :
  0 <= addr < 2 ^ 40 -> builds (cap_mk_pmp u addr rwx) (s3k_mk_pmp addr rwx).
Proof.
  intros Ha. unfold cap_mk_pmp, s3k_mk_pmp.
  assert (u64 addr = addr) as -> by (apply Z.mod_small; lia).
  assert (Z.land addr 0xFFFFFFFFFF = addr) as ->.
  { change 0xFFFFFFFFFF with (Z.ones 40). rewrite Z.land_ones by lia. by apply Z.mod_small. }
  split.
  - intros s. eexists. split; [reflexivity|]. known decode_pmp. f_equal.
    cbn [f_wid pmp_rwx]. change 7 with (Z.ones 3). rewrite Z.land_ones by lia. by rewrite Z.mod_mod.
  - known decode_pmp.
Qed.

(** The computation in type [int] is off by a multiple of 4 GiB, which does not
    show in the 16 bits of a block number. *)
Lemma tag_base_eq t : exists m, tag_base t = t * 2 ^ 27 + m * 2 ^ 32.
Proof.
  unfold tag_base, s32, u32, MAX_BLOCK_SIZE. rewrite Z.shiftl_mul_pow2 by lia.
  pose proof (Z.div_mod (t * 2 ^ 27) (2 ^ 32) ltac:(lia)).
  destruct (_ <? _); [exists (- (t * 2 ^ 27 / 2 ^ 32))|exists (- (t * 2 ^ 27 / 2 ^ 32) - 1)]; lia.
Qed.

Lemma block_eq a t : 0 <= t < 2 ^ 8 -> t * 2 ^ 27 <= a <= (t + 1) * 2 ^ 27 ->
  u16 (Z.shiftr (u64 (u64 a - tag_base t)) MIN_BLOCK_SIZE) =
  Z.shiftr (u64 (a - u64 (Z.shiftl t MAX_BLOCK_SIZE))) MIN_BLOCK_SIZE /\
  0 <= Z.shiftr (u64 (a - u64 (Z.shiftl t MAX_BLOCK_SIZE))) MIN_BLOCK_SIZE < 2 ^ 16 /\
  Z.shiftr (u64 (a - u64 (Z.shiftl t MAX_BLOCK_SIZE))) MIN_BLOCK_SIZE = (a - t * 2 ^ 27) / 2 ^ 12.
Proof.
  intros Ht Ha. destruct (tag_base_eq t) as [m Em]. rewrite Em.
  unfold MAX_BLOCK_SIZE, MIN_BLOCK_SIZE. rewrite Z.shiftl_mul_pow2, !Z.shiftr_div_pow2 by lia.
  assert (u64 (t * 2 ^ 27) = t * 2 ^ 27) as -> by (apply Z.mod_small; lia).
  assert (u64 (a - t * 2 ^ 27) = a - t * 2 ^ 27) as -> by (apply Z.mod_small; lia).
  assert (Hr : 0 <= (a - t * 2 ^ 27) / 2 ^ 12 < 2 ^ 16).
  { split; [apply Z.div_pos; lia|apply Z.div_lt_upper_bound; lia]. }
  split; [|done].
  assert (u64 a = a) as -> by (apply Z.mod_small; lia).
  unfold u64. rewrite Z.mod_eq by lia.
  set (c := (a - (t * 2 ^ 27 + m * 2 ^ 32)) / 2 ^ 64).
  replace (a - (t * 2 ^ 27 + m * 2 ^ 32) - 2 ^ 64 * c)
    with ((- m * 2 ^ 20 - c * 2 ^ 52) * 2 ^ 12 + (a - t * 2 ^ 27)) by lia.
  rewrite Z.div_add_l by lia. unfold u16.
  replace (- m * 2 ^ 20 - c * 2 ^ 52 + (a - t * 2 ^ 27) / 2 ^ 12)
    with ((a - t * 2 ^ 27) / 2 ^ 12 + (- m * 2 ^ 4 - c * 2 ^ 36) * 2 ^ 16) by lia.
  rewrite Z.mod_add by lia. by apply Z.mod_small.
Qed.

Lemma build_memory u bgn end_ rwx :
  0 <= bgn < 2 ^ 35 -> bgn + 2 ^ 12 <= end_ -> end_ <= (bgn / 2 ^ 27 + 1) * 2 ^ 27 ->
  builds (cap_mk_memory u bgn end_ rwx) (s3k_mk_memory bgn end_ rwx).
Proof.
  intros Hb He Ht. unfold cap_mk_memory, s3k_mk_memory.
  set (t := bgn / 2 ^ 27) in *.
  assert (Htr : 0 <= t < 2 ^ 8).
  { split; [apply Z.div_pos; lia|apply Z.div_lt_upper_bound; lia]. }
  pose proof (Z.div_mod bgn (2 ^ 27) ltac:(lia)) as Hdm. fold t in Hdm.
  pose proof (Z.mod_pos_bound bgn (2 ^ 27) ltac:(lia)).
  assert (u64 bgn = bgn) as Eb by (apply Z.mod_small; lia).
  assert (u64 end_ = end_) as Ee by (apply Z.mod_small; lia).
  assert (Et : Z.shiftr bgn MAX_BLOCK_SIZE = t).
  { unfold MAX_BLOCK_SIZE. by rewrite Z.shiftr_div_pow2 by lia. }
  rewrite Eb, Ee, Et.
  assert (Eu : u8 t = t) by (apply Z.mod_small; lia). rewrite Eu.
  destruct (block_eq bgn t Htr ltac:(lia)) as (B1 & B2 & B3). rewrite Eb in B1. rewrite B1.
  destruct (block_eq end_ t Htr ltac:(lia)) as (E1 & E2 & E3). rewrite Ee in E1. rewrite E1.
  rewrite B3, E3 in *.
  assert (Hlt : (bgn - t * 2 ^ 27) / 2 ^ 12 < (end_ - t * 2 ^ 27) / 2 ^ 12).
  { apply Z.lt_le_trans with ((bgn - t * 2 ^ 27 + 1 * 2 ^ 12) / 2 ^ 12).
    - rewrite Z.div_add by lia. lia.
    - apply Z.div_le_mono; lia. }
  split.
  - intros s. eexists. split.
    { rewrite kassert_true by (apply Z.ltb_lt; lia). rewrite kassert_true; [reflexivity|].
      apply Z.leb_le. unfold MAX_BLOCK_SIZE. rewrite Z.shiftl_mul_pow2 by lia.
      assert (u64 (t + 1) = t + 1) as -> by (apply Z.mod_small; lia).
      assert (u64 ((t + 1) * 2 ^ 27) = (t + 1) * 2 ^ 27) as -> by (apply Z.mod_small; lia). lia. }
    known decode_memory. cbn [f_wid mem_bgn mem_mrk]. by rewrite Z.mod_mod.
  - revert Hlt B2 E2. generalize ((bgn - t * 2 ^ 27) / 2 ^ 12) ((end_ - t * 2 ^ 27) / 2 ^ 12).
    intros x y Hlt B2 E2. known decode_memory. cbn [f_wid mem_bgn mem_end mem_mrk].
    rewrite !(Z.mod_small x), !(Z.mod_small y) by lia.
    rewrite (Z.eqb_refl x), andb_true_r. by apply Z.ltb_lt.
Qed.
End Constructors.

(** ** Predicting derivations *)

(** Where the predicate of the user library is exact.  It compares the beginning
    of a time capability instead of its mark, ignores the lock of a memory
    capability, takes the size of a PMP region for its end, and wants the first
    socket of a channel to be a server's. *)
Record predictable (p k : cap_t) : Prop := {
  pr_time : p⟦cap_type⟧ = CAPTY_TIME -> p⟦time_mrk⟧ = p⟦time_bgn⟧;
  pr_lock : p⟦cap_type⟧ = CAPTY_MEMORY -> p⟦mem_lck⟧ = 0;
  pr_pmp : p⟦cap_type⟧ = CAPTY_MEMORY -> k⟦cap_type⟧ <> CAPTY_PMP;
  pr_server : p⟦cap_type⟧ = CAPTY_CHANNEL -> k⟦cap_type⟧ = CAPTY_SOCKET -> k⟦sock_tag⟧ = 0
}.

Definition is_some {A} (o : option A) : bool := match o with Some _ => true | None => false end.

Ltac bools := apply eq_true_iff_eq; rewrite ?andb_true_iff, ?negb_true_iff, ?Z.eqb_eq, ?Z.eqb_neq,
  ?Z.leb_le, ?Z.ltb_lt.

Lemma derive_predicted p k :
  predictable p k -> is_some (derive_mark p k) = s3k_cap_is_derivable p k.
Proof.
  intros [P1 P2 P3 P4]. unfold derive_mark, s3k_cap_is_derivable.
  destruct (Z.eqb_spec p⟦cap_type⟧ CAPTY_TIME) as [E|_].
  { specialize (P1 E). transitivity (time_derivable p k); [by destruct (time_derivable p k)|].
    unfold time_derivable, s3k_cap_time_derivable, is_range_prefix. bools. rewrite P1. lia. }
  destruct (Z.eqb_spec p⟦cap_type⟧ CAPTY_MEMORY) as [E|_].
  { specialize (P2 E). specialize (P3 E). apply Z.eqb_neq in P3.
    transitivity (mem_derivable p k).
    { unfold pmp_derivable. rewrite P3. by destruct (mem_derivable p k). }
    unfold s3k_cap_mem_derivable. rewrite P3.
    unfold mem_derivable, is_range_subset, is_bit_subset. bools. rewrite P2. intuition lia. }
  destruct (Z.eqb_spec p⟦cap_type⟧ CAPTY_MONITOR) as [E|_].
  { transitivity (mon_derivable p k); [by destruct (mon_derivable p k)|].
    unfold mon_derivable, s3k_cap_mon_derivable, is_range_subset. bools. intuition lia. }
  destruct (Z.eqb_spec p⟦cap_type⟧ CAPTY_CHANNEL) as [E|_].
  { transitivity (chan_derivable p k || server_derivable p k).
    { by destruct (chan_derivable p k), (server_derivable p k). }
    specialize (P4 E). unfold s3k_cap_chan_derivable, chan_derivable, server_derivable.
    destruct (Z.eqb_spec k⟦cap_type⟧ CAPTY_SOCKET) as [Ek|_].
    - rewrite Ek, (P4 Ek). unfold is_range_subset. bools. cbn. lia.
    - cbn [andb]. rewrite orb_false_r. unfold is_range_subset. bools. intuition lia. }
  destruct (Z.eqb_spec p⟦cap_type⟧ CAPTY_SOCKET) as [E|_]; [|done].
  transitivity (client_derivable p k); [by destruct (client_derivable p k)|].
  unfold client_derivable, s3k_cap_sock_derivable. bools. intuition lia.
Qed.

Section Agreement.
Context `{C : Config} {Cok : ConfigOk C}.

(** The constructors of the user library describe the capabilities that
    the constructors of the kernel make: within the ranges the kernel asserts,
    both give the same contents whatever the padding bits hold, for addresses
    below 32 GiB and PMP addresses of 40 bits, and the kernel accepts the
    description as valid. *)
Theorem constructors_agree (u : cap_t) :
  (forall hart bgn end_, S3K_MIN_HART <= hart <= S3K_MAX_HART ->
     0 <= bgn < end_ -> end_ <= S3K_SLOT_CNT ->
     builds (St := kstate) (cap_mk_time u hart bgn end_) (s3k_mk_time hart bgn end_)) /\
  (forall bgn end_ rwx, 0 <= bgn < 2 ^ 35 -> bgn + 2 ^ 12 <= end_ ->
     end_ <= (bgn / 2 ^ 27 + 1) * 2 ^ 27 ->
     builds (St := kstate) (cap_mk_memory u bgn end_ rwx) (s3k_mk_memory bgn end_ rwx)) /\
  (forall addr rwx, 0 <= addr < 2 ^ 40 ->
     builds (St := kstate) (cap_mk_pmp u addr rwx) (s3k_mk_pmp addr rwx)) /\
  (forall bgn end_, 0 <= bgn < end_ -> end_ <= S3K_PROC_CNT ->
     builds (St := kstate) (cap_mk_monitor u bgn end_) (s3k_mk_monitor bgn end_)) /\
  (forall bgn end_, 0 <= bgn < end_ -> end_ <= S3K_CHAN_CNT ->
     builds (St := kstate) (cap_mk_channel u bgn end_) (s3k_mk_channel bgn end_)) /\
  (forall chan mode perm tag, mode = IPC_YIELD \/ mode = IPC_NOYIELD ->
     builds (St := kstate) (cap_mk_socket u chan mode perm tag) (s3k_mk_socket chan mode perm tag)).
Proof.
  repeat split_and!; intros; [by apply build_time|by apply build_memory|by apply build_pmp
    |by apply build_monitor|by apply build_channel|by apply build_socket].
Qed.

(** The user library predicts derivations: for a parent and a description
    on which its predicate is exact, [cap_derive] to a free entry succeeds when
    [s3k_cap_is_derivable] holds, and otherwise returns [ERR_INVALID_DERIVATION]
    and changes nothing. *)
Theorem derivable_predicts s v src dst k :
  sees s v -> in_table src -> in_table dst -> empty (v_cap v src) = false ->
  empty (v_cap v dst) = true -> word_ok k = true -> cap_is_valid k = true ->
  predictable (v_cap v src) k ->
  wp (cap_derive src dst k) (fun e s' =>
    if s3k_cap_is_derivable (v_cap v src) k then e = SUCCESS
    else e = ERR_INVALID_DERIVATION /\ sees s' v) s.
Proof.
  intros Hs Hsrc Hdst Es Ed Hw Hk Hp. rewrite <- (derive_predicted _ _ Hp).
  eapply see_cap_derive; [done..|]. intros s' Hs'. unfold a_derive in *. rewrite Es, Ed in *.
  cbn [negb] in *. by destruct (derive_mark _ _).
Qed.
End Agreement.

(** ** Witnesses and counterexamples *)

Section Boot1.
#[local] Existing Instance qemu_virt.

Example napot_roundtrip_witness :
  pmp_napot_decode (pmp_napot_encode 0x80010000 (2 ^ 16)) = (0x80010000, 2 ^ 16) /\
  s3k_napot_decode (s3k_napot_encode 0x80010000 (2 ^ 16)) = (0x80010000, 2 ^ 16).
Proof. apply (napot_roundtrip 0x80010000 16); [lia|lia|by exists 0x8001|lia]. Defined.

Example constructors_agree_witness :
  builds (St := kstate) (cap_mk_memory U64_MAX 0x80020000 0x88000000 MEM_RWX)
    (s3k_mk_memory 0x80020000 0x88000000 MEM_RWX).
Proof.
  apply (proj1 (proj2 (constructors_agree U64_MAX))); [lia|lia|vm_compute; intuition congruence].
Defined.

Example derivable_predicts_witness :
  wp (cap_derive 4 10 half_time) (fun e s' =>
    if s3k_cap_is_derivable (v_cap (view_of boot1 (Some list1)) 4) half_time then e = SUCCESS
    else e = ERR_INVALID_DERIVATION /\ sees s' (view_of boot1 (Some list1))) boot1.
Proof.
  apply (derivable_predicts boot1 (view_of boot1 (Some list1)) 4 10 half_time);
    [apply boot1_sees|vm_compute; intuition congruence..| |].
  all: try (vm_compute; reflexivity).
  split; vm_compute; intuition congruence.
Defined.

(** The ends of the region are not compared: the user library takes a region of
    4 KiB at 2 GiB for one that ends at 4 KiB, and expects success for an address
    outside of the parent. *)
Definition page_pmp : cap_t := s3k_mk_pmp (s3k_napot_encode 0x88000000 4096) MEM_R.

Example pmp_mispredicted :
  let parent := s3k_mk_memory 0x80020000 0x88000000 MEM_RWX in
  s3k_cap_is_derivable parent page_pmp = true /\ derive_mark parent page_pmp = None.
Proof. by vm_compute. Qed.

(** A blocked process's channel is at bit 48 of its state, not at bit 32. *)
Example blocked_channel_lost : s3k_is_blocked (blocked_on 1) = (true, 0).
Proof. by vm_compute. Qed.
End Boot1.
