(* ===== verification/UserSyscall.v ===== *)
(** * The user library: system calls

    [common/src/s3k/syscall.c]: the wrappers with which user code enters the
    kernel.  The [ecall] instruction is a parameter: it takes the number of the
    call in [t0] and the argument registers [a0] to [a7], and returns both.
    [DO_ECALL] passes only the registers its argument block covers; what the
    others hold is the parameter [junk].  The wrappers that call again while the
    kernel reports a preemption take fuel. *)

From S2P Require Import Prelude Config CapTypes KState Syscall.

(** [sys_args_t], as far as the members of the union cover it. *)
Definition sys_args : Type := list Z.

(** [s3k_ret_t] *)
Record s3k_ret := S3kRet { r_err : Z; r_val : Z }.

(** [s3k_msg_t] *)
Record s3k_msg := S3kMsg { msg_cap_idx : Z; msg_send_cap : bool; msg_data : list Z }.

(** [s3k_reply_t] *)
Record s3k_reply := S3kReply { rep_err : Z; rep_tag : Z; rep_cap : Z; rep_data : list Z }.

Definition S3K_ERR_PREEMPTED : Z := 16.

Definition bool_u64 (b : bool) : Z := if b then 1 else 0.

Section Wrappers.
Context {W : Type} (ecall : Z -> list Z -> M W (Z * list Z)) (junk : list Z).

(** [DO_ECALL(call, args, sizeof(args.member))]; the error is an enumeration
    of 32 bits. *)
Definition do_ecall (call : Z) (args : sys_args) : M W s3k_ret :=
  let* r := ecall call (args ++ drop (length args) junk) in
  let* a0 := array_get (snd r) 0 in
  ret (S3kRet (u32 (fst r)) a0).

Definition get_val (call : Z) (args : sys_args) : M W Z :=
  let* r := do_ecall call args in ret (r_val r).
Definition get_err (call : Z) (args : sys_args) : M W Z :=
  let* r := do_ecall call args in ret (r_err r).
(** An error, and a value stored through a pointer. *)
Definition get_both (call : Z) (args : sys_args) : M W (Z * Z) :=
  let* r := do_ecall call args in ret (r_err r, r_val r).

Definition s3k_get_pid : M W Z := get_val SYS_GET_INFO [0].
Definition s3k_get_time : M W Z := get_val SYS_GET_INFO [1].
Definition s3k_get_timeout : M W Z := get_val SYS_GET_INFO [2].
Definition s3k_reg_read (reg : Z) : M W Z := get_val SYS_REG_READ [u32 reg].
Definition s3k_reg_write (reg val : Z) : M W Z := get_val SYS_REG_WRITE [u32 reg; u64 val].
Definition s3k_sync : M W unit := do* do_ecall SYS_SYNC [bool_u64 true] in ret tt.
Definition s3k_sync_mem : M W unit := do* do_ecall SYS_SYNC [bool_u64 false] in ret tt.
Definition s3k_sleep (time : Z) : M W unit := do* do_ecall SYS_SLEEP [u64 time] in ret tt.
Definition s3k_cap_read (idx : Z) : M W (Z * Z) := get_both SYS_CAP_READ [u16 idx].

(** ** One attempt *)

Definition s3k_try_cap_move (src dst : Z) : M W Z :=
  get_err SYS_CAP_MOVE [u16 src; u16 dst].
Definition s3k_try_cap_delete (idx : Z) : M W Z := get_err SYS_CAP_DELETE [u16 idx].
Definition s3k_try_cap_revoke (idx : Z) : M W Z := get_err SYS_CAP_REVOKE [u16 idx].
Definition s3k_try_cap_derive (src dst : Z) (ncap : cap_t) : M W Z :=
  get_err SYS_CAP_DERIVE [u16 src; u16 dst; ncap].
Definition s3k_try_pmp_load (idx slot : Z) : M W Z :=
  get_err SYS_PMP_LOAD [u16 idx; u8 slot].
Definition s3k_try_pmp_unload (idx : Z) : M W Z := get_err SYS_PMP_UNLOAD [u16 idx].
Definition s3k_try_mon_suspend (mon pid : Z) : M W Z :=
  get_err SYS_MON_SUSPEND [u16 mon; u16 pid].
Definition s3k_try_mon_resume (mon pid : Z) : M W Z :=
  get_err SYS_MON_RESUME [u16 mon; u16 pid].
Definition s3k_try_mon_state_get (mon pid : Z) : M W (Z * Z) :=
  get_both SYS_MON_STATE_GET [u16 mon; u16 pid].
Definition s3k_try_mon_yield (mon pid : Z) : M W Z :=
  get_err SYS_MON_YIELD [u16 mon; u16 pid].
Definition s3k_try_mon_reg_read (mon pid reg : Z) : M W (Z * Z) :=
  get_both SYS_MON_REG_READ [u16 mon; u16 pid; u32 reg].
Definition s3k_try_mon_reg_write (mon pid reg val : Z) : M W Z :=
  get_err SYS_MON_REG_WRITE [u16 mon; u16 pid; u32 reg; u64 val].
(** The capability is stored only when there is no error. *)
Definition s3k_try_mon_cap_read (mon pid idx : Z) : M W (Z * option cap_t) :=
  let* r := do_ecall SYS_MON_CAP_READ [u16 mon; u16 pid; u16 idx] in
  ret (r_err r, if r_err r =? 0 then Some (r_val r) else None).
Definition s3k_try_mon_cap_move (mon src_pid src_idx dst_pid dst_idx : Z) : M W Z :=
  get_err SYS_MON_CAP_MOVE [u16 mon; u16 src_pid; u16 src_idx; u16 dst_pid; u16 dst_idx].
Definition s3k_try_mon_pmp_load (mon pid idx slot : Z) : M W Z :=
  get_err SYS_MON_PMP_LOAD [u16 mon; u16 pid; u16 idx; u8 slot].
Definition s3k_try_mon_pmp_unload (mon pid idx : Z) : M W Z :=
  get_err SYS_MON_PMP_UNLOAD [u16 mon; u16 pid; u16 idx].

(** The argument block of the socket calls. *)
Definition sock_args (sock_idx : Z) (msg : s3k_msg) : M W sys_args :=
  let* d0 := array_get (msg_data msg) 0 in
  let* d1 := array_get (msg_data msg) 1 in
  let* d2 := array_get (msg_data msg) 2 in
  let* d3 := array_get (msg_data msg) 3 in
  ret [u16 sock_idx; u16 (msg_cap_idx msg); bool_u64 (msg_send_cap msg); d0; d1; d2; d3].

Definition s3k_try_sock_send (sock_idx : Z) (msg : s3k_msg) : M W Z :=
  let* args := sock_args sock_idx msg in get_err SYS_SOCK_SEND args.

(** The reply is taken from [t0] and [a0] to [a5]; all of [a0] to [a7] are
    passed, but the block covers seven of them. *)
Definition get_reply (call : Z) (args : sys_args) : M W s3k_reply :=
  let* r := ecall call (args ++ drop (length args) junk) in
  let* a0 := array_get (snd r) 0 in
  let* a1 := array_get (snd r) 1 in
  let* a2 := array_get (snd r) 2 in
  let* a3 := array_get (snd r) 3 in
  let* a4 := array_get (snd r) 4 in
  let* a5 := array_get (snd r) 5 in
  ret (S3kReply (u32 (fst r)) (u32 a0) a1 [a2; a3; a4; a5]).

Definition s3k_try_sock_recv (sock_idx cap_idx : Z) : M W s3k_reply :=
  get_reply SYS_SOCK_RECV [u16 sock_idx; u16 cap_idx; 0; 0; 0; 0; 0].
Definition s3k_try_sock_sendrecv (sock_idx : Z) (msg : s3k_msg) : M W s3k_reply :=
  let* args := sock_args sock_idx msg in get_reply SYS_SOCK_SENDRECV args.

(** ** Until the kernel is not preempted *)

(** [do r = try(); while (err(r) == S3K_ERR_PREEMPTED);] *)
Fixpoint retry {A} (fuel : nat) (err : A -> Z) (try_ : M W A) : M W A :=
  match fuel with
  | O => fail OutOfFuel
  | S fuel =>
      let* r := try_ in
      if err r =? S3K_ERR_PREEMPTED then retry fuel err try_ else ret r
  end.

Context (fuel : nat).

Definition s3k_cap_move (src dst : Z) : M W Z := retry fuel id (s3k_try_cap_move src dst).
Definition s3k_cap_delete (idx : Z) : M W Z := retry fuel id (s3k_try_cap_delete idx).
Definition s3k_cap_revoke (idx : Z) : M W Z := retry fuel id (s3k_try_cap_revoke idx).
Definition s3k_cap_derive (src dst : Z) (ncap : cap_t) : M W Z :=
  retry fuel id (s3k_try_cap_derive src dst ncap).
Definition s3k_pmp_load (idx slot : Z) : M W Z := retry fuel id (s3k_try_pmp_load idx slot).
Definition s3k_pmp_unload (idx : Z) : M W Z := retry fuel id (s3k_try_pmp_unload idx).
Definition s3k_mon_suspend (mon pid : Z) : M W Z :=
  retry fuel id (s3k_try_mon_suspend mon pid).
Definition s3k_mon_resume (mon pid : Z) : M W Z :=
  retry fuel id (s3k_try_mon_resume mon pid).
Definition s3k_mon_state_get (mon pid : Z) : M W (Z * Z) :=
  retry fuel fst (s3k_try_mon_state_get mon pid).
Definition s3k_mon_yield (mon pid : Z) : M W Z := retry fuel id (s3k_try_mon_yield mon pid).
Definition s3k_mon_reg_read (mon pid reg : Z) : M W (Z * Z) :=
  retry fuel fst (s3k_try_mon_reg_read mon pid reg).
Definition s3k_mon_reg_write (mon pid reg val : Z) : M W Z :=
  retry fuel id (s3k_try_mon_reg_write mon pid reg val).
Definition s3k_mon_cap_read (mon pid idx : Z) : M W (Z * option cap_t) :=
  retry fuel fst (s3k_try_mon_cap_read mon pid idx).
Definition s3k_mon_cap_move (mon src_pid src_idx dst_pid dst_idx : Z) : M W Z :=
  retry fuel id (s3k_try_mon_cap_move mon src_pid src_idx dst_pid dst_idx).
Definition s3k_mon_pmp_load (mon pid idx slot : Z) : M W Z :=
  retry fuel id (s3k_try_mon_pmp_load mon pid idx slot).
Definition s3k_mon_pmp_unload (mon pid idx : Z) : M W Z :=
  retry fuel id (s3k_try_mon_pmp_unload mon pid idx).
Definition s3k_sock_send (sock_idx : Z) (msg : s3k_msg) : M W Z :=
  retry fuel id (s3k_try_sock_send sock_idx msg).
Definition s3k_sock_recv (sock_idx cap_idx : Z) : M W s3k_reply :=
  retry fuel rep_err (s3k_try_sock_recv sock_idx cap_idx).
Definition s3k_sock_sendrecv (sock_idx : Z) (msg : s3k_msg) : M W s3k_reply :=
  retry fuel rep_err (s3k_try_sock_sendrecv sock_idx msg).
End Wrappers.
