(* ===== verification/SystemTheorems.v ===== *)
(** * The kernel as a whole

    Safety of traps and system calls, the authority of their effects, and the
    isolation of processes in every reachable state. *)

From S2P Require Import Prelude Config CapTypes CapTable CapList KState Proc Sched.
From S2P Require Import Channel CapOps CapPmp CapIpc CapMonitor Syscall Trap Invariant.
From S2P Require Import View Spec Refine Steps Revoke IpcSafe SyscallSafe SchedSafe.
From S2P Require Import Machine PmpInv Authority Integrity KernelInit Boot.

Section Isolation.
Context `{C : Config} {Cok : ConfigOk C}.

(** What the PMP registers of a process allow: some entry that is not off
    covers the byte, and has the bit of the right (read, write, execute). *)
Definition pmp_allows (x : proc_t) (a b : Z) : Prop :=
  exists j cfg addr, lookupZ (p_pmpcfg x) j = Some cfg /\ lookupZ (p_pmpaddr x) j = Some addr /\
    cfg <> 0 /\ in_region addr a /\ Z.testbit cfg b = true.

(** The loaded capability behind an access. *)
Lemma backed_allows v q a b :
  backed v -> valid_proc q -> 0 <= b < 3 -> pmp_allows (v_proc v q) a b ->
  exists c, in_table c /\ cte_pid c = q /\ (v_cap v c)⟦cap_type⟧ = CAPTY_PMP /\
    grants (v_cap v c) (PMem a b).
Proof.
  intros [Hlen Hcap Hreg Hone] Hq Hb (j & cfg & addr & Ec & Ea & Hne & Hin & Hbit).
  pose proof (lookupZ_Some_range _ _ _ Ec) as Hj. destruct (Hlen q Hq) as [L1 L2].
  assert (Ecfg : cfg_at v q j = cfg) by (unfold cfg_at; by rewrite Ec).
  assert (Eaddr : addr_at v q j = addr) by (unfold addr_at; by rewrite Ea).
  destruct (Hreg q j Hq) as (c & Hl & <-); [lia|congruence|].
  destruct (Hcap c j Hl) as (_ & E1 & E2). destruct Hl as (Hc & Hload & _).
  unfold pmp_loaded in Hload. breflect. destruct Hload as [Ety _].
  exists c. split; [done|]. split; [done|]. split; [done|]. right. split; [done|].
  rewrite <- E2, Eaddr. split; [done|]. rewrite <- Ecfg, E1 in Hbit. unfold pmp_cfg, u8 in Hbit.
  rewrite Z.mod_pow2_bits_low, Z.lor_spec in Hbit by lia.
  assert (E24 : Z.testbit 24 b = false).
  { assert (b = 0 \/ b = 1 \/ b = 2) as [-> | [-> | ->]] by lia; done. }
  by rewrite E24, orb_false_r in Hbit.
Qed.

(** [C1]: Memory isolation: whatever the processes do, in every state the machine
    reaches by their steps and by the traps that return, the PMP registers of a
    process allow only accesses that a PMP capability in its own table grants, and
    that a capability of the initial state granted. The traps are all those, of
    any cause and with any words as arguments, that the kernel handles without a
    fault; it faults only where a number of a system call is used at full width
    and is wider than the width it is checked at ([trap_handler_safe],
    [SyscallTheorems.wide_register_read]), and then nothing is said. *)
Theorem memory_isolation m m' v q x a b :
  current (m_kernel m) v (m_cur m) -> caps_sound v -> backed v -> rtc mstep m m' ->
  lookupZ (procs (m_kernel m')) q = Some x -> 0 <= b < 3 -> pmp_allows x a b ->
  (exists c, in_table c /\ cte_pid c = q /\
     (cap_at (ctable (m_kernel m')) c)⟦cap_type⟧ = CAPTY_PMP /\
     grants (cap_at (ctable (m_kernel m')) c) (PMem a b)) /\
  (exists c0, in_table c0 /\ grants (v_cap v c0) (PMem a b)).
Proof.
  intros Cur Hsound Hb Hst Hx Hbit Hal.
  destruct (reachable_steps _ _ _ Cur Hst) as (v' & [Hs' _ _] & Hsteps).
  pose proof (wf_procs _ (sees_wf _ _ Hs')) as [Hlen _].
  assert (Hq : valid_proc q) by (apply lookupZ_Some_range in Hx; unfold valid_proc; lia).
  rewrite (sees_proc _ _ Hs' q Hq) in Hx. injection Hx as <-.
  destruct (backed_allows v' q a b) as (c & Hc & Hpid & Ety & Hg); [by eapply backed_steps|done..|].
  split.
  - exists c. by rewrite (sees_cap _ _ Hs').
  - pose proof (authority_steps (fun x => exists c0, in_table c0 /\ grants (v_cap v c0) x)
      v v' Hsteps Hsound) as HG.
    apply (HG ltac:(intros c0 x Hc0 Hx; by exists c0) c); [done|done].
Qed.

(** [C3]: Confinement of authority: in every state the machine reaches by steps of
    the processes and by traps that return, every capability of the table grants
    only permissions that some capability of the initial state granted. A trap
    that faults, on a number that is wider than it is checked at, has no next
    state, and nothing is said of what the program does then. *)
Theorem authority_confined m m' v c x :
  current (m_kernel m) v (m_cur m) -> caps_sound v -> rtc mstep m m' ->
  in_table c -> grants (cap_at (ctable (m_kernel m')) c) x ->
  exists c0, in_table c0 /\ grants (v_cap v c0) x.
Proof.
  intros Cur Hsound Hst Hc Hx.
  destruct (reachable_steps _ _ _ Cur Hst) as (v' & [Hs' _ _] & Hsteps).
  rewrite (sees_cap _ _ Hs') in Hx by done.
  eapply (authority_steps (fun x => exists c0, in_table c0 /\ grants (v_cap v c0) x));
    [done|done| |done|done].
  intros c0 y Hc0 Hy. by exists c0.
Qed.

(** [C15]: In every state the machine reaches by steps of the processes and by
    traps that return, the kernel state is well formed: links, capabilities,
    process, channel and slot tables; and the current process is a busy process of
    the table. A trap that faults, on a number that is wider than it is checked
    at, has no next state. *)
Theorem reachable_wf m m' v :
  current (m_kernel m) v (m_cur m) -> rtc mstep m m' ->
  wf (m_kernel m') /\ valid_proc (m_cur m') /\
  exists x, lookupZ (procs (m_kernel m')) (m_cur m') = Some x /\
    Z.land (p_state x) PSF_BUSY <> 0.
Proof.
  intros Cur Hst. destruct (reachable_steps _ _ _ Cur Hst) as (v' & [Hs' Hv' Hr'] & _).
  split; [by eapply sees_wf|]. split; [done|]. eexists.
  split; [by apply (sees_proc _ _ Hs')|by apply running_busy].
Qed.

(** [C2]: The kernel is safe: handling a trap of the current process, where for a
    system call the arguments that its handler uses as they are fit the widths
    they are checked at ([fits_args]), runs into no failed assertion, access out
    of bounds, null pointer or bad shift (only the waiting loops may go on); the
    next process is a valid one that is busy, and what happened to the
    protection state is a sequence of operations the trapping process is
    authorised to.  With any words as arguments, the latter holds whenever the
    trap returns; a wider number may make it fail ([wide_index_passes],
    [wide_register_read]). *)
Theorem trap_handler_safe fuel wait search p s v mcause mtval :
  current s v p ->
  let Safe e s' := exists v', current s' v' (process_of e) /\ ksteps p v v' in
  ((mcause = 8 -> fits_args v p) -> wlp (trap_handler fuel wait search p mcause mtval) Safe s) /\
  (word_regs v p -> wpe any_fault (trap_handler fuel wait search p mcause mtval) Safe s).
Proof.
  intros Cur Safe. split; intros Hargs; eapply see_trap_handler; try done.
  - intros E. left. by apply Hargs.
  - intros e s' v'. unfold Safe. eauto.
  - intros _. by right.
  - intros e s' v'. unfold Safe. eauto.
Qed.

(** A system call terminates without a fault, when the timer and the
    capability lock settle within the fuel; all its effects on capabilities,
    schedule and PMP registers are operations the caller is authorised to, and
    the process it names next is the caller or one it made busy. *)
Theorem syscall_confined fuel n s v p :
  sees s v -> valid_proc p -> running v p -> fits_args v p ->
  settles (v_hw v) n -> (n + 1 < fuel)%nat ->
  wp (syscall_handler fuel p)
    (fun next s' => exists v', sees s' v' /\ ksteps p v v' /\ busy v' p /\ next_ok p v' next) s.
Proof.
  intros. apply wp_wpe. eapply see_syscall_handler; [done..|by left|by right|].
  intros next s' v'. eauto.
Qed.

(** The changes of [v'] to [v] that process [p] has authority for. *)
Definition within_authority (p : Z) (v v' : view) : Prop :=
  (forall c, in_table c -> v_cap v' c = v_cap v c \/ may_change v p c (v_cap v' c)) /\
  (forall h i, v_lane v' h i = v_lane v h i \/
     exists c, in_table c /\ controls v p c /\ grants (v_cap v c) (PTime h i)) /\
  (forall q, same_pmp (v_proc v q) (v_proc v' q) \/
     exists c, in_table c /\ cte_pid c = q /\ (v_cap v c)⟦cap_type⟧ = CAPTY_PMP /\
       (controls v p c \/ revokes v p c)).

(** [C4]: Integrity: a capability operation performed for process [p] changes an
    entry of the capability table only if [p] controls it (it is its own, or of
    a suspended process [p] monitors), or the entry was free and offered as a
    receive buffer, or it is emptied by revoking a capability of [p] it counts
    as derived from; it changes a lane of the schedule only within a time
    capability [p] controls; it changes PMP registers only through a PMP
    capability of their process that [p] controls or revokes; and it changes no
    other register, state or deadline of any process. *)
Theorem step_integrity s v p o :
  sees s v -> v_list v <> None -> caps_sound v ->
  op_ok o v -> revokes_occupied o v -> authorised v p o ->
  wp (run_op o) (fun _ s' => exists v', sees s' v' /\ within_authority p v v' /\
    procs_same v v') s.
Proof.
  intros Hs Hl Hk Hok Hocc Ha. destruct (v_list v) as [l|] eqn:El; [|done].
  eapply see_run_op; [done..|]. intros s' Hs'. eexists. split; [done|].
  pose proof (k_op p v o Hok Ha) as Hstep. split; [|by apply exec_runs].
  split; [|split].
  - intros c Hc. by apply integrity_caps.
  - intros h i. by apply integrity_lanes.
  - intros q. by eapply integrity_pmp.
Qed.

(** [C20]: No amplification: when [cap_derive] succeeds, the capability it
    installs grants only what its parent grants, and the parent grants afterwards
    what it did before; all capabilities stay sound.  When it fails, nothing has
    changed. *)
Theorem derive_no_amplification s v src dst k :
  sees s v -> caps_sound v -> in_table src -> in_table dst -> src <> dst ->
  word_ok k = true -> cap_is_valid k = true ->
  wp (cap_derive src dst k) (fun e s' => exists v', sees s' v' /\ caps_sound v' /\
    ((e = SUCCESS /\ v_cap v' dst = k /\ cap_le (v_cap v' dst) (v_cap v src) /\
        cap_eqv (v_cap v' src) (v_cap v src)) \/
     (e <> SUCCESS /\ v' = v))) s.
Proof.
  intros Hs Hv Hsrc Hdst Hne Hw Hk.
  eapply see_cap_derive; [done..|]. intros s' Hs'. eexists. split; [exact Hs'|].
  split.
  { intros c Hc. eapply origin_sound; [exact Hv|]. by apply (origin_exec (OpDerive src dst k)). }
  unfold a_derive. destruct (empty (v_cap v src)); [by right|].
  destruct (empty (v_cap v dst)); [|by right].
  cbn [negb]. destruct (derive_mark (v_cap v src) k) as [cap'|] eqn:D; [left|by right].
  destruct (derive_mark_le _ _ _ (Hv src Hsrc) Hw Hk D) as [Hle Heq].
  assert (E : v_cap (v_derive src dst cap' k v) = fupd (fupd (v_cap v) src cap') dst k)
    by (unfold v_derive; by destruct (k⟦cap_type⟧ =? CAPTY_TIME)).
  cbn [fst snd]. rewrite E, fupd_eq, fupd_ne, fupd_eq by done. done.
Qed.

(** [C21]: A process's PMP registers and its loaded PMP capabilities determine
    each other, and every capability operation of the kernel keeps it so. *)
Theorem pmp_backed_preserved s v o :
  sees s v -> v_list v <> None -> op_ok o v -> revokes_occupied o v -> backed v ->
  wp (run_op o) (fun _ s' => exists v', sees s' v' /\ backed v') s.
Proof.
  intros Hs Hl Hok Hocc Hb. destruct (v_list v) as [l|] eqn:El; [|done].
  eapply see_run_op; [done..|]. intros s' Hs'. eexists. split; [done|]. by apply backed_exec.
Qed.
End Isolation.

(** ** Witnesses, from the state in which the first process runs *)

Section Witnesses.
#[local] Existing Instance qemu_virt.
Abbreviation sview := (view_of started1 (Some list1)).
#[local] Opaque started1 derived1.

(** After a system call of the first process, which derives a time capability,
    its PMP registers allow it to read address 0x80010000, its first
    instruction. *)
Definition proc0 : proc_t := default proc_bss (lookupZ (procs derived1) 0).

Lemma proc0_lookup : lookupZ (procs derived1) 0 = Some proc0.
Proof.
  unfold proc0. destruct (lookupZ_lt (procs derived1) 0) as [x ->]; [|done].
  vm_compute. intuition congruence.
Qed.

Lemma proc0_allows : pmp_allows proc0 0x80010000 0.
Proof.
  exists 0, 31, 0x2007ffff. split; [vm_compute; reflexivity|]. split; [vm_compute; reflexivity|].
  split; [done|]. split; [|done]. vm_compute. intuition congruence.
Qed.

Example memory_isolation_witness :
  (exists c, in_table c /\ cte_pid c = 0 /\ (cap_at (ctable derived1) c)⟦cap_type⟧ = CAPTY_PMP /\
     grants (cap_at (ctable derived1) c) (PMem 0x80010000 0)) /\
  (exists c0, in_table c0 /\ grants (v_cap sview c0) (PMem 0x80010000 0)).
Proof.
  exact (memory_isolation (Machine started1 0) (Machine derived1 0) sview 0 proc0 0x80010000 0
    started1_current started1_sound started1_backed derived1_steps proc0_lookup
    ltac:(lia) proc0_allows).
Defined.

Lemma derived1_grants : grants (cap_at (ctable derived1) 10) (PTime 0 7).
Proof. vm_compute. intuition congruence. Qed.

Example authority_confined_witness :
  exists c0, in_table c0 /\ grants (v_cap sview c0) (PTime 0 7).
Proof.
  exact (authority_confined (Machine started1 0) (Machine derived1 0) sview 10 (PTime 0 7)
    started1_current started1_sound derived1_steps ltac:(vm_compute; intuition congruence)
    derived1_grants).
Defined.

Example reachable_wf_witness :
  wf derived1 /\ valid_proc 0 /\
  exists x, lookupZ (procs derived1) 0 = Some x /\ Z.land (p_state x) PSF_BUSY <> 0.
Proof.
  exact (reachable_wf (Machine started1 0) (Machine derived1 0) sview
    started1_current derived1_steps).
Defined.

(** A system call, a timer interrupt or an exception of the first process. *)
Definition calling1 : kstate := set_call 0 SYS_CAP_DERIVE [4; 10; half_time] started1.
Abbreviation cview := (view_of calling1 (Some list1)).

Lemma calling1_current : current calling1 cview 0.
Proof. apply current_checked; vm_compute; reflexivity. Qed.
Lemma calling1_fits : fits_args cview 0.
Proof. apply fits_argsb_spec. vm_compute. reflexivity. Qed.
Lemma calling1_settles : settles (v_hw cview) 50.
Proof. apply set_call_settles. vm_compute. eauto. Qed.

Example trap_handler_safe_witness :
  let Safe e s' := exists v', current s' v' (process_of e) /\ ksteps 0 cview v' in
  wlp (trap_handler 52 100 100 0 8 0) Safe calling1 /\
  wpe any_fault (trap_handler 52 100 100 0 8 0) Safe calling1.
Proof.
  destruct (trap_handler_safe 52 100 100 0 calling1 cview 8 0 calling1_current) as [H1 H2].
  split; [apply H1; intros _; exact calling1_fits|].
  apply H2, word_regsb_spec. vm_compute. reflexivity.
Defined.

Example syscall_confined_witness :
  wp (syscall_handler 52 0)
    (fun next s' => exists v', sees s' v' /\ ksteps 0 cview v' /\ busy v' 0 /\ next_ok 0 v' next)
    calling1.
Proof.
  apply (syscall_confined 52 50 calling1 cview 0);
    [apply calling1_current|apply calling1_current|apply calling1_current
    |exact calling1_fits|exact calling1_settles|lia].
Defined.

Example step_integrity_witness :
  wp (run_op (OpDerive 4 10 half_time)) (fun _ s' => exists v', sees s' v' /\
    within_authority 0 sview v' /\ procs_same sview v') started1.
Proof.
  apply (step_integrity started1 sview 0 (OpDerive 4 10 half_time));
    [apply started1_current|done|exact started1_sound|vm_compute; intuition congruence|done
    |vm_compute; intuition congruence].
Defined.

Example derive_no_amplification_witness :
  wp (cap_derive 4 10 half_time) (fun e s' => exists v', sees s' v' /\ caps_sound v' /\
    ((e = SUCCESS /\ v_cap v' 10 = half_time /\ cap_le (v_cap v' 10) (v_cap sview 4) /\
        cap_eqv (v_cap v' 4) (v_cap sview 4)) \/
     (e <> SUCCESS /\ v' = sview))) started1.
Proof.
  apply (derive_no_amplification started1 sview);
    [apply started1_current|exact started1_sound|vm_compute; intuition congruence..].
Defined.

Example pmp_backed_preserved_witness :
  wp (run_op (OpUnload 0)) (fun _ s' => exists v', sees s' v' /\ backed v') started1.
Proof.
  apply (pmp_backed_preserved started1 sview (OpUnload 0));
    [apply started1_current|done|vm_compute; intuition congruence|done|exact started1_backed].
Defined.
End Witnesses.
