(* ===== verification/Printf.v ===== *)
(** * Formatted output

    [common/src/altc/printf.c] and [cap_snprint] of [kernel/src/cap_util.c].  The
    state of a formatting operation is the output buffer; a pointer into it is an
    index.  A string is an array of bytes whose end is found by its zero byte:
    reading past the end of the array is a fault, as is writing outside the
    buffer. *)

From Stdlib Require Import String Ascii.
From S2P Require Import Prelude Config CapTypes.

#[local] Open Scope Z_scope.
#[local] Open Scope list_scope.

(** ** Characters *)

Definition CH_NUL : Z := 0.
Definition CH_LF : Z := 10.
Definition CH_CR : Z := 13.
Definition CH_PERCENT : Z := 37.
Definition CH_0 : Z := 48.
Definition CH_A : Z := 65.
Definition CH_D : Z := 68.
Definition CH_X : Z := 88.
Definition CH_c : Z := 99.
Definition CH_d : Z := 100.
Definition CH_s : Z := 115.
Definition CH_x : Z := 120.

(** The value of a variadic argument. *)
Inductive va :=
| VInt (v : Z)            (** [int] or [unsigned int] *)
| VLong (v : Z)           (** [unsigned long] *)
| VString (s : list Z).   (** [char *] *)

(** [dst[i] = c] *)
Definition put {A} (i : Z) (c : A) : M (list A) unit :=
  let* b := gets id in
  do* array_get b i in
  modify (insertZ i c).

(** ** Writers: [dst] and [end] are indices; the new [dst] is returned *)

(** Storing a character and advancing the pointer. *)
Definition write_next (dst c : Z) : M (list Z) Z :=
  do* put dst c in ret (dst + 1).

(** [while (val) buf[i++] = digit(val % base), val /= base;]: the digits, least
    significant first, in a local array of [size] bytes. *)
Fixpoint digits (fuel : nat) (size base : Z) (digit : Z -> Z) (val : Z) (buf : list Z)
  : M (list Z) (list Z) :=
  if val =? 0 then ret buf else
  match fuel with
  | O => fail OutOfFuel
  | S fuel =>
      if zlen buf <? size
      then digits fuel size base digit (val / base) (digit (val mod base) :: buf)
      else fail OutOfBounds
  end.

(** Writing out [buf], which holds the digits in the order in which they are
    written: the last one stored first. *)
Fixpoint write_buf (dst end_ : Z) (buf : list Z) : M (list Z) Z :=
  match buf with
  | [] => ret dst
  | c :: buf =>
      if dst =? end_ then ret dst else
      let* dst := write_next dst c in write_buf dst end_ buf
  end.

Definition dec_digit (d : Z) : Z := CH_0 + d.
Definition hex_digit (d : Z) : Z := if d <? 10 then CH_0 + d else CH_A + (d - 10).

Definition write_dec (dst end_ val : Z) : M (list Z) Z :=
  if (val =? 0) && negb (dst =? end_) then write_next dst CH_0
  else if negb (dst =? end_) then
    let* buf := digits 64 24 10 dec_digit val [] in write_buf dst end_ buf
  else ret dst.

Definition write_hex (dst end_ val : Z) : M (list Z) Z :=
  if (val =? 0) && negb (dst =? end_) then write_next dst CH_0
  else if negb (dst =? end_) then
    let* buf := digits 64 16 16 hex_digit val [] in write_buf dst end_ buf
  else ret dst.

(** Copying a string up to its zero byte: [src] is what is left of it. *)
Fixpoint write_str (dst end_ : Z) (src : list Z) : M (list Z) Z :=
  if dst =? end_ then ret dst else
  match src with
  | [] => fail OutOfBounds
  | c :: src =>
      if c =? CH_NUL then ret dst else
      let* dst := write_next dst c in write_str dst end_ src
  end.

Definition write_char (dst end_ c : Z) : M (list Z) Z :=
  if negb (dst =? end_) then write_next dst c else ret dst.

(** [va_arg] for [int], [unsigned long] and a string: an argument of another
    type, or none, is undefined. *)
Definition va_int (ap : list va) : M (list Z) (Z * list va) :=
  match ap with VInt v :: ap => ret (u32 v, ap) | _ => fail OutOfBounds end.
Definition va_long (ap : list va) : M (list Z) (Z * list va) :=
  match ap with VLong v :: ap => ret (u64 v, ap) | _ => fail OutOfBounds end.
Definition va_str (ap : list va) : M (list Z) (list Z * list va) :=
  match ap with VString s :: ap => ret (s, ap) | _ => fail OutOfBounds end.

(** One conversion of [alt_vsnprintf], for the character after the percent sign. *)
Definition convert (s end_ c : Z) (ap : list va) : M (list Z) (Z * list va) :=
  if c =? CH_PERCENT then
    let* s := write_char s end_ CH_PERCENT in ret (s, ap)
  else if c =? CH_c then
    let* '(v, ap) := va_int ap in let* s := write_char s end_ (u8 v) in ret (s, ap)
  else if c =? CH_s then
    let* '(str, ap) := va_str ap in let* s := write_str s end_ str in ret (s, ap)
  else if c =? CH_x then
    let* '(v, ap) := va_int ap in let* s := write_hex s end_ v in ret (s, ap)
  else if c =? CH_X then
    let* '(v, ap) := va_long ap in let* s := write_hex s end_ v in ret (s, ap)
  else if c =? CH_d then
    let* '(v, ap) := va_int ap in let* s := write_dec s end_ v in ret (s, ap)
  else if c =? CH_D then
    let* '(v, ap) := va_long ap in let* s := write_dec s end_ v in ret (s, ap)
  else ret (s, ap).

(** The loop of [alt_vsnprintf]: [fmt] is what is left of the format, from
    [*fmt] to the end of the array it is in. *)
Fixpoint vsnprintf_loop (s end_ : Z) (fmt : list Z) (ap : list va) : M (list Z) Z :=
  match fmt with
  | [] => fail OutOfBounds
  | c :: fmt =>
      if (c =? CH_NUL) || (s =? end_) then ret s else
      if negb (c =? CH_PERCENT) then
        let* s := write_char s end_ c in vsnprintf_loop s end_ fmt ap
      else
        match fmt with
        | [] => fail OutOfBounds
        | c :: fmt =>
            let* '(s, ap) := convert s end_ c ap in vsnprintf_loop s end_ fmt ap
        end
  end.

(** The length is returned; the buffer is the state. *)
Definition alt_vsnprintf (size : Z) (fmt : list Z) (ap : list va) : M (list Z) Z :=
  let end_ := size - 1 in
  let* s := vsnprintf_loop 0 end_ fmt ap in
  do* put s CH_NUL in
  ret s.

Definition alt_snprintf (size : Z) (fmt : list Z) (ap : list va) : M (list Z) Z :=
  alt_vsnprintf size fmt ap.

(** ** Printing capabilities *)

(** A string literal: its bytes and the final zero. *)
Definition literal (s : string) : list Z :=
  map (fun c => Z.of_N (N_of_ascii c)) (list_ascii_of_string s) ++ [CH_NUL].

Definition FMT_NONE : list Z := literal "NONE{}".
Definition FMT_TIME : list Z := literal "TIME{hart=%d,bgn=%d,end=%d,mrk=%d}".
Definition FMT_MEMORY : list Z := literal "MEMORY{bgn=0x%X,end=0x%X,mrk=0x%X,rwx=%d,lck=%x}".
Definition FMT_PMP : list Z := literal "PMP{bgn=0x%X,end=0x%X,rwx=%d,used=%d,slot=%d}".
Definition FMT_MONITOR : list Z := literal "MONITOR{bgn=%d,end=%d,mrk=%d}".
Definition FMT_CHANNEL : list Z := literal "CHANNEL{bgn=%d,end=%d,mrk=%d}".
Definition FMT_SOCKET : list Z := literal "SOCKET{chan=%d,tag=%d,perm=%d,mode=%d}".
Definition FMT_UNKNOWN : list Z := literal "UNKNOWN{raw=0x%X}".

(** The format and the arguments [cap_snprint] passes on. *)
Definition cap_format (cap : cap_t) : list Z * list va :=
  if cap⟦cap_type⟧ =? CAPTY_NONE then (FMT_NONE, [])
  else if cap⟦cap_type⟧ =? CAPTY_TIME then
    (FMT_TIME, [VInt cap⟦time_hart⟧; VInt cap⟦time_bgn⟧; VInt cap⟦time_end⟧;
                VInt cap⟦time_mrk⟧])
  else if cap⟦cap_type⟧ =? CAPTY_MEMORY then
    let bgn := tag_block_to_addr cap⟦mem_tag⟧ cap⟦mem_bgn⟧ in
    let end_ := tag_block_to_addr cap⟦mem_tag⟧ cap⟦mem_end⟧ in
    let mrk := tag_block_to_addr cap⟦mem_tag⟧ cap⟦mem_mrk⟧ in
    (FMT_MEMORY, [VLong bgn; VLong end_; VLong mrk; VInt cap⟦mem_rwx⟧; VInt cap⟦mem_lck⟧])
  else if cap⟦cap_type⟧ =? CAPTY_PMP then
    let '(base, size) := pmp_napot_decode cap⟦pmp_addr⟧ in
    (FMT_PMP, [VLong base; VLong (u64 (base + size)); VInt cap⟦pmp_rwx⟧; VInt cap⟦pmp_used⟧;
               VInt cap⟦pmp_slot⟧])
  else if cap⟦cap_type⟧ =? CAPTY_MONITOR then
    (FMT_MONITOR, [VInt cap⟦mon_bgn⟧; VInt cap⟦mon_end⟧; VInt cap⟦mon_mrk⟧])
  else if cap⟦cap_type⟧ =? CAPTY_CHANNEL then
    (FMT_CHANNEL, [VInt cap⟦chan_bgn⟧; VInt cap⟦chan_end⟧; VInt cap⟦chan_mrk⟧])
  else if cap⟦cap_type⟧ =? CAPTY_SOCKET then
    (FMT_SOCKET, [VInt cap⟦sock_chan⟧; VInt cap⟦sock_tag⟧; VInt cap⟦sock_perm⟧;
                  VInt cap⟦sock_mode⟧])
  else (FMT_UNKNOWN, [VLong cap]).

Definition cap_snprint (size : Z) (cap : cap_t) : M (list Z) unit :=
  let '(fmt, ap) := cap_format cap in
  do* alt_snprintf size fmt ap in ret tt.
