(* ===== verification/Console.v ===== *)
(** * The console

    [common/src/altc/puts.c], [gets.c] and [init.c], [alt_printf] of [printf.c]
    and [kernel/src/kprintf.c], on a serial port whose driver is an instance of
    [Serial]: the interface of [drivers/uart.h].  The class [SerialWorks] is what a
    driver promises: it refines the [console], which records what was sent and
    holds what is still to be received. *)

From S2P Require Import Prelude Config Printf.

#[local] Open Scope Z_scope.
#[local] Open Scope list_scope.

(** ** The interface of a driver *)

Class Serial (W : Type) := {
  uart_init : M W unit;
  uart_putc : Z -> M W Z;
  uart_getc : M W Z
}.

(** ** Input and output *)

Section Console.
Context {W : Type} `{Serial W}.

Definition alt_init : M W unit := uart_init.

Definition alt_putchar (c : Z) : M W Z := do* uart_putc c in ret c.
Definition alt_getchar : M W Z := uart_getc.

(** [alt_putstr(str)]: [str] is what is left of the string, [i] the index. *)
Fixpoint putstr_loop (i : Z) (str : list Z) : M W Z :=
  match str with
  | [] => fail OutOfBounds
  | c :: str =>
      if c =? CH_NUL then ret i else
      do* alt_putchar c in putstr_loop (i + 1) str
  end.
Definition alt_putstr (str : list Z) : M W Z := putstr_loop 0 str.

Definition alt_puts (str : list Z) : M W Z :=
  let* i := alt_putstr str in
  do* alt_putchar CH_CR in
  do* alt_putchar CH_LF in
  ret i.

(** [alt_gets(src)] into a buffer of bytes: the index and the buffer.  Nothing
    bounds the index but the buffer itself. *)
Fixpoint gets_loop (fuel : nat) (i : Z) (src : list Z) : M W (Z * list Z) :=
  match fuel with
  | O => fail OutOfFuel
  | S fuel =>
      let* c := alt_getchar in
      let c := u8 c in
      do* array_get src i in
      let src := insertZ i c src in
      if (c =? CH_LF) || (c =? CH_NUL) then ret (i, insertZ i CH_NUL src)
      else gets_loop fuel (i + 1) src
  end.
Definition alt_gets (fuel : nat) (src : list Z) : M W (Z * list Z) := gets_loop fuel 0 src.

(** A local buffer of [size] bytes with the contents [b], formatted and sent. *)
Definition format_and_send (size : Z) (b fmt : list Z) (ap : list va) : M W Z :=
  match alt_vsnprintf size fmt ap b with
  | Done len b => do* alt_putstr b in ret len
  | Fault f => fail f
  end.

Definition ALT_PRINTF_BUF_SIZE : Z := 128.
Definition alt_printf (b fmt : list Z) (ap : list va) : M W Z :=
  format_and_send ALT_PRINTF_BUF_SIZE b fmt ap.

(** ** The console of the kernel *)

Definition BUF_SIZE : Z := 128.
Definition VERBOSITY : Z := 0.

(** The accesses to the print lock: [__atomic_fetch_or(&lock, 1)], which returns
    the old value, and the store of 0. *)
Context (print_lock_fetch_or : M W Z) (print_lock_release : M W unit).

Definition print_lock_wait (fuel : nat) : M W unit :=
  while_busy fuel (let* old := print_lock_fetch_or in ret (negb (old =? 0))).

(** With [SMP], the output of a hart is bracketed by the lock. *)
Definition kprintf (smp : bool) (fuel : nat) (b : list Z) (verb : Z) (fmt : list Z) (ap : list va)
  : M W unit :=
  if VERBOSITY <? verb then ret tt else
  match alt_vsnprintf BUF_SIZE fmt ap b with
  | Done _ b =>
      do* (if smp then print_lock_wait fuel else ret tt) in
      do* alt_putstr b in
      if smp then print_lock_release else ret tt
  | Fault f => fail f
  end.
End Console.

(** ** The reference: a console *)

Record console := ConsoleState { sent : list Z; incoming : list Z }.

(** Without input [uart_getc] does not return. *)
#[export] Instance console_serial : Serial console := {
  uart_init := ret tt;
  uart_putc c := do* modify (fun s => ConsoleState (sent s ++ [u8 c]) (incoming s)) in ret (u8 c);
  uart_getc := fun s => match incoming s with
                        | [] => Fault OutOfFuel
                        | c :: cs => Done c (ConsoleState (sent s) cs)
                        end
}.

(** What a driver promises: from a state of the device in which it is [up], it
    sends and receives like the console. *)
Class SerialWorks (W : Type) `{Serial W} (up : W -> Prop) (line : W -> console) := {
  sw_putc : forall d c, up d ->
    wp (uart_putc c) (fun r d' => r = u8 c /\ up d' /\
      line d' = ConsoleState (sent (line d) ++ [u8 c]) (incoming (line d))) d;
  sw_getc : forall d c cs, up d -> incoming (line d) = c :: cs ->
    wp uart_getc (fun r d' => r = c /\ up d' /\ line d' = ConsoleState (sent (line d)) cs) d
}.
