(* ===== verification/Ns16550a.v ===== *)
(** * The serial driver for the NS16550A

    [common/src/drivers/uart/ns16550a.c], on a device that is a parameter: the
    class [Device8] of its byte registers, with the documented behaviour of the
    registers the driver uses in [Ns16550aWorks]. *)

From S2P Require Import Prelude Config Printf Console.

#[local] Open Scope Z_scope.
#[local] Open Scope list_scope.

(** Registers of eight bits at an offset from the base address. *)
Class Device8 (D : Type) := {
  read8 : Z -> M D Z;
  write8 : Z -> Z -> M D unit
}.

Definition LSR_RX_READY : Z := 0x1.
Definition LSR_TX_READY : Z := 0x60.

(** The members of [struct uart] by their offsets. *)
Definition rbr : Z := 0.
Definition thr : Z := 0.
Definition fcr : Z := 2.
Definition lcr : Z := 3.
Definition lsr : Z := 5.

Section Driver.
Context {D : Type} `{Device8 D} (fuel : nat).

(** [while (!(uart->lsr & mask)) ;] *)
Definition wait_lsr (mask : Z) : M D unit :=
  while_busy fuel (let* s := read8 lsr in ret (Z.land s mask =? 0)).

Definition ns16550a_init : M D unit :=
  do* write8 lcr 0x3 in write8 fcr 0x1.

Definition ns16550a_putc (c : Z) : M D Z :=
  do* wait_lsr LSR_TX_READY in
  do* write8 thr (u8 c) in
  ret (u8 c).

Definition ns16550a_getc : M D Z :=
  do* wait_lsr LSR_RX_READY in read8 rbr.

Definition ns16550a : Serial D :=
  {| uart_init := ns16550a_init; uart_putc := ns16550a_putc; uart_getc := ns16550a_getc |}.
End Driver.

(** The behaviour of the device: [tx_wait] and [rx_wait] bound how often the line
    status register still reports that the transmitter is busy, and that no input
    is there although some is to come.  The divisor latch is off when the line
    control register holds 3; enabling the FIFO may drop input. *)
Class Ns16550aWorks (D : Type) `{Device8 D} (line : D -> console) (line_control : D -> Z)
    (tx_wait rx_wait : D -> nat) (patience : nat) := {
  nw_patience : forall d, (tx_wait d <= patience)%nat /\ (rx_wait d <= patience)%nat;
  nw_lcr : forall d v, wp (write8 lcr v) (fun _ d' => line_control d' = v /\ line d' = line d) d;
  nw_fcr : forall d v, wp (write8 fcr v) (fun _ d' => line_control d' = line_control d /\
    sent (line d') = sent (line d)) d;
  nw_lsr : forall d, wp (read8 lsr) (fun s d' => line_control d' = line_control d /\ line d' = line d /\
    (if Z.land s LSR_TX_READY =? 0 then (tx_wait d' < tx_wait d)%nat else tx_wait d' = 0%nat) /\
    (if Z.land s LSR_RX_READY =? 0 then incoming (line d) = [] \/ (rx_wait d' < rx_wait d)%nat
     else rx_wait d' = 0%nat)) d;
  nw_thr : forall d c, line_control d = 3 -> tx_wait d = 0%nat ->
    wp (write8 thr c) (fun _ d' => line_control d' = 3 /\
      line d' = ConsoleState (sent (line d) ++ [c]) (incoming (line d))) d;
  nw_rbr : forall d c cs, line_control d = 3 -> rx_wait d = 0%nat -> incoming (line d) = c :: cs ->
    wp (read8 rbr) (fun r d' => r = c /\ line_control d' = 3 /\
      line d' = ConsoleState (sent (line d)) cs) d
}.

Section Works.
Context {D : Type} `{Ns16550aWorks D line line_control tx_wait rx_wait patience}.
Context (fuel : nat) (Hfuel : (patience < fuel)%nat).

#[local] Instance ns16550a_here : Serial D := ns16550a fuel.

(** Polling for a bit of the line status that [wait] bounds. *)
Lemma wait_lsr_ends mask wait (ok : D -> Prop) d :
  (forall d, ok d -> wp (read8 lsr) (fun s d' => ok d' /\ line_control d' = line_control d /\
     line d' = line d /\ if Z.land s mask =? 0 then (wait d' < wait d)%nat else wait d' = 0%nat) d) ->
  (wait d < fuel)%nat -> ok d ->
  wp (wait_lsr fuel mask) (fun _ d' => wait d' = 0%nat /\ line_control d' = line_control d /\
    line d' = line d) d.
Proof.
  intros Hr. unfold wait_lsr. revert d. clear Hfuel.
  induction fuel as [|n IH]; intros d Hw Hok; [lia|]. cbn [while_busy].
  apply wp_bind, wp_bind. eapply wp_mono; [by apply Hr|]. intros s d' (Hok' & E1 & E2 & Hs). apply wp_ret.
  destruct (_ =? 0); [|by apply wp_ret].
  eapply wp_mono; [apply IH; [lia|done]|]. intros _ d'' (? & ? & ?). split; [done|]. split; congruence.
Qed.

(** The driver sends and receives like the console, once the line is set up. *)
#[export] Instance ns16550a_works : SerialWorks D (fun d => line_control d = 3) line.
Proof.
  split.
  - intros d c Hup. unfold uart_putc, ns16550a_here, ns16550a, ns16550a_putc. apply wp_bind. eapply wp_mono.
    { apply (wait_lsr_ends LSR_TX_READY tx_wait (fun _ => True)); [| |done].
      - intros d1 _. eapply wp_mono; [apply nw_lsr|]. cbn beta. tauto.
      - pose proof (nw_patience d). lia. }
    intros _ d1 (Hw & El & Ei). apply wp_bind. eapply wp_mono; [apply nw_thr; [congruence|done]|].
    intros _ d2 [Hl2 E2]. apply wp_ret. by rewrite <- Ei.
  - intros d c cs Hup Ein. unfold uart_getc, ns16550a_here, ns16550a, ns16550a_getc. apply wp_bind. eapply wp_mono.
    { apply (wait_lsr_ends LSR_RX_READY rx_wait (fun d => incoming (line d) <> [])).
      - intros d1 Hin. eapply wp_mono; [apply nw_lsr|]. cbn beta. intros s d2 (E1 & E2 & _ & Hs).
        split; [congruence|]. split; [done|]. split; [done|]. destruct (_ =? 0); [|done]. by destruct Hs.
      - pose proof (nw_patience d). lia.
      - congruence. }
    intros _ d1 (Hw & El & Ei). eapply wp_mono; [apply (nw_rbr d1 c cs); congruence|].
    cbn beta. by rewrite Ei.
Qed.

(** [uart_init] sets the line up. *)
Lemma ns16550a_starts d :
  wp uart_init (fun _ d' => line_control d' = 3 /\ sent (line d') = sent (line d)) d.
Proof.
  unfold uart_init, ns16550a_here, ns16550a, ns16550a_init. apply wp_bind. eapply wp_mono; [apply nw_lcr|].
  intros _ d1 [E1 E2]. eapply wp_mono; [apply nw_fcr|]. cbn beta. intros _ d2 [? ?]. split; congruence.
Qed.
End Works.

(** ** A device *)

(** After each byte the transmitter is busy for one reading of the status. *)
Record ns_dev := NsDev { n_line : console; n_lcr : Z; n_busy : bool }.

Definition ns_read (r : Z) : M ns_dev Z := fun d =>
  if r =? lsr then
    Done (Z.lor (if n_busy d then 0 else LSR_TX_READY)
                (if incoming (n_line d) is [] then 0 else LSR_RX_READY))
         (NsDev (n_line d) (n_lcr d) false)
  else match incoming (n_line d) with
       | c :: cs => Done c (NsDev (ConsoleState (sent (n_line d)) cs) (n_lcr d) (n_busy d))
       | [] => Done 0 d
       end.

Definition ns_write (r v : Z) : M ns_dev unit := fun d =>
  Done tt
    (if r =? lcr then NsDev (n_line d) v (n_busy d)
     else if r =? thr then
       NsDev (ConsoleState (sent (n_line d) ++ [v]) (incoming (n_line d))) (n_lcr d) true
     else d).

#[export] Instance ns_device : Device8 ns_dev := { read8 := ns_read; write8 := ns_write }.

#[export] Instance ns_device_works :
  Ns16550aWorks ns_dev n_line n_lcr (fun d => if n_busy d then 1 else 0)%nat (fun _ => 0%nat) 1.
Proof.
  split.
  - intros d. destruct (n_busy d); lia.
  - done.
  - done.
  - intros d. unfold wp, read8, ns_device, ns_read. rewrite Z.eqb_refl. cbn.
    split; [done|]. split; [done|]. destruct (n_busy d), (incoming (n_line d)); cbn; (split; [vm_compute; lia || done|vm_compute; by auto]).
  - intros d c E _. unfold wp. cbn. done.
  - intros d c cs E _ Ein. unfold wp. cbn. rewrite Ein. done.
Qed.
