(* ===== verification/Sifive.v ===== *)
(** * The serial driver for the SiFive UART

    [common/src/drivers/uart/sifive.c], on a device that is a parameter: the class
    [Device32] of its word registers, with the documented behaviour of the
    registers the driver uses in [SifiveWorks]. *)

From S2P Require Import Prelude Config Printf Console.

#[local] Open Scope Z_scope.
#[local] Open Scope list_scope.

(** Registers of 32 bits at an offset from the base address. *)
Class Device32 (D : Type) := {
  read32 : Z -> M D Z;
  write32 : Z -> Z -> M D unit
}.

Definition TXDATA_FULL : Z := 0x80000000.
Definition RXDATA_EMPTY : Z := 0x80000000.
Definition TXCTRL_TXEN : Z := 0x1.
Definition RXCTRL_RXEN : Z := 0x1.

(** The members of [struct uart] by their offsets. *)
Definition txdata : Z := 0.
Definition rxdata : Z := 4.
Definition txctrl : Z := 8.
Definition rxctrl : Z := 12.

Section Driver.
Context {D : Type} `{Device32 D} (fuel : nat).

Definition sifive_init : M D unit :=
  do* write32 txctrl TXCTRL_TXEN in write32 rxctrl RXCTRL_RXEN.

(** The characters are [unsigned char] values in a word. *)
Definition sifive_putc (c : Z) : M D Z :=
  do* while_busy fuel (let* x := read32 txdata in ret (negb (Z.land x TXDATA_FULL =? 0))) in
  do* write32 txdata (u8 c) in
  ret (u8 c).

(** [do c = uart->rxdata; while (c & RXDATA_EMPTY);] *)
Fixpoint sifive_poll (fuel : nat) : M D Z :=
  match fuel with
  | O => fail OutOfFuel
  | S fuel =>
      let* c := read32 rxdata in
      if negb (Z.land c RXDATA_EMPTY =? 0) then sifive_poll fuel else ret c
  end.
Definition sifive_getc : M D Z := sifive_poll fuel.

Definition sifive : Serial D :=
  {| uart_init := sifive_init; uart_putc := sifive_putc; uart_getc := sifive_getc |}.
End Driver.

(** The behaviour of the device: [tx_wait] and [rx_wait] bound how often the data
    registers still report that the transmitter is full, and that no input is there
    although some is to come. *)
Class SifiveWorks (D : Type) `{Device32 D} (line : D -> console) (tx_control rx_control : D -> Z)
    (tx_wait rx_wait : D -> nat) (patience : nat) := {
  sf_patience : forall d, (tx_wait d <= patience)%nat /\ (rx_wait d <= patience)%nat;
  sf_txctrl : forall d v, wp (write32 txctrl v) (fun _ d' => tx_control d' = v /\
    rx_control d' = rx_control d /\ line d' = line d) d;
  sf_rxctrl : forall d v, wp (write32 rxctrl v) (fun _ d' => tx_control d' = tx_control d /\
    rx_control d' = v /\ line d' = line d) d;
  sf_txdata : forall d, wp (read32 txdata) (fun x d' => tx_control d' = tx_control d /\
    rx_control d' = rx_control d /\ line d' = line d /\
    (if Z.land x TXDATA_FULL =? 0 then tx_wait d' = 0%nat else (tx_wait d' < tx_wait d)%nat)) d;
  sf_send : forall d c, tx_control d = TXCTRL_TXEN -> tx_wait d = 0%nat ->
    wp (write32 txdata c) (fun _ d' => tx_control d' = tx_control d /\ rx_control d' = rx_control d /\
      line d' = ConsoleState (sent (line d) ++ [c]) (incoming (line d))) d;
  sf_rxdata : forall d c cs, rx_control d = RXCTRL_RXEN -> incoming (line d) = c :: cs ->
    wp (read32 rxdata) (fun r d' => tx_control d' = tx_control d /\ rx_control d' = rx_control d /\
      (if Z.land r RXDATA_EMPTY =? 0 then r = c /\ line d' = ConsoleState (sent (line d)) cs
       else line d' = line d /\ (rx_wait d' < rx_wait d)%nat)) d
}.

Section Works.
Context {D : Type} `{SifiveWorks D line tx_control rx_control tx_wait rx_wait patience}.
Context (fuel : nat) (Hfuel : (patience < fuel)%nat).

#[local] Instance sifive_here : Serial D := sifive fuel.

(** Both directions are enabled. *)
Definition enabled (d : D) : Prop := tx_control d = TXCTRL_TXEN /\ rx_control d = RXCTRL_RXEN.

Lemma tx_ends d : (tx_wait d < fuel)%nat ->
  wp (while_busy fuel (let* x := read32 txdata in ret (negb (Z.land x TXDATA_FULL =? 0))))
    (fun _ d' => tx_wait d' = 0%nat /\ tx_control d' = tx_control d /\
      rx_control d' = rx_control d /\ line d' = line d) d.
Proof.
  revert d. clear Hfuel. induction fuel as [|n IH]; intros d Hw; [lia|]. cbn [while_busy].
  apply wp_bind, wp_bind. eapply wp_mono; [apply sf_txdata|]. intros x d' (E1 & E2 & E3 & Hx). apply wp_ret.
  destruct (_ =? 0); cbn [negb]; [by apply wp_ret|].
  eapply wp_mono; [apply IH; lia|]. intros _ d'' (? & ? & ? & ?). split; [done|]. split; [congruence|]. split; congruence.
Qed.

Lemma rx_ends n d c cs : enabled d -> (rx_wait d < n)%nat -> incoming (line d) = c :: cs ->
  wp (sifive_poll n) (fun r d' => r = c /\ enabled d' /\ line d' = ConsoleState (sent (line d)) cs) d.
Proof.
  revert d. induction n as [|n IH]; intros d [Et Er] Hw Ein; [lia|]. cbn [sifive_poll].
  apply wp_bind. eapply wp_mono; [by apply (sf_rxdata d c cs)|]. cbn beta. intros x d' (E1 & E2 & Hx).
  destruct (_ =? 0); cbn [negb].
  - destruct Hx as [-> El]. apply wp_ret. split; [done|]. split; [split; congruence|done].
  - destruct Hx as [El Hlt]. rewrite <- El in *. apply IH; [split; congruence|lia|done].
Qed.

(** The driver sends and receives like the console, once it is enabled. *)
#[export] Instance sifive_works : SerialWorks D enabled line.
Proof.
  split.
  - intros d c [Et Er]. unfold uart_putc, sifive_here, sifive, sifive_putc. apply wp_bind.
    eapply wp_mono; [apply tx_ends; pose proof (sf_patience d); lia|]. intros _ d1 (Hw & E1 & E2 & E3).
    apply wp_bind. eapply wp_mono; [apply sf_send; [congruence|done]|]. cbn beta. intros _ d2 (F1 & F2 & F3).
    apply wp_ret. split; [done|]. split; [split; congruence|by rewrite <- E3].
  - intros d c cs Hup Ein. unfold uart_getc, sifive_here, sifive, sifive_getc.
    apply rx_ends; [done|pose proof (sf_patience d); lia|done].
Qed.

(** [uart_init] enables it. *)
Lemma sifive_starts d : wp uart_init (fun _ d' => enabled d' /\ line d' = line d) d.
Proof.
  unfold uart_init, sifive_here, sifive, sifive_init. apply wp_bind. eapply wp_mono; [apply sf_txctrl|].
  intros _ d1 (E1 & E2 & E3). eapply wp_mono; [apply sf_rxctrl|]. cbn beta. intros _ d2 (F1 & F2 & F3).
  split; [split; congruence|congruence].
Qed.
End Works.

(** ** A device *)

(** After each byte the transmitter is full for one reading. *)
Record sf_dev := SfDev { s_line : console; s_tx : Z; s_rx : Z; s_full : bool }.

Definition sf_read (r : Z) : M sf_dev Z := fun d =>
  if r =? txdata then
    Done (if s_full d then TXDATA_FULL else 0) (SfDev (s_line d) (s_tx d) (s_rx d) false)
  else match incoming (s_line d) with
       | c :: cs => Done (u8 c) (SfDev (ConsoleState (sent (s_line d)) cs) (s_tx d) (s_rx d) (s_full d))
       | [] => Done RXDATA_EMPTY d
       end.

Definition sf_write (r v : Z) : M sf_dev unit := fun d =>
  Done tt
    (if r =? txctrl then SfDev (s_line d) v (s_rx d) (s_full d)
     else if r =? rxctrl then SfDev (s_line d) (s_tx d) v (s_full d)
     else if r =? txdata then
       SfDev (ConsoleState (sent (s_line d) ++ [v]) (incoming (s_line d))) (s_tx d) (s_rx d) true
     else d).

#[export] Instance sf_device : Device32 sf_dev := { read32 := sf_read; write32 := sf_write }.

(** The line, with bytes for what comes in. *)
Definition sf_line (d : sf_dev) : console :=
  ConsoleState (sent (s_line d)) (map u8 (incoming (s_line d))).

Lemma u8_not_empty c : Z.land (u8 c) RXDATA_EMPTY = 0.
Proof.
  apply Z.bits_inj'. intros n Hn. rewrite Z.land_spec, Z.bits_0. unfold RXDATA_EMPTY, u8.
  destruct (Z.lt_ge_cases n 8).
  - replace (Z.testbit 0x80000000 n) with false; [apply andb_false_r|].
    assert (n = 0 \/ n = 1 \/ n = 2 \/ n = 3 \/ n = 4 \/ n = 5 \/ n = 6 \/ n = 7) as E by lia.
    by repeat destruct E as [->|E]; [..|subst n].
  - rewrite Z.mod_pow2_bits_high by lia. done.
Qed.

#[export] Instance sf_device_works :
  SifiveWorks sf_dev sf_line s_tx s_rx (fun d => if s_full d then 1 else 0)%nat (fun _ => 0%nat) 1.
Proof.
  split.
  - intros d. destruct (s_full d); lia.
  - done.
  - done.
  - intros d. unfold wp. cbn. destruct (s_full d); vm_compute; split; try done; split; try done; split; try done; lia.
  - intros d c E _. unfold wp. cbn. done.
  - intros d c cs E Ein. unfold sf_line in Ein. cbn in Ein. unfold wp. cbn.
    destruct (incoming (s_line d)) as [|x xs]; cbn in *; [done|]. injection Ein as <- <-.
    by rewrite u8_not_empty.
Qed.
