(* ===== verification/PrintfTheorems.v ===== *)
(** * Formatted output is what it renders

    The reference is [render]: the whole text of a format and its arguments,
    with numerals that have their value.  The routines of [printf.c] put its
    beginning into the buffer, as much as there is room for, and a final zero. *)

From Stdlib Require Import String.
From S2P Require Import Prelude Config CapTypes Printf.

#[local] Open Scope Z_scope.
#[local] Open Scope list_scope.

(** ** Numerals *)

Fixpoint numeral_loop (fuel : nat) (base n : Z) (acc : list Z) : list Z :=
  if n =? 0 then acc else
  match fuel with
  | O => acc
  | S fuel => numeral_loop fuel base (n / base) (n mod base :: acc)
  end.

(** The digits of [n], the most significant first. *)
Definition numeral (base n : Z) : list Z :=
  if n =? 0 then [0] else numeral_loop 64 base n [].

(** The value of a row of digits. *)
Definition value (base : Z) (ds : list Z) : Z := fold_left (fun a d => a * base + d) ds 0.

Section Numerals.
Context (base : Z) (Hbase : 2 <= base).

Lemma fold_value ds a :
  fold_left (fun a d => a * base + d) ds a = a * base ^ zlen ds + value base ds.
Proof.
  unfold value. revert a. induction ds as [|d ds IH]; intros a.
  - cbn. unfold zlen. cbn. lia.
  - cbn [fold_left]. rewrite IH, (IH (0 * base + d)). unfold zlen. rewrite length_cons.
    rewrite Nat2Z.inj_succ, Z.pow_succ_r by lia. ring.
Qed.

Lemma numeral_loop_value fuel n acc :
  0 <= n < base ^ Z.of_nat fuel ->
  value base (numeral_loop fuel base n acc) = n * base ^ zlen acc + value base acc.
Proof.
  revert n acc. induction fuel as [|fuel IH]; intros n acc Hn; cbn [numeral_loop].
  - change (base ^ Z.of_nat 0) with 1 in Hn. replace n with 0 by lia. destruct (_ =? _); cbn; lia.
  - destruct (Z.eqb_spec n 0) as [->|]; [lia|].
    assert (Hd : 0 <= n / base < base ^ Z.of_nat fuel).
    { split; [apply Z.div_pos; lia|]. apply Z.div_lt_upper_bound; [lia|].
      rewrite <- Z.pow_succ_r, <- Nat2Z.inj_succ by lia. lia. }
    rewrite IH by done. unfold value at 1. cbn [fold_left]. rewrite fold_value.
    unfold zlen. rewrite length_cons, Nat2Z.inj_succ, Z.pow_succ_r by lia.
    pose proof (Z.div_mod n base ltac:(lia)). nia.
Qed.

Lemma numeral_value n : 0 <= n < base ^ 64 -> value base (numeral base n) = n.
Proof.
  intros Hn. unfold numeral. destruct (Z.eqb_spec n 0) as [->|]; [done|].
  rewrite numeral_loop_value by done. change (zlen (@nil Z)) with 0. rewrite Z.pow_0_r. cbn. lia.
Qed.

Lemma numeral_loop_length fuel n k acc :
  0 <= n < base ^ Z.of_nat k -> (length (numeral_loop fuel base n acc) <= k + length acc)%nat.
Proof.
  revert n k acc. induction fuel as [|fuel IH]; intros n k acc Hn; cbn [numeral_loop];
    destruct (Z.eqb_spec n 0) as [->|]; [lia..|].
  destruct k as [|k]; [change (base ^ Z.of_nat 0) with 1 in Hn; lia|].
  etrans; [apply (IH _ k)|cbn; lia]. split; [apply Z.div_pos; lia|].
  apply Z.div_lt_upper_bound; [lia|]. rewrite <- Z.pow_succ_r, <- Nat2Z.inj_succ by lia. lia.
Qed.

Lemma numeral_length n k :
  0 <= n < base ^ Z.of_nat k -> (0 < k)%nat -> (length (numeral base n) <= k)%nat.
Proof.
  intros Hn Hk. unfold numeral. destruct (_ =? _); [cbn; lia|].
  etrans; [by apply (numeral_loop_length _ _ k)|cbn; lia].
Qed.

Lemma numeral_loop_digits fuel n acc :
  0 <= n -> Forall (fun d => 0 <= d < base) acc ->
  Forall (fun d => 0 <= d < base) (numeral_loop fuel base n acc).
Proof.
  revert n acc. induction fuel as [|fuel IH]; intros n acc Hn Ha; cbn [numeral_loop];
    destruct (_ =? _); try done.
  apply IH; [apply Z.div_pos; lia|]. constructor; [|done]. apply Z.mod_pos_bound. lia.
Qed.

Lemma numeral_digits n : 0 <= n -> Forall (fun d => 0 <= d < base) (numeral base n).
Proof.
  intros Hn. unfold numeral. destruct (_ =? _); [repeat constructor; lia|].
  by apply numeral_loop_digits.
Qed.

(** The loop of [write_dec] and [write_hex] leaves the digits. *)
Lemma digits_numeral {b : list Z} fuel size k digit n buf :
  0 <= n < base ^ Z.of_nat k -> (k <= fuel)%nat -> Z.of_nat k + zlen buf <= size ->
  forall acc, buf = map digit acc ->
  digits fuel size base digit n buf b = Done (map digit (numeral_loop fuel base n acc)) b.
Proof.
  revert k n buf. induction fuel as [|fuel IH]; intros k n buf Hn Hk Hsz acc ->;
    cbn [digits numeral_loop].
  - destruct k; [|lia]. change (base ^ Z.of_nat 0) with 1 in Hn. by replace n with 0 by lia.
  - destruct (Z.eqb_spec n 0); [done|].
    destruct k as [|k]; [change (base ^ Z.of_nat 0) with 1 in Hn; lia|].
    destruct (Z.ltb_spec (zlen (map digit acc)) size); [|lia].
    apply (IH k); [|lia| |done].
    + split; [apply Z.div_pos; lia|]. apply Z.div_lt_upper_bound; [lia|].
      rewrite <- Z.pow_succ_r, <- Nat2Z.inj_succ by lia. lia.
    + unfold zlen in *. cbn [length]. lia.
Qed.
End Numerals.

(** ** The text of a format *)

Definition dec_text (n : Z) : list Z := map dec_digit (numeral 10 n).
Definition hex_text (n : Z) : list Z := map hex_digit (numeral 16 n).

(** A string up to its zero byte, if it has one. *)
Fixpoint string_text (s : list Z) : option (list Z) :=
  match s with
  | [] => None
  | c :: s => if c =? CH_NUL then Some [] else cons c <$> string_text s
  end.

(** The text of one conversion, and the arguments that are left. *)
Definition conversion (c : Z) (ap : list va) : option (list Z * list va) :=
  if c =? CH_PERCENT then Some ([CH_PERCENT], ap)
  else if c =? CH_c then
    match ap with VInt v :: ap => Some ([u8 (u32 v)], ap) | _ => None end
  else if c =? CH_s then
    match ap with VString s :: ap => t ← string_text s; Some (t, ap) | _ => None end
  else if c =? CH_x then
    match ap with VInt v :: ap => Some (hex_text (u32 v), ap) | _ => None end
  else if c =? CH_X then
    match ap with VLong v :: ap => Some (hex_text (u64 v), ap) | _ => None end
  else if c =? CH_d then
    match ap with VInt v :: ap => Some (dec_text (u32 v), ap) | _ => None end
  else if c =? CH_D then
    match ap with VLong v :: ap => Some (dec_text (u64 v), ap) | _ => None end
  else if c =? CH_NUL then None
  else Some ([], ap).

(** The whole text; none when an argument is missing or of another type, and
    when the format does not end or ends in a percent sign. *)
Fixpoint render (fmt : list Z) (ap : list va) : option (list Z) :=
  match fmt with
  | [] => None
  | c :: fmt =>
      if c =? CH_NUL then Some []
      else if negb (c =? CH_PERCENT) then cons c <$> render fmt ap
      else match fmt with
           | [] => None
           | c :: fmt => '(t, ap) ← conversion c ap; app t <$> render fmt ap
           end
  end.

(** ** Writing into a buffer *)

(** From index [s], the beginning of [t] is written, up to index [end_], and the
    rest of the buffer stays. *)
Definition writes (m : M (list Z) Z) (s end_ : Z) (t : list Z) : Prop :=
  forall pre post, zlen pre = s -> end_ < s + zlen post ->
    let t := take (Z.to_nat (end_ - s)) t in
    m (pre ++ post) = Done (s + zlen t) (pre ++ t ++ drop (length t) post).

Lemma zlen_drop {A} n (l : list A) : (n <= length l)%nat -> zlen (drop n l) = zlen l - Z.of_nat n.
Proof. intros H. unfold zlen. rewrite length_drop. lia. Qed.

Lemma put_next (pre post : list Z) (x c : Z) :
  put (zlen pre) c (pre ++ x :: post) = Done tt (pre ++ c :: post).
Proof.
  unfold put, bind, gets, array_get, lookupZ, insertZ, modify, zlen.
  destruct (Z.leb_spec 0 (Z.of_nat (length pre))); [|lia]. rewrite Nat2Z.id. unfold id.
  rewrite list_lookup_middle by done. unfold ret. by rewrite insert_app_r_alt, Nat.sub_diag by lia.
Qed.

Lemma writes_nothing s end_ : writes (ret s) s end_ [].
Proof. intros pre post Hs _ t. subst t. rewrite take_nil. cbn. unfold ret. by rewrite Z.add_0_r. Qed.

Lemma writes_full s t : writes (ret s) s s t.
Proof.
  intros pre post Hs _ t'. subst t'. rewrite Z.sub_diag. cbn. unfold ret. by rewrite Z.add_0_r.
Qed.

Lemma writes_ext m m' s end_ t :
  (forall b, m b = m' b) -> writes m' s end_ t -> writes m s end_ t.
Proof. intros E H pre post Hs He. rewrite E. by apply H. Qed.

(** Writing one text after the other. *)
Lemma writes_app m (k : Z -> M (list Z) Z) s end_ t1 t2 :
  s <= end_ -> writes m s end_ t1 ->
  (forall s1, s <= s1 <= end_ -> writes (k s1) s1 end_ t2) ->
  writes (bind m k) s end_ (t1 ++ t2).
Proof.
  intros Hse H1 H2 pre post Hs He. cbn zeta. rewrite take_app.
  set (t1' := take (Z.to_nat (end_ - s)) t1).
  assert (Hlen : zlen t1' = Z.min (end_ - s) (zlen t1)).
  { unfold zlen, t1'. rewrite length_take. lia. }
  pose proof (zlen_nonneg t1). pose proof (zlen_nonneg t1').
  unfold bind. rewrite (H1 pre post) by done. cbn zeta. fold t1'.
  rewrite app_assoc, H2; cbn zeta.
  - replace (Z.to_nat (end_ - (s + zlen t1'))) with (Z.to_nat (end_ - s) - length t1)%nat
      by (unfold zlen in *; lia).
    rewrite zlen_app, <- !app_assoc, drop_drop, length_app. f_equal. lia.
  - lia.
  - by rewrite zlen_app, Hs.
  - rewrite zlen_drop; [unfold zlen in *; lia|]. unfold zlen in *. lia.
Qed.

Lemma writes_next s end_ c : s < end_ -> writes (write_next s c) s end_ [c].
Proof.
  intros Hse pre post Hs He. cbn zeta.
  destruct (Z.to_nat (end_ - s)) as [|n] eqn:E; [lia|]. cbn [take]. rewrite take_nil.
  destruct post as [|x post]; [change (zlen (@nil Z)) with 0 in He; lia|].
  unfold write_next, bind. rewrite <- Hs, put_next. cbn. by rewrite drop_0.
Qed.

Lemma writes_char s end_ c : s <= end_ -> writes (write_char s end_ c) s end_ [c].
Proof.
  intros Hse. unfold write_char. destruct (Z.eqb_spec s end_) as [->|]; cbn [negb].
  - apply writes_full.
  - apply writes_next. lia.
Qed.

(** A next character, then the rest. *)
Lemma writes_cons (k : Z -> M (list Z) Z) s end_ c t :
  s < end_ -> (forall s1, s <= s1 <= end_ -> writes (k s1) s1 end_ t) ->
  writes (let* s := write_next s c in k s) s end_ (c :: t).
Proof. intros Hs Hk. apply (writes_app _ k _ _ [c]); [lia|by apply writes_next|done]. Qed.

Lemma writes_buf s end_ t : s <= end_ -> writes (write_buf s end_ t) s end_ t.
Proof.
  revert s. induction t as [|c t IH]; intros s Hse; cbn [write_buf]; [apply writes_nothing|].
  destruct (Z.eqb_spec s end_) as [->|]; [apply writes_full|].
  apply writes_cons; [lia|]. intros s1 Hs1. apply IH. lia.
Qed.

Lemma writes_str s end_ src t :
  s <= end_ -> string_text src = Some t -> writes (write_str s end_ src) s end_ t.
Proof.
  revert s t. induction src as [|c src IH]; intros s t Hse E; cbn [write_str string_text] in *;
    [done|].
  destruct (Z.eqb_spec s end_) as [->|]; [apply writes_full|].
  destruct (c =? CH_NUL); [injection E as <-; apply writes_nothing|].
  destruct (string_text src) as [t'|]; [|done]. injection E as <-.
  apply writes_cons; [lia|]. intros s1 Hs1. apply IH; [lia|done].
Qed.

(** The numerals; [n] has at most [k] digits, for which the array has room. *)
Lemma writes_numeral s end_ size base digit k n :
  2 <= base -> s <= end_ -> 0 <= n < base ^ Z.of_nat k -> (k <= 64)%nat -> Z.of_nat k <= size ->
  writes (if (n =? 0) && negb (s =? end_) then write_next s (digit 0)
          else if negb (s =? end_) then
            let* buf := digits 64 size base digit n [] in write_buf s end_ buf
          else ret s) s end_ (map digit (numeral base n)).
Proof.
  intros Hb Hse Hn Hk Hsz. destruct (Z.eqb_spec s end_) as [->|]; cbn [negb].
  { rewrite andb_false_r. apply writes_full. }
  rewrite andb_true_r. unfold numeral. destruct (n =? 0); [apply writes_next; lia|].
  eapply writes_ext; [|by apply writes_buf]. intros b. unfold bind.
  rewrite (digits_numeral base Hb 64 size k digit n [] Hn Hk) with (acc := []); [done| |done].
  change (zlen (@nil Z)) with 0. lia.
Qed.

Lemma writes_dec s end_ n :
  s <= end_ -> 0 <= n < 2 ^ 64 -> writes (write_dec s end_ n) s end_ (dec_text n).
Proof. intros. apply (writes_numeral s end_ 24 10 dec_digit 20); lia. Qed.

Lemma writes_hex s end_ n :
  s <= end_ -> 0 <= n < 2 ^ 64 -> writes (write_hex s end_ n) s end_ (hex_text n).
Proof. intros. apply (writes_numeral s end_ 16 16 hex_digit 16); lia. Qed.

Lemma u32_u64 v : 0 <= u32 v < 2 ^ 64.
Proof. unfold u32. pose proof (Z.mod_pos_bound v (2 ^ 32)). lia. Qed.
Lemma u64_range v : 0 <= u64 v < 2 ^ 64.
Proof. apply Z.mod_pos_bound. lia. Qed.

Lemma convert_writes s end_ c ap t ap' :
  s <= end_ -> conversion c ap = Some (t, ap') ->
  exists m, (forall b, convert s end_ c ap b = bind m (fun s => ret (s, ap')) b) /\
            writes m s end_ t.
Proof.
  intros Hse E. unfold convert, conversion in *.
  destruct (c =? CH_PERCENT).
  { injection E as <- <-. exists (write_char s end_ CH_PERCENT). split; [done|by apply writes_char]. }
  destruct (c =? CH_c).
  { destruct ap as [|[v|v|v] ap]; try done. injection E as <- <-.
    eexists. split; [|by apply writes_char]. done. }
  destruct (c =? CH_s).
  { destruct ap as [|[v|v|v] ap]; try done. destruct (string_text v) as [t'|] eqn:Et; [|done].
    injection E as <- <-. eexists. split; [|by apply writes_str]. done. }
  destruct (c =? CH_x).
  { destruct ap as [|[v|v|v] ap]; try done. injection E as <- <-.
    eexists. split; [|apply writes_hex; [done|apply u32_u64]]. done. }
  destruct (c =? CH_X).
  { destruct ap as [|[v|v|v] ap]; try done. injection E as <- <-.
    eexists. split; [|apply writes_hex; [done|apply u64_range]]. done. }
  destruct (c =? CH_d).
  { destruct ap as [|[v|v|v] ap]; try done. injection E as <- <-.
    eexists. split; [|apply writes_dec; [done|apply u32_u64]]. done. }
  destruct (c =? CH_D).
  { destruct ap as [|[v|v|v] ap]; try done. injection E as <- <-.
    eexists. split; [|apply writes_dec; [done|apply u64_range]]. done. }
  destruct (c =? CH_NUL); [done|]. injection E as <- <-. exists (ret s).
  split; [done|apply writes_nothing].
Qed.

Lemma writes_loop n fmt ap s end_ t :
  (length fmt <= n)%nat -> s <= end_ -> render fmt ap = Some t ->
  writes (vsnprintf_loop s end_ fmt ap) s end_ t.
Proof.
  revert fmt ap s t. induction n as [|n IH]; intros fmt ap s t Hn Hse E;
    (destruct fmt as [|c fmt]; [done|]); cbn [length] in Hn; [lia|].
  cbn [render vsnprintf_loop] in *.
  destruct (c =? CH_NUL); [injection E as <-; apply writes_nothing|]. cbn [orb].
  destruct (Z.eqb_spec s end_) as [->|]; [apply writes_full|].
  destruct (c =? CH_PERCENT); cbn [negb] in *.
  - destruct fmt as [|c' fmt]; [done|]. cbn [length] in Hn.
    destruct (conversion c' ap) as [[t1 ap1]|] eqn:Ec; [|done]. cbn in E.
    destruct (render fmt ap1) as [t2|] eqn:Er; [|done]. injection E as <-.
    destruct (convert_writes s end_ c' ap t1 ap1) as (m & Em & Hm); [lia|done|].
    apply (writes_ext _ (let* s := m in vsnprintf_loop s end_ fmt ap1)).
    { intros b. unfold bind at 1. rewrite Em. unfold bind. by destruct (m b). }
    apply writes_app; [lia|done|]. intros s1 Hs1. apply IH; [lia|lia|done].
  - destruct (render fmt ap) as [t'|] eqn:Er; [|done]. injection E as <-.
    apply (writes_app _ _ _ _ [c]); [lia|apply writes_char; lia|].
    intros s1 Hs1. apply IH; [lia|lia|done].
Qed.

Section Formatting.
Implicit Types (b t : list Z).

Lemma vsnprintf_text b size fmt ap t :
  zlen b = size -> 0 < size -> render fmt ap = Some t ->
  let t := take (Z.to_nat (size - 1)) t in
  alt_vsnprintf size fmt ap b = Done (zlen t) (t ++ CH_NUL :: drop (S (length t)) b).
Proof.
  intros Hb Hsz E. cbn zeta. set (t' := take _ t).
  pose proof (writes_loop (length fmt) fmt ap 0 (size - 1) t ltac:(done) ltac:(lia) E
    [] b ltac:(done) ltac:(lia)) as Hw.
  rewrite Z.sub_0_r in Hw. fold t' in Hw. cbn [app] in Hw. rewrite Z.add_0_l in Hw.
  unfold alt_vsnprintf, bind. rewrite Hw.
  assert (Hlen : (length t' < length b)%nat) by (unfold t', zlen in *; rewrite length_take; lia).
  destruct (drop (length t') b) as [|x post] eqn:Ed.
  { apply (f_equal length) in Ed. rewrite length_drop in Ed. cbn in Ed. lia. }
  rewrite put_next. unfold ret. do 3 f_equal.
  replace (S (length t')) with (length t' + 1)%nat by lia. by rewrite <- drop_drop, Ed.
Qed.

(** [C25]: [alt_vsnprintf] writes the rendering of its format and arguments, cut
    to the size of the buffer: the text that fits in [size - 1] bytes, a zero
    byte after it, and nothing else; it returns the length of the text written,
    and never reads or writes outside an array. *)
Theorem vsnprintf_renders b size fmt ap t :
  zlen b = size -> 0 < size -> render fmt ap = Some t ->
  let t := take (Z.to_nat (size - 1)) t in
  alt_vsnprintf size fmt ap b = Done (zlen t) (t ++ CH_NUL :: drop (S (length t)) b).
Proof. apply vsnprintf_text. Qed.

(** Numbers are written so that they can be read back: with room for
    twenty bytes [write_dec] writes decimal digits whose value is the number,
    and with room for sixteen [write_hex] writes hexadecimal digits. *)
Theorem numerals_roundtrip n pre post :
  0 <= n < 2 ^ 64 -> 20 < zlen post ->
  let s := zlen pre in let e := s + zlen post - 1 in
  (exists ds, write_dec s e n (pre ++ post) =
     Done (s + zlen ds) (pre ++ map dec_digit ds ++ drop (length ds) post) /\
     value 10 ds = n /\ Forall (fun d => 0 <= d < 10) ds) /\
  (exists ds, write_hex s e n (pre ++ post) =
     Done (s + zlen ds) (pre ++ map hex_digit ds ++ drop (length ds) post) /\
     value 16 ds = n /\ Forall (fun d => 0 <= d < 16) ds).
Proof.
  intros Hn Hp s e.
  assert (Hcase : forall m base digit k, 2 <= base -> n < base ^ Z.of_nat k -> (0 < k <= 20)%nat ->
    n < base ^ 64 -> writes m s e (map digit (numeral base n)) ->
    exists ds, m (pre ++ post) = Done (s + zlen ds) (pre ++ map digit ds ++ drop (length ds) post) /\
      value base ds = n /\ Forall (fun d => 0 <= d < base) ds).
  { intros m base digit k Hb Hk Hk' H64 Hw. exists (numeral base n).
    pose proof (numeral_length base Hb n k ltac:(lia) ltac:(lia)) as Hl.
    split; [|split; [apply numeral_value; lia|apply numeral_digits; lia]].
    rewrite (Hw pre post); [|done|unfold e; lia]. cbn zeta.
    rewrite take_ge by (rewrite length_map; unfold s, e, zlen in *; lia).
    unfold zlen. by rewrite length_map. }
  split.
  - eapply (Hcase _ 10 dec_digit 20%nat); [lia..|]. apply writes_dec; [unfold e; lia|lia].
  - eapply (Hcase _ 16 hex_digit 16%nat); [lia..|]. apply writes_hex; [unfold e; lia|lia].
Qed.
End Formatting.

(** ** The text of a capability *)

(** The most an argument adds to a text, over its two characters of the format. *)
Definition excess (a : va) : Z :=
  match a with VInt _ => 8 | VLong _ => 18 | VString _ => 0 end.
Definition number (a : va) : bool := match a with VString _ => false | _ => true end.

Definition erase (a : va) : va :=
  match a with VInt _ => VInt 0 | VLong _ => VLong 0 | VString s => VString s end.

Lemma dec_text_length n k :
  0 <= n < 10 ^ Z.of_nat k -> (0 < k)%nat -> (length (dec_text n) <= k)%nat.
Proof. intros. unfold dec_text. rewrite length_map. by apply numeral_length. Qed.
Lemma hex_text_length n k :
  0 <= n < 16 ^ Z.of_nat k -> (0 < k)%nat -> (length (hex_text n) <= k)%nat.
Proof. intros. unfold hex_text. rewrite length_map. by apply numeral_length. Qed.

(** Whether there is a text depends on the types of the arguments only. *)
Lemma conversion_erase c ap t ap0 :
  conversion c (map erase ap) = Some (t, ap0) ->
  exists t' ap', conversion c ap = Some (t', ap') /\ ap0 = map erase ap'.
Proof.
  unfold conversion. intros E. repeat case_match; simplify_option_eq; eauto;
    destruct ap as [|[v|v|v] ap]; try done; cbn in *; simplify_eq; eauto;
    rewrite ?E; cbn; eauto.
Qed.

Lemma render_erase n fmt ap :
  (length fmt <= n)%nat -> is_Some (render fmt (map erase ap)) -> is_Some (render fmt ap).
Proof.
  revert fmt ap. induction n as [|n IH]; intros fmt ap Hn [t E];
    (destruct fmt as [|c fmt]; [done|]); cbn [length] in Hn; [lia|]. cbn [render] in *.
  destruct (c =? CH_NUL); [by eexists|]. destruct (negb _).
  - destruct (render fmt (map erase ap)) as [t'|] eqn:Er; [|done].
    destruct (IH fmt ap ltac:(lia) ltac:(by eexists)) as [t'' ->]. by eexists.
  - destruct fmt as [|c' fmt]; [done|]. cbn [length] in Hn.
    destruct (conversion c' (map erase ap)) as [[t1 ap1]|] eqn:Ec; [|done]. cbn in E.
    destruct (conversion_erase _ _ _ _ Ec) as (t1' & ap1' & -> & ->). cbn.
    destruct (render fmt (map erase ap1')) as [t2|] eqn:Er; [|done].
    destruct (IH fmt ap1' ltac:(lia) ltac:(by eexists)) as [t'' ->]. by eexists.
Qed.

Lemma u32_dec v : 0 <= u32 v < 10 ^ Z.of_nat 10.
Proof. unfold u32. pose proof (Z.mod_pos_bound v (2 ^ 32)). lia. Qed.
Lemma u32_hex v : 0 <= u32 v < 16 ^ Z.of_nat 10.
Proof. unfold u32. pose proof (Z.mod_pos_bound v (2 ^ 32)). lia. Qed.
Lemma u64_dec v : 0 <= u64 v < 10 ^ Z.of_nat 20.
Proof. pose proof (u64_range v). lia. Qed.
Lemma u64_hex v : 0 <= u64 v < 16 ^ Z.of_nat 20.
Proof. pose proof (u64_range v). lia. Qed.

Definition total_excess (ap : list va) : Z := foldr (fun a n => excess a + n) 0 ap.

Lemma conversion_length c ap t ap' :
  conversion c ap = Some (t, ap') -> forallb number ap = true ->
  forallb number ap' = true /\ zlen t + total_excess ap' <= total_excess ap + 2.
Proof.
  unfold conversion. intros E Hn.
  repeat case_match; simplify_eq; try done; cbn [forallb number andb] in *; try done;
    (split; [done|]); cbn [total_excess foldr excess]; fold (total_excess ap');
    change (zlen [_]) with 1; unfold zlen.
  all: try (change (length (@nil Z)) with 0%nat); try lia.
  all: match goal with
       | |- Z.of_nat (length (hex_text (u32 ?v))) + _ <= _ =>
           pose proof (hex_text_length _ 10 (u32_hex v))
       | |- Z.of_nat (length (hex_text (u64 ?v))) + _ <= _ =>
           pose proof (hex_text_length _ 20 (u64_hex v))
       | |- Z.of_nat (length (dec_text (u32 ?v))) + _ <= _ =>
           pose proof (dec_text_length _ 10 (u32_dec v))
       | |- Z.of_nat (length (dec_text (u64 ?v))) + _ <= _ =>
           pose proof (dec_text_length _ 20 (u64_dec v))
       end; lia.
Qed.

Lemma render_length n fmt ap t :
  (length fmt <= n)%nat -> forallb number ap = true -> render fmt ap = Some t ->
  zlen t + 1 <= zlen fmt + total_excess ap.
Proof.
  revert fmt ap t. induction n as [|n IH]; intros fmt ap t Hn Hap E;
    (destruct fmt as [|c fmt]; [done|]); cbn [length] in Hn; [lia|]. cbn [render] in *.
  assert (Hpos : forall l, 0 <= total_excess l).
  { intros l. induction l as [|[] l]; cbn [total_excess foldr excess] in *;
      try change (foldr _ 0 l) with (total_excess l); lia. }
  assert (Hcons : forall (x : Z) l, zlen (x :: l) = zlen l + 1) by (intros; unfold zlen; cbn; lia).
  rewrite Hcons. destruct (c =? CH_NUL).
  { injection E as <-. pose proof (Hpos ap). pose proof (zlen_nonneg fmt).
    change (zlen (@nil Z)) with 0. lia. }
  destruct (negb _).
  - destruct (render fmt ap) as [t'|] eqn:Er; [|done]. injection E as <-.
    pose proof (IH fmt ap t' ltac:(lia) Hap Er). rewrite Hcons. lia.
  - destruct fmt as [|c' fmt]; [done|]. cbn [length] in Hn. rewrite Hcons.
    destruct (conversion c' ap) as [[t1 ap1]|] eqn:Ec; [|done]. cbn in E.
    destruct (render fmt ap1) as [t2|] eqn:Er; [|done]. injection E as <-.
    destruct (conversion_length _ _ _ _ Ec Hap) as [Hap1 Hl].
    pose proof (IH fmt ap1 t2 ltac:(lia) Hap1 Er). rewrite zlen_app. lia.
Qed.

(** [C26]: The description of a capability always fits: for every word,
    [cap_snprint] with a buffer of 128 bytes, as [ctable_init] has, writes the
    whole text of its format without a fault, and the final zero. *)
Theorem cap_snprint_fits b cap :
  zlen b = 128 -> exists t, render (cap_format cap).1 (cap_format cap).2 = Some t /\
  zlen t < 128 /\ cap_snprint 128 cap b = Done tt (t ++ CH_NUL :: drop (S (length t)) b).
Proof.
  intros Hb.
  assert (H : is_Some (render (cap_format cap).1 (map erase (cap_format cap).2)) /\
    forallb number (cap_format cap).2 = true /\
    zlen (cap_format cap).1 + total_excess (cap_format cap).2 <= 128).
  { unfold cap_format. destruct (pmp_napot_decode cap⟦pmp_addr⟧) as [base size].
    repeat (case_match; [by vm_compute; split; [eexists|]|]). by vm_compute; split; [eexists|]. }
  destruct H as (Hr & Hn & Hl). apply (render_erase _ _ _ ltac:(done)) in Hr as [t Et].
  pose proof (render_length _ _ _ _ ltac:(done) Hn Et) as Ht.
  exists t. split; [done|]. split; [lia|]. unfold cap_snprint.
  destruct (cap_format cap) as [fmt ap]. cbn [fst snd] in *.
  unfold alt_snprintf, bind. rewrite (vsnprintf_text b 128 fmt ap t) by (done || lia).
  cbn zeta. rewrite take_ge by (unfold zlen in *; lia). done.
Qed.

(** ** Witnesses *)

(** Eight bytes are not enough for the whole text. *)
Example vsnprintf_renders_witness :
  let t := take (Z.to_nat (8 - 1)) (removelast (literal "a=255, b=FF")) in
  alt_vsnprintf 8 (literal "a=%d, b=%X") [VInt 255; VLong 255] (replicate 8 0) =
    Done (zlen t) (t ++ CH_NUL :: drop (S (length t)) (replicate 8 0)).
Proof.
  apply (vsnprintf_renders (replicate 8 0) 8 (literal "a=%d, b=%X") [VInt 255; VLong 255]
    (removelast (literal "a=255, b=FF"))); vm_compute; reflexivity.
Defined.

Example numerals_roundtrip_witness :
  let s := zlen [7; 7] in let e := s + zlen (replicate 24 0) - 1 in
  (exists ds, write_dec s e 4096 ([7; 7] ++ replicate 24 0) =
     Done (s + zlen ds) ([7; 7] ++ map dec_digit ds ++ drop (length ds) (replicate 24 0)) /\
     value 10 ds = 4096 /\ Forall (fun d => 0 <= d < 10) ds) /\
  (exists ds, write_hex s e 4096 ([7; 7] ++ replicate 24 0) =
     Done (s + zlen ds) ([7; 7] ++ map hex_digit ds ++ drop (length ds) (replicate 24 0)) /\
     value 16 ds = 4096 /\ Forall (fun d => 0 <= d < 16) ds).
Proof. apply (numerals_roundtrip 4096 [7; 7] (replicate 24 0)); [lia|vm_compute; reflexivity]. Defined.

Example cap_snprint_fits_witness :
  exists t, render (cap_format U64_MAX).1 (cap_format U64_MAX).2 = Some t /\
  zlen t < 128 /\
  cap_snprint 128 U64_MAX (replicate 128 0) =
    Done tt (t ++ CH_NUL :: drop (S (length t)) (replicate 128 0)).
Proof. apply (cap_snprint_fits (replicate 128 0) U64_MAX). reflexivity. Defined.

(** A format that ends in a percent sign is read past its end. *)
Example percent_overread :
  alt_vsnprintf 8 (literal "100%") [] (replicate 8 0) = Fault OutOfBounds.
Proof. reflexivity. Qed.
