(* ===== verification/ConsoleTheorems.v ===== *)
(** * The console: theorems

    What the routines of the console send and receive, on every driver that keeps
    its promise, and on the two drivers of the repository. *)

From Stdlib Require Import String.
From S2P Require Import Prelude Config Printf PrintfTheorems Console Ns16550a Sifive.

#[local] Open Scope Z_scope.
#[local] Open Scope list_scope.

(** The beginning of a text up to a zero byte. *)
Fixpoint c_text (t : list Z) : list Z :=
  match t with [] => [] | c :: t => if c =? CH_NUL then [] else c :: c_text t end.

Section Any.
Context {W : Type} `{SerialWorks W up line}.

(** The driver is up and the bytes [t] have been sent. *)
Definition has_sent (t : list Z) (d d' : W) : Prop :=
  up d' /\ line d' = ConsoleState (sent (line d) ++ t) (incoming (line d)).

Lemma has_sent_trans t t' d d' d'' : has_sent t d d' -> has_sent t' d' d'' -> has_sent (t ++ t') d d''.
Proof. intros [_ E] [Hup E']. split; [done|]. rewrite E', E. cbn. by rewrite app_assoc. Qed.

Lemma sends_char d c : up d -> wp (alt_putchar c) (fun r d' => r = c /\ has_sent [u8 c] d d') d.
Proof.
  intros Hup. unfold alt_putchar. apply wp_bind. eapply wp_mono; [by apply sw_putc|].
  intros _ d' (_ & Hup' & E). by apply wp_ret.
Qed.

Lemma sends_string t rest : forall i d, up d ->
  wp (putstr_loop i (t ++ CH_NUL :: rest))
    (fun r d' => r = i + zlen (c_text t) /\ has_sent (map u8 (c_text t)) d d') d.
Proof.
  assert (Hnil : forall i d, up d ->
    wp (ret i) (fun r d' => r = i + zlen (c_text []) /\ has_sent (map u8 (c_text [])) d d') d).
  { intros i d Hup. apply wp_ret. split; [change (zlen (c_text [])) with 0; lia|]. split; [done|]. cbn. rewrite app_nil_r. by destruct (line d). }
  induction t as [|c t IH]; intros i d Hup; cbn [app putstr_loop c_text]; [by apply Hnil|].
  destruct (c =? CH_NUL); [by apply Hnil|]. apply wp_bind. eapply wp_mono; [by apply sends_char|].
  intros _ d1 [_ Hd1]. eapply wp_mono; [apply IH, Hd1|]. intros r d2 [-> Hd2].
  split; [unfold zlen; cbn [length]; lia|]. apply (has_sent_trans [u8 c] _ _ _ _ Hd1 Hd2).
Qed.

(** [alt_puts] sends the string and the end of a line. *)
Lemma sends_puts t rest d : up d ->
  wp (alt_puts (t ++ CH_NUL :: rest))
    (fun r d' => r = zlen (c_text t) /\ has_sent (map u8 (c_text t) ++ [CH_CR; CH_LF]) d d') d.
Proof.
  intros Hup. unfold alt_puts, alt_putstr. apply wp_bind. eapply wp_mono; [by apply sends_string|].
  intros r d1 [-> H1]. apply wp_bind. eapply wp_mono; [apply sends_char, H1|]. intros _ d2 [_ H2].
  apply wp_bind. eapply wp_mono; [apply sends_char, H2|]. intros _ d3 [_ H3]. apply wp_ret.
  split; [lia|]. change [CH_CR; CH_LF] with ([u8 CH_CR] ++ [u8 CH_LF]).
  eapply has_sent_trans; [done|]. by eapply has_sent_trans.
Qed.

(** Formatting into a local buffer and sending it. *)
Lemma sends_formatted size b fmt ap t d : up d -> zlen b = size -> 0 < size -> render fmt ap = Some t ->
  let t := take (Z.to_nat (size - 1)) t in
  wp (format_and_send size b fmt ap)
    (fun r d' => r = zlen t /\ has_sent (map u8 (c_text t)) d d') d.
Proof.
  intros Hup Hb Hs Ht t'. unfold format_and_send.
  rewrite (vsnprintf_text b size fmt ap t Hb Hs Ht). fold t'. unfold alt_putstr.
  apply wp_bind. eapply wp_mono; [by apply sends_string|]. intros _ d' [_ Hd]. by apply wp_ret.
Qed.

(** [kprintf] on one hart. *)
Lemma sends_kprintf fetch release fuel b verb fmt ap t d : up d -> zlen b = BUF_SIZE ->
  render fmt ap = Some t -> verb <= VERBOSITY ->
  wp (kprintf fetch release false fuel b verb fmt ap)
    (fun _ d' => has_sent (map u8 (c_text (take 127 t))) d d') d.
Proof.
  intros Hup Hb Ht Hv. unfold kprintf. rewrite (proj2 (Z.ltb_ge _ _)) by done.
  rewrite (vsnprintf_text b BUF_SIZE fmt ap t Hb ltac:(done) Ht). apply wp_bind. apply wp_ret.
  apply wp_bind. eapply wp_mono; [by apply sends_string|]. intros _ d' [_ Hd]. by apply wp_ret.
Qed.

(** [alt_gets] takes the bytes up to the end of the line, when the buffer has
    room for them. *)
Lemma receives_line t rest : forall fuel i src d, up d -> incoming (line d) = t ++ CH_LF :: rest ->
  Forall (fun c => 0 <= c < 256 /\ c <> CH_LF /\ c <> CH_NUL) t -> (length t < fuel)%nat ->
  0 <= i -> i + zlen t < zlen src ->
  wp (gets_loop fuel i src) (fun r d' => r.1 = i + zlen t /\ zlen r.2 = zlen src /\
    (forall j, lookupZ r.2 j = if (i <=? j) && (j <=? i + zlen t)
                               then lookupZ (t ++ [CH_NUL]) (j - i) else lookupZ src j) /\
    up d' /\ line d' = ConsoleState (sent (line d)) rest) d.
Proof.
  induction t as [|c t IH]; intros fuel i src d Hup Ein Ht Hf Hi Hlen; (destruct fuel as [|fuel]; [cbn in Hf; lia|]);
    cbn [app gets_loop] in *; unfold alt_getchar; change (zlen (@nil Z)) with 0 in *; apply wp_bind.
  - eapply wp_mono; [by eapply sw_getc|]. intros x d' (-> & Hup' & E). cbv beta zeta. change (u8 CH_LF) with CH_LF.
    destruct (lookupZ_lt src i) as [y Hy]; [lia|]. apply wp_bind. eapply wp_array_get; [exact Hy|].
    change ((CH_LF =? CH_LF) || (CH_LF =? CH_NUL)) with true. apply wp_ret. cbn [fst snd].
    rewrite insertZ_insertZ, zlen_insertZ. split; [lia|]. split; [done|]. split; [|done]. intros j.
    destruct (Z.leb_spec i j), (Z.leb_spec j (i + 0)); cbn [andb];
      [replace j with i by lia; rewrite Z.sub_diag, lookupZ_insertZ_eq by lia; done|
       by rewrite lookupZ_insertZ_ne by lia..].
  - eapply wp_mono; [by eapply sw_getc|]. intros x d' (-> & Hup' & E). cbv beta zeta.
    apply Forall_cons in Ht as [(Hc & H1 & H2) Ht]. replace (u8 c) with c by (symmetry; apply Z.mod_small; lia).
    assert (El : zlen (c :: t) = zlen t + 1) by (unfold zlen; cbn; lia). rewrite El in *.
    pose proof (zlen_nonneg t).
    destruct (lookupZ_lt src i) as [y Hy]; [lia|]. apply wp_bind. eapply wp_array_get; [exact Hy|].
    rewrite (proj2 (Z.eqb_neq _ _) H1), (proj2 (Z.eqb_neq _ _) H2). cbn [orb].
    eapply wp_mono; [apply IH; [done|by rewrite E|done|cbn in Hf; lia|lia|rewrite zlen_insertZ; lia]|].
    cbn beta. intros [n s] d'' (-> & E2 & E3 & Hup2 & E4). cbn [fst snd] in *.
    rewrite zlen_insertZ in E2. split; [lia|]. split; [done|]. split; [|by rewrite E4, E].
    intros j. rewrite E3. destruct (Z.leb_spec (i + 1) j), (Z.leb_spec i j), (Z.leb_spec j (i + 1 + zlen t)),
      (Z.leb_spec j (i + (zlen t + 1))); cbn [andb]; try lia.
    all: try (by rewrite lookupZ_insertZ_ne by lia).
    + unfold lookupZ. rewrite !(proj2 (Z.leb_le 0 _)) by lia.
      replace (Z.to_nat (j - i)) with (S (Z.to_nat (j - (i + 1)))) by lia. done.
    + replace j with i by lia. rewrite Z.sub_diag, lookupZ_insertZ_eq by lia. done.
Qed.
End Any.

(** ** The drivers *)

Section Drivers.
Context {D : Type} `{Ns : Ns16550aWorks D line line_control tx_wait rx_wait patience}.
Context {D' : Type} `{Sf : SifiveWorks D' line' tx_control rx_control tx_wait' rx_wait' patience'}.
Context (fuel : nat) (Hfuel : (patience < fuel)%nat) (Hfuel' : (patience' < fuel)%nat).

(** [C38]: from [printf] down to the registers of the serial port: with the
    NS16550A and with the SiFive device, after [alt_init] [alt_printf] sends
    exactly the rendering of its format and arguments, cut to the 127 bytes of its
    buffer and ended by a zero byte in it, and returns within the fuel, which
    has to exceed the number of times the device reports to be busy. *)
Theorem alt_printf_sends b fmt ap t d d' : zlen b = ALT_PRINTF_BUF_SIZE -> render fmt ap = Some t ->
  let t := take 127 t in
  wp (do* alt_init (H := ns16550a fuel) in alt_printf (H := ns16550a fuel) b fmt ap)
    (fun r x => r = zlen t /\ sent (line x) = sent (line d) ++ map u8 (c_text t)) d /\
  wp (do* alt_init (H := sifive fuel) in alt_printf (H := sifive fuel) b fmt ap)
    (fun r x => r = zlen t /\ sent (line' x) = sent (line' d') ++ map u8 (c_text t)) d'.
Proof.
  intros Hb Ht t'. split; apply wp_bind.
  - eapply wp_mono; [by apply ns16550a_starts|]. intros _ d1 [Hup E]. eapply wp_mono.
    { apply (sends_formatted (H0 := ns16550a_works fuel Hfuel) ALT_PRINTF_BUF_SIZE b fmt ap t d1 Hup Hb ltac:(done) Ht). }
    cbn beta. intros r d2 [-> [_ ->]]. by rewrite E.
  - eapply wp_mono; [by apply sifive_starts|]. intros _ d1 [Hup E]. eapply wp_mono.
    { apply (sends_formatted (H0 := sifive_works fuel Hfuel') ALT_PRINTF_BUF_SIZE b fmt ap t d1 Hup Hb ltac:(done) Ht). }
    cbn beta. intros r d2 [-> [_ ->]]. by rewrite E.
Qed.
End Drivers.

Example alt_printf_sends_witness :
  let t := take 127 (removelast (literal "epc: 0x1F4, 100%")) in
  let d := NsDev (ConsoleState [] []) 0 true in
  let d' := SfDev (ConsoleState [] []) 0 0 true in
  let fmt := literal "epc: 0x%x, %d%%" in let ap := [VInt 500; VInt 100] in
  wp (do* alt_init (H := ns16550a 2) in alt_printf (H := ns16550a 2) (replicate 128 7) fmt ap)
    (fun r x => r = zlen t /\ sent (n_line x) = [] ++ map u8 (c_text t)) d /\
  wp (do* alt_init (H := sifive 2) in alt_printf (H := sifive 2) (replicate 128 7) fmt ap)
    (fun r x => r = zlen t /\ sent (sf_line x) = [] ++ map u8 (c_text t)) d'.
Proof.
  apply (alt_printf_sends (line := n_line) (line' := sf_line) (patience := 1) (patience' := 1) 2 ltac:(lia) ltac:(lia) (replicate 128 7)
    (literal "epc: 0x%x, %d%%") [VInt 500; VInt 100]); vm_compute; reflexivity.
Defined.
