(* ===== verification/Smp.v ===== *)
(** * Synchronisation between harts

    [kernel/src/smp/semaphore.c], [kernel/src/smp/taslock.c] and
    [kernel/src/cap_lock.c]: the counting semaphore that protects the schedule
    ([S3K_HART_CNT] tickets: a reader takes one, a writer all) and the lock that
    serialises the system calls on capabilities.  Every access to a shared word
    is atomic; the harts interleave between them.  The functions are translated
    as one hart runs them; a step relation runs the same accesses of any number
    of harts in any order. *)

From S2P Require Import Prelude Config KState Syscall.

(** ** Sums over the harts *)

Section Totals.
Context {A : Type}.
Implicit Types (f g : A -> Z) (l : list A).

Fixpoint total f l : Z := match l with [] => 0 | x :: l => f x + total f l end.

Lemma total_insert f l i x y : l !! i = Some x ->
  total f (<[i:=y]> l) = total f l - f x + f y.
Proof.
  revert i. induction l as [|z l IH]; intros [|i] Hx; [done|done| |].
  - injection Hx as <-. cbn. lia.
  - change (<[S i:=y]> (z :: l)) with (z :: <[i:=y]> l). cbn [total]. rewrite (IH i Hx). lia.
Qed.

Lemma total_le f g l : (forall x, x ∈ l -> f x <= g x) -> total f l <= total g l.
Proof.
  induction l as [|x l IH]; cbn; [lia|]. intros H.
  pose proof (H x ltac:(set_solver)). specialize (IH ltac:(set_solver)). lia.
Qed.

Lemma total_nonneg f l : (forall x, x ∈ l -> 0 <= f x) -> 0 <= total f l.
Proof.
  intros H. transitivity (total (fun _ => 0) l).
  - clear H. induction l as [|x l IH]; cbn; [done|]. lia.
  - by apply total_le.
Qed.

Lemma total_zero f l : (forall x, x ∈ l -> f x = 0) -> total f l = 0.
Proof.
  induction l as [|x l IH]; cbn; [done|]. intros H.
  rewrite (H x ltac:(set_solver)). specialize (IH ltac:(set_solver)). lia.
Qed.

Lemma total_bounds f l x : x ∈ l -> (forall x, x ∈ l -> 0 <= f x) -> f x <= total f l.
Proof.
  induction l as [|z l IH]; [by intros []%elem_of_nil|]. intros Hx H.
  pose proof (total_nonneg f l ltac:(intros; apply H; set_solver)) as Hl.
  pose proof (H z ltac:(set_solver)). cbn.
  apply elem_of_cons in Hx as [->|Hx]; [lia|].
  specialize (IH Hx ltac:(intros; apply H; set_solver)). lia.
Qed.
End Totals.

(** ** The semaphore *)

(** [semaphore_t] *)
Record semaphore := Semaphore { released : Z; acquired : Z }.

Definition semaphore_init (tickets : Z) : M semaphore unit :=
  modify (fun _ => Semaphore (u64 tickets) 0).

(** [__atomic_add_fetch(&sem->acquired, n, ...)] *)
Definition take_ticket (n : Z) : M semaphore Z := fun s =>
  let t := u64 (acquired s + n) in Done t (Semaphore (released s) t).

(** The test of the loop: the ticket is above those released. *)
Definition ticket_waits (my_ticket : Z) : M semaphore bool :=
  gets (fun s => released s <? my_ticket).

Definition semaphore_acquire_n (fuel : nat) (n : Z) : M semaphore unit :=
  let* my_ticket := take_ticket n in
  while_busy fuel (ticket_waits my_ticket).

Definition semaphore_release_n (n : Z) : M semaphore unit :=
  modify (fun s => Semaphore (u64 (released s + n)) (acquired s)).

Definition semaphore_acquire (fuel : nat) : M semaphore unit := semaphore_acquire_n fuel 1.
Definition semaphore_release : M semaphore unit := semaphore_release_n 1.

(** ** Many harts on one semaphore *)

(** Where a hart is in [semaphore_acquire_n]: outside, in the loop with its
    ticket for [n], or past it. *)
Inductive sem_pc :=
| SemIdle
| SemWait (ticket n : Z)
| SemHold (n : Z).

#[export] Instance sem_pc_eq_dec : EqDecision sem_pc.
Proof. solve_decision. Defined.

Definition waits (x : sem_pc) : Z := match x with SemWait _ n => n | _ => 0 end.
Definition holds (x : sem_pc) : Z := match x with SemHold n => n | _ => 0 end.
(** The tickets a hart waits for, beyond the count [x]. *)
Definition waits_past (b : Z) (x : sem_pc) : Z :=
  match x with SemWait t n => if b <? t then n else 0 | _ => 0 end.
Definition waits_before (b : Z) (x : sem_pc) : Z :=
  match x with SemWait t n => if t <? b then n else 0 | _ => 0 end.

Record sem_sys := SemSys { sem : semaphore; harts : list sem_pc }.

Section Semaphore.
(** The tickets of the semaphore, and so the most a hart asks for. *)
Context (N : Z) (HN : 0 < N).

(** One access of one hart. *)
Inductive sem_step : sem_sys -> sem_sys -> Prop :=
| sem_take s l i n t s' :
    l !! i = Some SemIdle -> 0 < n <= N -> take_ticket n s = Done t s' ->
    sem_step (SemSys s l) (SemSys s' (<[i := SemWait t n]> l))
| sem_spin s l i t n :
    l !! i = Some (SemWait t n) -> ticket_waits t s = Done true s ->
    sem_step (SemSys s l) (SemSys s l)
| sem_enter s l i t n :
    l !! i = Some (SemWait t n) -> ticket_waits t s = Done false s ->
    sem_step (SemSys s l) (SemSys s (<[i := SemHold n]> l))
| sem_leave s l i n s' :
    l !! i = Some (SemHold n) -> semaphore_release_n n s = Done tt s' ->
    sem_step (SemSys s l) (SemSys s' (<[i := SemIdle]> l)).

(** The semaphore after [semaphore_init(&sem, N)], with [m] harts. *)
Definition sem_start (m : nat) : sem_sys :=
  SemSys (Semaphore (u64 N) 0) (replicate m SemIdle).

(** The invariant, [k] steps after the start: the counts add up; beyond every
    number of released tickets, all tickets handed out are waited for; and the
    tickets before a waiting one account for its number. *)
Record sem_inv (k : Z) (x : sem_sys) : Prop := {
  si_released : N <= released (sem x) <= N + k * N;
  si_acquired : 0 <= acquired (sem x) <= k * N;
  si_counts : acquired (sem x) + N =
    released (sem x) + total waits (harts x) + total holds (harts x);
  si_beyond : forall b, released (sem x) <= b ->
    acquired (sem x) - b <= total (waits_past b) (harts x);
  si_pcs : forall y, y ∈ harts x ->
    match y with
    | SemIdle => True
    | SemWait t n => 0 < n <= N /\ t <= acquired (sem x) /\
        t <= n + (released (sem x) - N) + total holds (harts x) + total (waits_before t) (harts x)
    | SemHold n => 0 < n <= N
    end
}.

Lemma sem_inv_start m : N < 2 ^ 64 -> sem_inv 0 (sem_start m).
Proof.
  intros Hb. assert (E : u64 N = N) by (apply Z.mod_small; lia). unfold sem_start. rewrite E.
  assert (Hz : forall f : sem_pc -> Z, f SemIdle = 0 -> total f (replicate m SemIdle) = 0).
  { intros f Hf. apply total_zero. by intros x [-> _]%elem_of_replicate. }
  split; cbn; [lia|lia|rewrite !Hz by done; lia| |].
  - intros b Hb'. rewrite Hz by done. lia.
  - by intros y [-> _]%elem_of_replicate.
Qed.

Lemma elem_insert {A} (l : list A) i a y : y ∈ <[i:=a]> l -> y = a \/ y ∈ l.
Proof.
  rewrite !list_elem_of_lookup. intros [j Hj]. destruct (decide (i = j)) as [->|Hne].
  - assert (Hl : (j < length l)%nat)
      by (rewrite <- (length_insert l j a); by eapply lookup_lt_Some).
    rewrite list_lookup_insert_eq in Hj by done. left. congruence.
  - rewrite list_lookup_insert_ne in Hj by done. right. eauto.
Qed.

Lemma sem_inv_take k s l i n :
  sem_inv k (SemSys s l) -> l !! i = Some SemIdle -> 0 < n <= N -> N + (k + 1) * N < 2 ^ 64 ->
  0 <= k ->
  sem_inv (k + 1) (SemSys (Semaphore (released s) (acquired s + n))
                     (<[i := SemWait (acquired s + n) n]> l)).
Proof.
  intros [H1 H2 H3 H4 H5] Hi Hr Hb Hk. cbn in *.
  assert (Hlt : total waits l <= total (waits_before (acquired s + n)) l).
  { apply total_le. intros y Hy. specialize (H5 y Hy). destruct y as [|t m|m]; cbn; [lia| |lia].
    destruct (Z.ltb_spec t (acquired s + n)); lia. }
  split; cbn; rewrite ?(total_insert _ _ _ _ _ Hi); cbn; [lia|lia|lia| |].
  - intros b Hb'. rewrite (total_insert _ _ _ _ _ Hi). cbn. specialize (H4 b Hb').
    assert (0 <= total (waits_past b) l).
    { apply total_nonneg. intros y Hy. specialize (H5 y Hy). destruct y; cbn; [lia| |lia].
      destruct (b <? _); lia. }
    destruct (Z.ltb_spec b (acquired s + n)); lia.
  - intros y [->|Hy]%elem_insert.
    + split; [done|]. split; [lia|]. rewrite (total_insert _ _ _ _ _ Hi). cbn.
      rewrite Z.ltb_irrefl. lia.
    + specialize (H5 y Hy). destruct y as [|t m|m]; [done| |done].
      rewrite (total_insert _ _ _ _ _ Hi). cbn.
      destruct (Z.ltb_spec (acquired s + n) t); lia.
Qed.

Lemma sem_inv_enter k s l i t n :
  sem_inv k (SemSys s l) -> l !! i = Some (SemWait t n) -> t <= released s ->
  sem_inv k (SemSys s (<[i := SemHold n]> l)).
Proof.
  intros [H1 H2 H3 H4 H5] Hi Ht. cbn in *.
  pose proof (H5 _ (list_elem_of_lookup_2 _ _ _ Hi)) as (Hn & Hta & _).
  split; cbn; rewrite ?(total_insert _ _ _ _ _ Hi); cbn; [lia|lia|lia| |].
  - intros b Hb. rewrite (total_insert _ _ _ _ _ Hi). cbn. specialize (H4 b Hb).
    destruct (Z.ltb_spec b t); lia.
  - intros y [->|Hy]%elem_insert; [done|]. specialize (H5 y Hy). destruct y as [|t' m|m]; [done| |done].
    rewrite (total_insert _ _ _ _ _ Hi). cbn. destruct (Z.ltb_spec t t'); lia.
Qed.

Lemma sem_inv_leave k s l i n :
  sem_inv k (SemSys s l) -> l !! i = Some (SemHold n) -> 0 <= k ->
  sem_inv (k + 1) (SemSys (Semaphore (released s + n) (acquired s)) (<[i := SemIdle]> l)).
Proof.
  intros [H1 H2 H3 H4 H5] Hi Hk. cbn in *.
  pose proof (H5 _ (list_elem_of_lookup_2 _ _ _ Hi)) as Hn. cbn in Hn.
  split; cbn; rewrite ?(total_insert _ _ _ _ _ Hi); cbn; [lia|lia|lia| |].
  - intros b Hb. rewrite (total_insert _ _ _ _ _ Hi). cbn. specialize (H4 b ltac:(lia)). lia.
  - intros y [->|Hy]%elem_insert; [done|]. specialize (H5 y Hy). destruct y as [|t' m|m]; [done| |done].
    rewrite (total_insert _ _ _ _ _ Hi). cbn. lia.
Qed.

Lemma sem_inv_more k x : sem_inv k x -> sem_inv (k + 1) x.
Proof. intros [H1 H2 H3 H4 H5]. split; [lia|lia|done|done|done]. Qed.

Lemma sem_inv_step k x y :
  sem_inv k x -> sem_step x y -> N + (k + 1) * N < 2 ^ 64 -> 0 <= k -> sem_inv (k + 1) y.
Proof.
  intros Hinv Hst Hb Hk. pose proof Hinv as [H1 H2 _ _ H5].
  destruct Hst as [s l i n t s' Hi Hr E|s l i t n Hi E|s l i t n Hi E|s l i n s' Hi E]; cbn in *.
  - injection E as <- <-. unfold u64. rewrite Z.mod_small by lia. by apply sem_inv_take.
  - by apply sem_inv_more.
  - injection E as E. breflect. by apply sem_inv_more, sem_inv_enter with t.
  - injection E as <-. pose proof (H5 _ (list_elem_of_lookup_2 _ _ _ Hi)) as Hn. cbn in Hn.
    unfold u64. rewrite Z.mod_small by lia. by apply sem_inv_leave.
Qed.

(** The bound that keeps the counters from wrapping for [k] steps. *)
Definition unwrapped (k : nat) : Prop := N + Z.of_nat k * N < 2 ^ 64.

Lemma sem_inv_steps m k x :
  nsteps sem_step k (sem_start m) x -> unwrapped k -> sem_inv (Z.of_nat k) x.
Proof.
  unfold unwrapped. revert x. induction k as [|k IH]; intros x Hs Hb.
  - inversion Hs. apply sem_inv_start. lia.
  - apply nsteps_inv_r in Hs as (y & Hs & Hst). rewrite Nat2Z.inj_succ in *.
    apply (sem_inv_step _ y); [apply IH; [done|nia]|done|nia|lia].
Qed.

Lemma sem_inv_holds k x y : sem_inv k x -> y ∈ harts x -> 0 <= holds y.
Proof. intros [_ _ _ _ H] Hy. specialize (H y Hy). destruct y; cbn; lia. Qed.

(** [C22]: The semaphore admits at most its number of tickets at a time, whatever
    the order in which the harts run: with all tickets given to writers and one
    to readers, a writer is alone.  [k] counts the accesses since
    [semaphore_init]; up to [2^64 / N] of them the counters do not wrap. *)
Theorem semaphore_exclusion m k x :
  nsteps sem_step k (sem_start m) x -> unwrapped k ->
  total holds (harts x) <= N /\
  (forall i j n, harts x !! i = Some (SemHold N) -> harts x !! j = Some (SemHold n) -> i = j).
Proof.
  intros Hs Hb. pose proof (sem_inv_steps m k x Hs Hb) as Hinv.
  pose proof Hinv as [H1 H2 H3 H4 H5]. specialize (H4 _ (Z.le_refl _)).
  assert (total (waits_past (released (sem x))) (harts x) <= total waits (harts x)).
  { apply total_le. intros y Hy. specialize (H5 y Hy). destruct y as [|t n|n]; cbn; [lia| |lia].
    destruct (Z.ltb_spec (released (sem x)) t); lia. }
  assert (Hle : total holds (harts x) <= N) by lia.
  split; [done|]. intros i j n Hi Hj. destruct (decide (i = j)) as [|Hne]; [done|exfalso].
  pose proof (H5 _ (list_elem_of_lookup_2 _ _ _ Hj)) as Hn. cbn in Hn.
  assert (Hrest : forall y, y ∈ <[i := SemIdle]> (harts x) -> 0 <= holds y).
  { intros y [->|Hy]%elem_insert; [cbn; lia|]. by eapply sem_inv_holds. }
  assert (Hj' : <[i := SemIdle]> (harts x) !! j = Some (SemHold n))
    by (by rewrite list_lookup_insert_ne).
  pose proof (total_bounds holds _ _ (list_elem_of_lookup_2 _ _ _ Hj') Hrest) as Hge.
  rewrite (total_insert _ _ _ _ _ Hi) in Hge. cbn in Hge. lia.
Qed.

(** The hart with the lowest ticket. *)
Lemma lowest_ticket (l : list sem_pc) t n : SemWait t n ∈ l ->
  exists t' n', SemWait t' n' ∈ l /\ forall t'' n'', SemWait t'' n'' ∈ l -> t' <= t''.
Proof.
  revert t n. induction l as [|y l IH]; intros t n Hin; [by apply elem_of_nil in Hin|].
  assert (Hdec : (exists t n, SemWait t n ∈ l) \/ forall t n, SemWait t n ∉ l).
  { clear. induction l as [|z l IH]; [right; set_solver|].
    destruct IH as [(t & n & H)|H]; [left; exists t, n; set_solver|].
    destruct z as [|t n|n]; [right; set_solver|left; exists t, n; set_solver|right; set_solver]. }
  destruct Hdec as [(t1 & n1 & H1)|Hno].
  - destruct (IH _ _ H1) as (t' & n' & H' & Hmin). destruct y as [|ty ny|ny].
    + exists t', n'. split; [set_solver|]. intros t'' n'' [?|?]%elem_of_cons; [done|eauto].
    + destruct (Z.leb_spec ty t').
      * exists ty, ny. split; [set_solver|]. intros t'' n'' [[= -> ->]|Hin']%elem_of_cons; [lia|].
        specialize (Hmin _ _ Hin'). lia.
      * exists t', n'. split; [set_solver|]. intros t'' n'' [[= -> ->]|Hin']%elem_of_cons; [lia|eauto].
    + exists t', n'. split; [set_solver|]. intros t'' n'' [?|?]%elem_of_cons; [done|eauto].
  - apply elem_of_cons in Hin as [<-|Hin]; [|by destruct (Hno _ _ Hin)].
    exists t, n. split; [set_solver|]. intros t'' n'' [[= -> ->]|Hin]%elem_of_cons; [lia|].
    by destruct (Hno _ _ Hin).
Qed.

(** [C23]: The semaphore does not deadlock: when no hart is past it and one waits,
    the hart with the lowest ticket passes the test of its loop.  So a waiting
    hart is let in after those before it have left. *)
Theorem semaphore_progress m k x t n :
  nsteps sem_step k (sem_start m) x -> unwrapped k ->
  total holds (harts x) = 0 -> SemWait t n ∈ harts x ->
  exists i t' n', harts x !! i = Some (SemWait t' n') /\ t' <= t /\
    ticket_waits t' (sem x) = Done false (sem x) /\
    sem_step x (SemSys (sem x) (<[i := SemHold n']> (harts x))).
Proof.
  intros Hs Hb Hh Hw. pose proof (sem_inv_steps m k x Hs Hb) as [H1 H2 H3 H4 H5].
  destruct (lowest_ticket _ _ _ Hw) as (t' & n' & Hin & Hmin).
  pose proof Hin as [i Hi]%list_elem_of_lookup. exists i, t', n'.
  destruct (H5 _ Hin) as (Hn & Ht & Hle).
  assert (Hbefore : total (waits_before t') (harts x) = 0).
  { apply total_zero. intros y Hy. destruct y as [|t'' n''|n'']; cbn; [done| |done].
    specialize (Hmin _ _ Hy). destruct (Z.ltb_spec t'' t'); [lia|done]. }
  assert (E : ticket_waits t' (sem x) = Done false (sem x)).
  { unfold ticket_waits, gets. f_equal. apply Z.ltb_ge. lia. }
  split; [done|]. split; [by eapply Hmin|]. split; [done|].
  destruct x as [s l]. by eapply sem_enter.
Qed.
End Semaphore.

(** ** The test-and-set lock *)

(** [taslock_t] is one word. *)
Definition taslock_init : M Z unit := modify (fun _ => 0).
Definition taslock_load : M Z Z := gets id.
(** [!__atomic_fetch_or(&l->lock, 1, ...)] *)
Definition taslock_fetch_or : M Z bool := fun l => Done (l =? 0) (Z.lor l 1).
Definition taslock_release : M Z unit := modify (fun _ => 0).

Definition cap_lock_init : M Z unit := taslock_init.
Definition cap_lock_release : M Z unit := taslock_release.

(** Where a hart is in [taslock_acquire]: outside, at the load of the inner
    loop, at the attempt, or past it. *)
Inductive tas_pc := TasIdle | TasLoad | TasTry | TasHold.

#[export] Instance tas_pc_eq_dec : EqDecision tas_pc.
Proof. solve_decision. Defined.

Record tas_sys := TasSys { lock : Z; tas_harts : list tas_pc }.

(** One access of one hart; a hart may leave the inner loop when it is
    preempted. *)
Inductive tas_step : tas_sys -> tas_sys -> Prop :=
| tas_call w l i :
    l !! i = Some TasIdle -> tas_step (TasSys w l) (TasSys w (<[i := TasLoad]> l))
| tas_busy w l i v (preempted : bool) :
    l !! i = Some TasLoad -> taslock_load w = Done v w -> v <> 0 ->
    tas_step (TasSys w l) (TasSys w (<[i := if preempted then TasIdle else TasLoad]> l))
| tas_free w l i :
    l !! i = Some TasLoad -> taslock_load w = Done 0 w ->
    tas_step (TasSys w l) (TasSys w (<[i := TasTry]> l))
| tas_try w l i b w' :
    l !! i = Some TasTry -> taslock_fetch_or w = Done b w' ->
    tas_step (TasSys w l) (TasSys w' (<[i := if b then TasHold else TasLoad]> l))
| tas_unlock w l i w' :
    l !! i = Some TasHold -> taslock_release w = Done tt w' ->
    tas_step (TasSys w l) (TasSys w' (<[i := TasIdle]> l)).

Definition tas_holds (x : tas_pc) : Z := match x with TasHold => 1 | _ => 0 end.

Definition tas_start (m : nat) : tas_sys := TasSys 0 (replicate m TasIdle).

(** The word counts the holders. *)
Definition tas_inv (x : tas_sys) : Prop :=
  lock x = total tas_holds (tas_harts x) /\ (lock x = 0 \/ lock x = 1).

Lemma tas_inv_step x y : tas_inv x -> tas_step x y -> tas_inv y.
Proof.
  intros [H1 H2] Hst. unfold tas_inv.
  destruct Hst as [w l i Hi|w l i v p Hi E Hv|w l i Hi E|w l i b w' Hi E|w l i w' Hi E];
    cbn in *; rewrite (total_insert _ _ _ _ _ Hi).
  - cbn. split; [lia|done].
  - destruct p; cbn; (split; [lia|done]).
  - cbn. split; [lia|done].
  - injection E as <- <-. destruct H2 as [E0|E0]; rewrite E0 in *; cbn in *;
      change (Z.lor 0 1) with 1; change (Z.lor 1 1) with 1; (split; [lia|by right]).
  - injection E as <-. pose proof (total_bounds tas_holds l TasHold
      (list_elem_of_lookup_2 _ _ _ Hi) ltac:(by intros [])) as Hb. cbn in *. split; [lia|by left].
Qed.

(** The capability lock is a mutex: whatever the order in which the harts
    run, at most one is between [cap_lock_acquire] and [cap_lock_release], and
    the word is 1 exactly when one is. *)
Theorem taslock_exclusion m x :
  rtc tas_step (tas_start m) x ->
  (forall i j, tas_harts x !! i = Some TasHold -> tas_harts x !! j = Some TasHold -> i = j) /\
  (lock x = 1 <-> TasHold ∈ tas_harts x) /\ (lock x = 0 \/ lock x = 1).
Proof.
  intros Hs. assert (Hinv : tas_inv x).
  { assert (H0 : tas_inv (tas_start m)).
    { split; [|by left]. cbn. symmetry. apply total_zero. by intros y [-> _]%elem_of_replicate. }
    revert H0. induction Hs as [|y z x Hst Hs IH]; [done|]. intros H0. apply IH.
    by eapply tas_inv_step. }
  destruct Hinv as [H1 H2]. assert (Hpos : forall y, y ∈ tas_harts x -> 0 <= tas_holds y) by (by intros []).
  split; [|split; [|done]].
  - intros i j Hi Hj. destruct (decide (i = j)) as [|Hne]; [done|exfalso].
    assert (Hj' : <[i := TasIdle]> (tas_harts x) !! j = Some TasHold)
      by (by rewrite list_lookup_insert_ne).
    pose proof (total_bounds tas_holds _ _ (list_elem_of_lookup_2 _ _ _ Hj') ltac:(by intros [])) as Hb.
    rewrite (total_insert _ _ _ _ _ Hi) in Hb. cbn in Hb. lia.
  - split.
    + intros E. destruct (decide (TasHold ∈ tas_harts x)) as [|Hn]; [done|].
      assert (total tas_holds (tas_harts x) = 0); [|lia].
      apply total_zero. intros y Hy. destruct y; [done..|]. by destruct Hn.
    + intros Hin. pose proof (total_bounds tas_holds _ _ Hin Hpos) as Hb. cbn in Hb. lia.
Qed.

(** ** Witnesses: two harts *)

(** Both take a ticket of two, the first goes in. *)
Definition sem_two : sem_sys := SemSys (Semaphore 2 4) [SemHold 2; SemWait 4 2].

Lemma sem_two_steps : nsteps (sem_step 2) 3 (sem_start 2 2) sem_two.
Proof.
  apply (nsteps_l _ _ _ (SemSys (Semaphore 2 2) [SemWait 2 2; SemIdle])).
  { by apply (sem_take 2 (Semaphore 2 0) [SemIdle; SemIdle] 0 2 2 (Semaphore 2 2)). }
  apply (nsteps_l _ _ _ (SemSys (Semaphore 2 4) [SemWait 2 2; SemWait 4 2])).
  { by apply (sem_take 2 (Semaphore 2 2) [SemWait 2 2; SemIdle] 1 2 4 (Semaphore 2 4)). }
  apply nsteps_once.
  by apply (sem_enter 2 (Semaphore 2 4) [SemWait 2 2; SemWait 4 2] 0 2 2).
Qed.

Example semaphore_exclusion_witness :
  total holds (harts sem_two) <= 2 /\
  (forall i j n, harts sem_two !! i = Some (SemHold 2) -> harts sem_two !! j = Some (SemHold n) ->
     i = j).
Proof. apply (semaphore_exclusion 2 eq_refl 2 3 sem_two); [exact sem_two_steps|done]. Defined.

(** The first has left. *)
Definition sem_left : sem_sys := SemSys (Semaphore 4 4) [SemIdle; SemWait 4 2].

Lemma sem_left_steps : nsteps (sem_step 2) 4 (sem_start 2 2) sem_left.
Proof.
  eapply nsteps_r; [exact sem_two_steps|].
  by apply (sem_leave 2 (Semaphore 2 4) [SemHold 2; SemWait 4 2] 0 2 (Semaphore 4 4)).
Qed.

Example semaphore_progress_witness :
  exists i t' n', harts sem_left !! i = Some (SemWait t' n') /\ t' <= 4 /\
    ticket_waits t' (sem sem_left) = Done false (sem sem_left) /\
    sem_step 2 sem_left (SemSys (sem sem_left) (<[i := SemHold n']> (harts sem_left))).
Proof.
  apply (semaphore_progress 2 eq_refl 2 4 sem_left 4 2); [exact sem_left_steps|done|done|].
  by apply (bool_decide_unpack _).
Defined.

Definition tas_two : tas_sys := TasSys 1 [TasHold; TasTry].

Lemma tas_two_steps : rtc tas_step (tas_start 2) tas_two.
Proof.
  eapply rtc_l; [by apply (tas_call 0 [TasIdle; TasIdle] 0)|].
  eapply rtc_l; [by apply (tas_call 0 [TasLoad; TasIdle] 1)|].
  eapply rtc_l; [by apply (tas_free 0 [TasLoad; TasLoad] 0)|].
  eapply rtc_l; [by apply (tas_free 0 [TasTry; TasLoad] 1)|].
  eapply rtc_l; [by apply (tas_try 0 [TasTry; TasTry] 0 true 1)|]. done.
Qed.

Example taslock_exclusion_witness :
  (forall i j, tas_harts tas_two !! i = Some TasHold -> tas_harts tas_two !! j = Some TasHold ->
     i = j) /\
  (lock tas_two = 1 <-> TasHold ∈ tas_harts tas_two) /\ (lock tas_two = 0 \/ lock tas_two = 1).
Proof. apply (taslock_exclusion 2 tas_two). exact tas_two_steps. Defined.
