(* ===== verification/SchedTheorems.v ===== *)
(** * The scheduler

    What the schedule words hold after an update, what [sched_fetch] decides,
    that two harts never decide for the same process, and that [sched] returns
    when the owner of the slot can run. *)

From S2P Require Import Prelude Config CapTypes CapTable CapList KState Proc Sched.
From S2P Require Import Channel CapOps CapPmp Trap Invariant View Spec Refine Steps.
From S2P Require Import Revoke IpcSafe SchedSafe SyscallSafe Machine KernelInit Boot.

(** ** Progress *)

Section Progress.
Context `{C : Config} {Cok : ConfigOk C}.

(** The clock never goes back, advances at least once in every [pace] readings, and
    does not wrap in the next [n]. *)
Definition clock_runs (pace : nat) (h : hw_t) (n : nat) : Prop :=
  0 <= mtime h (tick h) /\
  (forall k, mtime h k <= mtime h (S k)) /\ (forall k, mtime h k < mtime h (k + pace)) /\
  mtime h (tick h + n) + S3K_SCHED_TIME < 2 ^ 64.

(** The slot the scheduler looks at. *)
Definition current_slot (v : view) : Z :=
  (mtime (v_hw v) (tick (v_hw v)) + S3K_SCHED_TIME) / S3K_SLOT_LEN.

(** The owner of the slot can run. *)
Definition can_run (v : view) (hart : Z) : Prop :=
  let q := lane_pid (v_lane v hart (current_slot v mod S3K_SLOT_CNT)) in
  has_slot v hart (current_slot v) = true /\
  Z.land (p_state (v_proc v q)) (Z.lor PSF_BUSY PSF_SUSPENDED) = 0 /\
  p_timeout (v_proc v q) <= mtime (v_hw v) (tick (v_hw v)).

Lemma clock_mono h n k : (forall k, mtime h k <= mtime h (S k)) -> mtime h n <= mtime h (n + k).
Proof.
  intros Hm. induction k as [|k IH]; [by rewrite Nat.add_0_r|].
  rewrite Nat.add_succ_r. specialize (Hm (n + k)%nat). lia.
Qed.

Lemma clock_gains pace h n k : (forall k, mtime h k < mtime h (k + pace)) ->
  mtime h n + Z.of_nat k <= mtime h (n + k * pace).
Proof.
  intros Hm. induction k as [|k IH]; [rewrite Nat.add_0_r; lia|].
  specialize (Hm (n + k * pace)%nat). replace (n + S k * pace)%nat with (n + k * pace + pace)%nat; lia.
Qed.

Lemma clock_runs_le pace h n m : clock_runs pace h n -> (m <= n)%nat -> clock_runs pace h m.
Proof.
  intros (H0 & Hm & Hp & Hmax) Hle. split_and!; [done..|].
  pose proof (clock_mono h (tick h + m) (n - m) Hm) as Hn.
  replace (tick h + m + (n - m))%nat with (tick h + n)%nat in Hn by lia. lia.
Qed.

(** The devices [k] accesses later. *)
Fixpoint hw_after (k : nat) (h : hw_t) : hw_t :=
  match k with O => h | S k => hw_tick (hw_after k h) end.

Lemma hw_after_fields k h :
  tick (hw_after k h) = (tick h + k)%nat /\ mtime (hw_after k h) = mtime h /\
  mtimecmp (hw_after k h) = mtimecmp h /\ mhartid (hw_after k h) = mhartid h.
Proof.
  induction k as [|k (E1 & E2 & E3 & E4)]; cbn; [rewrite Nat.add_0_r; done|].
  rewrite E1, E2, E3, E4. split_and!; (done || lia).
Qed.

Lemma later_after k h : later h (hw_after k h).
Proof. induction k as [|k IH]; cbn; [done|]. etrans; [exact IH|apply later_tick]. Qed.

(** A reading of a clock that runs for long enough is exact. *)
Lemma clock_read pace h n k : clock_runs pace h n -> (k <= n)%nat ->
  u64 (mtime (hw_after k h) (tick (hw_after k h))) = mtime h (tick h + k).
Proof.
  intros (H0 & Hm & _ & Hmax) Hk. destruct (hw_after_fields k h) as (-> & -> & _).
  pose proof (clock_mono h (tick h) k Hm). pose proof (clock_mono h (tick h + k) (n - k) Hm) as Hn.
  replace (tick h + k + (n - k))%nat with (tick h + n)%nat in Hn by lia.
  pose proof (@sched_time_lt _ Cok). apply Z.mod_small. lia.
Qed.

(** The wait for a time ends when the clock has passed it. *)
Lemma see_wait_until pace (T : Z) h : forall wait j k s v Q,
  sees s v -> v_hw v = hw_after k h -> clock_runs pace h (k + wait) ->
  (j <= wait)%nat -> T <= mtime h (tick h + k + j) ->
  (forall s' k', (S k <= k' <= S k + wait)%nat -> sees s' (v_set_hw (hw_after k' h) v) ->
     Q tt s') ->
  wp (while_busy (S wait) (let* t := time_get in ret (t <? T))) Q s.
Proof.
  induction wait as [|wait IH]; intros j k s v Q Hs Ev Hclk Hj HT HQ; cbn [while_busy];
    apply wp_bind; see_step; see_step; see_step; rewrite Ev, (clock_read _ h _ k Hclk) by lia;
    destruct (Z.ltb_spec (mtime h (tick h + k)) T) as [Hlt|].
  - replace j with 0%nat in HT by lia. rewrite Nat.add_0_r in HT. lia.
  - see. apply (HQ _ (S k)); [lia|]. cbn. by rewrite <- Ev.
  - destruct j as [|j]; [rewrite Nat.add_0_r in HT; lia|].
    apply (IH j (S k) _ (v_set_hw (hw_tick (v_hw v)) v)); [done|cbn; by rewrite Ev| |lia| |].
    + by replace (S k + wait)%nat with (k + S wait)%nat by lia.
    + by replace (tick h + S k + j)%nat with (tick h + k + S j)%nat by lia.
    + intros s' k' Hk Hs'. apply (HQ s' k'); [lia|done].
  - see. apply (HQ _ (S k)); [lia|]. cbn. by rewrite <- Ev.
Qed.

(** The state in which [sched] returns: the process of the slot has the hart
    until the deadline of its slice, for which the timer is set. *)
Definition v_scheduled (hart slot : Z) (v : view) : view :=
  let w := v_lane v hart (slot mod S3K_SLOT_CNT) in
  let q := lane_pid w in
  let h := v_hw v in
  v_set_hw (set_mtimecmp (insertZ hart (deadline w slot) (mtimecmp h)) h)
    (v_set_proc q (set_timeout (deadline w slot) (set_state PSF_BUSY (v_proc v q))) v).

(** When its owner can run, the current slot is the one [sched] settles for. *)
Lemma see_sched_now pace s v wait fuel Q :
  sees s v -> clock_runs pace (v_hw v) (S (S wait)) -> S3K_SCHED_TIME * Z.of_nat pace <= Z.of_nat wait ->
  can_run v (mhartid (v_hw v)) ->
  (forall s' k, let h := v_hw v in
     (2 <= k <= wait + 3)%nat ->
     sees s' (v_scheduled (mhartid h) (current_slot v)
                (v_set_hw (hw_after k (set_mtimecmp (insertZ (mhartid h) U64_MAX (mtimecmp h)) h)) v)) ->
     Q (lane_pid (v_lane v (mhartid h) (current_slot v mod S3K_SLOT_CNT))) s') ->
  wp (sched (S wait) (S fuel)) Q s.
Proof.
  intros Hs Hclk Hwait (Hslot & Hst & Hto) HQ. pose proof Hclk as (H0 & Hm & Hp & Hmax).
  unfold sched. set (hart := mhartid (v_hw v)) in *. see_step. see_step. fold hart.
  see_step. unfold hart at 1. see_step. fold hart in Hs0.
  set (h1 := set_mtimecmp _ (v_hw v)) in *. assert (Hc1 : clock_runs pace h1 (S (S wait))) by done.
  apply wp_bind. cbn [sched_loop]. apply wp_bind. see_step.
  pose proof (clock_read pace h1 (S (S wait)) 0 Hc1 ltac:(lia)) as E0. cbn [hw_after] in E0.
  rewrite Nat.add_0_r in E0.
  pose proof (clock_mono (v_hw v) (tick (v_hw v)) (S (S wait)) Hm) as Hmono.
  pose proof (@sched_time_lt _ Cok) as Hst_lt. pose proof (@slot_len_pos _ Cok) as Hlen.
  replace (u64 (u64 (mtime (v_hw (v_set_hw h1 v)) (tick (v_hw (v_set_hw h1 v)))) + S3K_SCHED_TIME)
           / S3K_SLOT_LEN) with (current_slot v); cycle 1.
  { unfold current_slot. f_equal. cbn [v_hw v_set_hw]. rewrite E0. cbn.
    symmetry. apply Z.mod_small. lia. }
  assert (Hle : current_slot v * S3K_SLOT_LEN <= mtime (v_hw v) (tick (v_hw v)) + S3K_SCHED_TIME).
  { unfold current_slot. rewrite Z.mul_comm. apply Z.mul_div_le. lia. }
  assert (Hge : 0 <= current_slot v) by (apply Z.div_pos; lia).
  replace (u64 (current_slot v * S3K_SLOT_LEN)) with (current_slot v * S3K_SLOT_LEN)
    by (symmetry; apply Z.mod_small; nia).
  apply wp_bind.
  eapply (see_wait_until pace _ h1 wait (Z.to_nat S3K_SCHED_TIME * pace) 1); [exact Hs1|done| |nia| |].
  { apply (clock_runs_le _ _ _ _ Hc1). lia. }
  { pose proof (clock_gains pace h1 (tick h1 + 1) (Z.to_nat S3K_SCHED_TIME) Hp).
    cbn [h1 set_mtimecmp tick mtime] in *. specialize (Hm (tick (v_hw v))). rewrite Nat.add_1_r in *. lia. }
  intros s2 k Hk Hs2. apply wp_bind. set (q := lane_pid (v_lane v hart (current_slot v mod S3K_SLOT_CNT))) in *.
  pose proof (lane_pid_valid _ _ _ (current_slot v) Hs H) as Hq.
  change (valid_proc q) in Hq.
  destruct (hw_after_fields k h1) as (Etick & Etime & Ecmp & Ehart).
  eapply see_sched_fetch; [exact Hs2|done| |].
  { intros s3 v3 Hno. exfalso. revert Hno. change (has_slot _ hart (current_slot v))
      with (has_slot v hart (current_slot v)). rewrite Hslot. unfold ready.
    cbn [v_proc v_set_hw v_hw v_lane andb]. fold q. rewrite Hst.
    rewrite (clock_read pace h1 (S (S wait)) k) by (done || lia).
    pose proof (clock_mono (v_hw v) (tick (v_hw v)) k Hm) as Hk'. cbn [h1 set_mtimecmp mtime tick].
    destruct (Z.leb_spec (p_timeout (v_proc v q)) (mtime (v_hw v) (tick (v_hw v) + k))); [done|lia]. }
  intros s3 _ Hs3. apply wp_ret. unfold v_dispatch in Hs3.
  cbn [v_lane v_set_hw v_hw v_proc] in Hs3 |- *. fold q in Hs3 |- *.
  see_step. see_step. cbn [v_proc v_set_proc]. rewrite fupd_eq. cbn [p_timeout set_timeout].
  assert (Eh : hart = mhartid (hw_tick (hw_after k h1))) by (cbn; by rewrite Ehart).
  replace (timeout_set hart) with (timeout_set (mhartid (hw_tick (hw_after k h1))))
    by (by rewrite <- Eh).
  apply wp_bind, (see_timeout_set _ _ Hs3). intros s4 Hs4. see_step. apply (HQ _ (S k)); [lia|].
  unfold v_scheduled. cbn [v_lane v_set_hw v_hw v_proc hw_after]. fold hart q h1.
  cbn [v_hw v_set_proc v_set_hw] in *. rewrite <- Eh in *. by destruct v.
Qed.
End Progress.

(** ** Reading and writing the schedule *)

Section Slots.
Context `{C : Config} {Cok : ConfigOk C}.

Lemma slot_info_eq s v h slot :
  sees s v -> valid_hart h ->
  let w := v_lane v h (slot mod S3K_SLOT_CNT) in
  slot_info_get h slot (slots s) = Done (SlotInfo (lane_pid w) (lane_len w)) (slots s).
Proof.
  intros Hs Hh w.
  assert (H : wp (zoom l_slots (slot_info_get h slot))
    (fun a s' => a = SlotInfo (lane_pid w) (lane_len w) /\ s' = s) s)
    by (by eapply see_slot_info).
  unfold wp, zoom in H. cbn [l_get l_set l_slots] in H.
  destruct (slot_info_get h slot (slots s)) as [a t|]; [|done]. destruct H as [-> H].
  f_equal. by rewrite <- H.
Qed.

(** Reading the schedule of [s'] gives what reading that of [s] does, and [new]
    in the slots from [from] to [to] of [hart]. *)
Definition rewritten (hart from to : Z) (new : Z -> slot_info) (s s' : kstate) : Prop :=
  forall h slot, valid_hart h ->
    let i := slot mod S3K_SLOT_CNT in
    exists old, slot_info_get h slot (slots s) = Done old (slots s) /\
      slot_info_get h slot (slots s') =
      Done (if (h =? hart) && (from <=? i) && (i <? to) then new i else old) (slots s').

(** [sched_update] and [sched_delete] change exactly the slots of their
    range on their hart: afterwards [slot_info_get] reads back the pid and the
    number of slots left, or an empty slice, in the range, and what it read
    before for every other hart and slot. *)
Theorem sched_update_exact s v pid end_ hart from to :
  sees s v -> valid_proc pid -> valid_hart hart -> 0 <= from -> to <= end_ <= S3K_SLOT_CNT ->
  wp (sched_update pid end_ hart from to)
    (fun _ s' => rewritten hart from to (fun i => SlotInfo pid (end_ - i)) s s') s /\
  wp (sched_delete hart from to) (fun _ s' => rewritten hart from to (fun _ => SlotInfo 0 0) s s') s.
Proof.
  intros Hs Hpid Hhart Hfrom Hto. config_bounds. split.
  - eapply see_sched_update; [done|done|done|lia..|]. intros s' Hs' h slot Hh i.
    eexists. split; [by apply slot_info_eq|]. rewrite (slot_info_eq _ _ _ _ Hs') by done.
    fold i. cbn [v_lane v_sched_update v_set_lane].
    destruct (Z.eqb_spec h hart), (Z.leb_spec from i), (Z.ltb_spec i to); cbn [andb]; try done.
    unfold lane_pid, lane_len, valid_proc in *. by rewrite slot_word_pid, slot_word_len by lia.
  - eapply see_sched_delete; [done|done|lia..|]. intros s' Hs' h slot Hh i.
    eexists. split; [by apply slot_info_eq|]. rewrite (slot_info_eq _ _ _ _ Hs') by done.
    fold i. cbn [v_lane v_sched_delete v_set_lane].
    by destruct (h =? hart), (from <=? i), (i <? to).
Qed.

Lemma sched_fetched s v hart slot p s' :
  sees s v -> valid_hart hart -> sched_fetch hart slot s = Done (Some p) s' ->
  p = lane_pid (v_lane v hart (slot mod S3K_SLOT_CNT)) /\ has_slot v hart slot = true /\
  sees s' (v_dispatch hart slot v).
Proof.
  intros Hs Hh E.
  assert (H : wp (sched_fetch hart slot) (fun r t => r = Some p ->
    p = lane_pid (v_lane v hart (slot mod S3K_SLOT_CNT)) /\ has_slot v hart slot = true /\
    sees t (v_dispatch hart slot v)) s).
  { eapply see_sched_fetch; [done..|congruence|]. intros t B Hs' [= <-].
    apply andb_true_iff in B as [B _]. done. }
  unfold wp in H. rewrite E in H. by apply H.
Qed.

(** [sched_fetch] returns a process exactly when the hart has the slot and
    the owner of the slot can run, and it is the owner: the process becomes busy
    with the deadline of its slice.  Otherwise nothing but time changes. *)
Theorem sched_fetch_exact s v hart slot :
  sees s v -> valid_hart hart ->
  let q := lane_pid (v_lane v hart (slot mod S3K_SLOT_CNT)) in
  wp (sched_fetch hart slot) (fun r s' =>
    if has_slot v hart slot && ready v q
    then r = Some q /\ sees s' (v_dispatch hart slot v)
    else r = None /\ exists v', sees s' v' /\ ticked v v') s.
Proof.
  intros Hs Hh q. eapply see_sched_fetch; [done..| |]; fold q.
  - intros s' v' -> Hs' Ht. eauto.
  - by intros s' ->.
Qed.

(** [C18]: The scheduler is live: when the process that owns the current slot can
    run, [sched] returns that process, busy until the deadline of its slice, for
    which the timer of the hart is set.  The clock may not go back, has to advance
    at least once in every [pace] readings, and not wrap in this time; then the
    wait takes [S3K_SCHED_TIME * pace] readings at most. *)
Theorem sched_returns pace s v wait fuel :
  sees s v -> clock_runs pace (v_hw v) (S (S wait)) ->
  S3K_SCHED_TIME * Z.of_nat pace <= Z.of_nat wait ->
  can_run v (mhartid (v_hw v)) ->
  wp (sched (S wait) (S fuel)) (fun q s' =>
    let h := v_hw v in
    q = lane_pid (v_lane v (mhartid h) (current_slot v mod S3K_SLOT_CNT)) /\
    exists k, (2 <= k <= wait + 3)%nat /\
      sees s' (v_scheduled (mhartid h) (current_slot v)
        (v_set_hw (hw_after k (set_mtimecmp (insertZ (mhartid h) U64_MAX (mtimecmp h)) h)) v))) s.
Proof. intros. eapply see_sched_now; eauto. Qed.

(** [C19]: Two harts never both have the slot of one process, except for the last
    hart: the decisions of [sched_fetch] exclude each other, whatever the
    schedule holds. *)
Theorem sched_fetch_exclusive s v h1 h2 slot s1 s2 p1 p2 :
  sees s v -> SMP = true -> valid_hart h1 -> h1 < h2 < S3K_MAX_HART ->
  sched_fetch h1 slot s = Done (Some p1) s1 -> sched_fetch h2 slot s = Done (Some p2) s2 ->
  p1 <> p2.
Proof.
  intros Hs Hsmp Hh1 Hh E1 E2. assert (Hh2 : valid_hart h2) by (unfold valid_hart in *; lia).
  destruct (sched_fetched _ _ _ _ _ _ Hs Hh1 E1) as (-> & B1 & _).
  destruct (sched_fetched _ _ _ _ _ _ Hs Hh2 E2) as (-> & B2 & _). intros Eq.
  unfold has_slot in B1, B2. rewrite Hsmp in B1, B2. cbn [andb] in B1, B2. breflect.
  destruct B1 as [_ [_ B1]], B2 as [_ [B2 _]]. unfold yields_higher, yields_lower in *.
  rewrite <- not_true_iff_false, existsb_exists in B1, B2.
  destruct (Z.ltb_spec (lane_len (v_lane v h1 (slot mod S3K_SLOT_CNT)))
                       (lane_len (v_lane v h2 (slot mod S3K_SLOT_CNT)))) as [L|L].
  - apply B1. exists h2. rewrite <- list_elem_of_In, elem_of_zrange, Eq, Z.eqb_refl. cbn [andb].
    split; [lia|]. by apply Z.ltb_lt.
  - apply B2. exists h1. rewrite <- list_elem_of_In, elem_of_zrange, Eq, Z.eqb_refl. cbn [andb].
    unfold valid_hart in Hh1. split; [lia|]. by apply Z.leb_le.
Qed.
End Slots.

(** ** Witnesses *)

Definition result_of {St A} (o : outcome St A) : option A :=
  match o with Done a _ => Some a | Fault _ => None end.

Lemma result_Done {A} (o : outcome kstate A) a d :
  result_of o = Some a -> o = Done a (state_of o d).
Proof. destruct o; [by intros [= ->]|done]. Qed.

#[local] Opaque boot1 boot4.

Section One.
#[local] Existing Instance qemu_virt.

Example sched_update_exact_witness :
  wp (sched_update 1 24 0 8 16)
    (fun _ s' => rewritten 0 8 16 (fun i => SlotInfo 1 (24 - i)) boot1 s') boot1 /\
  wp (sched_delete 0 8 16) (fun _ s' => rewritten 0 8 16 (fun _ => SlotInfo 0 0) boot1 s') boot1.
Proof.
  apply (sched_update_exact boot1 (view_of boot1 (Some list1)) 1 24 0 8 16);
    [apply boot1_sees|vm_compute; intuition congruence..].
Defined.

Example sched_fetch_exact_witness :
  let v := view_of boot1 (Some list1) in
  let q := lane_pid (v_lane v 0 (5 mod S3K_SLOT_CNT)) in
  wp (sched_fetch 0 5) (fun r s' =>
    if has_slot v 0 5 && ready v q
    then r = Some q /\ sees s' (v_dispatch 0 5 v)
    else r = None /\ exists v', sees s' v' /\ ticked v v') boot1.
Proof.
  apply (sched_fetch_exact boot1 (view_of boot1 (Some list1)) 0 5);
    [apply boot1_sees|vm_compute; intuition congruence].
Defined.

Lemma boot1_clock n : Z.of_nat n <= 10000 -> clock_runs 1 (hw boot1) n.
Proof.
  assert (E : mtime (hw boot1) = clock) by (vm_compute; reflexivity).
  assert (Et : (tick (hw boot1) <= 1000)%nat) by (apply Nat.leb_le; vm_compute; reflexivity).
  intros Hn. unfold clock_runs. rewrite E. unfold clock.
  change S3K_SCHED_TIME with 3125. split_and!; lia.
Qed.

Example sched_returns_witness :
  wp (sched (S 4000) 1) (fun q s' =>
    let v := view_of boot1 (Some list1) in let h := v_hw v in
    q = lane_pid (v_lane v (mhartid h) (current_slot v mod S3K_SLOT_CNT)) /\
    exists k, (2 <= k <= 4000 + 3)%nat /\
      sees s' (v_scheduled (mhartid h) (current_slot v)
        (v_set_hw (hw_after k (set_mtimecmp (insertZ (mhartid h) U64_MAX (mtimecmp h)) h)) v)))
    boot1.
Proof.
  apply (sched_returns 1 boot1 (view_of boot1 (Some list1)) 4000 0);
    [apply boot1_sees|apply boot1_clock; lia| |].
  - change S3K_SCHED_TIME with 3125. lia.
  - split; [vm_compute; reflexivity|]. split; [vm_compute; reflexivity|].
    vm_compute. intuition congruence.
Defined.
End One.

Section Four.
#[local] Existing Instance qemu_virt4.

(** Processes 0 and 1, on harts 0 and 1. *)
Definition two_procs : kstate :=
  state_of ((do* sched_update 1 32 1 0 32 in proc_resume 1) boot4) boot4.

Lemma two_procs_sees : sees two_procs (view_of two_procs (Some list4)).
Proof. apply sees_checked; vm_compute; reflexivity. Qed.

Example sched_fetch_exclusive_witness : 0 <> 1.
Proof.
  apply (sched_fetch_exclusive two_procs (view_of two_procs (Some list4)) 0 1 0
    (state_of (sched_fetch 0 0 two_procs) two_procs)
    (state_of (sched_fetch 1 0 two_procs) two_procs)); [apply two_procs_sees|done|..].
  1-2: vm_compute; intuition congruence.
  all: apply result_Done; vm_compute; reflexivity.
Defined.

(** The exception: with slices of different lengths on the last two harts, both
    have the slot of the process; which of them runs it is left to the race in
    [proc_acquire]. *)
Definition last_harts : kstate :=
  state_of ((do* sched_update 1 16 2 0 16 in
             do* sched_update 1 32 3 0 32 in proc_resume 1) boot4) boot4.

Example sched_fetch_last_hart :
  sees last_harts (view_of last_harts (Some list4)) /\
  result_of (sched_fetch 2 0 last_harts) = Some (Some 1) /\
  result_of (sched_fetch 3 0 last_harts) = Some (Some 1).
Proof. split; [apply sees_checked; vm_compute; reflexivity|]. split; vm_compute; reflexivity. Qed.
End Four.
