(* ===== verification/Schedule.v ===== *)
(** * The schedule and the time capabilities

    The schedule of [sched.c] is a cache of the time capabilities: a slot
    belongs to the owner of the capability whose unmarked part covers it.  The
    kernel never computes the schedule from the capabilities; it keeps the two in
    step in every operation.  This file states that as an invariant on views
    and proves that the operations keep it.  It needs the order of the derivation
    list: the time capabilities of a hart are in descending order, and the
    children of a capability follow it without gaps. *)

From S2P Require Import Prelude Config CapTypes CapTable CapList KState Proc Sched.
From S2P Require Import Channel CapOps CapPmp Invariant View Spec Refine Steps Revoke.
From S2P Require Import Integrity.

(** ** Lists of capabilities in derivation order *)

Section Tree.
Context `{C : Config}.
Implicit Types (k x z p : cap_t) (l : list cap_t).

Definition is_time k : bool := k⟦cap_type⟧ =? CAPTY_TIME.

(** Two capabilities for the time of one hart. *)
Definition same_hart x z : bool := is_time x && is_time z && (x⟦time_hart⟧ =? z⟦time_hart⟧).

(** [z] may follow [x]: it ends where the unmarked part of [x] begins or before,
    and is inside of [x] or below it. *)
Definition precedes x z : Prop :=
  same_hart x z = true ->
  z⟦time_end⟧ <= x⟦time_mrk⟧ /\ (x⟦time_bgn⟧ <= z⟦time_bgn⟧ \/ z⟦time_end⟧ <= x⟦time_bgn⟧).

Definition child_in x z : bool := is_time x && time_child x z.

(** Once an element fails [P], so do the rest. *)
Fixpoint prefix_block (P : cap_t -> bool) l : Prop :=
  match l with
  | [] => True
  | z :: l => (P z = false -> Forall (fun y => P y = false) l) /\ prefix_block P l
  end.

Fixpoint time_tree l : Prop :=
  match l with
  | [] => True
  | x :: l => Forall (precedes x) l /\ prefix_block (child_in x) l /\ time_tree l
  end.

(** The end of a list is replaced without harm to what comes before. *)
Definition suffix_ok l l' : Prop :=
  forall x, cap_wf x = true -> Forall (precedes x) l ->
    Forall (precedes x) l' /\
    (prefix_block (child_in x) l -> prefix_block (child_in x) l') /\
    (Forall (fun z => child_in x z = false) l -> Forall (fun z => child_in x z = false) l').

Lemma block_suffix P l1 l l' :
  prefix_block P (l1 ++ l) -> (prefix_block P l -> prefix_block P l') ->
  (Forall (fun z => P z = false) l -> Forall (fun z => P z = false) l') ->
  prefix_block P (l1 ++ l').
Proof.
  intros Hb H1 H2. induction l1 as [|z l1 IH]; cbn in *; [auto|].
  destruct Hb as [Hz Hb]. split; [|by apply IH]. intros E. specialize (Hz E).
  apply Forall_app in Hz as [Hz1 Hz2]. apply Forall_app. auto.
Qed.

Lemma tree_suffix l1 l l' :
  Forall (fun x => cap_wf x = true) l1 -> time_tree (l1 ++ l) -> suffix_ok l l' ->
  time_tree l' -> time_tree (l1 ++ l').
Proof.
  intros Hw Ht Hs Ht'. induction Hw as [|x l1 Hx Hw IH]; cbn in *; [done|].
  destruct Ht as (Hp & Hb & Ht). apply Forall_app in Hp as [Hp1 Hp2].
  destruct (Hs x Hx Hp2) as (G1 & G2 & G3).
  split; [by apply Forall_app|]. split; [by eapply block_suffix|by apply IH].
Qed.

Lemma tree_drop l1 l : time_tree (l1 ++ l) -> time_tree l.
Proof. induction l1 as [|x l1 IH]; cbn; [done|]. intros (_ & _ & H). auto. Qed.

(** Removal. *)
Lemma suffix_remove k l : suffix_ok (k :: l) l.
Proof.
  intros x _ Hp. apply Forall_cons in Hp as [_ Hp]. split; [done|]. cbn.
  split; [by intros [_ ?]|]. by intros [_ ?]%Forall_cons.
Qed.

(** Capabilities that stand for the same slots, up to the mark. *)
Definition same_slice k k' : Prop :=
  is_time k' = is_time k /\
  (is_time k = true -> k'⟦time_hart⟧ = k⟦time_hart⟧ /\ k'⟦time_bgn⟧ = k⟦time_bgn⟧ /\
                       k'⟦time_end⟧ = k⟦time_end⟧).

#[global] Instance same_slice_preorder : PreOrder same_slice.
Proof.
  split; [by repeat split|]. intros x y z [E H] [E' H']. split; [congruence|]. intros T.
  destruct (H T) as (-> & -> & ->) || destruct (H T) as (<- & <- & <-). apply H'. congruence.
Qed.

Lemma same_slice_child x k k' : same_slice k k' -> child_in x k' = child_in x k.
Proof.
  unfold same_slice, child_in, time_child, is_time. intros [E H].
  destruct (k⟦cap_type⟧ =? CAPTY_TIME); rewrite E; cbn [andb]; [|done].
  by destruct H as (-> & -> & ->).
Qed.

Lemma same_slice_precedes x k k' : same_slice k k' -> precedes x k -> precedes x k'.
Proof.
  unfold same_slice, precedes, same_hart. intros [E H] Hp. rewrite E.
  destruct (is_time k); rewrite ?andb_false_r; [|done]. by destruct H as (-> & -> & ->).
Qed.

Lemma suffix_replace k k' l l' :
  same_slice k k' -> suffix_ok l l' -> suffix_ok (k :: l) (k' :: l').
Proof.
  intros Hk Hs x Hx Hp. apply Forall_cons in Hp as [Hp Hpl].
  destruct (Hs x Hx Hpl) as (G1 & G2 & G3). pose proof (same_slice_child x _ _ Hk) as E.
  split; [apply Forall_cons; split; [by eapply same_slice_precedes|done]|].
  cbn [prefix_block]. rewrite E. split.
  - intros [H1 H2]. split; auto.
  - intros [H1 H2]%Forall_cons. apply Forall_cons. rewrite E. auto.
Qed.

Lemma suffix_refl l : suffix_ok l l.
Proof. intros x _ Hp. auto. Qed.

Lemma child_in_hart x z : child_in x z = true -> same_hart x z = true.
Proof.
  unfold child_in, time_child, same_hart, is_time. rewrite !andb_true_iff. tauto.
Qed.

Lemma child_in_spec x z : same_hart x z = true ->
  child_in x z = (x⟦time_bgn⟧ <=? z⟦time_bgn⟧) && (z⟦time_end⟧ <=? x⟦time_end⟧).
Proof.
  unfold child_in, time_child, same_hart, is_time. intros [[E1 E2]%andb_true_iff E3]%andb_true_iff.
  by rewrite E1, E2, E3.
Qed.
End Tree.

(** ** The derivation operations on such lists *)

Section TreeOps.
Context `{C : Config} {Cok : ConfigOk C}.
Implicit Types (k x z p : cap_t) (l : list cap_t).

Lemma time_wf x : cap_wf x = true -> is_time x = true ->
  x⟦time_bgn⟧ <= x⟦time_mrk⟧ <= x⟦time_end⟧ /\ x⟦time_bgn⟧ < x⟦time_end⟧ <= S3K_SLOT_CNT.
Proof. unfold is_time. intros Hw E%Z.eqb_eq. by destruct (cap_wf_time x Hw E) as (_ & ? & ?). Qed.

Lemma same_hart_time x z : same_hart x z = true -> is_time x = true /\ is_time z = true.
Proof. unfold same_hart. rewrite !andb_true_iff. tauto. Qed.

(** Facts about the capabilities of one hart, for [lia]. *)
Ltac hart_facts :=
  repeat match goal with
  | H : same_hart _ _ = true |- _ =>
      let H1 := fresh in let H2 := fresh in
      pose proof (same_hart_time _ _ H) as [H1 H2]; revert H
  end; intros;
  repeat match goal with
  | H : is_time ?x = true, W : cap_wf ?x = true |- _ =>
      pose proof (time_wf x W H); clear H
  end.

(** What derivation leaves of the parent, and the child. *)
Definition time_split p p' k : Prop :=
  same_slice p p' /\ same_hart p k = true /\ k⟦time_bgn⟧ = p⟦time_mrk⟧ /\
  k⟦time_mrk⟧ = k⟦time_bgn⟧ /\ k⟦time_end⟧ <= p⟦time_end⟧ /\ p'⟦time_mrk⟧ = k⟦time_end⟧.

Lemma same_hart_trans x p k : same_hart p k = true -> same_hart x k = same_hart x p.
Proof.
  unfold same_hart. intros [[-> ->]%andb_true_iff E%Z.eqb_eq]%andb_true_iff. by rewrite E.
Qed.

Lemma split_child x p k : cap_wf x = true -> cap_wf p = true -> cap_wf k = true ->
  same_hart p k = true -> k⟦time_bgn⟧ = p⟦time_mrk⟧ -> k⟦time_end⟧ <= p⟦time_end⟧ ->
  precedes x p -> precedes x k /\ child_in x k = child_in x p.
Proof.
  intros Hwx Hwp Hwk Hpk Eb Ee Hp. unfold precedes in *.
  pose proof (same_hart_trans x _ _ Hpk) as E.
  destruct (same_hart x p) eqn:Ex; cycle 1.
  { split; [by rewrite E|]. destruct (child_in x k) eqn:E1.
    { apply child_in_hart in E1. congruence. }
    destruct (child_in x p) eqn:E2; [|done]. apply child_in_hart in E2. congruence. }
  specialize (Hp eq_refl). hart_facts. split; [intros _; lia|].
  rewrite !child_in_spec by done.
  destruct (Z.leb_spec x⟦time_bgn⟧ k⟦time_bgn⟧), (Z.leb_spec k⟦time_end⟧ x⟦time_end⟧),
    (Z.leb_spec x⟦time_bgn⟧ p⟦time_bgn⟧), (Z.leb_spec p⟦time_end⟧ x⟦time_end⟧); (done || lia).
Qed.
Lemma block_none P l : Forall (fun z => P z = false) l -> prefix_block P l.
Proof. induction 1; cbn; auto. Qed.

Lemma child_in_slice p p' z : same_slice p p' -> child_in p' z = child_in p z.
Proof.
  unfold same_slice, child_in, time_child. intros [-> H].
  destruct (is_time p); cbn [andb]; [|done]. by destruct H as (-> & -> & ->).
Qed.

Lemma block_ext P P' l : (forall z, P' z = P z) -> prefix_block P l -> prefix_block P' l.
Proof.
  intros E. induction l as [|z l IH]; cbn; [done|]. rewrite E. intros [H1 H2].
  split; [|auto]. intros Hz. eapply Forall_impl; [by apply H1|]. cbn. by intros; rewrite E.
Qed.

Lemma same_hart_slice p p' z : same_slice p p' -> same_hart p' z = same_hart p z.
Proof.
  unfold same_slice, same_hart. intros [-> H]. destruct (is_time p); cbn [andb]; [|done].
  by destruct H as (-> & _).
Qed.

(** The head of a tree whose mark moves. *)
Lemma tree_head p p' l : same_slice p p' -> time_tree (p :: l) ->
  Forall (fun z => same_hart p z = true -> z⟦time_end⟧ <= p'⟦time_mrk⟧) l -> time_tree (p' :: l).
Proof.
  intros Hs (Hp & Hb & Ht) Hm. split; [|split; [|done]].
  - apply Forall_forall. intros z Hz. rewrite Forall_forall in Hp, Hm.
    intros E. rewrite (same_hart_slice p p' z Hs) in E. destruct (Hp z Hz E) as [_ H].
    split; [by apply Hm|]. destruct Hs as [_ Hs]. apply same_hart_time in E as [Et _].
    by destruct (Hs Et) as (_ & -> & _).
  - eapply block_ext; [|done]. intros z. by apply child_in_slice.
Qed.

Lemma tree_derive p p' k l :
  cap_wf p = true -> cap_wf k = true -> Forall (fun z => cap_wf z = true) l ->
  time_tree (p :: l) -> time_split p p' k -> time_tree (p' :: k :: l).
Proof.
  intros Hwp Hwk Hwl Ht (Hs & Hpk & Eb & Em & Ee & Em'). pose proof Ht as (Hp & Hb & Htl).
  rewrite Forall_forall in Hp, Hwl.
  assert (Hbelow : forall z, z ∈ l -> same_hart k z = true -> z⟦time_end⟧ <= k⟦time_bgn⟧).
  { intros z Hz E. rewrite Eb. apply (Hp z Hz). unfold same_hart in *. breflect.
    destruct Hpk as [[-> _] Hh], E as [[_ ->] Hh']. by rewrite Hh, Hh', Z.eqb_refl. }
  assert (Hnone : Forall (fun z => child_in k z = false) l).
  { apply Forall_forall. intros z Hz. destruct (child_in k z) eqn:E; [|done].
    pose proof (child_in_hart _ _ E) as Hh. specialize (Hbelow z Hz Hh).
    rewrite child_in_spec in E by done. specialize (Hwl z Hz). hart_facts. breflect. lia. }
  assert (Hchild : child_in p' k = true).
  { rewrite (child_in_slice p) by done. rewrite child_in_spec by done. hart_facts.
    rewrite andb_true_iff, !Z.leb_le. lia. }
  cbn [time_tree prefix_block]. rewrite Hchild. split_and!; [|done| | |by apply block_none|done].
  - apply Forall_cons. split.
    + intros _. destruct Hs as [_ Hs]. pose proof (same_hart_time _ _ Hpk) as [E _].
      destruct (Hs E) as (_ & -> & _). hart_facts. lia.
    + apply Forall_forall. intros z Hz E. rewrite (same_hart_slice p) in E by done.
      destruct (Hp z Hz E) as [H1 H2]. split.
      * pose proof (same_hart_time _ _ Hpk) as [_ Ek]. pose proof (time_wf k Hwk Ek). lia.
      * destruct Hs as [_ Hs]. pose proof (same_hart_time _ _ Hpk) as [Ep _].
        by destruct (Hs Ep) as (_ & -> & _).
  - eapply block_ext; [|done]. intros z. by apply child_in_slice.
  - apply Forall_forall. intros z Hz E. specialize (Hbelow z Hz E).
    pose proof (same_hart_time _ _ E) as [Ek _]. pose proof (time_wf k Hwk Ek). lia.
Qed.

Lemma suffix_derive p p' k l :
  cap_wf p = true -> cap_wf k = true -> time_split p p' k ->
  suffix_ok (p :: l) (p' :: k :: l).
Proof.
  intros Hwp Hwk (Hs & Hpk & Eb & Em & Ee & Em') x Hx Hp.
  apply Forall_cons in Hp as [Hp Hpl].
  destruct (split_child x p k) as [Hk Ek]; try done.
  split; [|split].
  - apply Forall_cons. split; [by eapply same_slice_precedes|]. by apply Forall_cons.
  - cbn [prefix_block]. rewrite (same_slice_child x p p'), Ek by done.
    intros [H1 H2]. split; [|split; auto]. intros E. apply Forall_cons. rewrite Ek. auto.
  - intros [H1 H2]%Forall_cons. apply Forall_cons. rewrite (same_slice_child x p p') by done.
    split; [done|]. apply Forall_cons. by rewrite Ek.
Qed.

(** A child is revoked. *)
Lemma tree_revoke p p' k l :
  same_slice p p' -> child_in p k = true -> p'⟦time_mrk⟧ = k⟦time_mrk⟧ ->
  time_tree (p :: k :: l) -> time_tree (p' :: l).
Proof.
  intros Hs Hc Em (Hp & [_ Hb] & Hk & _ & Ht). apply Forall_cons in Hp as [_ Hp].
  apply (tree_head p); [done|by split|]. apply Forall_forall. intros z Hz E. rewrite Em.
  rewrite Forall_forall in Hk. apply (Hk z Hz). apply child_in_hart in Hc.
  unfold same_hart in *. breflect.
  destruct Hc as [[_ ->] Hh], E as [[_ ->] Hh']. by rewrite <- Hh, Hh', Z.eqb_refl.
Qed.

(** No child follows. *)
Lemma tree_revoked p p' l :
  cap_wf p = true -> Forall (fun z => cap_wf z = true) l ->
  same_slice p p' -> p'⟦time_mrk⟧ = p⟦time_bgn⟧ ->
  match l with [] => True | z :: _ => child_in p z = false end ->
  time_tree (p :: l) ->
  Forall (fun z => same_hart p z = true -> z⟦time_end⟧ <= p⟦time_bgn⟧) l /\ time_tree (p' :: l).
Proof.
  intros Hwp Hwl Hs Em Hz Ht. pose proof Ht as (Hp & Hb & _).
  assert (H : Forall (fun z => same_hart p z = true -> z⟦time_end⟧ <= p⟦time_bgn⟧) l).
  { assert (Hn : Forall (fun z => child_in p z = false) l).
    { destruct l as [|z l]; [done|]. apply Forall_cons. split; [done|]. by apply Hb. }
    rewrite Forall_forall in *. intros z Hzl E. destruct (Hp z Hzl E) as [H1 H2].
    specialize (Hn z Hzl). rewrite child_in_spec in Hn by done. hart_facts.
    rewrite andb_false_iff, !Z.leb_gt in Hn. lia. }
  split; [done|]. apply (tree_head p); [done..|]. by rewrite Em.
Qed.
End TreeOps.

(** ** The invariant on views *)

Section Invariant.
Context `{C : Config} {Cok : ConfigOk C}.
Implicit Types (v : view) (c : cte_t).

(** Entry [c] holds the slot [i] of hart [h]. *)
Definition owns v c (h i : Z) : Prop :=
  let k := v_cap v c in
  is_time k = true /\ k⟦time_hart⟧ = h /\ k⟦time_mrk⟧ <= i < k⟦time_end⟧.

(** What the lane of a slot of entry [c] holds: the owner of the entry and the
    slots left. *)
Definition lane_of v c (i : Z) : Z := slot_word (cte_pid c) ((v_cap v c)⟦time_end⟧ - i).

Definition slot_exact v (h i : Z) : Prop :=
  (forall c, in_table c -> owns v c h i -> v_lane v h i = lane_of v c i) /\
  ((forall c, in_table c -> ~ owns v c h i) -> v_lane v h i = 0).

Definition lanes_exact v : Prop :=
  forall h i, valid_hart h -> 0 <= i < S3K_SLOT_CNT -> slot_exact v h i.

Definition schedule_exact v : Prop :=
  exists l, v_list v = Some l /\ time_tree (map (v_cap v) l) /\ lanes_exact v.

(** What the links say about the list. *)
Definition listed v (l : list cte_t) : Prop :=
  NoDup l /\ (forall c, c ∈ l <-> occupied (v_cap v) c) /\
  forall c, in_table c -> cap_wf (v_cap v c) = true.

Lemma sees_listed s v l : sees s v -> v_list v = Some l -> listed v l.
Proof.
  intros Hs Hl. pose proof Hs as (_ & [_ H] & _). specialize (H l Hl).
  pose proof H as (_ & [Hnd _] & _). split; [done|]. split.
  - intros c. by apply (represents_occupied (ctable s)).
  - intros c Hc. by apply (sees_cap_wf _ _ Hs).
Qed.

Lemma time_occupied v l c : listed v l -> in_table c -> is_time (v_cap v c) = true -> c ∈ l.
Proof.
  intros (_ & Ho & _) Hc Ht. apply Ho. split; [done|]. unfold is_time in Ht. breflect.
  by rewrite Ht.
Qed.

Lemma vacant_time v l c : listed v l -> in_table c -> c ∉ l -> is_time (v_cap v c) = false.
Proof.
  intros Hl Hc Hn. destruct (is_time (v_cap v c)) eqn:E; [|done].
  destruct Hn. by eapply time_occupied.
Qed.

(** Slots have one holder. *)
Lemma tree_owner v l c c' h i :
  time_tree (map (v_cap v) l) -> c ∈ l -> c' ∈ l ->
  owns v c h i -> owns v c' h i -> c = c'.
Proof.
  intros Ht Hc Hc' Ho Ho'. induction l as [|x l IH]; [by apply elem_of_nil in Hc|].
  cbn in Ht. destruct Ht as (Hp & _ & Ht).
  assert (H : forall y, y ∈ l -> owns v x h i -> owns v y h i -> False).
  { intros y Hy (T1 & H1 & I1) (T2 & H2 & I2). rewrite Forall_forall in Hp.
    specialize (Hp (v_cap v y)). destruct Hp as [Hp _]; [apply list_elem_of_fmap; eauto| |lia].
    unfold same_hart. by rewrite T1, T2, H1, H2, Z.eqb_refl. }
  apply elem_of_cons in Hc as [->|Hc], Hc' as [->|Hc']; [done| | |by apply IH].
  - by destruct (H c' Hc').
  - by destruct (H c Hc).
Qed.

Lemma owner_unique v l c c' h i :
  listed v l -> time_tree (map (v_cap v) l) -> in_table c -> in_table c' ->
  owns v c h i -> owns v c' h i -> c = c'.
Proof.
  intros Hl Ht Hc Hc' Ho Ho'. eapply tree_owner; [exact Ht| | |exact Ho|exact Ho'].
  - destruct Ho as [E _]. by eapply time_occupied.
  - destruct Ho' as [E _]. by eapply time_occupied.
Qed.

(** ** Slots that are written, and slots that are not *)

Definition unique_owner v (h i : Z) : Prop :=
  forall c c', in_table c -> in_table c' -> owns v c h i -> owns v c' h i -> c = c'.

Lemma slot_given v h i c :
  unique_owner v h i -> in_table c -> owns v c h i -> v_lane v h i = lane_of v c i ->
  slot_exact v h i.
Proof.
  intros Hu Hc Ho E. split.
  - intros c' Hc' Ho'. by rewrite (Hu c' c).
  - intros Hn. by destruct (Hn c Hc).
Qed.

Lemma slot_free v h i :
  (forall c, in_table c -> ~ owns v c h i) -> v_lane v h i = 0 -> slot_exact v h i.
Proof. intros Hn E. split; [|done]. intros c Hc Ho. by destruct (Hn c Hc). Qed.

Lemma slot_kept v v' h i :
  slot_exact v h i -> v_lane v' h i = v_lane v h i ->
  (forall c, in_table c -> owns v' c h i <-> owns v c h i) ->
  (forall c, in_table c -> owns v c h i -> (v_cap v' c)⟦time_end⟧ = (v_cap v c)⟦time_end⟧) ->
  slot_exact v' h i.
Proof.
  intros [H1 H2] El Eo Ee. split; rewrite El.
  - intros c Hc Ho. apply Eo in Ho; [|done]. unfold lane_of. rewrite Ee by done. by apply H1.
  - intros Hn. apply H2. intros c Hc Ho. apply (Hn c Hc). by apply Eo.
Qed.

(** The slice a capability holds. *)
Definition retains (k k' : cap_t) : Prop :=
  same_slice k k' /\ (is_time k = true -> k'⟦time_mrk⟧ = k⟦time_mrk⟧).

Lemma owns_retains v v' c h i :
  retains (v_cap v c) (v_cap v' c) -> owns v' c h i <-> owns v c h i.
Proof.
  intros [[Et Hs] Hm]. unfold owns. cbn zeta. rewrite Et.
  split; intros (T & H & I); (split; [done|]);
    destruct (Hs T) as (E1 & _ & E2); rewrite E1, E2, (Hm T) in *; done.
Qed.

Lemma lanes_retained v v' :
  lanes_exact v -> v_lane v' = v_lane v ->
  (forall c, in_table c -> retains (v_cap v c) (v_cap v' c)) -> lanes_exact v'.
Proof.
  intros H El Hr h i Hh Hi. apply (slot_kept v); [by apply H|by rewrite El| |].
  - intros c Hc. by apply owns_retains, Hr.
  - intros c Hc (T & _ & _). destruct (Hr c Hc) as [[_ Hs] _]. by destruct (Hs T) as (_ & _ & ?).
Qed.

Lemma retains_refl k : retains k k.
Proof. by repeat split. Qed.

(** Neither is a time capability. *)
Lemma retains_other k k' : is_time k = false -> is_time k' = false -> retains k k'.
Proof. intros E E'. split; [split|]; congruence. Qed.
End Invariant.

(** ** The effects on the table *)

Section Table.
Context `{C : Config} {Cok : ConfigOk C}.
Implicit Types (v : view) (c : cte_t).

Lemma map_fupd_out (f : Z -> cap_t) c k l : c ∉ l -> map (fupd f c k) l = map f l.
Proof.
  intros Hc. apply map_ext_in. intros x Hx%list_elem_of_In. apply fupd_ne. by intros ->.
Qed.

Lemma map_fupd_split (f : Z -> cap_t) c k l1 l2 :
  c ∉ l1 -> c ∉ l2 -> map (fupd f c k) (l1 ++ c :: l2) = map f l1 ++ k :: map f l2.
Proof. intros. rewrite map_app. cbn [map]. by rewrite !map_fupd_out, fupd_eq. Qed.

Lemma listed_split v l c : listed v l -> c ∈ l ->
  exists l1 l2, l = l1 ++ c :: l2 /\ (c ∉ l1) /\ (c ∉ l2).
Proof. intros (Hnd & _) Hc. by apply nodup_split. Qed.

Lemma listed_in v l c : listed v l -> c ∈ l <-> in_table c /\ empty (v_cap v c) = false.
Proof. intros (_ & Ho & _). rewrite Ho. unfold occupied, empty. by rewrite Z.eqb_neq. Qed.

Lemma listed_wf v l l' : listed v l -> (forall c, c ∈ l' -> c ∈ l) ->
  Forall (fun k => cap_wf k = true) (map (v_cap v) l').
Proof.
  intros Hl Hs. apply Forall_forall. intros k (c & -> & Hc)%list_elem_of_fmap.
  destruct Hl as (_ & Ho & Hw). apply Hw. by apply Ho, Hs.
Qed.

Lemma schedule_exact_ext v v' :
  v_cap v' = v_cap v -> v_list v' = v_list v -> v_lane v' = v_lane v ->
  schedule_exact v -> schedule_exact v'.
Proof.
  intros E1 E2 E3 (l & Hl & Ht & Hx). exists l. rewrite E1, E2. split; [done|]. split; [done|].
  intros h i Hh Hi. destruct (Hx h i Hh Hi) as [H1 H2].
  unfold slot_exact, owns, lane_of in *. by rewrite E1, E3.
Qed.

(** The list changes from one element on. *)
Lemma tree_at v l1 l2 t :
  listed v (l1 ++ l2) -> time_tree (map (v_cap v) (l1 ++ l2)) ->
  suffix_ok (map (v_cap v) l2) t -> time_tree t -> time_tree (map (v_cap v) l1 ++ t).
Proof.
  intros Hl Ht Hs Htt. rewrite map_app in Ht. eapply tree_suffix; [|exact Ht|done..].
  eapply listed_wf; [done|]. set_solver.
Qed.

Lemma retains_head k k' l : retains k k' -> time_tree (k :: l) -> time_tree (k' :: l).
Proof.
  intros [Hs Hm] Ht. apply (tree_head k); [done..|]. destruct Ht as (Hp & _).
  eapply Forall_impl; [exact Hp|]. intros z Hz E. pose proof (same_hart_time _ _ E) as [T _].
  rewrite Hm by done. by apply Hz.
Qed.

(** A store that keeps the slice. *)
Lemma store_exact v l c k' :
  listed v l -> v_list v = Some l -> schedule_exact v ->
  c ∈ l -> empty k' = false -> retains (v_cap v c) k' -> schedule_exact (v_store c k' v).
Proof.
  intros Hl El (l0 & El' & Ht & Hx) Hc Hk Hr. assert (l0 = l) as -> by congruence.
  pose proof (proj1 (listed_in _ _ _ Hl) Hc) as [Hct He].
  destruct (listed_split _ _ _ Hl Hc) as (l1 & l2 & -> & H1 & H2).
  exists (l1 ++ c :: l2). unfold v_store. rewrite He, Hk. cbn [v_list v_cap v_set_table orb].
  split; [done|]. split.
  - rewrite map_fupd_split by done. eapply tree_at; [exact Hl|done|..].
    + apply suffix_replace; [by destruct Hr|apply suffix_refl].
    + eapply retains_head; [done|]. rewrite map_app in Ht. by apply tree_drop in Ht.
  - apply (lanes_retained v); [done|done|]. intros x _. cbn. unfold fupd.
    destruct (Z.eqb_spec x c) as [->|]; [done|apply retains_refl].
Qed.

(** Removal of an entry; its slots, if any, have been freed. *)
Lemma remove_exact v v' l c :
  listed v l -> v_list v = Some l -> schedule_exact v -> c ∈ l ->
  v_cap v' = v_cap v -> v_list v' = v_list v ->
  (forall h i, valid_hart h -> 0 <= i < S3K_SLOT_CNT -> owns v c h i -> v_lane v' h i = 0) ->
  (forall h i, ~ owns v c h i -> v_lane v' h i = v_lane v h i) ->
  schedule_exact (v_remove c v').
Proof.
  intros Hl El (l0 & El' & Ht & Hx) Hc Ecap Elist Hin Hout. assert (l0 = l) as -> by congruence.
  pose proof (proj1 (listed_in _ _ _ Hl) Hc) as [Hct _].
  assert (Hown : forall x h i, owns (v_remove c v') x h i <-> x <> c /\ owns v x h i).
  { intros x h i. unfold owns. cbn. rewrite Ecap. unfold fupd.
    destruct (Z.eqb_spec x c); [|tauto]. split; [by intros (H & _)|tauto]. }
  destruct (listed_split _ _ _ Hl Hc) as (l1 & l2 & -> & H1 & H2).
  exists (l1 ++ l2). cbn [v_list v_remove v_set_table v_cap]. rewrite Ecap, Elist, El.
  cbn [fmap option_fmap option_map]. rewrite l_remove_split by done. split; [done|]. split.
  - rewrite map_fupd_out, map_app by set_solver. eapply tree_at; [exact Hl|done|..].
    + apply suffix_remove.
    + rewrite map_app in Ht. apply tree_drop in Ht. by destruct Ht as (_ & _ & ?).
  - intros h i Hh Hi. destruct (decide (owns v c h i)) as [Ho|Ho]; cycle 1.
    + apply (slot_kept v); [by apply Hx|by apply Hout| |].
      * intros x Hxt. rewrite Hown. split; [tauto|]. intros H. split; [|done]. by intros ->.
      * intros x _ Hxo. cbn. rewrite Ecap, fupd_ne; [done|]. by intros ->.
    + apply slot_free; [|by apply Hin]. intros x Hxt [Hne Hxo]%Hown. destruct Hne.
      by eapply owner_unique.
Qed.
End Table.

(** ** Moving and deriving *)

Section Entries.
Context `{C : Config} {Cok : ConfigOk C}.
Implicit Types (v : view) (c : cte_t).

(** [src] is replaced by [dst]; its slots have been handed over. *)
Lemma replace_exact v v' l src dst :
  listed v l -> v_list v = Some l -> schedule_exact v -> (1 < length l)%nat ->
  src ∈ l -> in_table dst -> dst ∉ l ->
  v_cap v' = v_cap v -> v_list v' = v_list v ->
  (forall h i, valid_hart h -> 0 <= i < S3K_SLOT_CNT -> owns v src h i ->
     v_lane v' h i = slot_word (cte_pid dst) ((v_cap v src)⟦time_end⟧ - i)) ->
  (forall h i, ~ owns v src h i -> v_lane v' h i = v_lane v h i) ->
  schedule_exact (v_replace src dst v').
Proof.
  intros Hl El (l0 & El' & Ht & Hx) Hlen Hs Hd Hdl Ecap Elist Hin Hout.
  assert (l0 = l) as -> by congruence.
  pose proof (proj1 (listed_in _ _ _ Hl) Hs) as [Hst _].
  assert (Hne : dst <> src) by by intros ->.
  pose proof (vacant_time _ _ _ Hl Hd Hdl) as Hnt.
  assert (Hown : forall x h i, owns (v_replace src dst v') x h i <->
    (x = dst /\ owns v src h i) \/ (x <> src /\ x <> dst /\ owns v x h i)).
  { intros x h i. unfold owns. cbn. rewrite Ecap. unfold fupd.
    destruct (Z.eqb_spec x src) as [->|]; [split; [by intros (H & _)|intuition congruence]|].
    destruct (Z.eqb_spec x dst); tauto. }
  assert (Huniq : forall x y h i, in_table x -> in_table y -> owns v x h i -> owns v y h i -> x = y)
    by (intros; by eapply owner_unique).
  destruct (listed_split _ _ _ Hl Hs) as (l1 & l2 & -> & H1 & H2).
  exists (l1 ++ dst :: l2). cbn [v_list v_replace v_set_table v_cap]. rewrite Ecap, Elist, El.
  destruct (Nat.ltb_spec 1 (length (l1 ++ src :: l2))); [|lia].
  rewrite l_replace_split by done. split; [done|]. split.
  - rewrite map_fupd_out, map_fupd_split by set_solver. by rewrite map_app in Ht.
  - intros h i Hh Hi. destruct (decide (owns v src h i)) as [Ho|Ho].
    + apply (slot_given _ _ _ dst); [|done| |].
      * intros x y Hxt Hyt Hxo%Hown Hyo%Hown.
        destruct Hxo as [[-> _]|(Hx1 & Hx2 & Hxo)], Hyo as [[-> _]|(Hy1 & Hy2 & Hyo)]; [done| | |].
        -- destruct Hy1. by eapply Huniq.
        -- destruct Hx1. by eapply Huniq.
        -- by eapply Huniq.
      * apply Hown. by left.
      * unfold lane_of. cbn. rewrite fupd_ne, fupd_eq, Ecap by done. by apply Hin.
    + apply (slot_kept v); [by apply Hx|by apply Hout| |].
      * intros x Hxt. rewrite Hown. split; [intuition congruence|]. intros H'. right.
        split; [by intros ->|]. split; [|done]. intros ->. destruct H' as (T & _). congruence.
      * intros x _ Hxo. cbn. rewrite !fupd_ne, Ecap; [done|..].
        -- intros ->. destruct Hxo as (T & _). congruence.
        -- by intros ->.
Qed.

(** The mark of [p] moves over the new capability [k], when it is one for time. *)
Definition split_off (p p' k : cap_t) : Prop :=
  if is_time k then time_split p p' k else is_time p = false /\ is_time p' = false.

Lemma tree_split p p' k l :
  cap_wf p = true -> cap_wf k = true -> Forall (fun z => cap_wf z = true) l ->
  time_tree (p :: l) -> split_off p p' k ->
  time_tree (p' :: k :: l) /\ suffix_ok (p :: l) (p' :: k :: l).
Proof.
  intros Hwp Hwk Hwl Ht Hk. unfold split_off in Hk. destruct (is_time k) eqn:Ek.
  { split; [by apply (tree_derive p)|by apply suffix_derive]. }
  destruct Hk as [Ep Ep'].
  assert (Hr : retains p p') by by apply retains_other.
  assert (Hp : forall x, precedes x k).
  { intros x E. apply same_hart_time in E as [_ E]. congruence. }
  assert (Hc : forall x z, is_time x = false \/ is_time z = false -> child_in x z = false).
  { intros x z E. destruct (child_in x z) eqn:E'; [|done].
    apply child_in_hart, same_hart_time in E' as [? ?]. intuition congruence. }
  assert (Hn : Forall (fun z => child_in k z = false) l)
    by (apply Forall_forall; intros; apply Hc; by left).
  pose proof (retains_head _ _ _ Hr Ht) as (H1 & H2 & H3). split.
  - split; [by apply Forall_cons|]. split; [split; [|done]|].
    + intros _. apply Forall_forall. intros z _. apply Hc. by left.
    + split; [|split; [by apply block_none|done]]. apply Forall_forall. intros z _ E.
      apply same_hart_time in E as [E _]. congruence.
  - intros x Hx Hpx. destruct (suffix_replace p p' l l (proj1 Hr) (suffix_refl l) x Hx Hpx)
      as (G1 & G2 & G3). apply Forall_cons in G1 as [G0 G1].
    split; [by repeat (apply Forall_cons; split)|]. split.
    + intros Hb. destruct (G2 Hb) as [B1 B2]. split; [|split; [|done]].
      * intros Hf. apply Forall_cons. split; [apply Hc; by right|by apply B1].
      * intros _. apply B1. apply Hc. by right.
    + intros Hf. specialize (G3 Hf). apply Forall_cons in G3 as [G3 G4].
      apply Forall_cons. split; [done|]. apply Forall_cons. split; [apply Hc; by right|done].
Qed.

(** The slots of a new capability. *)
Definition in_slice (k : cap_t) (h i : Z) : Prop :=
  is_time k = true /\ k⟦time_hart⟧ = h /\ k⟦time_bgn⟧ <= i < k⟦time_end⟧.

(** The parent holds its slots without those of the child. *)
Lemma split_owns p p' k h i : cap_wf p = true -> cap_wf k = true -> split_off p p' k ->
  (is_time p' = true /\ p'⟦time_hart⟧ = h /\ p'⟦time_mrk⟧ <= i < p'⟦time_end⟧) <->
  (is_time p = true /\ p⟦time_hart⟧ = h /\ p⟦time_mrk⟧ <= i < p⟦time_end⟧) /\
  ~ in_slice k h i.
Proof.
  unfold split_off, in_slice. intros Hw Hwk.
  destruct (is_time k) eqn:Ek; [|intuition congruence]. pose proof (time_wf k Hwk Ek).
  intros ([Et Hs] & Hh & Eb & Em & Ee & ->). pose proof (same_hart_time _ _ Hh) as [Ep _].
  destruct (Hs Ep) as (-> & _ & ->). rewrite Et, Ep.
  unfold same_hart in Hh. breflect. destruct Hh as [_ ->]. intuition lia.
Qed.

Lemma split_covers p p' k h i : cap_wf p = true -> split_off p p' k -> in_slice k h i ->
  is_time p = true /\ p⟦time_hart⟧ = h /\ p⟦time_mrk⟧ <= i < p⟦time_end⟧.
Proof.
  unfold split_off, in_slice. intros Hw Hk (Ek & Eh & Hi). rewrite Ek in Hk.
  destruct Hk as (_ & Hh & Eb & _ & Ee & _). unfold same_hart in Hh. breflect.
  destruct Hh as [[-> _] ->]. split; [done|]. split; [done|]. lia.
Qed.

(** The slots after a capability is inserted. *)
Lemma insert_lanes v v' l src dst p' k l' :
  listed v l -> time_tree (map (v_cap v) l) -> lanes_exact v -> cap_wf k = true ->
  in_table src -> in_table dst -> dst ∉ l -> dst <> src ->
  v_cap v' = v_cap v -> split_off (v_cap v src) p' k ->
  (is_time k = true -> k⟦time_mrk⟧ = k⟦time_bgn⟧) ->
  (forall h i, valid_hart h -> 0 <= i < S3K_SLOT_CNT -> in_slice k h i ->
     v_lane v' h i = slot_word (cte_pid dst) (k⟦time_end⟧ - i)) ->
  (forall h i, ~ in_slice k h i -> v_lane v' h i = v_lane v h i) ->
  lanes_exact (v_set_table (fupd (fupd (v_cap v) src p') dst k) l' v').
Proof.
  intros Hl Ht Hx Hwk Hst Hd Hdl Hne Ecap Hk Hkm Hin Hout.
  pose proof (proj2 (proj2 Hl) src Hst) as Hwp. pose proof (vacant_time _ _ _ Hl Hd Hdl) as Hnt.
  set (w := v_set_table _ _ _).
  assert (Hown : forall x h i, owns w x h i <->
    (x = dst /\ in_slice k h i) \/ (x <> dst /\ owns v x h i /\ (x = src -> ~ in_slice k h i))).
  { intros x h i. unfold owns. cbn. unfold fupd. destruct (Z.eqb_spec x dst) as [->|].
    - unfold in_slice. split; [intros (T & E & H); left; by rewrite <- Hkm|].
      intros [(_ & T & E & H)|(H & _)]; [by rewrite Hkm|done].
    - destruct (Z.eqb_spec x src) as [->|]; [rewrite (split_owns (v_cap v src) p' k h i) by done; tauto|tauto]. }
  intros h i Hh Hi.
  assert (Hd_in : {in_slice k h i} + {~ in_slice k h i}) by (unfold in_slice; apply decide; apply _).
  destruct Hd_in as [Hsl|Hsl].
  - apply (slot_given _ _ _ dst); [|done|apply Hown; by left|].
    + assert (Hall : forall x, in_table x -> owns w x h i -> x = dst).
      { intros x Hxt Hxo%Hown. destruct Hxo as [[-> _]|(_ & Hxo & Hn)]; [done|].
        assert (x = src) as ->; [|by destruct (Hn eq_refl)].
        eapply owner_unique; [exact Hl|done|done|done|exact Hxo|]. by eapply split_covers. }
      intros x y Hxt Hyt Hxo Hyo. by rewrite (Hall x), (Hall y).
    + unfold lane_of. cbn. rewrite fupd_eq. by apply Hin.
  - apply (slot_kept v); [by apply Hx|by apply Hout| |].
    + intros x Hxt. rewrite Hown. split; [tauto|]. intros H. right. split; [|done].
      intros ->. destruct H as (T & _). congruence.
    + intros x _ Hxo. cbn. unfold fupd. destruct (Z.eqb_spec x dst) as [->|].
      { destruct Hxo as (T & _). congruence. }
      destruct (Z.eqb_spec x src) as [->|]; [|done]. unfold split_off in Hk.
      destruct Hxo as (T & _). destruct (is_time k); [|intuition congruence].
      destruct Hk as [[_ Hk] _]. by destruct (Hk T) as (_ & _ & ?).
Qed.

(** A capability is inserted after [src]. *)
Lemma insert_exact v v' l src dst p' k :
  listed v l -> v_list v = Some l -> schedule_exact v -> cap_wf k = true ->
  src ∈ l -> in_table dst -> dst ∉ l -> empty p' = false ->
  v_cap v' = v_cap v -> v_list v' = v_list v -> split_off (v_cap v src) p' k ->
  (is_time k = true -> k⟦time_mrk⟧ = k⟦time_bgn⟧) ->
  (forall h i, valid_hart h -> 0 <= i < S3K_SLOT_CNT -> in_slice k h i ->
     v_lane v' h i = slot_word (cte_pid dst) (k⟦time_end⟧ - i)) ->
  (forall h i, ~ in_slice k h i -> v_lane v' h i = v_lane v h i) ->
  schedule_exact (v_insert dst k src (v_store src p' v')).
Proof.
  intros Hl El (l0 & El' & Ht & Hx) Hwk Hs Hd Hdl Hp' Ecap Elist Hk Hkm Hin Hout.
  assert (l0 = l) as -> by congruence.
  pose proof (proj1 (listed_in _ _ _ Hl) Hs) as [Hst He].
  pose proof (proj2 (proj2 Hl) src Hst) as Hwp.
  assert (Hne : dst <> src) by by intros ->.
  assert (Hlanes : forall l', lanes_exact (v_set_table (fupd (fupd (v_cap v) src p') dst k) l' v'))
    by (intros; by eapply insert_lanes).
  destruct (listed_split _ _ _ Hl Hs) as (l1 & l2 & -> & H1 & H2).
  destruct (tree_split (v_cap v src) p' k (map (v_cap v) l2)) as [T1 T2]; [done|done|..].
  { eapply listed_wf; [done|]. set_solver. }
  { rewrite map_app in Ht. by apply tree_drop in Ht. }
  { done. }
  exists (l1 ++ src :: dst :: l2). unfold v_store. rewrite Ecap, He, Hp'.
  cbn [v_list v_insert v_set_table v_cap orb]. rewrite Elist, El.
  cbn [fmap option_fmap option_map]. rewrite l_insert_split by done. split; [done|].
  split; [|apply Hlanes]. rewrite map_app. cbn [map].
  rewrite fupd_eq, (fupd_ne _ dst), fupd_eq by done. rewrite !map_fupd_out by set_solver.
  by eapply tree_at.
Qed.
End Entries.

(** ** Revoking *)

Section Revoking.
Context `{C : Config} {Cok : ConfigOk C}.
Implicit Types (v w : view) (c p : cte_t).

(** The slots from [m] to the end of the capability in [p]. *)
Definition claimed v p (m h i : Z) : Prop :=
  (v_cap v p)⟦time_hart⟧ = h /\ m <= i < (v_cap v p)⟦time_end⟧.

(** The owner of [p] gets back the slots from [m] to the mark, and no other
    entry holds them any more. *)
Lemma reclaimed_lanes v w p m :
  lanes_exact v -> in_table p -> cap_wf (v_cap v p) = true -> is_time (v_cap v p) = true ->
  m <= (v_cap v p)⟦time_mrk⟧ -> (forall h i, unique_owner w h i) ->
  (v_cap w p)⟦time_end⟧ = (v_cap v p)⟦time_end⟧ ->
  (forall h i, owns w p h i <-> claimed v p m h i) ->
  (forall x, x <> p -> v_cap w x = v_cap v x \/ v_cap w x = 0) ->
  (forall x h i, in_table x -> x <> p -> owns v x h i -> owns w x h i \/ claimed v p m h i) ->
  v_lane w = v_lane (v_sched_update (cte_pid p) (v_cap v p)⟦time_end⟧ (v_cap v p)⟦time_hart⟧ m
                       (v_cap v p)⟦time_mrk⟧ v) ->
  lanes_exact w.
Proof.
  intros Hx Hp Hwp Ep Hm Hu Ee Hop Hcap Hox El h i Hh Hi.
  pose proof (time_wf _ Hwp Ep) as [Hwm _].
  assert (Elane : v_lane w h i = if (h =? (v_cap v p)⟦time_hart⟧) && (m <=? i) &&
    (i <? (v_cap v p)⟦time_mrk⟧) then lane_of v p i else v_lane v h i) by by rewrite El.
  assert (Hd : {claimed v p m h i} + {~ claimed v p m h i}) by (apply decide; apply _).
  destruct Hd as [Hc|Hc].
  - apply (slot_given _ _ _ p); [done|done|by apply Hop|]. destruct Hc as [Eh Hi'].
    rewrite Elane, Eh, Z.eqb_refl, (proj2 (Z.leb_le _ _)) by lia. unfold lane_of at 2. rewrite Ee.
    destruct (Z.ltb_spec i (v_cap v p)⟦time_mrk⟧); cbn [andb]; [done|].
    apply (proj1 (Hx h i Hh Hi)); [done|]. split; [done|]. split; [done|lia].
  - apply (slot_kept v); [by apply Hx| | |].
    + rewrite Elane. unfold claimed in Hc. destruct (Z.eqb_spec h (v_cap v p)⟦time_hart⟧),
        (Z.leb_spec m i), (Z.ltb_spec i (v_cap v p)⟦time_mrk⟧); cbn [andb]; try done.
      destruct Hc. split; [done|lia].
    + intros x Hxt. destruct (decide (x = p)) as [->|Hne].
      * rewrite Hop. split; [done|]. intros (_ & Eh & Hi'). split; [done|lia].
      * split; [|intros Ho; by destruct (Hox x h i)].
        unfold owns. destruct (Hcap x Hne) as [->| ->]; [done|by intros (T & _)].
    + intros x Hxt Ho. destruct (decide (x = p)) as [->|Hne]; [done|].
      destruct (Hox x h i Hxt Hne Ho) as [Hw|Hw]; [|done].
      destruct (Hcap x Hne) as [->|E0]; [done|]. destruct Hw as (T & _). by rewrite E0 in T.
Qed.

Lemma same_slice_mark k m : same_slice k k⟦time_mrk := m⟧.
Proof.
  unfold same_slice, is_time. by autorewrite with fields.
Qed.

Lemma time_mark_get k m : 0 <= m < 2 ^ 16 -> k⟦time_mrk := m⟧⟦time_mrk⟧ = m.
Proof. intros Hm. autorewrite with fields. apply Z.mod_small. exact Hm. Qed.

Lemma owns_mark v p m h i l :
  is_time (v_cap v p) = true -> 0 <= m < 2 ^ 16 ->
  owns (v_set_table (fupd (v_cap v) p (v_cap v p)⟦time_mrk := m⟧) l v) p h i <->
  claimed v p m h i.
Proof.
  intros Ep Hm. unfold owns, claimed. cbn. rewrite fupd_eq, time_mark_get by done.
  unfold is_time in *. autorewrite with fields. rewrite Ep. tauto.
Qed.

Lemma listed_one v l1 p l2 : listed v (l1 ++ p :: l2) -> (p ∉ l1) /\ (p ∉ l2).
Proof.
  intros (Hnd & _). apply NoDup_app in Hnd as (_ & Hd & [Hp _]%NoDup_cons).
  split; [|done]. intros Hin. apply (Hd p Hin). set_solver.
Qed.

Lemma listed_pair v l1 p c l2 : listed v (l1 ++ p :: c :: l2) ->
  p <> c /\ (p ∉ l1) /\ (p ∉ l2) /\ (c ∉ l1) /\ (c ∉ l2).
Proof.
  intros Hl. destruct (listed_one _ _ _ _ Hl). 
  replace (l1 ++ p :: c :: l2) with ((l1 ++ [p]) ++ c :: l2) in Hl by (by rewrite <- app_assoc).
  destruct (listed_one _ _ _ _ Hl). set_solver.
Qed.

Lemma empty_mark k m : empty k⟦time_mrk := m⟧ = empty k.
Proof. unfold empty. by autorewrite with fields. Qed.

(** The table after a child is revoked. *)
Lemma revoked_table v v' l1 p c l2 p' :
  listed v (l1 ++ p :: c :: l2) -> v_cap v' = v_cap v ->
  v_list v' = Some (l1 ++ p :: c :: l2) -> empty p' = false ->
  let w := v_store p p' (v_remove c v') in
  v_cap w = fupd (fupd (v_cap v) c 0) p p' /\ v_list w = Some (l1 ++ p :: l2) /\
  map (v_cap w) (l1 ++ p :: l2) = map (v_cap v) l1 ++ p' :: map (v_cap v) l2 /\
  v_lane w = v_lane v'.
Proof.
  intros Hl Ecap Elist Hp' w. destruct (listed_pair _ _ _ _ _ Hl) as (Hne & Hp1 & Hp2 & Hc1 & Hc2).
  assert (Hpl : p ∈ l1 ++ p :: c :: l2) by set_solver.
  pose proof (proj1 (listed_in _ _ _ Hl) Hpl) as [_ He].
  assert (Ewc : v_cap w = fupd (fupd (v_cap v) c 0) p p') by (cbn; by rewrite Ecap).
  split; [done|]. split; [|split; [|done]].
  - unfold w, v_store. cbn. rewrite Ecap, fupd_ne, He, Hp' by done. cbn [orb]. rewrite Elist. cbn.
    change (l1 ++ p :: c :: l2) with (l1 ++ ([p] ++ c :: l2)). rewrite app_assoc, l_remove_split.
    + by rewrite <- app_assoc.
    + set_solver.
  - rewrite Ewc, map_fupd_split by set_solver. by rewrite !map_fupd_out.
Qed.

(** A time capability that follows [p] and is a child of it is revoked. *)
Lemma revoke_step_exact v v' l1 l2 p c :
  let l := l1 ++ p :: c :: l2 in
  let k := v_cap v c in
  let p' := (v_cap v p)⟦time_mrk := k⟦time_mrk⟧⟧ in
  listed v l -> v_list v = Some l -> schedule_exact v -> child_in (v_cap v p) k = true ->
  v_cap v' = v_cap v -> v_list v' = v_list v ->
  v_lane v' = v_lane (v_sched_update (cte_pid p) (v_cap v p)⟦time_end⟧ (v_cap v p)⟦time_hart⟧
                        k⟦time_mrk⟧ (v_cap v p)⟦time_mrk⟧ v) ->
  schedule_exact (v_store p p' (v_remove c v')).
Proof.
  intros l k p' Hl El (l0 & El' & Ht & Hx) Hch Ecap Elist Elane.
  assert (l0 = l) as -> by congruence.
  destruct (listed_pair _ _ _ _ _ Hl) as (Hne & Hp1 & Hp2 & Hc1 & Hc2).
  assert (Hpl : p ∈ l) by (unfold l; set_solver).
  assert (Hcl : c ∈ l) by (unfold l; set_solver).
  pose proof (proj1 (listed_in _ _ _ Hl) Hpl) as [Hpt He].
  pose proof (proj1 (listed_in _ _ _ Hl) Hcl) as [Hct _].
  pose proof (proj2 (proj2 Hl) p Hpt) as Hwp. pose proof (proj2 (proj2 Hl) c Hct) as Hwc.
  pose proof (child_in_hart _ _ Hch) as Hhart. pose proof (same_hart_time _ _ Hhart) as [Ep Ek].
  assert (Hmr : 0 <= k⟦time_mrk⟧ < 2 ^ 16) by exact (fget_range time_mrk k eq_refl).
  assert (Htl : time_tree (map (v_cap v) (p :: c :: l2)))
    by (unfold l in Ht; rewrite map_app in Ht; by apply tree_drop in Ht).
  assert (Ht' : time_tree (map (v_cap v) l1 ++ p' :: map (v_cap v) l2)).
  { eapply tree_at; [exact Hl|done| |].
    - apply suffix_replace; [apply same_slice_mark|apply suffix_remove].
    - eapply tree_revoke; [apply same_slice_mark|exact Hch| |done]. by apply time_mark_get. }
  destruct (revoked_table v v' l1 p c l2 p') as (Ewc & Ewl & Emap & Elw);
    [done|done|by rewrite Elist|by unfold p'; rewrite empty_mark|].
  set (w := v_store p p' (v_remove c v')) in *.
  assert (Htw : time_tree (map (v_cap w) (l1 ++ p :: l2))) by (rewrite Emap; exact Ht').
  exists (l1 ++ p :: l2). split; [done|]. split; [done|].
  destruct Htl as (Hpre & _ & _). apply Forall_cons in Hpre as [Hpre _].
  destruct (Hpre Hhart) as [Hend _]. pose proof (time_wf _ Hwp Ep). pose proof (time_wf _ Hwc Ek).
  assert (Hcap : forall x, x <> p -> x <> c -> v_cap w x = v_cap v x)
    by (intros; rewrite Ewc, !fupd_ne; done).
  assert (Hc0 : v_cap w c = 0) by (by rewrite Ewc, fupd_ne, fupd_eq).
  assert (Hin : forall x h i, in_table x -> owns w x h i -> x ∈ l1 ++ p :: l2).
  { intros x h i Hxt (T & _). destruct (decide (x = p)) as [->|]; [set_solver|].
    destruct (decide (x = c)) as [->|]; [by rewrite Hc0 in T|]. rewrite Hcap in T by done.
    pose proof (time_occupied _ _ _ Hl Hxt T). unfold l in *. set_solver. }
  apply (reclaimed_lanes v w p k⟦time_mrk⟧); [done|done|done|done|unfold k; lia| | | | | |by rewrite Elw].
  - intros h i x y Hxt Hyt Hxo Hyo.
    eapply tree_owner; [exact Htw|by eapply Hin|by eapply Hin|done|done].
  - rewrite Ewc, fupd_eq. unfold p'. by autorewrite with fields.
  - intros h i. rewrite <- (owns_mark v p k⟦time_mrk⟧ h i None) by done.
    unfold owns. cbn [v_cap v_set_table]. by rewrite Ewc, !fupd_eq.
  - intros x Hxp. destruct (decide (x = c)) as [->|]; [by right|left; by apply Hcap].
  - intros x h i Hxt Hxp (T & Eh & Hi). destruct (decide (x = c)) as [->|].
    + right. unfold same_hart in Hhart. breflect. unfold claimed, k in *. intuition lia.
    + left. unfold owns. by rewrite Hcap.
Qed.

(** Revocation ends: nothing that follows [p] is a child of it. *)
Lemma revoke_end_exact v v' l1 l2 p :
  let l := l1 ++ p :: l2 in
  let p' := (v_cap v p)⟦time_mrk := (v_cap v p)⟦time_bgn⟧⟧ in
  listed v l -> v_list v = Some l -> schedule_exact v -> is_time (v_cap v p) = true ->
  match l2 with [] => True | z :: _ => child_in (v_cap v p) (v_cap v z) = false end ->
  v_cap v' = v_cap v -> v_list v' = v_list v ->
  v_lane v' = v_lane (v_sched_update (cte_pid p) (v_cap v p)⟦time_end⟧ (v_cap v p)⟦time_hart⟧
                        (v_cap v p)⟦time_bgn⟧ (v_cap v p)⟦time_mrk⟧ v) ->
  schedule_exact (v_store p p' v').
Proof.
  intros l p' Hl El (l0 & El' & Ht & Hx) Ep Hz Ecap Elist Elane.
  assert (l0 = l) as -> by congruence.
  assert (Hpl : p ∈ l) by (unfold l; set_solver).
  pose proof (proj1 (listed_in _ _ _ Hl) Hpl) as [Hpt He].
  pose proof (proj2 (proj2 Hl) p Hpt) as Hwp. pose proof (time_wf _ Hwp Ep).
  assert (Hmr : 0 <= (v_cap v p)⟦time_bgn⟧ < 2 ^ 16)
    by exact (fget_range time_bgn (v_cap v p) eq_refl).
  destruct (listed_one _ _ _ _ Hl) as [Hp1 Hp2].
  assert (Htl : time_tree (map (v_cap v) (p :: l2)))
    by (unfold l in Ht; rewrite map_app in Ht; by apply tree_drop in Ht).
  destruct (tree_revoked (v_cap v p) p' (map (v_cap v) l2)) as [Hbelow Htp];
    [done|eapply listed_wf; [done|]; unfold l; set_solver|apply same_slice_mark
    |by apply time_mark_get|by destruct l2|done|].
  assert (Ht' : time_tree (map (v_cap v) l1 ++ p' :: map (v_cap v) l2)).
  { eapply tree_at; [exact Hl|done| |done].
    apply suffix_replace; [apply same_slice_mark|apply suffix_refl]. }
  set (w := v_store p p' v').
  assert (Ewc : v_cap w = fupd (v_cap v) p p') by (cbn; by rewrite Ecap).
  assert (Emap : map (v_cap w) l = map (v_cap v) l1 ++ p' :: map (v_cap v) l2)
    by (unfold l; by rewrite Ewc, map_fupd_split).
  assert (Htw : time_tree (map (v_cap w) l)) by (rewrite Emap; exact Ht').
  exists l. split; [|split; [done|]].
  { unfold w, v_store. rewrite Ecap, He. unfold p'. rewrite empty_mark, He. cbn. congruence. }
  apply (reclaimed_lanes v w p (v_cap v p)⟦time_bgn⟧); [done|done|done|done|lia| | | | | |done].
  - intros h i x y Hxt Hyt Hxo Hyo.
    assert (Hin : forall x, in_table x -> owns w x h i -> x ∈ l).
    { intros z Hzt (T & _). rewrite Ewc in T. unfold fupd in T. case_match eqn:E; [breflect; by subst|].
      by eapply time_occupied. }
    eapply tree_owner; [exact Htw|by apply Hin|by apply Hin|done|done].
  - rewrite Ewc, fupd_eq. unfold p'. by autorewrite with fields.
  - intros h i. rewrite <- (owns_mark v p (v_cap v p)⟦time_bgn⟧ h i None) by done.
    unfold owns. cbn [v_cap v_set_table]. by rewrite Ewc, !fupd_eq.
  - intros x Hxp. left. by rewrite Ewc, fupd_ne.
  - intros x h i Hxt Hxp Ho. left. unfold owns. by rewrite Ewc, fupd_ne.
Qed.
End Revoking.

(** ** Every operation keeps the schedule exact *)

Section Exec.
Context `{C : Config} {Cok : ConfigOk C}.
Implicit Types (v : view) (c : cte_t).

(** What an operation must not do: move the only capability of the system, or
    let the search of a revocation run past the end of the derivation list and
    delete the capability at its start (or the revoked one itself). *)
Definition straight (o : cap_op) v : Prop :=
  match v_list v with
  | None => False
  | Some l =>
      match o with
      | OpMove _ _ => (1 < length l)%nat
      | OpRevoke parent child =>
          revocable (v_cap v parent) (v_cap v child) = true ->
          if is_time (v_cap v parent) then last l <> Some parent else child <> parent
      | _ => True
      end
  end.

Lemma not_time k t : k⟦cap_type⟧ = t -> t <> CAPTY_TIME -> is_time k = false.
Proof. unfold is_time. intros -> Ht. by apply Z.eqb_neq. Qed.

Lemma loaded_not_time k : pmp_loaded k = true -> is_time k = false /\ empty k = false.
Proof.
  unfold pmp_loaded, is_time, empty. intros [E _]%andb_true_iff. breflect. by rewrite E.
Qed.

(** A table entry keeps its type, which is not that of time. *)
Lemma retype_exact v l c k' :
  listed v l -> v_list v = Some l -> schedule_exact v -> in_table c ->
  empty (v_cap v c) = false -> is_time (v_cap v c) = false ->
  k'⟦cap_type⟧ = (v_cap v c)⟦cap_type⟧ -> schedule_exact (v_store c k' v).
Proof.
  intros Hl El Hx Hc He Ht Ek. eapply store_exact; [done|done|done|by apply (listed_in _ _ _ Hl)| |].
  - unfold empty in *. by rewrite Ek.
  - apply retains_other; [done|]. unfold is_time in *. by rewrite Ek.
Qed.

(** Removal of an entry that is not for time. *)
Lemma remove_other v v' l c :
  listed v l -> v_list v = Some l -> schedule_exact v -> c ∈ l -> is_time (v_cap v c) = false ->
  v_cap v' = v_cap v -> v_list v' = v_list v -> v_lane v' = v_lane v ->
  schedule_exact (v_remove c v').
Proof.
  intros Hl El Hx Hc Ht Ecap Elist Elane. eapply remove_exact; [done..| |].
  - intros h i _ _ (T & _). congruence.
  - intros. by rewrite Elane.
Qed.

Lemma listed_store v w l c k' :
  listed v l -> v_cap w = v_cap v -> in_table c -> empty (v_cap v c) = false ->
  empty k' = false -> cap_wf k' = true -> listed (v_store c k' w) l.
Proof.
  intros (Hnd & Ho & Hw) Ecap Hc He Hk Hwk. split; [done|]. cbn. rewrite Ecap. unfold fupd. split.
  - intros x. rewrite Ho. unfold occupied. destruct (Z.eqb_spec x c) as [->|]; [|done].
    unfold empty in *. breflect. tauto.
  - intros x Hx. destruct (x =? c); [done|by apply Hw].
Qed.

Lemma delete_exact v l c :
  listed v l -> v_list v = Some l -> schedule_exact v -> in_table c ->
  schedule_exact (a_delete c v).2.
Proof.
  intros Hl El Hx Hc. unfold a_delete. destruct (empty (v_cap v c)) eqn:He; [done|]. cbn [snd].
  assert (Hcl : c ∈ l) by by apply (listed_in _ _ _ Hl).
  unfold v_delete, v_release. destruct (Z.eqb_spec (v_cap v c)⟦cap_type⟧ CAPTY_TIME) as [E|E].
  - eapply (remove_exact v); [done..| |]; cbn [v_lane v_sched_delete v_set_lane].
    + intros h i _ _ (_ & <- & Hi). rewrite Z.eqb_refl. cbn [andb].
      by rewrite (proj2 (Z.leb_le _ _)), (proj2 (Z.ltb_lt _ _)) by lia.
    + intros h i Hn. destruct (_ && _) eqn:B; [|done]. destruct Hn. breflect.
      destruct B as [[-> ?] ?]. unfold owns, is_time. cbn zeta. by rewrite E.
  - assert (is_time (v_cap v c) = false) by by apply Z.eqb_neq.
    case_match; eapply (remove_other v); autorewrite with s3k; done.
Qed.

Lemma move_exact v l src dst :
  listed v l -> v_list v = Some l -> schedule_exact v -> in_table src -> in_table dst ->
  (1 < length l)%nat -> schedule_exact (a_move src dst v).2.
Proof.
  intros Hl El Hx Hs Hd Hlen. unfold a_move. destruct (empty (v_cap v src)) eqn:Es; [done|].
  destruct (empty (v_cap v dst)) eqn:Ed; [|done]. cbn [snd negb].
  assert (Hsl : src ∈ l) by by apply (listed_in _ _ _ Hl).
  assert (Hdl : dst ∉ l) by (intros H; apply (listed_in _ _ _ Hl) in H as [_ H]; congruence).
  assert (Hkept : forall h i, valid_hart h -> 0 <= i < S3K_SLOT_CNT -> owns v src h i ->
    v_lane v h i = lane_of v src i).
  { intros h i Hh Hi Ho. destruct Hx as (? & _ & _ & Hx). by apply Hx. }
  unfold v_move. destruct (Z.eqb_spec (cte_pid src) (cte_pid dst)) as [Ep|Ep].
  { eapply replace_exact; [done..| |done]. intros h i Hh Hi Ho. rewrite <- Ep. by apply Hkept. }
  unfold v_handover. destruct (Z.eqb_spec (v_cap v src)⟦cap_type⟧ CAPTY_TIME) as [E|E].
  - eapply (replace_exact v); [done..| |]; cbn [v_lane v_sched_update v_set_lane].
    + intros h i _ _ (_ & <- & Hi). rewrite Z.eqb_refl. cbn [andb].
      by rewrite (proj2 (Z.leb_le _ _)), (proj2 (Z.ltb_lt _ _)) by lia.
    + intros h i Hn. destruct (_ && _) eqn:B; [|done]. destruct Hn. breflect.
      destruct B as [[-> ?] ?]. unfold owns, is_time. cbn zeta. by rewrite E.
  - assert (Ht : is_time (v_cap v src) = false) by by apply Z.eqb_neq.
    destruct (pmp_loaded (v_cap v src)) eqn:Eu; cycle 1.
    { eapply (replace_exact v); [done..| |done]. intros h i _ _ (T & _). congruence. }
    assert (Epmp : (v_cap v src)⟦cap_type⟧ = CAPTY_PMP)
      by (unfold pmp_loaded in Eu; breflect; tauto).
    set (k := (v_cap v src)⟦pmp_used := 0⟧⟦pmp_slot := 0⟧).
    assert (Ek : k⟦cap_type⟧ = (v_cap v src)⟦cap_type⟧) by (unfold k; by autorewrite with fields).
    assert (He : empty k = false) by (unfold empty in *; by rewrite Ek).
    assert (Hwk : cap_wf k = true) by (apply cap_wf_unload; [by apply Hl|done]).
    set (v1 := v_store src k (v_unload src v)).
    assert (Hl1 : listed v1 l) by (eapply listed_store; [done|apply cap_unload|done..]).
    assert (El1 : v_list v1 = Some l).
    { unfold v1, v_store. cbn. by rewrite cap_unload, Es, He, list_unload. }
    assert (Hx1 : schedule_exact v1).
    { eapply (retype_exact _ l); rewrite ?cap_unload, ?list_unload; try done.
      - unfold listed. by rewrite cap_unload.
      - by eapply (schedule_exact_ext v); rewrite ?cap_unload, ?list_unload, ?lane_unload. }
    assert (Ht1 : is_time (v_cap v1 src) = false)
      by (cbn; rewrite fupd_eq; unfold is_time in *; by rewrite Ek).
    eapply (replace_exact v1); [done..| |done]. intros h i _ _ (T & _). congruence.
Qed.
(** What derivation leaves of a parent, whatever the types. *)
Lemma derive_mark_split p k p' :
  cap_wf p = true -> cap_is_valid k = true -> derive_mark p k = Some p' -> split_off p p' k.
Proof.
  intros Hw Hv. unfold derive_mark, split_off.
  destruct (Z.eqb_spec p⟦cap_type⟧ CAPTY_TIME) as [E|E].
  - destruct (time_derivable p k) eqn:D; [|done]. intros [= <-]. unfold time_derivable in D.
    breflect. destruct D as [[[Ek Eh] Eb] Ee]. unfold is_time. rewrite Ek, Z.eqb_refl.
    destruct (valid_time _ Hv Ek) as [Hk Em]. split; [apply same_slice_mark|].
    split; [unfold same_hart, is_time; by rewrite E, Ek, Eh, !Z.eqb_refl|].
    split; [done|]. split; [done|]. split; [done|]. apply time_mark_get.
    apply (fget_range time_end k eq_refl).
  - intros H. assert (is_time k = false /\ p'⟦cap_type⟧ = p⟦cap_type⟧) as [-> Et].
    { unfold mem_derivable, pmp_derivable, mon_derivable, chan_derivable, server_derivable,
        client_derivable, is_time in *.
      repeat case_match; try done; injection H as <-; breflect; autorewrite with fields;
        (split; [apply Z.eqb_neq; cbn [capty] in *; intuition lia|done]). }
    unfold is_time. rewrite Et. by apply Z.eqb_neq in E.
Qed.

Lemma derive_exact v l src dst k :
  listed v l -> v_list v = Some l -> schedule_exact v -> in_table src -> in_table dst ->
  word_ok k = true -> cap_is_valid k = true -> schedule_exact (a_derive src dst k v).2.
Proof.
  intros Hl El Hx Hs Hd Hw Hv. unfold a_derive. destruct (empty (v_cap v src)) eqn:Es; [done|].
  destruct (empty (v_cap v dst)) eqn:Ed; [|done]. cbn [negb].
  destruct (derive_mark (v_cap v src) k) as [p'|] eqn:Em; [|done]. cbn [snd].
  assert (Hwp : cap_wf (v_cap v src) = true) by by apply Hl.
  destruct (derive_mark_wf _ _ _ Hwp Hw Hv Em) as (Hwk & _ & Et).
  unfold v_derive. eapply (insert_exact v _ l); [done..| | | | | | | | | |].
  - by apply (listed_in _ _ _ Hl).
  - done.
  - intros H. apply (listed_in _ _ _ Hl) in H as [_ H]. congruence.
  - unfold empty in *. by rewrite Et.
  - by case_match.
  - by case_match.
  - by apply derive_mark_split.
  - intros Ek. unfold is_time in Ek. breflect. by destruct (valid_time _ Hv Ek).
  - intros h i _ _ (Ek & <- & Hi). unfold is_time in Ek. rewrite Ek. cbn. rewrite Z.eqb_refl.
    cbn [andb]. by rewrite (proj2 (Z.leb_le _ _)), (proj2 (Z.ltb_lt _ _)) by lia.
  - intros h i Hn. case_match eqn:Ek; [|done]. cbn. destruct (_ && _) eqn:B; [|done].
    destruct Hn. breflect. destruct B as [[-> ?] ?]. unfold in_slice, is_time. by rewrite Ek.
Qed.

(** The time of a parent that is not for time is not touched. *)
Lemma reclaim_other v c m : is_time (v_cap v c) = false -> v_reclaim c m v = v.
Proof. unfold v_reclaim, is_time. by intros ->. Qed.

Lemma listed_remove v w l c :
  listed v l -> v_cap w = v_cap v -> c ∈ l -> listed (v_remove c w) (l_remove c l).
Proof.
  intros Hl Ecap Hc. destruct (listed_split _ _ _ Hl Hc) as (l1 & l2 & -> & H1 & H2).
  rewrite l_remove_split by done. destruct Hl as (Hnd & Ho & Hw).
  unfold listed. cbn. rewrite Ecap. split; [|split].
  - apply NoDup_app in Hnd as (N1 & N2 & [_ N3]%NoDup_cons). apply NoDup_app.
    split; [done|]. split; [|done]. set_solver.
  - intros x. unfold occupied, fupd. destruct (Z.eqb_spec x c) as [->|Hne].
    + split; [set_solver|]. by intros [_ []].
    + fold (occupied (v_cap v) x). rewrite <- Ho. set_solver.
  - intros x Hx. unfold fupd. case_match; [done|by apply Hw].
Qed.

Lemma revocable_occupied pk k : revocable pk k = true -> empty k = false.
Proof.
  unfold revocable, time_child, mem_child, pmp_child, mon_child, chan_child, server_child,
    client_child, empty. intros H. apply Z.eqb_neq.
  repeat case_match; breflect; cbn [capty] in *; intuition lia.
Qed.

Lemma revocable_other pk k :
  is_time pk = false -> revocable pk k = true -> is_time k = false.
Proof.
  unfold revocable, mem_child, pmp_child, mon_child, chan_child, server_child,
    client_child, is_time. intros -> H. apply Z.eqb_neq.
  repeat case_match; breflect; cbn [capty] in *; intuition lia.
Qed.

Lemma revoke_other_exact v l parent child :
  listed v l -> v_list v = Some l -> schedule_exact v -> in_table parent -> in_table child ->
  is_time (v_cap v parent) = false ->
  (revocable (v_cap v parent) (v_cap v child) = true -> child <> parent) ->
  schedule_exact (a_revoke parent child v).2.
Proof.
  intros Hl El Hx Hp Hc Ht Hne. unfold a_revoke.
  destruct (revocable (v_cap v parent) (v_cap v child)) eqn:Er; cbn [snd].
  - specialize (Hne eq_refl). pose proof (revocable_occupied _ _ Er) as Ek.
    pose proof (revocable_other _ _ Ht Er) as Hk.
    assert (Hcl : child ∈ l) by by apply (listed_in _ _ _ Hl).
    unfold v_revoke_step. rewrite reclaim_other by done.
    set (v1 := v_remove child (v_revoke_child child v)).
    assert (Hl1 : listed v1 (l_remove child l)) by (apply (listed_remove v); autorewrite with s3k; done).
    assert (El1 : v_list v1 = Some (l_remove child l)) by (cbn; autorewrite with s3k; by rewrite El).
    assert (Hx1 : schedule_exact v1).
    { eapply (remove_other v); autorewrite with s3k; try done. apply lane_revoke_child. }
    destruct (revoke_mark _ _) as [pk'|] eqn:Em; [|done].
    assert (Ep : v_cap v1 parent = v_cap v parent) by (cbn; autorewrite with s3k; by rewrite fupd_ne).
    destruct (empty (v_cap v parent)) eqn:Ee.
    { unfold revoke_mark, empty in *. breflect. rewrite Ee in Em. done. }
    eapply retype_exact; [exact Hl1|done|done|done|by rewrite Ep|by rewrite Ep|].
    rewrite Ep. by eapply revoke_mark_type.
  - unfold v_revoke_end. rewrite reclaim_other by done.
    destruct (revoke_reset _) as [pk'|] eqn:Em; [|done].
    destruct (empty (v_cap v parent)) eqn:Ee.
    { unfold revoke_reset, empty in *. breflect. rewrite Ee in Em. done. }
    eapply retype_exact; [exact Hl|done..|]. by eapply revoke_reset_type.
Qed.

Lemma child_in_revocable p k : is_time p = true -> revocable p k = child_in p k.
Proof. unfold revocable, child_in, is_time. by intros ->. Qed.

Lemma revoke_time_exact v l parent child :
  listed v l -> v_list v = Some l -> schedule_exact v -> in_table parent ->
  child_of v parent child -> is_time (v_cap v parent) = true ->
  (revocable (v_cap v parent) (v_cap v child) = true -> last l <> Some parent) ->
  schedule_exact (a_revoke parent child v).2.
Proof.
  intros Hl El Hx Hp [Hc Hnext] Ht Hlast. unfold a_revoke.
  assert (Hpl : parent ∈ l) by by eapply time_occupied.
  specialize (Hnext l El Hpl). rewrite child_in_revocable in * by done.
  destruct (listed_split _ _ _ Hl Hpl) as (l1 & l2 & -> & H1 & H2).
  assert (Et : (v_cap v parent)⟦cap_type⟧ = CAPTY_TIME) by (unfold is_time in Ht; by breflect).
  destruct (child_in (v_cap v parent) (v_cap v child)) eqn:Er; cbn [snd].
  - destruct l2 as [|d l2].
    { destruct (Hlast eq_refl). by rewrite last_snoc. }
    unfold l_next in Hnext. rewrite after_split in Hnext by done. subst d.
    unfold v_revoke_step, v_reclaim, revoke_mark. rewrite Et. cbn [Z.eqb Pos.eqb capty].
    eapply (revoke_step_exact v); [done|done|done|done|..]; autorewrite with s3k; [done|done|].
    by rewrite lane_revoke_child.
  - unfold v_revoke_end, v_reclaim, revoke_reset. rewrite Et. cbn [Z.eqb Pos.eqb capty].
    eapply (revoke_end_exact v); [done|done|done|done| |done|done|done].
    destruct l2 as [|d l2]; [done|]. unfold l_next in Hnext.
    rewrite after_split in Hnext by done. by subst d.
Qed.

Lemma exec_exact v l o :
  listed v l -> v_list v = Some l -> op_ok o v -> straight o v -> schedule_exact v ->
  schedule_exact (exec o v).2.
Proof.
  intros Hl El Hok Hst Hx. unfold straight in Hst. rewrite El in Hst.
  destruct o as [src dst|c|parent child|src dst k|c slot|c]; cbn [exec op_ok] in *.
  - destruct Hok. by eapply move_exact.
  - by eapply delete_exact.
  - destruct Hok as [Hp Hc]. destruct (is_time (v_cap v parent)) eqn:Et.
    + by eapply revoke_time_exact.
    + destruct Hc as [Hc _]. by eapply revoke_other_exact.
  - destruct Hok as (? & ? & ? & ?). by eapply derive_exact.
  - destruct Hok as [Hc Hs]. unfold a_pmp_load. destruct (empty _) eqn:Ee; [done|].
    destruct (_ || _) eqn:E; [done|]. breflect. destruct E as [E _].
    repeat case_match; try done. cbn [snd].
    eapply (retype_exact (v_pmp_load _ _ _ _ v) l); try done.
    + by eapply (not_time _ _ E).
    + by autorewrite with fields.
  - unfold a_pmp_unload. destruct (empty _) eqn:Ee; [done|].
    destruct (pmp_loaded _) eqn:E; [|done]. cbn [negb snd].
    destruct (loaded_not_time _ E) as [E1 _].
    eapply (retype_exact (v_unload c v) l); rewrite ?cap_unload, ?list_unload; try done.
    + unfold listed. by rewrite cap_unload.
    + by eapply (schedule_exact_ext v); rewrite ?cap_unload, ?list_unload, ?lane_unload.
    + by autorewrite with fields.
Qed.
End Exec.
