(* ===== verification/TimeTheorems.v ===== *)
(** * The schedule is what the time capabilities say

    The theorems about the schedule and the time capabilities: the operations
    keep them in step, a process is dispatched only in slots of a time
    capability it holds, and a completed revocation brings back all the slots. *)

From S2P Require Import Prelude Config CapTypes CapTable CapList KState Proc Sched.
From S2P Require Import Channel CapOps CapPmp Invariant View Spec Refine Steps Revoke.
From S2P Require Import IpcSafe SchedSafe SyscallSafe KernelInit Boot SchedTheorems Schedule.

Section Code.
Context `{C : Config} {Cok : ConfigOk C}.
Implicit Types (v : view) (c : cte_t).

(** [C9]: Every capability operation keeps the schedule exact: the lane of a
    slot holds the owner and the remaining length of the time capability whose
    unmarked part covers the slot, and is empty when there is none; the time
    capabilities of a hart never overlap.  The exceptions are moving the only
    capability of the system, and a revocation whose search runs past the end of
    the derivation list and deletes the capability at its start. *)
Theorem schedule_kept s v o :
  sees s v -> op_ok o v -> revokes_occupied o v -> straight o v -> schedule_exact v ->
  wp (run_op o) (fun _ s' => exists v', sees s' v' /\ schedule_exact v') s.
Proof.
  intros Hs Hok Hocc Hst Hx. destruct (v_list v) as [l|] eqn:El; cycle 1.
  { unfold straight in Hst. by rewrite El in Hst. }
  eapply see_run_op; [done..|]. intros s' Hs'. eexists. split; [done|].
  eapply exec_exact; [by eapply sees_listed|done..].
Qed.

Lemma lane_of_word v c i : in_table c -> cap_wf (v_cap v c) = true -> 0 <= i ->
  is_time (v_cap v c) = true -> i < (v_cap v c)⟦time_end⟧ ->
  lane_pid (lane_of v c i) = cte_pid c /\
  lane_len (lane_of v c i) = (v_cap v c)⟦time_end⟧ - i.
Proof.
  intros Hc Hw Hi Ht Hlt. pose proof (time_wf _ Hw Ht). config_bounds.
  pose proof (cte_pid_range c Hc) as Hp. unfold valid_proc in Hp.
  unfold lane_of, lane_pid, lane_len.
  by rewrite slot_word_pid, slot_word_len by lia.
Qed.

(** [C10]: A process is dispatched only on its own time: in a state in which the
    schedule is exact, which boot establishes ([kernel_starts]) and the operations
    keep but for the exceptions named in [schedule_kept], a process that
    [sched_fetch] returns holds a time capability of the hart that covers the slot
    with its unmarked part, and its slice ends where the capability does. *)
Theorem sched_fetch_owner s v hart slot q s' :
  sees s v -> schedule_exact v -> valid_hart hart ->
  sched_fetch hart slot s = Done (Some q) s' ->
  exists c v', in_table c /\ cte_pid c = q /\ sees s' v' /\
    let k := v_cap v c in let i := slot mod S3K_SLOT_CNT in
    k⟦cap_type⟧ = CAPTY_TIME /\ k⟦time_hart⟧ = hart /\ k⟦time_mrk⟧ <= i < k⟦time_end⟧ /\
    p_timeout (v_proc v' q) =
      u64 (u64 ((slot + (k⟦time_end⟧ - i)) * S3K_SLOT_LEN) - S3K_SCHED_TIME).
Proof.
  intros Hs (l & El & Ht & Hx) Hh E. set (i := slot mod S3K_SLOT_CNT).
  pose proof (slot_index slot) as Hi. fold i in Hi.
  destruct (sched_fetched _ _ _ _ _ _ Hs Hh E) as (-> & B & Hs'). fold i in Hs' |- *.
  unfold has_slot in B. apply andb_true_iff in B as [B _]. fold i in B.
  apply negb_true_iff, Z.eqb_neq in B. destruct (Hx hart i Hh Hi) as [H1 H2].
  assert (Hex : exists c, c ∈ l /\ owns v c hart i).
  { destruct (decide (Exists (fun c => owns v c hart i) l)) as [Hex|Hno].
    - by apply Exists_exists in Hex.
    - destruct B. rewrite H2; [done|]. intros c Hc Ho. apply Hno, Exists_exists. exists c.
      split; [|done]. eapply time_occupied; [by eapply sees_listed|done|by destruct Ho]. }
  destruct Hex as (c & Hcl & Ho).
  assert (Hc : in_table c) by by apply (listed_in _ _ _ (sees_listed _ _ _ Hs El)).
  pose proof (H1 c Hc Ho) as Elane. rewrite Elane. destruct Ho as (T & Eh & Hm).
  destruct (lane_of_word v c i) as [Ep Elen]; [done|by apply (sees_cap_wf _ _ Hs)|lia|done|lia|].
  exists c, (v_dispatch hart slot v). split; [done|]. split; [done|]. split; [done|]. cbn zeta.
  split; [unfold is_time in T; by breflect|]. split; [done|]. split; [done|].
  unfold v_dispatch. fold i. rewrite Elane, Ep. cbn. rewrite fupd_eq. cbn.
  unfold deadline. by rewrite Elen.
Qed.
End Code.

(** ** Complete revocation *)

Section Revocation.
Context `{C : Config} {Cok : ConfigOk C}.
Implicit Types (v : view) (c p : cte_t).

(** The derivation list starts with a capability that is not for time, as it
    does after boot: revoking time then never reaches the start of the list. *)
Definition anchored v : Prop :=
  exists h l, v_list v = Some (h :: l) /\ is_time (v_cap v h) = false.

Lemma anchored_last v h l p :
  listed v (h :: l) -> is_time (v_cap v h) = false -> p ∈ h :: l -> last (h :: l) = Some p ->
  l_next p (h :: l) = h.
Proof.
  intros Hl Hh Hp Hlast. destruct (listed_split _ _ _ Hl Hp) as (l1 & l2 & E & H1 & H2).
  destruct l2 as [|z l2].
  - unfold l_next. rewrite E, after_last, <- E by done. done.
  - exfalso. rewrite E, last_app in Hlast. apply H2.
    assert (Hz : last (p :: z :: l2) = last (z :: l2)) by done. rewrite Hz in Hlast.
    destruct (last (z :: l2)) as [y|] eqn:Ey; [|by apply last_None in Ey].
    injection Hlast as ->. by apply last_Some_elem_of.
Qed.

Lemma anchored_straight v p child :
  anchored v -> (forall l, v_list v = Some l -> listed v l) -> in_table p ->
  is_time (v_cap v p) = true -> child_of v p child -> straight (OpRevoke p child) v.
Proof.
  intros (h & l & El & Hh) Hl Hp Ht [_ Hc]. specialize (Hl _ El). unfold straight. rewrite El, Ht.
  assert (Hpl : p ∈ h :: l) by by eapply time_occupied.
  specialize (Hc _ El Hpl). intros Hr Hlast.
  rewrite (anchored_last v h l p) in Hc by done. subst child.
  rewrite child_in_revocable in Hr by done.
  apply child_in_hart, same_hart_time in Hr as [_ Hr]. congruence.
Qed.

Lemma anchored_store v p k' :
  anchored v -> is_time (v_cap v p) = true -> empty (v_cap v p) = false -> empty k' = false ->
  anchored (v_store p k' v).
Proof.
  intros (h & l & El & Hh) Ht He Hk. exists h, l. unfold v_store. rewrite He, Hk. cbn.
  split; [done|]. by rewrite fupd_ne by (intros ->; congruence).
Qed.

Lemma anchored_remove v w c :
  anchored v -> v_cap w = v_cap v -> v_list w = v_list v -> is_time (v_cap v c) = true ->
  anchored (v_remove c w).
Proof.
  intros (h & l & El & Hh) Ecap Elist Ht. assert (h <> c) by (intros ->; congruence).
  exists h, (l_remove c l). cbn. rewrite Elist, El, Ecap, fupd_ne by done. cbn.
  by rewrite (proj2 (Z.eqb_neq _ _)).
Qed.

(** One step of the revocation of time: its result, and what it keeps. *)
Lemma revoke_time_step v p child :
  anchored v -> empty (v_cap v p) = false -> is_time (v_cap v p) = true ->
  cap_wf (v_cap v p) = true -> child <> p ->
  let e := (a_revoke p child v).1 in
  let v' := (a_revoke p child v).2 in
  anchored v' /\ same_slice (v_cap v p) (v_cap v' p) /\
  (e = SUCCESS /\ (v_cap v' p)⟦time_mrk⟧ = (v_cap v' p)⟦time_bgn⟧ \/ e = CONTINUE).
Proof.
  intros Ha He Ht Hw Hne. assert (Et : (v_cap v p)⟦cap_type⟧ = CAPTY_TIME)
    by (unfold is_time in Ht; by breflect).
  assert (Hmark : forall m, empty (v_cap v p)⟦time_mrk := m⟧ = false) by (intros; by rewrite empty_mark).
  unfold a_revoke. rewrite child_in_revocable by done.
  destruct (child_in (v_cap v p) (v_cap v child)) eqn:Ec; cbn zeta; cbn [fst snd].
  - pose proof (child_in_hart _ _ Ec) as Hh. apply same_hart_time in Hh as [_ Hk].
    unfold v_revoke_step, revoke_mark, unmarked. rewrite Et. cbn [Z.eqb Pos.eqb capty].
    autorewrite with fields. rewrite Et. cbn [Z.eqb Pos.eqb capty].
    set (w := v_remove child _).
    assert (Hw1 : anchored w) by (apply (anchored_remove v); autorewrite with s3k; done).
    assert (Ep : v_cap w p = v_cap v p) by (cbn; autorewrite with s3k; by rewrite fupd_ne).
    split; [by apply anchored_store; rewrite ?Ep|]. cbn [v_store v_cap v_set_table].
    rewrite fupd_eq. split; [apply same_slice_mark|].
    autorewrite with fields.
    destruct (Z.eqb_spec ((v_cap v child)⟦time_mrk⟧ mod 2 ^ f_wid time_mrk) (v_cap v p)⟦time_bgn⟧);
      [by left|by right].
  - unfold v_revoke_end, revoke_reset. rewrite Et. cbn [Z.eqb Pos.eqb capty].
    set (w := v_reclaim p _ v).
    assert (Hw1 : anchored w) by (destruct Ha as (h & l & ? & ?); exists h, l; unfold w; by autorewrite with s3k).
    assert (Ep : v_cap w p = v_cap v p) by (unfold w; by autorewrite with s3k).
    split; [by apply anchored_store; rewrite ?Ep|]. cbn [v_store v_cap v_set_table].
    rewrite fupd_eq. split; [apply same_slice_mark|]. left. split; [done|].
    rewrite time_mark_get by apply (fget_range time_bgn (v_cap v p) eq_refl).
    by autorewrite with fields.
Qed.
Lemma anchored_child v p child :
  anchored v -> (forall l, v_list v = Some l -> listed v l) -> in_table p ->
  is_time (v_cap v p) = true -> child_of v p child -> child <> p.
Proof.
  intros (h & l & El & Hh) Hl Hp Ht [_ Hc]. specialize (Hl _ El).
  assert (Hpl : p ∈ h :: l) by by eapply time_occupied.
  specialize (Hc _ El Hpl). subst child.
  destruct (listed_split _ _ _ Hl Hpl) as (l1 & l2 & E & H1 & H2). destruct l2 as [|d l2].
  - assert (Hlast : last (h :: l) = Some p) by (rewrite E; apply last_snoc).
    rewrite (anchored_last v h l p) by done. intros ->. congruence.
  - rewrite E in Hl |- *. destruct (listed_pair _ _ _ _ _ Hl) as [Hne _].
    unfold l_next. by rewrite after_split.
Qed.

(** The loop, for a time capability. *)
Lemma see_revoke_time_loop fuel : forall n s v c Q,
  sees s v -> in_table c -> is_time (v_cap v c) = true -> schedule_exact v -> anchored v ->
  fires (v_hw v) n -> (n < fuel)%nat ->
  (forall e s' v', sees s' v' -> schedule_exact v' -> same_slice (v_cap v c) (v_cap v' c) ->
     e = SUCCESS /\ (v_cap v' c)⟦time_mrk⟧ = (v_cap v' c)⟦time_bgn⟧ \/ e = CONTINUE -> Q e s') ->
  wp (cap_revoke_loop fuel CAPTY_TIME c) Q s.
Proof.
  induction fuel as [|fuel IH]; intros n s v c Q Hs Hc Ht Hx Ha Hf Hn HQ; [lia|].
  assert (Hl : forall l, v_list v = Some l -> listed v l) by (intros; by eapply sees_listed).
  assert (Et : (v_cap v c)⟦cap_type⟧ = CAPTY_TIME) by (unfold is_time in Ht; by breflect).
  assert (He : empty (v_cap v c) = false) by by eapply empty_type.
  cbn [cap_revoke_loop]. do 2 see_step.
  apply (wp_assoc _ (fun h => h c (v_cap v c))), wp_bind.
  eapply see_revoke_step; [done|done|by left|]. intros child s1 Hch Hs1.
  pose proof (anchored_child v c child Ha Hl Hc Ht Hch) as Hne.
  destruct (revoke_time_step v c child) as (Ha' & Hsl & He'); [done|done|done|by apply (sees_cap_wf _ _ Hs)|done|].
  assert (Hx' : schedule_exact (a_revoke c child v).2).
  { destruct Hx as (l & El & Hx). eapply (exec_exact v l (OpRevoke c child));
      [by apply Hl|done|done|by apply anchored_straight|by exists l]. }
  destruct (exec_runs (OpRevoke c child) v) as [Hhw _]. cbn [exec] in Hhw.
  destruct He' as [[-> Em]| ->]; [cbn; see; eapply HQ; [done..|by left]|].
  cbn [err_code Z.ltb Z.compare]. do 2 see_step. rewrite Hhw in *.
  set (v1 := v_set_hw _ _) in *.
  destruct (negb (Z.land _ _ =? 0)) eqn:Ep; cbn [negb].
  - see. eapply (HQ CONTINUE _ v1); [done| |done|by right]. by eapply (schedule_exact_ext _ v1).
  - destruct n as [|n]; [by rewrite fires_now in Ep|].
    eapply (IH n _ v1); [done|done| | |done| |lia|].
    + destruct Hsl as [Hsl _]. by rewrite <- Hsl in Ht.
    + by eapply (schedule_exact_ext _ v1).
    + apply fires_tick in Hf. by replace (S n - 1)%nat with n in Hf by lia.
    + intros e s' v' Hs' Hx'' Hsl' He'. apply (HQ e s' v'); [done|done| |done].
      etrans; [exact Hsl|exact Hsl'].
Qed.

(** [C11]: Revoking a time capability brings its slots back, in a state in which
    the schedule is exact and the derivation list starts with a capability that is
    not for time, as it does after boot (a process can move or delete that one,
    and then the search may run past the end of the list), and with the timer
    firing within the fuel. When [cap_revoke] returns [SUCCESS] for a time
    capability, every slot of the capability, from its beginning to its end, is in
    the schedule of its owner again, and nothing is derived from it any more (its
    mark is at its beginning); the only other result is [ERR_PREEMPTED], when the
    timer fired. The schedule stays exact. *)
Theorem cap_revoke_time_complete fuel n s v c :
  sees s v -> in_table c -> (v_cap v c)⟦cap_type⟧ = CAPTY_TIME -> schedule_exact v ->
  anchored v -> fires (v_hw v) n -> (n < fuel)%nat ->
  wp (cap_revoke fuel c) (fun e s' => exists v', sees s' v' /\ schedule_exact v' /\
    let k := v_cap v c in
    (e = SUCCESS /\ (v_cap v' c)⟦time_mrk⟧ = k⟦time_bgn⟧ /\
     (forall i, k⟦time_bgn⟧ <= i < k⟦time_end⟧ ->
        v_lane v' k⟦time_hart⟧ i = slot_word (cte_pid c) (k⟦time_end⟧ - i)) \/
     e = ERR_PREEMPTED)) s.
Proof.
  intros Hs Hc Et Hx Ha Hf Hn. assert (Ht : is_time (v_cap v c) = true) by by apply Z.eqb_eq.
  unfold cap_revoke. do 2 see_step. rewrite Et. cbn [Z.eqb Pos.eqb capty]. see_step.
  eapply see_revoke_time_loop; [done..|]. intros e s' v' Hs' Hx' [S1 S2] He.
  destruct (S2 Ht) as (Eh & Eb & Ee). see. exists v'. split; [done|]. split; [done|].
  destruct He as [[-> Em]| ->]; [left|by right]. cbn. split; [done|]. rewrite Em, Eb.
  split; [done|]. intros i Hi. destruct Hx' as (l & El & _ & Hx').
  pose proof (sees_cap_wf _ _ Hs _ Hc) as Hw. destruct (cap_wf_time _ Hw Et) as (Hh & H1 & H2).
  pose proof (fget_range time_bgn (v_cap v c) eq_refl).
  destruct (Hx' (v_cap v c)⟦time_hart⟧ i Hh ltac:(lia)) as [Hlane _]. rewrite (Hlane c Hc).
  - unfold lane_of. by rewrite Ee.
  - split; [by rewrite S1|]. split; [done|]. rewrite Em, Eb, Ee. done.
Qed.
End Revocation.

(** ** Checks on concrete states *)

Section ScheduleChecks.
Context `{C : Config} {Cok : ConfigOk C}.

Definition precedesb (x z : cap_t) : bool :=
  negb (same_hart x z) ||
  ((z⟦time_end⟧ <=? x⟦time_mrk⟧) &&
   ((x⟦time_bgn⟧ <=? z⟦time_bgn⟧) || (z⟦time_end⟧ <=? x⟦time_bgn⟧))).

Fixpoint prefix_blockb (P : cap_t -> bool) (l : list cap_t) : bool :=
  match l with
  | [] => true
  | z :: l => (P z || forallb (fun y => negb (P y)) l) && prefix_blockb P l
  end.

Fixpoint time_treeb (l : list cap_t) : bool :=
  match l with
  | [] => true
  | x :: l => forallb (precedesb x) l && prefix_blockb (child_in x) l && time_treeb l
  end.

Definition ownsb (v : view) (h i : Z) (c : cte_t) : bool :=
  let k := v_cap v c in
  is_time k && (k⟦time_hart⟧ =? h) && (k⟦time_mrk⟧ <=? i) && (i <? k⟦time_end⟧).

Definition lanesb (v : view) : bool :=
  for_all S3K_MIN_HART (S3K_MAX_HART + 1) (fun h =>
    for_all 0 S3K_SLOT_CNT (fun i =>
      match List.filter (ownsb v h i) (zrange 0 CTABLE_LEN) with
      | [] => v_lane v h i =? 0
      | cs => forallb (fun c => v_lane v h i =? lane_of v c i) cs
      end)).

Definition schedule_exactb (v : view) : bool :=
  match v_list v with
  | Some l => time_treeb (map (v_cap v) l) && lanesb v
  | None => false
  end.

Lemma forallb_Forall {A} (P : A -> bool) (Q : A -> Prop) l :
  (forall x, P x = true -> Q x) -> forallb P l = true -> Forall Q l.
Proof.
  intros H. induction l as [|x l IH]; cbn; [done|]. rewrite andb_true_iff. intros [? ?]. auto.
Qed.

Lemma prefix_blockb_spec P l : prefix_blockb P l = true -> prefix_block P l.
Proof.
  induction l as [|z l IH]; cbn; [done|]. rewrite andb_true_iff, orb_true_iff. intros [H1 H2].
  split; [|auto]. intros E. destruct H1 as [H1|H1]; [congruence|].
  eapply forallb_Forall; [|exact H1]. intros x. by rewrite negb_true_iff.
Qed.

Lemma time_treeb_spec l : time_treeb l = true -> time_tree l.
Proof.
  induction l as [|x l IH]; cbn; [done|]. rewrite !andb_true_iff. intros [[H1 H2] H3].
  split; [|split; [by apply prefix_blockb_spec|auto]]. eapply forallb_Forall; [|exact H1].
  intros z Hz E. unfold precedesb in Hz. rewrite E in Hz. cbn [negb orb] in Hz. breflect.
  destruct Hz as [? [?|?]]; auto.
Qed.

Lemma ownsb_spec v h i c : ownsb v h i c = true <-> owns v c h i.
Proof.
  unfold ownsb, owns. cbn zeta. rewrite !andb_true_iff, Z.eqb_eq, Z.leb_le, Z.ltb_lt. tauto.
Qed.

Lemma lanesb_spec v : lanesb v = true -> lanes_exact v.
Proof.
  intros H h i [Hh1 Hh2] Hi. pose proof (for_all_spec _ _ _ H h ltac:(lia)) as H1. cbn beta in H1.
  pose proof (for_all_spec _ _ _ H1 i Hi) as H2. cbn beta in H2.
  assert (Hin : forall c, in_table c -> owns v c h i ->
    In c (List.filter (ownsb v h i) (zrange 0 CTABLE_LEN))).
  { intros c Hc Ho. apply filter_In. split; [|by apply ownsb_spec].
    by apply list_elem_of_In, elem_of_zrange. }
  destruct (List.filter _ _) as [|c0 cs] eqn:E.
  - split; [|intros _; by apply Z.eqb_eq]. intros c Hc Ho. by destruct (Hin c Hc Ho).
  - rewrite forallb_forall in H2. split.
    + intros c Hc Ho. by apply Z.eqb_eq, H2, Hin.
    + intros Hn. assert (Hc0 : In c0 (List.filter (ownsb v h i) (zrange 0 CTABLE_LEN)))
        by (rewrite E; by left).
      apply filter_In in Hc0 as [Hc0 Ho]. apply list_elem_of_In, elem_of_zrange in Hc0.
      destruct (Hn c0); [done|by apply ownsb_spec].
Qed.

Lemma schedule_exactb_spec v : schedule_exactb v = true -> schedule_exact v.
Proof.
  unfold schedule_exactb. destruct (v_list v) as [l|] eqn:El; [|done]. intros H.
  apply andb_true_iff in H as [H1 H2]. exists l. split; [done|].
  split; [by apply time_treeb_spec|by apply lanesb_spec].
Qed.
End ScheduleChecks.

(** ** Witnesses *)

Section Boot1.
#[local] Existing Instance qemu_virt.

Abbreviation view1 := (view_of boot1 (Some list1)).
Abbreviation timed1 := (view_of (timed boot1) (Some list1)).

Lemma boot1_exact : schedule_exact view1.
Proof. apply schedule_exactb_spec. vm_compute. reflexivity. Qed.

Lemma timed1_exact : schedule_exact timed1.
Proof. apply schedule_exactb_spec. vm_compute. reflexivity. Qed.

Lemma timed1_seen : sees (timed boot1) timed1.
Proof. apply sees_checked; vm_compute; reflexivity. Qed.

Example schedule_kept_witness :
  wp (run_op (OpDerive 4 10 half_time)) (fun _ s' => exists v', sees s' v' /\ schedule_exact v') boot1.
Proof.
  apply (schedule_kept boot1 view1 (OpDerive 4 10 half_time));
    [apply boot1_sees| |done|done|apply boot1_exact].
  vm_compute. intuition congruence.
Defined.

Example sched_fetch_owner_witness :
  exists c v', in_table c /\ cte_pid c = 0 /\
    sees (state_of (sched_fetch 0 5 boot1) boot1) v' /\
    let k := v_cap view1 c in let i := 5 mod S3K_SLOT_CNT in
    k⟦cap_type⟧ = CAPTY_TIME /\ k⟦time_hart⟧ = 0 /\ k⟦time_mrk⟧ <= i < k⟦time_end⟧ /\
    p_timeout (v_proc v' 0) =
      u64 (u64 ((5 + (k⟦time_end⟧ - i)) * S3K_SLOT_LEN) - S3K_SCHED_TIME).
Proof.
  apply (sched_fetch_owner boot1 view1 0 5 0); [apply boot1_sees|apply boot1_exact| |].
  - vm_compute. intuition congruence.
  - apply result_Done. vm_compute. reflexivity.
Defined.

Example cap_revoke_time_complete_witness :
  wp (cap_revoke 51 4) (fun e s' => exists v', sees s' v' /\ schedule_exact v' /\
    let k := v_cap timed1 4 in
    (e = SUCCESS /\ (v_cap v' 4)⟦time_mrk⟧ = k⟦time_bgn⟧ /\
     (forall i, k⟦time_bgn⟧ <= i < k⟦time_end⟧ ->
        v_lane v' k⟦time_hart⟧ i = slot_word (cte_pid 4) (k⟦time_end⟧ - i)) \/
     e = ERR_PREEMPTED)) (timed boot1).
Proof.
  apply (cap_revoke_time_complete 51 50 (timed boot1) timed1 4);
    [apply timed1_seen|vm_compute; intuition congruence|vm_compute; reflexivity
    |apply timed1_exact| |apply fires_timer|lia].
  exists 0, [9; 8; 4; 3; 2; 1]. split; [done|]. vm_compute. reflexivity.
Defined.
End Boot1.
