(* ===== verification/IpcTheorems.v ===== *)
(** * Message passing

    The theorems about sockets: the functions of [cap_ipc.c] are the
    specification of [IpcSpec], what a sent message leaves with its receiver,
    and the round trip of a call and its reply. *)

From S2P Require Import Prelude Config CapTypes CapTable CapList KState Proc Sched.
From S2P Require Import Channel CapOps CapIpc Invariant View Spec Refine Steps Revoke.
From S2P Require Import IpcSafe IpcSpec KernelInit Boot SchedTheorems.

Section Sending.
Context `{C : Config} {Cok : ConfigOk C}.
Implicit Types (v : view) (p q : Z).

(** [C12]: The operations on socket capabilities are their specifications, for a
    running process and entries of the table: without a fault they return its
    error and the process to run next, and leave its state. *)
Theorem cap_sock_refines s v p sock buf msg :
  sees s v -> valid_proc p -> running v p -> in_table sock -> in_table buf -> msg_ok p msg ->
  wp (cap_sock_send sock msg p) (fun r s' => r = (a_sock_send sock msg p v).1 /\
      sees s' (a_sock_send sock msg p v).2) s /\
  wp (cap_sock_recv sock buf p) (fun r s' => r = (a_sock_recv sock buf p v).1 /\
      sees s' (a_sock_recv sock buf p v).2) s /\
  wp (cap_sock_sendrecv sock msg p) (fun r s' => r = (a_sock_sendrecv sock msg p v).1 /\
      sees s' (a_sock_sendrecv sock msg p v).2) s.
Proof.
  intros. split; [by eapply see_a_sock_send|].
  split; [by eapply see_a_sock_recv|by eapply see_a_sock_sendrecv].
Qed.

(** The process registered on the other side of a channel. *)
Definition registered v (cap : cap_t) : option Z :=
  let ch := v_chan v cap⟦sock_chan⟧ in if is_server cap then ch_client ch else ch_server ch.

(** The capabilities after a move: a loaded PMP capability is unloaded when it
    changes owner, and a capability for an occupied entry stays where it is. *)
Definition moved (src dst : cte_t) (cp : cte_t -> cap_t) : cte_t -> cap_t :=
  if empty (cp src) || negb (empty (cp dst)) then cp
  else
    let k := cp src in
    let k' := if negb (cte_pid src =? cte_pid dst) && pmp_loaded k
              then k⟦pmp_used := 0⟧⟦pmp_slot := 0⟧ else k in
    fupd (fupd cp dst k') src 0.

Lemma move_moved src dst v c : v_cap (a_move src dst v).2 c = moved src dst (v_cap v) c.
Proof.
  unfold a_move, moved. destruct (empty (v_cap v src)) eqn:Es; [done|].
  destruct (negb (empty (v_cap v dst))) eqn:Ed; [done|]. cbn [orb snd].
  assert (Hne : dst <> src) by (intros ->; by rewrite Es in Ed).
  unfold v_move, v_replace. cbn [v_cap v_set_table].
  destruct (cte_pid src =? cte_pid dst) eqn:Ep; [done|]. cbn [negb andb]. unfold v_handover.
  destruct (Z.eqb_spec (v_cap v src)⟦cap_type⟧ CAPTY_TIME) as [E|].
  - assert (pmp_loaded (v_cap v src) = false) as -> by (unfold pmp_loaded; by rewrite E). done.
  - destruct (pmp_loaded (v_cap v src)) eqn:El; [|done].
    unfold v_store, v_unload. cbn [v_cap v_set_table]. rewrite El. cbn [v_cap v_pmp_set v_set_proc].
    rewrite fupd_eq. unfold fupd. by repeat (case_match; breflect; subst).
Qed.

(** The message of [p] has reached [q]. *)
Record delivered (cap : cap_t) (msg : ipc_msg) (p q : Z) v v' (next : option Z) : Prop := {
  dl_registered : registered v cap = Some q;
  dl_valid : valid_proc q;
  dl_other : q <> p;
  dl_waited : p_state (v_proc v q) = blocked_on cap⟦sock_chan⟧;
  dl_in_time : now (v_tick v) < p_timeout (v_proc v q);
  dl_regs : p_regs (v_proc v' q) =
    message_regs cap msg (if m_send_cap msg then v_cap v (m_cap_buf msg) else 0)
      (p_regs (v_proc v q));
  dl_caps : forall c, v_cap v' c =
    (if m_send_cap msg
     then moved (m_cap_buf msg) (default 0 (ch_cap_buf (v_chan v cap⟦sock_chan⟧))) (v_cap v)
     else v_cap v) c;
  dl_next : next = Some (if cap⟦sock_mode⟧ =? IPC_YIELD then q else p);
  dl_state : p_state (v_proc v' q) = (if cap⟦sock_mode⟧ =? IPC_YIELD then PSF_BUSY else 0);
  dl_timeout : p_timeout (v_proc v' q) =
    (if cap⟦sock_mode⟧ =? IPC_YIELD then p_timeout (v_proc v p) else 0);
  dl_others : forall r, r <> q -> same_run (v_proc v r) (v_proc v' r)
}.

(** Nothing has happened, except that a client which did not wait any more is
    withdrawn from the channel. *)
Definition undelivered (cap : cap_t) v v' : Prop :=
  v_cap v' = v_cap v /\ v_list v' = v_list v /\ v_lane v' = v_lane v /\ v_proc v' = v_proc v /\
  forall i, v_chan v' i = v_chan v i \/
    (is_server cap = true /\ i = cap⟦sock_chan⟧ /\ v_chan v' i = set_client None (v_chan v i)).

Lemma deliver_other cap msg buf q v r :
  r <> q -> same_run (v_proc v r) (v_proc (a_deliver cap msg buf q v) r).
Proof.
  intros Hr. unfold a_deliver. set (v1 := v_update _ _ v).
  assert (H : v_proc v1 r = v_proc v r) by (cbn; by rewrite fupd_ne).
  rewrite <- H. destruct (m_send_cap msg); [|done].
  apply (exec_runs (OpMove (m_cap_buf msg) buf) v1).
Qed.

Lemma deliver_regs cap msg buf q v :
  p_regs (v_proc (a_deliver cap msg buf q v) q) =
  message_regs cap msg (if m_send_cap msg then v_cap v (m_cap_buf msg) else 0) (p_regs (v_proc v q)).
Proof.
  unfold a_deliver. set (v1 := v_update _ _ v).
  assert (H : p_regs (v_proc v1 q) = message_regs cap msg
    (if m_send_cap msg then v_cap v (m_cap_buf msg) else 0) (p_regs (v_proc v q)))
    by (cbn; by rewrite fupd_eq).
  destruct (m_send_cap msg); [|done]. rewrite <- H.
  destruct (exec_runs (OpMove (m_cap_buf msg) buf) v1) as [_ Hr].
  destruct (Hr q) as (_ & E & _). exact E.
Qed.

Lemma deliver_caps cap msg buf q v c :
  v_cap (a_deliver cap msg buf q v) c =
  (if m_send_cap msg then moved (m_cap_buf msg) buf (v_cap v) else v_cap v) c.
Proof. unfold a_deliver. destruct (m_send_cap msg); [|done]. by rewrite move_moved. Qed.

(** A receiver that waits, in time, receives. *)
Lemma send_to cap msg v p q v2 :
  (timer v <=? now v) = false -> a_target cap (now v) (timer v) (v_tick v) = (Some q, v2) ->
  p_state (v_proc v q) = blocked_on cap⟦sock_chan⟧ -> now (v_tick v) < p_timeout (v_proc v q) ->
  let v3 := v_update q (set_state PSF_BUSY) (v_tick v2) in
  let buf := default 0 (ch_cap_buf (v_chan v cap⟦sock_chan⟧)) in
  a_send cap msg p v =
    let '(next, v4) := a_handoff cap p q (a_deliver cap msg buf q v3) in ((SUCCESS, next), v4).
Proof.
  intros Ht Et Est Hlt v3 buf. unfold a_send. rewrite Ht, Et.
  assert (Hp : v_proc v2 = v_proc v /\ v_hw v2 = v_hw (v_tick v)).
  { revert Et. unfold a_target. repeat case_match; by intros [= <- <-]. }
  destruct Hp as [Hp Hh]. unfold a_ipc_acquire. rewrite Hp, Est, Z.eqb_refl. cbn [negb].
  replace (now v2) with (now (v_tick v)) by (unfold now; by rewrite Hh).
  destruct (Z.leb_spec (p_timeout (v_proc v q)) (now (v_tick v))); [lia|]. done.
Qed.

Lemma delivered_intro cap msg v p q v2 next v' :
  socket cap -> running v p -> valid_proc q -> registered v cap = Some q ->
  a_target cap (now v) (timer v) (v_tick v) = (Some q, v2) ->
  p_state (v_proc v q) = blocked_on cap⟦sock_chan⟧ -> now (v_tick v) < p_timeout (v_proc v q) ->
  a_handoff cap p q (a_deliver cap msg (default 0 (ch_cap_buf (v_chan v cap⟦sock_chan⟧))) q
    (v_update q (set_state PSF_BUSY) (v_tick v2))) = (next, v') ->
  delivered cap msg p q v v' next.
Proof.
  intros Hk Hr Hq Hreg Et Est Hlt. pose proof (chan_16bit _ (socket_chan _ Hk)) as Hc.
  assert (Hp : v_proc v2 = v_proc v /\ v_cap v2 = v_cap v /\ v_list v2 = v_list v).
  { revert Et. unfold a_target. repeat case_match; by intros [= <- <-]. }
  destruct Hp as (Hp & Hcap & Hl).
  assert (Hne : q <> p) by (intros ->; by eapply blocked_not_running).
  set (buf := default 0 _). set (v3 := v_update q (set_state PSF_BUSY) (v_tick v2)).
  assert (Hstate := fun r => deliver_state cap msg buf q v3 r).
  assert (Hregs := deliver_regs cap msg buf q v3). assert (Hcaps := fun c => deliver_caps cap msg buf q v3 c).
  assert (Hoth := fun r => deliver_other cap msg buf q v3 r).
  set (v4 := a_deliver cap msg buf q v3) in *.
  assert (H3q : v_proc v3 q = set_state PSF_BUSY (v_proc v q)).
  { cbn. rewrite fupd_eq. by rewrite Hp. }
  assert (H3 : forall r, r <> q -> v_proc v3 r = v_proc v r).
  { intros r Hrq. cbn. rewrite fupd_ne by done. by rewrite Hp. }
  intros Eh. unfold a_handoff in Eh.
  assert (Hs4 := Hstate p). rewrite (H3 p) in Hs4 by done.
  rewrite H3q in Hregs. change (v_cap v3) with (v_cap v2) in *. rewrite Hcap in *.
  destruct (cap⟦sock_mode⟧ =? IPC_YIELD) eqn:Em; injection Eh as <- <-; split;
    rewrite ?Em; try done; cbn; rewrite ?fupd_eq; cbn; try done.
  - by rewrite (proj1 (Hstate q)), H3q.
  - apply Hs4.
  - intros r Hrq. rewrite fupd_ne, <- (H3 r) by done. by apply Hoth.
  - intros r Hrq. rewrite fupd_ne, <- (H3 r) by done. by apply Hoth.
Qed.

Lemma target_registered cap at_ limit v q v' :
  a_target cap at_ limit v = (Some q, v') -> registered v cap = Some q.
Proof. unfold a_target, registered, is_server. by repeat case_match; intros [= <- <-]. Qed.

(** The rest of a target's view. *)
Lemma target_undelivered cap at_ limit v : undelivered cap v (a_target cap at_ limit v).2.
Proof.
  unfold a_target, undelivered, is_server.
  destruct (cap⟦sock_tag⟧ =? 0).
  - destruct (ch_client _); [|do 4 (split; [done|]); intros i; by left].
    do 4 (split; [done|]). intros i. cbn. unfold fupd.
    destruct (Z.eqb_spec i cap⟦sock_chan⟧) as [->|]; [by right|by left].
  - destruct (ch_server _); [|do 4 (split; [done|]); intros i; by left].
    destruct (_ && _); (do 4 (split; [done|])); intros i; by left.
Qed.

Lemma send_outcome cap msg v p :
  socket cap -> running v p -> (forall q, registered v cap = Some q -> valid_proc q) ->
  let r := (a_send cap msg p v).1 in let v' := (a_send cap msg p v).2 in
  (r.1 = SUCCESS /\ exists q, delivered cap msg p q v v' r.2) \/
  ((r.1 = ERR_PREEMPTED /\ timer v <= now v \/ r.1 = ERR_NO_RECEIVER) /\ r.2 = Some p /\
   undelivered cap v v').
Proof.
  intros Hk Hr Hreg. unfold a_send.
  assert (Hnone : undelivered cap v (v_tick v)).
  { do 4 (split; [done|]). intros i. by left. }
  destruct (Z.leb_spec (timer v) (now v)) as [Ht|Ht]; [right; cbn; auto|].
  pose proof (target_undelivered cap (now v) (timer v) (v_tick v)) as Hu.
  destruct (a_target _ _ _ _) as [[q|] v2] eqn:Et; cbn [fst snd] in Hu; [|right; cbn; auto].
  pose proof (target_registered _ _ _ _ _ _ Et) as Hq.
  assert (Hpv : v_proc v2 = v_proc v) by by destruct Hu as (_ & _ & _ & ? & _).
  assert (Hpn : now v2 = now (v_tick v)).
  { revert Et. unfold a_target. repeat case_match; by intros [= <- <-]. }
  destruct (a_ipc_acquire q cap⟦sock_chan⟧ v2) as [[] v3] eqn:Ea; cycle 1.
  { right. cbn. split; [by right|]. split; [done|]. revert Ea. unfold a_ipc_acquire.
    by repeat case_match; intros [= <-]. }
  left. revert Ea. unfold a_ipc_acquire.
  destruct (Z.eqb_spec (p_state (v_proc v2 q)) (blocked_on cap⟦sock_chan⟧)) as [Est|]; [|done].
  destruct (Z.leb_spec (p_timeout (v_proc v2 q)) (now v2)); [done|]. intros [= <-].
  destruct (a_handoff _ _ _ _) as [next v4] eqn:Eh. cbn [fst snd]. split; [done|]. exists q.
  rewrite Hpv, Hpn in *. eapply delivered_intro; eauto.
Qed.

(** [C7]: Sending either delivers the message or does nothing. When [do_send]
    succeeds, the process registered on the other side of the channel was waiting
    on it, its time not out; its registers are the message and its others
    unchanged; the capability is in the buffer if one was sent and it could be
    moved, and if not the message arrives without it; and the receiver runs next
    on the sender's time or becomes ready; no other process's registers or state
    change. When it fails, it is because the timer fired or there is no such
    receiver, and nothing but the channel's registration of a client that has
    stopped waiting changes. *)
Theorem do_send_delivers s v p cap msg :
  sees s v -> valid_proc p -> running v p -> socket cap -> msg_ok p msg ->
  wp (do_send cap msg p) (fun r s' => exists v', sees s' v' /\
    ((r.1 = SUCCESS /\ exists q, delivered cap msg p q v v' r.2) \/
     ((r.1 = ERR_PREEMPTED /\ timer v <= now v \/ r.1 = ERR_NO_RECEIVER) /\ r.2 = Some p /\
      undelivered cap v v'))) s.
Proof.
  intros Hs Hp Hr Hk Hm. eapply see_a_send; [done..|]. intros s' Hs'. eexists. split; [done|].
  apply send_outcome; [done|done|]. unfold registered.
  destruct (sees_chan_wf _ _ Hs _ (socket_chan _ Hk)) as (H1 & H2 & _).
  intros q. destruct (is_server cap); auto.
Qed.

(** ** A call and its reply *)

(** The sender's message is taken by the process registered on the other side,
    on the sender's time, and the sender waits. *)
Definition sender_waits (cap : cap_t) (buf : cte_t) p v v' : Prop :=
  let chan := cap⟦sock_chan⟧ in
  let ch := v_chan v chan in
  v_chan v' chan = (if is_server cap then Channel (Some p) None (Some buf)
                    else Channel (ch_server ch) (Some p) (Some buf)) /\
  v_proc v' p = set_state (Z.lor (blocked_on chan) PSF_BUSY)
    (if is_server cap then set_timeout U64_MAX (v_proc v p) else v_proc v p).

Definition receiver_runs (cap : cap_t) (msg : ipc_msg) p q v v' : Prop :=
  v_proc v' q = set_timeout (p_timeout (v_proc v p))
    (set_regs (message_regs cap msg 0 (p_regs (v_proc v q)))
       (set_state PSF_BUSY (v_proc v q))).

(** What an exchange needs: a donating socket, a message without a capability and
    with its buffer free, a receiver that waits, and time for it. *)
Record exchange_ready (sock : cte_t) (msg : ipc_msg) p q v : Prop := {
  er_type : (v_cap v sock)⟦cap_type⟧ = CAPTY_SOCKET;
  er_mode : (v_cap v sock)⟦sock_mode⟧ = IPC_YIELD;
  er_data : m_send_cap msg = false;
  er_buf : buffer_taken (v_cap v sock) msg v = false;
  er_sender : p_state (v_proc v p) = PSF_BUSY;
  er_registered : registered v (v_cap v sock) = Some q;
  er_waits : p_state (v_proc v q) = blocked_on (v_cap v sock)⟦sock_chan⟧;
  er_slice : now v < timer v;
  er_serve : is_server (v_cap v sock) = false ->
    u64 (now v + default 0 (lookupZ (p_regs (v_proc v q)) REG_SERVTIME)) < timer v;
  er_time : now (v_tick v) < p_timeout (v_proc v q)
}.

Lemma exchange_target sock msg p q v :
  exchange_ready sock msg p q v ->
  let cap := v_cap v sock in
  a_target cap (now v) (timer v) (v_tick v) =
    (Some q, if is_server cap
             then v_set_chan cap⟦sock_chan⟧ (set_client None (v_chan v cap⟦sock_chan⟧)) (v_tick v)
             else v_tick v).
Proof.
  intros [_ _ _ _ _ Hreg _ _ Hserve _]. unfold a_target, registered, is_server in *.
  cbn [v_tick v_chan v_set_hw]. destruct (_ =? 0); rewrite Hreg; [done|].
  change (v_proc (v_tick v)) with (v_proc v).
  destruct (_ =? IPC_YIELD); cbn [andb]; [|done]. specialize (Hserve eq_refl).
  destruct (_ <=? _) eqn:E; [|done]. apply Z.leb_le in E. lia.
Qed.

Lemma exchange sock msg p q v :
  socket (v_cap v sock) -> exchange_ready sock msg p q v ->
  exists v', a_sock_sendrecv sock msg p v = ((ERR_TIMEOUT, Some q), v') /\
    v_cap v' = v_cap v /\ v_hw v' = v_hw (v_tick (v_tick v)) /\
    sender_waits (v_cap v sock) (m_cap_buf msg) p v v' /\
    receiver_runs (v_cap v sock) msg p q v v'.
Proof.
  intros Hk Hx. pose proof (exchange_target _ _ _ _ _ Hx) as Ht.
  destruct Hx as [Hty Hmode Hdata Hbuf Hst Hreg Hw Hslice Hserve Htime].
  pose proof (chan_16bit _ (socket_chan _ Hk)) as Hc.
  assert (Hne : q <> p).
  { intros ->. eapply blocked_not_running; [exact Hc|done|by left]. }
  unfold a_sock_sendrecv, refused, empty. rewrite Hty. cbn [capty Z.eqb Pos.eqb negb].
  unfold suspended. rewrite Hst. cbn [PSF_BUSY PSF_SUSPENDED Z.land Pos.land Z.eqb negb].
  unfold a_sendrecv. rewrite Hbuf. unfold may_not_send at 1. rewrite Hdata. cbn [andb].
  set (cap := v_cap v sock) in *.
  erewrite send_to; [|by apply Z.leb_gt|exact Ht|exact Hw|done].
  unfold a_handoff. rewrite Hmode. cbn [Z.eqb Pos.eqb IPC_YIELD fst snd].
  unfold a_deliver. rewrite Hdata.
  assert (no_self p (Some q) = Some q) as -> by (unfold no_self; case_decide; congruence).
  assert (Hqp : (q =? p) = false) by by apply Z.eqb_neq.
  assert (Hpq : (p =? q) = false) by (apply Z.eqb_neq; congruence).
  rewrite (bool_decide_false (SUCCESS = ERR_NO_RECEIVER)), decide_False by done.
  unfold a_recv, sender_waits, receiver_runs. fold (is_server cap). rewrite Hmode.
  generalize (message_regs cap msg 0). intros f.
  destruct (is_server cap); cbn; (eexists; split; [reflexivity|]);
    cbn; unfold fupd; rewrite ?Hqp, ?Hpq, ?Z.eqb_refl; cbn; by rewrite ?Hqp, ?Hpq, ?Z.eqb_refl.
Qed.

(** A call of client [p] to server [q]: the request is taken by the server, the
    kernel switches to it, it works on its registers, and replies. *)
Definition rpc (csock ssock : cte_t) (request : ipc_msg) (work : list Z -> list Z)
    (reply : list Z -> ipc_msg) p q : K ((err_t * option Z) * (err_t * option Z)) :=
  let* r1 := cap_sock_sendrecv csock request p in
  do* proc_release p in
  do* proc_update q (fun y => set_regs (work (p_regs y)) y) in
  let* y := proc_load q in
  let* r2 := cap_sock_sendrecv ssock (reply (p_regs y)) q in
  ret (r1, r2).

(** Both sides of the channel, the server waiting, and time for both messages. *)
Record rpc_ready (csock ssock : cte_t) (request reply : ipc_msg) p q v : Prop := {
  rr_call : exchange_ready csock request p q v;
  rr_client : is_server (v_cap v csock) = false;
  rr_type : (v_cap v ssock)⟦cap_type⟧ = CAPTY_SOCKET;
  rr_mode : (v_cap v ssock)⟦sock_mode⟧ = IPC_YIELD;
  rr_server : is_server (v_cap v ssock) = true;
  rr_chan : (v_cap v ssock)⟦sock_chan⟧ = (v_cap v csock)⟦sock_chan⟧;
  rr_data : m_send_cap reply = false;
  rr_buf : buffer_taken (v_cap v ssock) reply v = false;
  rr_slice : now (v_tick (v_tick v)) < timer v;
  rr_time : now (v_tick (v_tick (v_tick v))) < p_timeout (v_proc v p)
}.

Lemma blocked_not_busy chan : 0 <= chan < 2 ^ 16 ->
  (if SMP then Z.lxor (Z.lor (blocked_on chan) PSF_BUSY) PSF_BUSY
   else Z.land (Z.lor (blocked_on chan) PSF_BUSY) (Z.lnot PSF_BUSY)) = blocked_on chan.
Proof.
  intros Hc.
  assert (H0 : Z.testbit (blocked_on chan) 0 = false).
  { rewrite blocked_on_eq by done. rewrite Z.bit0_odd.
    replace (2 + chan * 2 ^ 48) with (0 + 2 * (1 + chan * 2 ^ 47)) by lia.
    by rewrite Z.odd_add_mul_2. }
  unfold PSF_BUSY. destruct SMP; apply Z.bits_inj'; intros n Hn.
  - rewrite Z.lxor_spec, Z.lor_spec. change 1 with (2 ^ 0). rewrite Z.pow2_bits_eqb by lia.
    destruct (Z.eqb_spec 0 n) as [<-|]; [by rewrite H0|]. by rewrite orb_false_r, xorb_false_r.
  - rewrite Z.land_spec, Z.lor_spec, Z.lnot_spec by done. change 1 with (2 ^ 0).
    rewrite Z.pow2_bits_eqb by lia.
    destruct (Z.eqb_spec 0 n) as [<-|]; [by rewrite H0|]. by rewrite orb_false_r, andb_true_r.
Qed.

Lemma see_release_wait s v q chan Q :
  sees s v -> valid_proc q -> 0 <= chan < 2 ^ 16 ->
  p_state (v_proc v q) = Z.lor (blocked_on chan) PSF_BUSY ->
  (forall s', sees s' (v_update q (set_state (blocked_on chan)) v) -> Q tt s') ->
  wp (proc_release q) Q s.
Proof.
  intros Hs Hq Hc E HQ. pose proof (blocked_not_busy chan Hc) as Hb.
  unfold proc_release. see. apply wp_kassert.
  { rewrite E. apply negb_true_iff, Z.eqb_neq, lor_busy. }
  destruct SMP; see; apply HQ; unfold v_update; rewrite E, Hb in *; done.
Qed.

(** The server can reply in every view that its work and the clock lead to. *)
Lemma reply_ready csock ssock request answer p q v v3 :
  let chan := (v_cap v csock)⟦sock_chan⟧ in
  rpc_ready csock ssock request answer p q v ->
  v_cap v3 = v_cap v -> v_hw v3 = v_hw (v_tick (v_tick v)) ->
  p_state (v_proc v3 q) = PSF_BUSY -> p_state (v_proc v3 p) = blocked_on chan ->
  p_timeout (v_proc v3 p) = p_timeout (v_proc v p) ->
  (exists x b, v_chan v3 chan = Channel x (Some p) b) ->
  exchange_ready ssock answer q p v3.
Proof.
  intros chan [Hx Hcl Hty Hmode Hsv Hch Hdata Hbuf Hsl Htm] Ecap Ehw Eq Ep Et (x & b & Ech).
  assert (Enow : now v3 = now (v_tick (v_tick v))) by (unfold now; by rewrite Ehw).
  assert (Enow' : now (v_tick v3) = now (v_tick (v_tick (v_tick v))))
    by (unfold now; cbn; by rewrite Ehw).
  assert (Etimer : timer v3 = timer v) by (unfold timer; by rewrite Ehw).
  split; rewrite ?Ecap, ?Enow, ?Enow', ?Etimer, ?Et; try done.
  - unfold buffer_taken. by rewrite Ecap.
  - unfold registered. rewrite Hsv, Hch. fold chan. by rewrite Ech.
  - by rewrite Hch.
  - by rewrite Hsv.
Qed.

(** [C6]: The round trip of a call, without capabilities and with time left. A
    client that runs calls, on a socket of mode [IPC_YIELD], a server that waits
    on the other side of the channel; neither the request nor the reply carries a
    capability, and the buffers both name are free; the slice lasts past the
    request, its service time and the reply, and neither deadline passes
    ([rpc_ready]). Then the kernel switches to the server, which finds the request
    in its registers; when it has done its work on them and replies, the kernel
    switches back. The client goes on with its own deadline, its registers are as
    before the call except for the reply, the server waits for the next call with
    the registers its work left, and the capabilities are as they were. *)
Theorem rpc_roundtrip s v p q csock ssock request work reply :
  let inbox := message_regs (v_cap v csock) request 0 (p_regs (v_proc v q)) in
  let answer := reply (work inbox) in
  let chan := (v_cap v csock)⟦sock_chan⟧ in
  sees s v -> valid_proc p -> valid_proc q -> in_table csock -> in_table ssock ->
  msg_ok p request -> msg_ok q answer -> zlen (work inbox) = REG_CNT ->
  rpc_ready csock ssock request answer p q v ->
  wp (rpc csock ssock request work reply p q) (fun r s' =>
    r = ((ERR_TIMEOUT, Some q), (ERR_TIMEOUT, Some p)) /\ exists v', sees s' v' /\
    v_cap v' = v_cap v /\
    v_chan v' chan = Channel (Some q) None (Some (m_cap_buf answer)) /\
    v_proc v' p = set_regs (message_regs (v_cap v ssock) answer 0 (p_regs (v_proc v p)))
      (v_proc v p) /\
    v_proc v' q = set_state (Z.lor (blocked_on chan) PSF_BUSY)
      (set_timeout U64_MAX (set_regs (work inbox) (v_proc v q)))) s.
Proof.
  intros inbox answer chan Hs Hp Hq Hc1 Hc2 Hm1 Hm2 Hlen [Hx Hcl Hty Hmode Hsv Hch Hdata Hbuf Hsl Htm].
  assert (Hk1 : socket (v_cap v csock)) by (split; [by apply (sees_cap_wf _ _ Hs)|apply Hx]).
  assert (Hk2 : socket (v_cap v ssock)) by (split; [by apply (sees_cap_wf _ _ Hs)|done]).
  pose proof (chan_16bit _ (socket_chan _ Hk1)) as Hc. fold chan in Hc.
  assert (Hne : q <> p).
  { destruct Hx. intros ->. eapply blocked_not_running; [exact Hc|done|by left]. }
  destruct (exchange _ _ _ _ _ Hk1 Hx) as (v1 & E1 & Ecap & Ehw & [Esw1 Esw2] & Erecv).
  unfold rpc. apply wp_bind. eapply see_a_sock_sendrecv; [done..|left; apply Hx|].
  rewrite E1. cbn [fst snd]. intros s1 Hs1. fold chan in Esw1, Esw2. rewrite Hcl in Esw1, Esw2.
  apply wp_bind. eapply see_release_wait; [done|done|exact Hc|by rewrite Esw2|]. intros s2 Hs2.
  set (v2 := v_update p _ v1) in Hs2.
  assert (E2q : v_proc v2 q = v_proc v1 q) by (cbn; by rewrite fupd_ne).
  assert (E2p : v_proc v2 p = set_state (blocked_on chan) (v_proc v1 p)) by (cbn; by rewrite fupd_eq).
  see_step. eapply see_proc_update; [done|done| |].
  { rewrite E2q, Erecv. intros (W1 & W2 & W3 & W4). by split. }
  intros s3 Hs3. rewrite E2q, Erecv in Hs3. cbn [p_regs set_timeout set_regs] in Hs3.
  change (message_regs (v_cap v csock) request 0 (p_regs (set_state PSF_BUSY (v_proc v q))))
    with inbox in Hs3.
  set (v3 := v_set_proc q _ v2) in Hs3.
  assert (E3q : v_proc v3 q = set_timeout (p_timeout (v_proc v p))
    (set_regs (work inbox) (set_state PSF_BUSY (v_proc v q)))).
  { cbn. by rewrite fupd_eq. }
  assert (E3p : v_proc v3 p = set_state (blocked_on chan) (v_proc v p)).
  { cbn. rewrite fupd_ne, fupd_eq, Esw2 by done. done. }
  assert (E3c : v_cap v3 = v_cap v) by exact Ecap.
  assert (Hx3 : exchange_ready ssock answer q p v3).
  { eapply (reply_ready csock); [by split|done|..]; rewrite ?E3q, ?E3p; try done.
    do 2 eexists. exact Esw1. }
  destruct (exchange ssock answer q p v3) as (v4 & E4 & E4c & _ & [F1 F2] & F3); [by rewrite E3c|done|].
  rewrite E3c, Hsv, Hch in F1, F2. fold chan in F1, F2.
  do 2 see_step. rewrite E3q. cbn [p_regs set_timeout set_regs]. fold answer.
  apply wp_bind. eapply see_a_sock_sendrecv; [done..|left; by rewrite E3q|].
  rewrite E4. cbn [fst snd]. intros s4 Hs4. see. split; [done|]. exists v4.
  split; [done|]. split; [congruence|]. split; [done|]. unfold receiver_runs in F3.
  rewrite F2, F3, E3c, E3p, E3q. split; [|by destruct (v_proc v q)].
  destruct Hx as [_ _ _ _ Hst _ _ _ _ _]. destruct (v_proc v p). cbn in *. by rewrite Hst.
Qed.
End Sending.

(** ** Witnesses, with a server that waits *)

Section Channel0.
#[local] Existing Instance qemu_virt.

(** The first process makes a server socket and a client socket of channel 0 and
    gives the server socket to the second process, which waits on it. *)
Definition server_sock : cap_t :=
  0⟦cap_type := CAPTY_SOCKET⟧⟦sock_mode := IPC_YIELD⟧⟦sock_perm := 15⟧.
Definition client_sock : cap_t := server_sock⟦sock_tag := 5⟧.

Definition set_up : K (err_t * option Z) :=
  do* cap_derive 9 10 server_sock in
  do* cap_derive 10 11 client_sock in
  do* cap_move 10 32 in
  do* proc_acquire 0 in
  do* proc_update 0 (set_timeout 3000) in
  do* proc_resume 1 in
  do* proc_acquire 1 in
  let* r := cap_sock_recv 32 33 1 in
  do* proc_release 1 in
  ret r.

Definition served1 : kstate := state_of (set_up (timed boot1)) boot1.
Definition list_s : list cte_t := [0; 9; 32; 11; 8; 4; 3; 2; 1].
Abbreviation views := (view_of served1 (Some list_s)).

Lemma served1_sees : sees served1 views.
Proof. apply sees_checked; vm_compute; reflexivity. Qed.

Lemma served1_running : running views 0.
Proof. left. vm_compute. reflexivity. Qed.

(** The first process sends a copy of a number, and its memory capability. *)
Definition request1 : ipc_msg := IpcMsg 1 true [7; 0; 0; 0].

Lemma request1_ok : msg_ok 0 request1.
Proof. vm_compute. intuition congruence. Qed.

Lemma served1_socket : socket (v_cap views 11).
Proof. split; vm_compute; reflexivity. Qed.

Example cap_sock_refines_witness :
  wp (cap_sock_send 11 request1 0) (fun r s' => r = (a_sock_send 11 request1 0 views).1 /\
      sees s' (a_sock_send 11 request1 0 views).2) served1 /\
  wp (cap_sock_recv 11 12 0) (fun r s' => r = (a_sock_recv 11 12 0 views).1 /\
      sees s' (a_sock_recv 11 12 0 views).2) served1 /\
  wp (cap_sock_sendrecv 11 request1 0) (fun r s' => r = (a_sock_sendrecv 11 request1 0 views).1 /\
      sees s' (a_sock_sendrecv 11 request1 0 views).2) served1.
Proof.
  apply (cap_sock_refines served1 views 0 11 12 request1);
    [apply served1_sees|vm_compute; intuition congruence|apply served1_running
    |vm_compute; intuition congruence..|apply request1_ok].
Defined.

Example do_send_delivers_witness :
  wp (do_send (v_cap views 11) request1 0) (fun r s' => exists v', sees s' v' /\
    ((r.1 = SUCCESS /\ exists q, delivered (v_cap views 11) request1 0 q views v' r.2) \/
     ((r.1 = ERR_PREEMPTED /\ timer views <= now views \/ r.1 = ERR_NO_RECEIVER) /\
      r.2 = Some 0 /\ undelivered (v_cap views 11) views v'))) served1.
Proof.
  apply (do_send_delivers served1 views 0 (v_cap views 11) request1);
    [apply served1_sees|vm_compute; intuition congruence|apply served1_running
    |apply served1_socket|apply request1_ok].
Defined.

(** The server adds one to the number and sends it back. *)
Definition question1 : ipc_msg := IpcMsg 12 false [7; 0; 0; 0].
Definition work1 (regs : list Z) : list Z :=
  insertZ REG_A2 (default 0 (lookupZ regs REG_A2) + 1) regs.
Definition reply1 (regs : list Z) : ipc_msg :=
  IpcMsg 34 false [default 0 (lookupZ regs REG_A2); 0; 0; 0].

Lemma served1_call : exchange_ready 11 question1 0 1 views.
Proof. split; vm_compute; first [reflexivity|done]. Qed.

Example rpc_roundtrip_witness :
  let inbox := message_regs (v_cap views 11) question1 0 (p_regs (v_proc views 1)) in
  let answer := reply1 (work1 inbox) in
  let chan := (v_cap views 11)⟦sock_chan⟧ in
  wp (rpc 11 32 question1 work1 reply1 0 1) (fun r s' =>
    r = ((ERR_TIMEOUT, Some 1), (ERR_TIMEOUT, Some 0)) /\ exists v', sees s' v' /\
    v_cap v' = v_cap views /\
    v_chan v' chan = Channel (Some 1) None (Some (m_cap_buf answer)) /\
    v_proc v' 0 = set_regs (message_regs (v_cap views 32) answer 0 (p_regs (v_proc views 0)))
      (v_proc views 0) /\
    v_proc v' 1 = set_state (Z.lor (blocked_on chan) PSF_BUSY)
      (set_timeout U64_MAX (set_regs (work1 inbox) (v_proc views 1)))) served1.
Proof.
  apply (rpc_roundtrip served1 views 0 1 11 32 question1 work1 reply1);
    [apply served1_sees|vm_compute; intuition congruence..| |].
  - vm_compute. reflexivity.
  - split; [apply served1_call|vm_compute; first [reflexivity|done]..].
Defined.

(** The reply is eight. *)
Example rpc_answer :
  exists r s', rpc 11 32 question1 work1 reply1 0 1 served1 = Done r s' /\
    (let* y := proc_load 0 in array_get (p_regs y) REG_A2) s' = Done 8 s'.
Proof.
  do 2 eexists. split; [apply result_Done with (d := served1); vm_compute; reflexivity|].
  vm_compute. reflexivity.
Qed.
End Channel0.
