(* ===== verification/SyscallTheorems.v ===== *)
(** * The system-call interface

    What a process gets from a system call: the error of the first argument that
    is not valid, or the effect of the call. *)

From S2P Require Import Prelude Config CapTypes CapTable CapList KState Proc Sched.
From S2P Require Import Channel CapOps CapPmp CapIpc CapMonitor Syscall Invariant View.
From S2P Require Import Spec Refine Steps Revoke IpcSafe IpcSpec SyscallSafe SyscallSpec.
From S2P Require Import KernelInit SchedSafe Machine Boot SchedTheorems.

Section Interface.
Context `{C : Config} {Cok : ConfigOk C}.
Implicit Types (v : view) (p q : Z).

(** [C17]: A system call with an argument that is not valid, or with an unknown
    number, changes nothing but the caller: its [t0] is the error of the first
    check that fails, in the order of the arguments, its program counter is past
    the call, and it goes on. *)
Theorem syscall_rejects fuel s v p :
  sees s v -> valid_proc p -> running v p -> 0 <= reg v p REG_T0 ->
  verdict p v <> SUCCESS ->
  wp (syscall_handler fuel p) (fun next s' =>
    next = Some p /\ sees s' (v_t0 p (verdict p v) (v_advance p v))) s.
Proof.
  intros Hs Hp Hr Hc Hv. apply is_err_true in Hv. unfold syscall_handler.
  eapply (see_verdict s v p (fun call err => _)); [done..|]. cbn beta. rewrite Hv.
  apply wp_bind. eapply see_v_advance; [done|done|]. intros s1 Hs1.
  apply wp_bind. eapply see_set_t0; [done|done|]. intros s2 Hs2. by apply wp_ret.
Qed.

(** What a call leaves: the process to run next, and the view. *)
Definition leaves (r : option Z * view) (next : option Z) (s' : kstate) : Prop :=
  next = r.1 /\ sees s' r.2.

(** The lock is released. *)
Definition unlocked (r : option Z * view) : option Z * view := (r.1, v_tick r.2).

(** [C5]: A system call whose arguments pass validation, and fit the widths they
    are checked at where the handler uses them as they are ([fits_args]: indices
    of capabilities, the process numbers of calls on the capabilities of others
    and the register numbers of [SYS_REG_READ] and [SYS_REG_WRITE]), has exactly
    the effect of its specification, on the caller past the call: the function
    of [effects], and for [SYS_CAP_REVOKE] a run of revocation steps, which the
    timer may cut short.  The exceptions: with a timer interrupt pending, the
    kernel is left with nothing changed and the call is made again later; and on
    several harts, a call that needs the capability lock may be given up, with
    [ERR_PREEMPTED] in [t0]. *)
Theorem syscall_performs fuel n s v p :
  sees s v -> valid_proc p -> running v p -> fits_args v p -> verdict p v = SUCCESS ->
  lock_frees (v_hw v) n -> (reg v p REG_T0 = SYS_CAP_REVOKE -> fires (v_hw v) n) ->
  (n + 1 < fuel)%nat ->
  let effect := call_effect (reg v p REG_T0) p in
  wp (syscall_handler fuel p) (fun next s' =>
    if pending v then leaves (None, v_tick v) next s'
    else if negb SMP || (reg v p REG_T0 <? SYS_CAP_MOVE)
    then exists r, effect (v_advance p (v_tick v)) r /\ leaves r next s'
    else exists v1, ticked v v1 /\
      ((exists r, effect (v_advance p v1) r /\ leaves (unlocked r) next s') \/
       leaves (None, v_t0 p ERR_PREEMPTED (v_advance p v1)) next s')) s.
Proof.
  intros Hs Hp Hr Hfit Hok Hlock Hrev Hn. unfold syscall_handler.
  eapply (see_verdict s v p (fun call err => _)); [done..|apply Hfit|]. cbn beta. rewrite Hok.
  cbn [is_err err_code Z.eqb negb]. do 2 see_step. fold (v_tick v) in Hs0. fold (pending v).
  destruct (pending v); [by apply wp_ret|].
  assert (Hrun : forall s2 v2 (Q : option Z -> kstate -> Prop), sees s2 v2 -> ticked v v2 ->
    (forall r next s', call_effect (reg v p REG_T0) p (v_advance p v2) r -> leaves r next s' -> Q next s') ->
    wp (do* advance_pc p in run_handler fuel (reg v p REG_T0) p) Q s2).
  { intros s2 v2 Q Hs2 T2 HQ. eapply (see_dispatch _ _ _ _ n); [done..| |].
    - intros E. split; [by apply Hrev|lia].
    - intros r s' Hr2 Hs'. by eapply HQ. }
  destruct (_ || _); [eapply Hrun; [done|apply ticked_tick|eauto]|]. apply wp_bind, wp_wpe.
  eapply (see_taslock_acquire _ fuel n _ _ _ Hs0); [right; split; [|done]|].
  { intros m Hm. apply Hlock. cbn in Hm. lia. }
  intros b s2 v2 Hs2 T2. assert (T : ticked v v2) by (by eapply ticked_trans; [apply ticked_tick|]).
  destruct b.
  - apply (wp_assoc _ (fun _ => run_handler fuel (reg v p REG_T0) p)), wp_bind.
    eapply Hrun; [done|done|]. intros r next s3 Hr3 [-> Hs3]. apply wp_bind.
    eapply see_lock_release; [done|]. intros s4 Hs4. apply wp_ret. exists v2.
    split; [done|]. left. exists r. by split.
  - apply wp_bind. eapply see_v_advance; [done|done|]. intros s3 Hs3.
    apply wp_bind. eapply see_set_t0; [done|done|]. intros s4 Hs4. apply wp_ret.
    exists v2. split; [done|by right].
Qed.

(** Arguments are validated at their width but used in full: a register number
    whose high bits are not zero passes when its low 32 bits are a register, and
    then the access is outside of the registers. *)
Lemma wide_register_read s v p :
  sees s v -> valid_proc p -> REG_CNT <= args_of v p 0 -> valid_reg (args_of v p 0) = true ->
  result_of (validate_reg_read p s) = Some SUCCESS /\ handle_reg_read p s = Fault OutOfBounds.
Proof.
  intros Hs Hp Hr Hok.
  assert (Harg : forall s v, sees s v -> arg p 0 s = Done (args_of v p 0) s).
  { intros s0 v1 Hs0.
    destruct (wp_inv (arg p 0) (fun x s' => x = args_of v1 p 0 /\ s' = s0) s0) as (? & ? & ? & -> & ->);
      [|done]. by eapply see_arg. }
  split.
  - unfold validate_reg_read. rewrite (bind_Done _ _ _ _ _ (Harg _ _ Hs)), Hok. done.
  - destruct (wp_inv (set_t0 p SUCCESS) (fun _ s' => sees s' (v_t0 p SUCCESS v)) s)
      as ([] & s1 & E1 & Hs1); [by eapply see_set_t0|].
    unfold handle_reg_read. rewrite (bind_Done _ _ _ _ _ E1).
    rewrite (bind_Done _ _ _ _ _ (Harg _ _ Hs1)), t0_args by done.
    destruct (wp_inv (proc_load p) (fun x s' => s' = s1 /\ zlen (p_regs x) = REG_CNT) s1)
      as (x & ? & E2 & -> & Hl); [see; by destruct H as (_ & ? & _)|].
    unfold reg_get, bind. rewrite E2. unfold array_get.
    destruct (lookupZ (p_regs x) (args_of v p 0)) eqn:E; [|done].
    apply lookupZ_Some_range in E. lia.
Qed.
End Interface.

(** ** Witnesses *)

Section Calls.
#[local] Existing Instance qemu_virt.

(** The first process asks for a half of its time in entry 10. *)
Definition asks1 : kstate := set_call 0 SYS_CAP_DERIVE [4; 10; half_time] started1.
(** The same with an entry that does not exist. *)
Definition asks_wrong1 : kstate := set_call 0 SYS_CAP_DERIVE [4; 40; half_time] started1.
Abbreviation asks := (view_of asks1 (Some list1)).
Abbreviation wrong := (view_of asks_wrong1 (Some list1)).

Lemma asks1_current : current asks1 asks 0.
Proof. apply current_checked; vm_compute; reflexivity. Qed.
Lemma asks_wrong1_current : current asks_wrong1 wrong 0.
Proof. apply current_checked; vm_compute; reflexivity. Qed.

Example syscall_rejects_witness :
  wp (syscall_handler 100 0) (fun next s' =>
    next = Some 0 /\ sees s' (v_t0 0 (verdict 0 wrong) (v_advance 0 wrong))) asks_wrong1.
Proof.
  destruct asks_wrong1_current as [H1 H2 H3].
  apply (syscall_rejects 100 asks_wrong1 wrong 0); [done|done|done| |].
  - vm_compute. intuition congruence.
  - assert (verdict 0 wrong = ERR_INVALID_INDEX) as -> by (vm_compute; reflexivity). done.
Defined.

Example syscall_performs_witness :
  let effect := call_effect (reg asks 0 REG_T0) 0 in
  wp (syscall_handler 100 0) (fun next s' =>
    if pending asks then leaves (None, v_tick asks) next s'
    else if negb SMP || (reg asks 0 REG_T0 <? SYS_CAP_MOVE)
    then exists r, effect (v_advance 0 (v_tick asks)) r /\ leaves r next s'
    else exists v1, ticked asks v1 /\
      ((exists r, effect (v_advance 0 v1) r /\ leaves (unlocked r) next s') \/
       leaves (None, v_t0 0 ERR_PREEMPTED (v_advance 0 v1)) next s')) asks1.
Proof.
  destruct asks1_current as [H1 H2 H3].
  apply (syscall_performs 100 50 asks1 asks 0); [done|done|done| | | | |lia].
  - apply fits_argsb_spec. vm_compute. reflexivity.
  - vm_compute. reflexivity.
  - intros m _. vm_compute. reflexivity.
  - assert (reg asks 0 REG_T0 = 9) as -> by (vm_compute; reflexivity). intros E. discriminate E.
Defined.

(** Arguments are validated at their width but used in full: an index with
    nonzero high bits passes, and the assertion in [ctable_get] fails. *)
Example wide_index_passes :
  let s := set_call 0 SYS_CAP_READ [2 ^ 16] started1 in
  result_of (validate_cap_read 0 s) = Some SUCCESS /\
  syscall_handler 100 0 s = Fault AssertFail.
Proof. split; vm_compute; reflexivity. Qed.
End Calls.
