(* ===== verification/TrapTheorems.v ===== *)
(** * Start and exceptions

    The kernel starts in a state with all the invariants, whatever the clock
    shows, and an exception that a process handles itself can be returned
    from. *)

From S2P Require Import Prelude Config CapTypes CapTable CapList KState Proc Sched.
From S2P Require Import Channel CapOps CapPmp CapIpc CapMonitor Syscall Trap KernelInit.
From S2P Require Import Invariant View Spec Refine Steps Revoke IpcSafe IpcSpec SyscallSafe.
From S2P Require Import SyscallSpec PmpInv Authority SchedSafe Machine Boot Schedule TimeTheorems.

(** The invariants of a state. *)
Record sound `{C : Config} (s : kstate) (v : view) : Prop := {
  sd_sees : sees s v;
  sd_caps : caps_sound v;
  sd_backed : backed v;
  sd_schedule : schedule_exact v
}.

Section Starts.
(** The checks of a state do not look at its clock. *)
Definition soundb `{C : Config} (s : kstate) (l : list cte_t) : bool :=
  wfb s && cap_listb (ctable s) l && caps_soundb (view_of s (Some l)) &&
  backedb (view_of s (Some l)) && schedule_exactb (view_of s (Some l)).

Lemma soundb_spec `{C : Config} {Cok : ConfigOk C} s l :
  soundb s l = true -> sound s (view_of s (Some l)).
Proof.
  unfold soundb. rewrite !andb_true_iff. intros [[[[H1 H2] H3] H4] H5]. split.
  - by apply sees_checked.
  - by apply caps_soundb_spec.
  - by apply backedb_spec.
  - by apply schedule_exactb_spec.
Qed.
End Starts.

(** [C16]: The kernel starts: on both platforms and whatever the clock shows,
    [kernel_init] runs without a failed assertion and leaves a state with all
    the invariants: it is well formed with the initial capabilities in one
    derivation list, their contents are sound, the PMP registers are those of
    the loaded capability, and the schedule is that of the time capabilities;
    the first process is ready to run at [_payload], the others suspended. *)
Theorem kernel_starts (clock : nat -> Z) :
  (exists s, boot_qemu_virt clock = Done tt s /\
     sound (C := qemu_virt) s (view_of (C := qemu_virt) s (Some list1)) /\
     map p_state (procs s) = [0; PSF_SUSPENDED] /\
     option_map (fun x => lookupZ (p_regs x) REG_PC) (lookupZ (procs s) 0) = Some (Some 0x80010000)) /\
  (exists s, boot_qemu_virt4 clock = Done tt s /\
     sound (C := qemu_virt4) s (view_of (C := qemu_virt4) s (Some list4)) /\
     map p_state (procs s) = [0; PSF_SUSPENDED] /\
     option_map (fun x => lookupZ (p_regs x) REG_PC) (lookupZ (procs s) 0) = Some (Some 0x80010000)).
Proof.
  split; (eexists; split; [vm_compute; reflexivity|]; split; [apply soundb_spec; vm_compute; reflexivity|]);
    split; vm_compute; reflexivity.
Qed.

(** ** Exceptions *)

Section Exceptions.
Context `{C : Config} {Cok : ConfigOk C}.
Implicit Types (v : view) (p : Z) (regs : list Z).

(** The registers of a process that enters its own handler, and of one that
    returns from it. *)
Definition entered (mcause mtval : Z) regs : list Z :=
  let get r := default 0 (lookupZ regs r) in
  insertZ REG_SP (get REG_TSP) (insertZ REG_PC (get REG_TPC)
    (insertZ REG_ESP (get REG_SP) (insertZ REG_EPC (get REG_PC)
      (insertZ REG_EVAL mtval (insertZ REG_ECAUSE mcause regs))))).

Definition returned regs : list Z :=
  let get r := default 0 (lookupZ regs r) in
  insertZ REG_ESP 0 (insertZ REG_EPC 0 (insertZ REG_EVAL 0 (insertZ REG_ECAUSE 0
    (insertZ REG_SP (get REG_ESP) (insertZ REG_PC (get REG_EPC) regs))))).

Definition is_return (mcause mtval : Z) : bool :=
  (mcause =? ILLEGAL_INSTRUCTION) && ((mtval =? MRET) || (mtval =? SRET) || (mtval =? URET)).

Definition v_regs p (f : list Z -> list Z) v : view := v_update p (fun x => set_regs (f (p_regs x)) x) v.

(** The registers of one process, as a list. *)
Definition has_regs (s : kstate) v p regs : Prop := sees s (v_regs p (fun _ => regs) v).

Lemma see_reg_list s v p regs r Q :
  has_regs s v p regs -> valid_proc p -> 0 <= r < REG_CNT ->
  Q (default 0 (lookupZ regs r)) s -> wp (reg_get p r) Q s.
Proof.
  intros Hs Hp Hr HQ. eapply see_reg; [exact Hs|done|done|]. unfold reg. cbn. by rewrite fupd_eq.
Qed.

Lemma set_reg_list s v p regs r x Q :
  has_regs s v p regs -> valid_proc p -> 0 <= r < REG_CNT ->
  (forall s', has_regs s' v p (insertZ r x regs) -> Q tt s') -> wp (reg_set p r x) Q s.
Proof.
  intros Hs Hp Hr HQ. eapply see_v_reg; [exact Hs|done|done|]. intros s' Hs'. apply HQ.
  revert Hs'. unfold has_regs, v_regs, v_reg, v_update. cbn [v_proc v_set_proc]. rewrite fupd_eq.
  by rewrite set_proc_twice.
Qed.

Lemma copy_reg_list s v p regs dst src Q :
  has_regs s v p regs -> valid_proc p -> 0 <= dst < REG_CNT -> 0 <= src < REG_CNT ->
  (forall s', has_regs s' v p (insertZ dst (default 0 (lookupZ regs src)) regs) -> Q tt s') ->
  wp (copy_reg p dst src) Q s.
Proof.
  intros Hs Hp Hd Hsrc HQ. apply wp_bind. eapply see_reg_list; [done..|].
  by eapply set_reg_list.
Qed.

Ltac regs_step :=
  apply wp_bind;
  first [ eapply set_reg_list; [eassumption|assumption|done|]
        | eapply copy_reg_list; [eassumption|assumption|done|done|] ];
  intros ?s ?Hs.

Lemma see_exception s v p mcause mtval Q :
  sees s v -> valid_proc p ->
  (forall s', sees s' (v_regs p (if is_return mcause mtval then returned else entered mcause mtval) v) ->
     Q p s') ->
  wp (exception_handler p mcause mtval) Q s.
Proof.
  intros Hs Hp HQ.
  assert (H : has_regs s v p (p_regs (v_proc v p))).
  { unfold has_regs, v_regs, v_update. rewrite set_regs_same. by rewrite set_proc_same. }
  unfold exception_handler. fold (is_return mcause mtval).
  destruct (is_return mcause mtval).
  - unfold exception_trap_return. do 6 regs_step. apply wp_ret, HQ.
    rewrite !lookupZ_insertZ_ne in Hs5 by done. exact Hs5.
  - unfold exception_delegate. do 6 regs_step. apply wp_ret, HQ.
    rewrite !lookupZ_insertZ_ne in Hs5 by done. exact Hs5.
Qed.

(** A process that takes an exception, handles it and returns from it. *)
Definition handle_exception (mcause mtval instruction : Z) (work : list Z -> list Z) p : K Z :=
  let* p := exception_handler p mcause mtval in
  do* proc_update p (fun x => set_regs (work (p_regs x)) x) in
  exception_handler p ILLEGAL_INSTRUCTION instruction.

Lemma get_reg regs r : zlen regs = REG_CNT -> 0 <= r < REG_CNT ->
  Some (default 0 (lookupZ regs r)) = lookupZ regs r.
Proof. intros Hl Hr. by destruct (lookupZ_lt regs r) as [x ->]; [lia|]. Qed.

Ltac lookups :=
  repeat first
    [ rewrite lookupZ_insertZ_ne by done
    | rewrite lookupZ_insertZ_eq by
        (rewrite ?zlen_insertZ; match goal with H : zlen _ = REG_CNT |- _ => rewrite H; done end) ];
  rewrite ?get_reg by done; try done.

(** [C24]: Exceptions are a round trip.  An exception that is not a return enters
    the handler of the process: at [tpc] with stack [tsp], the cause and value of
    the exception, and the interrupted program counter and stack pointer in [epc]
    and [esp].  When the handler has done its work and left these two alone, a
    return instruction takes the process back where it was interrupted: program
    counter and stack pointer are restored, the four exception registers are
    cleared, the other registers are as the handler left them, and nothing else
    in the kernel has changed. *)
Theorem exception_roundtrip s v p mcause mtval instruction work :
  let regs := p_regs (v_proc v p) in
  let inside := entered mcause mtval regs in
  sees s v -> valid_proc p -> is_return mcause mtval = false ->
  is_return ILLEGAL_INSTRUCTION instruction = true -> zlen (work inside) = REG_CNT ->
  lookupZ (work inside) REG_EPC = lookupZ inside REG_EPC ->
  lookupZ (work inside) REG_ESP = lookupZ inside REG_ESP ->
  (lookupZ inside REG_PC = lookupZ regs REG_TPC /\ lookupZ inside REG_SP = lookupZ regs REG_TSP /\
   lookupZ inside REG_ECAUSE = Some mcause /\ lookupZ inside REG_EVAL = Some mtval /\
   lookupZ inside REG_EPC = lookupZ regs REG_PC /\ lookupZ inside REG_ESP = lookupZ regs REG_SP) /\
  wp (handle_exception mcause mtval instruction work p) (fun q s' => q = p /\
    exists after, sees s' (v_regs p (fun _ => after) v) /\
      lookupZ after REG_PC = lookupZ regs REG_PC /\ lookupZ after REG_SP = lookupZ regs REG_SP /\
      Forall (fun r => lookupZ after r = Some 0) [REG_ECAUSE; REG_EVAL; REG_EPC; REG_ESP] /\
      forall r, r ∉ [REG_PC; REG_SP; REG_ECAUSE; REG_EVAL; REG_EPC; REG_ESP] ->
        lookupZ after r = lookupZ (work inside) r) s.
Proof.
  intros regs inside Hs Hp Hen Hret Hlen Hepc Hesp.
  destruct (sees_proc_wf _ _ Hs _ Hp) as (_ & Hl & _). fold regs in Hl.
  assert (Hin : zlen inside = REG_CNT) by (unfold inside, entered; by rewrite !zlen_insertZ).
  assert (Hpc : lookupZ inside REG_EPC = lookupZ regs REG_PC) by (unfold inside, entered; lookups).
  assert (Hsp : lookupZ inside REG_ESP = lookupZ regs REG_SP) by (unfold inside, entered; lookups).
  split; [unfold inside, entered in *; repeat split; lookups|].
  unfold handle_exception. apply wp_bind. eapply see_exception; [done|done|]. rewrite Hen.
  intros s1 Hs1. apply wp_bind. eapply see_proc_update; [exact Hs1|done| |].
  { intros (W1 & _ & W3 & W4). split; [done|]. split; [|done]. cbn. rewrite fupd_eq. exact Hlen. }
  intros s2 Hs2. eapply see_exception; [exact Hs2|done|]. rewrite Hret. intros s3 Hs3.
  split; [done|]. exists (returned (work inside)). split.
  { revert Hs3. unfold v_regs, v_update. cbn [v_proc v_set_proc]. rewrite !fupd_eq.
    rewrite !set_proc_twice. by destruct (v_proc v p). }
  unfold returned. rewrite Hepc, Hesp, Hpc, Hsp. split; [lookups|]. split; [lookups|].
  split; [repeat constructor; lookups|].
  intros r Hr. rewrite !not_elem_of_cons in Hr. destruct Hr as (R1 & R2 & R3 & R4 & R5 & R6 & _).
  by rewrite !lookupZ_insertZ_ne by done.
Qed.
End Exceptions.

(** ** Witness: a load fault of the first process *)

Section Fault.
#[local] Existing Instance qemu_virt.
Abbreviation view1 := (view_of boot1 (Some list1)).

Example exception_roundtrip_witness :
  let work := insertZ REG_A0 1 in
  let regs := p_regs (v_proc view1 0) in
  let inside := entered 5 0x1234 regs in
  (lookupZ inside REG_PC = lookupZ regs REG_TPC /\ lookupZ inside REG_SP = lookupZ regs REG_TSP /\
   lookupZ inside REG_ECAUSE = Some 5 /\ lookupZ inside REG_EVAL = Some 0x1234 /\
   lookupZ inside REG_EPC = lookupZ regs REG_PC /\ lookupZ inside REG_ESP = lookupZ regs REG_SP) /\
  wp (handle_exception 5 0x1234 MRET work 0) (fun q s' => q = 0 /\
    exists after, sees s' (v_regs 0 (fun _ => after) view1) /\
      lookupZ after REG_PC = lookupZ regs REG_PC /\ lookupZ after REG_SP = lookupZ regs REG_SP /\
      Forall (fun r => lookupZ after r = Some 0) [REG_ECAUSE; REG_EVAL; REG_EPC; REG_ESP] /\
      forall r, r ∉ [REG_PC; REG_SP; REG_ECAUSE; REG_EVAL; REG_EPC; REG_ESP] ->
        lookupZ after r = lookupZ (work inside) r) boot1.
Proof.
  apply (exception_roundtrip boot1 view1 0 5 0x1234 MRET (insertZ REG_A0 1));
    [apply boot1_sees|vm_compute; intuition congruence|reflexivity|reflexivity| | |];
    vm_compute; reflexivity.
Defined.

(** The memory the first process may access after the start is the four
    megabytes from 0x80000000, with all rights; the first 64 KiB are those the
    linker script gives to the kernel. *)
Example boot_pmp_covers_kernel :
  let x := default proc_bss (lookupZ (procs boot1) 0) in
  lookupZ (p_pmpcfg x) 0 = Some (Z.lor 24 MEM_RWX) /\
  option_map pmp_napot_decode (lookupZ (p_pmpaddr x) 0) = Some (0x80000000, 0x400000).
Proof. by vm_compute. Qed.
End Fault.
