(* ===== verification/UserKernel.v ===== *)
(** * The user library on the kernel

    The wrappers of [UserSyscall] with the kernel for their [ecall]: the call
    number and the arguments are put into the registers of the running process,
    the trap is handled, and the process finds the results in its registers.
    When the kernel runs another process first, what this one finds when it runs
    again is the parameter [resumed]. *)

From S2P Require Import Prelude Config CapTypes CapTable CapList KState Proc Sched.
From S2P Require Import Channel CapOps CapPmp CapIpc CapMonitor Syscall Trap Invariant View.
From S2P Require Import Spec Refine Steps Revoke IpcSafe IpcSpec SyscallSafe SyscallSpec.
From S2P Require Import KernelInit SchedSafe Machine Boot UserSyscall.

Section Calls.
Context `{C : Config} {Cok : ConfigOk C}.
Implicit Types (v w : view) (p q : Z).

(** ** The environment call *)

Section Ecall.
Context (fuel wait search : nat) (resumed : Z -> K (Z * list Z)) (p : Z).

Definition user_regs : K (Z * list Z) :=
  let* x := proc_load p in
  let r i := default 0 (lookupZ (p_regs x) i) in
  ret (r REG_T0, map r [REG_A0; REG_A1; REG_A2; REG_A3; REG_A4; REG_A5; REG_A6; REG_A7]).

Definition kernel_ecall (call : Z) (args : list Z) : K (Z * list Z) :=
  do* proc_update p (fun x => set_regs (regs_call call args (p_regs x)) x) in
  let* e := trap_handler fuel wait search p 8 0 in
  match e with
  | TrapReturn _ => user_regs
  | TrapResume q => resumed q
  end.
End Ecall.

(** ** The view in a call *)

Definition v_call p (call : Z) (args : list Z) v : view :=
  v_update p (fun x => set_regs (regs_call call args (p_regs x)) x) v.

Lemma regs_call_t0 call args regs :
  zlen regs = REG_CNT -> lookupZ (regs_call call args regs) REG_T0 = Some call.
Proof.
  intros Hl. unfold regs_call. apply lookupZ_insertZ_eq.
  pose proof (zlen_regs_call call args regs) as E. unfold regs_call in E.
  rewrite zlen_insertZ in E. rewrite E, Hl. done.
Qed.

Lemma regs_call_arg call args regs i x :
  zlen regs = REG_CNT -> length args = 8%nat -> lookupZ args i = Some x ->
  lookupZ (regs_call call args regs) (REG_A0 + i) = Some x.
Proof.
  intros Hl H8 Hx. assert (Hi : 0 <= i < 8).
  { apply lookupZ_Some_range in Hx. unfold zlen in Hx. lia. }
  destruct args as [|a0 [|a1 [|a2 [|a3 [|a4 [|a5 [|a6 [|a7 [|]]]]]]]]]; try done.
  unfold regs_call. rewrite lookupZ_insertZ_ne by (unfold REG_T0, REG_A0; lia).
  cbn [seq length combine foldr fst snd].
  assert (Hcase : i = 0 \/ i = 1 \/ i = 2 \/ i = 3 \/ i = 4 \/ i = 5 \/ i = 6 \/ i = 7) by lia.
  repeat destruct Hcase as [->|Hcase]; [..|subst i]; cbn in Hx; injection Hx as <-;
    repeat (rewrite lookupZ_insertZ_ne by done); apply lookupZ_insertZ_eq;
    rewrite ?zlen_insertZ, Hl; done.
Qed.

Section InCall.
Context (s : kstate) (v : view) (p : Z) (Hs : sees s v) (Hp : valid_proc p).
Context (call : Z) (args : list Z) (H8 : length args = 8%nat).

Lemma call_regs_len : zlen (p_regs (v_proc v p)) = REG_CNT.
Proof. by destruct (sees_proc_wf _ _ Hs p Hp) as (_ & ? & _). Qed.

Lemma call_t0 : reg (v_call p call args v) p REG_T0 = call.
Proof.
  unfold reg, v_call, v_update. cbn [v_proc v_set_proc]. rewrite fupd_eq. cbn [p_regs set_regs].
  by rewrite regs_call_t0 by exact call_regs_len.
Qed.

Lemma call_arg i x : lookupZ args i = Some x -> args_of (v_call p call args v) p i = x.
Proof.
  intros Hx. unfold args_of, reg, v_call, v_update. cbn [v_proc v_set_proc]. rewrite fupd_eq.
  cbn [p_regs set_regs]. by rewrite (regs_call_arg _ _ _ _ _ call_regs_len H8 Hx).
Qed.

Lemma call_running : running v p -> running (v_call p call args v) p.
Proof. apply running_same. unfold v_call, v_update. cbn. by rewrite fupd_eq. Qed.
End InCall.

(** What a process finds in its registers. *)
Definition found p v : Z * list Z := (reg v p REG_T0, map (args_of v p) [0; 1; 2; 3; 4; 5; 6; 7]).

Lemma see_user_regs s v p Q :
  sees s v -> valid_proc p -> Q (found p v) s -> wp (user_regs p) Q s.
Proof. intros Hs Hp HQ. unfold user_regs. do 2 see_step. exact HQ. Qed.

(** ** A call that returns at once *)

(** The arguments fit their widths and pass the checks of the call. *)
Definition acceptable (call : Z) (args : list Z) : Prop :=
  Forall (fun ki => fits ki.1 (default 0 (lookupZ args ki.2)) /\
                    check_ok ki.1 (default 0 (lookupZ args ki.2)) = true /\ 0 <= ki.2 < 8)
    (checks call).

(** The view in which the handler of a call runs. *)
Definition v_entered p (call : Z) (args : list Z) v : view :=
  v_advance p (v_tick (v_call p call args v)).

Lemma see_ecall fuel wait search resumed s v p call args f Q :
  sees s v -> valid_proc p -> running v p -> SMP = false -> pending v = false ->
  length args = 8%nat -> lookupZ effects call = Some (Some f) -> acceptable call args ->
  let r := f p (v_entered p call args v) in
  r.1 = Some p -> (forall s', sees s' r.2 -> Q (found p r.2) s') ->
  wp (kernel_ecall fuel wait search resumed p call args) Q s.
Proof.
  intros Hs Hp Hr Hsmp Hpend H8 Hf Hok r Hr1 HQ. unfold kernel_ecall. apply wp_bind.
  eapply see_proc_update; [done|done| |].
  { intros (? & ? & ? & ?). split_and!; [done| |done..]. cbn [p_regs set_regs]. by rewrite zlen_regs_call. }
  intros s1 Hs1. fold (v_update p (fun x => set_regs (regs_call call args (p_regs x)) x) v) in Hs1.
  fold (v_call p call args v) in Hs1. set (v1 := v_call p call args v) in *.
  pose proof (call_t0 _ _ _ Hs Hp call args) as Et.
  assert (Hcall : 0 <= call < zlen validators) by exact (lookupZ_Some_range _ _ _ Hf).
  assert (Hacc : fits_args v1 p /\ verdict p v1 = SUCCESS).
  { unfold fits_args, verdict. fold v1 in Et. rewrite !Et. destruct (Z.ltb_spec call (zlen validators)); [|lia].
    rewrite run_checks_ok, !Forall_forall. unfold acceptable in Hok. rewrite Forall_forall in Hok.
    assert (Harg : forall ki, ki ∈ checks call ->
      args_of v1 p ki.2 = default 0 (lookupZ args ki.2)).
    { intros ki Hki. destruct (Hok ki Hki) as (_ & _ & Hi).
      destruct (lookupZ_lt args ki.2) as [x Hx]; [unfold zlen; lia|].
      rewrite Hx. by apply (call_arg _ _ _ Hs Hp call args H8). }
    split; [split; [lia|]|]; intros ki Hki; rewrite (Harg ki Hki); intros; by apply Hok. }
  destruct Hacc as [Hfit Hver]. apply wp_bind. unfold trap_handler. cbn [Z.eqb Pos.eqb].
  apply wp_bind. unfold syscall_handler. pose proof (call_running _ p call args Hr) as Hr'.
  eapply (see_verdict s1 v1 p (fun call err => _)); [done|done|done|fold v1 in Et; lia|]. cbn beta.
  rewrite Hver. cbn [is_err err_code Z.eqb negb]. do 2 see_step.
  assert (Hpend1 : pending v1 = false) by exact Hpend. unfold pending in Hpend1.
  rewrite Hpend1, Hsmp. cbn [negb orb].
  fold v1 in Et. eapply (see_dispatch _ _ _ _ 0); [eassumption|apply ticked_tick|done|done|done|done| |].
  { rewrite Et. intros ->. discriminate Hf. }
  rewrite Et. intros r1 s2 Hr2%(call_effect_fun _ f) Hs2; [subst r1|done]. change (sees s2 r.2) in Hs2.
  change (f p _) with r. rewrite Hr1. cbn beta. rewrite bool_decide_true by done. apply wp_ret. eapply see_user_regs; [done|done|by apply HQ].
Qed.

(** ** The wrappers *)

Lemma call_ret {A} (m : K A) (err : A -> Z) (Q : A -> kstate -> Prop) n s :
  wp m (fun r s' => err r <> S3K_ERR_PREEMPTED /\ Q r s') s -> wp (retry (S n) err m) Q s.
Proof.
  intros Hm. cbn [retry]. apply wp_bind. eapply wp_mono; [exact Hm|]. intros r s' [He HQ].
  cbn beta. destruct (Z.eqb_spec (err r) S3K_ERR_PREEMPTED); [done|]. by apply wp_ret.
Qed.

Lemma err_u32 e : e <> CONTINUE -> u32 (err_u64 e) = err_code e.
Proof. by destruct e. Qed.

Lemma t0_found s v p e :
  sees s (v_t0 p e v) -> valid_proc p -> (found p (v_t0 p e v)).1 = err_u64 e.
Proof.
  intros Hs Hp. destruct (sees_proc_wf _ _ Hs p Hp) as (_ & Hl & _). revert Hl.
  unfold found, reg, v_t0, v_reg, v_update. cbn [fst v_proc v_set_proc]. rewrite fupd_eq.
  cbn [p_regs set_regs]. rewrite zlen_insertZ. intros Hl. rewrite lookupZ_insertZ_eq; [done|].
  by rewrite Hl.
Qed.

Lemma u16_below x n : 0 <= x < n -> n <= 2 ^ 16 -> u16 x = x.
Proof. intros. apply Z.mod_small. lia. Qed.

Section Wrappers.
Context (fuel wait search : nat) (resumed : Z -> K (Z * list Z)) (junk : list Z) (n : nat).
Context (Hjunk : length junk = 8%nat) (Hsmp : SMP = false).

Abbreviation E p := (kernel_ecall fuel wait search resumed p).
(** All argument registers. *)
Definition padded (args : list Z) : list Z := args ++ drop (length args) junk.

Lemma padded_length args : (length args <= 8)%nat -> length (padded args) = 8%nat.
Proof. intros H. unfold padded. rewrite length_app, length_drop. lia. Qed.

Lemma see_do_ecall s v p call args f Q :
  sees s v -> valid_proc p -> running v p -> pending v = false -> (length args <= 8)%nat ->
  lookupZ effects call = Some (Some f) -> acceptable call (padded args) ->
  let r := f p (v_entered p call (padded args) v) in
  r.1 = Some p ->
  (forall s', sees s' r.2 -> Q (S3kRet (u32 (found p r.2).1) (args_of r.2 p 0)) s') ->
  wp (do_ecall (E p) junk call args) Q s.
Proof.
  intros Hs Hp Hr Hpend Hlen Hf Hok r Hr1 HQ. apply wp_bind.
  eapply see_ecall; [done..|by apply padded_length|done|done|done|]. intros s' Hs'.
  apply wp_bind. eapply wp_array_get; [done|]. apply wp_ret. by apply HQ.
Qed.

(** A wrapper performs the operation [o] on the view of its call, and returns
    the error, which is in [t0] as well. *)
Definition performs p call args (o : view -> err_t * view) v (m : K Z) s : Prop :=
  let r := o (v_entered p call (padded args) v) in
  wp m (fun e s' => e = err_code r.1 /\ sees s' (v_t0 p r.1 r.2)) s.

Lemma performs_retry s v p call args g :
  sees s v -> valid_proc p -> running v p -> pending v = false -> (length args <= 8)%nat ->
  lookupZ effects call = Some (Some (returning g)) -> acceptable call (padded args) ->
  let e := (g p (v_entered p call (padded args) v)).1 in
  e <> CONTINUE -> e <> ERR_PREEMPTED ->
  performs p call args (g p) v (retry (S n) id (get_err (E p) junk call args)) s.
Proof.
  intros Hs Hp Hr Hpend Hlen Hf Hok e He1 He2. apply call_ret, wp_bind.
  eapply see_do_ecall; [done..|]. cbn [returning fst snd]. intros s' Hs'. apply wp_ret.
  rewrite (t0_found _ _ _ _ Hs' Hp). cbn [r_err id]. fold e in Hs' |- *.
  rewrite err_u32 by done. split; [|done]. by destruct e.
Qed.

(** ** Capability calls *)

Lemma idx_u16 i : idx_ok i -> u16 i = i /\ 0 <= i < 2 ^ 16 /\ valid_idx i = true.
Proof.
  unfold idx_ok. intros Hi. config_bounds. unfold valid_idx.
  rewrite (u16_below i S3K_CAP_CNT) by lia. split; [done|]. split; [lia|]. apply Z.ltb_lt. lia.
Qed.

(** The arguments of a call are accepted. *)
Ltac accept :=
  unfold acceptable, padded; cbn [length app];
  repeat match goal with
  | H : idx_ok _ |- _ => apply idx_u16 in H as (? & ? & ?)
  end;
  repeat first [apply Forall_nil_2 | apply Forall_cons_2]; cbn;
  change (Z.to_nat 0) with 0%nat; change (Z.to_nat 1) with 1%nat; change (Z.to_nat 2) with 2%nat;
  cbn; split_and!; done || lia.

Lemma move_err src dst v : (a_move src dst v).1 <> CONTINUE /\ (a_move src dst v).1 <> ERR_PREEMPTED.
Proof. unfold a_move. by repeat case_match. Qed.
Lemma delete_err c v : (a_delete c v).1 <> CONTINUE /\ (a_delete c v).1 <> ERR_PREEMPTED.
Proof. unfold a_delete. by repeat case_match. Qed.
Lemma derive_err src dst k v :
  (a_derive src dst k v).1 <> CONTINUE /\ (a_derive src dst k v).1 <> ERR_PREEMPTED.
Proof. unfold a_derive. by repeat case_match. Qed.
Lemma load_err c slot v :
  (a_pmp_load c slot v).1 <> CONTINUE /\ (a_pmp_load c slot v).1 <> ERR_PREEMPTED.
Proof. unfold a_pmp_load. by repeat case_match. Qed.
Lemma unload_err c v : (a_pmp_unload c v).1 <> CONTINUE /\ (a_pmp_unload c v).1 <> ERR_PREEMPTED.
Proof. unfold a_pmp_unload. by repeat case_match. Qed.

Lemma entered_arg s v p call args i x :
  sees s v -> valid_proc p -> (length args <= 8)%nat -> lookupZ args i = Some x ->
  args_of (v_entered p call (padded args) v) p i = x.
Proof.
  intros Hs Hp Hlen Hx. pose proof (lookupZ_Some_range _ _ _ Hx) as Hi.
  unfold v_entered. rewrite advance_args by lia.
  change (args_of (v_tick _) p i) with (args_of (v_call p call (padded args) v) p i).
  eapply call_arg; [done|done|by apply padded_length|].
  unfold padded. unfold lookupZ in *. destruct (0 <=? i); [|done]. by apply lookup_app_l_Some.
Qed.

Lemma a0_found s v p e x :
  sees s (v_t0 p e (v_a0 p x v)) -> valid_proc p ->
  args_of (v_t0 p e (v_a0 p x v)) p 0 = x.
Proof.
  intros Hs Hp. destruct (sees_proc_wf _ _ Hs p Hp) as (_ & Hl & _). revert Hl.
  unfold args_of, reg, v_t0, v_a0, v_reg, v_update. cbn [v_proc v_set_proc]. rewrite !fupd_eq.
  cbn [p_regs set_regs]. rewrite !zlen_insertZ. intros Hl.
  rewrite lookupZ_insertZ_ne, lookupZ_insertZ_eq; [done|by rewrite Hl|done].
Qed.

(** The calls of the process [p] for its entries [i] and [j]. *)
Section Entries.
Context (s : kstate) (v : view) (p i j : Z).
Context (Hs : sees s v) (Hp : valid_proc p) (Hr : running v p) (Hpend : pending v = false).
Context (Hi : idx_ok i) (Hj : idx_ok j).

Lemma own_entered call args a x :
  (length args <= 8)%nat -> lookupZ args a = Some x ->
  own (v_entered p call (padded args) v) p a = entry p x.
Proof. intros Hlen Hx. unfold own. by rewrite (entered_arg s v p call args a x). Qed.

Lemma performs_own call args g o :
  (length args <= 8)%nat -> lookupZ effects call = Some (Some (returning g)) ->
  acceptable call (padded args) ->
  (let w := v_entered p call (padded args) v in g p w = o w /\
     (o w).1 <> CONTINUE /\ (o w).1 <> ERR_PREEMPTED) ->
  performs p call args o v (retry (S n) id (get_err (E p) junk call args)) s.
Proof.
  intros Hlen Hf Hok (Eg & He1 & He2).
  pose proof (performs_retry s v p call args g) as H. cbn zeta in H. unfold performs in *.
  rewrite Eg in H. by apply H.
Qed.

Ltac own_call err :=
  destruct (idx_u16 i Hi) as (Ei & _), (idx_u16 j Hj) as (Ej & _);
  unfold s3k_cap_move, s3k_cap_delete, s3k_cap_derive, s3k_pmp_load, s3k_pmp_unload,
    s3k_try_cap_move, s3k_try_cap_delete, s3k_try_cap_derive, s3k_try_pmp_load,
    s3k_try_pmp_unload;
  rewrite ?Ei, ?Ej;
  eapply performs_own; [cbn; lia|reflexivity|accept|]; cbn beta zeta;
  rewrite !(own_entered _ _ 0 i) by (done || cbn; lia);
  rewrite ?(own_entered _ _ 1 j) by (done || cbn; lia);
  split; [|apply err].

Lemma move_call :
  performs p SYS_CAP_MOVE [i; j] (a_move (entry p i) (entry p j)) v
    (s3k_cap_move (E p) junk (S n) i j) s.
Proof. by own_call move_err. Qed.

Lemma delete_call :
  performs p SYS_CAP_DELETE [i] (a_delete (entry p i)) v
    (s3k_cap_delete (E p) junk (S n) i) s.
Proof. by own_call delete_err. Qed.

Lemma derive_call k : 0 <= k < 2 ^ 64 -> cap_is_valid k = true ->
  performs p SYS_CAP_DERIVE [i; j; k] (a_derive (entry p i) (entry p j) k) v
    (s3k_cap_derive (E p) junk (S n) i j k) s.
Proof.
  intros Hk Hv. own_call derive_err.
  by rewrite (entered_arg s v p _ [i; j; k] 2 k) by (done || cbn; lia).
Qed.

Lemma load_call slot : 0 <= slot < S3K_PMP_CNT ->
  performs p SYS_PMP_LOAD [i; slot] (a_pmp_load (entry p i) slot) v
    (s3k_pmp_load (E p) junk (S n) i slot) s.
Proof.
  intros Hslot. config_bounds. assert (Eslot : u8 slot = slot) by (apply Z.mod_small; lia).
  assert (Hvalid : valid_slot slot = true) by (unfold valid_slot; rewrite Eslot; apply Z.ltb_lt; lia).
  unfold s3k_pmp_load, s3k_try_pmp_load. rewrite Eslot. own_call load_err.
  by rewrite (entered_arg s v p _ [i; slot] 1 slot), Eslot by (done || cbn; lia).
Qed.

Lemma unload_call :
  performs p SYS_PMP_UNLOAD [i] (a_pmp_unload (entry p i)) v
    (s3k_pmp_unload (E p) junk (S n) i) s.
Proof. by own_call unload_err. Qed.

Lemma read_call :
  wp (s3k_cap_read (E p) junk i) (fun r s' =>
    let k := v_cap v (entry p i) in
    r = (err_code (read_err k), k) /\
    sees s' (v_t0 p (read_err k) (v_a0 p k (v_entered p SYS_CAP_READ (padded [i]) v)))) s.
Proof.
  destruct (idx_u16 i Hi) as (Ei & _). unfold s3k_cap_read. rewrite Ei. apply wp_bind.
  eapply (see_do_ecall s v p _ [i]); [done..|cbn; lia|reflexivity|accept|done|].
  unfold a_cap_read. rewrite (own_entered _ _ 0 i) by (done || cbn; lia). cbn [fst snd].
  change (v_cap (v_entered _ _ _ v)) with (v_cap v). intros s' Hs'. apply wp_ret.
  rewrite (t0_found _ _ _ _ Hs' Hp), (a0_found _ _ _ _ _ Hs' Hp). cbn [r_err r_val].
  split; [|done]. f_equal. unfold read_err. by case_match.
Qed.

Lemma pid_call :
  wp (s3k_get_pid (E p) junk) (fun r s' => r = p /\
    sees s' (v_t0 p SUCCESS (v_a0 p p (v_entered p SYS_GET_INFO (padded [0]) v)))) s.
Proof.
  apply wp_bind. eapply (see_do_ecall s v p _ [0]); [done..|cbn; lia|reflexivity|accept|done|].
  unfold a_get_info. rewrite (entered_arg s v p _ [0] 0 0) by (done || cbn; lia). cbn [fst snd Z.eqb].
  intros s' Hs'. apply wp_ret. by rewrite (a0_found _ _ _ _ _ Hs' Hp).
Qed.

(** [C8]: Wrappers of the user library do what the kernel does: on one hart, with
    no interrupt pending, called by a running process for its entries [i] and [j]
    (both indices of its table), a valid capability word and a PMP slot, they
    return without waiting; [s3k_cap_move], [s3k_cap_delete], [s3k_cap_derive],
    [s3k_pmp_load] and [s3k_pmp_unload] return the error of the operation on these
    entries and leave its state, [s3k_cap_read] returns the capability of the
    entry, and [s3k_get_pid] the number of the process. *)
Theorem wrappers_perform k slot :
  0 <= k < 2 ^ 64 -> cap_is_valid k = true -> 0 <= slot < S3K_PMP_CNT ->
  let e := entry p in
  performs p SYS_CAP_MOVE [i; j] (a_move (e i) (e j)) v (s3k_cap_move (E p) junk (S n) i j) s /\
  performs p SYS_CAP_DELETE [i] (a_delete (e i)) v (s3k_cap_delete (E p) junk (S n) i) s /\
  performs p SYS_CAP_DERIVE [i; j; k] (a_derive (e i) (e j) k) v
    (s3k_cap_derive (E p) junk (S n) i j k) s /\
  performs p SYS_PMP_LOAD [i; slot] (a_pmp_load (e i) slot) v
    (s3k_pmp_load (E p) junk (S n) i slot) s /\
  performs p SYS_PMP_UNLOAD [i] (a_pmp_unload (e i)) v (s3k_pmp_unload (E p) junk (S n) i) s /\
  wp (s3k_cap_read (E p) junk i) (fun r s' =>
    let k := v_cap v (e i) in r = (err_code (read_err k), k) /\
    sees s' (v_t0 p (read_err k) (v_a0 p k (v_entered p SYS_CAP_READ (padded [i]) v)))) s /\
  wp (s3k_get_pid (E p) junk) (fun r s' => r = p /\
    sees s' (v_t0 p SUCCESS (v_a0 p p (v_entered p SYS_GET_INFO (padded [0]) v)))) s.
Proof.
  intros Hk Hv Hslot e. split_and!.
  - exact move_call.
  - exact delete_call.
  - by apply derive_call.
  - by apply load_call.
  - exact unload_call.
  - exact read_call.
  - exact pid_call.
Qed.
End Entries.

(** ** Two calls *)

Lemma a_derive_caps src dst k v w : v_cap w = v_cap v ->
  (a_derive src dst k w).1 = (a_derive src dst k v).1 /\
  v_cap (a_derive src dst k w).2 = v_cap (a_derive src dst k v).2.
Proof.
  intros Ec. unfold a_derive. rewrite Ec. destruct (empty _); [done|]. destruct (negb _); [done|].
  destruct (derive_mark _ _); [|done]. split; [done|]. unfold v_derive.
  destruct (_ =? CAPTY_TIME); cbn; by rewrite Ec.
Qed.

Lemma a_derive_result src dst k v : cap_is_valid k = true ->
  (a_derive src dst k v).1 = SUCCESS /\ v_cap (a_derive src dst k v).2 dst = k /\
    read_err k = SUCCESS \/
  (a_derive src dst k v).1 <> SUCCESS /\ v_cap (a_derive src dst k v).2 = v_cap v.
Proof.
  intros Hk. unfold a_derive. destruct (empty _); [by right|]. destruct (negb _); [by right|].
  destruct (derive_mark _ _); [left|by right]. split_and!; [done| |].
  - unfold v_derive. cbn. by rewrite fupd_eq.
  - unfold read_err. destruct (Z.eqb_spec k 0) as [->|]; [by vm_compute in Hk|done].
Qed.

(** The timer interrupt is not pending at the next [m] accesses. *)
Definition no_timer (v : view) (m : nat) : Prop :=
  forall a, (tick (v_hw v) <= a < tick (v_hw v) + m)%nat -> Z.land (mip (v_hw v) a) 128 = 0.

(** Deriving and reading back: a process that derives the capability [k]
    from its entry [i] to [j] and then reads [j] with the user library finds [k]
    there when the derivation returned success, and otherwise what the entry held
    before. *)
Theorem derive_then_read s v p i j k :
  sees s v -> valid_proc p -> running v p -> no_timer v 2 -> idx_ok i -> idx_ok j ->
  0 <= k < 2 ^ 64 -> cap_is_valid k = true ->
  wp (let* e := s3k_cap_derive (E p) junk (S n) i j k in
      let* r := s3k_cap_read (E p) junk j in ret (e, r.1, r.2))
    (fun x _ => let '(e, e', found) := x in
      e = err_code (a_derive (entry p i) (entry p j) k v).1 /\
      (e = 0 -> e' = 0 /\ found = k) /\
      (e <> 0 -> found = v_cap v (entry p j))) s.
Proof.
  intros Hs Hp Hr Hq Hi Hj Hk Hv.
  assert (Hpend : forall a, (tick (v_hw v) <= a < tick (v_hw v) + 2)%nat ->
    negb (Z.land (mip (v_hw v) a) 128 =? 0) = false).
  { intros a Ha. by rewrite Hq. }
  apply wp_bind. eapply wp_mono.
  { apply (derive_call s v p i j Hs Hp Hr); [apply Hpend; lia|done..]. }
  intros e s1 [-> Hs1].
  set (w := v_entered p SYS_CAP_DERIVE (padded [i; j; k]) v) in *.
  destruct (a_derive_caps (entry p i) (entry p j) k v w) as [Ee Ec]; [done|].
  destruct (exec_runs (OpDerive (entry p i) (entry p j) k) w) as [Eh Hsame].
  cbn [exec] in Eh, Hsame. set (r := a_derive (entry p i) (entry p j) k w) in *.
  apply wp_bind. eapply wp_mono.
  { apply (read_call s1 (v_t0 p r.1 r.2) p j j Hs1 Hp); [| |done..].
    - eapply running_same; [|exact Hr]. unfold v_t0, v_reg, v_update. cbn. rewrite fupd_eq. cbn.
      destruct (Hsame p) as [-> _]. cbn. by rewrite !fupd_eq.
    - unfold pending. cbn [v_hw v_t0 v_reg v_update v_set_proc]. rewrite Eh. cbn. apply Hpend. lia. }
  intros x s2 [-> _]. apply wp_ret. cbn [fst snd v_cap v_t0 v_reg v_update v_set_proc].
  rewrite Ec, Ee. split; [done|].
  destruct (a_derive_result (entry p i) (entry p j) k v Hv) as [(E1 & -> & ->)|[E1 ->]].
  - rewrite E1. done.
  - split; [|done]. intros E0. destruct E1. by destruct (a_derive _ _ _ _).1.
Qed.
End Wrappers.
End Calls.

(** ** Witnesses: calls of the first process, with fifty quiet accesses ahead *)

Section Quiet.
#[local] Existing Instance qemu_virt.
Definition quiet1 : kstate := timed started1.
Abbreviation qview := (view_of quiet1 (Some list1)).
Abbreviation ecall1 := (kernel_ecall 100 100 100 (fun _ => ret (0, [])) 0).
Definition junk1 : list Z := replicate 8 7.

Lemma quiet1_current : current quiet1 qview 0.
Proof. apply current_checked; vm_compute; reflexivity. Qed.

Example wrappers_perform_witness :
  performs junk1 0 SYS_CAP_DERIVE [4; 10; half_time] (a_derive (entry 0 4) (entry 0 10) half_time)
    qview (s3k_cap_derive ecall1 junk1 1 4 10 half_time) quiet1.
Proof.
  destruct quiet1_current as [H1 H2 H3].
  refine (proj1 (proj2 (proj2 (wrappers_perform 100 100 100 (fun _ => ret (0, [])) junk1 0
    eq_refl (eq_refl false) quiet1 qview 0 4 10 H1 H2 H3 _ _ _ half_time 1 _ _ _))));
    vm_compute; intuition congruence.
Defined.

Example derive_then_read_witness :
  wp (let* e := s3k_cap_derive ecall1 junk1 1 4 10 half_time in
      let* r := s3k_cap_read ecall1 junk1 10 in ret (e, r.1, r.2))
    (fun x _ => let '(e, e', found) := x in
      e = err_code (a_derive (entry 0 4) (entry 0 10) half_time qview).1 /\
      (e = 0 -> e' = 0 /\ found = half_time) /\
      (e <> 0 -> found = v_cap qview (entry 0 10))) quiet1.
Proof.
  destruct quiet1_current as [H1 H2 H3].
  apply (derive_then_read (C := qemu_virt) 100 100 100 (fun _ => ret (0, [])) junk1 0 eq_refl (eq_refl false)
           quiet1 qview 0 4 10 half_time); try done; try (vm_compute; intuition congruence).
  intros a Ha. change (0 <= a < 2)%nat in Ha.
  change (Z.land (if (50 <=? a)%nat then 128 else 0) 128 = 0).
  destruct (Nat.leb_spec 50 a); [lia|done].
Defined.
End Quiet.
