(* ===== verification/Tutorial.v ===== *)
(** * The helpers of the tutorials

    [projects/tutorial-commons/utils.h]: setting up the serial port, another
    application, the schedule and sockets with the system calls of the user
    library, and the loops of clients and servers.  The environment call and the
    serial port are parameters, and so is what [alt_printf] finds in its local
    buffer.  Loops that wait for another process take fuel; a loop that never ends
    is modelled by its first rounds. *)

From Stdlib Require Import String.
From S2P Require Import Prelude Config CapTypes KState Syscall UserCaps UserSyscall Printf Console.

#[local] Open Scope Z_scope.
#[local] Open Scope list_scope.

(** ** Constants *)

Definition APP0_PID : Z := 0.
Definition APP1_PID : Z := 1.
Definition RAM_MEM : Z := 1.
Definition UART_MEM : Z := 2.
Definition HART0_TIME : Z := 4.
Definition HART1_TIME : Z := 5.
Definition HART2_TIME : Z := 6.
Definition HART3_TIME : Z := 7.
Definition MONITOR : Z := 8.
Definition CHANNEL : Z := 9.
Definition UART_CAP : Z := 10.
Definition UART_PMP : Z := 1.
Definition BUFFER_PMP : Z := 2.
Definition APP_1_CAP_PMP_MEM : Z := 0.
Definition APP_1_CAP_PMP_UART : Z := 10.
Definition APP_1_TIME : Z := 1.
Definition APP_1_CAP_SOCKET : Z := 3.
Definition APP_1_PMP_SLOT_MEM : Z := 0.
Definition APP_1_PMP_SLOT_UART : Z := 1.
Definition APP_1_PMP_SLOT_BUFFER : Z := 2.
Definition FREE_CAP_BEGIN : Z := 12.
Definition FREE_CAP_END : Z := 20.
Definition APP_1_BASE_ADDR : Z := 0x80020000.
Definition APP_1_SIZE : Z := 0x10000.
Definition SHARED_BUFFER_BASE : Z := APP_1_BASE_ADDR + APP_1_SIZE.
Definition SHARED_BUFFER_SIZE : Z := 0x10000.
Definition NO_APP_1 : Z := 0.
Definition NO_APP_0 : Z := 1.
Definition ROUND_ROBIN : Z := 2.
Definition PARALLEL : Z := 3.

(** [UART0_BASE_ADDR] of both QEMU platforms. *)
Definition UART0_BASE_ADDR : Z := 0x10000000.
Definition S3K_ERR_TIMEOUT : Z := 17.

(** [TAG_BLOCK_TO_ADDR(tag, block)] *)
Definition TAG_BLOCK_TO_ADDR (tag block : Z) : Z :=
  u64 (u64 (Z.shiftl tag MAX_BLOCK_SIZE) + u64 (Z.shiftl block MIN_BLOCK_SIZE)).

(** ** Strings *)

(** A string literal whose backslashes stand for newlines. *)
Definition lit (s : string) : list Z := map (fun c => if c =? 92 then CH_LF else c) (literal s).

Definition ERROR_INFO : list Z :=
  lit "error info:\- epc: 0x%x\- esp: 0x%x\- ecause: 0x%x\- eval: 0x%x\".
Definition RESTORING : list Z := lit "restoring pc and sp\\".

(** ** Messages as bytes *)

Definition word_bytes (w : Z) : list Z :=
  map (fun i => Z.shiftr w (8 * i) mod 256) [0; 1; 2; 3; 4; 5; 6; 7].
Definition bytes_word (b : list Z) : Z := foldr (fun x w => x + 256 * w) 0 b.

(** [(char * )data] for an array of [uint64_t], and back. *)
Definition data_bytes (data : list Z) : list Z := data ≫= word_bytes.
Fixpoint bytes_data (n : nat) (b : list Z) : list Z :=
  match n with
  | O => []
  | S n => bytes_word (take 8 b) :: bytes_data n (drop 8 b)
  end.

(** [memcpy(msg.data, text, size)] *)
Definition msg_copy (text : list Z) (msg : s3k_msg) : s3k_msg :=
  S3kMsg (msg_cap_idx msg) (msg_send_cap msg)
    (bytes_data (length (msg_data msg)) (text ++ drop (length text) (data_bytes (msg_data msg)))).

(** [alt_snprintf((char * )msg.data, size, fmt, ...)] *)
Definition msg_printf {W} (size : Z) (fmt : list Z) (ap : list va) (msg : s3k_msg) : M W s3k_msg :=
  match alt_snprintf size fmt ap (data_bytes (msg_data msg)) with
  | Done _ b => ret (S3kMsg (msg_cap_idx msg) (msg_send_cap msg) (bytes_data (length (msg_data msg)) b))
  | Fault f => fail f
  end.

(** The memory of the process: loads and stores of [size] bytes. *)
Class Memory (W : Type) := {
  mem_load : Z -> Z -> M W Z;
  mem_store : Z -> Z -> Z -> M W unit
}.

Section Helpers.
Context `{C : Config} {W : Type} `{Serial W}.
Context (ecall : Z -> list Z -> M W (Z * list Z)) (junk : list Z) (fuel : nat) (stack : list Z).

Abbreviation cap_derive := (s3k_cap_derive ecall junk fuel).
Abbreviation cap_delete := (s3k_cap_delete ecall junk fuel).
Abbreviation cap_read := (s3k_cap_read ecall junk).
Abbreviation pmp_load := (s3k_pmp_load ecall junk fuel).
Abbreviation mon_cap_move := (s3k_mon_cap_move ecall junk fuel).
Abbreviation mon_pmp_load := (s3k_mon_pmp_load ecall junk fuel).
Abbreviation mon_reg_write := (s3k_mon_reg_write ecall junk fuel).
Abbreviation printf := (alt_printf stack).

(** ** The serial port *)

Definition setup_uart : M W unit :=
  let uart_addr := s3k_napot_encode UART0_BASE_ADDR 0x8 in
  do* cap_derive UART_MEM UART_CAP (s3k_mk_pmp uart_addr MEM_RW) in
  do* pmp_load UART_CAP UART_PMP in
  s3k_sync_mem ecall junk.

Definition setup_uart_and_virtio : M W unit :=
  let uart_addr := s3k_napot_encode UART0_BASE_ADDR 0x2000 in
  do* cap_derive UART_MEM UART_CAP (s3k_mk_pmp uart_addr MEM_RW) in
  do* pmp_load UART_CAP UART_PMP in
  s3k_sync_mem ecall junk.

(** ** Exceptions *)

(** The values are [uint64_t] and the conversions [%x]: what is printed is the
    low half of each. *)
Definition default_trap_handler : M W unit :=
  let* epc := s3k_reg_read ecall junk REG_EPC in
  let* esp := s3k_reg_read ecall junk REG_ESP in
  let* ecause := s3k_reg_read ecall junk REG_ECAUSE in
  let* eval := s3k_reg_read ecall junk REG_EVAL in
  do* printf ERROR_INFO [VInt epc; VInt esp; VInt ecause; VInt eval] in
  do* printf RESTORING [] in
  ret tt.

Definition setup_trap (trap_handler trap_stack_base trap_stack_size : Z) : M W unit :=
  do* s3k_reg_write ecall junk REG_TPC trap_handler in
  do* s3k_reg_write ecall junk REG_TSP (u64 (trap_stack_base + trap_stack_size)) in
  ret tt.

(** ** Printing capabilities *)

(** [alt_printf("%s %X\n", msg, res)].  The 32-bit result is passed where
    [%X] takes 64 bits: it arrives sign-extended. *)
Definition log_sys (msg : list Z) (res : Z) : M W unit :=
  do* printf (lit "%s %X\") [VString msg; VLong (s32 res)] in ret tt.

(** The format and the arguments for each type.  Members of 8 and 16 bits are
    passed as [int] where [%X] takes 64 bits; [%Z] is no conversion. *)
Definition print_format (cap : cap_t) : list Z * list va :=
  if cap⟦cap_type⟧ =? CAPTY_NONE then (lit "No Capability\", [])
  else if cap⟦cap_type⟧ =? CAPTY_TIME then
    (lit "Time hart:%X bgn:%X mrk:%X end:%Z\",
     [VLong cap⟦time_hart⟧; VLong cap⟦time_bgn⟧; VLong cap⟦time_mrk⟧; VLong cap⟦time_end⟧])
  else if cap⟦cap_type⟧ =? CAPTY_MEMORY then
    (lit "Memory rwx:%X lock:%X bgn:%X mrk:%X end:%X\",
     [VLong cap⟦mem_rwx⟧; VLong cap⟦mem_lck⟧; VLong (TAG_BLOCK_TO_ADDR cap⟦mem_tag⟧ cap⟦mem_bgn⟧);
      VLong (TAG_BLOCK_TO_ADDR cap⟦mem_tag⟧ cap⟦mem_mrk⟧);
      VLong (TAG_BLOCK_TO_ADDR cap⟦mem_tag⟧ cap⟦mem_end⟧)])
  else if cap⟦cap_type⟧ =? CAPTY_PMP then
    (lit "PMP rwx:%X used:%X index:%X address:%Z\",
     [VLong cap⟦pmp_rwx⟧; VLong cap⟦pmp_used⟧; VLong cap⟦pmp_slot⟧; VLong cap⟦pmp_addr⟧])
  else if cap⟦cap_type⟧ =? CAPTY_MONITOR then
    (lit "Monitor  bgn:%X mrk:%X end:%X\", [VLong cap⟦mon_bgn⟧; VLong cap⟦mon_mrk⟧; VLong cap⟦mon_end⟧])
  else if cap⟦cap_type⟧ =? CAPTY_CHANNEL then
    (lit "Channel  bgn:%X mrk:%X end:%X\",
     [VLong cap⟦chan_bgn⟧; VLong cap⟦chan_mrk⟧; VLong cap⟦chan_end⟧])
  else (lit "Socket  mode:%X perm:%X channel:%X tag:%X\",
     [VLong cap⟦sock_mode⟧; VLong cap⟦sock_perm⟧; VLong cap⟦sock_chan⟧; VLong (s32 cap⟦sock_tag⟧)]).

(** A null pointer is reported, and used all the same. *)
Definition s3k_print_cap (cap : option cap_t) : M W unit :=
  do* (if cap is None then do* printf (lit "Capability is NULL\") [] in ret tt else ret tt) in
  let* c := deref cap in
  if CAPTY_SOCKET <? c⟦cap_type⟧ then ret tt else
  do* printf (print_format c).1 (print_format c).2 in ret tt.

(** [while (s3k_cap_read(cap_idx, &cap));] *)
Fixpoint read_until (n : nat) (idx : Z) : M W cap_t :=
  match n with
  | O => fail OutOfFuel
  | S n => let* r := cap_read idx in if r.1 =? 0 then ret r.2 else read_until n idx
  end.
Definition debug_capability_from_idx (cap_idx : Z) : M W unit :=
  let* cap := read_until fuel cap_idx in s3k_print_cap (Some cap).

(** ** Free entries *)

Fixpoint free_cap_loop (n : nat) (i : Z) : M W Z :=
  match n with
  | O => ret 0
  | S n => let* r := cap_read i in if negb (r.1 =? 0) then ret i else free_cap_loop n (i + 1)
  end.
Definition find_free_cap : M W Z :=
  free_cap_loop (Z.to_nat (FREE_CAP_END + 1 - FREE_CAP_BEGIN)) FREE_CAP_BEGIN.

(** ** Another application *)

(** [log_sys(msg, call)] *)
Definition logged (msg : string) (call : M W Z) : M W unit :=
  let* res := call in log_sys (literal msg) res.

Definition setup_app_1 : M W unit :=
  let uart_addr := s3k_napot_encode UART0_BASE_ADDR 0x8 in
  let app1_addr := s3k_napot_encode APP_1_BASE_ADDR APP_1_SIZE in
  let* free_cap_mem_idx := find_free_cap in
  do* logged "1" (cap_derive RAM_MEM free_cap_mem_idx
        (s3k_mk_memory APP_1_BASE_ADDR (APP_1_BASE_ADDR + APP_1_SIZE) MEM_RWX)) in
  let* free_cap_idx := find_free_cap in
  do* logged "1" (cap_derive free_cap_mem_idx free_cap_idx (s3k_mk_pmp app1_addr MEM_RWX)) in
  do* logged "2" (mon_cap_move MONITOR APP0_PID free_cap_idx APP1_PID APP_1_CAP_PMP_MEM) in
  do* logged "3" (mon_pmp_load MONITOR APP1_PID APP_1_CAP_PMP_MEM APP_1_PMP_SLOT_MEM) in
  do* logged "4" (cap_derive UART_MEM free_cap_idx (s3k_mk_pmp uart_addr MEM_RW)) in
  do* logged "5" (mon_cap_move MONITOR APP0_PID free_cap_idx APP1_PID APP_1_CAP_PMP_UART) in
  do* logged "6" (mon_pmp_load MONITOR APP1_PID APP_1_CAP_PMP_UART APP_1_PMP_SLOT_UART) in
  do* logged "7" (mon_reg_write MONITOR APP1_PID REG_PC APP_1_BASE_ADDR) in
  s3k_sync_mem ecall junk.

(** ** The schedule *)

Definition setup_scheduling (scheduling_type : Z) : M W unit :=
  do* cap_delete HART2_TIME in
  do* cap_delete HART3_TIME in
  do* (if scheduling_type =? NO_APP_1 then
         do* cap_delete HART1_TIME in ret tt
       else if scheduling_type =? NO_APP_0 then
         do* cap_delete HART1_TIME in
         let* cap_idx := find_free_cap in
         do* cap_derive HART0_TIME cap_idx (s3k_mk_time S3K_MIN_HART 0 (S3K_SLOT_CNT / 2)) in
         do* mon_cap_move MONITOR APP0_PID HART0_TIME APP1_PID APP_1_TIME in
         ret tt
       else if scheduling_type =? ROUND_ROBIN then
         do* cap_delete HART1_TIME in
         let* cap_idx := find_free_cap in
         do* logged "Time derivation"
               (cap_derive HART0_TIME cap_idx (s3k_mk_time S3K_MIN_HART 0 (S3K_SLOT_CNT / 2))) in
         logged "Time delegation" (mon_cap_move MONITOR APP0_PID cap_idx APP1_PID APP_1_TIME)
       else if scheduling_type =? PARALLEL then
         do* mon_cap_move MONITOR APP0_PID HART1_TIME APP1_PID APP_1_TIME in ret tt
       else ret tt) in
  s3k_sync ecall junk.

(** ** Sockets *)

Definition setup_socket (server yield capability : bool) : M W Z :=
  let* socket_server := find_free_cap in
  let yield_mode := if yield then IPC_YIELD else IPC_NOYIELD in
  let permission := Z.lor IPC_SDATA IPC_CDATA in
  let permission := if capability then Z.lor permission (Z.lor IPC_CCAP IPC_SCAP) else permission in
  do* cap_derive CHANNEL socket_server (s3k_mk_socket 0 yield_mode permission 0) in
  let* socket_client := find_free_cap in
  do* cap_derive socket_server socket_client (s3k_mk_socket 0 yield_mode permission 1) in
  if server then
    do* mon_cap_move MONITOR APP0_PID socket_client APP1_PID APP_1_CAP_SOCKET in
    ret (u32 socket_server)
  else
    do* mon_cap_move MONITOR APP0_PID socket_server APP1_PID APP_1_CAP_SOCKET in
    ret (u32 socket_client).

Definition set_msg_cap (idx : Z) (msg : s3k_msg) : s3k_msg := S3kMsg (u16 idx) true (msg_data msg).

(** The inner loop: until a request has arrived. *)
Fixpoint receive_loop (n : nat) (capability : bool) (msg : s3k_msg) : M W (s3k_reply * s3k_msg) :=
  match n with
  | O => fail OutOfFuel
  | S n =>
      let* msg := (if capability then let* i := find_free_cap in ret (set_msg_cap i msg) else ret msg) in
      do* alt_puts (lit "APP1: ready to receive\") in
      let* reply := s3k_sock_sendrecv ecall junk fuel APP_1_CAP_SOCKET msg in
      do* (if rep_err reply =? S3K_ERR_TIMEOUT then do* alt_puts (lit "APP1: timeout\") in ret tt
           else ret tt) in
      if rep_err reply =? 0 then ret (reply, msg) else receive_loop n capability msg
  end.

(** The first [rounds] requests: each is received, with the answer to the one
    before, and handled. *)
Fixpoint server_main_loop (rounds : nat) (handler : s3k_reply -> Z -> M W s3k_msg) (capability : bool)
    (msg : s3k_msg) : M W s3k_msg :=
  match rounds with
  | O => ret msg
  | S rounds =>
      let* r := receive_loop fuel capability msg in
      let* msg := handler r.1 (msg_cap_idx r.2) in
      server_main_loop rounds handler capability msg
  end.

Fixpoint wait_for_app1_blocked (n : nat) : M W unit :=
  match n with
  | O => fail OutOfFuel
  | S n =>
      do* alt_puts (lit "APP0: waiting loop\") in
      let* r := s3k_mon_state_get ecall junk fuel MONITOR APP1_PID in
      if negb (r.1 =? 0) then wait_for_app1_blocked n else
      if negb (Z.land r.2 PSF_BLOCKED =? 0) then ret tt else
      do* alt_puts (lit "APP0: waiting 1\") in
      do* s3k_mon_yield ecall junk fuel MONITOR APP1_PID in
      do* alt_puts (lit "APP0: waiting 2\") in
      wait_for_app1_blocked n
  end.

(** [while (reply.err == S3K_ERR_TIMEOUT) { ...; reply = s3k_sock_recv(...); }] *)
Fixpoint timeout_loop (n : nat) (message : list Z) (socket cap_idx : Z) (reply : s3k_reply)
    : M W s3k_reply :=
  if negb (rep_err reply =? S3K_ERR_TIMEOUT) then ret reply else
  match n with
  | O => fail OutOfFuel
  | S n =>
      do* alt_puts message in
      let* reply := s3k_sock_recv ecall junk fuel socket cap_idx in
      timeout_loop n message socket cap_idx reply
  end.

Fixpoint send_receive_forever (n : nat) (socket : Z) (msg : s3k_msg) : M W s3k_reply :=
  match n with
  | O => fail OutOfFuel
  | S n =>
      let* reply := s3k_sock_sendrecv ecall junk fuel socket msg in
      let* reply := timeout_loop fuel (literal "APP0: timeout") socket (msg_cap_idx msg) reply in
      if rep_err reply =? 0 then ret reply else send_receive_forever n socket msg
  end.
End Helpers.
