(* ===== verification/Apps.v ===== *)
(** * The applications [hello], [ping-pong] and [trapped]

    [projects/hello], [projects/ping-pong] and [projects/trapped]: their own set-up
    routines and their main functions.  What a local variable holds before it is
    written is a parameter. *)

From Stdlib Require Import String.
From S2P Require Import Prelude Config CapTypes KState Syscall UserCaps UserSyscall Printf Console Tutorial.

#[local] Open Scope Z_scope.
#[local] Open Scope list_scope.

Section Apps.
Context `{C : Config} {W : Type} `{Serial W}.
Context (ecall : Z -> list Z -> M W (Z * list Z)) (junk : list Z) (fuel : nat) (stack : list Z).

Abbreviation cap_derive := (s3k_cap_derive ecall junk fuel).
Abbreviation cap_delete := (s3k_cap_delete ecall junk fuel).
Abbreviation mon_cap_move := (s3k_mon_cap_move ecall junk fuel).
Abbreviation mon_pmp_load := (s3k_mon_pmp_load ecall junk fuel).
Abbreviation mon_reg_write := (s3k_mon_reg_write ecall junk fuel).

(** [setup_uart(uart_idx)], the same in all three. *)
Definition app_setup_uart (uart_idx : Z) : M W unit :=
  let uart_addr := s3k_napot_encode UART0_BASE_ADDR 0x8 in
  do* cap_derive UART_MEM uart_idx (s3k_mk_pmp uart_addr MEM_RW) in
  do* s3k_pmp_load ecall junk fuel uart_idx 1 in
  s3k_sync_mem ecall junk.

(** [setup_app1(tmp)] up to the time capability, the same in [hello] and
    [ping-pong]. *)
Definition app_setup_memory (tmp : Z) : M W unit :=
  let uart_addr := s3k_napot_encode UART0_BASE_ADDR 0x8 in
  let app1_addr := s3k_napot_encode 0x80020000 0x10000 in
  do* cap_derive RAM_MEM tmp (s3k_mk_pmp app1_addr MEM_RWX) in
  do* mon_cap_move MONITOR APP0_PID tmp APP1_PID 0 in
  do* mon_pmp_load MONITOR APP1_PID 0 0 in
  do* cap_derive UART_MEM tmp (s3k_mk_pmp uart_addr MEM_RW) in
  do* mon_cap_move MONITOR APP0_PID tmp APP1_PID 1 in
  do* mon_pmp_load MONITOR APP1_PID 1 1 in
  ret tt.

(** ** hello *)

Definition hello_setup_app1 (tmp : Z) : M W unit :=
  do* app_setup_memory tmp in
  do* mon_cap_move MONITOR APP0_PID HART1_TIME APP1_PID 2 in
  do* mon_reg_write MONITOR APP1_PID REG_PC 0x80020000 in
  do* s3k_mon_resume ecall junk fuel MONITOR APP1_PID in
  ret tt.

(** [char buf[12]] holds [buf] at first. *)
Definition hello_main (buf : list Z) : M W unit :=
  do* app_setup_uart 10 in
  do* hello_setup_app1 11 in
  let* buf := (match alt_snprintf 64 (literal "hello, world from app%x") [VInt 0] buf with
               | Done _ b => ret b
               | Fault f => fail f
               end) in
  do* alt_puts buf in
  do* alt_puts (literal "bye from app0") in
  ret tt.

Definition hello_main1 : M W unit :=
  do* alt_puts (literal "hello, world from app1") in
  do* alt_puts (literal "bye from app1") in
  ret tt.

(** ** ping-pong *)

Definition pingpong_setup_app1 (tmp : Z) : M W unit :=
  do* app_setup_memory tmp in
  do* mon_cap_move MONITOR APP0_PID HART0_TIME APP1_PID 2 in
  do* mon_reg_write MONITOR APP1_PID REG_PC 0x80020000 in
  ret tt.

Definition pingpong_setup_socket (socket tmp : Z) : M W unit :=
  do* cap_derive CHANNEL socket (s3k_mk_socket 0 IPC_YIELD (Z.lor IPC_SDATA IPC_CDATA) 0) in
  do* cap_derive socket tmp (s3k_mk_socket 0 IPC_YIELD (Z.lor IPC_SDATA IPC_CDATA) 1) in
  do* mon_cap_move MONITOR APP0_PID tmp APP1_PID 3 in
  ret tt.

(** [do reply = s3k_sock_sendrecv(socket, &msg); while (reply.err);] *)
Fixpoint sendrecv_loop (n : nat) (socket : Z) (msg : s3k_msg) : M W s3k_reply :=
  match n with
  | O => fail OutOfFuel
  | S n =>
      let* reply := s3k_sock_sendrecv ecall junk fuel socket msg in
      if rep_err reply =? 0 then ret reply else sendrecv_loop n socket msg
  end.

(** The first [rounds] requests of the server. *)
Fixpoint pong_loop (rounds : nat) (msg : s3k_msg) : M W unit :=
  match rounds with
  | O => ret tt
  | S rounds =>
      let* reply := sendrecv_loop fuel 11 msg in
      do* alt_puts (data_bytes (rep_data reply)) in
      pong_loop rounds msg
  end.

Definition pingpong_main (rounds : nat) (msg : s3k_msg) : M W unit :=
  do* cap_delete HART1_TIME in
  do* cap_delete HART2_TIME in
  do* cap_delete HART3_TIME in
  do* app_setup_uart 10 in
  do* alt_puts (literal "starting app0") in
  do* pingpong_setup_app1 11 in
  do* pingpong_setup_socket 11 12 in
  do* read_until ecall junk fuel 1 in
  do* s3k_mon_resume ecall junk fuel MONITOR APP1_PID in
  pong_loop rounds (msg_copy (literal "pong") msg).

(** One request of the client: until it has an answer. *)
Fixpoint ping_request (n : nat) (msg : s3k_msg) : M W s3k_reply :=
  match n with
  | O => fail OutOfFuel
  | S n =>
      let* reply := s3k_sock_sendrecv ecall junk fuel 3 msg in
      let* reply := timeout_loop ecall junk fuel fuel (literal "timeout") 3 (msg_cap_idx msg) reply in
      if rep_err reply =? 0 then ret reply else ping_request n msg
  end.
Fixpoint ping_loop (rounds : nat) (msg : s3k_msg) : M W unit :=
  match rounds with
  | O => ret tt
  | S rounds =>
      let* reply := ping_request fuel msg in
      do* alt_puts (data_bytes (rep_data reply)) in
      ping_loop rounds msg
  end.

Definition pingpong_main1 (rounds : nat) (msg : s3k_msg) : M W unit :=
  do* alt_puts (literal "starting app1") in
  ping_loop rounds (msg_copy (literal "ping") msg).

(** ** trapped *)

Definition trapped_handler : M W unit :=
  let* epc := s3k_reg_read ecall junk REG_EPC in
  let* esp := s3k_reg_read ecall junk REG_ESP in
  let* ecause := s3k_reg_read ecall junk REG_ECAUSE in
  let* eval := s3k_reg_read ecall junk REG_EVAL in
  do* app_setup_uart 16 in
  do* alt_puts (literal "uart is now setup!") in
  do* alt_printf stack ERROR_INFO [VInt epc; VInt esp; VInt ecause; VInt eval] in
  do* alt_printf stack RESTORING [] in
  ret tt.

(** [trap_handler] and [trap_stack] are the addresses of the two. *)
Definition trapped_setup_trap (trap_handler trap_stack : Z) : M W unit :=
  do* s3k_reg_write ecall junk REG_TPC trap_handler in
  do* s3k_reg_write ecall junk REG_TSP (u64 (trap_stack + 1024)) in
  ret tt.

Definition trapped_main (trap_handler trap_stack : Z) : M W unit :=
  do* trapped_setup_trap trap_handler trap_stack in
  do* alt_puts (literal "hello, world from app0") in
  do* alt_puts (literal "bye from app0") in
  ret tt.
End Apps.
