(* ===== verification/Tutorials.v ===== *)
(** * The applications of the tutorials

    The main functions of [projects/tutorial.01.hello-world] to
    [tutorial.08.rpc-mem-cap], over the helpers of [Tutorial].  Loops that only
    count in a local variable are left out; [msg] is what a local message holds
    before it is written, [count] the static counter of an application. *)

From Stdlib Require Import String.
From S2P Require Import Prelude Config CapTypes KState Syscall UserCaps UserSyscall Printf Console Tutorial.
From S2P Require Import Apps.

#[local] Open Scope string_scope.
#[local] Open Scope Z_scope.
#[local] Open Scope list_scope.

Section Tutorials.
Context `{C : Config} {W : Type} `{Serial W} `{Memory W}.
Context (ecall : Z -> list Z -> M W (Z * list Z)) (junk : list Z) (fuel : nat) (stack : list Z).
Context (count : lens W Z).

Abbreviation cap_derive := (s3k_cap_derive ecall junk fuel).
Abbreviation sendrecv := (s3k_sock_sendrecv ecall junk fuel).
Abbreviation printf := (alt_printf stack).
Abbreviation log := (logged stack).
Abbreviation uart := (setup_uart ecall junk fuel).
Abbreviation app_1 := (setup_app_1 ecall junk fuel stack).
Abbreviation scheduling := (setup_scheduling ecall junk fuel stack).
Abbreviation socket_pair := (setup_socket ecall junk fuel).
Abbreviation debug := (debug_capability_from_idx ecall junk fuel stack).
Abbreviation free_cap := (find_free_cap ecall junk).
Abbreviation resume := (s3k_mon_resume ecall junk fuel MONITOR APP1_PID).

(** ** 01 hello-world *)

Definition hello_world_main : M W unit :=
  do* uart in
  do* printf (lit "Hello, world\") [] in
  ret tt.

(** ** 02 trap-handler *)

Definition trap_handler_handler : M W unit :=
  do* uart in
  do* alt_puts (literal "uart is now setup!") in
  default_trap_handler ecall junk stack.

Definition trap_handler_main (trap_handler trap_stack : Z) : M W unit :=
  do* setup_trap ecall junk trap_handler trap_stack 1024 in
  do* printf (lit "Hello, world\") [] in
  ret tt.

(** ** 03 mem-cap *)

Definition mem_cap_main (default_trap_handler trap_stack : Z) : M W unit :=
  do* uart in
  do* setup_trap ecall junk default_trap_handler trap_stack 1024 in
  do* printf (lit "Hello, world\") [] in
  do* debug RAM_MEM in
  let* free := free_cap in
  do* printf (lit "Using free cap %d\") [VInt free] in
  let app1_mem := s3k_mk_memory APP_1_BASE_ADDR (APP_1_BASE_ADDR + APP_1_SIZE) MEM_RWX in
  do* log "cap derivation result" (cap_derive RAM_MEM free app1_mem) in
  do* log "cap derivation result" (let* i := free_cap in cap_derive RAM_MEM i app1_mem) in
  do* debug RAM_MEM in
  do* debug free in
  let* free_pmp := free_cap in
  let pmp_addr := s3k_napot_encode APP_1_BASE_ADDR APP_1_SIZE in
  do* log "cap derivation result" (cap_derive free free_pmp (s3k_mk_pmp pmp_addr MEM_RW)) in
  do* debug free in
  do* debug free_pmp in
  do* log "Loading the PMP" (s3k_pmp_load ecall junk fuel free_pmp 2) in
  do* printf (lit "Sync status\") [] in
  do* s3k_sync_mem ecall junk in
  do* printf (lit "Accessing the new memory\") [] in
  do* mem_store APP_1_BASE_ADDR 8 10 in
  let* x := mem_load APP_1_BASE_ADDR 8 in
  do* printf (lit "Successfully wrote in random memory 0x%X\") [VLong x] in
  ret tt.

(** ** 04 timing-cap *)

(** [while (1) alt_puts(text);], [rounds] times. *)
Fixpoint chatter (rounds : nat) (text : list Z) : M W unit :=
  match rounds with
  | O => ret tt
  | S rounds => do* alt_puts text in chatter rounds text
  end.

Definition timing_main (rounds : nat) : M W unit :=
  do* uart in
  do* app_1 in
  do* printf (lit "hello, world from app0\") [] in
  do* scheduling PARALLEL in
  do* log "10" resume in
  chatter rounds (literal "0").

Definition timing_main1 (rounds : nat) : M W unit :=
  do* alt_puts (literal "hello, world from app1") in
  do* s3k_cap_revoke ecall junk fuel APP_1_TIME in
  chatter rounds (literal "1").

(** ** 05 rpc and 07 msg-noyield *)

(** The loops of both sides: a message until it is answered. *)
Fixpoint answered (n : nat) (timeout : list Z) (socket : Z) (msg : s3k_msg) : M W s3k_reply :=
  match n with
  | O => fail OutOfFuel
  | S n =>
      let* reply := sendrecv socket msg in
      do* (if rep_err reply =? S3K_ERR_TIMEOUT then do* alt_puts timeout in ret tt else ret tt) in
      if rep_err reply =? 0 then ret reply else answered n timeout socket msg
  end.

Fixpoint rpc_server_loop (rounds : nat) (socket : Z) (msg : s3k_msg) : M W unit :=
  match rounds with
  | O => ret tt
  | S rounds =>
      let* reply := answered fuel (literal "0> timeout") socket msg in
      do* alt_puts (data_bytes (rep_data reply)) in
      rpc_server_loop rounds socket msg
  end.

(** [yield]: the mode of the socket, the only difference between the two. *)
Definition rpc_main (yield : bool) (rounds : nat) (msg : s3k_msg) : M W unit :=
  do* uart in
  do* alt_puts (literal "starting app0") in
  do* app_1 in
  do* scheduling ROUND_ROBIN in
  let* socket := socket_pair true yield false in
  do* resume in
  do* s3k_reg_write ecall junk REG_SERVTIME 4500 in
  rpc_server_loop rounds socket (msg_copy (literal "pong") msg).

(** The message is formatted anew for each attempt. *)
Fixpoint ping_numbered (n : nat) (number : Z) (msg : s3k_msg) : M W (s3k_reply * s3k_msg) :=
  match n with
  | O => fail OutOfFuel
  | S n =>
      let* msg := msg_printf 32 (literal "ping %d") [VInt number] msg in
      let* reply := sendrecv APP_1_CAP_SOCKET msg in
      do* (if rep_err reply =? S3K_ERR_TIMEOUT then do* alt_puts (literal "1> timeout") in ret tt
           else ret tt) in
      if rep_err reply =? 0 then ret (reply, msg) else ping_numbered n number msg
  end.
Fixpoint rpc_client_loop (rounds : nat) (number : Z) (msg : s3k_msg) : M W unit :=
  match rounds with
  | O => ret tt
  | S rounds =>
      let* r := ping_numbered fuel number msg in
      do* alt_puts (data_bytes (rep_data r.1)) in
      rpc_client_loop rounds (s32 (number + 1)) r.2
  end.
Definition rpc_main1 (rounds : nat) (msg : s3k_msg) : M W unit :=
  do* alt_puts (literal "starting app1") in
  rpc_client_loop rounds 0 msg.

(** ** 06 rpc-resume *)

Fixpoint resume_loop (rounds : nat) (socket : Z) (msg : s3k_msg) : M W unit :=
  match rounds with
  | O => ret tt
  | S rounds =>
      let* reply := send_receive_forever ecall junk fuel fuel socket msg in
      do* printf (lit "APP0: %s\") [VString (data_bytes (rep_data reply))] in
      resume_loop rounds socket msg
  end.

Definition rpc_resume_main (rounds : nat) (msg : s3k_msg) : M W unit :=
  do* uart in
  do* alt_puts (literal "starting app0") in
  do* app_1 in
  let* socket := socket_pair false true false in
  do* resume in
  do* wait_for_app1_blocked ecall junk fuel fuel in
  do* s3k_reg_write ecall junk REG_SERVTIME 4500 in
  resume_loop rounds socket (msg_copy (literal "ping") msg).

(** [output] is a local message of which only [data] is written. *)
Definition rpc_resume_on_msg (output : s3k_msg) (input : s3k_reply) (cap_idx : Z) : M W s3k_msg :=
  do* printf (lit "APP1: %s\") [VString (data_bytes (rep_data input))] in
  let* n := gets (l_get count) in
  do* modify (l_set count (s32 (n + 1))) in
  msg_printf 10 (literal "pong %d") [VInt n] output.

Definition rpc_resume_main1 (rounds : nat) (output msg : s3k_msg) : M W unit :=
  do* alt_puts (literal "starting app1") in
  do* server_main_loop ecall junk fuel rounds (rpc_resume_on_msg output) false msg in
  ret tt.

(** ** 08 rpc-mem-cap *)

Definition setup_buffer_cap : M W Z :=
  let* new_cap := free_cap in
  do* debug RAM_MEM in
  do* log "app 0: derive cap for shared buffer"
        (cap_derive RAM_MEM new_cap
           (s3k_mk_memory SHARED_BUFFER_BASE (SHARED_BUFFER_BASE + SHARED_BUFFER_SIZE) MEM_RW)) in
  ret new_cap.

Definition setup_buffer_pmp (parent_cap_idx : Z) : M W Z :=
  let* pmp_cap_idx := free_cap in
  do* log "app 0: revoke parent cap" (s3k_cap_revoke ecall junk fuel parent_cap_idx) in
  do* log "app 0: derive new mem cap"
        (cap_derive parent_cap_idx pmp_cap_idx
           (s3k_mk_pmp (s3k_napot_encode SHARED_BUFFER_BASE SHARED_BUFFER_SIZE) MEM_RW)) in
  do* log "app 0: load pmp for new buffer" (s3k_pmp_load ecall junk fuel pmp_cap_idx BUFFER_PMP) in
  do* s3k_sync_mem ecall junk in
  ret pmp_cap_idx.

Fixpoint mem_client_loop (rounds : nat) (socket parent_cap counter : Z) (msg : s3k_msg) : M W unit :=
  match rounds with
  | O => ret tt
  | S rounds =>
      let* child_cap := setup_buffer_pmp parent_cap in
      do* printf (lit "APP0: writing counter in shared memory  %d\") [VInt counter] in
      let counter := u32 (counter + 1) in
      do* mem_store SHARED_BUFFER_BASE 4 counter in
      let msg := set_msg_cap child_cap msg in
      do* printf (lit "APP0: sending %d\") [VInt counter] in
      let* reply := send_receive_forever ecall junk fuel fuel socket msg in
      do* printf (lit "APP0: received %s\") [VString (data_bytes (rep_data reply))] in
      mem_client_loop rounds socket parent_cap counter msg
  end.

Definition rpc_mem_main (rounds : nat) (msg : s3k_msg) : M W unit :=
  do* uart in
  do* alt_puts (literal "starting app0") in
  do* app_1 in
  let* socket := socket_pair false true true in
  do* resume in
  do* wait_for_app1_blocked ecall junk fuel fuel in
  do* printf (lit "APP0: other app booted\") [] in
  let* parent_cap := setup_buffer_cap in
  do* s3k_reg_write ecall junk REG_SERVTIME 4500 in
  mem_client_loop rounds socket parent_cap 0 msg.

Definition rpc_mem_on_msg (output : s3k_msg) (input : s3k_reply) (cap_idx : Z) : M W s3k_msg :=
  do* printf (lit "1> handling request\") [] in
  if (rep_cap input)⟦cap_type⟧ =? 0 then
    do* printf (lit "1> missing capability in message\") [] in
    msg_printf 10 [CH_NUL] [] output
  else
    do* s3k_pmp_load ecall junk fuel cap_idx APP_1_PMP_SLOT_BUFFER in
    do* s3k_sync_mem ecall junk in
    let* counter := mem_load SHARED_BUFFER_BASE 4 in
    msg_printf 10 (literal "%d") [VInt counter] output.

Definition rpc_mem_main1 (rounds : nat) (output msg : s3k_msg) : M W unit :=
  do* alt_puts (literal "starting app1") in
  do* server_main_loop ecall junk fuel rounds (rpc_mem_on_msg output) true msg in
  ret tt.
End Tutorials.
