(* ===== verification/AppTheorems.v ===== *)
(** * The applications on the kernel

    The set-up routines and the first tutorial run by process 0 on the modelled
    kernel, from the state after [kernel_init] on both platforms, with a serial port
    that only accepts accesses that the PMP registers of the process allow.  The
    theorems hold for every clock, and whatever the registers that are not passed
    and the local buffers hold.  They are about runs that are not interrupted: the
    timer interrupt is not pending and the lock is not taken at the accesses of
    the kernel to the devices during the run ([quiet_for]). *)

From Stdlib Require Import String FunctionalExtensionality.
From S2P Require Import Prelude Config CapTypes CapTable CapList KState Sched SchedSafe Syscall Trap KernelInit Boot Authority.
From S2P Require Import SystemTheorems UserCaps UserSyscall UserKernel Printf Console Tutorial Apps Tutorials.

#[local] Open Scope string_scope.
#[local] Open Scope Z_scope.
#[local] Open Scope list_scope.

(** ** The world of an application *)

Record world := World { w_kernel : kstate; w_line : console }.
Definition kernel_lens : lens world kstate := Lens w_kernel (fun k w => World k (w_line w)).
Definition line_lens : lens world console := Lens w_line (fun c w => World (w_kernel w) c).

(** [pmp_allows], executable. *)
Definition allowsb (x : proc_t) (a b : Z) : bool :=
  existsb (fun ca => let r := pmp_napot_decode ca.2 in
    negb (ca.1 =? 0) && (r.1 <=? a) && (a <? u64 (r.2 + r.1)) && Z.testbit ca.1 b)
    (zip (p_pmpcfg x) (p_pmpaddr x)).

Lemma allowsb_spec x a b : allowsb x a b = true <-> pmp_allows x a b.
Proof.
  unfold allowsb, pmp_allows, in_region. rewrite existsb_exists. split.
  - intros ([cfg addr] & Hin & Hj). cbn [fst snd] in Hj. apply list_elem_of_In, list_elem_of_lookup in Hin as [j Hin].
    apply lookup_zip_with_Some in Hin as (c & d & [= <- <-] & Ec & Ea).
    rewrite !andb_true_iff, negb_true_iff, Z.eqb_neq, Z.leb_le, Z.ltb_lt in Hj.
    exists (Z.of_nat j), cfg, addr. unfold lookupZ. rewrite (proj2 (Z.leb_le _ _)), Nat2Z.id by lia. tauto.
  - intros (j & cfg & addr & Ec & Ea & Hne & Hin & Hb). exists (cfg, addr). cbn [fst snd].
    rewrite !andb_true_iff, negb_true_iff, Z.eqb_neq, Z.leb_le, Z.ltb_lt. split; [|tauto].
    unfold lookupZ in *. destruct (0 <=? j); [|done]. apply list_elem_of_In, list_elem_of_lookup.
    exists (Z.to_nat j). apply lookup_zip_with_Some. by exists cfg, addr.
Qed.

Section World.
Context `{C : Config} (p : Z).

(** An access to memory by the process; without a region for it the hardware
    traps. *)
Definition access (a b : Z) : M world unit :=
  let* s := gets w_kernel in
  let* x := array_get (procs s) p in
  if allowsb x a b then ret tt else fail OutOfBounds.

(** The serial port: [ns16550a] reads its status and writes or reads its data. *)
Definition app_serial : Serial world := {|
  uart_init := ret tt;
  uart_putc c :=
    do* access (UART0_BASE_ADDR + 5) 0 in
    do* access UART0_BASE_ADDR 1 in zoom line_lens (uart_putc c);
  uart_getc :=
    do* access (UART0_BASE_ADDR + 5) 0 in
    do* access UART0_BASE_ADDR 0 in zoom line_lens uart_getc
|}.

Definition app_ecall (call : Z) (args : list Z) : M world (Z * list Z) :=
  zoom kernel_lens (kernel_ecall 10 10 10 (fun _ => fail OutOfFuel) p call args).
End World.

(** ** The start *)

(** The devices, with the accesses counted from here. *)
Definition hw_start (clock irq lock : nat -> Z) (h : hw_t) : hw_t :=
  Hw clock irq lock 0%nat (mtimecmp h) (mhartid h) (pmp_csr h).

(** Process 0 has been dispatched. *)
Definition start (clock irq lock : nat -> Z) (o : outcome kstate unit) : outcome world unit :=
  match o with
  | Done _ s =>
      match lookupZ (procs s) 0 with
      | Some x =>
          Done tt (World (set_procs (insertZ 0 (set_state PSF_BUSY x) (procs s))
                            (set_hw (hw_start clock irq lock (hw s)) s)) (ConsoleState [] []))
      | None => Fault OutOfBounds
      end
  | Fault f => Fault f
  end.

(** At the first [n] accesses no interrupt is pending and the lock is free. *)
Definition quiet_for (n : nat) (irq lock : nat -> Z) : Prop :=
  forall m, (m < n)%nat -> irq m = 0 /\ lock m = 0.

Lemma quiet_ind (P : (nat -> Z) -> (nat -> Z) -> Prop) n :
  (forall irq lock : nat -> Z, P (fun m => if (m <? n)%nat then 0 else irq m)
                                 (fun m => if (m <? n)%nat then 0 else lock m)) ->
  forall irq lock, quiet_for n irq lock -> P irq lock.
Proof.
  intros HP irq lock Hq. specialize (HP irq lock).
  replace (fun m => if (m <? n)%nat then 0 else irq m) with irq in HP;
    [replace (fun m => if (m <? n)%nat then 0 else lock m) with lock in HP; [exact HP|]|];
    apply functional_extensionality; intros m; destruct (Nat.ltb_spec m n); try reflexivity; by apply Hq.
Qed.

Definition start1 clock irq lock := start clock irq lock (boot_qemu_virt clock).
Definition start4 clock irq lock := start clock irq lock (boot_qemu_virt4 clock).

Definition andthen {A B} (o : outcome world A) (m : M world B) : outcome world B :=
  match o with Done _ w => m w | Fault f => Fault f end.

(** The run ends, without a fault or a trap of the process. *)
Definition ends {A} (o : outcome world A) (Q : A -> world -> Prop) : Prop :=
  match o with Done x w => Q x w | Fault _ => False end.

Lemma ends_mono {A} (o : outcome world A) (P Q : A -> world -> Prop) :
  ends o P -> (forall x w, P x w -> Q x w) -> ends o Q.
Proof. destruct o; cbn; auto. Qed.

(** The record of the process [p], and its capabilities. *)
Definition proc_in (w : world) (p : Z) : option proc_t := lookupZ (procs (w_kernel w)) p.
Definition caps_in (w : world) (p : Z) : list (Z * cap_t) :=
  List.filter (fun ic => negb (ic.2 =? 0))
    (map (fun i => (Z.of_nat i, cap_at (ctable (w_kernel w)) (p * 32 + Z.of_nat i))) (seq 0 32)).

Section Runs.
Context (clock irq lock : nat -> Z).

(** A program of process 0 on the platforms. *)
Definition on1 {A} (m : Config -> Serial world -> (Z -> list Z -> M world (Z * list Z)) -> M world A) :=
  andthen (start1 clock irq lock) (m qemu_virt (app_serial 0) (app_ecall (C := qemu_virt) 0)).
Definition on4 {A} (m : Config -> Serial world -> (Z -> list Z -> M world (Z * list Z)) -> M world A) :=
  andthen (start4 clock irq lock) (m qemu_virt4 (app_serial 0) (app_ecall (C := qemu_virt4) 0)).
End Runs.

(** Lists of a given length as lists of variables, and the run computed. *)
Ltac variables l H :=
  repeat (destruct l as [|? l]; [discriminate H|]); destruct l; [clear H|discriminate H].
Ltac computed := vm_compute; reflexivity.

Definition no_regions : list Z := [0; 0; 0; 0; 0; 0].
Definition ALL_NAPOT : Z := 31.
Definition RW_NAPOT : Z := 27.

(** Two regions: of memory, with all rights, and of a device, to read and write. *)
Lemma two_regions x m u a b : p_pmpcfg x = ALL_NAPOT :: RW_NAPOT :: no_regions ->
  p_pmpaddr x = m :: u :: no_regions -> 0 <= b < 3 ->
  pmp_allows x a b <-> in_region m a \/ in_region u a /\ b < 2.
Proof.
  intros Ec Ea Hb. rewrite <- allowsb_spec. unfold allowsb, in_region. rewrite Ec, Ea.
  cbn -[Z.leb Z.ltb pmp_napot_decode u64 Z.testbit].
  rewrite !orb_true_iff, !andb_true_iff, !Z.leb_le, !Z.ltb_lt.
  assert (b = 0 \/ b = 1 \/ b = 2) as [-> | [-> | ->]] by lia; cbn; intuition (lia || congruence).
Qed.

Section Apps.
Context (clock irq lock : nat -> Z).

(** ** Hello, world *)

(** On both platforms the first tutorial prints its line. *)
Lemma hello_world_prints junk stack : quiet_for 9 irq lock -> length junk = 8%nat -> length stack = 128%nat ->
  let main C S E := hello_world_main (H := S) E junk 1 stack in
  let text w := sent (w_line w) = removelast (lit "Hello, world\") in
  ends (on1 clock irq lock main) (fun _ => text) /\ ends (on4 clock irq lock main) (fun _ => text).
Proof.
  revert irq lock. refine (quiet_ind _ _ _). intros irq lock Hj Hs. cbn zeta.
  variables junk Hj. variables stack Hs. split; vm_compute; reflexivity.
Qed.

(** ** Another application *)

Definition app_1_setup junk stack (C : Config) (S : Serial world) E : M world unit :=
  do* setup_uart E junk 1 in setup_app_1 E junk 1 stack.

(** What the set-up leaves of process 1: suspended at its start address, with two
    regions and their capabilities.  The log has a zero for each step. *)
Definition app_1_ready (w : world) : Prop :=
  sent (w_line w) = concat (map (fun c => [c; 32; CH_0; CH_LF]) [49; 49; 50; 51; 52; 53; 54; 55]) /\
  match proc_in w 1 with
  | Some x => p_state x = PSF_SUSPENDED /\ lookupZ (p_regs x) REG_PC = Some APP_1_BASE_ADDR /\
      p_pmpcfg x = ALL_NAPOT :: RW_NAPOT :: no_regions /\
      p_pmpaddr x = s3k_napot_encode APP_1_BASE_ADDR APP_1_SIZE :: s3k_napot_encode UART0_BASE_ADDR 8 :: no_regions
  | None => False
  end /\
  map (fun ic => (ic.2)⟦cap_type⟧) (caps_in w 1) = [capty CAPTY_PMP; capty CAPTY_PMP].

Lemma app_1_computed junk stack : quiet_for 45 irq lock -> length junk = 8%nat -> length stack = 128%nat ->
  ends (on1 clock irq lock (app_1_setup junk stack)) (fun _ => app_1_ready) /\
  ends (on4 clock irq lock (app_1_setup junk stack)) (fun _ => app_1_ready).
Proof.
  revert irq lock. refine (quiet_ind _ _ _). intros irq lock Hj Hs.
  variables junk Hj. variables stack Hs. split; vm_compute; split_and!; reflexivity.
Qed.

(** [C36]: after [setup_uart] and [setup_app_1], run by process 0 after the start of
    the kernel on either platform, with no timer interrupt pending and the lock
    free at the accesses of the run to the devices (15, and 45 with the lock on four
    harts), application 1 waits at its
    start address, its capabilities are two PMP capabilities, and what its PMP
    registers allow is any access to its 64 KiB and reading and writing the 8 bytes
    of the serial port, and nothing else: not the kernel, not the memory of
    application 0. *)
Theorem app_1_confined junk stack : quiet_for 45 irq lock -> length junk = 8%nat -> length stack = 128%nat ->
  let confined w := exists x, proc_in w 1 = Some x /\ p_state x = PSF_SUSPENDED /\
    lookupZ (p_regs x) REG_PC = Some APP_1_BASE_ADDR /\
    map (fun ic => (ic.2)⟦cap_type⟧) (caps_in w 1) = [capty CAPTY_PMP; capty CAPTY_PMP] /\
    forall a b, 0 <= b < 3 -> pmp_allows x a b <->
      APP_1_BASE_ADDR <= a < APP_1_BASE_ADDR + APP_1_SIZE \/
      UART0_BASE_ADDR <= a < UART0_BASE_ADDR + 8 /\ b < 2 in
  ends (on1 clock irq lock (app_1_setup junk stack)) (fun _ => confined) /\
  ends (on4 clock irq lock (app_1_setup junk stack)) (fun _ => confined).
Proof.
  intros Hq Hj Hs confined. destruct (app_1_computed junk stack Hq Hj Hs) as [H1 H4].
  assert (Hready : forall w, app_1_ready w -> confined w).
  { unfold app_1_ready, confined. intros w (_ & Hx & Hc). destruct (proc_in w 1) as [x|]; [|destruct Hx].
    destruct Hx as (E1 & E2 & E3 & E4). exists x. split; [reflexivity|]. split; [exact E1|]. split; [exact E2|].
    split; [exact Hc|].
    intros a b Hb. rewrite (two_regions x _ _ a b E3 E4 Hb). reflexivity. }
  split; [exact (ends_mono _ _ _ H1 (fun _ => Hready))|exact (ends_mono _ _ _ H4 (fun _ => Hready))].
Qed.

(** ** Sockets *)

Definition socket_setup server yield capability junk stack (C : Config) (S : Serial world) E : M world Z :=
  do* app_1_setup junk stack C S E in setup_socket E junk 1 server yield capability.

(** [C37]: [setup_socket] after that leaves the two ends of channel 0: the one whose
    entry it returns with application 0, the other in entry 3 of application 1; the
    server has tag 0 and the client tag 1, and mode and permissions are as asked
    for.  The run is not interrupted and finds the lock free: no timer interrupt is
    pending and the lock word is 0 at its accesses to the devices (23, and 62 with
    the lock on four harts). *)
Theorem setup_socket_connects (server yield capability : bool) junk stack :
  quiet_for 62 irq lock -> length junk = 8%nat -> length stack = 128%nat ->
  let socket := s3k_mk_socket 0 (if yield then IPC_YIELD else IPC_NOYIELD)
    (Z.lor (Z.lor IPC_SDATA IPC_CDATA) (if capability then Z.lor IPC_CCAP IPC_SCAP else 0)) in
  let connected (i : Z) (w : world) :=
    cap_at (ctable (w_kernel w)) (0 * 32 + i) = socket (if server then 0 else 1) /\
    cap_at (ctable (w_kernel w)) (1 * 32 + APP_1_CAP_SOCKET) = socket (if server then 1 else 0) in
  ends (on1 clock irq lock (socket_setup server yield capability junk stack)) connected /\
  ends (on4 clock irq lock (socket_setup server yield capability junk stack)) connected.
Proof.
  revert irq lock. refine (quiet_ind _ _ _). intros irq lock Hj Hs.
  variables junk Hj. variables stack Hs. destruct server, yield, capability; split; vm_compute; split; reflexivity.
Qed.

(** ** Two faults *)

(** Where the serial port and the disk do not share a memory capability, the region
    for both is refused, nobody looks at the error, and the first character of the
    exercise traps; on the platform it is built for it is sent. *)
Lemma virtio_region junk : quiet_for 9 irq lock -> length junk = 8%nat ->
  let main (C : Config) S E := do* setup_uart_and_virtio E junk 1 in alt_puts (H := S) (literal "0> starting app") in
  on1 clock irq lock main = Fault OutOfBounds /\
  ends (on4 clock irq lock main) (fun _ w => match proc_in w 0 with
    | Some x => allowsb x 0x10001000 1 = true | None => False end).
Proof.
  revert irq lock. refine (quiet_ind _ _ _). intros irq lock Hj.
  variables junk Hj. split; vm_compute; reflexivity.
Qed.

(** [hello] formats 23 characters into a buffer of 12 bytes, with the size 64. *)
Lemma hello_overflow buf : length buf = 12%nat ->
  alt_snprintf 64 (literal "hello, world from app%x") [VInt 0] buf = Fault OutOfBounds.
Proof. intros Hb. variables buf Hb. vm_compute. reflexivity. Qed.
End Apps.

(** ** The schedule *)

(** A clock that starts in the second half of the period. *)
Definition late (n : nat) : Z := 500000 + Z.of_nat n.

(** [resumed]: the process itself is dispatched again. *)
Definition sched_ecall (call : Z) (args : list Z) : M world (Z * list Z) :=
  zoom kernel_lens (kernel_ecall (C := qemu_virt4) 10 10 10
    (fun q => if q =? 0 then user_regs 0 else fail OutOfFuel) 0 call args).

(** [ROUND_ROBIN] gives the first half of hart 0 to application 1, keeps the second,
    and leaves the other harts idle. *)
Lemma round_robin_schedule :
  let junk := replicate 8 7 in let stack := replicate 128 7 in
  let m := (do* app_1_setup junk stack qemu_virt4 (app_serial 0) sched_ecall in
            setup_scheduling (C := qemu_virt4) (H := app_serial 0) sched_ecall junk 1 stack ROUND_ROBIN) in
  ends (andthen (start4 late (fun _ => 0) (fun _ => 0)) m) (fun _ (w : world) =>
    let lane h i := @slot_lane qemu_virt4 (slots (w_kernel w)) h i in
    map (fun i => (lane_pid (lane 0 i), lane_len (lane 0 i))) [0; 15; 16; 31] =
      [(1, 16); (1, 1); (0, 16); (0, 1)] /\
    map (fun h => lane h 0) [1; 2; 3] = [0; 0; 0]).
Proof. vm_compute. split; reflexivity. Qed.

(** ** Witnesses *)

Example app_1_confined_witness :
  let junk := replicate 8 7 in let stack := replicate 128 7 in let zero := fun _ : nat => 0 in
  let confined w := exists x, proc_in w 1 = Some x /\ p_state x = PSF_SUSPENDED /\
    lookupZ (p_regs x) REG_PC = Some APP_1_BASE_ADDR /\
    map (fun ic => (ic.2)⟦cap_type⟧) (caps_in w 1) = [capty CAPTY_PMP; capty CAPTY_PMP] /\
    forall a b, 0 <= b < 3 -> pmp_allows x a b <->
      APP_1_BASE_ADDR <= a < APP_1_BASE_ADDR + APP_1_SIZE \/
      UART0_BASE_ADDR <= a < UART0_BASE_ADDR + 8 /\ b < 2 in
  ends (on1 Boot.clock zero zero (app_1_setup junk stack)) (fun _ => confined) /\
  ends (on4 Boot.clock zero zero (app_1_setup junk stack)) (fun _ => confined).
Proof. exact (app_1_confined Boot.clock (fun _ => 0) (fun _ => 0) (replicate 8 7) (replicate 128 7)
    (fun _ _ => conj eq_refl eq_refl) eq_refl eq_refl). Defined.

Example setup_socket_connects_witness :
  let junk := replicate 8 7 in let stack := replicate 128 7 in let zero := fun _ : nat => 0 in
  let socket := s3k_mk_socket 0 IPC_YIELD (Z.lor (Z.lor IPC_SDATA IPC_CDATA) 0) in
  let connected (i : Z) (w : world) :=
    cap_at (ctable (w_kernel w)) (0 * 32 + i) = socket 0 /\
    cap_at (ctable (w_kernel w)) (1 * 32 + APP_1_CAP_SOCKET) = socket 1 in
  ends (on1 Boot.clock zero zero (socket_setup true true false junk stack)) connected /\
  ends (on4 Boot.clock zero zero (socket_setup true true false junk stack)) connected.
Proof.
  exact (setup_socket_connects Boot.clock (fun _ => 0) (fun _ => 0) true true false (replicate 8 7) (replicate 128 7)
    (fun _ _ => conj eq_refl eq_refl) eq_refl eq_refl).
Defined.
