(* ===== verification/VirtioDisk.v ===== *)
(** * The disk driver

    [virtio_disk.c], [virtio.h] and [buf.h] of [src/projects/exercise/app0] (the
    copies in [tutorial.09.fs] are identical), and [diskio.c] above it.  The
    driver shares its memory with the device: descriptors, the two rings, the
    command headers, the status bytes and the data of the buffers.  The device is
    a parameter: its registers, and what it does to the shared memory whenever it
    gets to run, which is before each register access and before each read of
    something it may have written.  Where the linker and the stack put the shared
    objects is the parameter [addr]. *)

From Stdlib Require Import String.
From S2P Require Import Prelude.

#[local] Open Scope Z_scope.
#[local] Open Scope list_scope.

Definition NUM : Z := 8.
Definition BSIZE : Z := 512.
Definition PGSIZE : Z := 4096.
Definition PGSHIFT : Z := 12.

Definition VRING_DESC_F_NEXT : Z := 1.
Definition VRING_DESC_F_WRITE : Z := 2.
Definition VIRTIO_BLK_T_IN : Z := 0.
Definition VIRTIO_BLK_T_OUT : Z := 1.

(** Registers, as offsets from [VIRTIO0]. *)
Definition VIRTIO_MMIO_MAGIC_VALUE : Z := 0x000.
Definition VIRTIO_MMIO_VERSION : Z := 0x004.
Definition VIRTIO_MMIO_DEVICE_ID : Z := 0x008.
Definition VIRTIO_MMIO_VENDOR_ID : Z := 0x00c.
Definition VIRTIO_MMIO_DEVICE_FEATURES : Z := 0x010.
Definition VIRTIO_MMIO_DRIVER_FEATURES : Z := 0x020.
Definition VIRTIO_MMIO_GUEST_PAGE_SIZE : Z := 0x028.
Definition VIRTIO_MMIO_QUEUE_SEL : Z := 0x030.
Definition VIRTIO_MMIO_QUEUE_NUM_MAX : Z := 0x034.
Definition VIRTIO_MMIO_QUEUE_NUM : Z := 0x038.
Definition VIRTIO_MMIO_QUEUE_PFN : Z := 0x040.
Definition VIRTIO_MMIO_QUEUE_NOTIFY : Z := 0x050.
Definition VIRTIO_MMIO_INTERRUPT_STATUS : Z := 0x060.
Definition VIRTIO_MMIO_INTERRUPT_ACK : Z := 0x064.
Definition VIRTIO_MMIO_STATUS : Z := 0x070.

Definition VIRTIO_CONFIG_S_ACKNOWLEDGE : Z := 1.
Definition VIRTIO_CONFIG_S_DRIVER : Z := 2.
Definition VIRTIO_CONFIG_S_DRIVER_OK : Z := 4.
Definition VIRTIO_CONFIG_S_FEATURES_OK : Z := 8.

(** The numbers of the feature bits the driver declines. *)
Definition declined_features : list Z := [5; 7; 11; 12; 27; 29; 28].

(** ** Data *)

(** The structures of the rings, without the padding at the end of the first. *)
Record virtq_desc := VirtqDesc { d_addr : Z; d_len : Z; d_flags : Z; d_next : Z }.
Record virtq_avail := VirtqAvail { av_flags : Z; av_idx : Z; av_ring : list Z }.
Record virtq_used_elem := VirtqUsedElem { ue_id : Z; ue_len : Z }.
Record virtq_used := VirtqUsed { us_flags : Z; us_idx : Z; us_ring : list virtq_used_elem }.
Record virtio_blk_req := VirtioBlkReq { rq_type : Z; rq_reserved : Z; rq_sector : Z }.
Record blk_info := BlkInfo { in_b : option Z; in_status : Z }.

(** [struct buf], without the links of the cache, which nothing here uses; a
    [struct buf *] is an index into the buffers. *)
Record buf := Buf { b_valid : Z; b_disk : Z; b_dev : Z; b_blockno : Z; b_refcnt : Z; b_data : list Z }.

(** [struct disk].  The two pages are the three regions [desc], [avail] and
    [used] they are divided into, and [mapped] says whether the pointers to the
    regions have been set. *)
Record disk_t := Disk {
  desc : list virtq_desc;
  avail : virtq_avail;
  used : virtq_used;
  mapped : bool;
  free : list Z;
  used_idx : Z;
  info : list blk_info;
  ops : list virtio_blk_req;
  initialised : Z
}.

(** The objects whose addresses the device is given. *)
Inductive place := POp (i : Z) | PData (b : Z) | PStatus (i : Z).

(** The memory the driver and the device share. *)
Record memory := Memory { m_disk : disk_t; m_bufs : list buf }.

(** A device with a state of type [D]. *)
Record device (D : Type) := Device {
  reg_read : Z -> D -> Z;
  reg_write : Z -> Z -> D -> D;
  runs : memory -> D -> memory * D
}.
Arguments reg_read {D} _.
Arguments reg_write {D} _.
Arguments runs {D} _.

Record world (D : Type) := World { w_mem : memory; w_dev : D; w_out : list string }.
Arguments World {D} _ _ _.
Arguments w_mem {D} _.
Arguments w_dev {D} _.
Arguments w_out {D} _.

Definition set_desc v d := Disk v (avail d) (used d) (mapped d) (free d) (used_idx d) (info d) (ops d) (initialised d).
Definition set_avail v d := Disk (desc d) v (used d) (mapped d) (free d) (used_idx d) (info d) (ops d) (initialised d).
Definition set_used v d := Disk (desc d) (avail d) v (mapped d) (free d) (used_idx d) (info d) (ops d) (initialised d).
Definition set_mapped v d := Disk (desc d) (avail d) (used d) v (free d) (used_idx d) (info d) (ops d) (initialised d).
Definition set_free v d := Disk (desc d) (avail d) (used d) (mapped d) v (used_idx d) (info d) (ops d) (initialised d).
Definition set_used_idx v d := Disk (desc d) (avail d) (used d) (mapped d) (free d) v (info d) (ops d) (initialised d).
Definition set_info v d := Disk (desc d) (avail d) (used d) (mapped d) (free d) (used_idx d) v (ops d) (initialised d).
Definition set_ops v d := Disk (desc d) (avail d) (used d) (mapped d) (free d) (used_idx d) (info d) v (initialised d).
Definition set_initialised v d := Disk (desc d) (avail d) (used d) (mapped d) (free d) (used_idx d) (info d) (ops d) v.

Definition set_b_disk v b := Buf (b_valid b) v (b_dev b) (b_blockno b) (b_refcnt b) (b_data b).
Definition set_b_blockno v b := Buf (b_valid b) (b_disk b) (b_dev b) v (b_refcnt b) (b_data b).
Definition set_b_data v b := Buf (b_valid b) (b_disk b) (b_dev b) (b_blockno b) (b_refcnt b) v.

(** The zeroed pages. *)
Definition desc0 : virtq_desc := VirtqDesc 0 0 0 0.
Definition avail0 : virtq_avail := VirtqAvail 0 0 (replicate 8 0).
Definition used0 : virtq_used := VirtqUsed 0 0 (replicate 8 (VirtqUsedElem 0 0)).

(** The structure in [.bss]. *)
Definition disk_bss : disk_t :=
  Disk (replicate 8 desc0) avail0 used0 false (replicate 8 0) 0
    (replicate 8 (BlkInfo None 0)) (replicate 8 (VirtioBlkReq 0 0 0)) 0.

Section Driver.
Context {D : Type} (dev : device D) (addr : place -> Z) (pages_addr : Z).

(** ** Access *)

Definition on_mem (f : memory -> memory) : M (world D) unit :=
  modify (fun w => World (f (w_mem w)) (w_dev w) (w_out w)).
Definition on_disk (f : disk_t -> disk_t) : M (world D) unit :=
  on_mem (fun m => Memory (f (m_disk m)) (m_bufs m)).
Definition the_disk : M (world D) disk_t := gets (fun w => m_disk (w_mem w)).

(** [alt_puts]: the line is added to the output. *)
Definition puts_line (msg : string) : M (world D) unit :=
  modify (fun w => World (w_mem w) (w_dev w) (w_out w ++ [msg])).

(** The device gets to run. *)
Definition device_runs : M (world D) unit :=
  modify (fun w => let r := runs dev (w_mem w) (w_dev w) in World r.1 r.2 (w_out w)).

(** [*R(r)] and [*R(r) = v]. *)
Definition R_read (r : Z) : M (world D) Z :=
  do* device_runs in gets (fun w => u32 (reg_read dev r (w_dev w))).
Definition R_write (r v : Z) : M (world D) unit :=
  do* device_runs in
  modify (fun w => World (w_mem w) (reg_write dev r (u32 v) (w_dev w)) (w_out w)).

(** A field behind one of the pointers [desc], [avail], [used]. *)
Definition through {A} (f : disk_t -> A) : M (world D) A :=
  let* d := the_disk in if mapped d then ret (f d) else fail NullDeref.

Definition desc_get (i : Z) : M (world D) virtq_desc :=
  let* l := through desc in array_get l i.
Definition desc_set (i : Z) (x : virtq_desc) : M (world D) unit :=
  do* desc_get i in on_disk (fun d => set_desc (insertZ i x (desc d)) d).
Definition free_get (i : Z) : M (world D) Z := let* d := the_disk in array_get (free d) i.
Definition free_set (i v : Z) : M (world D) unit :=
  do* free_get i in on_disk (fun d => set_free (insertZ i v (free d)) d).
Definition info_get (i : Z) : M (world D) blk_info := let* d := the_disk in array_get (info d) i.
Definition info_set (i : Z) (x : blk_info) : M (world D) unit :=
  do* info_get i in on_disk (fun d => set_info (insertZ i x (info d)) d).
Definition ops_set (i : Z) (x : virtio_blk_req) : M (world D) unit :=
  let* d := the_disk in do* array_get (ops d) i in
  on_disk (fun d => set_ops (insertZ i x (ops d)) d).
Definition buf_get (b : Z) : M (world D) buf :=
  let* l := gets (fun w => m_bufs (w_mem w)) in array_get l b.
Definition buf_update (b : Z) (f : buf -> buf) : M (world D) unit :=
  let* x := buf_get b in on_mem (fun m => Memory (m_disk m) (insertZ b (f x) (m_bufs m))).

(** ** Initialisation *)

Definition virtio_disk_status : M (world D) Z := let* d := the_disk in ret (initialised d).

Definition virtio_disk_init : M (world D) unit :=
  let* magic := R_read VIRTIO_MMIO_MAGIC_VALUE in
  let* bad := (if negb (magic =? 0x74726976) then ret true else
    let* version := R_read VIRTIO_MMIO_VERSION in
    if negb (version =? 1) then ret true else
    let* id := R_read VIRTIO_MMIO_DEVICE_ID in
    if negb (id =? 2) then ret true else
    let* vendor := R_read VIRTIO_MMIO_VENDOR_ID in
    ret (negb (vendor =? 0x554d4551))) in
  do* (if bad : bool then puts_line "could not find virtio disk" else ret tt) in
  let status := VIRTIO_CONFIG_S_ACKNOWLEDGE in
  do* R_write VIRTIO_MMIO_STATUS status in
  let status := Z.lor status VIRTIO_CONFIG_S_DRIVER in
  do* R_write VIRTIO_MMIO_STATUS status in
  let* features := R_read VIRTIO_MMIO_DEVICE_FEATURES in
  let features := fold_left (fun f k => Z.ldiff f (2 ^ k)) declined_features features in
  do* R_write VIRTIO_MMIO_DRIVER_FEATURES features in
  let status := Z.lor status VIRTIO_CONFIG_S_FEATURES_OK in
  do* R_write VIRTIO_MMIO_STATUS status in
  let status := Z.lor status VIRTIO_CONFIG_S_DRIVER_OK in
  do* R_write VIRTIO_MMIO_STATUS status in
  do* R_write VIRTIO_MMIO_GUEST_PAGE_SIZE PGSIZE in
  do* R_write VIRTIO_MMIO_QUEUE_SEL 0 in
  let* max := R_read VIRTIO_MMIO_QUEUE_NUM_MAX in
  if max =? 0 then puts_line "virtio disk has no queue 0" else
  if max <? NUM then puts_line "virtio disk max queue too short" else
  do* R_write VIRTIO_MMIO_QUEUE_NUM NUM in
  do* on_disk (fun d => set_desc (replicate 8 desc0) (set_avail avail0 (set_used used0 d))) in
  do* R_write VIRTIO_MMIO_QUEUE_PFN (Z.shiftr pages_addr PGSHIFT) in
  do* on_disk (set_mapped true) in
  do* for_range 0 NUM (fun i => free_set i 1) in
  do* on_disk (set_initialised 1) in
  puts_line "Disk Initialization completed".

(** ** Descriptors *)

Fixpoint alloc_loop (n : nat) (i : Z) : M (world D) Z :=
  match n with
  | O => ret (-1)
  | S n =>
      let* f := free_get i in
      if negb (f =? 0) then do* free_set i 0 in ret i else alloc_loop n (i + 1)
  end.

Definition alloc_desc : M (world D) Z := alloc_loop (Z.to_nat NUM) 0.

Definition free_desc (i : Z) : M (world D) unit :=
  if NUM <=? i then puts_line "free_desc 1" else
  let* f := free_get i in
  if negb (f =? 0) then puts_line "free_desc 2" else
  do* desc_set i desc0 in
  free_set i 1.

(** The chain ends after as many rounds as there are descriptors, unless it is
    a cycle. *)
Fixpoint free_chain (fuel : nat) (i : Z) : M (world D) unit :=
  match fuel with
  | O => fail OutOfFuel
  | S fuel =>
      let* d := desc_get i in
      do* free_desc i in
      if negb (Z.land (d_flags d) VRING_DESC_F_NEXT =? 0) then free_chain fuel (d_next d)
      else ret tt
  end.

(** The array [idx] as far as it is filled, and the result. *)
Fixpoint alloc3_loop (n : nat) (idx : list Z) : M (world D) (Z * list Z) :=
  match n with
  | O => ret (0, idx)
  | S n =>
      let* i := alloc_desc in
      if i <? 0 then
        do* for_range 0 (zlen idx) (fun j => let* x := array_get idx j in free_desc x) in
        ret (-1, idx)
      else alloc3_loop n (idx ++ [i])
  end.

Definition alloc3_desc : M (world D) (Z * list Z) := alloc3_loop 3 [].

(** ** Requests *)

(** [while (disk.used_idx != disk.used->idx)] of [virtio_disk_intr]. *)
Fixpoint intr_loop (fuel : nat) : M (world D) unit :=
  match fuel with
  | O => fail OutOfFuel
  | S fuel =>
      do* device_runs in
      let* d := the_disk in
      let* u := through used in
      if used_idx d =? us_idx u then ret tt else
      do* device_runs in
      let* u := through used in
      let* e := array_get (us_ring u) (used_idx d mod NUM) in
      let id := ue_id e in
      do* device_runs in
      let* x := info_get id in
      if negb (in_status x =? 0) then puts_line "virtio_disk_intr status" else
      let* b := deref (in_b x) in
      do* buf_update b (set_b_disk 0) in
      do* on_disk (fun d => set_used_idx (u16 (used_idx d + 1)) d) in
      intr_loop fuel
  end.

Definition virtio_disk_intr (fuel : nat) : M (world D) unit :=
  let* s := R_read VIRTIO_MMIO_INTERRUPT_STATUS in
  do* R_write VIRTIO_MMIO_INTERRUPT_ACK (Z.land s 3) in
  intr_loop fuel.

(** [while (1) { if (alloc3_desc(idx) == 0) break; }] *)
Fixpoint alloc_wait (fuel : nat) : M (world D) (list Z) :=
  match fuel with
  | O => fail OutOfFuel
  | S fuel => let* r := alloc3_desc in if r.1 =? 0 then ret r.2 else alloc_wait fuel
  end.

(** The part of [virtio_disk_rw] up to the notification of the device. *)
Definition submit (b : Z) (write : bool) (idx : list Z) : M (world D) unit :=
  let* i0 := array_get idx 0 in
  let* i1 := array_get idx 1 in
  let* i2 := array_get idx 2 in
  let* x := buf_get b in
  let sector := u32 (b_blockno x * (BSIZE / 512)) in
  do* ops_set i0 (VirtioBlkReq (if write then VIRTIO_BLK_T_OUT else VIRTIO_BLK_T_IN) 0 sector) in
  do* desc_set i0 (VirtqDesc (addr (POp i0)) 16 VRING_DESC_F_NEXT (u16 i1)) in
  do* desc_set i1 (VirtqDesc (addr (PData b)) BSIZE
        (Z.lor (if write then 0 else VRING_DESC_F_WRITE) VRING_DESC_F_NEXT) (u16 i2)) in
  let* f := info_get i0 in
  do* info_set i0 (BlkInfo (in_b f) 255) in
  do* desc_set i2 (VirtqDesc (addr (PStatus i0)) 1 VRING_DESC_F_WRITE 0) in
  do* buf_update b (set_b_disk 1) in
  let* f := info_get i0 in
  do* info_set i0 (BlkInfo (Some b) (in_status f)) in
  let* a := through avail in
  do* array_get (av_ring a) (av_idx a mod NUM) in
  do* on_disk (set_avail (VirtqAvail (av_flags a) (av_idx a)
                            (insertZ (av_idx a mod NUM) (u16 i0) (av_ring a)))) in
  let* a := through avail in
  do* on_disk (set_avail (VirtqAvail (av_flags a) (u16 (av_idx a + 1)) (av_ring a))) in
  R_write VIRTIO_MMIO_QUEUE_NOTIFY 0.

(** [while (b->disk == 1) virtio_disk_intr();] *)
Fixpoint wait_done (fuel : nat) (b : Z) : M (world D) unit :=
  match fuel with
  | O => fail OutOfFuel
  | S fuel =>
      let* x := buf_get b in
      if b_disk x =? 1 then do* virtio_disk_intr fuel in wait_done fuel b else ret tt
  end.

Definition virtio_disk_rw (fuel : nat) (b : Z) (write : bool) : M (world D) unit :=
  let* idx := alloc_wait fuel in
  do* submit b write idx in
  do* wait_done fuel b in
  let* i0 := array_get idx 0 in
  let* f := info_get i0 in
  do* info_set i0 (BlkInfo None (in_status f)) in
  free_chain (Z.to_nat NUM) i0.

(** ** [diskio.c]: the drive of the file system *)

Definition DEV_VIRTIO : Z := 0.
Definition STA_NOINIT : Z := 1.
Definition RES_OK : Z := 0.
Definition RES_NOTRDY : Z := 3.
Definition RES_PARERR : Z := 4.
Definition CTRL_SYNC : Z := 0.
Definition GET_SECTOR_COUNT : Z := 1.
Definition GET_SECTOR_SIZE : Z := 2.
Definition GET_BLOCK_SIZE : Z := 3.

Definition disk_status (pdrv : Z) : M (world D) Z :=
  if pdrv =? DEV_VIRTIO then
    let* s := virtio_disk_status in if negb (s =? 0) then ret 0 else ret STA_NOINIT
  else ret STA_NOINIT.

Definition disk_initialize (pdrv : Z) : M (world D) Z :=
  if pdrv =? DEV_VIRTIO then do* virtio_disk_init in disk_status pdrv else ret STA_NOINIT.

(** [memcpy(dst + off, src, 512)] within the array [dst]. *)
Definition copy_block (off : Z) (src dst : list Z) : M (world D) (list Z) :=
  if off + BSIZE <=? zlen dst
  then ret (take (Z.to_nat off) dst ++ src ++ drop (Z.to_nat (off + BSIZE)) dst)
  else fail OutOfBounds.

(** The loops end when [--count] is zero, in unsigned 32-bit arithmetic.  The
    local variable [buffer] is the buffer [b], the caller's array is [buff], and
    [off] is how far the pointer into it has moved. *)
Fixpoint read_loop (fuel : nat) (b : Z) (buff : list Z) (off sector count : Z)
    : M (world D) (list Z) :=
  match fuel with
  | O => fail OutOfFuel
  | S fuel' =>
      do* buf_update b (set_b_blockno (u32 sector)) in
      do* buf_update b (set_b_data (replicate 512 0)) in
      do* virtio_disk_rw fuel b false in
      let* x := buf_get b in
      let* buff := copy_block off (b_data x) buff in
      let count := u32 (count - 1) in
      if count =? 0 then ret buff else read_loop fuel' b buff (off + BSIZE) sector count
  end.

Definition disk_read (fuel : nat) (b pdrv : Z) (buff : list Z) (sector count : Z)
    : M (world D) (Z * list Z) :=
  if pdrv =? DEV_VIRTIO then
    let* s := disk_status pdrv in
    if negb (Z.land s STA_NOINIT =? 0) then ret (RES_NOTRDY, buff) else
    let* buff := read_loop fuel b buff 0 sector count in
    ret (RES_OK, buff)
  else ret (RES_PARERR, buff).

Fixpoint write_loop (fuel : nat) (b : Z) (buff : list Z) (off sector count : Z)
    : M (world D) unit :=
  match fuel with
  | O => fail OutOfFuel
  | S fuel' =>
      do* buf_update b (set_b_blockno (u32 sector)) in
      do* (if off + BSIZE <=? zlen buff then ret tt else fail OutOfBounds) in
      do* buf_update b (set_b_data (take 512 (drop (Z.to_nat off) buff))) in
      do* virtio_disk_rw fuel b true in
      let count := u32 (count - 1) in
      if count =? 0 then ret tt else write_loop fuel' b buff (off + BSIZE) sector count
  end.

Definition disk_write (fuel : nat) (b pdrv : Z) (buff : list Z) (sector count : Z)
    : M (world D) Z :=
  if pdrv =? DEV_VIRTIO then
    let* s := disk_status pdrv in
    if negb (Z.land s STA_NOINIT =? 0) then ret RES_NOTRDY else
    do* write_loop fuel b buff 0 sector count in
    ret RES_OK
  else ret RES_PARERR.

(** The result and what is stored through [buff]. *)
Definition disk_ioctl (drv ctrl : Z) : M (world D) (Z * option Z) :=
  let* s := disk_status drv in
  if negb (Z.land s STA_NOINIT =? 0) then ret (RES_NOTRDY, None) else
  if ctrl =? CTRL_SYNC then ret (RES_OK, None) else
  if ctrl =? GET_SECTOR_SIZE then ret (RES_OK, Some 512) else
  if ctrl =? GET_SECTOR_COUNT then ret (RES_OK, Some (10 * 1024 * 1024 / 512)) else
  if ctrl =? GET_BLOCK_SIZE then ret (RES_OK, Some 1) else
  ret (RES_PARERR, None).

Definition get_fattime : Z := 0.
End Driver.
