(* ===== verification/VirtioTheorems.v ===== *)
(** * The disk driver transfers sectors

    What the driver relies on is that the device keeps the contract of the virtio
    specification for block devices, error statuses included; the theorems are for
    every device that does.  A request that succeeds transfers its sector, one that
    fails never ends; transfers of several requests are for devices that fail none.
    [virtio_disk_init] on the zeroed driver structure leaves the state between
    requests that they start from, or with a queue that is too short an
    uninitialised driver. *)

From Stdlib Require Import String.
From S2P Require Import Prelude VirtioDisk.

#[local] Open Scope Z_scope.
#[local] Open Scope list_scope.
#[local] Arguments insertZ : simpl never.
#[local] Arguments lookupZ : simpl never.

(** ** The contract of the device *)

Section Contract.
Context {D : Type} (dev : device D) (at_addr : Z -> option place).
(** What is stored on the disk, how many requests the device has taken from the
    ring (as a 16-bit counter), the status with which it will answer the next
    request, of some type and for some sector, and how long it will take for it. *)
Context (contents : D -> Z -> list Z) (seen : D -> Z) (status : D -> Z -> Z -> Z).
Context (delay : D -> nat) (longest : nat).

(** The device processes the chain of three descriptors that starts at [head]:
    command, data, status.  It writes the status [ans], enters the chain in the used
    ring with some length [len], and transfers the sector, if the status is zero.
    Otherwise the request has failed, with [VIRTIO_BLK_S_IOERR] or
    [VIRTIO_BLK_S_UNSUPP], and any data may be where the sector belongs. *)
Definition process (ans : Z -> Z -> Z) (len : Z) (data : list Z) (head : Z) (m : memory) (c : Z -> list Z) :
    option (memory * (Z -> list Z)) :=
  let d := m_disk m in
  d0 ← lookupZ (desc d) head;
  d1 ← lookupZ (desc d) (d_next d0);
  d2 ← lookupZ (desc d) (d_next d1);
  match at_addr (d_addr d0), at_addr (d_addr d1), at_addr (d_addr d2) with
  | Some (POp i), Some (PData b), Some (PStatus j) =>
      rq ← lookupZ (ops d) i;
      x ← lookupZ (m_bufs m) b;
      ib ← lookupZ (info d) j;
      let st := ans (rq_type rq) (rq_sector rq) in
      let u := used d in
      let u' := VirtqUsed (us_flags u) (u16 (us_idx u + 1))
                  (insertZ (us_idx u mod NUM) (VirtqUsedElem head len) (us_ring u)) in
      let d' := set_used u' (set_info (insertZ j (BlkInfo (in_b ib) st) (info d)) d) in
      if rq_type rq =? VIRTIO_BLK_T_OUT
      then Some (Memory d' (m_bufs m), fupd c (rq_sector rq) (if st =? 0 then b_data x else data))
      else Some (Memory d' (insertZ b (set_b_data (if st =? 0 then c (rq_sector rq) else data) x) (m_bufs m)), c)
  | _, _, _ => None
  end.

Ltac process_cases := unfold process, mbind, option_bind; repeat (case_match; try done).

Lemma process_ext ans ans' len data head m c : (forall t s, ans t s = ans' t s) ->
  process ans len data head m c = process ans' len data head m c.
Proof. intros E. process_cases; rewrite !E in *; congruence. Qed.

Lemma process_some ans len data len' data' head m c :
  is_Some (process ans len data head m c) -> is_Some (process ans len' data' head m c).
Proof. process_cases; by intros []. Qed.

(** The head of the next chain the device has not taken yet. *)
Definition next_head (m : memory) (x : D) : Z :=
  default 0 (lookupZ (av_ring (avail (m_disk m))) (seen x mod NUM)).

Record block_device : Prop := {
  (** It leaves memory alone when it has taken all requests. *)
  bd_idle m x : seen x = av_idx (avail (m_disk m)) ->
    (runs dev m x).1 = m /\ seen (runs dev m x).2 = seen x /\
    contents (runs dev m x).2 = contents x;
  (** Otherwise it lets some time pass or processes the next chain, if that is
      a proper one. *)
  bd_busy m x : seen x <> av_idx (avail (m_disk m)) ->
    is_Some (process (status x) 0 [] (next_head m x) m (contents x)) ->
    ((runs dev m x).1 = m /\ seen (runs dev m x).2 = seen x /\
     contents (runs dev m x).2 = contents x /\ (delay (runs dev m x).2 < delay x)%nat /\
     forall t s, status (runs dev m x).2 t s = status x t s) \/
    (exists len data, process (status x) len data (next_head m x) m (contents x) =
       Some ((runs dev m x).1, contents (runs dev m x).2) /\
     seen (runs dev m x).2 = u16 (seen x + 1));
  (** Notification and acknowledgement take and lose no request and do not decide
      how it ends; after a notification the device is done within a bounded time. *)
  bd_notify v x :
    seen (reg_write dev VIRTIO_MMIO_QUEUE_NOTIFY v x) = seen x /\
    contents (reg_write dev VIRTIO_MMIO_QUEUE_NOTIFY v x) = contents x /\
    (delay (reg_write dev VIRTIO_MMIO_QUEUE_NOTIFY v x) <= longest)%nat /\
    forall t s, status (reg_write dev VIRTIO_MMIO_QUEUE_NOTIFY v x) t s = status x t s;
  bd_ack v x :
    seen (reg_write dev VIRTIO_MMIO_INTERRUPT_ACK v x) = seen x /\
    contents (reg_write dev VIRTIO_MMIO_INTERRUPT_ACK v x) = contents x /\
    (delay (reg_write dev VIRTIO_MMIO_INTERRUPT_ACK v x) <= delay x)%nat /\
    forall t s, status (reg_write dev VIRTIO_MMIO_INTERRUPT_ACK v x) t s = status x t s
}.
End Contract.

(** ** The driver *)

Section Driver.
Context {D : Type} (dev : device D) (addr : place -> Z) (at_addr : Z -> option place).
Context (contents : D -> Z -> list Z) (seen : D -> Z) (status : D -> Z -> Z -> Z).
Context (delay : D -> nat) (longest : nat).
Context (Hdev : block_device dev at_addr contents seen status delay longest).
Context (Haddr : forall p, at_addr (addr p) = Some p).
Implicit Types (w : world D) (m : memory).

(** Between requests: all descriptors are free, and driver and device have seen
    all entries of both rings. *)
Definition idle w : Prop :=
  let d := m_disk (w_mem w) in
  mapped d = true /\ free d = replicate 8 1 /\ length (desc d) = 8%nat /\
  length (av_ring (avail d)) = 8%nat /\ length (us_ring (used d)) = 8%nat /\
  length (info d) = 8%nat /\ length (ops d) = 8%nat /\
  used_idx d = us_idx (used d) /\ 0 <= us_idx (used d) < 2 ^ 16 /\
  0 <= av_idx (avail d) < 2 ^ 16 /\ seen (w_dev w) = av_idx (avail d).

(** The memory after the request has been put into the rings. *)
Definition submitted (b : Z) (write : bool) (x : buf) m : memory :=
  let d := m_disk m in
  Memory
    (Disk (insertZ 2 (VirtqDesc (addr (PStatus 0)) 1 VRING_DESC_F_WRITE 0)
             (insertZ 1 (VirtqDesc (addr (PData b)) BSIZE
                (Z.lor (if write then 0 else VRING_DESC_F_WRITE) VRING_DESC_F_NEXT) 2)
             (insertZ 0 (VirtqDesc (addr (POp 0)) 16 VRING_DESC_F_NEXT 1) (desc d))))
       (VirtqAvail (av_flags (avail d)) (u16 (av_idx (avail d) + 1))
          (insertZ (av_idx (avail d) mod NUM) 0 (av_ring (avail d))))
       (used d) (mapped d) [0; 0; 0; 1; 1; 1; 1; 1] (used_idx d)
       (insertZ 0 (BlkInfo (Some b) 255) (info d))
       (insertZ 0 (VirtioBlkReq (if write then VIRTIO_BLK_T_OUT else VIRTIO_BLK_T_IN) 0
                     (u32 (b_blockno x))) (ops d))
       (initialised d))
    (insertZ b (set_b_disk 1 x) (m_bufs m)).

Lemma length_insertZ {A} i (y : A) l : length (insertZ i y l) = length l.
Proof. unfold insertZ. case_match; [apply length_insert|done]. Qed.

(** ** Rules for the accesses *)

Section Access.
Context (m : memory) (x : D) (out : list string).
Abbreviation W m := (World m x out).
Abbreviation on f m := (Memory (f (m_disk m)) (m_bufs m)).

Lemma wp_through {A} (f : disk_t -> A) Q :
  mapped (m_disk m) = true -> Q (f (m_disk m)) (W m) -> wp (through f) Q (W m).
Proof. intros Hm HQ. unfold wp, through, bind. cbn. by rewrite Hm. Qed.

Lemma wp_desc_get i y Q :
  mapped (m_disk m) = true -> lookupZ (desc (m_disk m)) i = Some y -> Q y (W m) ->
  wp (desc_get i) Q (W m).
Proof.
  intros Hm Hi HQ. apply wp_bind, wp_through; [done|]. by eapply wp_array_get.
Qed.

Lemma wp_desc_set i y Q :
  mapped (m_disk m) = true -> 0 <= i < zlen (desc (m_disk m)) ->
  Q tt (W (on (fun d => set_desc (insertZ i y (desc d)) d) m)) -> wp (desc_set i y) Q (W m).
Proof.
  intros Hm Hi HQ. destruct (lookupZ_lt _ _ Hi) as [z Hz]. apply wp_bind.
  by eapply wp_desc_get.
Qed.

Lemma wp_free_get i f Q :
  lookupZ (free (m_disk m)) i = Some f -> Q f (W m) -> wp (free_get i) Q (W m).
Proof. intros Hi HQ. apply wp_bind, wp_gets. by eapply wp_array_get. Qed.

Lemma wp_free_set i f Q :
  0 <= i < zlen (free (m_disk m)) ->
  Q tt (W (on (fun d => set_free (insertZ i f (free d)) d) m)) -> wp (free_set i f) Q (W m).
Proof.
  intros Hi HQ. destruct (lookupZ_lt _ _ Hi) as [z Hz]. apply wp_bind. by eapply wp_free_get.
Qed.

Lemma wp_info_get i y Q :
  lookupZ (info (m_disk m)) i = Some y -> Q y (W m) -> wp (info_get i) Q (W m).
Proof. intros Hi HQ. apply wp_bind, wp_gets. by eapply wp_array_get. Qed.

Lemma wp_info_set i y Q :
  0 <= i < zlen (info (m_disk m)) ->
  Q tt (W (on (fun d => set_info (insertZ i y (info d)) d) m)) -> wp (info_set i y) Q (W m).
Proof.
  intros Hi HQ. destruct (lookupZ_lt _ _ Hi) as [z Hz]. apply wp_bind. by eapply wp_info_get.
Qed.

Lemma wp_ops_set i y Q :
  0 <= i < zlen (ops (m_disk m)) ->
  Q tt (W (on (fun d => set_ops (insertZ i y (ops d)) d) m)) -> wp (ops_set i y) Q (W m).
Proof.
  intros Hi HQ. destruct (lookupZ_lt _ _ Hi) as [z Hz].
  apply wp_bind, wp_gets, wp_bind. by eapply wp_array_get.
Qed.

Lemma wp_buf_get b y Q :
  lookupZ (m_bufs m) b = Some y -> Q y (W m) -> wp (buf_get b) Q (W m).
Proof. intros Hb HQ. apply wp_bind, wp_gets. by eapply wp_array_get. Qed.

Lemma wp_buf_update b f y Q :
  lookupZ (m_bufs m) b = Some y ->
  Q tt (W (Memory (m_disk m) (insertZ b (f y) (m_bufs m)))) -> wp (buf_update b f) Q (W m).
Proof. intros Hb HQ. apply wp_bind. by eapply wp_buf_get. Qed.
End Access.

(** One access, on an explicit disk. *)
Ltac mem_cbv :=
  cbv beta zeta iota delta [m_disk m_bufs w_mem w_dev w_out set_desc set_avail set_used set_mapped
    set_free set_used_idx set_info set_ops set_initialised desc avail used mapped free used_idx
    info ops initialised av_flags av_idx av_ring in_b in_status].
Ltac in_array := mem_cbv; autorewrite with s3k; cbn; lia.
Ltac mem_step :=
  lazymatch goal with
  | |- wp (bind _ _) _ _ => apply wp_bind
  | |- wp (ret _) _ _ => apply wp_ret
  | |- wp (on_disk _) _ _ => apply wp_modify
  | |- wp (through _) _ _ => apply wp_through; [reflexivity|]
  | |- wp (desc_get _) _ _ => eapply wp_desc_get; [reflexivity|try eassumption|]
  | |- wp (desc_set _ _) _ _ => apply wp_desc_set; [reflexivity|in_array|]
  | |- wp (free_get _) _ _ => eapply wp_free_get; [try reflexivity|]
  | |- wp (free_set _ _) _ _ => apply wp_free_set; [in_array|]
  | |- wp (info_get _) _ _ => eapply wp_info_get; [try eassumption|]
  | |- wp (info_set _ _) _ _ => apply wp_info_set; [in_array|]
  | |- wp (ops_set _ _) _ _ => apply wp_ops_set; [in_array|]
  | |- wp (buf_get _) _ _ => eapply wp_buf_get; [try eassumption|]
  | |- wp (buf_update _ _) _ _ => eapply wp_buf_update; [try eassumption|]
  | |- wp (array_get _ _) _ _ => eapply wp_array_get; [try eassumption|]
  end; mem_cbv.

(** Freeing a descriptor that is in use. *)
Lemma wp_free_desc i mm v o (Q : unit -> world D -> Prop) :
  mapped (m_disk mm) = true -> zlen (desc (m_disk mm)) = 8 -> 0 <= i < 8 ->
  lookupZ (free (m_disk mm)) i = Some 0 ->
  Q tt (World (Memory (set_free (insertZ i 1 (free (m_disk mm)))
                 (set_desc (insertZ i desc0 (desc (m_disk mm))) (m_disk mm))) (m_bufs mm)) v o) ->
  wp (free_desc i) Q (World mm v o).
Proof.
  intros Hm Hd Hi Hf HQ. unfold free_desc, NUM. destruct (Z.leb_spec 8 i); [lia|].
  apply wp_bind. eapply wp_free_get; [done|]. cbn [Z.eqb negb].
  apply wp_bind, wp_desc_set; [done|lia|]. apply wp_free_set; [|exact HQ].
  by apply lookupZ_Some_range in Hf.
Qed.

(** Freeing the chain of the first three descriptors. *)
Lemma wp_free_three mm v o d0 d1 d2 (Q : unit -> world D -> Prop) :
  mapped (m_disk mm) = true -> zlen (desc (m_disk mm)) = 8 ->
  free (m_disk mm) = [0; 0; 0; 1; 1; 1; 1; 1] ->
  lookupZ (desc (m_disk mm)) 0 = Some d0 -> d_next d0 = 1 -> Z.testbit (d_flags d0) 0 = true ->
  lookupZ (desc (m_disk mm)) 1 = Some d1 -> d_next d1 = 2 -> Z.testbit (d_flags d1) 0 = true ->
  lookupZ (desc (m_disk mm)) 2 = Some d2 -> Z.testbit (d_flags d2) 0 = false ->
  Q tt (World (Memory (set_free (replicate 8 1)
                 (set_desc (insertZ 2 desc0 (insertZ 1 desc0 (insertZ 0 desc0 (desc (m_disk mm)))))
                    (m_disk mm))) (m_bufs mm)) v o) ->
  wp (free_chain (Z.to_nat NUM) 0) Q (World mm v o).
Proof.
  intros Hm Hd Hf E0 N0 F0 E1 N1 F1 E2 F2 HQ. change (Z.to_nat NUM) with 8%nat. cbn [free_chain].
  assert (Hbit : forall f, Z.land f VRING_DESC_F_NEXT = Z.b2z (Z.testbit f 0)).
  { intros f. unfold VRING_DESC_F_NEXT. change 1 with (Z.ones 1) at 1.
    by rewrite Z.land_ones, Z.bit0_mod. }
  apply wp_bind. eapply wp_desc_get; [done..|]. rewrite Hbit, F0, N0. cbn [Z.b2z Z.eqb negb].
  apply wp_bind, wp_free_desc; [done|done|lia|by rewrite Hf|].
  apply wp_bind. eapply wp_desc_get; [done|cbn; by rewrite lookupZ_insertZ_ne|]. rewrite Hbit, F1, N1.
  cbn [Z.b2z Z.eqb negb].
  apply wp_bind, wp_free_desc; [done|cbn; by autorewrite with s3k|lia|by cbn; rewrite Hf|].
  apply wp_bind. eapply wp_desc_get; [done|cbn; by rewrite !lookupZ_insertZ_ne|]. rewrite Hbit, F2.
  cbn [Z.b2z Z.eqb negb].
  apply wp_bind, wp_free_desc; [done|cbn; by autorewrite with s3k|lia|by cbn; rewrite Hf|].
  apply wp_ret. revert HQ. cbn. by rewrite Hf.
Qed.

Lemma alloc_ready fuel w Q : free (m_disk (w_mem w)) = replicate 8 1 ->
  Q [0; 1; 2] (World (Memory (set_free [0; 0; 0; 1; 1; 1; 1; 1] (m_disk (w_mem w)))
                        (m_bufs (w_mem w))) (w_dev w) (w_out w)) ->
  wp (alloc_wait (S fuel)) Q w.
Proof. destruct w as [[[] ?] ? ?]. cbn. intros -> HQ. exact HQ. Qed.

Lemma see_submit b write x w Q :
  idle w -> lookupZ (m_bufs (w_mem w)) b = Some x ->
  wp (R_write dev VIRTIO_MMIO_QUEUE_NOTIFY 0) Q
    (World (submitted b write x (w_mem w)) (w_dev w) (w_out w)) ->
  wp (submit dev addr b write [0; 1; 2]) Q
    (World (Memory (set_free [0; 0; 0; 1; 1; 1; 1; 1] (m_disk (w_mem w))) (m_bufs (w_mem w)))
       (w_dev w) (w_out w)).
Proof.
  destruct w as [[[dl al ul mp fl ui il ol ini] bl] dv out]. cbn [w_mem m_disk m_bufs].
  intros (Hm & Hf & Hd & Ha & Hu & Hi & Ho & _) Hb HQ. cbn in *. subst.
  assert (Zd : zlen dl = 8) by (unfold zlen; lia). assert (Zi : zlen il = 8) by (unfold zlen; lia).
  assert (Zo : zlen ol = 8) by (unfold zlen; lia).
  destruct (lookupZ_lt (av_ring al) (av_idx al mod NUM)) as [r Hr].
  { unfold zlen. rewrite Ha. by apply Z.mod_pos_bound. }
  destruct (lookupZ_lt il 0) as [f0 Hf0]; [lia|].
  unfold submit. do 3 (apply wp_bind; eapply wp_array_get; [reflexivity|]).
  do 14 mem_step. do 2 mem_step.
  mem_step. eapply wp_info_get; [mem_cbv; by apply lookupZ_insertZ_eq; lia|]. mem_cbv.
  do 2 mem_step. do 8 mem_step. rewrite insertZ_insertZ. revert HQ. unfold submitted. mem_cbv.
  change (BSIZE / 512) with 1. rewrite Z.mul_1_r. exact (fun H => H).
Qed.

(** ** Waiting for the device *)

Section Waiting.
(** The memory when the device is notified, the contents of the disk then, how the
    device will answer, and the buffer. *)
Context (m1 : memory) (c1 : Z -> list Z) (ans : Z -> Z -> Z) (s0 b : Z) (out : list string).
Context (Hs0 : 0 <= s0 < 2 ^ 16) (Hidx : av_idx (avail (m_disk m1)) = u16 (s0 + 1)).
Context (Hhead : lookupZ (av_ring (avail (m_disk m1))) (s0 mod NUM) = Some 0).
Context (Hproper : is_Some (process at_addr ans 0 [] 0 m1 c1)).

Definition outstanding (n : nat) w : Prop :=
  w_mem w = m1 /\ contents (w_dev w) = c1 /\ seen (w_dev w) = s0 /\
  (delay (w_dev w) <= n)%nat /\ w_out w = out /\ forall t s, status (w_dev w) t s = ans t s.

Definition completed w : Prop :=
  (exists len data, process at_addr ans len data 0 m1 c1 = Some (w_mem w, contents (w_dev w))) /\
  seen (w_dev w) = u16 (s0 + 1) /\ w_out w = out.

(** The device has nothing to do. *)
Definition rests w : Prop := seen (w_dev w) = av_idx (avail (m_disk (w_mem w))).

Lemma u16_succ_ne x : 0 <= x < 2 ^ 16 -> u16 (x + 1) <> x.
Proof.
  intros Hx. unfold u16. destruct (decide (x = 2 ^ 16 - 1)) as [->|]; [done|].
  rewrite Z.mod_small; lia.
Qed.

Lemma see_rests w (Q : unit -> world D -> Prop) :
  rests w ->
  (forall x, seen x = seen (w_dev w) -> contents x = contents (w_dev w) ->
     Q tt (World (w_mem w) x (w_out w))) -> wp (device_runs dev) Q w.
Proof.
  intros Hr HQ. destruct (bd_idle _ _ _ _ _ _ _ Hdev _ _ Hr) as (E1 & E2 & E3).
  apply wp_modify. cbn. rewrite E1. by apply HQ.
Qed.

Lemma see_runs n w (Q : unit -> world D -> Prop) :
  outstanding n w ->
  (forall w' n', outstanding n' w' -> (n' < n)%nat -> Q tt w') ->
  (forall w', completed w' -> Q tt w') -> wp (device_runs dev) Q w.
Proof.
  intros (E1 & E2 & E3 & E4 & E5 & E6) HQ1 HQ2. apply wp_modify.
  destruct (bd_busy _ _ _ _ _ _ _ Hdev (w_mem w) (w_dev w)) as [(F1 & F2 & F3 & F4 & F5)|(len & data & F1 & F2)].
  - rewrite E1, E3, Hidx. apply not_eq_sym, u16_succ_ne, Hs0.
  - unfold next_head. rewrite E1, E2, E3, Hhead, (process_ext _ _ ans) by done. exact Hproper.
  - eapply (HQ1 _ (delay (runs dev (w_mem w) (w_dev w)).2)); [|lia].
    split_and!; cbn; congruence || lia.
  - apply HQ2. split_and!; cbn; [|congruence|done]. exists len, data. revert F1.
    unfold next_head. rewrite E1, E2, E3, Hhead, (process_ext _ _ ans) by done. done.
Qed.

Lemma process_avail len data head m c m' c' :
  process at_addr ans len data head m c = Some (m', c') -> avail (m_disk m') = avail (m_disk m).
Proof. unfold process, mbind, option_bind. repeat (case_match; try done); by intros [= <- <-]. Qed.

Lemma completed_rests w : completed w -> rests w.
Proof.
  intros ((len & data & Hp) & Hs & _). unfold rests. rewrite (process_avail _ _ _ _ _ _ _ Hp). congruence.
Qed.

Lemma see_runs_completed w (Q : unit -> world D -> Prop) :
  completed w -> (forall w', completed w' -> Q tt w') -> wp (device_runs dev) Q w.
Proof.
  intros Hc HQ. apply see_rests; [by apply completed_rests|]. intros x Es Ec. apply HQ.
  destruct Hc as (Hp & Hs & Hout). unfold completed. cbn. by rewrite Es, Ec.
Qed.

(** The request is being worked on, or done. *)
Definition accepted (n : nat) w : Prop := outstanding n w \/ completed w.

Lemma see_runs_accepted n w (Q : unit -> world D -> Prop) :
  accepted n w -> (forall w', accepted n w' -> Q tt w') -> wp (device_runs dev) Q w.
Proof.
  intros [Ho|Hc] HQ.
  - eapply see_runs; [exact Ho| |].
    + intros w' n' (? & ? & ? & ? & ? & ?) Hn. apply HQ. left. split_and!; try done. lia.
    + intros w' Hw'. apply HQ. by right.
  - apply see_runs_completed; [done|]. intros w' Hw'. apply HQ. by right.
Qed.

Lemma completed_ack v w :
  completed w ->
  completed (World (w_mem w) (reg_write dev VIRTIO_MMIO_INTERRUPT_ACK v (w_dev w)) (w_out w)).
Proof.
  destruct (bd_ack _ _ _ _ _ _ _ Hdev v (w_dev w)) as (E1 & E2 & E3 & E4).
  unfold completed. cbn. by rewrite E1, E2.
Qed.

Lemma accepted_ack n v w :
  accepted n w ->
  accepted n (World (w_mem w) (reg_write dev VIRTIO_MMIO_INTERRUPT_ACK v (w_dev w)) (w_out w)).
Proof.
  intros [(F1 & F2 & F3 & F4 & F5 & F6)|Hc]; [left|by right; apply completed_ack].
  destruct (bd_ack _ _ _ _ _ _ _ Hdev v (w_dev w)) as (E1 & E2 & E3 & E4).
  unfold outstanding. cbn. rewrite E1, E2. split_and!; done || lia || congruence.
Qed.

(** Reading the interrupt status takes time. *)
Lemma see_ack n w (Q : unit -> world D -> Prop) :
  outstanding n w ->
  (forall w' n', accepted n' w' -> (n' < n)%nat -> Q tt w') ->
  (forall w', completed w' -> Q tt w') ->
  wp (let* s := R_read dev VIRTIO_MMIO_INTERRUPT_STATUS in
      R_write dev VIRTIO_MMIO_INTERRUPT_ACK (Z.land s 3)) Q w.
Proof.
  intros Ho HQ1 HQ2. apply wp_bind, wp_bind. eapply see_runs; [exact Ho| |].
  - intros w1 n' Hw1 Hn. apply wp_gets, wp_bind.
    eapply (see_runs_accepted n'); [by left|]. intros w2 Hw2. apply wp_modify.
    by eapply HQ1; [apply accepted_ack|].
  - intros w1 Hw1. apply wp_gets, wp_bind, see_runs_completed; [done|]. intros w2 Hw2.
    by apply wp_modify, HQ2, completed_ack.
Qed.
End Waiting.

(** ** A request *)

Section Request.
Context (w0 : world D) (b : Z) (write : bool) (x : buf).
Context (Hidle : idle w0) (Hx : lookupZ (m_bufs (w_mem w0)) b = Some x).

Abbreviation m := (w_mem w0).
Abbreviation d := (m_disk m).
Abbreviation c := (contents (w_dev w0)).
Abbreviation m1 := (submitted b write x m).
Abbreviation s0 := (av_idx (avail d)).
Abbreviation sector := (u32 (b_blockno x)).

(** How the device will answer the request. *)
Definition answer : Z := status (w_dev w0) (if write then VIRTIO_BLK_T_OUT else VIRTIO_BLK_T_IN) sector.

(** The buffer and the disk after the transfer, and with [data] in case of an error. *)
Definition moved : buf := if write then x else set_b_data (c sector) x.
Definition stored : Z -> list Z := if write then fupd c sector (b_data x) else c.
Definition got (data : list Z) : buf :=
  if write then x else set_b_data (if answer =? 0 then c sector else data) x.
Definition put (data : list Z) : Z -> list Z :=
  if write then fupd c sector (if answer =? 0 then b_data x else data) else c.

Definition processed (len : Z) (data : list Z) : memory :=
  let u := used d in
  Memory
    (set_used (VirtqUsed (us_flags u) (u16 (us_idx u + 1))
                 (insertZ (us_idx u mod NUM) (VirtqUsedElem 0 len) (us_ring u)))
       (set_info (insertZ 0 (BlkInfo (Some b) answer) (info d)) (m_disk m1)))
    (insertZ b (set_b_disk 1 (got data)) (m_bufs m)).

Lemma moved_ok data : answer = 0 -> got data = moved.
Proof. intros E. unfold got, moved. by rewrite E. Qed.
Lemma stored_ok data : answer = 0 -> put data = stored.
Proof. intros E. unfold put, stored. by rewrite E. Qed.

Lemma info_len : zlen (info d) = 8.
Proof. destruct Hidle as (_ & _ & _ & _ & _ & H & _). unfold zlen. lia. Qed.

Lemma process_submitted len data :
  process at_addr (status (w_dev w0)) len data 0 m1 c = Some (processed len data, put data).
Proof.
  destruct Hidle as (_ & _ & Hd & _ & _ & Hi & Ho & _).
  assert (Zd : zlen (desc d) = 8) by (unfold zlen; lia).
  assert (Zo : zlen (ops d) = 8) by (unfold zlen; lia). pose proof info_len as Zi.
  unfold process, submitted, processed, put, got, answer. cbn [m_disk m_bufs desc ops info used].
  rewrite (lookupZ_insertZ_ne _ 2 0), (lookupZ_insertZ_ne _ 1 0), (lookupZ_insertZ_eq _ 0) by (done || lia).
  cbn [mbind option_bind d_next d_addr].
  rewrite (lookupZ_insertZ_ne _ 2 1), (lookupZ_insertZ_eq _ 1) by (done || autorewrite with s3k; lia).
  cbn [mbind option_bind d_next d_addr].
  rewrite (lookupZ_insertZ_eq _ 2) by (autorewrite with s3k; lia).
  cbn [mbind option_bind d_next d_addr]. rewrite !Haddr.
  rewrite (lookupZ_insertZ_eq (ops d)), (lookupZ_insertZ_eq (info d)) by lia.
  rewrite (lookupZ_insertZ_eq (m_bufs m)) by (by apply lookupZ_Some_range in Hx).
  cbn [mbind option_bind rq_type rq_sector in_b]. rewrite !insertZ_insertZ.
  by destruct write.
Qed.

(** What the last round of [virtio_disk_intr] leaves. *)
Definition finished (w : world D) : Prop :=
  (exists len data, w_mem w = Memory (set_used_idx (u16 (used_idx d + 1)) (m_disk (processed len data)))
                           (insertZ b (set_b_disk 0 moved) (m_bufs m))) /\
  contents (w_dev w) = stored /\ seen (w_dev w) = u16 (s0 + 1) /\ w_out w = w_out w0.

Abbreviation is_out := (outstanding m1 c (status (w_dev w0)) s0 (w_out w0)).
Abbreviation is_acc := (accepted m1 c (status (w_dev w0)) s0 (w_out w0)).
Abbreviation is_done := (completed m1 c (status (w_dev w0)) s0).

Lemma request_facts :
  0 <= s0 < 2 ^ 16 /\ av_idx (avail (m_disk m1)) = u16 (s0 + 1) /\
  lookupZ (av_ring (avail (m_disk m1))) (s0 mod NUM) = Some 0 /\
  is_Some (process at_addr (status (w_dev w0)) 0 [] 0 m1 c).
Proof.
  destruct Hidle as (_ & _ & _ & Ha & _ & _ & _ & _ & _ & Hs & _).
  split; [done|]. split; [done|]. split; [|by rewrite process_submitted].
  cbn. apply lookupZ_insertZ_eq. unfold zlen. rewrite Ha. by apply Z.mod_pos_bound.
Qed.

(** The world when the device has processed the request. *)
Definition done_world (len : Z) (data : list Z) out w : Prop :=
  w_mem w = processed len data /\ contents (w_dev w) = put data /\ seen (w_dev w) = u16 (s0 + 1) /\
  w_out w = out.

Lemma done_len out w : is_done out w -> exists len data, done_world len data out w.
Proof.
  intros ((len & data & H) & Hs & Ho). rewrite process_submitted in H. injection H as H1 H2.
  exists len, data. by split_and!.
Qed.

Lemma see_done_runs len data out w (Q : unit -> world D -> Prop) :
  done_world len data out w ->
  (forall v, contents v = put data -> seen v = u16 (s0 + 1) ->
     Q tt (World (processed len data) v out)) ->
  wp (device_runs dev) Q w.
Proof.
  intros (E1 & E2 & E3 & E4) HQ. apply see_rests.
  - unfold rests. rewrite E1, E3. done.
  - intros v F1 F2. rewrite E1, E4. apply HQ; congruence.
Qed.

(** A round of the loop of [virtio_disk_intr], after the device has run. *)
Definition intr_round (rest : M (world D) unit) : M (world D) unit :=
  let* d := the_disk in
  let* u := through used in
  if used_idx d =? us_idx u then ret tt else
  do* device_runs dev in
  let* u := through used in
  let* e := array_get (us_ring u) (used_idx d mod NUM) in
  do* device_runs dev in
  let* x := info_get (ue_id e) in
  if negb (in_status x =? 0) then puts_line "virtio_disk_intr status" else
  let* b := deref (in_b x) in
  do* buf_update b (set_b_disk 0) in
  do* on_disk (fun d => set_used_idx (u16 (used_idx d + 1)) d) in
  rest.

(** The completed request is found in the used ring, and its status is read. *)
Lemma see_status len data out w rest (Q : unit -> world D -> Prop) :
  done_world len data out w ->
  (forall v, contents v = put data -> seen v = u16 (s0 + 1) ->
     wp (if negb (answer =? 0) then puts_line "virtio_disk_intr status" else
         do* buf_update b (set_b_disk 0) in
         do* on_disk (fun d => set_used_idx (u16 (used_idx d + 1)) d) in rest)
       Q (World (processed len data) v out)) ->
  wp (intr_round rest) Q w.
Proof.
  intros Hw HQ. destruct Hidle as (Hmap & _ & _ & _ & Hu & _ & _ & Hui & Hur & _ & _). pose proof info_len as Zi.
  destruct w as [? v1 o1], Hw as (E1 & C1 & S1 & E4). cbn in E1, C1, S1, E4. subst.
  apply wp_bind, wp_gets, wp_bind, wp_through; [done|]. cbn [w_mem].
  cbn [m_disk used_idx used processed us_idx us_ring set_used set_info submitted].
  destruct (Z.eqb_spec (used_idx d) (u16 (us_idx (used d) + 1))) as [E|_].
  { rewrite Hui in E. by apply eq_sym, u16_succ_ne in E. }
  apply wp_bind. eapply see_done_runs; [by split_and!|]. intros v2 C2 S2.
  apply wp_bind, wp_through; [done|].
  cbn [m_disk used_idx used processed us_idx us_ring set_used set_info submitted]. apply wp_bind.
  eapply wp_array_get.
  { rewrite Hui. apply lookupZ_insertZ_eq. unfold zlen. rewrite Hu. by apply Z.mod_pos_bound. }
  cbn [ue_id]. apply wp_bind. eapply see_done_runs; [by split_and!|]. intros v3 C3 S3.
  apply wp_bind. eapply wp_info_get; [apply lookupZ_insertZ_eq; lia|]. cbn [in_status in_b].
  specialize (HQ v3 C3 S3). destruct (negb _); [exact HQ|]. apply wp_bind. by eapply wp_deref.
Qed.

Lemma see_collect len data w fuel (Q : unit -> world D -> Prop) :
  answer = 0 -> done_world len data (w_out w0) w -> (forall w', finished w' -> Q tt w') ->
  wp (intr_round (intr_loop dev (S fuel))) Q w.
Proof.
  intros Hok Hw HQ. destruct Hidle as (Hmap & _ & _ & _ & Hu & _ & _ & Hui & Hur & _ & _).
  eapply see_status; [exact Hw|]. intros v3 C3 S3. rewrite Hok. cbn [Z.eqb negb].
  apply wp_bind. eapply wp_buf_update.
  { apply lookupZ_insertZ_eq. by apply lookupZ_Some_range in Hx. }
  cbn [m_disk m_bufs processed]. rewrite insertZ_insertZ. apply wp_bind, wp_modify.
  cbn [w_mem w_dev w_out m_disk m_bufs]. apply wp_bind. apply see_rests; [done|].
  cbn [w_mem w_dev w_out]. intros v4 S4 C4. apply wp_bind, wp_gets, wp_bind, wp_through; [done|].
  cbn [w_mem m_disk used_idx set_used_idx used set_used set_info submitted us_idx].
  rewrite Hui, Z.eqb_refl. rewrite stored_ok in C3 by done.
  apply wp_ret, HQ. split; [exists len, data|split_and!; cbn; congruence].
  cbn. rewrite Hui, moved_ok by done. done.
Qed.

Lemma see_accepted_loop n w fuel (Q : unit -> world D -> Prop) :
  answer = 0 -> is_acc n w -> (forall w', is_out n w' -> Q tt w') -> (forall w', finished w' -> Q tt w') ->
  wp (intr_loop dev (S (S fuel))) Q w.
Proof.
  intros Hok Hw HQ1 HQ2. destruct request_facts as (F1 & F2 & F3 & F4).
  change (intr_loop dev (S (S fuel))) with
    (do* device_runs dev in intr_round (intr_loop dev (S fuel))).
  apply wp_bind. eapply see_runs_accepted; [done..|]. intros w1 [H1|H1].
  - destruct Hidle as (Hmap & _ & _ & _ & _ & _ & _ & Hui & _ & _ & _).
    pose proof H1 as (E1 & _). destruct w1 as [? v1 o1]. cbn in E1. subst.
    apply wp_bind, wp_gets, wp_bind, wp_through; [done|]. cbn [w_mem m_disk used_idx used submitted].
    rewrite Hui, Z.eqb_refl. by apply wp_ret, HQ1.
  - destruct (done_len _ w1 H1) as (len & data & Hlen). by eapply see_collect.
Qed.

Lemma see_done_loop w fuel (Q : unit -> world D -> Prop) :
  answer = 0 -> is_done (w_out w0) w -> (forall w', finished w' -> Q tt w') -> wp (intr_loop dev (S (S fuel))) Q w.
Proof.
  intros Hok Hw HQ. destruct request_facts as (F1 & F2 & F3 & F4).
  change (intr_loop dev (S (S fuel))) with
    (do* device_runs dev in intr_round (intr_loop dev (S fuel))).
  apply wp_bind. eapply see_runs_completed; [done..|]. intros w1 H1.
  destruct (done_len _ w1 H1) as (len & data & Hlen). by eapply see_collect.
Qed.

(** A call of [virtio_disk_intr] sees the device closer to the end, or collects
    the request. *)
Lemma see_intr n w fuel (Q : unit -> world D -> Prop) :
  answer = 0 -> is_acc n w -> (forall w' n', is_out n' w' -> (n' < n)%nat -> Q tt w') ->
  (forall w', finished w' -> Q tt w') ->
  wp (virtio_disk_intr dev (S (S fuel))) Q w.
Proof.
  intros Hok Hw HQ1 HQ2. destruct request_facts as (F1 & F2 & F3 & F4). destruct Hw as [Hw|Hw].
  - apply wp_assoc, wp_bind. eapply see_ack; [done..| |].
    + intros w1 n1 H1 Hn. eapply see_accepted_loop; [done|done| |done]. intros w2 H2. by eapply HQ1.
    + intros w1 H1. by apply see_done_loop.
  - unfold virtio_disk_intr. apply wp_bind, wp_bind. eapply see_runs_completed; [done..|].
    intros w1 H1. apply wp_gets, wp_bind, wp_bind. eapply see_runs_completed; [done..|].
    intros w2 H2. apply wp_modify, see_done_loop; [done|by apply completed_ack|done].
Qed.

Lemma bufs_in : 0 <= b < zlen (m_bufs m).
Proof. by apply lookupZ_Some_range in Hx. Qed.

Lemma accepted_owned n out w : accepted m1 c (status (w_dev w0)) s0 out n w ->
  exists y, lookupZ (m_bufs (w_mem w)) b = Some y /\ b_disk y = 1.
Proof.
  pose proof bufs_in as Hb. intros [(-> & _)|Hw].
  - eexists. split; [by apply lookupZ_insertZ_eq|done].
  - destruct (done_len _ w Hw) as (len & data & -> & _).
    eexists. split; [by apply lookupZ_insertZ_eq|done].
Qed.

Lemma see_wait fuel n w (Q : unit -> world D -> Prop) :
  answer = 0 -> is_acc n w -> (n + 4 <= fuel)%nat -> (forall w', finished w' -> Q tt w') ->
  wp (wait_done dev fuel b) Q w.
Proof.
  intros Hok Hw Hfuel HQ. revert n w Hw Hfuel. induction fuel as [|fuel IH]; [lia|].
  intros n w Hw Hfuel. cbn [wait_done]. destruct (accepted_owned _ _ w Hw) as (y & Hy & Ey).
  apply wp_bind. destruct w as [mw vw ow]. eapply wp_buf_get; [done|]. rewrite Ey. cbn [Z.eqb Pos.eqb].
  destruct fuel as [|[|fuel]]; try lia. apply wp_bind. eapply see_intr; [done|done| |].
  - intros w1 n1 H1 Hn. apply (IH n1); [by left|lia].
  - intros w1 H1. pose proof H1 as ((len & data & E1) & _). destruct w1 as [m1' v1 o1]. cbn in E1. subst.
    cbn [wait_done]. apply wp_bind. eapply wp_buf_get.
    { apply lookupZ_insertZ_eq. apply bufs_in. }
    cbn. by apply wp_ret, HQ.
Qed.

(** The chain is freed when the request has been collected. *)
Lemma see_free w (Q : unit -> world D -> Prop) :
  finished w ->
  (forall w', idle w' -> m_bufs (w_mem w') = insertZ b (set_b_disk 0 moved) (m_bufs m) ->
     contents (w_dev w') = stored -> w_out w' = w_out w0 ->
     initialised (m_disk (w_mem w')) = initialised d -> Q tt w') ->
  wp (let* i0 := array_get [0; 1; 2] 0 in
      let* f := info_get i0 in
      do* info_set i0 (BlkInfo None (in_status f)) in
      free_chain (Z.to_nat NUM) i0) Q w.
Proof.
  intros ((len & data & E1) & E2 & E3 & E4) HQ.
  destruct Hidle as (Hmap & _ & Hd & Ha & Hu & Hi & Ho & Hui & Hur & Hs & _).
  pose proof info_len as Zi. assert (Zd : zlen (desc d) = 8) by (unfold zlen; lia).
  destruct w as [mw v o]. cbn [w_mem w_dev w_out] in E1, E2, E3, E4. subst.
  unfold processed, submitted.
  assert (Hs' : seen v = u16 (av_idx (avail d) + 1)) by done. clear E3.
  generalize dependent (desc d). generalize dependent (info d). generalize dependent (ops d).
  generalize dependent (avail d). generalize dependent (used d).
  generalize dependent (used_idx d). generalize dependent (mapped d). generalize dependent (initialised d).
  intros ini HQ mp -> ui ul Hu Hui Hur. subst ui. intros al Ha Hs Hs' ol Ho il Hi Zi dl Hd Zd.
  apply wp_bind. eapply wp_array_get; [reflexivity|].
  mem_step. eapply wp_info_get; [mem_cbv; by apply lookupZ_insertZ_eq; autorewrite with s3k; lia|].
  mem_cbv. do 2 mem_step. rewrite !insertZ_insertZ.
  apply (wp_free_three _ _ _ (VirtqDesc (addr (POp 0)) 16 VRING_DESC_F_NEXT 1)
    (VirtqDesc (addr (PData b)) BSIZE (Z.lor (if write then 0 else VRING_DESC_F_WRITE) VRING_DESC_F_NEXT) 2)
    (VirtqDesc (addr (PStatus 0)) 1 VRING_DESC_F_WRITE 0)); mem_cbv; try done.
  - autorewrite with s3k. lia.
  - by rewrite !lookupZ_insertZ_ne, lookupZ_insertZ_eq by (done || lia).
  - by rewrite lookupZ_insertZ_ne, lookupZ_insertZ_eq by (done || autorewrite with s3k; lia).
  - by destruct write.
  - by rewrite lookupZ_insertZ_eq by (autorewrite with s3k; lia).
  - apply HQ; try done. unfold idle. cbn. rewrite !length_insertZ.
    split_and!; try done; by apply Z.mod_pos_bound.
Qed.

(** After the notification the device is done within [longest] turns. *)
Lemma see_notify (Q : unit -> world D -> Prop) :
  (forall w, is_acc longest w -> Q tt w) ->
  wp (R_write dev VIRTIO_MMIO_QUEUE_NOTIFY 0) Q (World m1 (w_dev w0) (w_out w0)).
Proof.
  intros HQ. destruct request_facts as (F1 & F2 & F3 & F4).
  destruct Hidle as (_ & _ & _ & _ & _ & _ & _ & _ & _ & _ & Hseen).
  apply wp_bind. eapply (see_runs_accepted _ _ _ _ (w_out w0) F1 F2 F3 F4 (delay (w_dev w0))).
  { left. by split_and!. }
  intros w1 H1. apply wp_modify, HQ.
  destruct (bd_notify _ _ _ _ _ _ _ Hdev (u32 0) (w_dev w1)) as (N1 & N2 & N3 & N4).
  destruct H1 as [(E1 & E2 & E3 & E4 & E5 & E6)|(E1 & E2 & E3)]; [left|right];
    unfold outstanding, completed; cbn [w_mem w_dev w_out]; rewrite N1, N2; split_and!; done || congruence.
Qed.

Lemma request_served fuel :
  answer = 0 -> (longest + 5 <= fuel)%nat ->
  wp (virtio_disk_rw dev addr fuel b write) (fun _ w =>
    idle w /\ m_bufs (w_mem w) = insertZ b (set_b_disk 0 moved) (m_bufs m) /\
    contents (w_dev w) = stored /\ w_out w = w_out w0 /\
    initialised (m_disk (w_mem w)) = initialised d) w0.
Proof.
  intros Hok Hfuel. destruct fuel as [|fuel]; [lia|]. unfold virtio_disk_rw.
  apply wp_bind, alloc_ready; [apply Hidle|]. apply wp_bind, (see_submit b write x w0); [done..|].
  apply see_notify. intros w1 H1.
  apply wp_bind. eapply see_wait; [done|exact H1|lia|]. intros w2 H2. by apply see_free.
Qed.

(** ** A request that fails

    The driver reports it, again and again, and waits for the buffer forever. *)

Section Failed.
Context (Hbad : answer <> 0).

(** Submitted, and not collected. *)
Definition stuck w : Prop := exists n out, accepted m1 c (status (w_dev w0)) s0 out n w.

Lemma stuck_runs w : stuck w -> wp (device_runs dev) (fun _ => stuck) w.
Proof.
  intros (n & out & H). destruct request_facts as (F1 & F2 & F3 & F4).
  eapply see_runs_accepted; [done..|]. intros w' Hw'. by exists n, out.
Qed.

Lemma stuck_ack v w : stuck w ->
  stuck (World (w_mem w) (reg_write dev VIRTIO_MMIO_INTERRUPT_ACK v (w_dev w)) (w_out w)).
Proof. intros (n & out & H). exists n, out. by apply accepted_ack. Qed.

Lemma stuck_loop fuel w : stuck w -> wlp (intr_loop dev fuel) (fun _ => stuck) w.
Proof.
  intros Hw. destruct fuel as [|fuel]; [done|]. apply wlp_wp.
  change (intr_loop dev (S fuel)) with (do* device_runs dev in intr_round (intr_loop dev fuel)).
  apply wp_bind. eapply wp_mono; [by apply stuck_runs|]. intros _ w1 (n & out & [H1|H1]).
  - destruct Hidle as (Hmap & _ & _ & _ & _ & _ & _ & Hui & _ & _ & _).
    pose proof H1 as (E1 & _). destruct w1 as [? v1 o1]. cbn in E1. subst.
    apply wp_bind, wp_gets, wp_bind, wp_through; [done|]. cbn [w_mem m_disk used_idx used submitted].
    rewrite Hui, Z.eqb_refl. apply wp_ret. exists n, out. by left.
  - destruct (done_len _ _ H1) as (len & data & Hd). eapply see_status; [exact Hd|]. intros v C S.
    apply Z.eqb_neq in Hbad. rewrite Hbad. apply wp_modify. exists 0%nat, (out ++ ["virtio_disk_intr status"%string]).
    right. split; [exists len, data; by rewrite process_submitted, <- C|done].
Qed.

Lemma stuck_wait fuel : forall w, stuck w -> wlp (wait_done dev fuel b) (fun _ _ => False) w.
Proof.
  induction fuel as [|fuel IH]; intros w Hw; [done|]. cbn [wait_done].
  pose proof Hw as (n & out & Hacc). destruct (accepted_owned _ _ _ Hacc) as (y & Hy & Ey).
  destruct w as [mw vw ow]. apply wlp_bind, wlp_wp. eapply wp_buf_get; [done|]. rewrite Ey. cbn [Z.eqb Pos.eqb].
  apply wlp_bind. apply (wlp_mono _ (fun _ => stuck)); [|intros [] w' Hw'; by apply IH]. unfold virtio_disk_intr, R_read, R_write.
  apply wlp_bind, wlp_wp, wp_bind. eapply wp_mono; [by apply stuck_runs|]. intros [] w1 H1. apply wp_gets.
  apply wlp_bind, wlp_wp, wp_bind. eapply wp_mono; [by apply stuck_runs|]. intros [] w2 H2. apply wp_modify.
  by apply stuck_loop, stuck_ack.
Qed.

Lemma request_stuck fuel : virtio_disk_rw dev addr fuel b write w0 = Fault OutOfFuel.
Proof.
  assert (H : wlp (virtio_disk_rw dev addr fuel b write) (fun _ _ => False) w0).
  { unfold virtio_disk_rw. destruct fuel as [|fuel]; [done|].
    apply wlp_bind, wlp_wp, alloc_ready; [apply Hidle|].
    apply wlp_bind, wlp_wp, (see_submit b write x w0); [done..|]. apply see_notify. intros w1 H1.
    apply wlp_bind. apply (wlp_mono _ (fun _ _ => False)); [|intros ? ? []]. apply stuck_wait. by exists longest, (w_out w0). }
  unfold wlp, wpe in H. destruct (virtio_disk_rw _ _ _ _ _ w0); [done|by rewrite H].
Qed.
End Failed.
End Request.

(** [C39]: A disk request transfers its sector and ends, or fails and does not.  From
    a state between requests, with any device that keeps the contract: if the
    device answers the request with status 0, [virtio_disk_rw] returns within the
    fuel; a write stores the data of the buffer in the sector of its block number
    and changes no other sector, a read fills the buffer with the contents of the
    sector and changes none; the other buffers stay as they are, nothing is
    printed, and the driver is between requests again, with all descriptors free.
    If it answers with an error, [virtio_disk_rw] never returns. *)
Theorem disk_rw_transfers fuel w b (write : bool) x :
  idle w -> lookupZ (m_bufs (w_mem w)) b = Some x ->
  let sector := u32 (b_blockno x) in
  let c := contents (w_dev w) in
  if status (w_dev w) (if write then VIRTIO_BLK_T_OUT else VIRTIO_BLK_T_IN) sector =? 0
  then (longest + 5 <= fuel)%nat ->
    wp (virtio_disk_rw dev addr fuel b write) (fun _ w' =>
      idle w' /\
      m_bufs (w_mem w') =
        insertZ b (set_b_disk 0 (if write then x else set_b_data (c sector) x)) (m_bufs (w_mem w)) /\
      contents (w_dev w') = (if write then fupd c sector (b_data x) else c) /\
      w_out w' = w_out w) w
  else virtio_disk_rw dev addr fuel b write w = Fault OutOfFuel.
Proof.
  intros Hidle Hx sector c. destruct (Z.eqb_spec (status (w_dev w) (if write then VIRTIO_BLK_T_OUT else VIRTIO_BLK_T_IN) sector) 0) as [E|E].
  - intros Hfuel. eapply wp_mono; [by apply (request_served w b write x Hidle Hx fuel E)|].
    intros _ w' (E1 & E2 & E3 & E4 & _). exact (conj E1 (conj E2 (conj E3 E4))).
  - by apply (request_stuck w b write x).
Qed.

(** From here on no request fails. *)
Context (Hanswers : forall x t s, status x t s = 0).

(** ** Several sectors *)

Lemma copy_block_eq off src dst Q w :
  0 <= off -> zlen src = BSIZE -> off + BSIZE <= zlen dst ->
  Q (take (Z.to_nat off) dst ++ src ++ drop (Z.to_nat (off + BSIZE)) dst) w ->
  wp (copy_block (D := D) off src dst) Q w.
Proof.
  intros H1 H2 H3 HQ. unfold copy_block. destruct (Z.leb_spec (off + BSIZE) (zlen dst)); [|lia].
  by apply wp_ret.
Qed.

(** Block [k] times. *)
Definition copies (k : nat) (block : list Z) : list Z := concat (replicate k block).

Section Reading.
Context (sector : Z) (Hsector : 0 <= sector < 2 ^ 32).

(** One round of the loop of [disk_read], when the pointer is behind [pre]. *)
Lemma see_read_round fuel w b x (Q : list Z -> world D -> Prop) pre rest :
  idle w -> lookupZ (m_bufs (w_mem w)) b = Some x -> (longest + 5 <= fuel)%nat ->
  BSIZE <= zlen rest -> zlen (contents (w_dev w) sector) = BSIZE ->
  (forall w' y, idle w' -> lookupZ (m_bufs (w_mem w')) b = Some y ->
     contents (w_dev w') = contents (w_dev w) -> w_out w' = w_out w ->
     initialised (m_disk (w_mem w')) = initialised (m_disk (w_mem w)) ->
     Q (pre ++ contents (w_dev w) sector ++ drop 512 rest) w') ->
  wp (do* buf_update b (set_b_blockno (u32 sector)) in
      do* buf_update b (set_b_data (replicate 512 0)) in
      do* virtio_disk_rw dev addr fuel b false in
      let* x := buf_get b in copy_block (zlen pre) (b_data x) (pre ++ rest)) Q w.
Proof.
  intros Hidle Hx Hfuel Hlen Hblk HQ. pose proof (lookupZ_Some_range _ _ _ Hx) as Hb.
  destruct w as [[d0 bufs0] v0 out0]. cbn [w_mem m_bufs w_dev w_out] in *.
  apply wp_bind. eapply wp_buf_update; [done|]. cbn [m_disk m_bufs].
  apply wp_bind. eapply wp_buf_update; [by apply lookupZ_insertZ_eq|]. cbn [m_disk m_bufs].
  rewrite insertZ_insertZ. apply wp_bind. eapply wp_mono.
  { eapply (request_served _ b false); [exact Hidle| |apply Hanswers|done]. by apply lookupZ_insertZ_eq. }
  intros [] [[d1 bufs1] v1 out1] (H1 & H2 & H3 & H4 & H5). cbn [w_mem m_bufs w_dev w_out] in *. subst.
  unfold stored in H3. cbn [w_dev] in H3.
  apply wp_bind. eapply wp_buf_get.
  { cbn [m_bufs]. apply lookupZ_insertZ_eq. by autorewrite with s3k. }
  unfold moved. cbn [b_data set_b_disk set_b_data b_blockno set_b_blockno w_dev].
  assert (u32 (u32 sector) = sector) as -> by (unfold u32; rewrite Z.mod_mod, Z.mod_small; lia).
  assert (Hpre : Z.to_nat (zlen pre) = length pre) by (unfold zlen; lia).
  apply copy_block_eq; [unfold zlen; lia|exact Hblk|rewrite zlen_app; lia|].
  rewrite Hpre, take_app_length.
  replace (Z.to_nat (zlen pre + BSIZE)) with (length pre + 512)%nat by (unfold BSIZE, zlen; lia).
  rewrite drop_app_add. eapply HQ; [done| |done|done|done].
  cbn [m_bufs w_mem]. apply lookupZ_insertZ_eq. by autorewrite with s3k.
Qed.

Lemma read_loop_round fuel b buff off count w Q :
  wp (let* buff := (do* buf_update b (set_b_blockno (u32 sector)) in
      do* buf_update b (set_b_data (replicate 512 0)) in
      do* virtio_disk_rw dev addr (S fuel) b false in
      let* x := buf_get b in copy_block off (b_data x) buff) in
      let count := u32 (count - 1) in
      if count =? 0 then ret buff else read_loop dev addr fuel b buff (off + BSIZE) sector count) Q w ->
  wp (read_loop dev addr (S fuel) b buff off sector count) Q w.
Proof.
  apply wp_ext. cbn [read_loop]. rewrite bind_assoc. unfold bind.
  destruct (buf_update b (set_b_blockno (u32 sector)) w) as [[] w1|]; [|done].
  destruct (buf_update b (set_b_data (replicate 512 0)) w1) as [[] w2|]; [|done].
  destruct (virtio_disk_rw dev addr (S fuel) b false w2) as [[] w3|]; [|done].
  by destruct (buf_get b w3).
Qed.

Lemma see_read_loop n : forall fuel w b x (Q : list Z -> world D -> Prop) pre rest,
  idle w -> lookupZ (m_bufs (w_mem w)) b = Some x -> (longest + 5 + n <= fuel)%nat ->
  Z.of_nat (S n) * BSIZE <= zlen rest -> Z.of_nat (S n) < 2 ^ 32 ->
  zlen (contents (w_dev w) sector) = BSIZE ->
  (forall w' y, idle w' -> contents (w_dev w') = contents (w_dev w) -> w_out w' = w_out w ->
     initialised (m_disk (w_mem w')) = initialised (m_disk (w_mem w)) -> lookupZ (m_bufs (w_mem w')) b = Some y ->
     Q (pre ++ copies (S n) (contents (w_dev w) sector) ++ drop (S n * 512) rest) w') ->
  wp (read_loop dev addr fuel b (pre ++ rest) (zlen pre) sector (Z.of_nat (S n))) Q w.
Proof.
  induction n as [|n IH]; intros fuel w b x Q pre rest Hidle Hx Hfuel Hlen Hn Hblk HQ;
    (destruct fuel as [|fuel]; [lia|]); apply read_loop_round, wp_bind;
    (eapply see_read_round; [done|done|lia|unfold BSIZE in *; lia|done|]); intros w1 y H1 Hy C1 O1 I1; cbn zeta.
  - apply wp_ret. specialize (HQ w1 y H1 C1 O1 I1 Hy). unfold copies in HQ. cbn [replicate concat] in HQ.
    by rewrite app_nil_r in HQ.
  - assert (u32 (Z.of_nat (S (S n)) - 1) = Z.of_nat (S n)) as ->
      by (unfold u32; rewrite Z.mod_small; lia).
    destruct (Z.eqb_spec (Z.of_nat (S n)) 0); [lia|].
    rewrite app_assoc. replace (zlen pre + BSIZE) with (zlen (pre ++ contents (w_dev w) sector))
      by (rewrite zlen_app; lia).
    eapply (IH fuel); [done|done|lia| |lia|by rewrite C1|].
    + unfold zlen in *. rewrite length_drop. unfold BSIZE in *. lia.
    + intros w2 y2 H2 C2 O2 I2 Hy2. rewrite C1, drop_drop, <- app_assoc.
      specialize (HQ w2 y2 H2 ltac:(congruence) ltac:(congruence) ltac:(congruence) Hy2). revert HQ.
      change (copies (S (S n)) (contents (w_dev w) sector)) with
        (contents (w_dev w) sector ++ copies (S n) (contents (w_dev w) sector)).
      rewrite <- !app_assoc. done.
Qed.
End Reading.

(** [disk_read] of one sector delivers it.  From a state between requests,
    for a drive that is initialised and an array with room, reading [count]
    sectors returns [RES_OK] within the fuel, and fills the beginning of the array
    with [count] blocks; each of them is the contents of the first sector, so that
    the result is that of the sectors asked for when [count] is one.  The disk
    does not change. *)
Theorem disk_read_blocks fuel w b x buff sector count :
  idle w -> initialised (m_disk (w_mem w)) <> 0 -> lookupZ (m_bufs (w_mem w)) b = Some x ->
  0 <= sector < 2 ^ 32 -> zlen (contents (w_dev w) sector) = BSIZE ->
  0 < count < 2 ^ 32 -> count * BSIZE <= zlen buff ->
  (longest + 5 + Z.to_nat count <= fuel)%nat ->
  wp (disk_read dev addr fuel b DEV_VIRTIO buff sector count) (fun r w' =>
    r = (RES_OK, copies (Z.to_nat count) (contents (w_dev w) sector) ++
                 drop (Z.to_nat count * 512) buff) /\
    idle w' /\ contents (w_dev w') = contents (w_dev w) /\ w_out w' = w_out w) w.
Proof.
  intros Hidle Hinit Hx Hsector Hblocks Hcount Hlen Hfuel. unfold disk_read. cbn [Z.eqb DEV_VIRTIO].
  apply wp_bind. do 2 apply wp_bind. apply wp_gets, wp_ret.
  destruct (Z.eqb_spec (initialised (m_disk (w_mem w))) 0); [done|]. apply wp_ret. cbn [Z.land Z.eqb negb].
  apply wp_bind. destruct (Z.to_nat count) as [|k] eqn:En; [lia|].
  replace count with (Z.of_nat (S k)) by lia.
  apply (see_read_loop sector Hsector k fuel w b x _ [] buff); [done|done|lia|lia|lia|done|].
  intros w' y H1 H2 H3 _ _. by apply wp_ret.
Qed.

(** A transfer of one sector, of a drive that is initialised. *)
Lemma see_read_sector fuel w b x buff sector (Q : Z * list Z -> world D -> Prop) :
  idle w -> initialised (m_disk (w_mem w)) <> 0 -> lookupZ (m_bufs (w_mem w)) b = Some x ->
  0 <= sector < 2 ^ 32 -> zlen (contents (w_dev w) sector) = BSIZE -> BSIZE <= zlen buff ->
  (longest + 5 <= fuel)%nat ->
  (forall w' y, idle w' -> initialised (m_disk (w_mem w')) <> 0 -> lookupZ (m_bufs (w_mem w')) b = Some y ->
     contents (w_dev w') = contents (w_dev w) ->
     Q (RES_OK, contents (w_dev w) sector ++ drop 512 buff) w') ->
  wp (disk_read dev addr fuel b DEV_VIRTIO buff sector 1) Q w.
Proof.
  intros Hidle Hinit Hx Hs Hblk Hlen Hfuel HQ. unfold disk_read. cbn [Z.eqb DEV_VIRTIO].
  apply wp_bind. do 2 apply wp_bind. apply wp_gets, wp_ret.
  destruct (Z.eqb_spec (initialised (m_disk (w_mem w))) 0); [done|]. apply wp_ret. cbn [Z.land Z.eqb negb].
  apply wp_bind. apply (see_read_loop sector Hs 0 fuel w b x _ [] buff); [done|done|lia|lia|lia|done|].
  intros w' y H1 H2 H3 H4 H5. apply wp_ret. unfold copies. cbn [replicate concat app].
  rewrite app_nil_r. apply (HQ w' y); congruence.
Qed.

Lemma see_write_sector fuel w b x buff sector (Q : Z -> world D -> Prop) :
  idle w -> initialised (m_disk (w_mem w)) <> 0 -> lookupZ (m_bufs (w_mem w)) b = Some x ->
  0 <= sector < 2 ^ 32 -> BSIZE <= zlen buff -> (longest + 5 <= fuel)%nat ->
  (forall w' y, idle w' -> initialised (m_disk (w_mem w')) <> 0 -> lookupZ (m_bufs (w_mem w')) b = Some y ->
     contents (w_dev w') = fupd (contents (w_dev w)) sector (take 512 buff) -> Q RES_OK w') ->
  wp (disk_write dev addr fuel b DEV_VIRTIO buff sector 1) Q w.
Proof.
  intros Hidle Hinit Hx Hs Hlen Hfuel HQ. unfold disk_write. cbn [Z.eqb DEV_VIRTIO].
  apply wp_bind. do 2 apply wp_bind. apply wp_gets, wp_ret.
  destruct (Z.eqb_spec (initialised (m_disk (w_mem w))) 0); [done|]. apply wp_ret. cbn [Z.land Z.eqb negb].
  destruct fuel as [|fuel]; [lia|]. cbn [write_loop]. destruct w as [[d0 bufs0] v0 out0].
  cbn [w_mem m_bufs m_disk w_dev w_out] in *. pose proof (lookupZ_Some_range _ _ _ Hx) as Hb.
  do 2 apply wp_bind. eapply wp_buf_update; [done|]. cbn [m_disk m_bufs]. apply wp_bind.
  unfold BSIZE in *. destruct (Z.leb_spec (0 + 512) (zlen buff)); [|lia]. apply wp_ret, wp_bind.
  eapply wp_buf_update; [by apply lookupZ_insertZ_eq|]. cbn [m_disk m_bufs]. rewrite insertZ_insertZ.
  apply wp_bind. eapply wp_mono.
  { eapply (request_served _ b true); [exact Hidle| |apply Hanswers|done]. by apply lookupZ_insertZ_eq. }
  intros [] [[d1 bufs1] v1 out1] (H1 & H2 & H3 & H4 & H5). cbn [w_mem m_bufs w_dev w_out m_disk] in *. subst.
  change (u32 (1 - 1) =? 0) with true. cbv iota. apply wp_ret, wp_ret. eapply HQ; [done|cbn; congruence| |].
  - cbn [m_bufs w_mem]. apply lookupZ_insertZ_eq. by autorewrite with s3k.
  - cbn [w_dev]. rewrite H3. unfold stored. cbn [w_dev b_blockno b_data set_b_blockno set_b_data].
    unfold u32. by rewrite Z.mod_mod, Z.mod_small by lia.
Qed.
End Driver.

(** ** A device that keeps the contract *)

(** Addresses that can be told apart. *)
Definition plain_addr (p : place) : Z :=
  match p with POp i => 3 * i | PData b => 3 * b + 1 | PStatus i => 3 * i + 2 end.
Definition plain_place (z : Z) : option place :=
  Some (if z mod 3 =? 0 then POp (z / 3) else if z mod 3 =? 1 then PData (z / 3) else PStatus (z / 3)).

Lemma plain_place_addr p : plain_place (plain_addr p) = Some p.
Proof.
  assert (H : forall i r, 0 <= r < 3 -> (3 * i + r) mod 3 = r /\ (3 * i + r) / 3 = i)
    by (intros; Z.div_mod_to_equations; lia).
  unfold plain_place, plain_addr. destruct p as [i|i|i]; [|destruct (H i 1) as [-> ->]; lia || done
    |destruct (H i 2) as [-> ->]; lia || done].
  rewrite <- (Z.add_0_r (3 * i)). by destruct (H i 0) as [-> ->].
Qed.

(** A disk that takes three turns for a request. *)
Record plain := Plain { pl_contents : Z -> list Z; pl_seen : Z; pl_delay : nat }.

(** It answers by the type and sector of the request. *)
Definition answering_device (ans : Z -> Z -> Z) : device plain := Device plain
  (fun r _ =>
     if r =? VIRTIO_MMIO_MAGIC_VALUE then 0x74726976
     else if r =? VIRTIO_MMIO_VERSION then 1
     else if r =? VIRTIO_MMIO_DEVICE_ID then 2
     else if r =? VIRTIO_MMIO_VENDOR_ID then 0x554d4551
     else if r =? VIRTIO_MMIO_QUEUE_NUM_MAX then 1024 else 0)
  (fun r _ x => if r =? VIRTIO_MMIO_QUEUE_NOTIFY then Plain (pl_contents x) (pl_seen x) 3 else x)
  (fun m x =>
     if pl_seen x =? av_idx (avail (m_disk m)) then (m, x)
     else match pl_delay x with
          | S n => (m, Plain (pl_contents x) (pl_seen x) n)
          | O => match process plain_place ans 0 (replicate 512 0) (next_head pl_seen m x) m (pl_contents x) with
                 | Some (m', c') => (m', Plain c' (u16 (pl_seen x + 1)) 0)
                 | None => (m, x)
                 end
          end).

Lemma answering_keeps ans :
  block_device (answering_device ans) plain_place pl_contents pl_seen (fun _ => ans) pl_delay 3.
Proof.
  split.
  - intros m x E. cbn. by rewrite E, Z.eqb_refl.
  - intros m x E H. cbn. destruct (Z.eqb_spec (pl_seen x) (av_idx (avail (m_disk m)))); [done|].
    destruct (pl_delay x) as [|turns]; [right|left; cbn; auto with lia]. exists 0, (replicate 512 0).
    apply (process_some _ _ _ _ 0 (replicate 512 0)) in H.
    by destruct (process _ _ _ _ _ _ _) as [[]|]; [|by destruct H].
  - intros v x. done.
  - intros v x. done.
Qed.

(** A device that answers all requests with success, and one that has [limit] sectors. *)
Definition plain_device : device plain := answering_device (fun _ _ => 0).
Definition plain_keeps := answering_keeps (fun _ _ => 0).
Definition IOERR : Z := 1.
Definition limited (limit : Z) (_ s : Z) : Z := if s <? limit then 0 else IOERR.

(** The driver after [virtio_disk_init], with one buffer for block 5. *)
Definition plain_world : world plain :=
  World (Memory disk_bss [Buf 0 0 0 5 0 (replicate 512 9)])
    (Plain (fun s => replicate 512 s) 0 3) [].
Definition ready : world plain :=
  match virtio_disk_init plain_device 0x80030000 plain_world with Done _ w => w | Fault _ => plain_world end.

Lemma ready_idle : idle pl_seen ready.
Proof. vm_compute. intuition congruence. Qed.

(** Block 5 is written to a disk of 20480 sectors, and not to one of two. *)
Example disk_rw_transfers_witness :
  wp (virtio_disk_rw (answering_device (limited 20480)) plain_addr 100 0 true) (fun _ w' =>
    idle pl_seen w' /\
    m_bufs (w_mem w') = insertZ 0 (Buf 0 0 0 5 0 (replicate 512 9)) (m_bufs (w_mem ready)) /\
    pl_contents (w_dev w') = fupd (fun s => replicate 512 s) 5 (replicate 512 9) /\
    w_out w' = w_out ready) ready /\
  virtio_disk_rw (answering_device (limited 2)) plain_addr 100 0 true ready = Fault OutOfFuel.
Proof.
  pose proof (fun limit => disk_rw_transfers (answering_device (limited limit)) plain_addr plain_place pl_contents
    pl_seen (fun _ => limited limit) pl_delay 3 (answering_keeps _) plain_place_addr 100 ready 0 true
    (Buf 0 0 0 5 0 (replicate 512 9)) ready_idle eq_refl) as H.
  exact (conj (H 20480 ltac:(lia)) (H 2)).
Defined.

Example disk_read_blocks_witness :
  wp (disk_read plain_device plain_addr 100 0 DEV_VIRTIO (replicate 1024 1) 7 2) (fun r w' =>
    r = (RES_OK, copies 2 (replicate 512 7) ++ []) /\
    idle pl_seen w' /\ pl_contents (w_dev w') = pl_contents (w_dev ready) /\
    w_out w' = w_out ready) ready.
Proof.
  refine (disk_read_blocks plain_device plain_addr plain_place pl_contents pl_seen (fun _ _ _ => 0) pl_delay 3
    plain_keeps plain_place_addr (fun _ _ _ => eq_refl) 100 ready 0 (Buf 0 0 0 5 0 (replicate 512 9)) (replicate 1024 1) 7 2
    ready_idle _ eq_refl _ _ _ _ _).
  all: vm_compute; (reflexivity || intuition congruence || lia).
Defined.

(** ** Initialisation *)

(** The registers [virtio_disk_init] writes. *)
Definition setup_registers : list Z :=
  [VIRTIO_MMIO_STATUS; VIRTIO_MMIO_DRIVER_FEATURES; VIRTIO_MMIO_GUEST_PAGE_SIZE; VIRTIO_MMIO_QUEUE_SEL;
   VIRTIO_MMIO_QUEUE_NUM; VIRTIO_MMIO_QUEUE_PFN].

Section Init.
Context {D : Type} (dev : device D) (at_addr : Z -> option place) (pages_addr : Z).
Context (contents : D -> Z -> list Z) (seen : D -> Z) (status : D -> Z -> Z -> Z).
Context (delay : D -> nat) (longest : nat).
Context (Hdev : block_device dev at_addr contents seen status delay longest).

(** Setting up takes no request and does not change the disk; the size of the queue
    is a constant of the device. *)
Record block_setup (max : Z) : Prop := {
  bs_write r v x : In r setup_registers ->
    seen (reg_write dev r v x) = seen x /\ contents (reg_write dev r v x) = contents x;
  bs_queue x : u32 (reg_read dev VIRTIO_MMIO_QUEUE_NUM_MAX x) = max
}.
Context (max : Z) (Hset : block_setup max).

(** Before the first request: the structure is zeroed and the device has seen nothing. *)
Definition unused (w : world D) : Prop :=
  m_disk (w_mem w) = disk_bss /\ seen (w_dev w) = 0.

(** The memory is [m], the disk is [c], and the device is waiting. *)
Definition waiting (m : memory) (c : Z -> list Z) (w : world D) : Prop :=
  w_mem w = m /\ seen (w_dev w) = av_idx (avail (m_disk m)) /\ contents (w_dev w) = c.

Lemma see_R_read m c r w Q : waiting m c w ->
  (forall w', waiting m c w' -> Q (u32 (reg_read dev r (w_dev w'))) w') -> wp (R_read dev r) Q w.
Proof.
  intros (Hm & Hs & Hc) HQ. unfold R_read, device_runs. apply wp_bind, wp_modify, wp_gets.
  rewrite Hm. destruct (bd_idle _ _ _ _ _ _ _ Hdev m (w_dev w) Hs) as (E1 & E2 & E3).
  apply (HQ (World _ _ _)). split; [done|]. cbn. split; congruence.
Qed.

Lemma see_R_write m c r v w Q : waiting m c w -> In r setup_registers ->
  (forall w', waiting m c w' -> Q tt w') -> wp (R_write dev r v) Q w.
Proof.
  intros (Hm & Hs & Hc) Hr HQ. unfold R_write, device_runs. apply wp_bind, wp_modify, wp_modify.
  rewrite Hm. destruct (bd_idle _ _ _ _ _ _ _ Hdev m (w_dev w) Hs) as (E1 & E2 & E3).
  destruct (bs_write _ Hset r (u32 v) (runs dev m (w_dev w)).2 Hr) as (F1 & F2).
  apply HQ. split; [done|]. cbn. split; congruence.
Qed.

Lemma see_puts m c msg w Q : waiting m c w -> (forall w', waiting m c w' -> Q tt w') -> wp (puts_line msg) Q w.
Proof. intros Hw HQ. apply wp_modify, HQ. exact Hw. Qed.

Lemma see_on_disk m c f w Q : waiting m c w -> av_idx (avail (f (m_disk m))) = av_idx (avail (m_disk m)) ->
  (forall w', waiting (Memory (f (m_disk m)) (m_bufs m)) c w' -> Q tt w') -> wp (on_disk f) Q w.
Proof.
  intros (Hm & Hs & Hc) Hf HQ. apply wp_modify, HQ. rewrite Hm. split; [done|]. cbn. by rewrite Hf.
Qed.

Lemma see_free_set d bufs c i w Q : waiting (Memory d bufs) c w -> 0 <= i < zlen (free d) ->
  (forall w', waiting (Memory (set_free (insertZ i 1 (free d)) d) bufs) c w' -> Q tt w') -> wp (free_set i 1) Q w.
Proof.
  intros Hw Hi HQ. unfold free_set, free_get, the_disk. apply wp_bind, wp_bind, wp_gets.
  pose proof Hw as (-> & _ & _). cbn [m_disk]. destruct (lookupZ_lt _ _ Hi) as [x Ex]. eapply wp_array_get; [exact Ex|].
  eapply see_on_disk; [exact Hw|done|exact HQ].
Qed.

(** All descriptors become free. *)
Lemma see_free_all d bufs c w Q : waiting (Memory d bufs) c w -> zlen (free d) = 8 ->
  (forall w', waiting (Memory (set_free (replicate 8 1) d) bufs) c w' -> Q tt w') ->
  wp (for_range 0 NUM (fun i => free_set i 1)) Q w.
Proof.
  intros Hw Hl HQ.
  apply (wp_for_range (fun j w' => exists f, waiting (Memory (set_free f d) bufs) c w' /\ zlen f = 8 /\
    forall i, 0 <= i < j -> lookupZ f i = Some 1)).
  - exists (free d). split; [by destruct d|]. split; [done|]. lia.
  - intros j w' Hj (f & Hw' & Hf & Hone). unfold NUM in Hj. eapply see_free_set; [exact Hw'|cbn; lia|].
    intros w2 Hw2. exists (insertZ j 1 f). split; [done|]. split; [by rewrite zlen_insertZ|].
    intros i Hi. rewrite lookupZ_insertZ by lia. destruct (Z.eqb_spec i j); [done|]. apply Hone. lia.
  - intros w' (f & Hw' & Hf & Hone). apply HQ. assert (f = replicate 8 1) as <-; [|done].
    apply lookupZ_ext; [done|]. intros i Hi. rewrite Hone by (unfold NUM; lia).
    assert (exists k, (k < 8)%nat /\ i = Z.of_nat k) as (k & Hk & ->) by (exists (Z.to_nat i); lia).
    do 8 (destruct k as [|k]; [done|]). lia.
Qed.

Ltac registers := unfold setup_registers; cbn [In]; tauto.

(** The handshake, whatever the device says. *)
Lemma see_handshake m c w (k : M (world D) unit) Q : waiting m c w -> (forall w', waiting m c w' -> wp k Q w') ->
  wp (let* magic := R_read dev VIRTIO_MMIO_MAGIC_VALUE in
      let* bad := (if negb (magic =? 0x74726976) then ret true else
        let* version := R_read dev VIRTIO_MMIO_VERSION in
        if negb (version =? 1) then ret true else
        let* id := R_read dev VIRTIO_MMIO_DEVICE_ID in
        if negb (id =? 2) then ret true else
        let* vendor := R_read dev VIRTIO_MMIO_VENDOR_ID in
        ret (negb (vendor =? 0x554d4551))) in
      do* (if bad : bool then puts_line "could not find virtio disk"%string else ret tt) in k) Q w.
Proof.
  intros Hw HQ. apply wp_bind. eapply see_R_read; [exact Hw|]. intros w1 Hw1. apply wp_bind.
  apply (wp_mono _ (fun _ w' => waiting m c w')).
  - destruct (negb _); [by apply wp_ret|]. apply wp_bind. eapply see_R_read; [exact Hw1|]. intros w2 Hw2.
    destruct (negb _); [by apply wp_ret|]. apply wp_bind. eapply see_R_read; [exact Hw2|]. intros w3 Hw3.
    destruct (negb _); [by apply wp_ret|]. apply wp_bind. eapply see_R_read; [exact Hw3|]. intros w4 Hw4. by apply wp_ret.
  - intros bad w2 Hw2. apply wp_bind. destruct bad; [eapply see_puts; [exact Hw2|exact HQ]|by apply wp_ret, HQ].
Qed.

Lemma see_disk_init w (Q : unit -> world D -> Prop) : unused w ->
  (forall w', m_bufs (w_mem w') = m_bufs (w_mem w) -> contents (w_dev w') = contents (w_dev w) ->
     seen (w_dev w') = 0 -> m_disk (w_mem w') = (if max <? NUM then disk_bss else
       VirtioDisk.set_initialised 1 (set_free (replicate 8 1) (set_mapped true disk_bss))) -> Q tt w') ->
  wp (virtio_disk_init dev pages_addr) Q w.
Proof.
  intros [Hd Hs] HQ. set (m := Memory disk_bss (m_bufs (w_mem w))).
  assert (waiting m (contents (w_dev w)) w) as Hw.
  { split; [subst m; rewrite <- Hd; by destruct (w_mem w)|]. by rewrite Hs. }
  unfold virtio_disk_init. cbv zeta. eapply see_handshake; [exact Hw|]. clear Hw. intros w1 Hw1.
  apply wp_bind. eapply see_R_write; [exact Hw1|registers|]. intros w2 Hw2.
  apply wp_bind. eapply see_R_write; [exact Hw2|registers|]. intros w3 Hw3.
  apply wp_bind. eapply see_R_read; [exact Hw3|]. intros w4 Hw4.
  apply wp_bind. eapply see_R_write; [exact Hw4|registers|]. intros w5 Hw5.
  apply wp_bind. eapply see_R_write; [exact Hw5|registers|]. intros w6 Hw6.
  apply wp_bind. eapply see_R_write; [exact Hw6|registers|]. intros w7 Hw7.
  apply wp_bind. eapply see_R_write; [exact Hw7|registers|]. intros w8 Hw8.
  apply wp_bind. eapply see_R_write; [exact Hw8|registers|]. intros w9 Hw9.
  apply wp_bind. eapply see_R_read; [exact Hw9|]. intros w10 Hw10. rewrite (bs_queue _ Hset).
  assert (Hshort : forall msg, (max <? NUM) = true -> wp (puts_line msg) Q w10).
  { intros msg E. eapply see_puts; [exact Hw10|]. intros w' (Em & Es & Ec). apply HQ; rewrite ?E, ?Em, ?Es, ?Ec; done. }
  destruct (Z.eqb_spec max 0) as [->|]; [by apply Hshort|].
  destruct (max <? NUM) eqn:E; [by apply Hshort|].
  apply wp_bind. eapply see_R_write; [exact Hw10|registers|]. intros w11 Hw11.
  apply wp_bind. eapply see_on_disk; [exact Hw11|done|]. intros w12 Hw12.
  apply wp_bind. eapply see_R_write; [exact Hw12|registers|]. intros w13 Hw13.
  apply wp_bind. eapply see_on_disk; [exact Hw13|done|]. intros w14 Hw14.
  apply wp_bind. eapply see_free_all; [exact Hw14|done|]. intros w15 Hw15.
  apply wp_bind. eapply see_on_disk; [exact Hw15|done|]. intros w16 Hw16.
  eapply see_puts; [exact Hw16|]. intros w' (Em & Es & Ec). by apply HQ; rewrite ?E, ?Em, ?Es, ?Ec.
Qed.
Lemma fresh_idle w : seen (w_dev w) = 0 ->
  m_disk (w_mem w) = VirtioDisk.set_initialised 1 (set_free (replicate 8 1) (set_mapped true disk_bss)) ->
  idle seen w /\ initialised (m_disk (w_mem w)) = 1.
Proof. intros Es Ed. unfold idle. rewrite Ed, Es. cbn. repeat split; vm_compute; congruence. Qed.

Lemma see_disk_initialize w (Q : Z -> world D -> Prop) : unused w ->
  (forall w', m_bufs (w_mem w') = m_bufs (w_mem w) -> contents (w_dev w') = contents (w_dev w) ->
     seen (w_dev w') = 0 -> m_disk (w_mem w') = (if max <? NUM then disk_bss else
       VirtioDisk.set_initialised 1 (set_free (replicate 8 1) (set_mapped true disk_bss))) ->
     Q (if max <? NUM then STA_NOINIT else 0) w') ->
  wp (disk_initialize dev pages_addr DEV_VIRTIO) Q w.
Proof.
  intros Hw HQ. unfold disk_initialize. change (DEV_VIRTIO =? DEV_VIRTIO) with true. cbv iota.
  apply wp_bind, see_disk_init; [exact Hw|]. intros w' E1 E2 E3 E4. specialize (HQ w' E1 E2 E3 E4).
  unfold disk_status, virtio_disk_status, the_disk. change (DEV_VIRTIO =? DEV_VIRTIO) with true. cbv iota.
  apply wp_bind, wp_bind, wp_gets, wp_ret. rewrite E4. destruct (max <? NUM); by apply wp_ret.
Qed.

(** [C40]: [virtio_disk_init] on the zeroed driver: whatever the device answers to the
    identification and however long it takes, if queue 0 has at least [NUM] entries
    the driver ends initialised and between requests, all descriptors free and the
    indices of both rings those of the device, the state in which [virtio_disk_rw]
    transfers blocks; if the queue is missing or too short, the driver stays as it was
    and [disk_initialize] reports [STA_NOINIT].  The disk and the buffers stay. *)
Theorem disk_init_ready w : unused w ->
  wp (disk_initialize dev pages_addr DEV_VIRTIO) (fun res w' =>
    m_bufs (w_mem w') = m_bufs (w_mem w) /\ contents (w_dev w') = contents (w_dev w) /\
    if max <? NUM then res = STA_NOINIT /\ m_disk (w_mem w') = disk_bss
    else res = 0 /\ idle seen w' /\ initialised (m_disk (w_mem w')) = 1) w.
Proof.
  intros Hw. apply see_disk_initialize; [exact Hw|]. intros w' E1 E2 E3 E4. split; [done|]. split; [done|].
  destruct (max <? NUM); [done|]. split; [done|]. by apply fresh_idle.
Qed.
End Init.

(** The device of [VirtioTheorems] has a queue of 1024 entries. *)
Lemma plain_setup : block_setup plain_device pl_contents pl_seen 1024.
Proof.
  split; [|done]. intros r v x Hr. cbn [plain_device answering_device reg_write].
  assert ((r =? VIRTIO_MMIO_QUEUE_NOTIFY) = false) as ->; [|done].
  unfold setup_registers in Hr. cbn [In] in Hr. by destruct Hr as [<-|[<-|[<-|[<-|[<-|[<-|[]]]]]]].
Qed.

Example disk_init_ready_witness :
  unused pl_seen plain_world /\
  wp (disk_initialize plain_device 0x80030000 DEV_VIRTIO) (fun res w' =>
    m_bufs (w_mem w') = m_bufs (w_mem plain_world) /\
    pl_contents (w_dev w') = pl_contents (w_dev plain_world) /\
    res = 0 /\ idle pl_seen w' /\ initialised (m_disk (w_mem w')) = 1) plain_world.
Proof.
  split; [done|].
  exact (disk_init_ready plain_device plain_place 0x80030000 pl_contents pl_seen (fun _ _ _ => 0) pl_delay 3 plain_keeps 1024 plain_setup
    plain_world (conj eq_refl eq_refl)).
Defined.
