(* ===== verification/FatData.v ===== *)
(** * FatFs: data

    [ff.h] and the definitions at the head of [ff.c] of
    [src/projects/exercise/app0], as configured by [ffconf.h]: one volume, sectors
    of 512 bytes, short names in code page 932, FAT12, FAT16 and FAT32, no
    exFAT.  (The copies in [tutorial.09.fs] are identical.)  A pointer to a
    filesystem object is a number, a pointer into [win] an offset, and a path the
    bytes from the pointer on, with their final zero.  The functions of
    [diskio.c] are the operations of the class [Drive]. *)

From S2P Require Import Prelude.

#[local] Open Scope Z_scope.
#[local] Open Scope list_scope.

(** ** Configuration *)

Definition FF_VOLUMES : Z := 1.
(** [SS(fs)]: the size of a sector. *)
Definition SS : Z := 512.

Definition MAX_DIR : Z := 0x200000.
Definition MAX_FAT12 : Z := 0xFF5.
Definition MAX_FAT16 : Z := 0xFFF5.
Definition MAX_FAT32 : Z := 0x0FFFFFF5.

(** ** Flags and offsets *)

Definition FA_READ : Z := 0x01.
Definition FA_WRITE : Z := 0x02.
Definition FA_CREATE_NEW : Z := 0x04.
Definition FA_CREATE_ALWAYS : Z := 0x08.
Definition FA_OPEN_ALWAYS : Z := 0x10.
Definition FA_OPEN_APPEND : Z := 0x30.
Definition FA_SEEKEND : Z := 0x20.
Definition FA_MODIFIED : Z := 0x40.
Definition FA_DIRTY : Z := 0x80.

Definition FS_FAT12 : Z := 1.
Definition FS_FAT16 : Z := 2.
Definition FS_FAT32 : Z := 3.

Definition AM_RDO : Z := 0x01.
Definition AM_DIR : Z := 0x10.
Definition AM_ARC : Z := 0x20.
Definition AM_VOL : Z := 0x08.
Definition AM_LFN : Z := 0x0F.
Definition AM_MASK : Z := 0x3F.

Definition NSFLAG : Z := 11.
Definition NS_LAST : Z := 0x04.
Definition NS_DOT : Z := 0x20.
Definition NS_NONAME : Z := 0x80.

Definition BS_JmpBoot : Z := 0.
Definition BPB_BytsPerSec : Z := 11.
Definition BPB_SecPerClus : Z := 13.
Definition BPB_RsvdSecCnt : Z := 14.
Definition BPB_NumFATs : Z := 16.
Definition BPB_RootEntCnt : Z := 17.
Definition BPB_TotSec16 : Z := 19.
Definition BPB_FATSz16 : Z := 22.
Definition BPB_TotSec32 : Z := 32.
Definition BS_55AA : Z := 510.
Definition BPB_FATSz32 : Z := 36.
Definition BPB_FSVer32 : Z := 42.
Definition BPB_RootClus32 : Z := 44.
Definition BPB_FSInfo32 : Z := 48.
Definition BS_FilSysType32 : Z := 82.
Definition DIR_Name : Z := 0.
Definition DIR_Attr : Z := 11.
Definition DIR_CrtTime : Z := 14.
Definition DIR_LstAccDate : Z := 18.
Definition DIR_FstClusHI : Z := 20.
Definition DIR_ModTime : Z := 22.
Definition DIR_FstClusLO : Z := 26.
Definition DIR_FileSize : Z := 28.
Definition SZDIRE : Z := 32.
Definition DDEM : Z := 0xE5.
Definition RDDEM : Z := 0x05.
Definition FSI_LeadSig : Z := 0.
Definition FSI_StrucSig : Z := 484.
Definition FSI_Free_Count : Z := 488.
Definition FSI_Nxt_Free : Z := 492.
Definition MBR_Table : Z := 446.
Definition SZ_PTE : Z := 16.
Definition PTE_StLba : Z := 8.

(** [diskio.h] *)
Definition RES_OK : Z := 0.
Definition STA_NOINIT : Z := 1.
Definition STA_PROTECT : Z := 4.
Definition CTRL_SYNC : Z := 0.

(** [FRESULT] *)
Inductive FRESULT :=
| FR_OK | FR_DISK_ERR | FR_INT_ERR | FR_NOT_READY | FR_NO_FILE | FR_NO_PATH
| FR_INVALID_NAME | FR_DENIED | FR_EXIST | FR_INVALID_OBJECT | FR_WRITE_PROTECTED
| FR_INVALID_DRIVE | FR_NOT_ENABLED | FR_NO_FILESYSTEM.

#[export] Instance FRESULT_eq_dec : EqDecision FRESULT.
Proof. solve_decision. Defined.

Definition fr_eqb (a b : FRESULT) : bool := bool_decide (a = b).
Definition is_ok (res : FRESULT) : bool := fr_eqb res FR_OK.

(** ** Objects *)

(** [FATFS] *)
Record FATFS := MkFATFS {
  fs_type : Z; pdrv : Z; n_fats : Z; wflag : Z; fsi_flag : Z; fs_id : Z;
  n_rootdir : Z; csize : Z; last_clst : Z; free_clst : Z; n_fatent : Z; fsize : Z;
  volbase : Z; fatbase : Z; dirbase : Z; database : Z; winsect : Z; win : list Z
}.

Definition set_fs_type v fs := MkFATFS v (pdrv fs) (n_fats fs) (wflag fs) (fsi_flag fs) (fs_id fs)
   (n_rootdir fs) (csize fs) (last_clst fs) (free_clst fs) (n_fatent fs) (fsize fs) (volbase fs)
   (fatbase fs) (dirbase fs) (database fs) (winsect fs) (win fs).
Definition set_pdrv v fs := MkFATFS (fs_type fs) v (n_fats fs) (wflag fs) (fsi_flag fs) (fs_id fs)
   (n_rootdir fs) (csize fs) (last_clst fs) (free_clst fs) (n_fatent fs) (fsize fs) (volbase fs)
   (fatbase fs) (dirbase fs) (database fs) (winsect fs) (win fs).
Definition set_n_fats v fs := MkFATFS (fs_type fs) (pdrv fs) v (wflag fs) (fsi_flag fs) (fs_id fs)
   (n_rootdir fs) (csize fs) (last_clst fs) (free_clst fs) (n_fatent fs) (fsize fs) (volbase fs)
   (fatbase fs) (dirbase fs) (database fs) (winsect fs) (win fs).
Definition set_wflag v fs := MkFATFS (fs_type fs) (pdrv fs) (n_fats fs) v (fsi_flag fs) (fs_id fs)
   (n_rootdir fs) (csize fs) (last_clst fs) (free_clst fs) (n_fatent fs) (fsize fs) (volbase fs)
   (fatbase fs) (dirbase fs) (database fs) (winsect fs) (win fs).
Definition set_fsi_flag v fs := MkFATFS (fs_type fs) (pdrv fs) (n_fats fs) (wflag fs) v (fs_id fs)
   (n_rootdir fs) (csize fs) (last_clst fs) (free_clst fs) (n_fatent fs) (fsize fs) (volbase fs)
   (fatbase fs) (dirbase fs) (database fs) (winsect fs) (win fs).
Definition set_fs_id v fs := MkFATFS (fs_type fs) (pdrv fs) (n_fats fs) (wflag fs) (fsi_flag fs) v
   (n_rootdir fs) (csize fs) (last_clst fs) (free_clst fs) (n_fatent fs) (fsize fs) (volbase fs)
   (fatbase fs) (dirbase fs) (database fs) (winsect fs) (win fs).
Definition set_n_rootdir v fs := MkFATFS (fs_type fs) (pdrv fs) (n_fats fs) (wflag fs) (fsi_flag
   fs) (fs_id fs) v (csize fs) (last_clst fs) (free_clst fs) (n_fatent fs) (fsize fs) (volbase fs)
   (fatbase fs) (dirbase fs) (database fs) (winsect fs) (win fs).
Definition set_csize v fs := MkFATFS (fs_type fs) (pdrv fs) (n_fats fs) (wflag fs) (fsi_flag fs)
   (fs_id fs) (n_rootdir fs) v (last_clst fs) (free_clst fs) (n_fatent fs) (fsize fs) (volbase fs)
   (fatbase fs) (dirbase fs) (database fs) (winsect fs) (win fs).
Definition set_last_clst v fs := MkFATFS (fs_type fs) (pdrv fs) (n_fats fs) (wflag fs) (fsi_flag
   fs) (fs_id fs) (n_rootdir fs) (csize fs) v (free_clst fs) (n_fatent fs) (fsize fs) (volbase fs)
   (fatbase fs) (dirbase fs) (database fs) (winsect fs) (win fs).
Definition set_free_clst v fs := MkFATFS (fs_type fs) (pdrv fs) (n_fats fs) (wflag fs) (fsi_flag
   fs) (fs_id fs) (n_rootdir fs) (csize fs) (last_clst fs) v (n_fatent fs) (fsize fs) (volbase fs)
   (fatbase fs) (dirbase fs) (database fs) (winsect fs) (win fs).
Definition set_n_fatent v fs := MkFATFS (fs_type fs) (pdrv fs) (n_fats fs) (wflag fs) (fsi_flag
   fs) (fs_id fs) (n_rootdir fs) (csize fs) (last_clst fs) (free_clst fs) v (fsize fs) (volbase
   fs) (fatbase fs) (dirbase fs) (database fs) (winsect fs) (win fs).
Definition set_fsize v fs := MkFATFS (fs_type fs) (pdrv fs) (n_fats fs) (wflag fs) (fsi_flag fs)
   (fs_id fs) (n_rootdir fs) (csize fs) (last_clst fs) (free_clst fs) (n_fatent fs) v (volbase fs)
   (fatbase fs) (dirbase fs) (database fs) (winsect fs) (win fs).
Definition set_volbase v fs := MkFATFS (fs_type fs) (pdrv fs) (n_fats fs) (wflag fs) (fsi_flag fs)
   (fs_id fs) (n_rootdir fs) (csize fs) (last_clst fs) (free_clst fs) (n_fatent fs) (fsize fs) v
   (fatbase fs) (dirbase fs) (database fs) (winsect fs) (win fs).
Definition set_fatbase v fs := MkFATFS (fs_type fs) (pdrv fs) (n_fats fs) (wflag fs) (fsi_flag fs)
   (fs_id fs) (n_rootdir fs) (csize fs) (last_clst fs) (free_clst fs) (n_fatent fs) (fsize fs)
   (volbase fs) v (dirbase fs) (database fs) (winsect fs) (win fs).
Definition set_dirbase v fs := MkFATFS (fs_type fs) (pdrv fs) (n_fats fs) (wflag fs) (fsi_flag fs)
   (fs_id fs) (n_rootdir fs) (csize fs) (last_clst fs) (free_clst fs) (n_fatent fs) (fsize fs)
   (volbase fs) (fatbase fs) v (database fs) (winsect fs) (win fs).
Definition set_database v fs := MkFATFS (fs_type fs) (pdrv fs) (n_fats fs) (wflag fs) (fsi_flag
   fs) (fs_id fs) (n_rootdir fs) (csize fs) (last_clst fs) (free_clst fs) (n_fatent fs) (fsize fs)
   (volbase fs) (fatbase fs) (dirbase fs) v (winsect fs) (win fs).
Definition set_winsect v fs := MkFATFS (fs_type fs) (pdrv fs) (n_fats fs) (wflag fs) (fsi_flag fs)
   (fs_id fs) (n_rootdir fs) (csize fs) (last_clst fs) (free_clst fs) (n_fatent fs) (fsize fs)
   (volbase fs) (fatbase fs) (dirbase fs) (database fs) v (win fs).
Definition set_win v fs := MkFATFS (fs_type fs) (pdrv fs) (n_fats fs) (wflag fs) (fsi_flag fs)
   (fs_id fs) (n_rootdir fs) (csize fs) (last_clst fs) (free_clst fs) (n_fatent fs) (fsize fs)
   (volbase fs) (fatbase fs) (dirbase fs) (database fs) (winsect fs) v.

(** [DIR], with the members of its [FFOBJID] that directories use: [dj_attr] and
    [dj_sclust].  [ddir] is an offset into [win]. *)
Record DIR := MkDIR {
  dj_attr : Z; dj_sclust : Z; dptr : Z; dclust : Z; dsect : Z; ddir : Z; fn : list Z
}.

Definition set_dj_attr v dp := MkDIR v (dj_sclust dp) (dptr dp) (dclust dp) (dsect dp) (ddir dp)
   (fn dp).
Definition set_dj_sclust v dp := MkDIR (dj_attr dp) v (dptr dp) (dclust dp) (dsect dp) (ddir dp)
   (fn dp).
Definition set_dptr v dp := MkDIR (dj_attr dp) (dj_sclust dp) v (dclust dp) (dsect dp) (ddir dp)
   (fn dp).
Definition set_dclust v dp := MkDIR (dj_attr dp) (dj_sclust dp) (dptr dp) v (dsect dp) (ddir dp)
   (fn dp).
Definition set_dsect v dp := MkDIR (dj_attr dp) (dj_sclust dp) (dptr dp) (dclust dp) v (ddir dp)
   (fn dp).
Definition set_ddir v dp := MkDIR (dj_attr dp) (dj_sclust dp) (dptr dp) (dclust dp) (dsect dp) v
   (fn dp).
Definition set_fn v dp := MkDIR (dj_attr dp) (dj_sclust dp) (dptr dp) (dclust dp) (dsect dp) (ddir
   dp) v.

(** [FIL], with the members of its [FFOBJID]; [dir_ptr] is an offset into [win]. *)
Record FIL := MkFIL {
  f_fs : option Z; f_id : Z; f_sclust : Z; f_objsize : Z; f_flag : Z; f_err : FRESULT;
  fptr : Z; f_clust : Z; f_sect : Z; dir_sect : Z; dir_ptr : Z; f_buf : list Z
}.

Definition set_f_fs v fp := MkFIL v (f_id fp) (f_sclust fp) (f_objsize fp) (f_flag fp) (f_err fp)
   (fptr fp) (f_clust fp) (f_sect fp) (dir_sect fp) (dir_ptr fp) (f_buf fp).
Definition set_f_id v fp := MkFIL (f_fs fp) v (f_sclust fp) (f_objsize fp) (f_flag fp) (f_err fp)
   (fptr fp) (f_clust fp) (f_sect fp) (dir_sect fp) (dir_ptr fp) (f_buf fp).
Definition set_f_sclust v fp := MkFIL (f_fs fp) (f_id fp) v (f_objsize fp) (f_flag fp) (f_err fp)
   (fptr fp) (f_clust fp) (f_sect fp) (dir_sect fp) (dir_ptr fp) (f_buf fp).
Definition set_f_objsize v fp := MkFIL (f_fs fp) (f_id fp) (f_sclust fp) v (f_flag fp) (f_err fp)
   (fptr fp) (f_clust fp) (f_sect fp) (dir_sect fp) (dir_ptr fp) (f_buf fp).
Definition set_f_flag v fp := MkFIL (f_fs fp) (f_id fp) (f_sclust fp) (f_objsize fp) v (f_err fp)
   (fptr fp) (f_clust fp) (f_sect fp) (dir_sect fp) (dir_ptr fp) (f_buf fp).
Definition set_f_err v fp := MkFIL (f_fs fp) (f_id fp) (f_sclust fp) (f_objsize fp) (f_flag fp) v
   (fptr fp) (f_clust fp) (f_sect fp) (dir_sect fp) (dir_ptr fp) (f_buf fp).
Definition set_fptr v fp := MkFIL (f_fs fp) (f_id fp) (f_sclust fp) (f_objsize fp) (f_flag fp)
   (f_err fp) v (f_clust fp) (f_sect fp) (dir_sect fp) (dir_ptr fp) (f_buf fp).
Definition set_f_clust v fp := MkFIL (f_fs fp) (f_id fp) (f_sclust fp) (f_objsize fp) (f_flag fp)
   (f_err fp) (fptr fp) v (f_sect fp) (dir_sect fp) (dir_ptr fp) (f_buf fp).
Definition set_f_sect v fp := MkFIL (f_fs fp) (f_id fp) (f_sclust fp) (f_objsize fp) (f_flag fp)
   (f_err fp) (fptr fp) (f_clust fp) v (dir_sect fp) (dir_ptr fp) (f_buf fp).
Definition set_dir_sect v fp := MkFIL (f_fs fp) (f_id fp) (f_sclust fp) (f_objsize fp) (f_flag fp)
   (f_err fp) (fptr fp) (f_clust fp) (f_sect fp) v (dir_ptr fp) (f_buf fp).
Definition set_dir_ptr v fp := MkFIL (f_fs fp) (f_id fp) (f_sclust fp) (f_objsize fp) (f_flag fp)
   (f_err fp) (fptr fp) (f_clust fp) (f_sect fp) (dir_sect fp) v (f_buf fp).
Definition set_f_buf v fp := MkFIL (f_fs fp) (f_id fp) (f_sclust fp) (f_objsize fp) (f_flag fp)
   (f_err fp) (fptr fp) (f_clust fp) (f_sect fp) (dir_sect fp) (dir_ptr fp) v.

(** [FILINFO] *)
Record FILINFO := MkFILINFO {
  fi_size : Z; fi_date : Z; fi_time : Z; fi_attrib : Z; fi_name : list Z
}.

(** ** The drive *)

(** [disk_read] fills a prefix of the buffer it is given and returns the
    buffer. *)
Class Drive (D : Type) := {
  disk_status : Z -> M D Z;
  disk_initialize : Z -> M D Z;
  disk_read : Z -> list Z -> Z -> Z -> M D (Z * list Z);
  disk_write : Z -> list Z -> Z -> Z -> M D Z;
  disk_ioctl : Z -> Z -> M D Z;
  get_fattime : M D Z
}.

(** A filesystem object and the drive: what the functions with a [FATFS *]
    work on. *)
Record vol (D : Type) := Vol { v_fs : FATFS; v_drive : D }.
Arguments Vol {D} _ _.
Arguments v_fs {D} _.
Arguments v_drive {D} _.

(** ** Bytes in memory *)

(** [p[i] = x] *)
Definition array_set {St A} (p : list A) (i : Z) (x : A) : M St (list A) :=
  do* array_get p i in ret (insertZ i x p).

(** [memcpy(dst + i, src, n)] where [n] is the length of [src]; and
    [memset(dst + i, c, n)]. *)
Fixpoint array_copy {St A} (dst : list A) (i : Z) (src : list A) : M St (list A) :=
  match src with
  | [] => ret dst
  | x :: src => let* dst := array_set dst i x in array_copy dst (i + 1) src
  end.

(** The [n] elements at [p + i]. *)
Fixpoint array_slice {St A} (p : list A) (i : Z) (n : nat) : M St (list A) :=
  match n with
  | O => ret []
  | S n => let* x := array_get p i in let* l := array_slice p (i + 1) n in ret (x :: l)
  end.

Definition ld_word {St} (p : list Z) (i : Z) : M St Z :=
  let* b1 := array_get p (i + 1) in
  let* b0 := array_get p i in
  ret (Z.lor (u16 (Z.shiftl b1 8)) b0).

Definition ld_dword {St} (p : list Z) (i : Z) : M St Z :=
  let* rv := array_get p (i + 3) in
  let* b := array_get p (i + 2) in
  let rv := Z.lor (u32 (Z.shiftl rv 8)) b in
  let* b := array_get p (i + 1) in
  let rv := Z.lor (u32 (Z.shiftl rv 8)) b in
  let* b := array_get p i in
  ret (Z.lor (u32 (Z.shiftl rv 8)) b).

Definition st_word {St} (p : list Z) (i val : Z) : M St (list Z) :=
  let* p := array_set p i (u8 val) in
  let val := Z.shiftr val 8 in
  array_set p (i + 1) (u8 val).

Definition st_dword {St} (p : list Z) (i val : Z) : M St (list Z) :=
  let* p := array_set p i (u8 val) in
  let val := Z.shiftr val 8 in
  let* p := array_set p (i + 1) (u8 val) in
  let val := Z.shiftr val 8 in
  let* p := array_set p (i + 2) (u8 val) in
  let val := Z.shiftr val 8 in
  array_set p (i + 3) (u8 val).
