(* ===== verification/FatFs.v ===== *)
(** * FatFs: sectors, the FAT and directories

    The static functions of [ff.c] that work on one filesystem object, from
    [sync_window] to [dir_remove].  They run in the state [vol]: the object and
    the drive.  A [DIR *] is passed in and out.  Loops take fuel from a bound on
    their rounds that the code implies. *)

From S2P Require Import Prelude FatData.

#[local] Open Scope Z_scope.
#[local] Open Scope list_scope.

Section FatFs.
Context {D : Type} `{Drive D}.

Definition K (A : Type) : Type := M (vol D) A.

(** ** Access *)

Definition the_fs : K FATFS := gets v_fs.
Definition fs_upd (f : FATFS -> FATFS) : K unit := modify (fun v => Vol (f (v_fs v)) (v_drive v)).
(** A call of [diskio.c]. *)
Definition drive_lens : lens (vol D) D := Lens v_drive (fun d v => Vol (v_fs v) d).
Definition on_drive {A} (m : M D A) : K A := zoom drive_lens m.

(** [fs->win[i]], [fs->win[i] = x], and a routine that writes to [fs->win]. *)
Definition win_get (i : Z) : K Z := let* fs := the_fs in array_get (win fs) i.
Definition win_upd (m : list Z -> K (list Z)) : K unit :=
  let* fs := the_fs in let* w := m (win fs) in fs_upd (set_win w).
Definition win_set (i x : Z) : K unit := win_upd (fun w => array_set w i x).
Definition win_ld_word (i : Z) : K Z := let* fs := the_fs in ld_word (win fs) i.
Definition win_ld_dword (i : Z) : K Z := let* fs := the_fs in ld_dword (win fs) i.
Definition win_st_word (i val : Z) : K unit := win_upd (fun w => st_word w i val).
Definition win_st_dword (i val : Z) : K unit := win_upd (fun w => st_dword w i val).

(** [if (res != FR_OK) return res;] *)
Definition check (m : K FRESULT) (k : K FRESULT) : K FRESULT :=
  let* res := m in if is_ok res then k else ret res.

(** ** The window *)

Definition sync_window : K FRESULT :=
  let* fs := the_fs in
  if wflag fs =? 0 then ret FR_OK else
  let* r := on_drive (disk_write (pdrv fs) (win fs) (winsect fs) 1) in
  if negb (r =? RES_OK) then ret FR_DISK_ERR else
  do* fs_upd (set_wflag 0) in
  do* (if (u32 (winsect fs - fatbase fs) <? fsize fs) && (n_fats fs =? 2) then
         do* on_drive (disk_write (pdrv fs) (win fs) (u32 (winsect fs + fsize fs)) 1) in ret tt
       else ret tt) in
  ret FR_OK.

Definition move_window (sect : Z) : K FRESULT :=
  let* fs := the_fs in
  if sect =? winsect fs then ret FR_OK else
  check sync_window
    (let* fs := the_fs in
     let* r := on_drive (disk_read (pdrv fs) (win fs) sect 1) in
     do* fs_upd (set_win r.2) in
     if negb (r.1 =? RES_OK)
     then do* fs_upd (set_winsect (u32 (0 - 1))) in ret FR_DISK_ERR
     else do* fs_upd (set_winsect sect) in ret FR_OK).

Definition sync_fs : K FRESULT :=
  check sync_window
    (let* fs := the_fs in
     do* (if (fs_type fs =? FS_FAT32) && (fsi_flag fs =? 1) then
            do* fs_upd (set_win (replicate (Z.to_nat SS) 0)) in
            do* win_st_word BS_55AA 0xAA55 in
            do* win_st_dword FSI_LeadSig 0x41615252 in
            do* win_st_dword FSI_StrucSig 0x61417272 in
            do* win_st_dword FSI_Free_Count (free_clst fs) in
            do* win_st_dword FSI_Nxt_Free (last_clst fs) in
            do* fs_upd (set_winsect (u32 (volbase fs + 1))) in
            let* fs := the_fs in
            do* on_drive (disk_write (pdrv fs) (win fs) (winsect fs) 1) in
            fs_upd (set_fsi_flag 0)
          else ret tt) in
     let* r := on_drive (disk_ioctl (pdrv fs) CTRL_SYNC) in
     ret (if negb (r =? RES_OK) then FR_DISK_ERR else FR_OK)).

(** ** The FAT *)

Definition clst2sect (clst : Z) : K Z :=
  let* fs := the_fs in
  let clst := u32 (clst - 2) in
  if u32 (n_fatent fs - 2) <=? clst then ret 0
  else ret (u32 (database fs + u32 (csize fs * clst))).

(** [0xFFFFFFFF] and [1] *)
Definition DISK_ERR : Z := 0xFFFFFFFF.
Definition INT_ERR : Z := 1.

Definition get_fat (clst : Z) : K Z :=
  let* fs := the_fs in
  if (clst <? 2) || (n_fatent fs <=? clst) then ret INT_ERR else
  if fs_type fs =? FS_FAT12 then
    let bc := u32 (clst + clst / 2) in
    let* res := move_window (u32 (fatbase fs + bc / SS)) in
    if negb (is_ok res) then ret DISK_ERR else
    let* wc := win_get (bc mod SS) in
    let bc := u32 (bc + 1) in
    let* res := move_window (u32 (fatbase fs + bc / SS)) in
    if negb (is_ok res) then ret DISK_ERR else
    let* b := win_get (bc mod SS) in
    let wc := Z.lor wc (Z.shiftl b 8) in
    ret (if Z.odd clst then Z.shiftr wc 4 else Z.land wc 0xFFF)
  else if fs_type fs =? FS_FAT16 then
    let* res := move_window (u32 (fatbase fs + clst / (SS / 2))) in
    if negb (is_ok res) then ret DISK_ERR else
    win_ld_word (u32 (clst * 2) mod SS)
  else if fs_type fs =? FS_FAT32 then
    let* res := move_window (u32 (fatbase fs + clst / (SS / 4))) in
    if negb (is_ok res) then ret DISK_ERR else
    let* val := win_ld_dword (u32 (clst * 4) mod SS) in
    ret (Z.land val 0x0FFFFFFF)
  else ret INT_ERR.

Definition put_fat (clst val : Z) : K FRESULT :=
  let* fs := the_fs in
  if negb ((2 <=? clst) && (clst <? n_fatent fs)) then ret FR_INT_ERR else
  if fs_type fs =? FS_FAT12 then
    let bc := u32 (clst + clst / 2) in
    check (move_window (u32 (fatbase fs + bc / SS)))
      (let* p := win_get (bc mod SS) in
       do* win_set (bc mod SS)
             (if Z.odd clst then Z.lor (Z.land p 0x0F) (u8 (Z.shiftl (u8 val) 4)) else u8 val) in
       do* fs_upd (set_wflag 1) in
       let bc := u32 (bc + 1) in
       check (move_window (u32 (fatbase fs + bc / SS)))
         (let* p := win_get (bc mod SS) in
          do* win_set (bc mod SS)
                (if Z.odd clst then u8 (Z.shiftr val 4)
                 else Z.lor (Z.land p 0xF0) (Z.land (u8 (Z.shiftr val 8)) 0x0F)) in
          do* fs_upd (set_wflag 1) in
          ret FR_OK))
  else if fs_type fs =? FS_FAT16 then
    check (move_window (u32 (fatbase fs + clst / (SS / 2))))
      (do* win_st_word (u32 (clst * 2) mod SS) (u16 val) in
       do* fs_upd (set_wflag 1) in
       ret FR_OK)
  else if fs_type fs =? FS_FAT32 then
    check (move_window (u32 (fatbase fs + clst / (SS / 4))))
      (let* old := win_ld_dword (u32 (clst * 4) mod SS) in
       let val := Z.lor (Z.land val 0x0FFFFFFF) (Z.land old 0xF0000000) in
       do* win_st_dword (u32 (clst * 4) mod SS) val in
       do* fs_upd (set_wflag 1) in
       ret FR_OK)
  else ret FR_INT_ERR.

(** [fs->free_clst++] and [fs->fsi_flag |= 1] on freeing a cluster. *)
Definition count_freed (fs : FATFS) : FATFS :=
  if free_clst fs <? u32 (n_fatent fs - 2)
  then set_fsi_flag (Z.lor (fsi_flag fs) 1) (set_free_clst (u32 (free_clst fs + 1)) fs)
  else fs.

(** Each round frees a cluster, and a freed cluster ends the loop. *)
Fixpoint remove_loop (fuel : nat) (clst : Z) : K FRESULT :=
  match fuel with
  | O => fail OutOfFuel
  | S fuel =>
      let* nxt := get_fat clst in
      if nxt =? 0 then ret FR_OK else
      if nxt =? 1 then ret FR_INT_ERR else
      if nxt =? DISK_ERR then ret FR_DISK_ERR else
      check (put_fat clst 0)
        (do* fs_upd count_freed in
         let* fs := the_fs in
         if nxt <? n_fatent fs then remove_loop fuel nxt else ret FR_OK)
  end.

Definition remove_chain (clst pclst : Z) : K FRESULT :=
  let* fs := the_fs in
  if (clst <? 2) || (n_fatent fs <=? clst) then ret FR_INT_ERR else
  check (if negb (pclst =? 0) then put_fat pclst 0xFFFFFFFF else ret FR_OK)
    (remove_loop (Z.to_nat (n_fatent fs)) clst).

(** The search for a free cluster after [ncl]: the cluster, or the value to
    return. *)
Fixpoint find_free (fuel : nat) (scl ncl : Z) : K (Z + Z) :=
  match fuel with
  | O => fail OutOfFuel
  | S fuel =>
      let* fs := the_fs in
      let ncl := u32 (ncl + 1) in
      let wrap := n_fatent fs <=? ncl in
      let ncl := if wrap then 2 else ncl in
      if wrap && (scl <? ncl) then ret (inr 0) else
      let* cs := get_fat ncl in
      if cs =? 0 then ret (inl ncl) else
      if (cs =? 1) || (cs =? DISK_ERR) then ret (inr cs) else
      if ncl =? scl then ret (inr 0) else find_free fuel scl ncl
  end.

(** [fs->free_clst--] and the rest of the accounting of a new cluster. *)
Definition count_taken (ncl : Z) (fs : FATFS) : FATFS :=
  let fs := set_last_clst ncl fs in
  let fs := if free_clst fs <=? u32 (n_fatent fs - 2)
            then set_free_clst (u32 (free_clst fs - 1)) fs else fs in
  set_fsi_flag (Z.lor (fsi_flag fs) 1) fs.

(** From the start [scl] of the search on. *)
Definition create_from (clst scl : Z) : K Z :=
  let* fs := the_fs in
  if free_clst fs =? 0 then ret 0 else
  let search scl := find_free (Z.to_nat (n_fatent fs)) scl scl in
  let* found :=
    (if scl =? clst then
       let ncl := u32 (scl + 1) in
       let ncl := if n_fatent fs <=? ncl then 2 else ncl in
       let* cs := get_fat ncl in
       if (cs =? 1) || (cs =? DISK_ERR) then ret (inr cs) else
       if negb (cs =? 0) then
         let cs := last_clst fs in
         search (if (2 <=? cs) && (cs <? n_fatent fs) then cs else scl)
       else ret (inl ncl)
     else search scl) in
  match found with
  | inr r => ret r
  | inl ncl =>
      let* res := check (put_fat ncl 0xFFFFFFFF)
                    (if negb (clst =? 0) then put_fat clst ncl else ret FR_OK) in
      if is_ok res then do* fs_upd (count_taken ncl) in ret ncl
      else ret (if fr_eqb res FR_DISK_ERR then DISK_ERR else 1)
  end.

Definition create_chain (clst : Z) : K Z :=
  let* fs := the_fs in
  if clst =? 0 then
    let scl := last_clst fs in
    create_from clst (if (scl =? 0) || (n_fatent fs <=? scl) then 1 else scl)
  else
    let* cs := get_fat clst in
    if cs <? 2 then ret 1 else
    if cs =? DISK_ERR then ret cs else
    if cs <? n_fatent fs then ret cs else
    create_from clst clst.

(** ** Directories *)

Fixpoint clear_loop (n : nat) (sect : Z) : K FRESULT :=
  match n with
  | O => ret FR_OK
  | S n =>
      let* fs := the_fs in
      let* r := on_drive (disk_write (pdrv fs) (win fs) (u32 sect) 1) in
      if r =? RES_OK then clear_loop n (sect + 1) else ret FR_DISK_ERR
  end.

Definition dir_clear (clst : Z) : K FRESULT :=
  let* res := sync_window in
  if negb (is_ok res) then ret FR_DISK_ERR else
  let* sect := clst2sect clst in
  do* fs_upd (set_winsect sect) in
  do* fs_upd (set_win (replicate (Z.to_nat SS) 0)) in
  let* fs := the_fs in
  clear_loop (Z.to_nat (csize fs)) sect.

(** [while (ofs >= csz)] of [dir_sdi]: the cluster and the rest of the offset, or
    the error. *)
Fixpoint sdi_follow (fuel : nat) (csz clst ofs : Z) : K ((Z * Z) + FRESULT) :=
  match fuel with
  | O => fail OutOfFuel
  | S fuel =>
      if ofs <? csz then ret (inl (clst, ofs)) else
      let* fs := the_fs in
      let* clst := get_fat clst in
      if clst =? DISK_ERR then ret (inr FR_DISK_ERR) else
      if (clst <? 2) || (n_fatent fs <=? clst) then ret (inr FR_INT_ERR) else
      sdi_follow fuel csz clst (ofs - csz)
  end.

Definition dir_sdi (dp : DIR) (ofs : Z) : K (FRESULT * DIR) :=
  let* fs := the_fs in
  if (MAX_DIR <=? ofs) || negb (ofs mod SZDIRE =? 0) then ret (FR_INT_ERR, dp) else
  let dp := set_dptr ofs dp in
  let clst := if (dj_sclust dp =? 0) && (FS_FAT32 <=? fs_type fs) then dirbase fs else dj_sclust dp in
  let finish dp clst ofs :=
    let dp := set_dclust clst dp in
    if dsect dp =? 0 then ret (FR_INT_ERR, dp) else
    let dp := set_dsect (u32 (dsect dp + ofs / SS)) dp in
    ret (FR_OK, set_ddir (ofs mod SS) dp) in
  if clst =? 0 then
    if n_rootdir fs <=? ofs / SZDIRE then ret (FR_INT_ERR, dp) else
    finish (set_dsect (dirbase fs) dp) clst ofs
  else
    let csz := u32 (csize fs * SS) in
    let* r := sdi_follow (Z.to_nat (ofs / SS) + 1) csz clst ofs in
    match r with
    | inr e => ret (e, dp)
    | inl (clst, ofs) => let* sect := clst2sect clst in finish (set_dsect sect dp) clst ofs
    end.

Definition dir_next (dp : DIR) (stretch : bool) : K (FRESULT * DIR) :=
  let* fs := the_fs in
  let ofs := u32 (dptr dp + SZDIRE) in
  let dp := if MAX_DIR <=? ofs then set_dsect 0 dp else dp in
  if dsect dp =? 0 then ret (FR_NO_FILE, dp) else
  let finish dp := ret (FR_OK, set_ddir (ofs mod SS) (set_dptr ofs dp)) in
  if negb (ofs mod SS =? 0) then finish dp else
  let dp := set_dsect (u32 (dsect dp + 1)) dp in
  if dclust dp =? 0 then
    if n_rootdir fs <=? ofs / SZDIRE then ret (FR_NO_FILE, set_dsect 0 dp) else finish dp
  else if negb (Z.land (ofs / SS) (csize fs - 1) =? 0) then finish dp else
  let enter clst :=
    let* sect := clst2sect clst in finish (set_dsect sect (set_dclust clst dp)) in
  let* clst := get_fat (dclust dp) in
  if clst <=? 1 then ret (FR_INT_ERR, dp) else
  if clst =? DISK_ERR then ret (FR_DISK_ERR, dp) else
  if clst <? n_fatent fs then enter clst else
  if negb stretch then ret (FR_NO_FILE, set_dsect 0 dp) else
  let* clst := create_chain (dclust dp) in
  if clst =? 0 then ret (FR_DENIED, dp) else
  if clst =? 1 then ret (FR_INT_ERR, dp) else
  if clst =? DISK_ERR then ret (FR_DISK_ERR, dp) else
  let* res := dir_clear clst in
  if negb (is_ok res) then ret (FR_DISK_ERR, dp) else enter clst.

(** A directory has at most [MAX_DIR / SZDIRE] entries. *)
Definition dir_rounds : nat := Z.to_nat (MAX_DIR / SZDIRE + 1).

Fixpoint alloc_loop (fuel : nat) (dp : DIR) (n n_ent : Z) : K (FRESULT * DIR) :=
  match fuel with
  | O => fail OutOfFuel
  | S fuel =>
      let* res := move_window (dsect dp) in
      if negb (is_ok res) then ret (res, dp) else
      let* b := win_get (ddir dp + DIR_Name) in
      let free := (b =? DDEM) || (b =? 0) in
      let n := if free then u32 (n + 1) else 0 in
      if free && (n =? n_ent) then ret (FR_OK, dp) else
      let* r := dir_next dp true in
      if is_ok r.1 then alloc_loop fuel r.2 n n_ent else ret r
  end.

Definition dir_alloc (dp : DIR) (n_ent : Z) : K (FRESULT * DIR) :=
  let* r := dir_sdi dp 0 in
  let* r := (if is_ok r.1 then alloc_loop dir_rounds r.2 0 n_ent else ret r) in
  ret (if fr_eqb r.1 FR_NO_FILE then FR_DENIED else r.1, r.2).

(** The start cluster in the directory entry at [dir] in the window. *)
Definition ld_clust (dir : Z) : K Z :=
  let* fs := the_fs in
  let* cl := win_ld_word (dir + DIR_FstClusLO) in
  if fs_type fs =? FS_FAT32 then
    let* hi := win_ld_word (dir + DIR_FstClusHI) in ret (Z.lor cl (Z.shiftl hi 16))
  else ret cl.

Definition st_clust (dir cl : Z) : K unit :=
  let* fs := the_fs in
  do* win_st_word (dir + DIR_FstClusLO) (u16 cl) in
  if fs_type fs =? FS_FAT32 then win_st_word (dir + DIR_FstClusHI) (u16 (Z.shiftr cl 16))
  else ret tt.

(** [while (dp->sect)] of [dir_read]. *)
Fixpoint read_loop (fuel : nat) (dp : DIR) (vol : bool) (res : FRESULT) : K (FRESULT * DIR) :=
  match fuel with
  | O => fail OutOfFuel
  | S fuel =>
      if dsect dp =? 0 then ret (res, dp) else
      let* res := move_window (dsect dp) in
      if negb (is_ok res) then ret (res, dp) else
      let* b := win_get (ddir dp + DIR_Name) in
      if b =? 0 then ret (FR_NO_FILE, dp) else
      let* a := win_get (ddir dp + DIR_Attr) in
      let attr := Z.land a AM_MASK in
      let dp := set_dj_attr attr dp in
      if negb (b =? DDEM) && negb (b =? 46) && negb (attr =? AM_LFN)
         && eqb (Z.ldiff attr AM_ARC =? AM_VOL) vol
      then ret (FR_OK, dp) else
      let* r := dir_next dp false in
      if is_ok r.1 then read_loop fuel r.2 vol r.1 else ret r
  end.

Definition dir_read (dp : DIR) (vol : bool) : K (FRESULT * DIR) :=
  let* r := read_loop dir_rounds dp vol FR_NO_FILE in
  ret (r.1, if is_ok r.1 then r.2 else set_dsect 0 r.2).

(** [memcmp(p, q, n) == 0] for the first [n] bytes. *)
Fixpoint mem_eq (n : nat) (p : list Z) (i : Z) (q : list Z) (j : Z) : K bool :=
  match n with
  | O => ret true
  | S n =>
      let* a := array_get p i in
      let* b := array_get q j in
      if a =? b then mem_eq n p (i + 1) q (j + 1) else ret false
  end.

Fixpoint find_loop (fuel : nat) (dp : DIR) : K (FRESULT * DIR) :=
  match fuel with
  | O => fail OutOfFuel
  | S fuel =>
      let* res := move_window (dsect dp) in
      if negb (is_ok res) then ret (res, dp) else
      let* c := win_get (ddir dp + DIR_Name) in
      if c =? 0 then ret (FR_NO_FILE, dp) else
      let* a := win_get (ddir dp + DIR_Attr) in
      let dp := set_dj_attr (Z.land a AM_MASK) dp in
      let* fs := the_fs in
      let* same := (if negb (Z.land a AM_VOL =? 0) then ret false
                    else mem_eq 11 (win fs) (ddir dp) (fn dp) 0) in
      if same : bool then ret (FR_OK, dp) else
      let* r := dir_next dp false in
      if is_ok r.1 then find_loop fuel r.2 else ret r
  end.

Definition dir_find (dp : DIR) : K (FRESULT * DIR) :=
  let* r := dir_sdi dp 0 in
  if negb (is_ok r.1) then ret r else find_loop dir_rounds r.2.

Definition dir_register (dp : DIR) : K (FRESULT * DIR) :=
  let* r := dir_alloc dp 1 in
  if negb (is_ok r.1) then ret r else
  let dp := r.2 in
  let* res := move_window (dsect dp) in
  if negb (is_ok res) then ret (res, dp) else
  do* win_upd (fun w => array_copy w (ddir dp) (replicate (Z.to_nat SZDIRE) 0)) in
  let* name := array_slice (fn dp) 0 11 in
  do* win_upd (fun w => array_copy w (ddir dp + DIR_Name) name) in
  do* fs_upd (set_wflag 1) in
  ret (FR_OK, dp).

Definition dir_remove (dp : DIR) : K FRESULT :=
  check (move_window (dsect dp))
    (do* win_set (ddir dp + DIR_Name) DDEM in
     do* fs_upd (set_wflag 1) in
     ret FR_OK).

(** The loop over the name of [get_fileinfo]: [i] characters are left. *)
Fixpoint name_loop (n : nat) (si : Z) (dir : Z) (fname : list Z) : K (list Z) :=
  match n with
  | O => ret fname
  | S n =>
      let* c := win_get (dir + si) in
      let si := si + 1 in
      if c =? 32 then name_loop n si dir fname else
      let c := if c =? RDDEM then DDEM else c in
      let fname := if si =? 9 then fname ++ [46] else fname in
      name_loop n si dir (fname ++ [c])
  end.

(** The name is kept without its final zero. *)
Definition get_fileinfo (dp : DIR) (fno : FILINFO) : K FILINFO :=
  if dsect dp =? 0
  then ret (MkFILINFO (fi_size fno) (fi_date fno) (fi_time fno) (fi_attrib fno) []) else
  let* name := name_loop 11 0 (ddir dp) [] in
  let* a := win_get (ddir dp + DIR_Attr) in
  let* size := win_ld_dword (ddir dp + DIR_FileSize) in
  let* time := win_ld_word (ddir dp + DIR_ModTime + 0) in
  let* date := win_ld_word (ddir dp + DIR_ModTime + 2) in
  ret (MkFILINFO size date time (Z.land a AM_MASK) name).
End FatFs.
