(* ===== verification/FatPath.v ===== *)
(** * FatFs: names, paths and mounting

    The functions of [ff.c] from [create_name] to [validate]: path segments
    become short names, a path leads to a directory entry, and a volume is found
    on the drive and checked.  [FatFs] and [Fsid] are global variables of the
    state [ff], with the filesystem objects the application owns. *)

From S2P Require Import Prelude FatData FatFs.

#[local] Open Scope Z_scope.
#[local] Open Scope list_scope.

(** [DbcTbl]: the ranges of double-byte characters of code page 932. *)
Definition DbcTbl : list Z := [0x81; 0x9F; 0xE0; 0xFC; 0x40; 0x7E; 0x80; 0xFC; 0x00; 0x00].

Definition dbc (k : nat) : Z := nth k DbcTbl 0.

Definition dbc_1st (c : Z) : bool :=
  (dbc 0 <=? c) && ((c <=? dbc 1) || ((dbc 2 <=? c) && (c <=? dbc 3))).

Definition dbc_2nd (c : Z) : bool :=
  (dbc 4 <=? c) &&
  ((c <=? dbc 5) || ((dbc 6 <=? c) && (c <=? dbc 7)) || ((dbc 8 <=? c) && (c <=? dbc 9))).

Definition IsLower (c : Z) : bool := (97 <=? c) && (c <=? 122).
Definition IsDigit (c : Z) : bool := (48 <=? c) && (c <=? 57).
Definition IsSeparator (c : Z) : bool := (c =? 47) || (c =? 92).
Definition IsTerminator (c : Z) : bool := c <? 33.

(** The string in the call of [strchr] in [create_name], with its final zero,
    which [strchr] finds too. *)
Definition illegal_chars : list Z :=
  [42; 43; 44; 58; 59; 60; 61; 62; 91; 93; 124; 34; 63; 127; 0].

Definition strchr (s : list Z) (c : Z) : bool := existsb (Z.eqb c) s.

(** Global state: [FatFs] of the only volume, [Fsid], the filesystem objects by
    their address, and the drive. *)
Record ff (D : Type) := FF {
  ff_fatfs : option Z; ff_fsid : Z; ff_objs : Z -> FATFS; ff_drive : D
}.
Arguments FF {D} _ _ _ _.
Arguments ff_fatfs {D} _.
Arguments ff_fsid {D} _.
Arguments ff_objs {D} _ _.
Arguments ff_drive {D} _.

Section FatPath.
Context {D : Type} `{Drive D}.

Abbreviation K := (FatFs.K (D := D)).

(** ** Names *)

(** [while (IsSeparator(p[si])) si++;] *)
Fixpoint skip_separators {St} (fuel : nat) (p : list Z) (si : Z) : M St Z :=
  match fuel with
  | O => fail OutOfFuel
  | S fuel =>
      let* c := array_get p si in
      if IsSeparator c then skip_separators fuel p (si + 1) else ret si
  end.

(** The loop of [create_name]: the last character read, the name so far and the
    numbers of characters consumed and stored; or [FR_INVALID_NAME]. *)
Fixpoint name_chars {St} (fuel : nat) (p sfn : list Z) (si i ni : Z)
    : M St (option (Z * list Z * Z * Z)) :=
  match fuel with
  | O => fail OutOfFuel
  | S fuel' =>
      let* c := array_get p si in
      let si := si + 1 in
      if c <=? 32 then ret (Some (c, sfn, si, i)) else
      if IsSeparator c then
        let* si := skip_separators fuel p si in ret (Some (c, sfn, si, i)) else
      if (c =? 46) || (ni <=? i) then
        if (ni =? 11) || negb (c =? 46) then ret None else name_chars fuel' p sfn si 8 11
      else if dbc_1st c then
        let* d := array_get p si in
        let si := si + 1 in
        if negb (dbc_2nd d) || (ni - 1 <=? i) then ret None else
        let* sfn := array_set sfn i c in
        let* sfn := array_set sfn (i + 1) d in
        name_chars fuel' p sfn si (i + 2) ni
      else if strchr illegal_chars c then ret None else
        let c := if IsLower c then c - 0x20 else c in
        let* sfn := array_set sfn i c in
        name_chars fuel' p sfn si (i + 1) ni
  end.

(** The result, the name [dp->fn], and the rest of the path. *)
Definition create_name {St} (fn path : list Z) : M St (FRESULT * list Z * list Z) :=
  let* sfn := array_copy fn 0 (replicate 11 32) in
  let* r := name_chars (S (length path)) path sfn 0 0 8 in
  match r with
  | None => ret (FR_INVALID_NAME, sfn, path)
  | Some (c, sfn, si, i) =>
      let rest := drop (Z.to_nat si) path in
      if i =? 0 then ret (FR_INVALID_NAME, sfn, rest) else
      let* c0 := array_get sfn 0 in
      let* sfn := (if c0 =? DDEM then array_set sfn 0 RDDEM else ret sfn) in
      let* last := (if c <=? 32 then ret true else
                    let* d := array_get path si in ret (d <=? 32)) in
      let* sfn := array_set sfn NSFLAG (if last then NS_LAST else 0) in
      ret (FR_OK, sfn, rest)
  end.

(** ** Paths *)

(** The loop of [follow_path] over the segments. *)
Fixpoint follow_loop (fuel : nat) (dp : DIR) (path : list Z) : K (FRESULT * DIR) :=
  match fuel with
  | O => fail OutOfFuel
  | S fuel =>
      let* r := create_name (fn dp) path in
      let '(res, name, path) := r in
      let dp := set_fn name dp in
      if negb (is_ok res) then ret (res, dp) else
      let* r := dir_find dp in
      let '(res, dp) := r in
      let* ns := array_get (fn dp) NSFLAG in
      let last := negb (Z.land ns NS_LAST =? 0) in
      if negb (is_ok res) then
        ret (if fr_eqb res FR_NO_FILE && negb last then FR_NO_PATH else res, dp)
      else if last then ret (res, dp) else
      if Z.land (dj_attr dp) AM_DIR =? 0 then ret (FR_NO_PATH, dp) else
      let* cl := ld_clust (dptr dp mod SS) in
      follow_loop fuel (set_dj_sclust cl dp) path
  end.

Definition follow_path (dp : DIR) (path : list Z) : K (FRESULT * DIR) :=
  let* n := skip_separators (S (length path)) path 0 in
  let path := drop (Z.to_nat n) path in
  let dp := set_dj_sclust 0 dp in
  let* c := array_get path 0 in
  if c <? 32 then
    let* name := array_set (fn dp) NSFLAG NS_NONAME in
    dir_sdi (set_fn name dp) 0
  else follow_loop (S (length path)) dp path.

(** ** Volumes *)

(** [do { tc = *tt++; } while (!IsTerminator(tc) && tc != ':');] *)
Fixpoint find_colon {St} (fuel : nat) (tp : list Z) (n : Z) : M St (Z * Z) :=
  match fuel with
  | O => fail OutOfFuel
  | S fuel =>
      let* tc := array_get tp n in
      let n := n + 1 in
      if negb (IsTerminator tc) && negb (tc =? 58) then find_colon fuel tp n else ret (tc, n)
  end.

(** The drive number, and the path without the drive prefix; a null pointer is
    [None]. *)
Definition get_ldnumber {St} (path : option (list Z)) : M St (Z * option (list Z)) :=
  match path with
  | None => ret (-1, path)
  | Some tp =>
      let* r := find_colon (S (length tp)) tp 0 in
      let '(tc, n) := r in
      if tc =? 58 then
        let* c := array_get tp 0 in
        let i := if IsDigit c && (2 =? n) then c - 48 else FF_VOLUMES in
        ret (if i <? FF_VOLUMES then (i, Some (drop (Z.to_nat n) tp)) else (-1, path))
      else ret (0, path)
  end.

Definition FAT32_TYPE : list Z := [70; 65; 84; 51; 50; 32; 32; 32].

(** [cond1 && cond2] with conditions that read memory. *)
Definition andM {St} (a b : M St bool) : M St bool :=
  let* x := a in if x : bool then b else ret false.

Definition pow2 (n : Z) : bool := Z.land n (n - 1) =? 0.

Definition check_fs (sect : Z) : K Z :=
  do* fs_upd (fun fs => set_winsect (u32 (0 - 1)) (set_wflag 0 fs)) in
  let* res := move_window sect in
  if negb (is_ok res) then ret 4 else
  let* sign := win_ld_word BS_55AA in
  let* b := win_get BS_JmpBoot in
  let other := ret (if sign =? 0xAA55 then 2 else 3) in
  if (b =? 0xEB) || (b =? 0xE9) || (b =? 0xE8) then
    let* fat32 := (if sign =? 0xAA55 then
                     let* fs := the_fs in mem_eq 8 (win fs) BS_FilSysType32 FAT32_TYPE 0
                   else ret false) in
    if fat32 : bool then ret 0 else
    let* w := win_ld_word BPB_BytsPerSec in
    let* b := win_get BPB_SecPerClus in
    let* fat :=
      andM (ret (pow2 w && (SS <=? w) && (w <=? SS) && negb (b =? 0) && pow2 b))
      (andM (let* n := win_ld_word BPB_RsvdSecCnt in ret (negb (n =? 0)))
      (andM (let* n := win_get BPB_NumFATs in ret (u32 (n - 1) <=? 1))
      (andM (let* n := win_ld_word BPB_RootEntCnt in ret (negb (n =? 0)))
      (andM (let* n := win_ld_word BPB_TotSec16 in
             if 128 <=? n then ret true else
             let* n := win_ld_dword BPB_TotSec32 in ret (0x10000 <=? n))
            (let* n := win_ld_word BPB_FATSz16 in ret (negb (n =? 0))))))) in
    if fat : bool then ret 0 else other
  else other.

(** The loop over the partition table, from the entry [i] on; [part] is 0. *)
Fixpoint try_partitions (mbr_pt : list Z) : K Z :=
  match mbr_pt with
  | [] => ret 3
  | pt :: rest =>
      let* fmt := (if negb (pt =? 0) then check_fs pt else ret 3) in
      if (2 <=? fmt) && negb (bool_decide (rest = [])) then try_partitions rest else ret fmt
  end.

(** [find_volume(fs, 0)] *)
Definition find_volume : K Z :=
  let* fmt := check_fs 0 in
  if negb (fmt =? 2) then ret fmt else
  let* p0 := win_ld_dword (MBR_Table + 0 * SZ_PTE + PTE_StLba) in
  let* p1 := win_ld_dword (MBR_Table + 1 * SZ_PTE + PTE_StLba) in
  let* p2 := win_ld_dword (MBR_Table + 2 * SZ_PTE + PTE_StLba) in
  let* p3 := win_ld_dword (MBR_Table + 3 * SZ_PTE + PTE_StLba) in
  try_partitions [p0; p1; p2; p3].

(** The sub-type for a number of clusters. *)
Definition fat_format (nclst : Z) : Z :=
  if nclst <=? MAX_FAT12 then FS_FAT12 else
  if nclst <=? MAX_FAT16 then FS_FAT16 else
  if nclst <=? MAX_FAT32 then FS_FAT32 else 0.

(** The last part of [mount_volume]: the cluster counts of the FSINFO sector. *)
Definition load_fsinfo (fmt bsect : Z) : K unit :=
  do* fs_upd (fun fs => set_fsi_flag 0x80 (set_free_clst 0xFFFFFFFF (set_last_clst 0xFFFFFFFF fs))) in
  let* present :=
    andM (ret (fmt =? FS_FAT32))
    (andM (let* n := win_ld_word BPB_FSInfo32 in ret (n =? 1))
          (let* res := move_window (u32 (bsect + 1)) in ret (is_ok res))) in
  if present : bool then
    do* fs_upd (set_fsi_flag 0) in
    let* valid :=
      andM (let* n := win_ld_word BS_55AA in ret (n =? 0xAA55))
      (andM (let* n := win_ld_dword FSI_LeadSig in ret (n =? 0x41615252))
            (let* n := win_ld_dword FSI_StrucSig in ret (n =? 0x61417272))) in
    if valid : bool then
      let* free := win_ld_dword FSI_Free_Count in
      do* fs_upd (set_free_clst free) in
      let* last := win_ld_dword FSI_Nxt_Free in
      fs_upd (set_last_clst last)
    else ret tt
  else ret tt.

(** The part of [mount_volume] that reads the boot sector in the window, without
    the final assignments of the type and the id: the type, or the error. *)
Definition read_bpb : K (Z + FRESULT) :=
  let no_fs := ret (inr FR_NO_FILESYSTEM) in
  let* fs := the_fs in
  let bsect := winsect fs in
  let* n := win_ld_word BPB_BytsPerSec in
  if negb (n =? SS) then no_fs else
  let* fasize := win_ld_word BPB_FATSz16 in
  let* fasize := (if fasize =? 0 then win_ld_dword BPB_FATSz32 else ret fasize) in
  do* fs_upd (set_fsize fasize) in
  let* nf := win_get BPB_NumFATs in
  do* fs_upd (set_n_fats nf) in
  if negb (nf =? 1) && negb (nf =? 2) then no_fs else
  let fatsz := u32 (fasize * nf) in
  let* cs := win_get BPB_SecPerClus in
  do* fs_upd (set_csize cs) in
  if (cs =? 0) || negb (pow2 cs) then no_fs else
  let* nroot := win_ld_word BPB_RootEntCnt in
  do* fs_upd (set_n_rootdir nroot) in
  if negb (nroot mod (SS / SZDIRE) =? 0) then no_fs else
  let* tsect := win_ld_word BPB_TotSec16 in
  let* tsect := (if tsect =? 0 then win_ld_dword BPB_TotSec32 else ret tsect) in
  let* nrsv := win_ld_word BPB_RsvdSecCnt in
  if nrsv =? 0 then no_fs else
  let sysect := u32 (nrsv + fatsz + nroot / (SS / SZDIRE)) in
  if tsect <? sysect then no_fs else
  let nclst := (tsect - sysect) / cs in
  if nclst =? 0 then no_fs else
  let fmt := fat_format nclst in
  if fmt =? 0 then no_fs else
  let nent := u32 (nclst + 2) in
  do* fs_upd (fun fs => set_database (u32 (bsect + sysect)) (set_fatbase (u32 (bsect + nrsv))
                (set_volbase bsect (set_n_fatent nent fs)))) in
  let finish szbfat :=
    if fasize <? u32 (szbfat + (SS - 1)) / SS then no_fs else
    do* load_fsinfo fmt bsect in ret (inl fmt) in
  if fmt =? FS_FAT32 then
    let* ver := win_ld_word BPB_FSVer32 in
    if negb (ver =? 0) then no_fs else
    if negb (nroot =? 0) then no_fs else
    let* root := win_ld_dword BPB_RootClus32 in
    do* fs_upd (set_dirbase root) in
    finish (u32 (nent * 4))
  else
    if nroot =? 0 then no_fs else
    do* fs_upd (set_dirbase (u32 (u32 (bsect + nrsv) + fatsz))) in
    finish (if fmt =? FS_FAT16 then u32 (nent * 2)
            else u32 (u32 (nent * 3) / 2 + Z.land nent 1)).

(** ** Global state *)

Definition W (A : Type) : Type := M (ff D) A.

(** What a function does to [*fs] and the drive. *)
Definition vol_lens (fs : Z) : lens (ff D) (vol D) :=
  Lens (fun s => Vol (ff_objs s fs) (ff_drive s))
       (fun v s => FF (ff_fatfs s) (ff_fsid s) (fupd (ff_objs s) fs (v_fs v)) (v_drive v)).
Definition on_fs {A} (fs : Z) (m : K A) : W A := zoom (vol_lens fs) m.

Definition mount_volume (path : option (list Z)) (mode : Z) : W (FRESULT * option (list Z) * option Z) :=
  let* r := get_ldnumber path in
  let '(vol, path) := r in
  if vol <? 0 then ret (FR_INVALID_DRIVE, path, None) else
  let* p := gets ff_fatfs in
  match p with
  | None => ret (FR_NOT_ENABLED, path, None)
  | Some p =>
      let done res := ret (res, path, Some p) in
      let mode := Z.ldiff mode FA_READ in
      let* fs := on_fs p the_fs in
      let protected stat := negb (mode =? 0) && negb (Z.land stat STA_PROTECT =? 0) in
      let* stat := (if negb (fs_type fs =? 0) then on_fs p (on_drive (disk_status (pdrv fs)))
                    else ret STA_NOINIT) in
      if negb (fs_type fs =? 0) && (Z.land stat STA_NOINIT =? 0) then
        done (if protected stat then FR_WRITE_PROTECTED else FR_OK)
      else
      do* on_fs p (fs_upd (set_fs_type 0)) in
      let* stat := on_fs p (on_drive (disk_initialize (pdrv fs))) in
      if negb (Z.land stat STA_NOINIT =? 0) then done FR_NOT_READY else
      if protected stat then done FR_WRITE_PROTECTED else
      let* fmt := on_fs p find_volume in
      if fmt =? 4 then done FR_DISK_ERR else
      if 2 <=? fmt then done FR_NO_FILESYSTEM else
      let* r := on_fs p read_bpb in
      match r with
      | inr res => done res
      | inl fmt =>
          do* on_fs p (fs_upd (set_fs_type fmt)) in
          do* modify (fun s => FF (ff_fatfs s) (u16 (ff_fsid s + 1)) (ff_objs s) (ff_drive s)) in
          let* id := gets ff_fsid in
          do* on_fs p (fs_upd (set_fs_id id)) in
          done FR_OK
      end
  end.

(** [validate]: the filesystem object, or [FR_INVALID_OBJECT].  The object
    itself is never a null pointer here. *)
Definition validate (o_fs : option Z) (o_id : Z) : W (option Z) :=
  match o_fs with
  | None => ret None
  | Some p =>
      let* fs := on_fs p the_fs in
      if negb (fs_type fs =? 0) && (o_id =? fs_id fs) then
        let* stat := on_fs p (on_drive (disk_status (pdrv fs))) in
        ret (if Z.land stat STA_NOINIT =? 0 then Some p else None)
      else ret None
  end.
End FatPath.
