(* ===== verification/FatFile.v ===== *)
(** * FatFs: files and directories of the application

    The public functions of [ff.c].  A [FIL *] or [DIR *] of the caller is passed
    in and out; what a function stores through other pointers is part of its
    result.  Uninitialised local objects start with zeros; no member is read
    before it is set. *)

From S2P Require Import Prelude FatData FatFs FatPath.

#[local] Open Scope Z_scope.
#[local] Open Scope list_scope.

Definition DIR0 : DIR := MkDIR 0 0 0 0 0 0 (replicate 12 0).

Definition has_flag (fp : FIL) (f : Z) : bool := negb (Z.land (f_flag fp) f =? 0).
Definition clear_flag (f : Z) (fp : FIL) : FIL := set_f_flag (Z.ldiff (f_flag fp) f) fp.
Definition add_flag (f : Z) (fp : FIL) : FIL := set_f_flag (Z.lor (f_flag fp) f) fp.

Section FatFile.
Context {D : Type} `{Drive D}.

Abbreviation K := (FatFs.K (D := D)).
Abbreviation W := (FatPath.W (D := D)).

Definition f_mount (fs : option Z) (path : list Z) (opt : Z) : W FRESULT :=
  let* r := get_ldnumber (Some path) in
  let vol := r.1 in
  if vol <? 0 then ret FR_INVALID_DRIVE else
  let* cfs := gets ff_fatfs in
  let register p := modify (fun s => FF p (ff_fsid s) (ff_objs s) (ff_drive s)) in
  do* (match cfs with
       | Some p => do* register None in on_fs p (fs_upd (set_fs_type 0))
       | None => ret tt
       end) in
  do* (match fs with
       | Some p => do* on_fs p (fs_upd (fun x => set_fs_type 0 (set_pdrv (u8 vol) x))) in
                   register (Some p)
       | None => ret tt
       end) in
  if opt =? 0 then ret FR_OK else
  let* r := mount_volume (Some path) 0 in
  ret r.1.1.

(** ** Reading *)

(** [fp->buf] is written back when it is dirty; [None] on an error. *)
Definition write_back (fp : FIL) : K (option FIL) :=
  if has_flag fp FA_DIRTY then
    let* fs := the_fs in
    let* r := on_drive (disk_write (pdrv fs) (f_buf fp) (f_sect fp) 1) in
    ret (if r =? RES_OK then Some (clear_flag FA_DIRTY fp) else None)
  else ret (Some fp).

(** [disk_read(fs->pdrv, fp->buf, sect, 1)] *)
Definition read_buf (fp : FIL) (sect : Z) : K (Z * FIL) :=
  let* fs := the_fs in
  let* r := on_drive (disk_read (pdrv fs) (f_buf fp) sect 1) in
  ret (r.1, set_f_buf r.2 fp).

(** The cluster of [fp->fptr] in [f_read]. *)
Definition read_cluster (fp : FIL) (csect : Z) : K (FIL + FRESULT) :=
  if negb (csect =? 0) then ret (inl fp) else
  let* clst := (if fptr fp =? 0 then ret (f_sclust fp) else get_fat (f_clust fp)) in
  if clst <? 2 then ret (inr FR_INT_ERR) else
  if clst =? DISK_ERR then ret (inr FR_DISK_ERR) else
  ret (inl (set_f_clust clst fp)).

(** Whole sectors, read into the buffer of the caller; dirty data in [fp->buf]
    is newer than the disk. *)
Definition read_direct (fp : FIL) (buff : list Z) (off sect cc : Z) : K (Z * list Z) :=
  let* fs := the_fs in
  let* r := on_drive (disk_read (pdrv fs) (drop (Z.to_nat off) buff) sect cc) in
  let buff := take (Z.to_nat off) buff ++ r.2 in
  if negb (r.1 =? RES_OK) then ret (r.1, buff) else
  if has_flag fp FA_DIRTY && (u32 (f_sect fp - sect) <? cc) then
    let* buff := array_copy buff (off + u32 (u32 (f_sect fp - sect) * SS)) (f_buf fp) in
    ret (RES_OK, buff)
  else ret (RES_OK, buff).

(** [fp->buf] with the sector [sect]. *)
Definition load_sector (fp : FIL) (sect : Z) : K (FRESULT * FIL) :=
  if f_sect fp =? sect then ret (FR_OK, fp) else
  let* w := write_back fp in
  match w with
  | None => ret (FR_DISK_ERR, fp)
  | Some fp =>
      let* r := read_buf fp sect in
      ret (if negb (r.1 =? RES_OK) then (FR_DISK_ERR, r.2) else (FR_OK, set_f_sect sect r.2))
  end.

(** The sector offset in the cluster. *)
Definition sector_offset (fs : FATFS) (fp : FIL) : Z := Z.land (fptr fp / SS) (csize fs - 1).

(** The loop of [f_read]; [off] is how far [rbuff] has moved in the buffer of the
    caller, which is [*br] as well. *)
Fixpoint read_bytes (fuel : nat) (fp : FIL) (buff : list Z) (off btr : Z)
    : K (FRESULT * FIL * list Z * Z) :=
  match fuel with
  | O => fail OutOfFuel
  | S fuel =>
      if btr =? 0 then ret (FR_OK, fp, buff, off) else
      let* fs := the_fs in
      let abort fp buff res := ret (res, set_f_err res fp, buff, off) in
      let next fp buff rcnt :=
        read_bytes fuel (set_fptr (u32 (fptr fp + rcnt)) fp) buff (off + rcnt) (btr - rcnt) in
      let partial fp :=
        let rcnt := SS - fptr fp mod SS in
        let rcnt := if btr <? rcnt then btr else rcnt in
        let* bytes := array_slice (f_buf fp) (fptr fp mod SS) (Z.to_nat rcnt) in
        let* buff := array_copy buff off bytes in
        next fp buff rcnt in
      if negb (fptr fp mod SS =? 0) then partial fp else
      let csect := sector_offset fs fp in
      let* c := read_cluster fp csect in
      match c with
      | inr res => abort fp buff res
      | inl fp =>
          let* sect := clst2sect (f_clust fp) in
          if sect =? 0 then abort fp buff FR_INT_ERR else
          let sect := u32 (sect + csect) in
          let cc := btr / SS in
          if 0 <? cc then
            let cc := if csize fs <? csect + cc then csize fs - csect else cc in
            let* r := read_direct fp buff off sect cc in
            if negb (r.1 =? RES_OK) then abort fp r.2 FR_DISK_ERR else next fp r.2 (SS * cc)
          else
            let* l := load_sector fp sect in
            if is_ok l.1 then partial l.2 else abort l.2 buff l.1
      end
  end.

(** The result, the file object, the buffer and [*br]. *)
Definition f_read (fp : FIL) (buff : list Z) (btr : Z) : W (FRESULT * FIL * list Z * Z) :=
  let* p := validate (f_fs fp) (f_id fp) in
  match p with
  | None => ret (FR_INVALID_OBJECT, fp, buff, 0)
  | Some p =>
      if negb (is_ok (f_err fp)) then ret (f_err fp, fp, buff, 0) else
      if negb (has_flag fp FA_READ) then ret (FR_DENIED, fp, buff, 0) else
      let remain := u32 (f_objsize fp - fptr fp) in
      let btr := if remain <? btr then remain else btr in
      on_fs p (read_bytes (S (Z.to_nat btr)) fp buff 0 btr)
  end.

(** ** Writing *)

(** The cluster of [fp->fptr] in [f_write]: [inr None] when the disk is full. *)
Definition write_cluster (fp : FIL) (csect : Z) : K (FIL + option FRESULT) :=
  if negb (csect =? 0) then ret (inl fp) else
  let* clst := (if fptr fp =? 0
                then (if f_sclust fp =? 0 then create_chain 0 else ret (f_sclust fp))
                else create_chain (f_clust fp)) in
  if clst =? 0 then ret (inr None) else
  if clst =? 1 then ret (inr (Some FR_INT_ERR)) else
  if clst =? DISK_ERR then ret (inr (Some FR_DISK_ERR)) else
  let fp := set_f_clust clst fp in
  ret (inl (if f_sclust fp =? 0 then set_f_sclust clst fp else fp)).

(** Whole sectors, written from the buffer of the caller. *)
Definition write_direct (fp : FIL) (wbuff : list Z) (off sect cc : Z) : K (Z * FIL) :=
  let* fs := the_fs in
  let* r := on_drive (disk_write (pdrv fs) (drop (Z.to_nat off) wbuff) sect cc) in
  if negb (r =? RES_OK) then ret (r, fp) else
  if u32 (f_sect fp - sect) <? cc then
    let* bytes := array_slice wbuff (off + u32 (u32 (f_sect fp - sect) * SS)) (Z.to_nat SS) in
    let* b := array_copy (f_buf fp) 0 bytes in
    ret (RES_OK, clear_flag FA_DIRTY (set_f_buf b fp))
  else ret (RES_OK, fp).

(** The buffer with the sector [sect], which is read unless it is all new. *)
Definition fill_sector (fp : FIL) (sect : Z) : K (FRESULT * FIL) :=
  let* r := (if negb (f_sect fp =? sect) && (fptr fp <? f_objsize fp) then read_buf fp sect
             else ret (RES_OK, fp)) in
  ret (if negb (r.1 =? RES_OK) then (FR_DISK_ERR, r.2) else (FR_OK, set_f_sect sect r.2)).

(** The increment of the loop of [f_write]. *)
Definition advance (wcnt : Z) (fp : FIL) : FIL :=
  let fp := set_fptr (u32 (fptr fp + wcnt)) fp in
  set_f_objsize (if f_objsize fp <? fptr fp then fptr fp else f_objsize fp) fp.

Fixpoint write_bytes (fuel : nat) (fp : FIL) (wbuff : list Z) (off btw : Z)
    : K (FRESULT * FIL * Z) :=
  match fuel with
  | O => fail OutOfFuel
  | S fuel =>
      let finish fp := ret (FR_OK, add_flag FA_MODIFIED fp, off) in
      if btw =? 0 then finish fp else
      let* fs := the_fs in
      let abort fp res := ret (res, set_f_err res fp, off) in
      let next fp wcnt := write_bytes fuel (advance wcnt fp) wbuff (off + wcnt) (btw - wcnt) in
      let partial fp :=
        let wcnt := SS - fptr fp mod SS in
        let wcnt := if btw <? wcnt then btw else wcnt in
        let* bytes := array_slice wbuff off (Z.to_nat wcnt) in
        let* b := array_copy (f_buf fp) (fptr fp mod SS) bytes in
        next (add_flag FA_DIRTY (set_f_buf b fp)) wcnt in
      if negb (fptr fp mod SS =? 0) then partial fp else
      let csect := sector_offset fs fp in
      let* c := write_cluster fp csect in
      match c with
      | inr None => finish fp
      | inr (Some res) => abort fp res
      | inl fp =>
          let* w := write_back fp in
          match w with
          | None => abort fp FR_DISK_ERR
          | Some fp =>
              let* sect := clst2sect (f_clust fp) in
              if sect =? 0 then abort fp FR_INT_ERR else
              let sect := u32 (sect + csect) in
              let cc := btw / SS in
              if 0 <? cc then
                let cc := if csize fs <? csect + cc then csize fs - csect else cc in
                let* r := write_direct fp wbuff off sect cc in
                if negb (r.1 =? RES_OK) then abort fp FR_DISK_ERR else next r.2 (SS * cc)
              else
                let* l := fill_sector fp sect in
                if is_ok l.1 then partial l.2 else abort l.2 l.1
          end
      end
  end.

(** The result, the file object, and [*bw]. *)
Definition f_write (fp : FIL) (wbuff : list Z) (btw : Z) : W (FRESULT * FIL * Z) :=
  let* p := validate (f_fs fp) (f_id fp) in
  match p with
  | None => ret (FR_INVALID_OBJECT, fp, 0)
  | Some p =>
      if negb (is_ok (f_err fp)) then ret (f_err fp, fp, 0) else
      if negb (has_flag fp FA_WRITE) then ret (FR_DENIED, fp, 0) else
      let btw := if u32 (fptr fp + btw) <? fptr fp then 0xFFFFFFFF - fptr fp else btw in
      on_fs p (write_bytes (S (Z.to_nat btw)) fp wbuff 0 btw)
  end.

(** ** Closing *)

(** The part of [f_sync] after the data has been written. *)
Definition sync_entry (fp : FIL) : K (FRESULT * FIL) :=
  let* tm := on_drive get_fattime in
  let* res := move_window (dir_sect fp) in
  if negb (is_ok res) then ret (res, fp) else
  let dir := dir_ptr fp in
  let* a := win_get (dir + DIR_Attr) in
  do* win_set (dir + DIR_Attr) (Z.lor a AM_ARC) in
  do* st_clust dir (f_sclust fp) in
  do* win_st_dword (dir + DIR_FileSize) (f_objsize fp) in
  do* win_st_dword (dir + DIR_ModTime) tm in
  do* win_st_word (dir + DIR_LstAccDate) 0 in
  do* fs_upd (set_wflag 1) in
  let* res := sync_fs in
  ret (res, clear_flag FA_MODIFIED fp).

Definition f_sync (fp : FIL) : W (FRESULT * FIL) :=
  let* p := validate (f_fs fp) (f_id fp) in
  match p with
  | None => ret (FR_INVALID_OBJECT, fp)
  | Some p =>
      if negb (has_flag fp FA_MODIFIED) then ret (FR_OK, fp) else
      on_fs p
        (let* w := write_back fp in
         match w with
         | None => ret (FR_DISK_ERR, fp)
         | Some fp => sync_entry fp
         end)
  end.

Definition f_close (fp : FIL) : W (FRESULT * FIL) :=
  let* r := f_sync fp in
  if negb (is_ok r.1) then ret r else
  let fp := r.2 in
  let* p := validate (f_fs fp) (f_id fp) in
  ret (match p with Some _ => (FR_OK, set_f_fs None fp) | None => (FR_INVALID_OBJECT, fp) end).

(** ** Opening *)

(** Truncating the file at the entry [dj] on creation. *)
Definition truncate_entry (dj : DIR) : K FRESULT :=
  let* tm := on_drive get_fattime in
  do* win_st_dword (ddir dj + DIR_CrtTime) tm in
  do* win_st_dword (ddir dj + DIR_ModTime) tm in
  let* cl := ld_clust (ddir dj) in
  do* win_set (ddir dj + DIR_Attr) AM_ARC in
  do* st_clust (ddir dj) 0 in
  do* win_st_dword (ddir dj + DIR_FileSize) 0 in
  do* fs_upd (set_wflag 1) in
  if cl =? 0 then ret FR_OK else
  let* fs := the_fs in
  let sc := winsect fs in
  check (remove_chain cl 0)
    (let* res := move_window sc in
     do* fs_upd (set_last_clst (u32 (cl - 1))) in
     ret res).

(** The result of [follow_path] as a creating [f_open] takes it, and the entry it
    made; then the new mode. *)
Definition open_create (res : FRESULT) (dj : DIR) (mode : Z) : K (FRESULT * DIR * Z) :=
  let* r :=
    (if negb (is_ok res) then
       let* r := (if fr_eqb res FR_NO_FILE then dir_register dj else ret (res, dj)) in
       ret (r.1, r.2, Z.lor mode FA_CREATE_ALWAYS)
     else ret (if negb (Z.land (dj_attr dj) (Z.lor AM_RDO AM_DIR) =? 0) then FR_DENIED
               else if negb (Z.land mode FA_CREATE_NEW =? 0) then FR_EXIST else FR_OK, dj, mode)) in
  let '(res, dj, mode) := r in
  let* res := (if is_ok res && negb (Z.land mode FA_CREATE_ALWAYS =? 0) then truncate_entry dj
               else ret res) in
  ret (res, dj, mode).

Definition open_existing (res : FRESULT) (dj : DIR) (mode : Z) : FRESULT :=
  if negb (is_ok res) then res else
  if negb (Z.land (dj_attr dj) AM_DIR =? 0) then FR_NO_FILE else
  if negb (Z.land mode FA_WRITE =? 0) && negb (Z.land (dj_attr dj) AM_RDO =? 0) then FR_DENIED
  else FR_OK.

(** The loop over the clusters of a file opened for appending. *)
Fixpoint append_loop (fuel : nat) (bcs clst ofs : Z) : K (FRESULT * Z * Z) :=
  match fuel with
  | O => fail OutOfFuel
  | S fuel =>
      if ofs <=? bcs then ret (FR_OK, clst, ofs) else
      let* clst := get_fat clst in
      let ofs := ofs - bcs in
      if clst <=? 1 then ret (FR_INT_ERR, clst, ofs) else
      if clst =? DISK_ERR then ret (FR_DISK_ERR, clst, ofs) else
      append_loop fuel bcs clst ofs
  end.

Definition open_append (fp : FIL) : K (FRESULT * FIL) :=
  let* fs := the_fs in
  let fp := set_fptr (f_objsize fp) fp in
  let bcs := u32 (csize fs * SS) in
  let* r := append_loop (S (Z.to_nat (f_objsize fp / SS + 1))) bcs (f_sclust fp) (f_objsize fp) in
  let '(res, clst, ofs) := r in
  let fp := set_f_clust clst fp in
  if is_ok res && negb (ofs mod SS =? 0) then
    let* sc := clst2sect clst in
    if sc =? 0 then ret (FR_INT_ERR, fp) else
    let fp := set_f_sect (u32 (sc + ofs / SS)) fp in
    let* r := read_buf fp (f_sect fp) in
    ret (if r.1 =? RES_OK then FR_OK else FR_DISK_ERR, r.2)
  else ret (res, fp).

(** [f_open] from the mounted volume [p] on. *)
Definition open_on (p : Z) (fp : FIL) (path : list Z) (mode : Z) : K (FRESULT * FIL) :=
  let* r := follow_path DIR0 path in
  let dj := r.2 in
  let* ns := array_get (fn dj) NSFLAG in
  let res := if is_ok r.1 && negb (Z.land ns NS_NONAME =? 0) then FR_INVALID_NAME else r.1 in
  let* r :=
    (if negb (Z.land mode (Z.lor FA_CREATE_ALWAYS (Z.lor FA_OPEN_ALWAYS FA_CREATE_NEW)) =? 0)
     then open_create res dj mode else ret (open_existing res dj mode, dj, mode)) in
  let '(res, dj, mode) := r in
  if negb (is_ok res) then ret (res, fp) else
  let mode := if negb (Z.land mode FA_CREATE_ALWAYS =? 0) then Z.lor mode FA_MODIFIED else mode in
  let* fs := the_fs in
  let* cl := ld_clust (ddir dj) in
  let* size := win_ld_dword (ddir dj + DIR_FileSize) in
  let fp := MkFIL (Some p) (fs_id fs) cl size mode FR_OK 0 (f_clust fp) 0 (winsect fs) (ddir dj)
              (replicate (Z.to_nat SS) 0) in
  if negb (Z.land mode FA_SEEKEND =? 0) && (0 <? f_objsize fp) then open_append fp
  else ret (FR_OK, fp).

Definition OPEN_FLAGS : Z := 0x3F.

Definition f_open (fp : FIL) (path : list Z) (mode : Z) : W (FRESULT * FIL) :=
  let mode := Z.land mode OPEN_FLAGS in
  let* m := mount_volume (Some path) mode in
  let* r :=
    (match m with
     | (FR_OK, Some path, Some p) => on_fs p (open_on p fp path mode)
     | (res, _, _) => ret (res, fp)
     end) in
  ret (r.1, if is_ok r.1 then r.2 else set_f_fs None r.2).

(** ** Seeking and truncating *)

(** [while (ofs > bcs)] of [f_lseek]: what is left of the offset, or the error
    that aborts. *)
Fixpoint seek_loop (fuel : nat) (fp : FIL) (bcs clst ofs : Z) : K (FIL * (Z * Z + FRESULT)) :=
  match fuel with
  | O => fail OutOfFuel
  | S fuel =>
      if ofs <=? bcs then ret (fp, inl (clst, ofs)) else
      let* fs := the_fs in
      let ofs := ofs - bcs in
      let fp := set_fptr (u32 (fptr fp + bcs)) fp in
      let* clst := (if has_flag fp FA_WRITE then create_chain clst else get_fat clst) in
      if has_flag fp FA_WRITE && (clst =? 0) then ret (fp, inl (clst, 0)) else
      if clst =? DISK_ERR then ret (fp, inr FR_DISK_ERR) else
      if (clst <=? 1) || (n_fatent fs <=? clst) then ret (fp, inr FR_INT_ERR) else
      seek_loop fuel (set_f_clust clst fp) bcs clst ofs
  end.

(** The position in the file: [fp] with the new pointer, and [nsect]; or the
    error. *)
Definition seek_to (fp : FIL) (ofs : Z) : K (FIL * (Z + FRESULT)) :=
  let* fs := the_fs in
  let ifptr := fptr fp in
  let fp := set_fptr 0 fp in
  if ofs =? 0 then ret (fp, inl 0) else
  let bcs := u32 (csize fs * SS) in
  let* start :=
    (if (0 <? ifptr) && ((ifptr - 1) / bcs <=? (ofs - 1) / bcs) then
       let fp := set_fptr (Z.ldiff (ifptr - 1) (bcs - 1)) fp in
       ret (fp, inl (f_clust fp, ofs - fptr fp))
     else
       let* clst := (if f_sclust fp =? 0 then create_chain 0 else ret (f_sclust fp)) in
       if (f_sclust fp =? 0) && (clst =? 1) then ret (fp, inr FR_INT_ERR) else
       if (f_sclust fp =? 0) && (clst =? DISK_ERR) then ret (fp, inr FR_DISK_ERR) else
       let fp := if f_sclust fp =? 0 then set_f_sclust clst fp else fp in
       ret (set_f_clust clst fp, inl (clst, ofs))) in
  let '(fp, r) := start in
  match r with
  | inr res => ret (fp, inr res)
  | inl (clst, ofs) =>
      if clst =? 0 then ret (fp, inl 0) else
      let* r := seek_loop (S (Z.to_nat (ofs / SS))) fp bcs clst ofs in
      let '(fp, r) := r in
      match r with
      | inr res => ret (fp, inr res)
      | inl (clst, ofs) =>
          let fp := set_fptr (u32 (fptr fp + ofs)) fp in
          if ofs mod SS =? 0 then ret (fp, inl 0) else
          let* nsect := clst2sect clst in
          if nsect =? 0 then ret (fp, inr FR_INT_ERR)
          else ret (fp, inl (u32 (nsect + ofs / SS)))
      end
  end.

Definition seek_on (fp : FIL) (ofs : Z) : K (FRESULT * FIL) :=
  let abort fp res := ret (res, set_f_err res fp) in
  let ofs := if (f_objsize fp <? ofs) && negb (has_flag fp FA_WRITE) then f_objsize fp else ofs in
  let* r := seek_to fp ofs in
  let '(fp, r) := r in
  match r with
  | inr res => abort fp res
  | inl nsect =>
      let fp := if f_objsize fp <? fptr fp
                then add_flag FA_MODIFIED (set_f_objsize (fptr fp) fp) else fp in
      if negb (fptr fp mod SS =? 0) && negb (nsect =? f_sect fp) then
        let* w := write_back fp in
        match w with
        | None => abort fp FR_DISK_ERR
        | Some fp =>
            let* r := read_buf fp nsect in
            if negb (r.1 =? RES_OK) then abort r.2 FR_DISK_ERR
            else ret (FR_OK, set_f_sect nsect r.2)
        end
      else ret (FR_OK, fp)
  end.

Definition f_lseek (fp : FIL) (ofs : Z) : W (FRESULT * FIL) :=
  let* p := validate (f_fs fp) (f_id fp) in
  match p with
  | None => ret (FR_INVALID_OBJECT, fp)
  | Some p => if negb (is_ok (f_err fp)) then ret (f_err fp, fp) else on_fs p (seek_on fp ofs)
  end.

Definition truncate_on (fp : FIL) : K (FRESULT * FIL) :=
  let* fs := the_fs in
  let* r :=
    (if fptr fp =? 0 then
       let* res := remove_chain (f_sclust fp) 0 in ret (res, set_f_sclust 0 fp)
     else
       let* ncl := get_fat (f_clust fp) in
       if ncl =? DISK_ERR then ret (FR_DISK_ERR, fp) else
       if ncl =? 1 then ret (FR_INT_ERR, fp) else
       if ncl <? n_fatent fs
       then let* res := remove_chain ncl (f_clust fp) in ret (res, fp)
       else ret (FR_OK, fp)) in
  let '(res, fp) := r in
  let fp := add_flag FA_MODIFIED (set_f_objsize (fptr fp) fp) in
  let* w := (if is_ok res then write_back fp else ret (Some fp)) in
  let '(res, fp) := match w with Some fp => (res, fp) | None => (FR_DISK_ERR, fp) end in
  ret (res, if is_ok res then fp else set_f_err res fp).

Definition f_truncate (fp : FIL) : W (FRESULT * FIL) :=
  let* p := validate (f_fs fp) (f_id fp) in
  match p with
  | None => ret (FR_INVALID_OBJECT, fp)
  | Some p =>
      if negb (is_ok (f_err fp)) then ret (f_err fp, fp) else
      if negb (has_flag fp FA_WRITE) then ret (FR_DENIED, fp) else
      if fptr fp <? f_objsize fp then on_fs p (truncate_on fp) else ret (FR_OK, fp)
  end.
End FatFile.
