(* ===== verification/FatDir.v ===== *)
(** * FatFs: directories of the application

    The public functions of [ff.c] on directories and on names: listing,
    status, free space, removal, creation of directories and renaming. *)

From S2P Require Import Prelude FatData FatFs FatPath FatFile.

#[local] Open Scope Z_scope.
#[local] Open Scope list_scope.

(** A [DIR] of the application, with the members [fs] and [id] of its
    [FFOBJID]. *)
Record DIROBJ := MkDIROBJ { d_fs : option Z; d_id : Z; d_dir : DIR }.

Section FatDir.
Context {D : Type} `{Drive D}.

Abbreviation K := (FatFs.K (D := D)).
Abbreviation W := (FatPath.W (D := D)).

(** The path leads to the volume's directory itself. *)
Definition no_name (dj : DIR) : K bool :=
  let* ns := array_get (fn dj) NSFLAG in ret (negb (Z.land ns NS_NONAME =? 0)).

Definition is_dir (dj : DIR) : bool := negb (Z.land (dj_attr dj) AM_DIR =? 0).

(** After [mount_volume]: the rest [k] on the volume, or the error. *)
Definition mounted {A} (path : list Z) (mode : Z) (err : FRESULT -> A)
    (k : Z -> list Z -> K A) : W A :=
  let* m := mount_volume (Some path) mode in
  match m with
  | (FR_OK, Some path, Some p) => on_fs p (k p path)
  | (res, _, _) => ret (err res)
  end.

(** ** Listing *)

(** The result, the object, and the id it gets when the path was followed. *)
Definition opendir_on (dp : DIR) (path : list Z) : K (FRESULT * DIR * option Z) :=
  let* r := follow_path dp path in
  let '(res, dp) := r in
  let* r :=
    (if negb (is_ok res) then ret (res, dp) else
     let* origin := no_name dp in
     if origin : bool then ret (FR_OK, dp)
     else if is_dir dp then let* cl := ld_clust (ddir dp) in ret (FR_OK, set_dj_sclust cl dp)
     else ret (FR_NO_PATH, dp)) in
  let '(res, dp) := r in
  let* fs := the_fs in
  let* r := (if is_ok res then let* r := dir_sdi dp 0 in ret (r, Some (fs_id fs))
             else ret (res, dp, None)) in
  let '(res, dp, oid) := r in
  ret (if fr_eqb res FR_NO_FILE then FR_NO_PATH else res, dp, oid).

Definition f_opendir (dp : DIROBJ) (path : list Z) : W (FRESULT * DIROBJ) :=
  mounted path 0 (fun res => (res, MkDIROBJ None (d_id dp) (d_dir dp)))
    (fun p path =>
       let* r := opendir_on (d_dir dp) path in
       let '(res, dir, oid) := r in
       ret (res, MkDIROBJ (if is_ok res then Some p else None) (default (d_id dp) oid) dir)).

Definition f_closedir (dp : DIROBJ) : W (FRESULT * DIROBJ) :=
  let* p := validate (d_fs dp) (d_id dp) in
  ret (match p with
       | Some _ => (FR_OK, MkDIROBJ None (d_id dp) (d_dir dp))
       | None => (FR_INVALID_OBJECT, dp)
       end).

Definition readdir_on (dp : DIR) (fno : option FILINFO) : K (FRESULT * DIR * option FILINFO) :=
  match fno with
  | None => let* r := dir_sdi dp 0 in ret (r, None)
  | Some fno =>
      let* r := dir_read dp false in
      let '(res, dp) := r in
      if is_ok res || fr_eqb res FR_NO_FILE then
        let* info := get_fileinfo dp fno in
        let* r := dir_next dp false in
        ret (if fr_eqb r.1 FR_NO_FILE then FR_OK else r.1, r.2, Some info)
      else ret (res, dp, Some fno)
  end.

Definition f_readdir (dp : DIROBJ) (fno : option FILINFO) : W (FRESULT * DIROBJ * option FILINFO) :=
  let* p := validate (d_fs dp) (d_id dp) in
  match p with
  | None => ret (FR_INVALID_OBJECT, dp, fno)
  | Some p =>
      let* r := on_fs p (readdir_on (d_dir dp) fno) in
      let '(res, dir, fno) := r in
      ret (res, MkDIROBJ (d_fs dp) (d_id dp) dir, fno)
  end.

Definition f_stat (path : list Z) (fno : option FILINFO) : W (FRESULT * option FILINFO) :=
  mounted path 0 (fun res => (res, fno))
    (fun _ path =>
       let* r := follow_path DIR0 path in
       let '(res, dj) := r in
       if negb (is_ok res) then ret (res, fno) else
       let* origin := no_name dj in
       if origin : bool then ret (FR_INVALID_NAME, fno) else
       match fno with
       | None => ret (FR_OK, None)
       | Some fno => let* info := get_fileinfo dj fno in ret (FR_OK, Some info)
       end).

(** ** Free space *)

(** The scan of a FAT12: [n] clusters from [clst] on. *)
Fixpoint count_fat12 (n : nat) (clst nfree : Z) : K (FRESULT * Z) :=
  match n with
  | O => ret (FR_OK, nfree)
  | S n =>
      let* stat := get_fat clst in
      if stat =? DISK_ERR then ret (FR_DISK_ERR, nfree) else
      if stat =? 1 then ret (FR_INT_ERR, nfree) else
      count_fat12 n (clst + 1) (if stat =? 0 then nfree + 1 else nfree)
  end.

(** The scan of the words or double words of a FAT. *)
Fixpoint count_entries (n : nat) (sect i nfree : Z) : K (FRESULT * Z) :=
  match n with
  | O => ret (FR_OK, nfree)
  | S n =>
      let* fs := the_fs in
      let* res := (if i =? 0 then move_window sect else ret FR_OK) in
      let sect := if i =? 0 then u32 (sect + 1) else sect in
      if negb (is_ok res) then ret (res, nfree) else
      if fs_type fs =? FS_FAT16 then
        let* e := win_ld_word i in
        count_entries n sect ((i + 2) mod SS) (if e =? 0 then nfree + 1 else nfree)
      else
        let* e := win_ld_dword i in
        count_entries n sect ((i + 4) mod SS)
          (if Z.land e 0x0FFFFFFF =? 0 then nfree + 1 else nfree)
  end.

Definition getfree_on : K (FRESULT * option Z) :=
  let* fs := the_fs in
  if free_clst fs <=? u32 (n_fatent fs - 2) then ret (FR_OK, Some (free_clst fs)) else
  let* r :=
    (if fs_type fs =? FS_FAT12 then count_fat12 (Z.to_nat (Z.max 1 (n_fatent fs - 2))) 2 0
     else count_entries (Z.to_nat (n_fatent fs)) (fatbase fs) 0 0) in
  let '(res, nfree) := r in
  if negb (is_ok res) then ret (res, None) else
  do* fs_upd (fun fs => set_fsi_flag (Z.lor (fsi_flag fs) 1) (set_free_clst nfree fs)) in
  ret (FR_OK, Some nfree).

(** The result, [*nclst] if it is stored to, and [*fatfs]. *)
Definition f_getfree (path : list Z) : W (FRESULT * option Z * option Z) :=
  mounted path 0 (fun res => (res, None, None))
    (fun p _ => let* r := getfree_on in ret (r, Some p)).

(** ** Removal *)

(** The sub-directory at [dclst] has no entries. *)
Definition dir_empty (dclst : Z) : K FRESULT :=
  let* r := dir_sdi (set_dj_sclust dclst DIR0) 0 in
  if negb (is_ok r.1) then ret r.1 else
  let* r := dir_read r.2 false in
  ret (if is_ok r.1 then FR_DENIED else if fr_eqb r.1 FR_NO_FILE then FR_OK else r.1).

Definition unlink_on (path : list Z) : K FRESULT :=
  let* r := follow_path DIR0 path in
  let '(res, dj) := r in
  if negb (is_ok res) then ret res else
  let* origin := no_name dj in
  let res := if origin : bool then FR_INVALID_NAME
             else if negb (Z.land (dj_attr dj) AM_RDO =? 0) then FR_DENIED else FR_OK in
  if negb (is_ok res) then ret res else
  let* dclst := ld_clust (ddir dj) in
  check (if is_dir dj then dir_empty dclst else ret FR_OK)
    (check (dir_remove dj)
       (check (if negb (dclst =? 0) then remove_chain dclst 0 else ret FR_OK) sync_fs)).

Definition f_unlink (path : list Z) : W FRESULT :=
  mounted path FA_WRITE id (fun _ path => unlink_on path).

(** ** Creation of directories *)

(** The entries [.] and [..] in the cleared window. *)
Definition dot_entries (dcl pcl tm : Z) : K unit :=
  do* win_upd (fun w => array_copy w DIR_Name (replicate 11 32)) in
  do* win_set DIR_Name 46 in
  do* win_set DIR_Attr AM_DIR in
  do* win_st_dword DIR_ModTime tm in
  do* st_clust 0 dcl in
  do* win_upd (fun w => let* e := array_slice w 0 (Z.to_nat SZDIRE) in array_copy w SZDIRE e) in
  do* win_set (SZDIRE + 1) 46 in
  do* st_clust SZDIRE pcl in
  fs_upd (set_wflag 1).

Definition mkdir_on (path : list Z) : K FRESULT :=
  let* r := follow_path DIR0 path in
  let '(res, dj) := r in
  if is_ok res then ret FR_EXIST else
  if negb (fr_eqb res FR_NO_FILE) then ret res else
  let* dcl := create_chain 0 in
  let res := if dcl =? 0 then FR_DENIED else if dcl =? 1 then FR_INT_ERR
             else if dcl =? DISK_ERR then FR_DISK_ERR else FR_OK in
  let* tm := on_drive get_fattime in
  let* r :=
    (if negb (is_ok res) then ret (res, dj) else
     let* res := dir_clear dcl in
     if negb (is_ok res) then ret (res, dj) else
     do* dot_entries dcl (dj_sclust dj) tm in
     dir_register dj) in
  let '(res, dj) := r in
  if is_ok res then
    do* win_st_dword (ddir dj + DIR_ModTime) tm in
    do* st_clust (ddir dj) dcl in
    do* win_set (ddir dj + DIR_Attr) AM_DIR in
    do* fs_upd (set_wflag 1) in
    sync_fs
  else do* remove_chain dcl 0 in ret res.

Definition f_mkdir (path : list Z) : W FRESULT :=
  mounted path FA_WRITE id (fun _ path => mkdir_on path).

(** ** Renaming *)

(** The parent in the [..] entry of the directory whose entry is at [dir]. *)
Definition update_dotdot (dir sclust : Z) : K FRESULT :=
  let* cl := ld_clust dir in
  let* sect := clst2sect cl in
  if sect =? 0 then ret FR_INT_ERR else
  let* res := move_window sect in
  let dir := SZDIRE * 1 in
  let* c := win_get (dir + 1) in
  do* (if is_ok res && (c =? 46)
       then do* st_clust dir sclust in fs_upd (set_wflag 1) else ret tt) in
  ret res.

(** The entry [buf] of [djo] under the new name at [djn]. *)
Definition move_entry (djo djn : DIR) (buf : list Z) : K (FRESULT * DIR) :=
  let* r := dir_register djn in
  let '(res, djn) := r in
  if negb (is_ok res) then ret (res, djn) else
  let dir := ddir djn in
  do* win_upd (fun w => array_copy w (dir + 13) (drop 13 buf)) in
  let* a := array_get buf DIR_Attr in
  let a := if Z.land a AM_DIR =? 0 then Z.lor a AM_ARC else a in
  do* win_set (dir + DIR_Attr) a in
  do* fs_upd (set_wflag 1) in
  let* res := (if negb (Z.land a AM_DIR =? 0) && negb (dj_sclust djo =? dj_sclust djn)
               then update_dotdot dir (dj_sclust djn) else ret FR_OK) in
  ret (res, djn).

Definition rename_on (path_old path_new : list Z) : K FRESULT :=
  let* r := follow_path DIR0 path_old in
  let '(res, djo) := r in
  let* ns := array_get (fn djo) NSFLAG in
  let res := if is_ok res && negb (Z.land ns (Z.lor NS_DOT NS_NONAME) =? 0)
             then FR_INVALID_NAME else res in
  if negb (is_ok res) then ret res else
  let* fs := the_fs in
  let* buf := array_slice (win fs) (ddir djo) (Z.to_nat SZDIRE) in
  let* r := follow_path djo path_new in
  let '(res, djn) := r in
  let res := if is_ok res then
               if (dj_sclust djn =? dj_sclust djo) && (dptr djn =? dptr djo)
               then FR_NO_FILE else FR_EXIST
             else res in
  let* res := (if fr_eqb res FR_NO_FILE then let* r := move_entry djo djn buf in ret r.1
               else ret res) in
  if negb (is_ok res) then ret res else
  check (dir_remove djo) sync_fs.

Definition f_rename (path_old path_new : list Z) : W FRESULT :=
  let* r := get_ldnumber (Some path_new) in
  let path_new := default path_new r.2 in
  mounted path_old FA_WRITE id (fun _ path => rename_on path path_new).
End FatDir.
