(* ===== verification/Exercise.v ===== *)
(** * The applications with files

    [projects/tutorial.09.fs] and [projects/exercise]: the file system on the disk,
    and an application that serves requests to be replaced by a program from a
    file.  The file system works on its part [files] of the state; the addresses of
    local objects and what they hold before they are written are parameters. *)

From Stdlib Require Import String.
From S2P Require Import Prelude Config CapTypes KState Syscall UserCaps UserSyscall Printf Console Tutorial.
From S2P Require Import Apps FatData FatFs FatPath FatFile.

#[local] Open Scope string_scope.
#[local] Open Scope Z_scope.
#[local] Open Scope list_scope.

Section Files.
Context `{C : Config} {W : Type} `{Serial W} `{Memory W}.
Context {D : Type} `{Drive D} (files : lens W (ff D)).
Context (ecall : Z -> list Z -> M W (Z * list Z)) (junk : list Z) (fuel : nat) (stack : list Z).

Abbreviation cap_derive := (s3k_cap_derive ecall junk fuel).
Abbreviation mon_cap_move := (s3k_mon_cap_move ecall junk fuel).
Abbreviation mon_pmp_load := (s3k_mon_pmp_load ecall junk fuel).
Abbreviation free_cap := (find_free_cap ecall junk).
Abbreviation printf := (alt_printf stack).

(** ** tutorial.09.fs *)

(** [fatfs] is the address of the local [FATFS], [fil] the local [FIL], [buffer]
    the local array of 1024 bytes. *)
Definition fs_main (fatfs : Z) (fil : FIL) (buffer : list Z) : M W unit :=
  do* setup_uart_and_virtio ecall junk fuel in
  do* printf (lit "hello, world\") [] in
  do* zoom files (f_mount (Some fatfs) [CH_NUL] 0) in
  do* printf (lit "File system mounted\") [] in
  let* r := zoom files (f_open fil (literal "newfile.txt") (Z.lor FA_WRITE FA_CREATE_ALWAYS)) in
  let* fil :=
    (if is_ok r.1 then
       let data := removelast (literal "It works!") ++ [CH_CR; CH_LF] in
       let* w := zoom files (f_write r.2 data 11) in
       let* c := zoom files (f_close w.1.2) in
       do* (if is_ok c.1 && (w.2 =? 11) then do* printf (lit "File saved\") [] in ret tt else ret tt) in
       ret c.2
     else do* printf (lit "File not opened\") [] in ret r.2) in
  let* r := zoom files (f_open fil (literal "test.txt") FA_READ) in
  if is_ok r.1 then
    let* x := zoom files (f_read r.2 buffer 1023) in
    let '(_, fil, buffer, br) := x in
    let* c := zoom files (f_close fil) in
    if is_ok c.1 then
      let* buffer := array_set buffer br CH_NUL in
      do* alt_puts buffer in ret tt
    else ret tt
  else do* alt_puts (lit "File not opened\") in ret tt.

(** ** exercise *)

Definition setup_other_app : M W unit :=
  let uart_addr := s3k_napot_encode UART0_BASE_ADDR 0x8 in
  let app1_addr := s3k_napot_encode APP_1_BASE_ADDR APP_1_SIZE in
  let* free_cap_mem_idx := free_cap in
  do* cap_derive RAM_MEM free_cap_mem_idx
        (s3k_mk_memory APP_1_BASE_ADDR (APP_1_BASE_ADDR + APP_1_SIZE) MEM_RWX) in
  let* free_cap_idx := free_cap in
  do* cap_derive free_cap_mem_idx free_cap_idx (s3k_mk_pmp app1_addr MEM_RWX) in
  do* mon_cap_move MONITOR APP0_PID free_cap_idx APP1_PID APP_1_CAP_PMP_MEM in
  do* mon_pmp_load MONITOR APP1_PID APP_1_CAP_PMP_MEM APP_1_PMP_SLOT_MEM in
  let* free_cap_idx := free_cap in
  do* cap_derive free_cap_mem_idx free_cap_idx (s3k_mk_pmp app1_addr MEM_RWX) in
  do* s3k_pmp_load ecall junk fuel free_cap_idx BUFFER_PMP in
  let* free_cap_idx := free_cap in
  do* cap_derive UART_MEM free_cap_idx (s3k_mk_pmp uart_addr MEM_RW) in
  do* mon_cap_move MONITOR APP0_PID free_cap_idx APP1_PID APP_1_CAP_PMP_UART in
  do* mon_pmp_load MONITOR APP1_PID APP_1_CAP_PMP_UART APP_1_PMP_SLOT_UART in
  do* s3k_mon_reg_write ecall junk fuel MONITOR APP1_PID REG_PC APP_1_BASE_ADDR in
  s3k_sync_mem ecall junk.

(** [memcpy((void * )addr, bytes, n)] into the memory of the process. *)
Fixpoint store_bytes (addr : Z) (bytes : list Z) : M W unit :=
  match bytes with
  | [] => ret tt
  | b :: bytes => do* mem_store addr 1 b in store_bytes (addr + 1) bytes
  end.

(** A request: [name] holds the name of the file, the application is suspended and
    its memory replaced. *)
Definition boot_file (fil : FIL) (buffer name : list Z) : M W unit :=
  let* r := zoom files (f_open fil name FA_READ) in
  if negb (is_ok r.1) then do* alt_puts (lit "0> File not opened\") in ret tt else
  do* alt_puts (lit "0> File opened \") in
  let* x := zoom files (f_read r.2 buffer 1024) in
  let '(_, fil, buffer, _) := x in
  let* c := zoom files (f_close fil) in
  if negb (is_ok c.1) then do* alt_puts (lit "0> Filed to read file \") in ret tt else
  do* alt_puts (lit "0> Booting app1 \") in
  do* store_bytes APP_1_BASE_ADDR (take 1024 buffer) in
  do* s3k_mon_reg_write ecall junk fuel MONITOR APP1_PID REG_PC APP_1_BASE_ADDR in
  do* s3k_mon_resume ecall junk fuel MONITOR APP1_PID in
  ret tt.

(** The first [rounds] requests. *)
Fixpoint exercise_loop (rounds : nat) (socket : Z) (msg : s3k_msg) (fil : FIL) (buffer : list Z) : M W unit :=
  match rounds with
  | O => ret tt
  | S rounds =>
      let* reply := sendrecv_loop ecall junk fuel fuel socket msg in
      do* alt_puts (lit "0> hello\") in
      let name := data_bytes (rep_data reply) in
      do* printf (lit "0> file %s\") [VString name] in
      do* s3k_mon_suspend ecall junk fuel MONITOR APP1_PID in
      do* boot_file fil buffer name in
      exercise_loop rounds socket msg fil buffer
  end.

Definition exercise_main (rounds : nat) (fatfs : Z) (fil : FIL) (buffer : list Z) (msg : s3k_msg) : M W unit :=
  do* setup_uart_and_virtio ecall junk fuel in
  do* alt_puts (literal "0> starting app") in
  do* zoom files (f_mount (Some fatfs) [CH_NUL] 0) in
  do* printf (lit "0> File system mounted\") [] in
  do* setup_other_app in
  do* setup_scheduling ecall junk fuel stack ROUND_ROBIN in
  let* socket := setup_socket ecall junk fuel true true false in
  do* s3k_mon_resume ecall junk fuel MONITOR APP1_PID in
  exercise_loop rounds socket msg fil buffer.

Definition exercise_main1 (msg : s3k_msg) : M W unit :=
  do* alt_puts (literal "1> starting") in
  let msg := msg_copy (literal "app2.bin") msg in
  do* send_receive_forever ecall junk fuel fuel APP_1_CAP_SOCKET msg in
  do* alt_puts (literal "1> end") in
  ret tt.

Definition exercise_main2 : M W unit :=
  do* alt_puts (literal "2> started") in ret tt.
End Files.
