(* ===== verification/FatVolume.v ===== *)
(** * FatFs: the logical disk

    What a mounted volume holds, without the window: the logical disk gives
    every sector its contents, those of the dirty window included.  A [view] is
    the geometry, the accounting of free clusters and the logical disk; [holds v w]
    relates it to the object and the drive, and there is a rule per access. *)

From S2P Require Import Prelude FatData FatFs.

#[local] Open Scope Z_scope.
#[local] Open Scope list_scope.
#[local] Arguments insertZ : simpl never.
#[local] Arguments lookupZ : simpl never.

(** ** Bytes *)

Definition is_byte (x : Z) : Prop := 0 <= x < 256.
Definition sector (l : list Z) : Prop := zlen l = SS /\ Forall is_byte l.

(** ** The contract of a drive *)

(** Sectors [s] to [s + n - 1], one after the other. *)
Definition blocks (c : Z -> list Z) (s : Z) (n : nat) : list Z :=
  concat (map (fun i => c (s + Z.of_nat i)) (seq 0 n)).

Definition in_range (s n x : Z) : bool := (s <=? x) && (x <? s + n).

(** The contents after [n] sectors of [b] have been written from [s] on. *)
Definition written (c : Z -> list Z) (s n : Z) (b : list Z) : Z -> list Z := fun x =>
  if in_range s n x then take (Z.to_nat SS) (drop (Z.to_nat ((x - s) * SS)) b) else c x.

(** A drive that works: [contents] is what is stored on it, and at most [many]
    sectors are transferred at a time. *)
Class WorkingDrive (D : Type) `{Drive D} (contents : D -> Z -> list Z)
    (online : D -> Prop) (many : Z) : Prop := {
  wd_sector d s : online d -> 0 <= s < 2 ^ 32 -> sector (contents d s);
  wd_status d : online d ->
    wp (disk_status 0) (fun r d' => r = 0 /\ online d' /\ contents d' = contents d) d;
  wd_read d b s n : online d -> 0 <= s -> 1 <= n <= many -> s + n <= 2 ^ 32 ->
    n * SS <= zlen b ->
    wp (disk_read 0 b s n) (fun r d' =>
      r = (RES_OK, blocks (contents d) s (Z.to_nat n) ++ drop (Z.to_nat (n * SS)) b) /\
      online d' /\ contents d' = contents d) d;
  wd_write d b s n : online d -> 0 <= s -> 1 <= n <= many -> s + n <= 2 ^ 32 ->
    n * SS <= zlen b -> Forall is_byte b ->
    wp (disk_write 0 b s n) (fun r d' =>
      r = RES_OK /\ online d' /\
      (forall x, contents d' x = written (contents d) s n b x)) d;
  wd_sync d : online d ->
    wp (disk_ioctl 0 CTRL_SYNC) (fun r d' => r = RES_OK /\ online d' /\ contents d' = contents d) d;
  wd_time d : online d ->
    wp get_fattime (fun _ d' => online d' /\ contents d' = contents d) d;
  wd_many : 1 <= many
}.

(** ** Geometry *)

Record geom := Geom {
  g_type : Z; g_fats : Z; g_rootdir : Z; g_csize : Z; g_entries : Z; g_fsize : Z;
  g_volbase : Z; g_fatbase : Z; g_dirbase : Z; g_database : Z; g_id : Z
}.

Definition geom_of (fs : FATFS) : geom :=
  Geom (fs_type fs) (n_fats fs) (n_rootdir fs) (csize fs) (n_fatent fs) (fsize fs)
    (volbase fs) (fatbase fs) (dirbase fs) (database fs) (fs_id fs).

(** The bytes the entries of the FAT take. *)
Definition fat_size (type n : Z) : Z :=
  if type =? FS_FAT12 then n * 3 / 2 + n mod 2
  else if type =? FS_FAT16 then n * 2 else n * 4.

(** The largest number of clusters. *)
Definition max_clusters (type : Z) : Z :=
  if type =? FS_FAT12 then MAX_FAT12 else if type =? FS_FAT16 then MAX_FAT16 else MAX_FAT32.

Record geom_ok (g : geom) : Prop := {
  go_type : g_type g = FS_FAT12 \/ g_type g = FS_FAT16 \/ g_type g = FS_FAT32;
  go_fats : g_fats g = 1 \/ g_fats g = 2;
  go_csize : 1 <= g_csize g < 256 /\ Z.land (g_csize g) (g_csize g - 1) = 0;
  go_entries : 3 <= g_entries g <= max_clusters (g_type g) + 2;
  go_room : fat_size (g_type g) (g_entries g) <= g_fsize g * SS;
  go_fatbase : 1 <= g_fatbase g;
  go_areas : g_fatbase g + g_fats g * g_fsize g <= g_database g;
  go_end : g_database g + g_csize g * (g_entries g - 2) <= 2 ^ 32
}.

(** The first FAT, and the second. *)
Definition in_fat (g : geom) (s : Z) : bool := in_range (g_fatbase g) (g_fsize g) s.
Definition in_copy (g : geom) (s : Z) : bool :=
  (g_fats g =? 2) && in_range (g_fatbase g + g_fsize g) (g_fsize g) s.

(** A sector of the drive that is not in the second FAT. *)
Definition proper (g : geom) (s : Z) : Prop := 0 <= s < 2 ^ 32 /\ in_copy g s = false.

Record view := View {
  w_geom : geom; w_last : Z; w_free : Z; w_fsi : Z; w_disk : Z -> list Z
}.

Definition set_w_disk l w := View (w_geom w) (w_last w) (w_free w) (w_fsi w) l.

Section Volume.
Context {D : Type} `{WorkingDrive D contents online many}.
(** Sectors of the first FAT that are known to have a copy in the second. *)
Context (copied : Z -> Prop).

Record holds (v : vol D) (w : view) : Prop := {
  h_online : online (v_drive v);
  h_pdrv : pdrv (v_fs v) = 0;
  h_geom : geom_of (v_fs v) = w_geom w;
  h_ok : geom_ok (w_geom w);
  h_counts : last_clst (v_fs v) = w_last w /\ free_clst (v_fs v) = w_free w /\
             fsi_flag (v_fs v) = w_fsi w;
  h_sector s : 0 <= s < 2 ^ 32 -> sector (w_disk w s);
  h_winsect : proper (w_geom w) (winsect (v_fs v));
  h_win : win (v_fs v) = w_disk w (winsect (v_fs v));
  h_disk s : proper (w_geom w) s -> s <> winsect (v_fs v) \/ wflag (v_fs v) = 0 ->
    contents (v_drive v) s = w_disk w s;
  h_copy s : g_fats (w_geom w) = 2 -> in_fat (w_geom w) s = true -> copied s ->
    s <> winsect (v_fs v) \/ wflag (v_fs v) = 0 ->
    contents (v_drive v) (s + g_fsize (w_geom w)) = w_disk w s
}.

(** ** Arithmetic of the geometry *)

Lemma u32_small x : 0 <= x < 2 ^ 32 -> u32 x = x.
Proof. apply Z.mod_small. Qed.

Lemma in_range_spec s n x : in_range s n x = true <-> s <= x < s + n.
Proof. unfold in_range. rewrite andb_true_iff, Z.leb_le, Z.ltb_lt. done. Qed.

Lemma in_range_false s n x : in_range s n x = false <-> x < s \/ s + n <= x.
Proof. unfold in_range. rewrite andb_false_iff, Z.leb_gt, Z.ltb_ge. done. Qed.

(** The numbers of a geometry are small, and the first FAT is not the second. *)
Lemma geom_bounds g : geom_ok g ->
  3 <= g_entries g <= 0x0FFFFFF7 /\ 1 <= g_fsize g < 2 ^ 32 /\ 1 <= g_fatbase g < 2 ^ 32 /\
  1 <= g_database g < 2 ^ 32 /\ g_fatbase g + g_fsize g <= g_database g.
Proof.
  intros [Ht Hf Hc He Hr Hb Ha Hd]. unfold fat_size, max_clusters, SS, MAX_FAT12, MAX_FAT16, MAX_FAT32 in *.
  assert (1 <= g_fsize g).
  { assert (0 < g_fsize g * 512); [|lia].
    destruct Ht as [E | [E | E]]; rewrite E in Hr; cbn in Hr; [|lia|lia].
    pose proof (Z.mod_pos_bound (g_entries g) 2).
    pose proof (Z.div_le_mono 3 (g_entries g * 3) 2). change (3 / 2) with 1 in *. lia. }
  assert (g_entries g <= 0x0FFFFFF7).
  { destruct Ht as [E | [E | E]]; rewrite E in He; cbn in He; lia. }
  destruct Hf as [E | E]; rewrite E in Ha; nia.
Qed.

Lemma proper_fat g s : geom_ok g -> in_fat g s = true -> proper g s.
Proof.
  intros Hg Hs. pose proof (geom_bounds g Hg). destruct Hg. unfold proper, in_copy, in_fat in *.
  rewrite in_range_spec in Hs. split; [lia|].
  destruct (Z.eqb_spec (g_fats g) 2); [|done]. cbn. rewrite in_range_false. lia.
Qed.

(** The data area is outside of the FATs. *)
Lemma proper_data g s : geom_ok g -> g_database g <= s < 2 ^ 32 ->
  proper g s /\ in_fat g s = false.
Proof.
  intros Hg Hs. pose proof (geom_bounds g Hg). destruct Hg. unfold proper, in_copy, in_fat in *.
  rewrite in_range_false. split; [|lia]. split; [lia|].
  destruct (Z.eqb_spec (g_fats g) 2); [|done]. cbn. rewrite in_range_false. lia.
Qed.

(** ** Rules *)

Implicit Types (v : vol D) (w : view).

Lemma holds_fs v w f : holds v w -> geom_of (f (v_fs v)) = w_geom w ->
  pdrv (f (v_fs v)) = 0 -> winsect (f (v_fs v)) = winsect (v_fs v) ->
  win (f (v_fs v)) = win (v_fs v) -> wflag (f (v_fs v)) = wflag (v_fs v) ->
  holds (Vol (f (v_fs v)) (v_drive v))
    (View (w_geom w) (last_clst (f (v_fs v))) (free_clst (f (v_fs v))) (fsi_flag (f (v_fs v)))
       (w_disk w)).
Proof.
  intros [] Hg Hp Hs Hw Hf. split; cbn [v_fs v_drive w_geom w_last w_free w_fsi w_disk];
    rewrite ?Hs, ?Hw, ?Hf; done.
Qed.

Lemma wp_on_drive {A} (m : M D A) Q v :
  wp m (fun a d => Q a (Vol (v_fs v) d)) (v_drive v) -> wp (on_drive m) Q v.
Proof. intros Hm. apply wp_zoom. exact Hm. Qed.

Lemma written_1 c s b x : zlen b = SS -> 
  written c s 1 b x = if x =? s then b else c x.
Proof.
  intros Hb. unfold written. destruct (in_range s 1 x) eqn:E.
  - rewrite in_range_spec in E. replace x with s by lia. rewrite Z.eqb_refl, Z.sub_diag.
    change (Z.to_nat (0 * SS)) with 0%nat. rewrite drop_0. apply take_ge. unfold zlen in Hb. lia.
  - rewrite in_range_false in E. destruct (Z.eqb_spec x s); [lia|done].
Qed.

(** A sector of the logical disk is written to the drive. *)
Lemma see_write_one (s : Z) (b : list Z) Q v :
  online (v_drive v) -> sector b -> 0 <= s < 2 ^ 32 ->
  (forall d', online d' ->
    (forall x, contents d' x = if x =? s then b else contents (v_drive v) x) ->
    Q RES_OK (Vol (v_fs v) d')) ->
  wp (on_drive (disk_write 0 b s 1)) Q v.
Proof.
  intros Ho [Hl Hb] Hs HQ. apply wp_on_drive. eapply wp_mono.
  - apply wd_write; [done|lia| |lia|rewrite Hl; unfold SS; lia|done]. pose proof wd_many. lia.
  - intros r d' (-> & Ho' & Hc). apply HQ; [done|]. intros x. by rewrite Hc, written_1.
Qed.

(** What the rules of the window leave alone. *)
Definition synced v w v' : Prop := holds v' w /\ winsect (v_fs v') = winsect (v_fs v).

Lemma blocks_1 c s : blocks c s 1 = c s.
Proof. unfold blocks. cbn [seq map concat Z.of_nat]. by rewrite Z.add_0_r, app_nil_r. Qed.

(** The test of [sync_window] in unsigned arithmetic. *)
Lemma fat_test g s : geom_ok g -> 0 <= s < 2 ^ 32 ->
  (u32 (s - g_fatbase g) <? g_fsize g) = in_fat g s.
Proof.
  intros Hg Hs. pose proof (geom_bounds g Hg) as Hb. destruct Hg. unfold in_fat, in_range.
  destruct (Z.leb_spec (g_fatbase g) s); cbn [andb].
  - rewrite u32_small by lia. destruct (Z.ltb_spec (s - g_fatbase g) (g_fsize g)),
      (Z.ltb_spec s (g_fatbase g + g_fsize g)); lia || done.
  - unfold u32. rewrite <- (Z_mod_plus_full _ 1), Z.mod_small by lia. apply Z.ltb_ge. nia.
Qed.

(** The window has been written back, and copied to the second FAT if it is in
    the first. *)
Lemma holds_synced v w d' :
  holds v w -> online d' ->
  (forall x, contents d' x =
     if (g_fats (w_geom w) =? 2) && in_fat (w_geom w) (winsect (v_fs v))
        && (x =? winsect (v_fs v) + g_fsize (w_geom w)) then win (v_fs v)
     else if x =? winsect (v_fs v) then win (v_fs v) else contents (v_drive v) x) ->
  holds (Vol (set_wflag 0 (v_fs v)) d') w.
Proof.
  intros [Ho Hp Hg Hok Hcnt Hsec Hws Hwin Hdisk Hcopy] Ho' Hc'.
  pose proof (geom_bounds _ Hok) as Hb. unfold proper, in_copy in Hws.
  split; cbn [v_fs v_drive set_wflag pdrv win winsect wflag]; try done.
  - intros s Hs _. rewrite Hc'. destruct (_ && (s =? _)) eqn:E.
    { breflect. destruct E as [[E2 Ef] ->]. destruct Hs as [_ Hs]. unfold in_copy, in_fat in *.
      rewrite E2 in Hs. rewrite in_range_spec in Ef. cbn in Hs. rewrite in_range_false in Hs. lia. }
    destruct (Z.eqb_spec s (winsect (v_fs v))) as [->|]; [done|]. apply Hdisk; auto.
  - intros s H2 Hs Hcp _. rewrite Hc'. unfold in_fat in Hs. rewrite in_range_spec in Hs.
    rewrite H2 in Hws |- *. cbn in Hws. rewrite in_range_false in Hws. cbn [Z.eqb Pos.eqb andb].
    destruct (Z.eqb_spec s (winsect (v_fs v))) as [->|Hne].
    { unfold in_fat. rewrite Z.eqb_refl, andb_true_r. destruct (in_range _ _ _) eqn:E; [done|].
      rewrite in_range_false in E. lia. }
    destruct (Z.eqb_spec (s + g_fsize (w_geom w)) (winsect (v_fs v) + g_fsize (w_geom w))); [lia|].
    rewrite andb_false_r. destruct (Z.eqb_spec (s + g_fsize (w_geom w)) (winsect (v_fs v))); [lia|].
    apply Hcopy; auto. unfold in_fat. by rewrite in_range_spec.
Qed.

Lemma see_sync_window v w Q :
  holds v w ->
  (forall v', holds v' w -> winsect (v_fs v') = winsect (v_fs v) -> wflag (v_fs v') = 0 ->
    Q FR_OK v') ->
  wp sync_window Q v.
Proof.
  intros Hv HQ. pose proof Hv as [Ho Hp Hg Hok Hcnt Hsec Hws Hwin Hdisk Hcopy].
  unfold sync_window, the_fs. wp_steps; [by apply HQ, Z.eqb_eq|]. rewrite Hp.
  assert (Hwsec : sector (win (v_fs v))) by (rewrite Hwin; apply Hsec, Hws).
  apply see_write_one; [done|done|apply Hws|]. intros d1 Ho1 Hc1.
  unfold fs_upd. cbn [Z.eqb negb RES_OK]. do 3 wp_step.
  assert (Hgeo : g_fatbase (w_geom w) = fatbase (v_fs v) /\ g_fsize (w_geom w) = fsize (v_fs v) /\
                 g_fats (w_geom w) = n_fats (v_fs v)) by (rewrite <- Hg; done).
  destruct Hgeo as (Eb & Es & En). pose proof (geom_bounds _ Hok) as Hb.
  rewrite <- Eb, <- Es, <- En, fat_test by (done || apply Hws). cbn [v_fs v_drive].
  apply wp_if; intros Hif.
  - breflect. destruct Hif as [Hin H2]. pose proof Hin as Hin'. unfold in_fat in Hin'.
    rewrite in_range_spec in Hin'.
    assert (winsect (v_fs v) + g_fsize (w_geom w) < 2 ^ 32) by (destruct Hok; rewrite H2 in *; nia).
    rewrite u32_small by lia. wp_step.
    apply see_write_one; [done|done|lia|]. intros d2 Ho2 Hc2. wp_steps. apply HQ; [|done|done].
    cbn [v_fs]. eapply (holds_synced v); [done|done|]. intros x. rewrite Hin, H2. cbn. by rewrite Hc2, <- Hc1.
  - wp_steps. apply HQ; [|done|done]. eapply (holds_synced v); [done|done|]. intros x.
    by rewrite (andb_comm (_ =? 2)), Hif, <- Hc1.
Qed.

(** Another sector comes into the window. *)
Lemma see_move_window v w s Q :
  holds v w -> proper (w_geom w) s ->
  (forall v', holds v' w -> winsect (v_fs v') = s -> Q FR_OK v') ->
  wp (move_window s) Q v.
Proof.
  intros Hv Hs HQ. unfold move_window, the_fs, check.
  do 2 wp_step. apply wp_if; intros Es; [by apply HQ; [|symmetry; apply Z.eqb_eq]|]. wp_step.
  eapply see_sync_window; [done|]. intros v1 Hv1 Hw1 Hf1. change (is_ok FR_OK) with true. cbv iota.
  wp_steps. destruct Hv1 as [Ho Hp Hg Hok Hcnt Hsec Hws Hwin Hdisk Hcopy]. rewrite Hp.
  apply wp_on_drive. eapply wp_mono.
  { apply wd_read; [done|apply Hs| |destruct Hs; lia|].
    - pose proof wd_many. lia.
    - assert (sector (win (v_fs v1))) as [-> _] by (rewrite Hwin; apply Hsec, Hws). unfold SS. lia. }
  intros r d' (-> & Ho' & Hc'). unfold fs_upd. cbn [fst snd].
  change (negb (RES_OK =? RES_OK)) with false. cbv iota.
  assert (Eblk : blocks (contents (v_drive v1)) s (Z.to_nat 1) ++
                 drop (Z.to_nat (1 * SS)) (win (v_fs v1)) = w_disk w s).
  { assert (sector (win (v_fs v1))) as [Hl _] by (rewrite Hwin; apply Hsec, Hws).
    change (Z.to_nat 1) with 1%nat. rewrite blocks_1, drop_ge, app_nil_r by (unfold zlen in Hl; lia).
    apply Hdisk; auto. }
  rewrite Eblk. wp_steps. apply HQ; [|done].
  split; cbn [v_fs v_drive set_win set_winsect pdrv win winsect wflag]; try done.
  - intros x Hx _. rewrite Hc'. auto.
  - intros x H2 Hx Hcp _. rewrite Hc'. auto.
Qed.
(** What is stored in the window is stored on the logical disk. *)
Lemma holds_store v w l :
  holds v w -> sector l ->
  holds (Vol (set_wflag 1 (set_win l (v_fs v))) (v_drive v))
    (set_w_disk (fupd (w_disk w) (winsect (v_fs v)) l) w).
Proof.
  intros [Ho Hp Hg Hok Hcnt Hsec Hws Hwin Hdisk Hcopy] Hl.
  split; cbn [v_fs v_drive set_win set_wflag pdrv win winsect wflag set_w_disk w_disk w_geom
              w_last w_free w_fsi]; try done.
  - intros s Hs. unfold fupd. case_match; [done|auto].
  - by rewrite fupd_eq.
  - intros s Hs [Hne|]; [|done]. rewrite fupd_ne by done. auto.
  - intros s H2 Hs Hcp [Hne|]; [|done]. rewrite fupd_ne by done. auto.
Qed.

(** Logical disks that agree. *)
Lemma holds_ext v w L : holds v w -> (forall s, L s = w_disk w s) -> holds v (set_w_disk L w).
Proof.
  intros [Ho Hp Hg Hok Hcnt Hsec Hws Hwin Hdisk Hcopy] HL.
  split; cbn [set_w_disk w_disk w_geom w_last w_free w_fsi]; try done; intros; rewrite HL; auto.
Qed.
End Volume.

(** ** Bytes in a sector *)

Definition byte_at (l : list Z) (i : Z) : Z := default 0 (lookupZ l i).
Definition word_at (l : list Z) (i : Z) : Z := byte_at l i + 256 * byte_at l (i + 1).
Definition dword_at (l : list Z) (i : Z) : Z := word_at l i + 65536 * word_at l (i + 2).

Lemma byte_at_lookup l i : 0 <= i < zlen l -> lookupZ l i = Some (byte_at l i).
Proof. intros Hi. unfold byte_at. by destruct (lookupZ_lt l i Hi) as [x ->]. Qed.

Lemma byte_at_range l i : Forall is_byte l -> is_byte (byte_at l i).
Proof.
  intros Hl. unfold byte_at, lookupZ. destruct (0 <=? i); [|unfold is_byte; cbn; lia].
  destruct (l !! Z.to_nat i) eqn:E; [|unfold is_byte; cbn; lia]. cbn.
  by eapply (Forall_lookup_1 is_byte).
Qed.

Lemma byte_at_insert l i j x : 0 <= i < zlen l ->
  byte_at (insertZ i x l) j = if j =? i then x else byte_at l j.
Proof. intros Hi. unfold byte_at. rewrite lookupZ_insertZ by done. by case_match. Qed.

Lemma sector_insert l i x : sector l -> is_byte x -> sector (insertZ i x l).
Proof.
  intros [Hl Hb] Hx. split; [by rewrite zlen_insertZ|]. unfold insertZ. case_match; [|done].
  by apply Forall_insert.
Qed.

Lemma u8_byte x : is_byte (u8 x).
Proof. apply Z.mod_pos_bound. done. Qed.

(** Bytes side by side: the code uses shifts and [or]. *)
Lemma lor_shift a b k : 0 <= k -> 0 <= a < 2 ^ k -> Z.lor (Z.shiftl b k) a = a + 2 ^ k * b.
Proof.
  intros Hk Ha. rewrite Z.shiftl_mul_pow2 by lia. rewrite Z.lor_comm.
  pose proof (Z.add_lor_land a (b * 2 ^ k)) as E.
  assert (Z.land a (b * 2 ^ k) = 0) as E0; [clear E|lia].
  apply Z.bits_inj'. intros n Hn. rewrite Z.land_spec, Z.bits_0, <- Z.shiftl_mul_pow2, Z.shiftl_spec by lia.
  destruct (Z.ltb_spec n k).
  - rewrite (Z.testbit_neg_r b) by lia. by rewrite andb_false_r.
  - by rewrite (testbit_high a k) by lia.
Qed.

Section Arrays.
Context {St : Type}.
Implicit Types (l : list Z) (s : St).

Lemma wp_array_at l i Q s : 0 <= i < zlen l -> Q (byte_at l i) s -> wp (array_get l i) Q s.
Proof. intros Hi. apply wp_array_get. by apply byte_at_lookup. Qed.

Lemma wp_array_set l i x Q s : 0 <= i < zlen l -> Q (insertZ i x l) s -> wp (array_set l i x) Q s.
Proof. intros Hi HQ. apply wp_bind. by apply wp_array_at. Qed.

Lemma wp_ld_word l i Q s : Forall is_byte l -> 0 <= i -> i + 1 < zlen l ->
  Q (word_at l i) s -> wp (ld_word l i) Q s.
Proof.
  intros Hl Hi Hl' HQ. unfold ld_word. do 2 (apply wp_bind, wp_array_at; [lia|]). apply wp_ret.
  pose proof (byte_at_range l i Hl). pose proof (byte_at_range l (i + 1) Hl). unfold is_byte in *.
  unfold u16. rewrite Z.mod_small by (rewrite Z.shiftl_mul_pow2 by lia; lia).
  rewrite lor_shift by lia. exact HQ.
Qed.

Lemma wp_ld_dword l i Q s : Forall is_byte l -> 0 <= i -> i + 3 < zlen l ->
  Q (dword_at l i) s -> wp (ld_dword l i) Q s.
Proof.
  intros Hl Hi Hl' HQ. unfold ld_dword. do 4 (apply wp_bind, wp_array_at; [lia|]; cbv zeta).
  apply wp_ret. pose proof (byte_at_range l i Hl). pose proof (byte_at_range l (i + 1) Hl).
  pose proof (byte_at_range l (i + 2) Hl). pose proof (byte_at_range l (i + 3) Hl).
  unfold is_byte in *. unfold u32.
  rewrite (Z.mod_small (Z.shiftl (byte_at l (i + 3)) 8)) by (rewrite Z.shiftl_mul_pow2; lia).
  rewrite lor_shift by lia.
  rewrite (Z.mod_small (Z.shiftl (byte_at l (i + 2) + _) 8)) by (rewrite Z.shiftl_mul_pow2; lia).
  rewrite lor_shift by lia.
  rewrite (Z.mod_small (Z.shiftl (byte_at l (i + 1) + _) 8)) by (rewrite Z.shiftl_mul_pow2; lia).
  rewrite lor_shift by lia. revert HQ. unfold dword_at, word_at.
  replace (i + 2 + 1) with (i + 3) by lia.
  match goal with |- Q ?x s -> Q ?y s => replace y with x; [done|] end. lia.
Qed.

Definition put_word l i x := insertZ (i + 1) (u8 (Z.shiftr x 8)) (insertZ i (u8 x) l).
Definition put_dword l i x :=
  put_word (put_word l i x) (i + 2) (Z.shiftr (Z.shiftr x 8) 8).

Lemma wp_st_word l i x Q s : 0 <= i -> i + 1 < zlen l -> Q (put_word l i x) s -> wp (st_word l i x) Q s.
Proof.
  intros Hi Hl HQ. unfold st_word. apply wp_bind, wp_array_set; [lia|].
  apply wp_array_set; [rewrite zlen_insertZ; lia|done].
Qed.

Lemma wp_st_dword l i x Q s :
  0 <= i -> i + 3 < zlen l -> Q (put_dword l i x) s -> wp (st_dword l i x) Q s.
Proof.
  intros Hi Hl HQ. unfold st_dword.
  do 3 (apply wp_bind, wp_array_set; [rewrite ?zlen_insertZ; lia|]; cbv zeta).
  apply wp_array_set; [rewrite ?zlen_insertZ; lia|]. revert HQ. unfold put_dword, put_word.
  by replace (i + 2 + 1) with (i + 3) by lia.
Qed.

Lemma sector_put_word l i x : sector l -> sector (put_word l i x).
Proof. intros Hl. unfold put_word. auto using sector_insert, u8_byte. Qed.

Lemma sector_put_dword l i x : sector l -> sector (put_dword l i x).
Proof. intros Hl. unfold put_dword. auto using sector_put_word. Qed.
End Arrays.
