(* ===== verification/FatTable.v ===== *)
(** * FatFs: the file allocation table

    The FAT as a function from clusters to entries, for the three formats, and
    [get_fat] and [put_fat] on it. *)

From S2P Require Import Prelude FatData FatFs FatVolume.

#[local] Open Scope Z_scope.
#[local] Open Scope list_scope.
#[local] Arguments insertZ : simpl never.
#[local] Arguments lookupZ : simpl never.
#[local] Arguments Z.mul : simpl never.
#[local] Arguments Z.add : simpl never.

(** ** The FAT as bytes *)

Definition fat_byte (g : geom) (L : Z -> list Z) (j : Z) : Z :=
  byte_at (L (g_fatbase g + j / SS)) (j mod SS).

Definition fat_set (g : geom) (j x : Z) (L : Z -> list Z) : Z -> list Z :=
  let s := g_fatbase g + j / SS in fupd L s (insertZ (j mod SS) x (L s)).

(** Where the entry of a cluster starts, and how many bytes it touches. *)
Definition fat_offset (type c : Z) : Z :=
  if type =? FS_FAT12 then c + c / 2 else if type =? FS_FAT16 then 2 * c else 4 * c.
Definition fat_width (type : Z) : Z := if type =? FS_FAT32 then 4 else 2.

Definition fat_word g L j : Z := fat_byte g L j + 256 * fat_byte g L (j + 1).

(** The entry of a cluster. *)
Definition fat_entry (g : geom) (L : Z -> list Z) (c : Z) : Z :=
  let j := fat_offset (g_type g) c in
  if g_type g =? FS_FAT12 then
    if Z.odd c then fat_word g L j / 16 else fat_word g L j mod 4096
  else if g_type g =? FS_FAT16 then fat_word g L j
  else (fat_word g L j + 65536 * fat_word g L (j + 2)) mod 2 ^ 28.

(** The number of values of an entry. *)
Definition fat_mod (type : Z) : Z :=
  if type =? FS_FAT12 then 2 ^ 12 else if type =? FS_FAT16 then 2 ^ 16 else 2 ^ 28.

Definition put_fat_word g j x L := fat_set g (j + 1) (x / 256 mod 256) (fat_set g j (x mod 256) L).

(** The logical disk with another entry. *)
Definition fat_put (g : geom) (c x : Z) (L : Z -> list Z) : Z -> list Z :=
  let j := fat_offset (g_type g) c in
  if g_type g =? FS_FAT12 then
    if Z.odd c
    then fat_set g (j + 1) (x / 16 mod 256) (fat_set g j (fat_byte g L j mod 16 + 16 * (x mod 16)) L)
    else fat_set g (j + 1) (fat_byte g L (j + 1) / 16 * 16 + x / 256 mod 16)
           (fat_set g j (x mod 256) L)
  else if g_type g =? FS_FAT16 then put_fat_word g j x L
  else
    let old := fat_word g L j + 65536 * fat_word g L (j + 2) in
    let y := old / 2 ^ 28 * 2 ^ 28 + x mod 2 ^ 28 in
    put_fat_word g (j + 2) (y / 65536) (put_fat_word g j y L).

Section Bytes.
Context (g : geom) (Hg : geom_ok g).
Implicit Types (L : Z -> list Z).

(** A logical disk of sectors. *)
Definition sectors L : Prop := forall s, 0 <= s < 2 ^ 32 -> sector (L s).

(** The bytes of the FAT. *)
Definition fat_index (j : Z) : Prop := 0 <= j < g_fsize g * SS.

Lemma fat_index_sector j : fat_index j ->
  0 <= j / SS < g_fsize g /\ 0 <= j mod SS < SS /\ in_fat g (g_fatbase g + j / SS) = true /\
  0 <= g_fatbase g + j / SS < 2 ^ 32.
Proof.
  unfold fat_index, SS. intros Hj. pose proof (geom_bounds g Hg) as Hb.
  assert (0 <= j / 512 < g_fsize g) by (split; [apply Z.div_pos|apply Z.div_lt_upper_bound]; lia).
  split; [done|]. split; [apply Z.mod_pos_bound; lia|].
  unfold in_fat. rewrite in_range_spec. lia.
Qed.

Lemma fat_byte_range L j : sectors L -> fat_index j -> is_byte (fat_byte g L j).
Proof.
  intros HL Hj. destruct (fat_index_sector j Hj) as (_ & _ & _ & Hs).
  by apply byte_at_range, HL.
Qed.

Lemma fat_byte_set L j j' x : sectors L -> fat_index j -> fat_index j' ->
  fat_byte g (fat_set g j x L) j' = if j' =? j then x else fat_byte g L j'.
Proof.
  intros HL Hj Hj'. unfold fat_byte, fat_set. pose proof (fat_index_sector j Hj) as (_ & Hm & _ & Hs).
  destruct (HL _ Hs) as [Hl _]. unfold fupd.
  destruct (Z.eqb_spec (g_fatbase g + j' / SS) (g_fatbase g + j / SS)) as [E|E].
  - rewrite E, byte_at_insert by lia.
    pose proof (Z_div_mod_eq_full j SS). pose proof (Z_div_mod_eq_full j' SS).
    destruct (Z.eqb_spec (j' mod SS) (j mod SS)), (Z.eqb_spec j' j); try done; subst; lia || nia.
  - destruct (Z.eqb_spec j' j); [by subst|done].
Qed.

Lemma fat_set_sectors L j x : sectors L -> fat_index j -> is_byte x -> sectors (fat_set g j x L).
Proof.
  intros HL Hj Hx s Hs. unfold fat_set, fupd. case_match; [|auto].
  apply sector_insert; [|done]. by apply HL, (fat_index_sector j Hj).
Qed.

Lemma fat_set_outside L j x s : fat_index j -> in_fat g s = false -> fat_set g j x L s = L s.
Proof.
  intros Hj Hs. unfold fat_set. apply fupd_ne. intros ->.
  destruct (fat_index_sector j Hj) as (_ & _ & Hin & _). congruence.
Qed.

(** ** The entries *)

(** The bytes of the entry of a cluster are in the FAT. *)
Lemma fat_offset_index c i : 0 <= c < g_entries g -> 0 <= i < fat_width (g_type g) ->
  fat_index (fat_offset (g_type g) c + i).
Proof.
  intros Hc Hi. destruct Hg as [Ht _ _ He Hr _ _ _]. unfold fat_index.
  unfold fat_offset, fat_width, fat_size in *.
  destruct Ht as [E | [E | E]]; rewrite E in *; cbn in *; [|lia|lia].
  pose proof (Z_div_mod_eq_full c 2). pose proof (Z.mod_pos_bound c 2).
  pose proof (Z_div_mod_eq_full (g_entries g * 3) 2). pose proof (Z.mod_pos_bound (g_entries g * 3) 2).
  pose proof (Z_div_mod_eq_full (g_entries g) 2). pose proof (Z.mod_pos_bound (g_entries g) 2).
  lia.
Qed.

Lemma fat_mod_cases : g_type g = FS_FAT12 /\ fat_mod (g_type g) = 4096 \/
  g_type g = FS_FAT16 /\ fat_mod (g_type g) = 65536 \/
  g_type g = FS_FAT32 /\ fat_mod (g_type g) = 268435456.
Proof. destruct Hg as [[E | [E | E]] _ _ _ _ _ _ _]; rewrite E; auto. Qed.

Section Entries.
Context (L : Z -> list Z) (HL : sectors L).
Abbreviation B := (fat_byte g L).

Lemma fat_word_range j : fat_index j -> fat_index (j + 1) -> 0 <= fat_word g L j < 65536.
Proof.
  intros H0 H1. unfold fat_word. pose proof (fat_byte_range L j HL H0).
  pose proof (fat_byte_range L (j + 1) HL H1). unfold is_byte in *. lia.
Qed.

Lemma entry_index c i : 2 <= c < g_entries g -> 0 <= i < fat_width (g_type g) ->
  fat_index (fat_offset (g_type g) c + i).
Proof. intros Hc. apply fat_offset_index. lia. Qed.

Lemma entry_index_0 c : 2 <= c < g_entries g -> fat_index (fat_offset (g_type g) c).
Proof.
  intros Hc. rewrite <- (Z.add_0_r (fat_offset _ _)). apply entry_index; [done|].
  unfold fat_width. case_match; lia.
Qed.

Lemma fat_entry_range c : 2 <= c < g_entries g -> 0 <= fat_entry g L c < fat_mod (g_type g).
Proof.
  intros Hc. pose proof (entry_index_0 c Hc) as I0.
  assert (fat_index (fat_offset (g_type g) c + 1)) as I1.
  { apply entry_index; [done|]. unfold fat_width. case_match; lia. }
  pose proof (fat_word_range _ I0 I1). unfold fat_entry.
  destruct fat_mod_cases as [[E ->] | [[E ->] | [E ->]]]; rewrite E in *; cbn [Z.eqb Pos.eqb FS_FAT12 FS_FAT16].
  - destruct (Z.odd c); [|apply Z.mod_pos_bound; lia].
    split; [apply Z.div_pos; lia|apply Z.div_lt_upper_bound; lia].
  - done.
  - apply Z.mod_pos_bound. lia.
Qed.
End Entries.

(** ** Changing an entry *)

(** Two bytes one after the other. *)
Section TwoBytes.
Context (L : Z -> list Z) (HL : sectors L) (j x0 x1 : Z).
Context (I0 : fat_index j) (I1 : fat_index (j + 1)) (H0 : is_byte x0) (H1 : is_byte x1).
Abbreviation L2 := (fat_set g (j + 1) x1 (fat_set g j x0 L)).

Lemma set2_sectors : sectors L2.
Proof. auto using fat_set_sectors. Qed.

Lemma set2_outside s : in_fat g s = false -> L2 s = L s.
Proof. intros Hs. by rewrite !fat_set_outside. Qed.

Lemma set2_byte j' : fat_index j' ->
  fat_byte g L2 j' = if j' =? j + 1 then x1 else if j' =? j then x0 else fat_byte g L j'.
Proof. intros Hj'. rewrite !fat_byte_set by auto using fat_set_sectors. done. Qed.
End TwoBytes.

Lemma byte_mod x : is_byte (x mod 256).
Proof. apply Z.mod_pos_bound. lia. Qed.

Lemma byte_nibbles b x : is_byte b -> is_byte (b mod 16 + 16 * (x mod 16)).
Proof. unfold is_byte. intros. Z.div_mod_to_equations. lia. Qed.

Lemma byte_nibbles' b x : is_byte b -> is_byte (b / 16 * 16 + x mod 16).
Proof. unfold is_byte. intros. Z.div_mod_to_equations. lia. Qed.

Section PutWord.
Context (L : Z -> list Z) (HL : sectors L) (j x : Z) (I0 : fat_index j) (I1 : fat_index (j + 1)).

Lemma put_word_same : fat_word g (put_fat_word g j x L) j = x mod 65536.
Proof.
  unfold fat_word, put_fat_word. rewrite !set2_byte by auto using byte_mod.
  rewrite Z.eqb_refl, (proj2 (Z.eqb_neq j (j + 1))), Z.eqb_refl by lia.
  Z.div_mod_to_equations. lia.
Qed.

Lemma put_word_other j' : j' + 1 < j \/ j + 1 < j' -> fat_index j' -> fat_index (j' + 1) ->
  fat_word g (put_fat_word g j x L) j' = fat_word g L j'.
Proof.
  intros Hne Hj' Hj''. unfold fat_word, put_fat_word. rewrite !set2_byte by auto using byte_mod.
  by rewrite !(proj2 (Z.eqb_neq _ _)) by lia.
Qed.

Lemma put_word_sectors : sectors (put_fat_word g j x L).
Proof. apply set2_sectors; auto using byte_mod. Qed.

Lemma put_word_outside s : in_fat g s = false -> put_fat_word g j x L s = L s.
Proof. intros Hs. by apply set2_outside. Qed.
End PutWord.

Section Put.
Context (L : Z -> list Z) (HL : sectors L) (c x : Z) (Hc : 2 <= c < g_entries g).
Abbreviation j := (fat_offset (g_type g) c).

Ltac type_cases E :=
  destruct fat_mod_cases as [[E ?] | [[E ?] | [E ?]]]; rewrite E in *;
  cbn [Z.eqb Pos.eqb FS_FAT12 FS_FAT16 FS_FAT32 fat_mod].

Lemma entry_indices : fat_index j /\ fat_index (j + 1) /\
  (g_type g = FS_FAT32 -> fat_index (j + 2) /\ fat_index (j + 2 + 1)).
Proof.
  split; [by apply entry_index_0|]. split.
  - apply entry_index; [done|]. unfold fat_width. case_match; lia.
  - intros E. rewrite <- Z.add_assoc. split; apply entry_index; try done; rewrite E; done.
Qed.

Lemma fat_put_facts : sectors (fat_put g c x L) /\
  forall s, in_fat g s = false -> fat_put g c x L s = L s.
Proof.
  destruct entry_indices as (I0 & I1 & I23). unfold fat_put.
  pose proof (fat_byte_range L _ HL I0). pose proof (fat_byte_range L _ HL I1).
  type_cases E.
  - destruct (Z.odd c); (split; [apply set2_sectors|intros s Hs; apply set2_outside];
      auto using byte_mod, byte_nibbles, byte_nibbles').
  - split; [by apply put_word_sectors|intros s Hs; by apply put_word_outside].
  - destruct (I23 eq_refl) as [I2 I3].
    split; [by apply put_word_sectors; [apply put_word_sectors|..]|]. intros s Hs.
    by rewrite !put_word_outside.
Qed.

(** A FAT12 is an array of half bytes, three of which make an entry. *)
Definition fat_nibble (L : Z -> list Z) (n : Z) : Z :=
  if Z.odd n then fat_byte g L (n / 2) / 16 else fat_byte g L (n / 2) mod 16.

Lemma nibble_even L' m : fat_nibble L' (2 * m) = fat_byte g L' m mod 16.
Proof. unfold fat_nibble. rewrite Z.odd_mul, Z.mul_comm, Z.div_mul by lia. done. Qed.

Lemma nibble_odd L' m : fat_nibble L' (2 * m + 1) = fat_byte g L' m / 16.
Proof.
  unfold fat_nibble. rewrite Z.add_comm, Z.odd_add_mul_2, (Z.mul_comm 2), Z.div_add by lia. done.
Qed.

Lemma fat12_nibbles L' c' : g_type g = FS_FAT12 -> sectors L' -> 2 <= c' < g_entries g ->
  fat_entry g L' c' =
    fat_nibble L' (3 * c') + 16 * fat_nibble L' (3 * c' + 1) + 256 * fat_nibble L' (3 * c' + 2).
Proof.
  intros E HL' Hc'. pose proof (entry_index c' 0 Hc') as J0. pose proof (entry_index c' 1 Hc') as J1.
  rewrite E in *. specialize (J0 ltac:(cbn; lia)). specialize (J1 ltac:(cbn; lia)).
  rewrite Z.add_0_r in J0. pose proof (fat_byte_range L' _ HL' J0) as B0.
  pose proof (fat_byte_range L' _ HL' J1) as B1. unfold is_byte in *.
  unfold fat_entry, fat_word. rewrite E. cbn [Z.eqb Pos.eqb FS_FAT12].
  destruct (Z.Even_or_Odd c') as [[k ->]|[k ->]].
  - assert (fat_offset FS_FAT12 (2 * k) = 3 * k) as Eo.
    { unfold fat_offset. cbn [Z.eqb Pos.eqb FS_FAT12]. Z.div_mod_to_equations. lia. }
    rewrite Eo in *. rewrite Z.odd_mul. cbn [Z.odd andb].
    replace (3 * (2 * k)) with (2 * (3 * k)) by lia.
    replace (2 * (3 * k) + 2) with (2 * (3 * k + 1)) by lia.
    rewrite !nibble_even, nibble_odd. Z.div_mod_to_equations. lia.
  - assert (fat_offset FS_FAT12 (2 * k + 1) = 3 * k + 1) as Eo.
    { unfold fat_offset. cbn [Z.eqb Pos.eqb FS_FAT12]. Z.div_mod_to_equations. lia. }
    rewrite Eo in *. rewrite (Z.add_comm (2 * k)), Z.odd_add_mul_2. cbn [Z.odd].
    replace (3 * (1 + 2 * k)) with (2 * (3 * k + 1) + 1) by lia.
    replace (2 * (3 * k + 1) + 1 + 1) with (2 * (3 * k + 1 + 1)) by lia.
    replace (2 * (3 * k + 1) + 1 + 2) with (2 * (3 * k + 1 + 1) + 1) by lia.
    rewrite nibble_even, !nibble_odd. Z.div_mod_to_equations. lia.
Qed.

Lemma half_even k : 2 * k / 2 = k /\ Z.odd (2 * k) = false /\ fat_offset FS_FAT12 (2 * k) = 3 * k.
Proof.
  rewrite Z.odd_mul. unfold fat_offset. cbn [Z.odd andb Z.eqb Pos.eqb FS_FAT12].
  split_and!; [|done|]; Z.div_mod_to_equations; lia.
Qed.

Lemma half_odd k : (2 * k + 1) / 2 = k /\ Z.odd (2 * k + 1) = true /\
  fat_offset FS_FAT12 (2 * k + 1) = 3 * k + 1.
Proof.
  rewrite (Z.add_comm (2 * k)) at 2. rewrite Z.odd_add_mul_2. unfold fat_offset.
  cbn [Z.odd Z.eqb Pos.eqb FS_FAT12]. split_and!; [|done|]; Z.div_mod_to_equations; lia.
Qed.

Lemma nibble_put n : g_type g = FS_FAT12 -> fat_index (n / 2) ->
  fat_nibble (fat_put g c x L) n =
    if n =? 3 * c then x mod 16 else if n =? 3 * c + 1 then x / 16 mod 16
    else if n =? 3 * c + 2 then x / 256 mod 16 else fat_nibble L n.
Proof.
  intros E Hn. destruct entry_indices as (I0 & I1 & _). rewrite E in *.
  pose proof (fat_byte_range L _ HL I0) as B0. pose proof (fat_byte_range L _ HL I1) as B1.
  unfold fat_put. rewrite E. cbn [Z.eqb Pos.eqb FS_FAT12].
  destruct (Z.Even_or_Odd c) as [[k Ek]|[k Ek]]; rewrite Ek in *;
    [destruct (half_even k) as (_ & -> & Eo)|destruct (half_odd k) as (_ & -> & Eo)];
    rewrite Eo in *; clear Eo Ek E;
    (destruct (Z.Even_or_Odd n) as [[m ->]|[m ->]];
     [destruct (half_even m) as (Em & _)|destruct (half_odd m) as (Em & _)]); rewrite Em in Hn; clear Em;
    rewrite ?nibble_even, ?nibble_odd, set2_byte by auto using byte_mod, byte_nibbles, byte_nibbles';
    unfold is_byte in *; repeat case_match; breflect; subst; try lia; Z.div_mod_to_equations; lia.
Qed.

Lemma fat12_put c' : g_type g = FS_FAT12 -> 2 <= c' < g_entries g ->
  fat_entry g (fat_put g c x L) c' = if c' =? c then x mod 4096 else fat_entry g L c'.
Proof.
  intros E Hc'. pose proof (entry_index c' 0 Hc') as J0. pose proof (entry_index c' 1 Hc') as J1.
  rewrite E in *. specialize (J0 ltac:(cbn; lia)). specialize (J1 ltac:(cbn; lia)).
  assert (Hi : forall i, 0 <= i < 3 -> fat_index ((3 * c' + i) / 2)).
  { intros i Hi. revert J0 J1. unfold fat_index, fat_offset. cbn [Z.eqb Pos.eqb FS_FAT12].
    Z.div_mod_to_equations. lia. }
  pose proof (Hi 0) as Hi0. rewrite Z.add_0_r in Hi0.
  rewrite !fat12_nibbles, !nibble_put by (done || apply fat_put_facts || (apply Hi; lia) || (apply Hi0; lia)).
  destruct (Z.eqb_spec c' c) as [->|Hne].
  - repeat case_match; breflect; try lia. Z.div_mod_to_equations. lia.
  - repeat case_match; breflect; lia.
Qed.

Lemma fat16_put c' : g_type g = FS_FAT16 -> 2 <= c' < g_entries g ->
  fat_entry g (fat_put g c x L) c' = if c' =? c then x mod 65536 else fat_entry g L c'.
Proof.
  intros E Hc'. destruct entry_indices as (I0 & I1 & _).
  pose proof (entry_index c' 0 Hc') as J0. pose proof (entry_index c' 1 Hc') as J1. rewrite E in *.
  specialize (J0 ltac:(cbn; lia)). specialize (J1 ltac:(cbn; lia)). rewrite Z.add_0_r in J0.
  unfold fat_entry, fat_put. rewrite E. cbn [Z.eqb Pos.eqb FS_FAT12 FS_FAT16].
  destruct (Z.eqb_spec c' c) as [->|Hne]; [by rewrite put_word_same|].
  rewrite put_word_other; [done..| |done|done]. unfold fat_offset.
  cbn [Z.eqb Pos.eqb FS_FAT12 FS_FAT16]. lia.
Qed.

Lemma fat32_put c' : g_type g = FS_FAT32 -> 2 <= c' < g_entries g ->
  fat_entry g (fat_put g c x L) c' = if c' =? c then x mod 2 ^ 28 else fat_entry g L c'.
Proof.
  intros E Hc'. destruct entry_indices as (I0 & I1 & I23).
  pose proof (fun i => entry_index c' i Hc') as J. rewrite E in *. destruct (I23 eq_refl) as [I2 I3].
  pose proof (J 0 ltac:(cbn; lia)) as J0. pose proof (J 1 ltac:(cbn; lia)) as J1.
  pose proof (J 2 ltac:(cbn; lia)) as J2. pose proof (J 3 ltac:(cbn; lia)) as J3.
  rewrite Z.add_0_r in J0. replace (fat_offset FS_FAT32 c' + 3) with (fat_offset FS_FAT32 c' + 2 + 1) in J3 by lia.
  pose proof (fat_word_range L HL _ I0 I1) as R0. pose proof (fat_word_range L HL _ I2 I3) as R1.
  unfold fat_entry, fat_put. rewrite E. cbn [Z.eqb Pos.eqb FS_FAT12 FS_FAT16 FS_FAT32].
  destruct (Z.eqb_spec c' c) as [->|Hne].
  - rewrite put_word_same by auto using put_word_sectors.
    rewrite put_word_other, put_word_same by (auto using put_word_sectors || lia).
    Z.div_mod_to_equations. lia.
  - assert (fat_offset FS_FAT32 c' + 3 < fat_offset FS_FAT32 c \/
            fat_offset FS_FAT32 c + 3 < fat_offset FS_FAT32 c').
    { unfold fat_offset. cbn [Z.eqb Pos.eqb FS_FAT12 FS_FAT16 FS_FAT32]. lia. }
    by rewrite !put_word_other by (auto using put_word_sectors || lia).
Qed.

Lemma fat_entry_put c' : 2 <= c' < g_entries g ->
  fat_entry g (fat_put g c x L) c' =
    if c' =? c then x mod fat_mod (g_type g) else fat_entry g L c'.
Proof.
  intros Hc'. destruct fat_mod_cases as [[E ->] | [[E ->] | [E ->]]];
    auto using fat12_put, fat16_put, fat32_put.
Qed.
End Put.
End Bytes.

(** ** Access to the entries *)

Section Access.
Context {D : Type} `{WorkingDrive D contents online many} (copied : Z -> Prop).
Implicit Types (v : vol D) (w : view).

Abbreviation holds := (holds (contents := contents) (online := online) copied).

(** The window is in the first FAT. *)
Definition on_fat w v : Prop := in_fat (w_geom w) (winsect (v_fs v)) = true.

(** The fields of the geometry in the object. *)
Lemma holds_fields v w : holds v w ->
  fs_type (v_fs v) = g_type (w_geom w) /\ n_fatent (v_fs v) = g_entries (w_geom w) /\
  fatbase (v_fs v) = g_fatbase (w_geom w) /\ csize (v_fs v) = g_csize (w_geom w) /\
  database (v_fs v) = g_database (w_geom w).
Proof. intros []. by rewrite <- h_geom. Qed.

(** The sector with byte [j] of the FAT comes into the window. *)
Lemma see_fat_sector v w s j Q :
  holds v w -> fat_index (w_geom w) j -> s = g_fatbase (w_geom w) + j / SS ->
  (forall v', holds v' w -> winsect (v_fs v') = g_fatbase (w_geom w) + j / SS -> on_fat w v' ->
     Q FR_OK v') ->
  wp (move_window (u32 s)) Q v.
Proof.
  intros Hv Hj -> HQ. pose proof (h_ok _ _ _ Hv) as Hok.
  destruct (fat_index_sector _ Hok j Hj) as (_ & _ & Hin & Hr).
  rewrite u32_small by done. eapply see_move_window; [done|by apply proper_fat|].
  intros v' Hv' Hs. apply HQ; [done..|]. unfold on_fat. by rewrite Hs.
Qed.

(** A byte of the window. *)
Lemma see_win_get v w i Q :
  holds v w -> 0 <= i < SS -> Q (byte_at (w_disk w (winsect (v_fs v))) i) v ->
  wp (win_get i) Q v.
Proof.
  intros Hv Hi HQ. unfold win_get, the_fs. wp_steps. rewrite (h_win _ _ _ Hv).
  apply wp_array_at; [|done]. destruct (h_sector _ _ _ Hv (winsect (v_fs v))) as [-> _]; [|done].
  apply (h_winsect _ _ _ Hv).
Qed.

Lemma window_sector v w : holds v w -> sector (win (v_fs v)).
Proof. intros Hv. rewrite (h_win _ _ _ Hv). apply (h_sector _ _ _ Hv), (h_winsect _ _ _ Hv). Qed.

Lemma holds_sectors v w : holds v w -> sectors (w_disk w).
Proof. intros Hv s. apply (h_sector _ _ _ Hv). Qed.

(** Words of a FAT do not cross sectors. *)
Lemma div_mod_next j k : 0 <= j -> j mod SS + k < SS -> 0 <= k ->
  (j + k) / SS = j / SS /\ (j + k) mod SS = j mod SS + k.
Proof. unfold SS. intros. Z.div_mod_to_equations. lia. Qed.

Lemma fat_word_in_sector g L j : 0 <= j -> j mod SS + 1 < SS ->
  fat_word g L j = word_at (L (g_fatbase g + j / SS)) (j mod SS).
Proof.
  intros Hj Hm. unfold fat_word, fat_byte, word_at.
  destruct (div_mod_next j 1) as [-> ->]; [lia..|done].
Qed.

Lemma even_room j m : 0 <= j -> (m = 2 \/ m = 4) -> j mod m = 0 -> j mod SS + (m - 1) < SS.
Proof. unfold SS. intros ? [-> | ->] ?; Z.div_mod_to_equations; lia. Qed.

(** A word and a double word of the FAT in the window. *)
Lemma see_win_word v w j Q :
  holds v w -> 0 <= j -> j mod 2 = 0 -> winsect (v_fs v) = g_fatbase (w_geom w) + j / SS ->
  Q (fat_word (w_geom w) (w_disk w) j) v -> wp (win_ld_word (j mod SS)) Q v.
Proof.
  intros Hv Hj Hm Hs HQ. destruct (window_sector v w Hv) as [Hl Hb].
  pose proof (even_room j 2 Hj (or_introl eq_refl) Hm). pose proof (Z.mod_pos_bound j SS).
  unfold win_ld_word, the_fs. wp_steps. apply wp_ld_word; [done|unfold SS in *; lia..|].
  rewrite fat_word_in_sector in HQ by lia. by rewrite (h_win _ _ _ Hv), Hs.
Qed.

Lemma fat_dword_in_sector g L j : 0 <= j -> j mod 4 = 0 ->
  fat_word g L j + 65536 * fat_word g L (j + 2) = dword_at (L (g_fatbase g + j / SS)) (j mod SS).
Proof.
  intros Hj Hm. pose proof (even_room j 4 Hj (or_intror eq_refl) Hm).
  destruct (div_mod_next j 2) as [E1 E2]; [lia..|].
  rewrite !fat_word_in_sector, E1, E2 by lia. done.
Qed.

Lemma see_win_dword v w j Q :
  holds v w -> 0 <= j -> j mod 4 = 0 -> winsect (v_fs v) = g_fatbase (w_geom w) + j / SS ->
  Q (fat_word (w_geom w) (w_disk w) j + 65536 * fat_word (w_geom w) (w_disk w) (j + 2)) v ->
  wp (win_ld_dword (j mod SS)) Q v.
Proof.
  intros Hv Hj Hm Hs HQ. destruct (window_sector v w Hv) as [Hl Hb].
  pose proof (even_room j 4 Hj (or_intror eq_refl) Hm). pose proof (Z.mod_pos_bound j SS).
  unfold win_ld_dword, the_fs. wp_steps. apply wp_ld_dword; [done|unfold SS in *; lia..|].
  rewrite fat_dword_in_sector in HQ by done. by rewrite (h_win _ _ _ Hv), Hs.
Qed.

(** The entry of a cluster, format by format. *)
Section Entry.
Context (v : vol D) (w : view) (c : Z) (Hv : holds v w) (Hc : 2 <= c < g_entries (w_geom w)).
Abbreviation g := (w_geom w).

Let Hok : geom_ok g := h_ok _ _ _ Hv.

(** The bounds on the numbers computed from a cluster. *)
Lemma cluster_bounds : 3 <= g_entries g <= 0x0FFFFFF7 /\ u32 (c + c / 2) = c + c / 2 /\
  u32 (c * 2) = 2 * c /\ u32 (c * 4) = 4 * c /\ c / (SS / 2) = 2 * c / SS /\
  c / (SS / 4) = 4 * c / SS.
Proof.
  destruct (geom_bounds _ Hok) as [Hb _]. split; [done|].
  change (SS / 2) with 256. change (SS / 4) with 128. unfold SS.
  rewrite !u32_small by (Z.div_mod_to_equations; lia). split_and!; Z.div_mod_to_equations; lia.
Qed.

Lemma see_get_fat12 Q : g_type g = FS_FAT12 ->
  (forall v', holds v' w -> on_fat w v' -> Q (fat_entry g (w_disk w) c) v') ->
  wp (get_fat c) Q v.
Proof.
  intros E HQ. destruct cluster_bounds as (Hb & Hu & _).
  destruct (holds_fields v w Hv) as (Et & En & Eb & _).
  destruct (entry_indices _ Hok c Hc) as (I0 & I1 & _). rewrite E in I0, I1.
  pose proof (fat_byte_range _ Hok _ _ (holds_sectors v w Hv) I0) as B0.
  pose proof (fat_byte_range _ Hok _ _ (holds_sectors v w Hv) I1) as B1.
  unfold get_fat, the_fs. do 2 wp_step. rewrite Et, En, Eb, E, Hu.
  replace ((c <? 2) || (g_entries g <=? c)) with false by (symmetry; apply orb_false_iff; split; lia).
  cbn [Z.eqb Pos.eqb FS_FAT12]. change (fat_offset FS_FAT12 c) with (c + c / 2) in *.
  set (j := c + c / 2) in *. apply wp_bind. eapply see_fat_sector; [exact Hv|exact I0|done|].
  intros v1 H1 Hs1 _. change (is_ok FR_OK) with true. cbn [negb]. apply wp_bind.
  eapply see_win_get; [exact H1|by apply Z.mod_pos_bound|]. rewrite Hs1. cbv zeta.
  fold (fat_byte g (w_disk w) j). rewrite (u32_small (j + 1)) by (unfold fat_index, SS in *; destruct (geom_bounds _ Hok); subst j; Z.div_mod_to_equations; lia).
  apply wp_bind. eapply see_fat_sector; [exact H1|exact I1|done|].
  intros v2 H2 Hs2 Hf2. change (is_ok FR_OK) with true. cbn [negb]. apply wp_bind.
  eapply see_win_get; [exact H2|by apply Z.mod_pos_bound|]. rewrite Hs2.
  fold (fat_byte g (w_disk w) (j + 1)). apply wp_ret. cbv zeta.
  rewrite Z.lor_comm, lor_shift, Z.shiftr_div_pow2 by (unfold is_byte in *; lia).
  change 0xFFF with (Z.ones 12). rewrite Z.land_ones by lia.
  specialize (HQ v2 H2 Hf2). unfold fat_entry, fat_word in HQ. rewrite E in HQ. exact HQ.
Qed.

Lemma cluster_in_table : (c <? 2) || (g_entries g <=? c) = false /\
  (2 <=? c) && (c <? g_entries g) = true.
Proof. rewrite orb_false_iff, andb_true_iff, Z.ltb_ge, Z.leb_gt, Z.leb_le, Z.ltb_lt. lia. Qed.

Lemma see_get_fat16 Q : g_type g = FS_FAT16 ->
  (forall v', holds v' w -> on_fat w v' -> Q (fat_entry g (w_disk w) c) v') ->
  wp (get_fat c) Q v.
Proof.
  intros E HQ. destruct cluster_bounds as (_ & _ & Hu & _ & Hd & _).
  destruct (holds_fields v w Hv) as (Et & En & Eb & _), cluster_in_table as [Hin _].
  destruct (entry_indices _ Hok c Hc) as (I0 & _). rewrite E in I0.
  unfold get_fat, the_fs. do 2 wp_step. rewrite Et, En, Eb, E, Hu, Hd, Hin.
  cbn [Z.eqb Pos.eqb FS_FAT12 FS_FAT16]. change (fat_offset FS_FAT16 c) with (2 * c) in *.
  apply wp_bind. eapply see_fat_sector; [exact Hv|exact I0|done|].
  intros v1 H1 Hs1 Hf1. change (is_ok FR_OK) with true. cbn [negb].
  eapply see_win_word; [exact H1|unfold fat_index in I0; lia|Z.div_mod_to_equations; lia|done|].
  specialize (HQ v1 H1 Hf1). unfold fat_entry in HQ. rewrite E in HQ. exact HQ.
Qed.

Lemma see_get_fat32 Q : g_type g = FS_FAT32 ->
  (forall v', holds v' w -> on_fat w v' -> Q (fat_entry g (w_disk w) c) v') ->
  wp (get_fat c) Q v.
Proof.
  intros E HQ. destruct cluster_bounds as (_ & _ & _ & Hu & _ & Hd).
  destruct (holds_fields v w Hv) as (Et & En & Eb & _), cluster_in_table as [Hin _].
  destruct (entry_indices _ Hok c Hc) as (I0 & _). rewrite E in I0.
  unfold get_fat, the_fs. do 2 wp_step. rewrite Et, En, Eb, E, Hu, Hd, Hin.
  cbn [Z.eqb Pos.eqb FS_FAT12 FS_FAT16 FS_FAT32]. change (fat_offset FS_FAT32 c) with (4 * c) in *.
  apply wp_bind. eapply see_fat_sector; [exact Hv|exact I0|done|].
  intros v1 H1 Hs1 Hf1. change (is_ok FR_OK) with true. cbn [negb]. apply wp_bind.
  eapply see_win_dword; [exact H1|unfold fat_index in I0; lia|Z.div_mod_to_equations; lia|done|].
  apply wp_ret. change 0x0FFFFFFF with (Z.ones 28). rewrite Z.land_ones by lia.
  specialize (HQ v1 H1 Hf1). unfold fat_entry in HQ. rewrite E in HQ. exact HQ.
Qed.

Lemma see_get_fat Q :
  (forall v', holds v' w -> on_fat w v' -> Q (fat_entry g (w_disk w) c) v') ->
  wp (get_fat c) Q v.
Proof.
  intros HQ. destruct (fat_mod_cases g Hok) as [[E _] | [[E _] | [E _]]];
    auto using see_get_fat12, see_get_fat16, see_get_fat32.
Qed.
End Entry.

(** A cluster outside of the table has no entry. *)
Lemma see_get_fat_out v w c Q :
  holds v w -> ~ 2 <= c < g_entries (w_geom w) -> Q 1 v -> wp (get_fat c) Q v.
Proof.
  intros Hv Hc HQ. destruct (holds_fields v w Hv) as (_ & En & _).
  unfold get_fat, the_fs. do 2 wp_step. rewrite En.
  destruct (_ || _) eqn:E; [done|]. breflect. lia.
Qed.

(** *** Stores *)

(** The window gets new bytes and is marked dirty. *)
Lemma see_win_upd v w s m (l : list Z) (k : K FRESULT) Q :
  holds v w -> winsect (v_fs v) = s -> sector l ->
  (forall R, R l v -> wp (m (w_disk w s)) R v) ->
  (forall v', holds v' (set_w_disk (fupd (w_disk w) s l) w) -> winsect (v_fs v') = s -> wp k Q v') ->
  wp (do* win_upd m in do* fs_upd (set_wflag 1) in k) Q v.
Proof.
  intros Hv <- Hl Hm HQ. apply wp_bind. unfold win_upd, the_fs, fs_upd. do 3 wp_step.
  rewrite (h_win _ _ _ Hv). apply Hm. wp_step. do 2 wp_step. apply HQ; [|done].
  exact (holds_store _ v w l Hv Hl).
Qed.

Lemma see_fat_store v w j x (k : K FRESULT) Q :
  holds v w -> fat_index (w_geom w) j -> is_byte x ->
  winsect (v_fs v) = g_fatbase (w_geom w) + j / SS ->
  (forall v', holds v' (set_w_disk (fat_set (w_geom w) j x (w_disk w)) w) -> on_fat w v' ->
     wp k Q v') ->
  wp (do* win_set (j mod SS) x in do* fs_upd (set_wflag 1) in k) Q v.
Proof.
  intros Hv Hj Hx Hs HQ. pose proof (h_ok _ _ _ Hv) as Hok.
  destruct (fat_index_sector _ Hok j Hj) as (_ & Hm & Hin & Hr).
  pose proof (h_sector _ _ _ Hv _ Hr) as Hsec.
  eapply see_win_upd; [done|done|by apply sector_insert|..].
  - intros R HR. apply wp_array_set; [|done]. by destruct Hsec as [-> _].
  - intros v' Hv' Hs'. apply HQ; [done|]. unfold on_fat. by rewrite Hs'.
Qed.

Lemma put_word_fat g L j x s : 0 <= j -> j mod SS + 1 < SS ->
  put_fat_word g j x L s =
  fupd L (g_fatbase g + j / SS) (put_word (L (g_fatbase g + j / SS)) (j mod SS) x) s.
Proof.
  intros Hj Hm. destruct (div_mod_next j 1) as [E1 E2]; [lia..|].
  unfold put_fat_word, fat_set, put_word, u8. rewrite E1, E2, fupd_eq, Z.shiftr_div_pow2 by lia.
  unfold fupd. by case_match.
Qed.

Lemma put_dword_fat g L j x s : 0 <= j -> j mod 4 = 0 ->
  put_fat_word g (j + 2) (x / 65536) (put_fat_word g j x L) s =
  fupd L (g_fatbase g + j / SS) (put_dword (L (g_fatbase g + j / SS)) (j mod SS) x) s.
Proof.
  intros Hj Hm. pose proof (even_room j 4 Hj (or_intror eq_refl) Hm).
  destruct (div_mod_next j 2) as [E1 E2]; [lia..|].
  assert (Hm2 : (j + 2) mod SS + 1 < SS) by (rewrite E2; lia).
  rewrite put_word_fat by lia. rewrite E1, E2. unfold put_dword.
  replace (Z.shiftr (Z.shiftr x 8) 8) with (x / 65536)
    by (rewrite !Z.shiftr_div_pow2, Z.div_div by lia; done).
  unfold fupd at 1. destruct (Z.eqb_spec s (g_fatbase g + j / SS)) as [->|Hne].
  - by rewrite fupd_eq, put_word_fat, fupd_eq by lia.
  - rewrite fupd_ne by done. rewrite put_word_fat by lia. by rewrite fupd_ne.
Qed.

Lemma put_word_u16 l i x : put_word l i (u16 x) = put_word l i x.
Proof.
  unfold put_word, u8, u16. rewrite !Z.shiftr_div_pow2 by lia.
  f_equal; [|f_equal]; Z.div_mod_to_equations; lia.
Qed.

Lemma high_nibble x : 0 <= x < 2 ^ 32 -> Z.land x 0xF0000000 = 2 ^ 28 * (x / 2 ^ 28).
Proof.
  intros Hx. change 0xF0000000 with (Z.ldiff (Z.ones 32) (Z.ones 28)).
  assert (Z.land x (Z.ldiff (Z.ones 32) (Z.ones 28)) = Z.ldiff (Z.land x (Z.ones 32)) (Z.ones 28)) as ->.
  { apply Z.bits_inj'. intros n _. by rewrite Z.land_spec, !Z.ldiff_spec, Z.land_spec, andb_assoc. }
  rewrite Z.land_ones, Z.mod_small, Z.ldiff_ones_r, Z.shiftl_mul_pow2, Z.shiftr_div_pow2 by lia. lia.
Qed.

(** The new value of a FAT32 entry keeps the upper four bits. *)
Lemma fat32_value old x : 0 <= old < 2 ^ 32 ->
  Z.lor (Z.land x 0x0FFFFFFF) (Z.land old 0xF0000000) = old / 2 ^ 28 * 2 ^ 28 + x mod 2 ^ 28.
Proof.
  intros Ho. rewrite high_nibble by done. change 0x0FFFFFFF with (Z.ones 28).
  rewrite Z.land_ones by lia. rewrite (Z.mul_comm (2 ^ 28)), <- Z.shiftl_mul_pow2, Z.lor_comm by lia.
  rewrite lor_shift by (pose proof (Z.mod_pos_bound x (2 ^ 28)); lia).
  rewrite Z.shiftl_mul_pow2 by lia. lia.
Qed.

(** The new bytes of a FAT12 entry. *)
Lemma fat12_first b x : is_byte b ->
  Z.lor (Z.land b 0x0F) (u8 (Z.shiftl (u8 x) 4)) = b mod 16 + 16 * (x mod 16).
Proof.
  intros Hb. change 0x0F with (Z.ones 4). rewrite Z.land_ones by lia.
  replace (u8 (Z.shiftl (u8 x) 4)) with (Z.shiftl (x mod 16) 4).
  2: { unfold u8. rewrite !Z.shiftl_mul_pow2 by lia. Z.div_mod_to_equations. lia. }
  change (2 ^ 4) with 16.
  rewrite Z.lor_comm, lor_shift by (pose proof (Z.mod_pos_bound b 16); lia). done.
Qed.

Lemma fat12_second b x : is_byte b ->
  Z.lor (Z.land b 0xF0) (Z.land (u8 (Z.shiftr x 8)) 0x0F) = b / 16 * 16 + x / 256 mod 16.
Proof.
  unfold is_byte. intros Hb. change 0x0F with (Z.ones 4). rewrite Z.land_ones by lia.
  assert (Z.land b 0xF0 = Z.shiftl (b / 16) 4) as ->.
  { change 16 with (2 ^ 4). rewrite <- (Z.shiftr_div_pow2 b 4) by lia. rewrite <- Z.ldiff_ones_r by lia.
    change 0xF0 with (Z.ldiff (Z.ones 8) (Z.ones 4)).
    rewrite <- (Z.mod_small b (2 ^ 8)) at 2 by lia. rewrite <- Z.land_ones by lia.
    apply Z.bits_inj'. intros n _. by rewrite Z.land_spec, !Z.ldiff_spec, Z.land_spec, andb_assoc. }
  change (2 ^ 4) with 16. replace (u8 (Z.shiftr x 8) mod 16) with (x / 256 mod 16).
  2: { unfold u8. rewrite Z.shiftr_div_pow2 by lia. Z.div_mod_to_equations. lia. }
  rewrite lor_shift by (pose proof (Z.mod_pos_bound (x / 256) 16); lia). lia.
Qed.

Section PutEntry.
Context (v : vol D) (w : view) (c x : Z) (Hv : holds v w) (Hc : 2 <= c < g_entries (w_geom w)).
Abbreviation g := (w_geom w).
Abbreviation put := (set_w_disk (fat_put g c x (w_disk w)) w).

Let Hok : geom_ok g := h_ok _ _ _ Hv.
Let Hin := proj2 (cluster_in_table w c Hc).

Lemma see_put_fat16 Q : g_type g = FS_FAT16 ->
  (forall v', holds v' put -> on_fat w v' -> Q FR_OK v') -> wp (put_fat c x) Q v.
Proof.
  intros E HQ. destruct (cluster_bounds v w c Hv Hc) as (_ & _ & Hu & _ & Hd & _).
  destruct (holds_fields v w Hv) as (Et & En & Eb & _).
  destruct (entry_indices _ Hok c Hc) as (I0 & _). rewrite E in I0.
  unfold put_fat, the_fs, check. do 2 wp_step. rewrite Et, En, Eb, E, Hu, Hd, Hin.
  cbn [Z.eqb Pos.eqb FS_FAT12 FS_FAT16 negb]. change (fat_offset FS_FAT16 c) with (2 * c) in *.
  assert (Hj : 0 <= 2 * c) by lia. assert (Hm : 2 * c mod 2 = 0) by (Z.div_mod_to_equations; lia).
  pose proof (even_room _ 2 Hj (or_introl eq_refl) Hm). pose proof (Z.mod_pos_bound (2 * c) SS).
  apply wp_bind. eapply see_fat_sector; [exact Hv|exact I0|done|].
  intros v1 Hv1 Hs1 Hf1. change (is_ok FR_OK) with true.
  destruct (fat_index_sector _ Hok _ I0) as (_ & _ & Hi & Hr).
  pose proof (h_sector _ _ _ Hv1 _ Hr) as Hsec.
  eapply see_win_upd; [done|done|by apply sector_put_word|..].
  { intros R HR. apply wp_st_word; [unfold SS in *; lia| |exact HR]. destruct Hsec as [-> _]. lia. }
  intros v2 Hv2 Hs2. apply wp_ret. apply HQ; [|unfold on_fat; by rewrite Hs2].
  apply (holds_ext _ _ _ (fat_put g c x (w_disk w))) in Hv2; [done|]. intros s. unfold fat_put.
  rewrite E. cbn [Z.eqb Pos.eqb FS_FAT12 FS_FAT16]. rewrite put_word_fat by (done || lia).
  by rewrite put_word_u16.
Qed.

Lemma see_put_fat32 Q : g_type g = FS_FAT32 ->
  (forall v', holds v' put -> on_fat w v' -> Q FR_OK v') -> wp (put_fat c x) Q v.
Proof.
  intros E HQ. destruct (cluster_bounds v w c Hv Hc) as (_ & _ & _ & Hu & _ & Hd).
  destruct (holds_fields v w Hv) as (Et & En & Eb & _).
  destruct (entry_indices _ Hok c Hc) as (I0 & I1 & I23). destruct (I23 E) as [I2 I3].
  pose proof (fat_word_range _ Hok _ (holds_sectors v w Hv) _ I0 I1) as R0.
  pose proof (fat_word_range _ Hok _ (holds_sectors v w Hv) _ I2 I3) as R1.
  rewrite E in I0, I1, I2, I3, R0, R1. unfold put_fat, the_fs, check. do 2 wp_step. rewrite Et, En, Eb, E, Hu, Hd, Hin.
  cbn [Z.eqb Pos.eqb FS_FAT12 FS_FAT16 FS_FAT32 negb]. change (fat_offset FS_FAT32 c) with (4 * c) in *.
  assert (Hj : 0 <= 4 * c) by lia. assert (Hm : 4 * c mod 4 = 0) by (Z.div_mod_to_equations; lia).
  pose proof (even_room _ 4 Hj (or_intror eq_refl) Hm). pose proof (Z.mod_pos_bound (4 * c) SS).
  apply wp_bind. eapply see_fat_sector; [exact Hv|exact I0|done|].
  intros v1 Hv1 Hs1 Hf1. change (is_ok FR_OK) with true. cbv iota. apply wp_bind.
  eapply see_win_dword; [done..|]. cbv zeta. rewrite fat32_value by lia.
  destruct (fat_index_sector _ Hok _ I0) as (_ & _ & Hi & Hr).
  pose proof (h_sector _ _ _ Hv1 _ Hr) as Hsec.
  eapply see_win_upd; [done|done|by apply sector_put_dword|..].
  { intros R HR. apply wp_st_dword; [unfold SS in *; lia| |exact HR]. destruct Hsec as [-> _]. lia. }
  intros v2 Hv2 Hs2. apply wp_ret. apply HQ; [|unfold on_fat; by rewrite Hs2].
  apply (holds_ext _ _ _ (fat_put g c x (w_disk w))) in Hv2; [done|]. intros s. unfold fat_put.
  rewrite E. cbn [Z.eqb Pos.eqb FS_FAT12 FS_FAT16 FS_FAT32]. by rewrite put_dword_fat.
Qed.

Lemma see_put_fat12 Q : g_type g = FS_FAT12 ->
  (forall v', holds v' put -> on_fat w v' -> Q FR_OK v') -> wp (put_fat c x) Q v.
Proof.
  intros E HQ. destruct (cluster_bounds v w c Hv Hc) as (Hb & Hu & _).
  destruct (holds_fields v w Hv) as (Et & En & Eb & _).
  destruct (entry_indices _ Hok c Hc) as (I0 & I1 & _). rewrite E in I0, I1.
  pose proof (holds_sectors v w Hv) as HL.
  pose proof (fat_byte_range _ Hok _ _ HL I0) as B0. pose proof (fat_byte_range _ Hok _ _ HL I1) as B1.
  unfold put_fat, the_fs, check. do 2 wp_step. rewrite Et, En, Eb, E, Hu, Hin.
  cbn [Z.eqb Pos.eqb FS_FAT12 negb]. change (fat_offset FS_FAT12 c) with (c + c / 2) in *.
  set (j := c + c / 2) in *. apply wp_bind. eapply see_fat_sector; [exact Hv|exact I0|done|].
  intros v1 Hv1 Hs1 Hf1. change (is_ok FR_OK) with true. cbv iota. apply wp_bind.
  eapply see_win_get; [exact Hv1|by apply Z.mod_pos_bound|]. rewrite Hs1.
  fold (fat_byte g (w_disk w) j). rewrite fat12_first by done. cbv zeta.
  set (x0 := if Z.odd c then fat_byte g (w_disk w) j mod 16 + 16 * (x mod 16) else u8 x).
  assert (X0 : is_byte x0) by (subst x0; destruct (Z.odd c); [by apply byte_nibbles|apply u8_byte]).
  eapply see_fat_store; [done..|]. intros v2 Hv2 Hf2.
  rewrite (u32_small (j + 1)) by (destruct (geom_bounds _ Hok); subst j; Z.div_mod_to_equations; lia).
  apply wp_bind. eapply see_fat_sector; [exact Hv2|exact I1|done|].
  intros v3 Hv3 Hs3 Hf3. change (is_ok FR_OK) with true. cbv iota. apply wp_bind.
  eapply see_win_get; [exact Hv3|by apply Z.mod_pos_bound|]. rewrite Hs3.
  cbn [set_w_disk w_disk w_geom] in *.
  fold (fat_byte g (fat_set g j x0 (w_disk w)) (j + 1)).
  rewrite fat_byte_set by done. rewrite (proj2 (Z.eqb_neq (j + 1) j)) by lia.
  rewrite fat12_second by done.
  eapply see_fat_store; [exact Hv3|done| |done|].
  { destruct (Z.odd c); [apply u8_byte|by apply byte_nibbles']. }
  intros v4 Hv4 Hf4. apply wp_ret. apply HQ; [|exact Hf4].
  apply (holds_ext _ _ _ (fat_put g c x (w_disk w))) in Hv4; [done|]. intros s. unfold fat_put.
  rewrite E. cbn [Z.eqb Pos.eqb FS_FAT12 set_w_disk w_disk w_geom].
  change (fat_offset FS_FAT12 c) with j. subst x0. unfold u8.
  destruct (Z.odd c); rewrite ?Z.shiftr_div_pow2 by lia; done.
Qed.

Lemma see_put_fat Q : (forall v', holds v' put -> on_fat w v' -> Q FR_OK v') -> wp (put_fat c x) Q v.
Proof.
  intros HQ. destruct (fat_mod_cases g Hok) as [[E _] | [[E _] | [E _]]];
    auto using see_put_fat12, see_put_fat16, see_put_fat32.
Qed.
End PutEntry.
End Access.
