(* ===== verification/FatChain.v ===== *)
(** * FatFs: cluster chains

    A file is a chain of clusters in the FAT.  [remove_chain] frees exactly its
    clusters, and [create_chain] adds a free cluster at its end or finds that
    there is none; no other chain changes. *)

From stdpp Require Import sets.
From S2P Require Import Prelude FatData FatFs FatVolume FatTable.

#[local] Open Scope Z_scope.
#[local] Open Scope list_scope.

(** ** Chains *)

Section Chains.
Context (n : Z).
Implicit Types (F : Z -> Z) (l : list Z).

(** The chain from [c] on has the clusters [l] and ends with an entry outside of
    the table. *)
Fixpoint chain F (c : Z) (l : list Z) : Prop :=
  match l with
  | [] => n <= c
  | x :: l => c = x /\ 2 <= c < n /\ chain F (F c) l
  end.

Lemma chain_unique F c l1 l2 : chain F c l1 -> chain F c l2 -> l1 = l2.
Proof.
  revert c l2. induction l1 as [|x l1 IH]; intros c [|y l2]; cbn; [done|lia|lia|].
  intros (-> & _ & H1) (-> & _ & H2). f_equal. eauto.
Qed.

Lemma chain_range F c l x : chain F c l -> x ∈ l -> 2 <= x < n.
Proof.
  revert c. induction l as [|y l IH]; intros c; [by intros _ ?%not_elem_of_nil|].
  intros (-> & Hr & Hl) [->|Hx]%elem_of_cons; eauto.
Qed.

(** From every cluster of a chain the rest of the chain follows. *)
Lemma chain_suffix F c l x : chain F c l -> x ∈ l ->
  exists l1 l2, l = l1 ++ x :: l2 /\ chain F x (x :: l2).
Proof.
  revert c. induction l as [|y l IH]; intros c; [by intros _ ?%not_elem_of_nil|].
  intros (-> & Hr & Hl) Hx. destruct (decide (x = y)) as [->|Hne].
  - exists [], l. done.
  - apply elem_of_cons in Hx as [->|Hx]; [done|]. destruct (IH _ Hl Hx) as (l1 & l2 & -> & Hc).
    by exists (y :: l1), l2.
Qed.

Lemma chain_NoDup F c l : chain F c l -> NoDup l.
Proof.
  revert c. induction l as [|x l IH]; intros c; [constructor|]. intros (-> & Hr & Hl).
  constructor; [|eauto]. intros Hx. destruct (chain_suffix _ _ _ _ Hl Hx) as (l1 & l2 & -> & _ & _ & Hc).
  pose proof (chain_unique _ _ _ _ Hl Hc) as E. apply (f_equal length) in E.
  rewrite length_app in E. cbn in E. lia.
Qed.

(** A chain only depends on the entries of its clusters. *)
Lemma chain_ext F F' c l : chain F c l -> (forall x, x ∈ l -> F' x = F x) -> chain F' c l.
Proof.
  revert c. induction l as [|x l IH]; intros c; [done|]. intros (-> & Hr & Hl) HF.
  split_and!; [done|lia|lia|]. rewrite HF by left. apply IH; [done|]. intros y Hy. apply HF. by right.
Qed.

Lemma chain_head F c l x : chain F c l -> lookupZ l 0 = Some x -> c = x.
Proof. destruct l; [done|]. intros (-> & _) [= ->]. done. Qed.

Lemma chain_next F c l i x y : chain F c l -> 0 <= i -> lookupZ l i = Some x ->
  lookupZ l (i + 1) = Some y -> F x = y.
Proof.
  intros Hl Hi. unfold lookupZ. destruct (Z.leb_spec 0 i), (Z.leb_spec 0 (i + 1)); [|lia..].
  replace (Z.to_nat (i + 1)) with (S (Z.to_nat i)) by lia. generalize (Z.to_nat i) as n'. clear - Hl.
  revert c Hl. induction l as [|z l IH]; intros c; [done|]. intros (-> & _ & Hl) [|n']; cbn.
  - intros [= ->] Hy. destruct l; [done|]. injection Hy as ->. by destruct Hl as (-> & _).
  - by eapply IH.
Qed.

Lemma chain_end F c l x : chain F c (l ++ [x]) -> n <= F x.
Proof. revert c. induction l as [|y l IH]; intros c; [by intros (-> & _ & ?)|]. intros (_ & _ & Hl). eauto. Qed.

(** The last cluster of a chain gets a successor. *)
Lemma chain_snoc F F' c l x y : chain F c (l ++ [x]) -> y ∉ l ++ [x] ->
  (forall z, z ∈ l -> F' z = F z) -> F' x = y -> 2 <= y < n -> n <= F' y ->
  chain F' c (l ++ [x; y]).
Proof.
  revert c. induction l as [|z l IH]; intros c; cbn [app chain].
  - intros (-> & Hr & _) _ _ <- Hy He. split_and!; done || lia.
  - intros (-> & Hr & Hl) Hy HF Hx Hyr He. split_and!; [done|lia|lia|].
    rewrite HF by left. apply not_elem_of_cons in Hy as [_ Hy].
    apply IH; [done..| |done|done|done]. intros z' Hz. apply HF. by right.
Qed.
End Chains.

Lemma length_range (n : Z) (l : list Z) : NoDup l -> (forall x, x ∈ l -> 2 <= x < n) ->
  Z.of_nat (length l) <= Z.max 0 (n - 2).
Proof.
  intros Hd Hr. assert (length l <= length (seqZ 2 (n - 2)))%nat as Hl.
  { apply submseteq_length, NoDup_submseteq; [done|]. intros x Hx. apply elem_of_seqZ.
    pose proof (Hr x Hx). lia. }
  rewrite length_seqZ in Hl. lia.
Qed.

Lemma chain_length n F c l : chain n F c l -> Z.of_nat (length l) <= Z.max 0 (n - 2).
Proof.
  intros Hc. apply length_range; [by eapply chain_NoDup|]. intros x. by eapply chain_range.
Qed.

(** ** The entries of a view *)

Definition entries (w : view) : Z -> Z := fat_entry (w_geom w) (w_disk w).
Definition w_chain (w : view) : Z -> list Z -> Prop := chain (g_entries (w_geom w)) (entries w).

(** The mark at the end of a chain. *)
Definition eoc (w : view) : Z := 0xFFFFFFFF mod fat_mod (g_type (w_geom w)).

(** The same volume up to the entries and the accounting. *)
Definition same_data (w w' : view) : Prop :=
  w_geom w' = w_geom w /\ forall s, in_fat (w_geom w) s = false -> w_disk w' s = w_disk w s.

#[export] Instance same_data_preorder : PreOrder same_data.
Proof.
  split; [by intros w|]. intros w1 w2 w3 [E1 H1] [E2 H2]. split; [congruence|].
  intros s Hs. rewrite H2 by (by rewrite E1). auto.
Qed.

(** The clusters of the data area, and how many of them are free. *)
Definition clusters (w : view) : list Z := seqZ 2 (g_entries (w_geom w) - 2).
Fixpoint count_free (F : Z -> Z) (l : list Z) : Z :=
  match l with [] => 0 | c :: l => Z.b2z (F c =? 0) + count_free F l end.
Definition free_count (w : view) : Z := count_free (entries w) (clusters w).

(** [free_clst] is the number of free clusters, or none that is possible: it is
    not known. *)
Definition accounted (w : view) : Prop :=
  0 <= w_free w < 2 ^ 32 /\
  (w_free w <= g_entries (w_geom w) - 2 -> w_free w = free_count w).

(** No entry is 1, which the code takes for an error. *)
Definition no_errors (w : view) : Prop :=
  forall c, 2 <= c < g_entries (w_geom w) -> entries w c <> 1.

Definition tidy (w : view) : Prop :=
  accounted w /\ no_errors w /\ 0 <= w_last w < 2 ^ 32.

(** ** What the operations do to a view *)

Definition put_entry (c x : Z) (w : view) : view :=
  set_w_disk (fat_put (w_geom w) c x (w_disk w)) w.

(** A cluster is freed. *)
Definition free_one (w : view) (c : Z) : view :=
  let w' := put_entry c 0 w in
  if w_free w <? g_entries (w_geom w) - 2
  then View (w_geom w) (w_last w) (w_free w + 1) (Z.lor (w_fsi w) 1) (w_disk w') else w'.

Definition cut (pclst : Z) (w : view) : view :=
  if pclst =? 0 then w else put_entry pclst 0xFFFFFFFF w.

(** A free cluster becomes the end of a chain, after [clst] unless it is 0. *)
Definition link (clst ncl : Z) (w : view) : view :=
  let w1 := put_entry ncl 0xFFFFFFFF w in
  let w2 := if clst =? 0 then w1 else put_entry clst ncl w1 in
  View (w_geom w) ncl
    (if w_free w <=? g_entries (w_geom w) - 2 then w_free w - 1 else w_free w)
    (Z.lor (w_fsi w) 1) (w_disk w2).

(** ** Counting *)

Lemma count_ext F F' l : (forall x, x ∈ l -> (F' x =? 0) = (F x =? 0)) -> count_free F' l = count_free F l.
Proof.
  induction l as [|x l IH]; intros HF; [done|]. cbn. rewrite HF by left.
  f_equal. apply IH. intros y Hy. apply HF. by right.
Qed.

Lemma count_bounds F l : 0 <= count_free F l <= zlen l.
Proof. unfold zlen. induction l as [|x l IH]; cbn; [lia|]. destruct (F x =? 0); cbn; lia. Qed.

(** One entry changes. *)
Lemma count_change F F' l c : NoDup l -> c ∈ l -> (forall x, x ∈ l -> x <> c -> (F' x =? 0) = (F x =? 0)) ->
  count_free F' l + Z.b2z (F c =? 0) = count_free F l + Z.b2z (F' c =? 0).
Proof.
  induction l as [|x l IH]; [by intros _ ?%not_elem_of_nil|].
  intros [Hx Hd]%NoDup_cons Hc HF. cbn. destruct (decide (x = c)) as [E|Hne].
  - rewrite E in *. rewrite (count_ext F F' l); [lia|]. intros y Hy. apply HF; [by right|congruence].
  - rewrite (HF x) by (by left || done). apply elem_of_cons in Hc as [|Hc]; [congruence|].
    enough (count_free F' l + Z.b2z (F c =? 0) = count_free F l + Z.b2z (F' c =? 0)) by lia.
    apply IH; [done..|]. intros y Hy. apply HF. by right.
Qed.

Lemma count_none F l : count_free F l = 0 <-> forall x, x ∈ l -> F x <> 0.
Proof.
  induction l as [|y l IH]; cbn; [split; [intros _ x ?%not_elem_of_nil|]; done|].
  pose proof (count_bounds F l). destruct (Z.eqb_spec (F y) 0) as [E|E]; cbn.
  - split; [lia|]. intros HF. destruct (HF y); [by left|done].
  - rewrite IH. split; [intros HF x [->|Hx]%elem_of_cons; auto|]. intros HF x Hx. apply HF. by right.
Qed.

Lemma elem_of_clusters w c : c ∈ clusters w <-> 2 <= c < g_entries (w_geom w).
Proof. unfold clusters. rewrite elem_of_seqZ. lia. Qed.

Lemma free_count_bounds w : 0 <= free_count w <= Z.max 0 (g_entries (w_geom w) - 2).
Proof.
  unfold free_count. pose proof (count_bounds (entries w) (clusters w)) as H. revert H.
  unfold zlen, clusters. rewrite length_seqZ. lia.
Qed.

Lemma free_count_change w w' c : w_geom w' = w_geom w -> 2 <= c < g_entries (w_geom w) ->
  (forall x, 2 <= x < g_entries (w_geom w) -> x <> c -> (entries w' x =? 0) = (entries w x =? 0)) ->
  free_count w' + Z.b2z (entries w c =? 0) = free_count w + Z.b2z (entries w' c =? 0).
Proof.
  intros E Hc HF. unfold free_count. replace (clusters w') with (clusters w) by (unfold clusters; by rewrite E).
  apply count_change; [apply NoDup_seqZ|by apply elem_of_clusters|].
  intros x Hx. apply HF. by apply elem_of_clusters.
Qed.

(** ** Lemmas on the operations *)

Definition volume (w : view) : Prop := geom_ok (w_geom w) /\ sectors (w_disk w).
Definition cluster (w : view) (c : Z) : Prop := 2 <= c < g_entries (w_geom w).

(** Clusters fit in entries, and the end mark is no cluster. *)
Lemma entries_fit g : geom_ok g ->
  g_entries g <= 0xFFFFFFFF mod fat_mod (g_type g) < fat_mod (g_type g) /\
  fat_mod (g_type g) <= 2 ^ 28.
Proof.
  intros Hg. pose proof (go_entries g Hg) as He.
  destruct (fat_mod_cases g Hg) as [[E ->] | [[E ->] | [E ->]]]; rewrite E in He; cbn in He |- *;
    unfold MAX_FAT12, MAX_FAT16, MAX_FAT32 in He;
    match goal with |- context [?a mod ?b] =>
      let y := eval vm_compute in (a mod b) in change (a mod b) with y end; lia.
Qed.

Lemma entry_range w c : volume w -> cluster w c -> 0 <= entries w c < 2 ^ 28.
Proof.
  intros [Hg HL] Hc. pose proof (fat_entry_range _ Hg _ HL c Hc). pose proof (entries_fit _ Hg).
  unfold entries. lia.
Qed.

Section PutEntry.
Context (w : view) (c : Z) (Hw : volume w) (Hc : cluster w c).

Lemma put_entry_volume x : volume (put_entry c x w).
Proof. destruct Hw as [Hg HL]. split; [done|]. by apply fat_put_facts. Qed.

Lemma put_entry_data x : same_data w (put_entry c x w).
Proof. destruct Hw as [Hg HL]. split; [done|]. intros s Hs. by apply fat_put_facts. Qed.

Lemma put_entry_entries x c' : cluster w c' ->
  entries (put_entry c x w) c' = if c' =? c then x mod fat_mod (g_type (w_geom w)) else entries w c'.
Proof. destruct Hw as [Hg HL]. intros Hc'. by apply fat_entry_put. Qed.

Lemma free_one_volume : volume (free_one w c).
Proof. unfold free_one. case_match; apply put_entry_volume. Qed.

Lemma free_one_data : same_data w (free_one w c).
Proof. unfold free_one. case_match; apply put_entry_data. Qed.

Lemma free_one_entries c' : cluster w c' ->
  entries (free_one w c) c' = if c' =? c then 0 else entries w c'.
Proof.
  intros Hc'. transitivity (entries (put_entry c 0 w) c'); [unfold free_one; by case_match|].
  by rewrite put_entry_entries, Zmod_0_l.
Qed.

Lemma free_one_last : w_last (free_one w c) = w_last w.
Proof. unfold free_one. by case_match. Qed.

Lemma free_one_free : w_free (free_one w c) =
  if w_free w <? g_entries (w_geom w) - 2 then w_free w + 1 else w_free w.
Proof. unfold free_one. by case_match. Qed.

Lemma free_one_accounted : accounted w -> entries w c <> 0 -> accounted (free_one w c).
Proof.
  intros [Hr Ha] Hne. destruct (geom_bounds _ (proj1 Hw)) as [Hn _].
  pose proof (free_count_change w (free_one w c) c (proj1 free_one_data) Hc) as Hcnt.
  specialize (Hcnt ltac:(intros x Hx Hxc; rewrite free_one_entries by done; by rewrite (proj2 (Z.eqb_neq x c)))).
  rewrite (free_one_entries c Hc), Z.eqb_refl, (proj2 (Z.eqb_neq (entries w c) 0)) in Hcnt by done.
  pose proof (free_count_bounds (free_one w c)) as Hb. rewrite (proj1 free_one_data) in Hb.
  cbn in Hcnt. unfold accounted. rewrite (proj1 free_one_data), free_one_free.
  destruct (Z.ltb_spec (w_free w) (g_entries (w_geom w) - 2)); lia.
Qed.

Lemma free_one_tidy : tidy w -> entries w c <> 0 -> tidy (free_one w c).
Proof.
  intros (Ha & Hn & Hl) Hne. split; [by apply free_one_accounted|].
  split; [|by rewrite free_one_last].
  intros x Hx. rewrite (proj1 free_one_data) in Hx. rewrite free_one_entries by done.
  case_match; [done|by apply Hn].
Qed.
End PutEntry.

(** All clusters of a chain are freed. *)
Lemma free_all_spec l w : volume w -> NoDup l -> (forall c, c ∈ l -> cluster w c) ->
  volume (foldl free_one w l) /\ same_data w (foldl free_one w l) /\
  (forall c, cluster w c ->
     entries (foldl free_one w l) c = if bool_decide (c ∈ l) then 0 else entries w c) /\
  (tidy w -> (forall c, c ∈ l -> entries w c <> 0) -> tidy (foldl free_one w l)).
Proof.
  revert w. induction l as [|x l IH]; intros w Hw Hd Hl; cbn [foldl].
  { split_and!; done. }
  apply NoDup_cons in Hd as [Hx Hd]. assert (Hcx : cluster w x) by (apply Hl; by left).
  pose proof (free_one_data w x Hw Hcx) as Hdata.
  destruct (IH (free_one w x) (free_one_volume w x Hw Hcx) Hd) as (V & S & E & T).
  { intros c Hc. unfold cluster. rewrite (proj1 Hdata). apply Hl. by right. }
  split_and!; [done|by transitivity (free_one w x)|..].
  - intros c Hc. rewrite E by (unfold cluster; by rewrite (proj1 Hdata)).
    rewrite free_one_entries, (bool_decide_ext (c ∈ x :: l) (c = x \/ c ∈ l)) by (done || apply elem_of_cons).
    destruct (Z.eqb_spec c x) as [Exc|Hne].
    + rewrite (bool_decide_eq_true_2 (_ \/ _)) by auto. by case_bool_decide.
    + rewrite (bool_decide_ext (c = x \/ c ∈ l) (c ∈ l)); [done|]. tauto.
  - intros Ht Hne. apply T; [apply free_one_tidy; [done..|]; apply Hne; by left|].
    intros c Hc. rewrite free_one_entries by (done || apply Hl; by right).
    case_match; breflect; [congruence|]. apply Hne. by right.
Qed.

(** ** The code *)

Section Code.
Context {D : Type} `{WorkingDrive D contents online many} (copied : Z -> Prop).
Implicit Types (v : vol D) (w : view).

Abbreviation holds := (holds (contents := contents) (online := online) copied).

Lemma holds_volume v w : holds v w -> volume w.
Proof. intros Hv. split; [apply (h_ok _ _ _ Hv)|by eapply holds_sectors]. Qed.

(** [n_fatent - 2] does not wrap. *)
Lemma entries_u32 v w : holds v w ->
  n_fatent (v_fs v) = g_entries (w_geom w) /\ u32 (n_fatent (v_fs v) - 2) = g_entries (w_geom w) - 2.
Proof.
  intros Hv. destruct (holds_fields _ v w Hv) as (_ & -> & _).
  pose proof (geom_bounds _ (h_ok _ _ _ Hv)). split; [done|]. apply u32_small. lia.
Qed.

(** The code updates the accounting. *)
Lemma see_accounting v w w' f :
  holds v w -> (forall fs, geom_of (f fs) = geom_of fs /\ pdrv (f fs) = pdrv fs /\
    winsect (f fs) = winsect fs /\ win (f fs) = win fs /\ wflag (f fs) = wflag fs) ->
  w' = View (w_geom w) (last_clst (f (v_fs v))) (free_clst (f (v_fs v))) (fsi_flag (f (v_fs v)))
         (w_disk w) ->
  holds (Vol (f (v_fs v)) (v_drive v)) w'.
Proof.
  intros Hv Hf ->. destruct (Hf (v_fs v)) as (Eg & Ep & Es & Ew & El).
  apply holds_fs; [done|rewrite Eg; apply Hv|rewrite Ep; apply Hv|done..].
Qed.

Lemma see_free_one v w c (k : K FRESULT) Q :
  holds v w -> cluster w c -> accounted w ->
  (forall v', holds v' (free_one w c) -> wp k Q v') ->
  wp (check (put_fat c 0) (do* fs_upd count_freed in k)) Q v.
Proof.
  intros Hv Hc [Ha _] HQ. unfold check. apply wp_bind. eapply see_put_fat; [exact Hv|exact Hc|].
  intros v1 Hv1 _. change (is_ok FR_OK) with true. cbv iota.
  apply wp_bind. unfold fs_upd. apply wp_modify. apply HQ.
  eapply see_accounting; [exact Hv1|intros fs; unfold count_freed; by case_match|].
  destruct (entries_u32 _ _ Hv1) as [En Eu]. destruct (h_counts _ _ _ Hv1) as (El & Efree & Ef).
  pose proof (geom_bounds _ (h_ok _ _ _ Hv)) as [Hn _].
  unfold count_freed, free_one. rewrite Efree, Eu. cbn [set_w_disk w_free w_geom put_entry] in *.
  destruct (Z.ltb_spec (w_free w) (g_entries (w_geom w) - 2)); cbn.
  - rewrite u32_small by lia. by rewrite El, Ef.
  - by rewrite El, Efree, Ef.
Qed.

(** The loop frees the clusters of the chain from [c] on, and enough fuel is one
    round per cluster. *)
Lemma see_remove_loop l fuel v w c Q :
  holds v w -> tidy w -> w_chain w c l -> l <> [] -> (length l <= fuel)%nat ->
  (forall v', holds v' (foldl free_one w l) -> Q FR_OK v') ->
  wp (remove_loop fuel c) Q v.
Proof.
  revert l v w c. induction fuel as [|fuel IH]; intros l v w c Hv Ht Hl Hne Hf HQ;
    destruct l as [|x l]; cbn [length] in *; [done|lia|done|].
  destruct Hl as (-> & Hx & Hl). cbn [remove_loop foldl] in *. apply wp_bind.
  eapply see_get_fat; [exact Hv|exact Hx|]. intros v1 Hv1 _. fold (entries w x).
  pose proof (entry_range w x (holds_volume _ _ Hv) Hx) as Hr.
  pose proof (geom_bounds _ (h_ok _ _ _ Hv)) as [Hn _].
  assert (2 <= entries w x) by (destruct l; [cbn in Hl; lia|destruct Hl as (_ & ? & _); lia]).
  rewrite (proj2 (Z.eqb_neq (entries w x) 0)), (proj2 (Z.eqb_neq (entries w x) 1)),
    (proj2 (Z.eqb_neq (entries w x) DISK_ERR)) by (unfold DISK_ERR; lia).
  eapply see_free_one; [exact Hv1|exact Hx|apply Ht|]. intros v2 Hv2. apply wp_bind.
  unfold the_fs. apply wp_gets. destruct (entries_u32 _ _ Hv2) as [-> _].
  pose proof (holds_volume _ _ Hv) as Hw. rewrite (proj1 (free_one_data w x Hw Hx)).
  destruct l as [|y l].
  { cbn in Hl. rewrite (proj2 (Z.ltb_ge _ _)) by lia. apply wp_ret. by apply HQ. }
  rewrite (proj2 (Z.ltb_lt _ _)) by (destruct Hl; lia).
  eapply (IH (y :: l)); [exact Hv2|by apply free_one_tidy; [..|lia]| |done|cbn in *; lia|done].
  assert (x ∉ y :: l) as Hxl.
  { assert (NoDup (x :: y :: l)) as []%NoDup_cons; [|done].
    eapply (chain_NoDup _ (entries w) x). exact (conj eq_refl (conj Hx Hl)). }
  unfold w_chain. rewrite (proj1 (free_one_data w x Hw Hx)).
  eapply chain_ext; [exact Hl|]. intros z Hz.
  rewrite (free_one_entries w x Hw Hx z (chain_range _ _ _ _ _ Hl Hz)).
  rewrite (proj2 (Z.eqb_neq z x)); [done|congruence].
Qed.

(** [remove_chain] of a chain that is a tail or the whole of a file. *)
Lemma see_remove_chain v w c l p Q :
  holds v w -> tidy (cut p w) -> w_chain w c l -> l <> [] ->
  p = 0 \/ cluster w p /\ p ∉ l ->
  (forall v', holds v' (foldl free_one (cut p w) l) -> Q FR_OK v') ->
  wp (remove_chain c p) Q v.
Proof.
  intros Hv Ht Hl Hne Hp HQ. unfold remove_chain, the_fs, check. do 2 wp_step.
  destruct (entries_u32 _ _ Hv) as [-> _].
  assert (2 <= c < g_entries (w_geom w)) by (destruct l; [done|destruct Hl as (-> & ? & _); lia]).
  rewrite (proj2 (Z.ltb_ge c 2)), (proj2 (Z.leb_gt _ c)) by lia. cbn [orb].
  assert (w_chain (cut p w) c l /\ w_geom (cut p w) = w_geom w) as [Hl' Eg].
  { unfold cut, w_chain in *. destruct (Z.eqb_spec p 0); [done|]. destruct Hp as [|[Hp Hpl]]; [done|].
    split; [|done]. eapply chain_ext; [exact Hl|]. intros z Hz.
    rewrite (put_entry_entries w p (holds_volume _ _ Hv) Hp _ z (chain_range _ _ _ _ _ Hl Hz)).
    rewrite (proj2 (Z.eqb_neq z p)); [done|congruence]. }
  assert (forall v', holds v' (cut p w) ->
     wp (remove_loop (Z.to_nat (g_entries (w_geom w))) c) Q v') as Hloop.
  { intros v' Hv'. eapply see_remove_loop; [done..| |done].
    pose proof (chain_length _ _ _ _ Hl). lia. }
  apply wp_bind. unfold cut in Hloop. destruct (Z.eqb_spec p 0); cbn [negb].
  - apply wp_ret. by apply Hloop.
  - destruct Hp as [|[Hp _]]; [done|]. eapply see_put_fat; [done|done|].
    intros v1 Hv1 _. by apply Hloop.
Qed.
End Code.
