(* ===== verification/FatAlloc.v ===== *)
(** * FatFs: allocation of clusters

    The search of [create_chain] finds a free cluster whenever there is one,
    looking at every cluster at most once; the cluster becomes the end of the
    chain. *)

From stdpp Require Import sets.
From S2P Require Import Prelude FatData FatFs FatVolume FatTable FatChain.

#[local] Open Scope Z_scope.
#[local] Open Scope list_scope.

(** ** The new link *)

Section Link.
Context (w : view) (c x : Z) (Hw : volume w) (Hx : cluster w x) (Hfree : entries w x = 0).
Context (Hc : c = 0 \/ cluster w c /\ entries w c <> 0).

Lemma link_disk : exists w2, w_disk (link c x w) = w_disk w2 /\ w_geom w2 = w_geom w /\ volume w2 /\
  same_data w w2 /\ forall c', cluster w c' -> entries w2 c' =
    if c' =? x then eoc w else if (c' =? c) then x else entries w c'.
Proof.
  set (w1 := put_entry x 0xFFFFFFFF w). assert (Hw1 : volume w1) by by apply put_entry_volume.
  unfold link. destruct (Z.eqb_spec c 0) as [Ec|Hne].
  - exists w1. split_and!; [done..|by apply put_entry_data|]. intros c' Hc'.
    unfold w1. rewrite put_entry_entries by done. case_match; [done|].
    rewrite (proj2 (Z.eqb_neq c' c)); [done|unfold cluster in Hc'; lia].
  - destruct Hc as [|[Hcl Hn]]; [done|]. exists (put_entry c x w1).
    split_and!; [done|done|by apply put_entry_volume..| |].
    { transitivity w1; by apply put_entry_data. }
    intros c' Hc'. rewrite (put_entry_entries w1 c Hw1 Hcl) by done. cbn [w_geom put_entry set_w_disk].
    unfold w1. rewrite (put_entry_entries w x Hw Hx) by done. unfold eoc.
    destruct (Z.eqb_spec c' c) as [E1|], (Z.eqb_spec c' x) as [E2|]; [congruence| |done..].
    apply (Z.mod_small x (fat_mod (g_type (w_geom w)))). pose proof (entries_fit _ (proj1 Hw)). unfold cluster in Hx. lia.
Qed.

Lemma link_volume : volume (link c x w).
Proof. destruct link_disk as (w2 & E & _ & [_ Hs] & _). split; [apply Hw|]. unfold sectors. by rewrite E. Qed.

Lemma link_data : same_data w (link c x w).
Proof. destruct link_disk as (w2 & E & _ & _ & [_ Hs] & _). split; [done|]. by rewrite E. Qed.

Lemma link_entries c' : cluster w c' -> entries (link c x w) c' =
  if c' =? x then eoc w else if c' =? c then x else entries w c'.
Proof.
  destruct link_disk as (w2 & E & Eg & _ & _ & He). intros Hc'. rewrite <- He by done.
  unfold entries. rewrite E, Eg. done.
Qed.

Lemma eoc_range : g_entries (w_geom w) <= eoc w.
Proof. pose proof (entries_fit _ (proj1 Hw)). unfold eoc. lia. Qed.

Lemma link_free_count : free_count (link c x w) = free_count w - 1.
Proof.
  pose proof eoc_range as He. assert (Hr := Hx). unfold cluster in Hr.
  pose proof (free_count_change w (link c x w) x eq_refl Hx) as E.
  rewrite Hfree, (link_entries x Hx), (Z.eqb_refl x), (proj2 (Z.eqb_neq (eoc w) 0)) in E by lia.
  cbn in E. enough (free_count (link c x w) + 1 = free_count w + 0) by lia. apply E. intros y Hy Hne. rewrite link_entries by done.
  rewrite (proj2 (Z.eqb_neq y x)) by done. destruct (Z.eqb_spec y c) as [->|]; [|done].
  destruct Hc as [|[_ Hcn]]; [lia|]. by rewrite !(proj2 (Z.eqb_neq _ 0)) by lia.
Qed.

Lemma link_tidy : tidy w -> tidy (link c x w).
Proof.
  intros ((Hr & Ha) & Hn & Hl). pose proof (geom_bounds _ (proj1 Hw)) as [Hb _].
  assert (Hx' := Hx). unfold cluster in Hx'. split; [|split].
  - pose proof link_free_count as E. pose proof (free_count_bounds (link c x w)) as Hf.
    unfold accounted. change (w_geom (link c x w)) with (w_geom w) in *. cbn [w_free link].
    destruct (Z.leb_spec (w_free w) (g_entries (w_geom w) - 2)); lia.
  - intros c' Hc'. change (w_geom (link c x w)) with (w_geom w) in *. rewrite link_entries by done.
    pose proof eoc_range. repeat case_match; [lia..|by apply Hn].
  - cbn. lia.
Qed.
End Link.

(** ** The search *)

Section Search.
Context {D : Type} `{WorkingDrive D contents online many} (copied : Z -> Prop).
Implicit Types (v : vol D) (w : view).

Abbreviation holds := (holds (contents := contents) (online := online) copied).

(** The window has not moved, or into the FAT. *)
Definition moved w v v' : Prop := v' = v \/ on_fat w v'.

Lemma moved_trans w v1 v2 v3 : moved w v1 v2 -> moved w v2 v3 -> moved w v1 v3.
Proof. unfold moved. intros [->|Hm] [->|Hm']; auto. Qed.

(** A free cluster, or 0 as there is none. *)
Definition searched w v (r : Z + Z) v' : Prop :=
  holds v' w /\ moved w v v' /\ match r with
               | inl x => cluster w x /\ entries w x = 0
               | inr e => e = 0 /\ forall c, cluster w c -> entries w c <> 0
               end.

(** The entry of a candidate. *)
Lemma see_candidate v w x (k : K (Z + Z)) Q :
  holds v w -> no_errors w -> cluster w x ->
  (forall v', holds v' w -> on_fat w v' -> entries w x = 0 -> Q (inl x) v') ->
  (forall v', holds v' w -> on_fat w v' -> entries w x <> 0 -> wp k Q v') ->
  wp (let* cs := get_fat x in
      if cs =? 0 then ret (inl x) else
      if (cs =? 1) || (cs =? DISK_ERR) then ret (inr cs) else k) Q v.
Proof.
  intros Hv Hn Hx Hfree Htaken. apply wp_bind. eapply see_get_fat; [exact Hv|exact Hx|].
  intros v1 Hv1 Hf1. fold (entries w x). destruct (Z.eqb_spec (entries w x) 0); [by apply wp_ret, Hfree|].
  pose proof (entry_range w x (holds_volume _ _ _ Hv) Hx).
  rewrite (proj2 (Z.eqb_neq (entries w x) 1)), (proj2 (Z.eqb_neq (entries w x) DISK_ERR))
    by (unfold DISK_ERR; lia || by apply Hn). by apply Htaken.
Qed.

Lemma next_u32 v w x : holds v w -> 0 <= x < g_entries (w_geom w) -> u32 (x + 1) = x + 1.
Proof. intros Hv Hx. pose proof (geom_bounds _ (h_ok _ _ _ Hv)). apply u32_small. lia. Qed.

Lemma searched_from w v v1 m : moved w v v1 -> wp m (searched w v1) v1 -> wp m (searched w v) v1.
Proof.
  intros Hm Hw. eapply wp_mono; [exact Hw|]. intros r v2 (Hv & Hm2 & Hr).
  split; [done|]. split; [by eapply moved_trans|done].
Qed.

(** The search after the end of the table: from 2 to [scl]. *)
Lemma see_find_wrapped fuel v w scl ncl :
  holds v w -> no_errors w -> cluster w scl -> 2 <= ncl < scl ->
  (forall c, cluster w c -> c <= ncl \/ scl < c -> entries w c <> 0) ->
  scl - ncl <= Z.of_nat fuel -> wp (find_free fuel scl ncl) (searched w v) v.
Proof.
  revert v ncl. induction fuel as [|fuel IH]; intros v ncl Hv Hn Hs Hncl Hseen Hf; [lia|].
  assert (Hs' := Hs). unfold cluster in Hs'. cbn [find_free]. unfold the_fs. do 2 wp_step.
  destruct (entries_u32 _ _ _ Hv) as [-> _]. rewrite (next_u32 v w) by (done || lia). cbv zeta.
  rewrite (proj2 (Z.leb_gt _ _)) by lia. cbn [andb].
  eapply see_candidate; [exact Hv|done|unfold cluster; lia|..]; intros v1 Hv1 Hm1 He.
  { split; [done|]. split; [by right|]. split; [unfold cluster; lia|done]. }
  destruct (Z.eqb_spec (ncl + 1) scl) as [E|]; [apply wp_ret; split; [done|]; split; [by right|]; split; [done|]|].
  - intros c Hc. destruct (decide (c = scl)) as [->|]; [congruence|]. apply Hseen; [done|lia].
  - eapply searched_from; [by right|]. apply IH; [done..|lia| |lia]. intros c Hc Hr.
    destruct (decide (c = ncl + 1)) as [->|]; [done|]. apply Hseen; [done|lia].
Qed.

(** The search up to the end of the table, and on from 2. *)
Lemma see_find_free fuel v w scl ncl :
  holds v w -> no_errors w -> 1 <= scl <= ncl -> ncl < g_entries (w_geom w) ->
  (forall c, scl < c <= ncl -> entries w c <> 0) ->
  g_entries (w_geom w) - ncl + scl - 1 <= Z.of_nat fuel -> wp (find_free fuel scl ncl) (searched w v) v.
Proof.
  revert v ncl. induction fuel as [|fuel IH]; intros v ncl Hv Hn Hs Hncl Hseen Hf; [lia|].
  pose proof (geom_bounds _ (h_ok _ _ _ Hv)) as [Hb _]. cbn [find_free]. unfold the_fs. do 2 wp_step.
  destruct (entries_u32 _ _ _ Hv) as [-> _]. rewrite (next_u32 v w) by (done || lia). cbv zeta.
  destruct (Z.leb_spec (g_entries (w_geom w)) (ncl + 1)) as [Hw|Hw]; cbn [andb].
  - destruct (Z.ltb_spec scl 2).
    { apply wp_ret. split; [done|]. split; [by left|]. split; [done|]. intros c Hc. unfold cluster in Hc. apply Hseen. lia. }
    eapply see_candidate; [exact Hv|done|unfold cluster; lia|..]; intros v1 Hv1 Hm1 He.
    { split; [done|]. split; [by right|]. split; [unfold cluster; lia|done]. }
    destruct (Z.eqb_spec 2 scl) as [E|]; [apply wp_ret; split; [done|]; split; [by right|]; split; [done|]|].
    + intros c Hc. unfold cluster in Hc. destruct (decide (c = 2)) as [->|]; [done|]. apply Hseen. lia.
    + eapply searched_from; [by right|]. apply see_find_wrapped; [done..|unfold cluster; lia|lia| |lia]. intros c Hc Hr.
      unfold cluster in Hc. destruct (decide (c = 2)) as [->|]; [done|]. apply Hseen. lia.
  - eapply see_candidate; [exact Hv|done|unfold cluster; lia|..]; intros v1 Hv1 Hm1 He.
    { split; [done|]. split; [by right|]. split; [unfold cluster; lia|done]. }
    rewrite (proj2 (Z.eqb_neq (ncl + 1) scl)) by lia. eapply searched_from; [by right|].
    apply IH; [done..|lia|done| |lia]. intros c Hc.
    destruct (decide (c = ncl + 1)) as [->|]; [done|]. apply Hseen. lia.
Qed.

Lemma see_search v w scl : holds v w -> no_errors w -> 1 <= scl < g_entries (w_geom w) ->
  wp (find_free (Z.to_nat (g_entries (w_geom w))) scl scl) (searched w v) v.
Proof. intros. apply see_find_free; [done..|lia|lia|intros; lia|lia]. Qed.

(** [create_chain] from the point on where the search starts. *)
Definition extended w (clst : Z) v (r : Z) v' : Prop :=
  (r = 0 /\ holds v' w /\ moved w v v' /\ forall c, cluster w c -> entries w c <> 0) \/
  (cluster w r /\ entries w r = 0 /\ holds v' (link clst r w) /\ on_fat w v').

(** The accounting of a new cluster. *)
Lemma holds_taken v w clst x :
  let w1 := put_entry x 0xFFFFFFFF w in
  let w2 := if clst =? 0 then w1 else put_entry clst x w1 in
  holds v w2 -> 0 < w_free w < 2 ^ 32 ->
  holds (Vol (count_taken x (v_fs v)) (v_drive v)) (link clst x w).
Proof.
  intros w1 w2 Hv Hr. eapply see_accounting; [exact Hv|intros fs; unfold count_taken; by case_match|].
  destruct (entries_u32 _ _ _ Hv) as [_ Eu]. destruct (h_counts _ _ _ Hv) as (El & Ef & Ei).
  assert (w_geom w2 = w_geom w /\ w_free w2 = w_free w /\ w_fsi w2 = w_fsi w) as (Eg & E1 & E2)
    by (unfold w2; by case_match).
  unfold count_taken. cbn [free_clst set_last_clst n_fatent]. rewrite Ef, Eu, Eg, E1. unfold link.
  fold w1 w2. rewrite <- Eg. destruct (Z.leb_spec (w_free w) (g_entries (w_geom w2) - 2)); cbn;
    rewrite ?Ei, ?Ef, ?E1, ?E2; [|done]. by rewrite u32_small by lia.
Qed.

Lemma winsect_taken x fs : winsect (count_taken x fs) = winsect fs.
Proof. unfold count_taken. by case_match. Qed.

Lemma see_link v0 v w clst x :
  holds v w -> 0 < w_free w < 2 ^ 32 -> cluster w x -> entries w x = 0 ->
  clst = 0 \/ cluster w clst ->
  wp (let* res := check (put_fat x 0xFFFFFFFF)
                    (if negb (clst =? 0) then put_fat clst x else ret FR_OK) in
      if is_ok res then do* fs_upd (count_taken x) in ret x
      else ret (if fr_eqb res FR_DISK_ERR then DISK_ERR else 1)) (extended w clst v0) v.
Proof.
  intros Hv Hr Hx Hfree Hc. unfold check. apply wp_bind, wp_bind.
  eapply see_put_fat; [exact Hv|exact Hx|]. intros v1 Hv1 Hf1. change (is_ok FR_OK) with true. cbv iota.
  assert (forall v2, holds v2 (if clst =? 0 then put_entry x 0xFFFFFFFF w
                               else put_entry clst x (put_entry x 0xFFFFFFFF w)) -> on_fat w v2 ->
    wp (do* fs_upd (count_taken x) in ret x) (extended w clst v0) v2) as Hcount.
  { intros v2 Hv2 Hf2. apply wp_bind. unfold fs_upd. apply wp_modify, wp_ret. right.
    do 2 (split; [done|]). split; [by apply holds_taken|].
    unfold on_fat in *. cbn [v_fs]. by rewrite winsect_taken. }
  destruct (Z.eqb_spec clst 0) as [->|Hne]; cbn [negb].
  - apply wp_ret. by apply Hcount.
  - destruct Hc as [|Hc]; [done|]. eapply see_put_fat; [exact Hv1|exact Hc|]. intros v2 Hv2 Hf2.
    by apply Hcount.
Qed.

Lemma see_create_from v w clst scl :
  holds v w -> tidy w -> 1 <= scl < g_entries (w_geom w) -> clst = 0 \/ cluster w clst ->
  wp (create_from clst scl) (extended w clst v) v.
Proof.
  intros Hv (Ha & Hn & Hl) Hs Hc. unfold create_from, the_fs. do 2 wp_step.
  pose proof (geom_bounds _ (h_ok _ _ _ Hv)) as [Hb _].
  destruct (h_counts _ _ _ Hv) as (El & Ef & Ei). destruct (entries_u32 _ _ _ Hv) as [En _].
  rewrite Ef, El, En. destruct (Z.eqb_spec (w_free w) 0) as [E0|Hfree].
  { apply wp_ret. left. do 2 (split; [done|]). split; [by left|]. destruct Ha as [_ Ha]. rewrite E0 in Ha.
    specialize (Ha ltac:(lia)). symmetry in Ha. intros c Hcl.
    by apply (proj1 (count_none (entries w) (clusters w)) Ha), elem_of_clusters. }
  apply wp_bind. eapply wp_mono with (P := searched w v); cycle 1.
  { intros [x|e] v1 (Hv1 & Hm1 & Hfound); [|destruct Hfound as [-> Hnone]; apply wp_ret; by left].
    destruct Hfound. apply see_link; [done|unfold accounted in Ha; lia|done..]. }
  destruct (Z.eqb_spec scl clst) as [->|Hne]; [|by apply see_search].
  rewrite (next_u32 v w) by (done || lia). cbv zeta.
  set (x := if g_entries (w_geom w) <=? clst + 1 then 2 else clst + 1).
  assert (cluster w x) as Hx by (subst x; unfold cluster; case_match; lia).
  apply wp_bind. eapply see_get_fat; [exact Hv|exact Hx|].
  intros v1 Hv1 Hf1. fold (entries w x). pose proof (entry_range w x (holds_volume _ _ _ Hv) Hx).
  rewrite (proj2 (Z.eqb_neq (entries w x) 1)), (proj2 (Z.eqb_neq (entries w x) DISK_ERR))
    by (unfold DISK_ERR; lia || by apply Hn). cbn [orb].
  destruct (Z.eqb_spec (entries w x) 0); cbn [negb].
  { apply wp_ret. split; [done|]. split; [by right|done]. }
  eapply searched_from; [by right|]. apply see_search; [done..|]. case_match; lia.
Qed.

(** [create_chain]: for a new chain, or after the last cluster [clst] of one. *)
Lemma see_create_chain v w clst :
  holds v w -> tidy w -> clst = 0 \/ cluster w clst /\ g_entries (w_geom w) <= entries w clst ->
  wp (create_chain clst) (extended w clst v) v.
Proof.
  intros Hv Ht Hc. pose proof (geom_bounds _ (h_ok _ _ _ Hv)) as [Hb _].
  unfold create_chain, the_fs. do 2 wp_step. destruct (entries_u32 _ _ _ Hv) as [En _].
  destruct (h_counts _ _ _ Hv) as (El & _). rewrite En, El. destruct (Z.eqb_spec clst 0) as [->|Hne].
  - assert (0 <= w_last w) by apply Ht. apply see_create_from; [done..| |by left]. case_match; lia.
  - destruct Hc as [|[Hc He]]; [done|]. apply wp_bind. eapply see_get_fat; [exact Hv|exact Hc|].
    intros v1 Hv1 Hf1. fold (entries w clst). pose proof (entry_range w clst (holds_volume _ _ _ Hv) Hc).
    rewrite (proj2 (Z.ltb_ge _ 2)), (proj2 (Z.eqb_neq _ DISK_ERR)), (proj2 (Z.ltb_ge _ _))
      by (unfold DISK_ERR; lia).
    unfold cluster in Hc. eapply wp_mono; [apply see_create_from; [done..|lia|by right]|].
    intros r v2 [(-> & Hv2 & Hm2 & Hnone)|Hr]; [left|by right].
    do 2 (split; [done|]). split; [|done]. eapply moved_trans; [by right|done].
Qed.

(** A cluster that already has a successor. *)
Lemma see_create_next v w clst Q :
  holds v w -> cluster w clst -> cluster w (entries w clst) ->
  (forall v', holds v' w -> Q (entries w clst) v') -> wp (create_chain clst) Q v.
Proof.
  intros Hv Hc Hn HQ. unfold create_chain, the_fs. do 2 wp_step.
  destruct (entries_u32 _ _ _ Hv) as [En _]. unfold cluster in *.
  pose proof (geom_bounds _ (h_ok _ _ _ Hv)) as [Hb _].
  rewrite En, (proj2 (Z.eqb_neq clst 0)) by lia. apply wp_bind.
  eapply see_get_fat; [exact Hv|exact Hc|]. intros v1 Hv1 _. fold (entries w clst).
  rewrite (proj2 (Z.ltb_ge _ 2)), (proj2 (Z.eqb_neq _ DISK_ERR)), (proj2 (Z.ltb_lt _ _))
    by (unfold DISK_ERR; lia).
  apply wp_ret. by apply HQ.
Qed.
End Search.
