(* ===== verification/FatContents.v ===== *)
(** * FatFs: the contents of a file

    The bytes of a file on the logical disk, by their position, and what the
    accesses of [f_read] and [f_write] to its sectors do: through the buffer of
    the file object, or directly from and to the buffer of the caller. *)

From stdpp Require Import sets.
From S2P Require Import Prelude FatData FatFs FatPath FatFile FatVolume FatTable FatChain.

#[local] Open Scope Z_scope.
#[local] Open Scope list_scope.
#[local] Arguments insertZ : simpl never.
#[local] Arguments lookupZ : simpl never.

(** ** Buffers *)

(** [b'] is [b] with the bytes [f] at the [n] positions from [i] on. *)
Definition filled (b : list Z) (i n : Z) (f : Z -> Z) (b' : list Z) : Prop :=
  zlen b' = zlen b /\
  forall j, 0 <= j < zlen b -> byte_at b' j = if in_range i n j then f j else byte_at b j.

Lemma filled_none b i f : filled b i 0 f b.
Proof.
  split; [done|]. intros j _. destruct (in_range i 0 j) eqn:E; [|done].
  rewrite in_range_spec in E. lia.
Qed.

Lemma filled_ext b i n f g b' : (forall j, i <= j < i + n -> f j = g j) ->
  filled b i n f b' -> filled b i n g b'.
Proof.
  intros Hfg [Hl Hb]. split; [done|]. intros j Hj. rewrite Hb by done.
  destruct (in_range i n j) eqn:E; [|done]. apply Hfg. by rewrite in_range_spec in E.
Qed.

Lemma filled_app b i n m f b1 b2 : 0 <= n -> 0 <= m ->
  filled b i n f b1 -> filled b1 (i + n) m f b2 -> filled b i (n + m) f b2.
Proof.
  intros Hn Hm [Hl1 Hb1] [Hl2 Hb2]. split; [congruence|]. intros j Hj.
  rewrite Hb2, Hb1 by lia. unfold in_range.
  destruct (Z.leb_spec i j), (Z.ltb_spec j (i + n)), (Z.leb_spec (i + n) j),
    (Z.ltb_spec j (i + n + m)), (Z.ltb_spec j (i + (n + m))); cbn; done || lia.
Qed.

Lemma byte_at_app l1 l2 i : 0 <= i ->
  byte_at (l1 ++ l2) i = if i <? zlen l1 then byte_at l1 i else byte_at l2 (i - zlen l1).
Proof.
  intros Hi. unfold byte_at, lookupZ, zlen. destruct (Z.leb_spec 0 i); [|lia].
  destruct (Z.ltb_spec i (Z.of_nat (length l1))).
  - by rewrite lookup_app_l by lia.
  - destruct (Z.leb_spec 0 (i - Z.of_nat (length l1))); [|lia].
    rewrite lookup_app_r by lia. do 2 f_equal. lia.
Qed.

Lemma byte_at_drop l k i : 0 <= k -> 0 <= i -> byte_at (drop (Z.to_nat k) l) i = byte_at l (k + i).
Proof.
  intros Hk Hi. unfold byte_at, lookupZ. destruct (Z.leb_spec 0 i), (Z.leb_spec 0 (k + i)); try lia.
  rewrite lookup_drop. do 2 f_equal. lia.
Qed.

Lemma byte_at_take l k i : 0 <= i < k -> byte_at (take (Z.to_nat k) l) i = byte_at l i.
Proof.
  intros Hi. unfold byte_at, lookupZ. destruct (Z.leb_spec 0 i); [|lia].
  by rewrite lookup_take_lt by lia.
Qed.

Lemma zlen_dropZ {A} (l : list A) k : 0 <= k <= zlen l -> zlen (drop (Z.to_nat k) l) = zlen l - k.
Proof. unfold zlen. rewrite length_drop. lia. Qed.

Lemma zlen_take {A} (l : list A) k : 0 <= k <= zlen l -> zlen (take (Z.to_nat k) l) = k.
Proof. unfold zlen. rewrite length_take. lia. Qed.

Section Arrays.
Context {St : Type}.
Implicit Types (s : St).

Lemma wp_array_copy (src dst : list Z) i Q s : 0 <= i -> i + zlen src <= zlen dst ->
  (forall b, filled dst i (zlen src) (fun j => byte_at src (j - i)) b ->
     (Forall is_byte dst -> Forall is_byte src -> Forall is_byte b) -> Q b s) ->
  wp (array_copy dst i src) Q s.
Proof.
  revert i dst Q. induction src as [|x src IH]; intros i dst Q Hi Hl HQ; cbn [array_copy].
  { apply wp_ret, HQ; [apply filled_none|done]. }
  assert (zlen (x :: src) = zlen src + 1) as E by (unfold zlen; cbn; lia).
  pose proof (zlen_nonneg src). rewrite E in *. apply wp_bind, wp_array_set; [lia|].
  apply IH; [lia|rewrite zlen_insertZ; lia|]. intros b [Hb1 Hb2] Hbyte. rewrite zlen_insertZ in *.
  apply HQ.
  - split; [done|]. intros j Hj. rewrite Hb2, byte_at_insert by lia.
    replace (byte_at (x :: src) (j - i)) with (if j =? i then x else byte_at src (j - (i + 1))).
    2: { unfold byte_at, lookupZ. destruct (Z.eqb_spec j i) as [->|]; [by rewrite Z.sub_diag|].
         destruct (Z.leb_spec 0 (j - (i + 1))), (Z.leb_spec 0 (j - i)); try lia.
         by replace (Z.to_nat (j - i)) with (S (Z.to_nat (j - (i + 1)))) by lia. }
    unfold in_range. destruct (Z.eqb_spec j i), (Z.leb_spec i j), (Z.leb_spec (i + 1) j),
      (Z.ltb_spec j (i + 1 + zlen src)), (Z.ltb_spec j (i + (zlen src + 1))); cbn; done || lia.
  - intros Hd [Hx Hs]%Forall_cons. apply Hbyte; [|done]. unfold insertZ. case_match; [|done].
    by apply Forall_insert.
Qed.

Lemma wp_array_slice (p : list Z) i n Q s : 0 <= i -> i + Z.of_nat n <= zlen p ->
  (forall b, zlen b = Z.of_nat n -> (forall j, 0 <= j < Z.of_nat n -> byte_at b j = byte_at p (i + j)) ->
     (Forall is_byte p -> Forall is_byte b) -> Q b s) ->
  wp (array_slice p i n) Q s.
Proof.
  revert i Q. induction n as [|n IH]; intros i Q Hi Hl HQ; cbn [array_slice].
  { apply wp_ret, HQ; [done|lia|done]. }
  apply wp_bind, wp_array_at; [lia|]. apply wp_bind, IH; [lia..|]. intros b Hb1 Hb2 Hb3.
  apply wp_ret, HQ.
  - unfold zlen in *. cbn. lia.
  - intros j Hj. change (byte_at p i :: b) with ([byte_at p i] ++ b).
    rewrite byte_at_app by lia. change (zlen [byte_at p i]) with 1. destruct (Z.ltb_spec j 1).
    + replace j with 0 by lia. by rewrite Z.add_0_r.
    + rewrite Hb2 by lia. f_equal. lia.
  - intros Hp. constructor; [by apply byte_at_range|auto].
Qed.
End Arrays.

(** ** Sectors side by side *)

Lemma blocks_S c s n : blocks c s (S n) = c s ++ blocks c (s + 1) n.
Proof.
  unfold blocks. cbn [seq map concat]. rewrite Z.add_0_r. f_equal. f_equal.
  rewrite <- seq_shift, map_map. apply map_ext. intros i. f_equal. lia.
Qed.

Lemma blocks_at c s n i : (forall k, s <= k < s + Z.of_nat n -> zlen (c k) = SS) ->
  0 <= i < Z.of_nat n * SS -> byte_at (blocks c s n) i = byte_at (c (s + i / SS)) (i mod SS).
Proof.
  revert s i. induction n as [|n IH]; intros s i Hc Hi; [lia|].
  rewrite blocks_S, byte_at_app, Hc by lia. unfold SS in *. destruct (Z.ltb_spec i 512).
  - rewrite Z.div_small, Z.mod_small, Z.add_0_r by lia. done.
  - rewrite IH; [|intros k Hk; apply Hc; lia|lia].
    replace ((i - 512) / 512) with (i / 512 - 1) by (Z.div_mod_to_equations; lia).
    replace ((i - 512) mod 512) with (i mod 512) by (Z.div_mod_to_equations; lia).
    do 2 f_equal. lia.
Qed.

Lemma blocks_length c s n : (forall k, s <= k < s + Z.of_nat n -> zlen (c k) = SS) ->
  zlen (blocks c s n) = Z.of_nat n * SS.
Proof.
  revert s. induction n as [|n IH]; intros s Hc; [done|].
  rewrite blocks_S, zlen_app, Hc, IH by (lia || (intros; apply Hc; lia)). lia.
Qed.

(** ** Files *)

(** Sector [i] of a cluster, sector [k] of a file with the clusters [l], and its
    byte at [p]. *)
Definition data_sector (g : geom) (c i : Z) : Z := g_database g + g_csize g * (c - 2) + i.
Definition cluster_at (l : list Z) (k : Z) : Z := default 0 (lookupZ l k).
Definition file_sector (g : geom) (l : list Z) (k : Z) : Z :=
  data_sector g (cluster_at l (k / g_csize g)) (k mod g_csize g).
Definition file_byte (w : view) (l : list Z) (p : Z) : Z :=
  byte_at (w_disk w (file_sector (w_geom w) l (p / SS))) (p mod SS).

(** A bound that is a power of two. *)
Lemma pow2_exponent c : 1 <= c < 256 -> Z.land c (c - 1) = 0 -> exists k, 0 <= k /\ c = 2 ^ k.
Proof.
  intros Hc E.
  assert (forallb (fun c => negb (Z.land c (c - 1) =? 0) ||
            existsb (fun k => c =? 2 ^ k) (seqZ 0 8)) (seqZ 1 255) = true) as Hall by by vm_compute.
  rewrite forallb_forall in Hall. specialize (Hall c). rewrite E in Hall. cbn [Z.eqb negb orb] in Hall.
  apply existsb_exists in Hall as (k & Hk%list_elem_of_In & Ek).
  - exists k. apply elem_of_seqZ in Hk. apply Z.eqb_eq in Ek. lia.
  - apply list_elem_of_In, elem_of_seqZ. lia.
Qed.

Lemma land_pow2 a c : 1 <= c < 256 -> Z.land c (c - 1) = 0 -> Z.land a (c - 1) = a mod c.
Proof.
  intros Hc E. destruct (pow2_exponent c Hc E) as (k & Hk & ->).
  rewrite <- Z.land_ones by done. f_equal. rewrite Z.ones_equiv. lia.
Qed.

(** The sectors of a file with the clusters [l]. *)
Definition sector_of (g : geom) (l : list Z) (k : Z) : Prop := 0 <= k < zlen l * g_csize g.

(** The clusters from [c] on; 0 is the start of an empty file. *)
Definition file_chain (w : view) (c : Z) (l : list Z) : Prop :=
  if c =? 0 then l = [] else w_chain w c l /\ l <> [].

(** The disk as the application sees it: the dirty buffer of the file object is
    newer than the logical disk. *)
Definition overlay (fp : FIL) (L : Z -> list Z) (s : Z) : list Z :=
  if has_flag fp FA_DIRTY && (s =? f_sect fp) then f_buf fp else L s.

(** The object of a file with the clusters [l] in [w]. *)
Record file_ok (w : view) (l : list Z) (fp : FIL) : Prop := {
  fo_chain : file_chain w (f_sclust fp) l;
  fo_size : 0 <= fptr fp <= f_objsize fp /\ f_objsize fp < 2 ^ 32;
  fo_room : f_objsize fp <= zlen l * (g_csize (w_geom w) * SS);
  fo_buf : sector (f_buf fp);
  fo_cached : f_sect fp = 0 /\ has_flag fp FA_DIRTY = false \/
    w_disk w (f_sect fp) = f_buf fp /\
    exists k, sector_of (w_geom w) l k /\ f_sect fp = file_sector (w_geom w) l k
}.

(** The object between two transfers: the cluster of the last byte before the
    file pointer, and its sector in the buffer if the pointer is inside of it. *)
Record placed (w : view) (l : list Z) (fp : FIL) : Prop := {
  pl_clust : 0 < fptr fp ->
    lookupZ l ((fptr fp - 1) / (g_csize (w_geom w) * SS)) = Some (f_clust fp);
  pl_sect : fptr fp mod SS <> 0 -> f_sect fp = file_sector (w_geom w) l (fptr fp / SS)
}.

Lemma file_chain_clusters w c l x : file_chain w c l -> x ∈ l -> cluster w x.
Proof.
  unfold file_chain. destruct (c =? 0); [by intros -> ?%not_elem_of_nil|]. intros [Hl _]. by apply (chain_range _ _ _ _ _ Hl).
Qed.

Lemma file_chain_nonempty w c l i x : file_chain w c l -> lookupZ l i = Some x -> w_chain w c l.
Proof.
  unfold file_chain. destruct (c =? 0); [|by intros []]. intros ->. unfold lookupZ. by case_match.
Qed.

Lemma file_chain_NoDup w c l : file_chain w c l -> NoDup l.
Proof.
  unfold file_chain. destruct (c =? 0); [intros ->; constructor|]. intros [Hl _]. by eapply chain_NoDup.
Qed.

Section Sectors.
Context (w : view) (l : list Z) (Hg : geom_ok (w_geom w)) (Hl : forall x, x ∈ l -> cluster w x).
Abbreviation g := (w_geom w).

Lemma csize_pos : 1 <= g_csize g < 256.
Proof. apply go_csize. exact Hg. Qed.

Lemma cluster_at_range k : 0 <= k < zlen l -> cluster w (cluster_at l k).
Proof.
  intros Hk. unfold cluster_at. destruct (lookupZ_lt l k Hk) as [x E]. rewrite E. cbn.
  apply Hl. unfold lookupZ in E. destruct (0 <=? k); [|done]. by eapply list_elem_of_lookup_2.
Qed.

Lemma sector_of_index k : sector_of g l k -> 0 <= k / g_csize g < zlen l.
Proof. unfold sector_of. pose proof csize_pos. intros Hk.
  split; [apply Z.div_pos; lia|apply Z.div_lt_upper_bound; lia].
Qed.

Lemma data_sector_range c i : cluster w c -> 0 <= i < g_csize g ->
  g_database g <= data_sector g c i < 2 ^ 32.
Proof.
  unfold cluster, data_sector. intros Hc Hi. pose proof (go_end _ Hg). nia.
Qed.

Lemma file_sector_range k : sector_of g l k -> g_database g <= file_sector g l k < 2 ^ 32.
Proof.
  intros Hk. pose proof csize_pos. apply data_sector_range.
  - by apply cluster_at_range, sector_of_index.
  - apply Z.mod_pos_bound. lia.
Qed.

(** Different places are in different sectors. *)
Lemma file_sector_inj j k : NoDup l -> sector_of g l j -> sector_of g l k ->
  file_sector g l j = file_sector g l k -> j = k.
Proof.
  intros Hd Hj Hk E. pose proof csize_pos as Hc. unfold file_sector, data_sector in E.
  pose proof (Z.mod_pos_bound j (g_csize g)). pose proof (Z.mod_pos_bound k (g_csize g)).
  assert (cluster_at l (j / g_csize g) = cluster_at l (k / g_csize g) /\
          j mod g_csize g = k mod g_csize g) as [E1 E2].
  { pose proof (Z.div_mod_unique (g_csize g) (cluster_at l (j / g_csize g) - 2)
      (cluster_at l (k / g_csize g) - 2) (j mod g_csize g) (k mod g_csize g)). lia. }
  assert (j / g_csize g = k / g_csize g) as E3.
  { pose proof (sector_of_index j Hj) as Ij. pose proof (sector_of_index k Hk) as Ik.
    unfold cluster_at in E1. destruct (lookupZ_lt l _ Ij) as [x Ex], (lookupZ_lt l _ Ik) as [y Ey].
    rewrite Ex, Ey in E1. cbn in E1. subst y. unfold lookupZ in Ex, Ey.
    destruct (0 <=? _) in Ex; [|done]. destruct (0 <=? _) in Ey; [|done].
    pose proof (NoDup_lookup l _ _ x Hd Ex Ey). lia. }
  rewrite (Z.div_mod j (g_csize g)), (Z.div_mod k (g_csize g)) by lia. by rewrite E2, E3.
Qed.

(** Sectors of one cluster follow each other. *)
Lemma file_sector_next k i : 0 <= i -> k mod g_csize g + i < g_csize g ->
  file_sector g l (k + i) = file_sector g l k + i.
Proof.
  intros Hi Hm. pose proof csize_pos as Hc. pose proof (Z.mod_pos_bound k (g_csize g)).
  pose proof (Z.div_mod k (g_csize g)).
  assert ((k + i) / g_csize g = k / g_csize g) as E1
    by (symmetry; apply (Z.div_unique _ _ _ (k mod g_csize g + i)); lia).
  assert ((k + i) mod g_csize g = k mod g_csize g + i) as E2
    by (symmetry; apply (Z.mod_unique _ _ (k / g_csize g)); lia).
  unfold file_sector, data_sector. rewrite E1, E2. lia.
Qed.

(** From a sector on in its cluster. *)
Lemma cluster_run k n : sector_of g l k -> k mod g_csize g + n <= g_csize g ->
  forall j, 0 <= j < n -> sector_of g l (k + j) /\ file_sector g l (k + j) = file_sector g l k + j.
Proof.
  intros Hk Hfit j Hj. split; [|apply file_sector_next; lia].
  pose proof csize_pos as Hc. pose proof (sector_of_index k Hk) as Hi. unfold sector_of in *.
  pose proof (Z.div_mod k (g_csize g) ltac:(lia)). nia.
Qed.
End Sectors.

(** The entries only depend on the sectors of the FAT. *)
Lemma fat_entry_ext g L L' c : geom_ok g -> 2 <= c < g_entries g ->
  (forall s, in_fat g s = true -> L' s = L s) -> fat_entry g L' c = fat_entry g L c.
Proof.
  intros Hg Hc HL. assert (Hb : forall j, fat_index g j -> fat_byte g L' j = fat_byte g L j).
  { intros j Hj. unfold fat_byte. rewrite HL; [done|]. by apply fat_index_sector. }
  destruct (entry_indices _ Hg c Hc) as (I0 & I1 & I23).
  unfold fat_entry, fat_word. destruct (go_type g Hg) as [E | [E | E]]; rewrite E in *; cbn in *;
    rewrite ?Hb by done; try done.
  destruct (I23 eq_refl) as [I2 I3]. by rewrite !Hb by done.
Qed.

(** ** Access to the sectors of a file *)

Section Access.
Context {D : Type} `{WorkingDrive D contents online many} (copied : Z -> Prop).
Implicit Types (v : vol D) (w : view) (fp : FIL).

Abbreviation holds := (holds (contents := contents) (online := online) copied).

(** The drive, the window and the buffer of the file object hold [w], and the
    window is not in the file. *)
Record sees (v : vol D) (w : view) (l : list Z) (fp : FIL) : Prop := {
  se_holds : exists L, holds v (set_w_disk L w) /\ forall s, w_disk w s = overlay fp L s;
  se_file : file_ok w l fp;
  se_apart : forall k, sector_of (w_geom w) l k -> winsect (v_fs v) <> file_sector (w_geom w) l k
}.

Section Seen.
Context {v w l fp} (Hs : sees v w l fp).
Abbreviation g := (w_geom w).

Lemma sees_geom : geom_ok g.
Proof. destruct (se_holds _ _ _ _ Hs) as (L & Hv & _). apply (h_ok _ _ _ Hv). Qed.

Lemma sees_clusters x : x ∈ l -> cluster w x.
Proof. eapply file_chain_clusters, fo_chain, se_file, Hs. Qed.

Lemma sees_range k : sector_of g l k -> g_database g <= file_sector g l k < 2 ^ 32.
Proof. apply file_sector_range; [exact sees_geom|exact sees_clusters]. Qed.

Lemma sees_sector k : sector_of g l k ->
  proper g (file_sector g l k) /\ in_fat g (file_sector g l k) = false.
Proof. intros Hk. apply proper_data; [exact sees_geom|by apply sees_range]. Qed.

(** The buffer of the file object is not in the FAT. *)
Lemma sees_buffer : f_sect fp = 0 \/ exists k, sector_of g l k /\ f_sect fp = file_sector g l k.
Proof. destruct (fo_cached _ _ _ (se_file _ _ _ _ Hs)) as [[? _]|[_ ?]]; auto. Qed.

Lemma overlay_fat L s : in_fat g s = true -> overlay fp L s = L s.
Proof.
  intros Hin. unfold overlay. destruct (Z.eqb_spec s (f_sect fp)) as [->|]; [|by rewrite andb_false_r].
  destruct sees_buffer as [E|(k & Hk & E)]; rewrite E in Hin.
  - pose proof (geom_bounds _ sees_geom). unfold in_fat in Hin. rewrite in_range_spec in Hin. lia.
  - destruct (sees_sector k Hk) as [_ ?]. congruence.
Qed.

Lemma sees_entries L c : (forall s, w_disk w s = overlay fp L s) -> cluster w c ->
  entries (set_w_disk L w) c = entries w c.
Proof.
  intros HL Hc. symmetry. apply fat_entry_ext; [exact sees_geom|exact Hc|].
  intros s Hin. rewrite HL. by apply overlay_fat.
Qed.

(** [get_fat] moves the window into the FAT. *)
Lemma sees_get_fat c Q : cluster w c ->
  (forall v', sees v' w l fp -> Q (entries w c) v') -> wp (get_fat c) Q v.
Proof.
  intros Hc HQ. destruct (se_holds _ _ _ _ Hs) as (L & Hv & HL).
  eapply see_get_fat; [exact Hv|exact Hc|]. intros v' Hv' Hin.
  change (fat_entry _ _ c) with (entries (set_w_disk L w) c). rewrite (sees_entries L c HL Hc).
  apply HQ. split; [by exists L|by destruct Hs|]. intros k Hk E. unfold on_fat in Hin.
  cbn [set_w_disk w_geom] in Hin. rewrite E in Hin. destruct (sees_sector k Hk). congruence.
Qed.

Lemma sees_fs : fs_type (v_fs v) = g_type g /\ n_fatent (v_fs v) = g_entries g /\
  fatbase (v_fs v) = g_fatbase g /\ csize (v_fs v) = g_csize g /\
  database (v_fs v) = g_database g /\ pdrv (v_fs v) = 0 /\ u32 (n_fatent (v_fs v) - 2) = g_entries g - 2.
Proof.
  destruct (se_holds _ _ _ _ Hs) as (L & Hv & _).
  destruct (holds_fields _ _ _ Hv) as (? & ? & ? & ? & ?), (entries_u32 _ _ _ Hv) as [_ ?].
  pose proof (h_pdrv _ _ _ Hv). done.
Qed.

Lemma sees_clst2sect c Q : cluster w c -> Q (data_sector g c 0) v -> wp (clst2sect c) Q v.
Proof.
  intros Hc HQ. unfold clst2sect, the_fs. destruct sees_fs as (_ & _ & _ & Ec & Ed & _ & En).
  do 2 wp_step. rewrite Ec, Ed, En. pose proof (csize_pos w sees_geom).
  pose proof (data_sector_range w sees_geom c 0 Hc ltac:(lia)) as Hr. unfold cluster, data_sector in *.
  pose proof (geom_bounds _ sees_geom) as (Hn & _ & _ & Hd & _).
  rewrite (u32_small (c - 2)) by lia. cbv zeta. rewrite (proj2 (Z.leb_gt _ _)) by lia. apply wp_ret.
  assert (0 <= g_csize g * (c - 2)) by nia.
  rewrite (u32_small (_ * _)), u32_small by lia. by rewrite <- (Z.add_0_r (g_database g + _)).
Qed.

(** A call that changes the drive but not what it stores. *)
Lemma sees_drive d : online d -> contents d = contents (v_drive v) -> sees (Vol (v_fs v) d) w l fp.
Proof.
  intros Ho Hc. destruct Hs as [(L & Hv & HL) Hf Ha]. split; [|done..]. exists L. split; [|done].
  destruct Hv. split; cbn [v_fs v_drive]; rewrite ?Hc; done.
Qed.

(** What is on the drive at the sectors of the file. *)
Lemma sees_stored L k : holds v (set_w_disk L w) -> sector_of g l k ->
  contents (v_drive v) (file_sector g l k) = L (file_sector g l k).
Proof.
  intros Hv Hk. destruct (sees_sector k Hk) as [Hp _]. apply (h_disk _ _ _ Hv); [done|]. left.
  intros E. by apply (se_apart _ _ _ _ Hs k Hk).
Qed.
End Seen.

(** ** Transfers *)

Lemma written_at c s n b x : 0 <= n -> n * SS <= zlen b -> s <= x < s + n ->
  zlen (written c s n b x) = SS /\
  forall i, 0 <= i < SS -> byte_at (written c s n b x) i = byte_at b ((x - s) * SS + i).
Proof.
  intros Hn Hb Hx. unfold written. rewrite (proj2 (in_range_spec s n x)) by done.
  assert (0 <= (x - s) * SS /\ (x - s) * SS + SS <= zlen b /\ 0 <= SS) by (unfold SS in *; lia).
  split; [apply zlen_take; rewrite zlen_dropZ by lia; unfold SS in *; lia|].
  intros i Hi. rewrite byte_at_take, byte_at_drop by lia. done.
Qed.

Lemma written_sector c s n b x : 0 <= n -> n * SS <= zlen b -> Forall is_byte b ->
  (in_range s n x = false -> sector (c x)) -> sector (written c s n b x).
Proof.
  intros Hn Hl Hb Hc. destruct (in_range s n x) eqn:E.
  - split; [apply written_at; [done..|by apply in_range_spec]|].
    unfold written. rewrite E. by apply Forall_take, Forall_drop.
  - unfold written. rewrite E. auto.
Qed.

(** Sectors of the data area that are not in the window are written. *)
Lemma holds_write_data v w d s n b :
  holds v w -> online d -> (forall x, contents d x = written (contents (v_drive v)) s n b x) ->
  g_database (w_geom w) <= s -> 0 <= n -> s + n <= 2 ^ 32 -> n * SS <= zlen b -> Forall is_byte b ->
  in_range s n (winsect (v_fs v)) = false ->
  holds (Vol (v_fs v) d) (set_w_disk (written (w_disk w) s n b) w).
Proof.
  intros [Ho Hp Hg Hok Hcnt Hsec Hws Hwin Hdisk Hcopy] Ho' Hc Hs Hn He Hl Hb Hw.
  pose proof (geom_bounds _ Hok) as Hbd.
  split; cbn [v_fs v_drive set_w_disk w_disk w_geom w_last w_free w_fsi]; try done.
  - intros x Hx. apply written_sector; auto.
  - rewrite Hwin. unfold written. by rewrite Hw.
  - intros x Hx Hor. rewrite Hc. unfold written. case_match; auto.
  - intros x H2 Hx Hcp Hor. rewrite Hc. unfold in_fat in Hx. assert (Hx' := Hx).
    rewrite in_range_spec in Hx'. unfold written. pose proof (go_areas _ Hok). rewrite H2 in *.
    rewrite !(proj2 (in_range_false s n _)) by lia. auto.
Qed.

Definition cleaned fp : FIL := if has_flag fp FA_DIRTY then clear_flag FA_DIRTY fp else fp.

Lemma clear_has f fp : has_flag (clear_flag f fp) f = false.
Proof.
  unfold has_flag, clear_flag. cbn. apply negb_false_iff, Z.eqb_eq. apply Z.bits_inj'. intros n _.
  rewrite Z.land_spec, Z.ldiff_spec, Z.bits_0. by destruct (Z.testbit (f_flag fp) n), (Z.testbit f n).
Qed.

Lemma cleaned_clean fp : has_flag (cleaned fp) FA_DIRTY = false.
Proof. unfold cleaned. destruct (has_flag fp FA_DIRTY) eqn:E; [apply clear_has|done]. Qed.

Lemma file_ok_cleaned w l fp : file_ok w l fp -> file_ok w l (cleaned fp).
Proof.
  intros Hf. unfold cleaned. destruct (has_flag fp FA_DIRTY) eqn:E; [|done]. destruct Hf. split; try done.
  destruct fo_cached0 as [[? ?]|]; [congruence|by right].
Qed.

Lemma overlay_clean fp L s : has_flag fp FA_DIRTY = false -> overlay fp L s = L s.
Proof. intros E. unfold overlay. by rewrite E. Qed.

Lemma see_write_back v w l fp Q : sees v w l fp ->
  (forall v', sees v' w l (cleaned fp) -> Q (Some (cleaned fp)) v') -> wp (write_back fp) Q v.
Proof.
  intros Hs HQ. unfold write_back. destruct (se_holds _ _ _ _ Hs) as (L & Hv & HL).
  assert (Hf := se_file _ _ _ _ Hs). destruct (has_flag fp FA_DIRTY) eqn:Edirty.
  2: { apply wp_ret. unfold cleaned in HQ. rewrite Edirty in HQ. by apply HQ. }
  unfold the_fs. do 2 wp_step. destruct (sees_fs Hs) as (_ & _ & _ & _ & _ & -> & _).
  destruct (fo_cached _ _ _ Hf) as [[_ ?]|[_ (k & Hk & Ek)]]; [congruence|].
  pose proof (sees_range Hs k Hk) as Hr. rewrite <- Ek in Hr. pose proof (sees_geom Hs) as Hg.
  pose proof (geom_bounds _ Hg) as Hb. apply wp_bind.
  apply wp_on_drive. eapply wp_mono.
  { apply (wd_write (contents := contents) (many := many));
      [apply (h_online _ _ _ Hv)|lia| |lia|rewrite (proj1 (fo_buf _ _ _ Hf)); unfold SS; lia|apply Hf].
    pose proof wd_many. lia. }
  intros r d (-> & Ho & Hc). change (RES_OK =? RES_OK) with true. cbv iota. apply wp_ret.
  unfold cleaned in HQ. rewrite Edirty in HQ. apply HQ.
  split; [|by pose proof (file_ok_cleaned _ _ _ Hf) as Hf'; unfold cleaned in Hf'; rewrite Edirty in Hf'
         |by destruct Hs].
  exists (written L (f_sect fp) 1 (f_buf fp)). split.
  - eapply (holds_write_data v (set_w_disk L w)); [done|done|exact Hc|cbn; lia..| | |].
    + rewrite (proj1 (fo_buf _ _ _ Hf)). unfold SS. lia.
    + apply Hf.
    + rewrite in_range_false. pose proof (se_apart _ _ _ _ Hs k Hk). lia.
  - intros s. rewrite overlay_clean by apply clear_has. rewrite HL, written_1 by apply Hf.
    unfold overlay. by rewrite Edirty.
Qed.
End Access.
