(* ===== verification/FatRead.v ===== *)
(** * FatFs: reading

    [f_read] puts the bytes of the file from the file pointer on into the buffer
    of the caller, as many as asked for or up to the end of the file, and leaves
    the disk as it is apart from what the buffer of the file object held. *)

From stdpp Require Import sets.
From S2P Require Import Prelude FatData FatFs FatPath FatFile FatVolume FatTable FatChain FatContents.

#[local] Open Scope Z_scope.
#[local] Open Scope list_scope.

(** The members of a file object that reading and writing in place leave alone. *)
Definition file_id (fp : FIL) :=
  (f_fs fp, f_id fp, f_sclust fp, f_objsize fp, Z.ldiff (f_flag fp) FA_DIRTY, f_err fp,
   dir_sect fp, dir_ptr fp).

Lemma ldiff_ldiff a b : Z.ldiff (Z.ldiff a b) b = Z.ldiff a b.
Proof.
  apply Z.bits_inj'. intros n _. rewrite !Z.ldiff_spec. by destruct (Z.testbit a n), (Z.testbit b n).
Qed.

Lemma file_id_cleaned fp : file_id (cleaned fp) = file_id fp.
Proof.
  unfold cleaned. case_match; [|done]. unfold file_id, clear_flag. cbn. by rewrite ldiff_ldiff.
Qed.

(** A transfer of whole sectors into the middle of a buffer. *)
Lemma filled_blocks c s n b i : 0 <= i -> i + Z.of_nat n * SS <= zlen b ->
  (forall k, s <= k < s + Z.of_nat n -> zlen (c k) = SS) ->
  filled b i (Z.of_nat n * SS) (fun j => byte_at (c (s + (j - i) / SS)) ((j - i) mod SS))
    (take (Z.to_nat i) b ++ blocks c s n ++ drop (Z.to_nat (Z.of_nat n * SS)) (drop (Z.to_nat i) b)).
Proof.
  intros Hi Hl Hc. pose proof (blocks_length c s n Hc) as Hbl.
  assert (0 <= Z.of_nat n * SS) by (unfold SS; lia).
  assert (zlen (take (Z.to_nat i) b) = i) as Ht by (apply zlen_take; lia). split.
  - rewrite !zlen_app, Ht, Hbl, !zlen_dropZ; rewrite ?zlen_dropZ by lia; lia.
  - intros j Hj. rewrite byte_at_app, Ht by lia. destruct (Z.ltb_spec j i).
    + rewrite byte_at_take by lia. by rewrite (proj2 (in_range_false i _ j)) by lia.
    + rewrite byte_at_app, Hbl by lia. destruct (Z.ltb_spec (j - i) (Z.of_nat n * SS)).
      * rewrite (proj2 (in_range_spec i _ j)), blocks_at by (done || lia). done.
      * rewrite (proj2 (in_range_false i _ j)), !byte_at_drop by lia. f_equal. lia.
Qed.

(** Newer bytes in the middle of what has been filled. *)
Lemma filled_over b i n f b1 k m h b2 : i <= k -> k + m <= i + n ->
  filled b i n f b1 -> filled b1 k m h b2 ->
  filled b i n (fun j => if in_range k m j then h j else f j) b2.
Proof.
  intros Hk Hm [Hl1 Hb1] [Hl2 Hb2]. split; [congruence|]. intros j Hj. rewrite Hb2, Hb1 by lia.
  destruct (in_range k m j) eqn:E; [|done]. rewrite in_range_spec in E.
  by rewrite (proj2 (in_range_spec i n j)) by lia.
Qed.

(** The test for a sector in a run of sectors, in unsigned arithmetic. *)
Lemma run_test s n x : 0 <= s -> 0 <= n -> s + n <= 2 ^ 32 -> 0 <= x < 2 ^ 32 ->
  (u32 (x - s) <? n) = in_range s n x /\ (in_range s n x = true -> u32 (x - s) = x - s).
Proof.
  intros Hs Hn Hsn Hx. unfold in_range, u32. destruct (Z.leb_spec s x); cbn [andb].
  - rewrite Z.mod_small by lia. split; [|done]. destruct (Z.ltb_spec (x - s) n), (Z.ltb_spec x (s + n)); lia || done.
  - split; [|done]. rewrite <- (Z_mod_plus_full _ 1), Z.mod_small by lia. apply Z.ltb_ge. lia.
Qed.

(** The bytes of a file in sectors that follow each other. *)
Lemma file_byte_run w l k n t :
  (forall j, 0 <= j < n -> file_sector (w_geom w) l (k + j) = file_sector (w_geom w) l k + j) ->
  0 <= t < n * SS ->
  file_byte w l (k * SS + t) = byte_at (w_disk w (file_sector (w_geom w) l k + t / SS)) (t mod SS).
Proof.
  intros Hk Ht. unfold file_byte. rewrite Z.div_add_l by done.
  rewrite Hk by (unfold SS in *; Z.div_mod_to_equations; lia).
  f_equal. by rewrite (Z.add_comm (k * SS)), Z_mod_plus_full.
Qed.

(** The bytes of the sectors from [s] on, at [i] in a buffer. *)
Definition run_byte (c : Z -> list Z) (s i j : Z) : Z :=
  byte_at (c (s + (j - i) / SS)) ((j - i) mod SS).

(** One sector [x] of a run is replaced in the buffer. *)
Lemma filled_overlay c s n b i x buf b1 b2 : s <= x < s + n ->
  filled b i (n * SS) (run_byte c s i) b1 ->
  filled b1 (i + (x - s) * SS) SS (fun j => byte_at buf (j - (i + (x - s) * SS))) b2 ->
  filled b i (n * SS) (run_byte (fun y => if y =? x then buf else c y) s i) b2.
Proof.
  intros Hx Hb1 Hb2. eapply filled_ext; [|eapply filled_over; [..|exact Hb1|exact Hb2]; unfold SS in *; lia].
  intros j Hj. cbv beta. unfold run_byte. set (t := j - i).
  replace (in_range (i + (x - s) * SS) SS j) with (s + t / SS =? x).
  - destruct (Z.eqb_spec (s + t / SS) x); [|done]. f_equal. unfold t, SS in *. Z.div_mod_to_equations. lia.
  - unfold in_range, t, SS in *.
    destruct (Z.eqb_spec (s + (j - i) / 512) x), (Z.leb_spec (i + (x - s) * 512) j),
      (Z.ltb_spec j (i + (x - s) * 512 + 512)); cbn; done || (Z.div_mod_to_equations; lia).
Qed.

Section Read.
Context {D : Type} `{WorkingDrive D contents online many} (copied : Z -> Prop).
Implicit Types (v : vol D) (w : view) (fp : FIL).

Abbreviation sees := (sees (contents := contents) (online := online) copied).

(** Sector [k] of the file is read into a clean buffer. *)
Lemma see_read_buf v w l fp k Q : let s := file_sector (w_geom w) l k in
  sees v w l fp -> has_flag fp FA_DIRTY = false -> sector_of (w_geom w) l k ->
  (forall v', sees v' w l (set_f_sect s (set_f_buf (w_disk w s) fp)) ->
     Q (RES_OK, set_f_buf (w_disk w s) fp) v') ->
  wp (read_buf fp s) Q v.
Proof.
  intros s Hs Hclean Hk HQ. pose proof (sees_range _ Hs k Hk) as Hr. fold s in Hr.
  pose proof (geom_bounds _ (sees_geom _ Hs)) as Hb. destruct (se_holds _ _ _ _ _ Hs) as (L & Hv & HL).
  assert (Hf := se_file _ _ _ _ _ Hs). pose proof (fo_buf _ _ _ Hf) as [Hlen _].
  unfold read_buf, the_fs. do 2 wp_step. destruct (sees_fs _ Hs) as (_ & _ & _ & _ & _ & -> & _).
  apply wp_bind, wp_on_drive. eapply wp_mono.
  { apply (wd_read (contents := contents) (many := many));
      [apply (h_online _ _ _ Hv)|lia| |lia|rewrite Hlen; unfold SS; lia]. pose proof wd_many. lia. }
  intros r d (-> & Ho & Hcont). cbn [fst snd].
  change (Z.to_nat 1) with 1%nat. rewrite blocks_1, drop_ge, app_nil_r by (unfold zlen in Hlen; lia).
  pose proof (sees_stored _ Hs L k Hv Hk) as Est. fold s in Est. rewrite Est.
  assert (E : L s = w_disk w s) by (rewrite HL; symmetry; by apply overlay_clean). rewrite E.
  apply wp_ret, HQ. pose proof (sees_drive _ Hs d Ho Hcont) as [(L' & Hv' & HL') Hf' Ha].
  split; [exists L'; split; [done|]| |done].
  - intros y. rewrite HL'. by rewrite !overlay_clean.
  - destruct Hf as [F1 F2 F3 F4 F5]. split; try done.
    + cbn. rewrite <- E. apply (h_sector _ _ _ Hv). cbn. lia.
    + right. split; [done|]. by exists k.
Qed.

(** Sector [k] of the file comes into the buffer. *)
Lemma see_load_sector v w l fp k Q : sees v w l fp -> sector_of (w_geom w) l k ->
  (forall v' fp', sees v' w l fp' -> f_sect fp' = file_sector (w_geom w) l k ->
     file_id fp' = file_id fp -> fptr fp' = fptr fp -> f_clust fp' = f_clust fp -> Q (FR_OK, fp') v') ->
  wp (load_sector fp (file_sector (w_geom w) l k)) Q v.
Proof.
  intros Hs Hk HQ. unfold load_sector. set (sect := file_sector (w_geom w) l k).
  destruct (Z.eqb_spec (f_sect fp) sect) as [E|_]; [by apply wp_ret, HQ|].
  apply wp_bind. eapply see_write_back; [exact Hs|]. intros v1 Hs1. apply wp_bind.
  eapply see_read_buf; [exact Hs1|apply cleaned_clean|exact Hk|]. intros v2 Hs2. cbn [fst snd].
  change (negb (RES_OK =? RES_OK)) with false. apply wp_ret, HQ; [exact Hs2|done|..].
  - by rewrite <- (file_id_cleaned fp).
  - unfold cleaned. by case_match.
  - unfold cleaned. by case_match.
Qed.

(** The sector number as the code computes it. *)
Lemma see_sector v w l fp k : sees v w l fp -> sector_of (w_geom w) l k ->
  (data_sector (w_geom w) (cluster_at l (k / g_csize (w_geom w))) 0 =? 0) = false /\
  u32 (data_sector (w_geom w) (cluster_at l (k / g_csize (w_geom w))) 0 + k mod g_csize (w_geom w)) =
  file_sector (w_geom w) l k.
Proof.
  intros Hs Hk. pose proof (sees_range _ Hs k Hk) as Hr. pose proof (sees_geom _ Hs) as Hg.
  pose proof (geom_bounds _ Hg). pose proof (csize_pos w Hg).
  pose proof (data_sector_range w Hg _ 0
    (cluster_at_range w l (sees_clusters _ Hs) _ (sector_of_index w l Hg k Hk)) ltac:(lia)).
  split; [apply Z.eqb_neq; lia|].
  replace (data_sector _ _ 0 + _) with (file_sector (w_geom w) l k); [apply u32_small; lia|].
  unfold file_sector, data_sector. lia.
Qed.

(** Sectors [k] to [k + cc - 1] of the file, which follow each other, go to the
    buffer of the caller. *)
Lemma see_read_direct v w l fp buff off k cc Q :
  sees v w l fp -> 1 <= cc <= many -> cc < 256 -> 0 <= off -> off + cc * SS <= zlen buff ->
  (forall j, 0 <= j < cc -> sector_of (w_geom w) l (k + j) /\
     file_sector (w_geom w) l (k + j) = file_sector (w_geom w) l k + j) ->
  (forall v' b, sees v' w l fp ->
     filled buff off (cc * SS) (fun j => file_byte w l (k * SS + (j - off))) b -> Q (RES_OK, b) v') ->
  wp (read_direct fp buff off (file_sector (w_geom w) l k) cc) Q v.
Proof.
  intros Hs Hcc Hcc' Hoff Hlen Hk HQ. set (s := file_sector (w_geom w) l k) in *.
  unfold read_direct, the_fs. do 2 wp_step. destruct (sees_fs _ Hs) as (_ & _ & _ & _ & _ & -> & _).
  destruct (se_holds _ _ _ _ _ Hs) as (L & Hv & HL). pose proof (geom_bounds _ (sees_geom _ Hs)) as Hb.
  assert (Hr : s + cc <= 2 ^ 32 /\ g_database (w_geom w) <= s).
  { destruct (Hk (cc - 1)) as [Hk1 E]; [lia|]. destruct (Hk 0) as [Hk0 E0]; [lia|].
    pose proof (sees_range _ Hs _ Hk1). pose proof (sees_range _ Hs _ Hk0). lia. }
  assert (Hst : forall x, s <= x < s + cc -> contents (v_drive v) x = L x).
  { intros x Hx. destruct (Hk (x - s)) as [Hkx Ex]; [lia|]. replace x with (s + (x - s)) by lia.
    rewrite <- Ex. by apply (sees_stored _ Hs L). }
  assert (Hsec : forall x, s <= x < s + cc -> sector (L x)) by (intros; apply (h_sector _ _ _ Hv); cbn; lia).
  apply wp_bind, wp_on_drive. eapply wp_mono.
  { apply (wd_read (contents := contents) (many := many));
      [apply (h_online _ _ _ Hv)|lia|lia|lia|rewrite zlen_dropZ by (unfold SS in *; lia); lia]. }
  intros r d (-> & Ho & Hc). cbn [fst snd]. change (negb (RES_OK =? RES_OK)) with false. cbv iota.
  pose proof (sees_drive _ Hs d Ho Hc) as Hs'.
  assert (Hn : Z.of_nat (Z.to_nat cc) = cc) by lia.
  pose proof (filled_blocks (contents (v_drive v)) s (Z.to_nat cc) buff off Hoff) as Hb1.
  rewrite Hn in Hb1. set (b1 := take _ _ ++ _) in *. specialize (Hb1 Hlen).
  specialize (Hb1 ltac:(intros x Hx; rewrite Hst by lia; by apply Hsec)).
  assert (Hbyte : forall j, off <= j < off + cc * SS ->
    run_byte (overlay fp (contents (v_drive v))) s off j = file_byte w l (k * SS + (j - off))).
  { intros j Hj. unfold run_byte. rewrite (file_byte_run w l k cc) by ((intros; by apply Hk) || lia).
    fold s. f_equal. rewrite HL. unfold overlay. case_match; [done|]. apply Hst.
    unfold SS in *. Z.div_mod_to_equations. lia. }
  assert (Hf := se_file _ _ _ _ _ Hs). unfold overlay in Hbyte.
  destruct (has_flag fp FA_DIRTY) eqn:Edirty; cbn [andb] in *.
  2: { apply wp_ret, HQ; [done|]. by eapply filled_ext. }
  assert (Hfs : 0 <= f_sect fp < 2 ^ 32).
  { destruct (sees_buffer _ Hs) as [->|(k' & Hk' & ->)]; [lia|]. pose proof (sees_range _ Hs k' Hk'). lia. }
  destruct (run_test s cc (f_sect fp)) as [-> Hu]; [lia..|]. destruct (in_range s cc _) eqn:Ein.
  - rewrite Hu by done. rewrite in_range_spec in Ein. rewrite u32_small by (unfold SS; lia).
    pose proof (fo_buf _ _ _ Hf) as [Hbl _].
    apply wp_bind, wp_array_copy; [unfold SS; lia|rewrite Hbl, (proj1 Hb1); unfold SS in *; lia|].
    intros b2 Hb2 _. apply wp_ret, HQ; [done|]. rewrite Hbl in Hb2.
    eapply filled_ext; [exact Hbyte|]. by eapply filled_overlay.
  - apply wp_ret, HQ; [done|]. eapply filled_ext; [|exact Hb1]. intros j Hj. rewrite <- Hbyte by done.
    unfold run_byte. rewrite (proj2 (Z.eqb_neq _ (f_sect fp))); [done|].
    rewrite in_range_false in Ein. unfold SS in *. Z.div_mod_to_equations. lia.
Qed.

(** *** The loop *)

(** The object moves on; [sees] does not look at the cluster. *)
Lemma sees_update v w l fp fp' : sees v w l fp ->
  f_sclust fp' = f_sclust fp -> f_objsize fp' = f_objsize fp -> f_buf fp' = f_buf fp ->
  f_sect fp' = f_sect fp -> has_flag fp' FA_DIRTY = has_flag fp FA_DIRTY ->
  0 <= fptr fp' <= f_objsize fp ->
  sees v w l fp'.
Proof.
  intros [(L & Hv & HL) Hf Ha] Ec Eo Eb Es Ef Hp. split; [|destruct Hf|done].
  - exists L. split; [done|]. intros s. rewrite HL. unfold overlay. by rewrite Ef, Es, Eb.
  - split; rewrite ?Ec, ?Eo, ?Eb, ?Es, ?Ef; done || lia.
Qed.

(** The index of the cluster with a byte. *)
Lemma cluster_index p i r c : 0 <= r < c * SS -> p = c * i * SS + r -> p / (c * SS) = i.
Proof. intros Hr ->. symmetry. apply (Z.div_unique _ _ _ r); lia. Qed.

Section Step.
Context {v w l fp} (Hs : sees v w l fp) (Hp : placed w l fp).
Abbreviation g := (w_geom w).

(** A byte of the file is in one of its sectors. *)
Lemma byte_sector p : 0 <= p < f_objsize fp -> sector_of g l (p / SS).
Proof.
  pose proof (fo_room _ _ _ (se_file _ _ _ _ _ Hs)). intros Hlt.
  unfold sector_of, SS in *. Z.div_mod_to_equations. nia.
Qed.

Lemma sector_in_file : fptr fp < f_objsize fp -> sector_of g l (fptr fp / SS).
Proof. intros Hlt. apply byte_sector. destruct (fo_size _ _ _ (se_file _ _ _ _ _ Hs)). lia. Qed.

Lemma see_sector_offset : sector_offset (v_fs v) fp = fptr fp / SS mod g_csize g.
Proof.
  destruct (sees_fs _ Hs) as (_ & _ & _ & E & _). unfold sector_offset. rewrite E.
  apply land_pow2; apply go_csize, (sees_geom _ Hs).
Qed.

(** [f_clust] is the cluster of the file pointer. *)
Definition at_cluster fp' : Prop := lookupZ l (fptr fp' / SS / g_csize g) = Some (f_clust fp').

(** The position of the file pointer at the start of a sector. *)
Lemma position : fptr fp mod SS = 0 -> let k := fptr fp / SS in let i := k / g_csize g in
  let m := k mod g_csize g in
  0 <= i /\ 0 <= m < g_csize g /\ fptr fp = (g_csize g * i + m) * SS /\ 0 <= g_csize g * i.
Proof.
  intros Hm k i m. pose proof (csize_pos w (sees_geom _ Hs)) as Hc.
  destruct (fo_size _ _ _ (se_file _ _ _ _ _ Hs)) as [Hfp _].
  assert (Ek : fptr fp = k * SS) by (unfold k, SS in *; Z.div_mod_to_equations; lia).
  assert (0 <= k) by (unfold SS in *; lia).
  pose proof (Z.div_mod k (g_csize g)) as E. pose proof (Z.mod_pos_bound k (g_csize g)).
  assert (0 <= i) by (apply Z.div_pos; lia). fold i m in E. rewrite <- E by lia. nia.
Qed.

(** In a cluster, and at its start: the cluster of the byte before. *)
Lemma inner_cluster : fptr fp mod SS = 0 -> fptr fp / SS mod g_csize g <> 0 -> at_cluster fp.
Proof.
  intros Hm Hne. destruct (position Hm) as (Hi & Hmb & Ep & Hci). unfold at_cluster.
  assert (Hpos : 0 < fptr fp) by (rewrite Ep; unfold SS in *; lia).
  rewrite <- (pl_clust _ _ _ Hp Hpos). f_equal. symmetry.
  apply (cluster_index _ _ ((fptr fp / SS mod g_csize g) * SS - 1)); [unfold SS in *; lia|].
  rewrite Ep at 1. ring.
Qed.

Lemma previous_cluster : fptr fp mod SS = 0 -> fptr fp / SS mod g_csize g = 0 -> fptr fp <> 0 ->
  1 <= fptr fp / SS / g_csize g /\ lookupZ l (fptr fp / SS / g_csize g - 1) = Some (f_clust fp).
Proof.
  intros Hm E0 Hne. destruct (position Hm) as (Hi & Hmb & Ep & Hci).
  destruct (fo_size _ _ _ (se_file _ _ _ _ _ Hs)) as [Hfp _]. rewrite E0 in Ep.
  assert (1 <= fptr fp / SS / g_csize g) by (unfold SS in *; nia). split; [done|].
  rewrite <- (pl_clust _ _ _ Hp ltac:(lia)). f_equal. symmetry.
  apply (cluster_index _ _ (g_csize g * SS - 1)); [unfold SS in *; lia|]. rewrite Ep at 1. ring.
Qed.

(** The cluster of the file pointer at the start of a sector. *)
Lemma see_read_cluster Q : fptr fp mod SS = 0 -> fptr fp < f_objsize fp ->
  (forall v', sees v' w l (set_f_clust (cluster_at l (fptr fp / SS / g_csize g)) fp) ->
     Q (inl (set_f_clust (cluster_at l (fptr fp / SS / g_csize g)) fp)) v') ->
  wp (read_cluster fp (fptr fp / SS mod g_csize g)) Q v.
Proof.
  intros Hm Hlt HQ. pose proof (sector_in_file Hlt) as Hk. assert (Hf := se_file _ _ _ _ _ Hs).
  destruct (fo_size _ _ _ Hf) as [Hfp _].
  pose proof (sector_of_index w l (sees_geom _ Hs) _ Hk) as Hi.
  pose proof (cluster_at_range w l (sees_clusters _ Hs) _ Hi) as Hx.
  destruct (lookupZ_lt l _ Hi) as [x Ex]. unfold cluster_at in *. rewrite Ex in *. change (default 0 (Some x)) with x in *.
  pose proof (geom_bounds _ (sees_geom _ Hs)) as [Hn _]. assert (Hx' := Hx). unfold cluster in Hx'.
  assert (Hset : forall v', sees v' w l fp -> Q (inl (set_f_clust x fp)) v').
  { intros v' Hs'. apply HQ. by eapply sees_update. }
  unfold read_cluster. destruct (Z.eqb_spec (fptr fp / SS mod g_csize g) 0) as [Em|Hmne]; cbn [negb].
  2: { pose proof (inner_cluster Hm Hmne) as E. unfold at_cluster in E.
       assert (f_clust fp = x) as <- by congruence. apply wp_ret.
       replace fp with (set_f_clust (f_clust fp) fp) at 1 by by destruct fp. by apply Hset. }
  apply wp_bind.
  assert (Hgo : forall v', sees v' w l fp -> wp (if x <? 2 then ret (inr FR_INT_ERR) else
     if x =? DISK_ERR then ret (inr FR_DISK_ERR) else ret (inl (set_f_clust x fp))) Q v').
  { intros v' Hs'. rewrite (proj2 (Z.ltb_ge x 2)), (proj2 (Z.eqb_neq x DISK_ERR)) by (unfold DISK_ERR; lia).
    apply wp_ret. by apply Hset. }
  pose proof (file_chain_nonempty _ _ _ _ _ (fo_chain _ _ _ Hf) Ex) as Hch.
  destruct (Z.eqb_spec (fptr fp) 0) as [E0|Hne].
  - apply wp_ret. rewrite E0 in Ex. rewrite Zdiv_0_l in Ex. rewrite (chain_head _ _ _ _ _ Hch Ex). by apply Hgo.
  - destruct (previous_cluster Hm Em Hne) as [H1i E]. set (i := fptr fp / SS / g_csize g) in *.
    replace i with (i - 1 + 1) in Ex by lia.
    pose proof (chain_next _ _ _ _ (i - 1) _ _ Hch ltac:(lia) E Ex) as Enext.
    eapply sees_get_fat; [exact Hs| |intros v' Hs'; rewrite Enext; by apply Hgo].
    pose proof (cluster_at_range w l (sees_clusters _ Hs) (i - 1)) as Hr. unfold cluster_at in Hr.
    rewrite E in Hr. apply Hr. lia.
Qed.

Lemma placed_at_cluster : fptr fp mod SS <> 0 -> 0 < fptr fp -> at_cluster fp.
Proof.
  intros Hm Hpos. pose proof (csize_pos w (sees_geom _ Hs)) as Hc. unfold at_cluster.
  rewrite <- (pl_clust _ _ _ Hp Hpos). f_equal. rewrite Z.div_div, (Z.mul_comm SS) by (unfold SS; lia).
  assert (0 < g_csize g * SS) by (unfold SS; lia). apply (Z.div_unique _ _ _ (fptr fp mod (g_csize g * SS) - 1)).
  - left. pose proof (Z.mod_pos_bound (fptr fp) (g_csize g * SS)).
    enough (fptr fp mod (g_csize g * SS) <> 0) by lia. intros E. apply Hm.
    apply Z.mod_divide; [done|]. apply Z.mod_divide in E as [q E]; [|lia]. exists (q * g_csize g). lia.
  - pose proof (Z.div_mod (fptr fp) (g_csize g * SS)). lia.
Qed.
End Step.

(** The bytes of a file in one sector. *)
Lemma file_byte_sector w l p t : 0 <= t -> p mod SS + t < SS ->
  file_byte w l (p + t) = byte_at (w_disk w (file_sector (w_geom w) l (p / SS))) (p mod SS + t).
Proof.
  intros Ht Hm. unfold file_byte, SS in *.
  replace ((p + t) / 512) with (p / 512) by (Z.div_mod_to_equations; lia).
  by replace ((p + t) mod 512) with (p mod 512 + t) by (Z.div_mod_to_equations; lia).
Qed.

Lemma see_partial {A} v w l fp buff off btr (next : FIL -> list Z -> Z -> FatFs.K (D := D) A) Q :
  sees v w l fp -> f_sect fp = file_sector (w_geom w) l (fptr fp / SS) ->
  0 < btr -> fptr fp + btr <= f_objsize fp -> 0 <= off -> off + btr <= zlen buff ->
  (forall b rcnt, rcnt = Z.min btr (SS - fptr fp mod SS) ->
     filled buff off rcnt (fun j => file_byte w l (fptr fp + (j - off))) b -> wp (next fp b rcnt) Q v) ->
  wp (let rcnt := SS - fptr fp mod SS in
      let rcnt := if btr <? rcnt then btr else rcnt in
      let* bytes := array_slice (f_buf fp) (fptr fp mod SS) (Z.to_nat rcnt) in
      let* buff := array_copy buff off bytes in
      next fp buff rcnt) Q v.
Proof.
  intros Hs Esect Hbtr Hend Hoff Hlen Hnext. cbv zeta. assert (Hf := se_file _ _ _ _ _ Hs).
  pose proof (Z.mod_pos_bound (fptr fp) SS ltac:(done)) as Hm.
  replace (if btr <? SS - fptr fp mod SS then btr else SS - fptr fp mod SS)
    with (Z.min btr (SS - fptr fp mod SS)) by (destruct (Z.ltb_spec btr (SS - fptr fp mod SS)); lia).
  set (rcnt := Z.min _ _). assert (0 < rcnt <= btr /\ fptr fp mod SS + rcnt <= SS) as [Hr Hrm] by lia.
  destruct (fo_buf _ _ _ Hf) as [Hbl _].
  assert (Ebuf : w_disk w (file_sector (w_geom w) l (fptr fp / SS)) = f_buf fp).
  { rewrite <- Esect. destruct (fo_cached _ _ _ Hf) as [[E _]|[E _]]; [|done].
    pose proof (sees_range _ Hs _ (sector_in_file Hs ltac:(lia))) as Hrg. rewrite <- Esect, E in Hrg.
    pose proof (geom_bounds _ (sees_geom _ Hs)). lia. }
  apply wp_bind, wp_array_slice; [lia..|]. intros bs Hbs1 Hbs2 _. rewrite Z2Nat.id in * by lia.
  apply wp_bind, wp_array_copy; [lia..|]. intros b Hb _. rewrite Hbs1 in Hb.
  apply Hnext; [done|]. eapply filled_ext; [|exact Hb]. intros j Hj. cbv beta.
  rewrite Hbs2 by lia. rewrite file_byte_sector, Ebuf by lia. done.
Qed.

(** The object after a transfer of [n] bytes within its cluster, which ends at a
    sector or is within the sector in the buffer. *)
Lemma placed_moved w l fp fp' n : geom_ok (w_geom w) -> at_cluster (w := w) (l := l) fp ->
  0 <= fptr fp -> 0 < n ->
  fptr fp / SS mod g_csize (w_geom w) * SS + fptr fp mod SS + n <= g_csize (w_geom w) * SS ->
  (fptr fp + n) mod SS = 0 \/
    f_sect fp = file_sector (w_geom w) l (fptr fp / SS) /\ fptr fp mod SS + n < SS ->
  fptr fp' = fptr fp + n -> f_clust fp' = f_clust fp -> f_sect fp' = f_sect fp -> placed w l fp'.
Proof.
  intros Hg Hat Hfp Hn Hfit Hsect E Ec Es. pose proof (csize_pos w Hg) as Hc. split; rewrite E.
  - intros _. rewrite Ec, <- Hat. f_equal.
    set (k := fptr fp / SS) in *. set (c := g_csize (w_geom w)) in *.
    pose proof (Z.div_mod (fptr fp) SS ltac:(done)) as E1. pose proof (Z.div_mod k c ltac:(lia)) as E2.
    fold k in E1. pose proof (Z.mod_pos_bound k c ltac:(lia)). pose proof (Z.mod_pos_bound (fptr fp) SS ltac:(done)).
    apply (cluster_index _ _ (k mod c * SS + fptr fp mod SS + n - 1)); [unfold SS in *; nia|].
    rewrite E1, E2 at 1. ring.
  - intros Hne. destruct Hsect as [|[Es' Hlt]]; [done|]. rewrite Es, Es'. f_equal.
    unfold SS in *. Z.div_mod_to_equations. lia.
Qed.

Lemma placed_next v w l fp n : sees v w l fp -> at_cluster (w := w) (l := l) fp ->
  0 < n -> fptr fp + n <= f_objsize fp ->
  fptr fp / SS mod g_csize (w_geom w) * SS + fptr fp mod SS + n <= g_csize (w_geom w) * SS ->
  (fptr fp + n) mod SS = 0 \/
    f_sect fp = file_sector (w_geom w) l (fptr fp / SS) /\ fptr fp mod SS + n < SS ->
  let fp' := set_fptr (u32 (fptr fp + n)) fp in
  fptr fp' = fptr fp + n /\ sees v w l fp' /\ placed w l fp'.
Proof.
  intros Hs Hat Hn Hend Hfit Hsect fp'. destruct (fo_size _ _ _ (se_file _ _ _ _ _ Hs)) as [Hfp Ho].
  assert (E : fptr fp' = fptr fp + n) by (apply u32_small; lia).
  split; [done|]. split; [eapply sees_update; [exact Hs|done..|rewrite E; lia]|].
  eapply placed_moved; [exact (sees_geom _ Hs)|exact Hat|lia|exact Hn|done..].
Qed.

(** What the loop does with [fuel]. *)
Definition reads w l (fuel : nat) : Prop := forall v fp buff off btr Q,
  sees v w l fp -> placed w l fp ->
  0 <= btr -> fptr fp + btr <= f_objsize fp -> 0 <= off -> off + btr <= zlen buff ->
  btr < Z.of_nat fuel ->
  (forall v' fp' b, sees v' w l fp' -> placed w l fp' -> fptr fp' = fptr fp + btr ->
     file_id fp' = file_id fp ->
     filled buff off btr (fun j => file_byte w l (fptr fp + (j - off))) b ->
     Q (FR_OK, fp', b, off + btr) v') ->
  wp (read_bytes fuel fp buff off btr) Q v.

(** A transfer of [n] bytes and the rest of the loop. *)
Lemma reads_next w l fuel v fp buff off btr Q : reads w l fuel ->
  fptr fp + btr <= f_objsize fp -> 0 <= off -> off + btr <= zlen buff -> btr < Z.of_nat (S fuel) ->
  (forall v' fp' b, sees v' w l fp' -> placed w l fp' -> fptr fp' = fptr fp + btr ->
     file_id fp' = file_id fp ->
     filled buff off btr (fun j => file_byte w l (fptr fp + (j - off))) b ->
     Q (FR_OK, fp', b, off + btr) v') ->
  forall fp1 b n, sees v w l fp1 -> at_cluster (w := w) (l := l) fp1 ->
    fptr fp1 = fptr fp -> file_id fp1 = file_id fp -> 0 < n <= btr ->
    fptr fp / SS mod g_csize (w_geom w) * SS + fptr fp mod SS + n <= g_csize (w_geom w) * SS ->
    (fptr fp + n) mod SS = 0 \/
      f_sect fp1 = file_sector (w_geom w) l (fptr fp / SS) /\ fptr fp mod SS + n < SS ->
    filled buff off n (fun j => file_byte w l (fptr fp + (j - off))) b ->
    wp (read_bytes fuel (set_fptr (u32 (fptr fp1 + n)) fp1) b (off + n) (btr - n)) Q v.
Proof.
  intros IH Hend Hoff Hlen Hfuel HQ fp1 b n Hs1 Hat Ep Eid Hn Hfit Hsect Hb.
  assert (f_objsize fp1 = f_objsize fp) as Eo by (unfold file_id in Eid; congruence).
  rewrite <- Ep in Hfit, Hsect.
  destruct (placed_next v w l fp1 n Hs1 Hat) as (E & Hs2 & Hp2); [lia|lia|done..|].
  apply IH; [done|done|lia|rewrite E; cbn; lia|lia|rewrite (proj1 Hb); lia|lia|].
  rewrite E, Ep. intros v2 fp2 b2 Hs3 Hp3 E3 Eid3 Hb2.
  replace (off + n + (btr - n)) with (off + btr) by lia. apply HQ; [done|done|lia|..].
  - rewrite Eid3, <- Eid. done.
  - replace btr with (n + (btr - n)) by lia. eapply filled_app; [lia|lia|exact Hb|].
    eapply filled_ext; [|exact Hb2]. intros j Hj. cbv beta. f_equal. lia.
Qed.

(** The rest of a sector in the buffer. *)
Lemma reads_partial w l fuel v fp fp1 buff off btr Q : reads w l fuel ->
  0 < btr -> fptr fp + btr <= f_objsize fp -> 0 <= off -> off + btr <= zlen buff -> btr < Z.of_nat (S fuel) ->
  (forall v' fp' b, sees v' w l fp' -> placed w l fp' -> fptr fp' = fptr fp + btr ->
     file_id fp' = file_id fp ->
     filled buff off btr (fun j => file_byte w l (fptr fp + (j - off))) b ->
     Q (FR_OK, fp', b, off + btr) v') ->
  sees v w l fp1 -> at_cluster (w := w) (l := l) fp1 -> fptr fp1 = fptr fp -> file_id fp1 = file_id fp ->
  f_sect fp1 = file_sector (w_geom w) l (fptr fp1 / SS) ->
  wp (let rcnt := SS - fptr fp1 mod SS in
      let rcnt := if btr <? rcnt then btr else rcnt in
      let* bytes := array_slice (f_buf fp1) (fptr fp1 mod SS) (Z.to_nat rcnt) in
      let* buff := array_copy buff off bytes in
      read_bytes fuel (set_fptr (u32 (fptr fp1 + rcnt)) fp1) buff (off + rcnt) (btr - rcnt)) Q v.
Proof.
  intros IH Hbtr Hend Hoff Hlen Hfuel HQ Hs1 Hat Ep Eid Esect.
  assert (f_objsize fp1 = f_objsize fp) as Eo by (unfold file_id in Eid; congruence).
  pose proof (Z.mod_pos_bound (fptr fp) SS ltac:(done)) as Hm.
  pose proof (csize_pos w (sees_geom _ Hs1)) as Hc.
  pose proof (Z.mod_pos_bound (fptr fp / SS) (g_csize (w_geom w)) ltac:(lia)) as Hk.
  eapply (see_partial v w l fp1 buff off btr
            (fun fp b n => read_bytes fuel (set_fptr (u32 (fptr fp + n)) fp) b (off + n) (btr - n)));
    [done|done|done|lia|lia|lia|].
  intros b n En Hb. rewrite Ep in En, Hb, Esect.
  eapply (reads_next w l fuel v fp); [done..|lia|unfold SS in *; nia| |done].
  destruct (Z.min_spec btr (SS - fptr fp mod SS)) as [[Hlt E]|[Hle E]]; rewrite E in En; subst n.
  - right. split; [done|lia].
  - left. unfold SS in *. Z.div_mod_to_equations. lia.
Qed.

Lemma reads_all w l fuel : g_csize (w_geom w) <= many -> reads w l fuel.
Proof.
  intros Hmany. induction fuel as [|fuel IH]; intros v fp buff off btr Q Hs Hp Hbtr Hend Hoff Hlen Hfuel HQ; [lia|].
  cbn [read_bytes]. destruct (Z.eqb_spec btr 0) as [->|Hne].
  { apply wp_ret. specialize (HQ v fp buff Hs Hp). rewrite !Z.add_0_r in HQ.
    apply HQ; [done..|apply filled_none]. }
  assert (Hf := se_file _ _ _ _ _ Hs). destruct (fo_size _ _ _ Hf) as [Hfp _].
  unfold the_fs. do 2 wp_step. rewrite (see_sector_offset Hs).
  destruct (Z.eqb_spec (fptr fp mod SS) 0) as [E0|Hin]; cbn [negb].
  2: { assert (0 < fptr fp) by (destruct (decide (fptr fp = 0)) as [E|]; [by rewrite E in Hin|lia]).
       eapply (reads_partial w l fuel v fp fp); [done|lia|try done..]; [|by apply Hp].
       by apply (placed_at_cluster Hs Hp). }
  set (k := fptr fp / SS) in *. set (c := cluster_at l (k / g_csize (w_geom w))).
  pose proof (sector_in_file Hs ltac:(lia)) as Hk. fold k in Hk.
  pose proof (sector_of_index w l (sees_geom _ Hs) k Hk) as Hi.
  pose proof (cluster_at_range w l (sees_clusters _ Hs) _ Hi) as Hcl. fold c in Hcl.
  apply wp_bind. eapply (see_read_cluster Hs Hp); [done|lia|]. fold k c. intros v1 Hs1.
  set (fp1 := set_f_clust c fp) in *.
  apply wp_bind. eapply (sees_clst2sect _ Hs1); [done|].
  destruct (see_sector _ _ _ _ k Hs1 Hk) as [Hnz Esect]. fold c in Hnz, Esect.
  change (f_clust fp1) with c. rewrite Hnz, Esect.
  assert (Hat : at_cluster (w := w) (l := l) fp1).
  { unfold at_cluster. change (fptr fp1) with (fptr fp). fold k. change (f_clust fp1) with c.
    destruct (lookupZ_lt l _ Hi) as [x Ex]. unfold c, cluster_at. by rewrite Ex. }
  destruct (sees_fs _ Hs) as (_ & _ & _ & -> & _). pose proof (csize_pos w (sees_geom _ Hs)) as Hc.
  pose proof (Z.mod_pos_bound k (g_csize (w_geom w)) ltac:(lia)) as Hmk.
  destruct (Z.ltb_spec 0 (btr / SS)) as [Hcc|Hcc].
  - apply wp_bind. set (cc := if _ <? _ then _ else _).
    assert (1 <= cc /\ k mod g_csize (w_geom w) + cc <= g_csize (w_geom w) /\ cc * SS <= btr) as (Hc1 & Hc2 & Hc3).
    { subst cc. destruct (Z.ltb_spec (g_csize (w_geom w)) (k mod g_csize (w_geom w) + btr / SS));
        unfold SS in *; Z.div_mod_to_equations; lia. }
    eapply see_read_direct; [exact Hs1|lia|lia|lia|lia|apply (cluster_run w l (sees_geom _ Hs)); lia || done|]. intros v2 b Hs2 Hb.
    cbn [fst snd]. change (negb (RES_OK =? RES_OK)) with false. cbv iota.
    eapply (reads_next w l fuel v2 fp); [done|done|done|done|done|done|done|done|done|done|unfold SS in *; lia|..].
    + fold k. unfold SS in *; nia.
    + left. unfold SS in *. rewrite (Z.mul_comm 512), Z_mod_plus_full. done.
    + rewrite (Z.mul_comm SS). eapply filled_ext; [|exact Hb]. intros j Hj. cbv beta. f_equal.
      unfold k, SS in *. Z.div_mod_to_equations. lia.
  - apply wp_bind. eapply see_load_sector; [exact Hs1|exact Hk|].
    intros v2 fp2 Hs2 Es2 Eid2 Ep2 Ec2. change (is_ok FR_OK) with true. cbn [fst snd].
    eapply (reads_partial w l fuel v2 fp fp2); try done; [lia|..].
    + unfold at_cluster. rewrite Ep2, Ec2. exact Hat.
    + by rewrite Ep2.
Qed.
End Read.
