(* ===== verification/FatWrite.v ===== *)
(** * FatFs: writing

    [f_write] puts bytes at the file pointer, over what the file has there and
    after its end; the chain of clusters grows when it has to, and nothing else
    on the volume changes. *)

From stdpp Require Import sets.
From S2P Require Import Prelude FatData FatFs FatPath FatFile FatVolume FatTable FatChain FatAlloc.
From S2P Require Import FatContents FatRead.

#[local] Open Scope Z_scope.
#[local] Open Scope list_scope.

(** ** Views that store more *)

(** [n] sectors of [b] are stored from [s] on. *)
Definition store (w : view) (s n : Z) (b : list Z) : view :=
  set_w_disk (written (w_disk w) s n b) w.

(** The file with the clusters [l] has got the free cluster [x]. *)
Record grown (w : view) (l : list Z) (x : Z) (w' : view) : Prop := {
  gr_free : cluster w x /\ entries w x = 0;
  gr_data : same_data w w';
  gr_others c : cluster w c -> c ∉ l -> c <> x -> entries w' c = entries w c;
  gr_tidy : tidy w'
}.

(** The clusters [l'] of [w'] have room for the next byte. *)
Definition ready (w : view) (l : list Z) (w' : view) (l' : list Z) : Prop :=
  tidy w' /\ (w' = w /\ l' = l \/ exists x, l' = l ++ [x] /\ grown w l x w').

(** From [w0] and [l0] to [w] and [l], [n] bytes of [data] have been written at
    [pos] of a file of the size [size]; no other file has changed. *)
Record wrote (w0 : view) (l0 : list Z) (size pos n : Z) (data : list Z) (w : view) (l : list Z)
    : Prop := {
  wr_geom : w_geom w = w_geom w0;
  wr_chain : exists ext, l = l0 ++ ext /\ forall x, x ∈ ext -> cluster w0 x /\ entries w0 x = 0;
  wr_others c : cluster w0 c -> c ∉ l0 -> entries w0 c <> 0 -> entries w c = entries w0 c;
  wr_disk s : in_fat (w_geom w0) s = false ->
    (forall k, sector_of (w_geom w0) l k -> s <> file_sector (w_geom w0) l k) ->
    w_disk w s = w_disk w0 s;
  wr_bytes p : 0 <= p -> p < size \/ pos <= p < pos + n ->
    file_byte w l p = if in_range pos n p then byte_at data (p - pos) else file_byte w0 l0 p;
  wr_tidy : tidy w
}.

Lemma entries_ext w w' : geom_ok (w_geom w) -> w_geom w' = w_geom w ->
  (forall s, in_fat (w_geom w) s = true -> w_disk w' s = w_disk w s) ->
  forall c, cluster w c -> entries w' c = entries w c.
Proof.
  intros Hg E Hd c Hc. unfold entries. rewrite E. by apply fat_entry_ext.
Qed.

Lemma tidy_ext w w' : w_geom w' = w_geom w -> w_free w' = w_free w -> w_last w' = w_last w ->
  (forall c, cluster w c -> entries w' c = entries w c) -> tidy w -> tidy w'.
Proof.
  intros Eg Ef El He ((Hr & Ha) & Hn & Hl).
  assert (free_count w' = free_count w) as Ec.
  { unfold free_count, clusters. rewrite Eg. apply count_ext. intros c Hc.
    rewrite He; [done|]. by apply elem_of_clusters. }
  split; [|split].
  - unfold accounted. by rewrite Ef, Eg, Ec.
  - intros c Hc. rewrite Eg in Hc. rewrite He by done. by apply Hn.
  - by rewrite El.
Qed.

Lemma cluster_at_app l x k : 0 <= k < zlen l -> cluster_at (l ++ x) k = cluster_at l k.
Proof.
  intros Hk. unfold cluster_at, lookupZ, zlen in *. destruct (Z.leb_spec 0 k); [|done].
  by rewrite lookup_app_l by lia.
Qed.

Lemma file_sector_app g l x k : geom_ok g -> sector_of g l k -> file_sector g (l ++ x) k = file_sector g l k.
Proof.
  intros Hg Hk. unfold file_sector. rewrite cluster_at_app; [done|].
  unfold sector_of in Hk. pose proof (go_csize _ Hg).
  split; [apply Z.div_pos; lia|apply Z.div_lt_upper_bound; lia].
Qed.

Lemma same_data_entries_fat g s : geom_ok g -> g_database g <= s < 2 ^ 32 -> in_fat g s = false.
Proof. intros. by apply proper_data. Qed.

(** A store of sectors [k] to [k + cc - 1] of a file. *)
Section Store.
Context {w : view} {l : list Z} (Hgw : geom_ok (w_geom w)).
Context (Hl : forall x, x ∈ l -> cluster w x) (Hd : NoDup l).
Context (k cc : Z) (b : list Z) (Hcc : 0 <= cc) (Hb : cc * SS <= zlen b).
Context (Hrun : forall j, 0 <= j < cc -> sector_of (w_geom w) l (k + j) /\
  file_sector (w_geom w) l (k + j) = file_sector (w_geom w) l k + j).

Let s := file_sector (w_geom w) l k.

Lemma store_range y : in_range s cc y = true -> g_database (w_geom w) <= y < 2 ^ 32.
Proof.
  rewrite in_range_spec. intros Hy. destruct (Hrun (y - s)) as [Hj Ej]; [lia|].
  pose proof (file_sector_range w l Hgw Hl _ Hj). subst s. lia.
Qed.

Lemma store_outside y : g_database (w_geom w) <= y < 2 ^ 32 \/ in_range s cc y = false.
Proof. destruct (in_range s cc y) eqn:E; [left; by apply store_range|by right]. Qed.

Lemma store_entries c : cluster w c -> entries (store w s cc b) c = entries w c.
Proof.
  apply entries_ext; [done..|]. intros y Hy. cbn. unfold written.
  destruct (store_outside y) as [Hr| ->]; [|done].
  pose proof (same_data_entries_fat _ _ Hgw Hr). congruence.
Qed.

Lemma store_byte p : sector_of (w_geom w) l (p / SS) ->
  file_byte (store w s cc b) l p =
  if in_range (k * SS) (cc * SS) p then byte_at b (p - k * SS) else file_byte w l p.
Proof.
  intros Hp. unfold file_byte at 1. change (w_geom (store w s cc b)) with (w_geom w).
  cbn [store set_w_disk w_disk]. destruct (in_range (k * SS) (cc * SS) p) eqn:E.
  - rewrite in_range_spec in E. assert (Hj : 0 <= p / SS - k < cc) by (unfold SS in *; Z.div_mod_to_equations; lia).
    destruct (Hrun _ Hj) as [_ Ej]. replace (k + (p / SS - k)) with (p / SS) in Ej by lia. fold s in Ej.
    destruct (written_at (w_disk w) s cc b (file_sector (w_geom w) l (p / SS))) as [_ ->]; [done|done|lia| |by apply Z.mod_pos_bound].
    f_equal. rewrite Ej. unfold SS in *. Z.div_mod_to_equations. lia.
  - unfold file_byte. f_equal. unfold written. destruct (in_range s cc _) eqn:Es; [|done]. exfalso.
    rewrite in_range_spec in Es. rewrite in_range_false in E.
    set (j := file_sector (w_geom w) l (p / SS) - s) in *. destruct (Hrun j) as [Hj Ej]; [lia|].
    assert (p / SS = k + j) as Ep.
    { eapply (file_sector_inj w l Hgw); [done..|]. rewrite Ej. subst j s. lia. }
    unfold SS in *. Z.div_mod_to_equations. lia.
Qed.
End Store.

Section Steps.
Context {w0 : view} {l0 : list Z} {size pos n : Z} {data : list Z} {w : view} {l : list Z}.
Context (Hg : geom_ok (w_geom w0)) (Hw : wrote w0 l0 size pos n data w l).
Context (Hl : forall x, x ∈ l -> cluster w x) (Hz : forall x, x ∈ l -> entries w x <> 0).
Context (Hd : NoDup l).
Context (Hroom : Z.max size (pos + n) <= zlen l * (g_csize (w_geom w) * SS)).

Let Hgw : geom_ok (w_geom w).
Proof. rewrite (wr_geom _ _ _ _ _ _ _ _ Hw). exact Hg. Qed.

(** The bytes of the file are in its sectors. *)
Lemma wrote_sector p : 0 <= p -> p < size \/ pos <= p < pos + n -> sector_of (w_geom w) l (p / SS).
Proof. intros Hp Hr. unfold sector_of, SS in *. Z.div_mod_to_equations. nia. Qed.

(** Bytes are where they were in a chain that has grown. *)
Lemma grown_byte x w' p : same_data w w' -> sector_of (w_geom w) l (p / SS) ->
  file_byte w' (l ++ [x]) p = file_byte w l p.
Proof.
  intros [Eg Hs] Hp. unfold file_byte. rewrite Eg, file_sector_app by done. f_equal. apply Hs.
  apply same_data_entries_fat; [done|]. by apply file_sector_range.
Qed.

Lemma wrote_ready w' l' : ready w l w' l' -> wrote w0 l0 size pos n data w' l'.
Proof.
  intros [Ht [[-> ->]|(x & -> & Hgr)]]; [done|]. destruct Hgr as [[Hx Hx0] Hs Ho _].
  pose proof Hw as [Wg (ext & El & Wx) Wo Wd Wb _]. destruct Hs as [Eg Hs].
  assert (Hxl : x ∉ l) by (intros Hxl; by apply (Hz x)).
  assert (Hx' : cluster w0 x) by (unfold cluster in *; congruence).
  assert (Hx0' : entries w0 x = 0).
  { destruct (decide (entries w0 x = 0)); [done|]. rewrite <- (Wo x), Hx0; [done|done| |done].
    intros Hxl0. apply Hxl. rewrite El. apply elem_of_app. by left. }
  split; [congruence| |intros c Hc Hcl Hc0|intros s Hsf Hsl|intros p Hp Hr|done].
  - exists (ext ++ [x]). rewrite El, app_assoc. split; [done|].
    intros y [Hy| ->%list_elem_of_singleton]%elem_of_app; auto.
  - rewrite Ho; [by apply Wo|unfold cluster in *; congruence| |congruence].
    rewrite El. intros [Hcl'|Hce]%elem_of_app; [done|]. by destruct (Wx c Hce).
  - rewrite Hs by congruence. apply Wd; [done|]. intros k Hk. rewrite <- Wg in *.
    rewrite <- (file_sector_app _ l [x]) by done. apply Hsl.
    unfold sector_of in *. rewrite zlen_app. pose proof (go_csize _ Hgw). change (zlen [x]) with 1. nia.
  - rewrite grown_byte by (done || by apply wrote_sector). by apply Wb.
Qed.

(** Sectors [k] to [k + cc - 1] of the file are stored. *)
Context (k cc : Z) (b : list Z) (Hcc : 0 <= cc) (Hb : cc * SS <= zlen b).
Context (Hrun : forall j, 0 <= j < cc -> sector_of (w_geom w) l (k + j) /\
  file_sector (w_geom w) l (k + j) = file_sector (w_geom w) l k + j).

Let s := file_sector (w_geom w) l k.

Lemma wrote_store m : 0 <= m -> 0 <= n -> 0 <= pos ->
  pos + (n + m) <= zlen l * (g_csize (w_geom w) * SS) ->
  k * SS <= pos + n -> pos + n + m <= (k + cc) * SS ->
  (forall t, 0 <= t < cc * SS -> k * SS + t < size \/ pos <= k * SS + t < pos + n + m ->
     byte_at b t = if in_range (pos + n) m (k * SS + t) then byte_at data (k * SS + t - pos)
                   else file_byte w l (k * SS + t)) ->
  wrote w0 l0 size pos (n + m) data (store w s cc b) l.
Proof.
  intros Hm Hn Hpos Hroom' Hk1 Hk2 Hbytes. pose proof Hw as [Wg Wc Wo Wd Wb Wt].
  split; [done|done|intros c Hc Hcl Hc0|intros y Hy Hyl|intros p Hp Hr|].
  - rewrite (store_entries Hgw Hl k cc b Hrun); [by apply Wo|unfold cluster in *; congruence].
  - cbn [store set_w_disk w_disk]. unfold written. destruct (in_range s cc y) eqn:E; [|by apply Wd].
    exfalso. rewrite in_range_spec in E. destruct (Hrun (y - s)) as [Hj Ej]; [lia|].
    rewrite <- Wg in Hyl. apply (Hyl _ Hj). rewrite Ej. subst s. lia.
  - assert (Hps : sector_of (w_geom w) l (p / SS)).
    { unfold sector_of, SS in *. Z.div_mod_to_equations. nia. }
    unfold s. rewrite (store_byte Hgw Hd) by done. destruct (in_range (k * SS) (cc * SS) p) eqn:E.
    + rewrite in_range_spec in E. rewrite Hbytes by lia. replace (k * SS + (p - k * SS)) with p by lia.
      unfold in_range in *. destruct (Z.leb_spec (pos + n) p), (Z.ltb_spec p (pos + n + m)),
        (Z.leb_spec pos p), (Z.ltb_spec p (pos + (n + m))); cbn; try lia; try done.
      all: rewrite Wb by lia; unfold in_range.
      all: destruct (Z.leb_spec pos p), (Z.ltb_spec p (pos + n)); cbn; done || lia.
    + rewrite in_range_false in E. rewrite Wb by lia. unfold in_range.
      destruct (Z.leb_spec pos p), (Z.ltb_spec p (pos + n)), (Z.ltb_spec p (pos + (n + m)));
        cbn; done || (unfold SS in *; lia).
  - eapply tidy_ext; [..|exact Wt]; [done..|]. by apply (store_entries Hgw Hl k cc b Hrun).
Qed.
End Steps.

(** ** The code *)

(** The members of a file object that writing leaves alone. *)
Definition file_id' (fp : FIL) :=
  (f_fs fp, f_id fp, Z.ldiff (f_flag fp) FA_DIRTY, f_err fp, dir_sect fp, dir_ptr fp).

Lemma ldiff_lor a b : Z.ldiff (Z.lor a b) b = Z.ldiff a b.
Proof.
  apply Z.bits_inj'. intros n _. rewrite !Z.ldiff_spec, Z.lor_spec.
  by destruct (Z.testbit a n), (Z.testbit b n).
Qed.

Lemma file_id'_dirty fp b : file_id' (add_flag FA_DIRTY (set_f_buf b fp)) = file_id' fp.
Proof. unfold file_id', add_flag. cbn. by rewrite ldiff_lor. Qed.

Lemma chain_nonzero n F c l x : chain n F c l -> x ∈ l -> 2 <= n -> F x <> 0.
Proof.
  revert c. induction l as [|y l IH]; intros c; [by intros _ ?%not_elem_of_nil|].
  intros (-> & Hy & Hl) [->|Hx]%elem_of_cons Hn; [|eauto].
  destruct l; [cbn in Hl; lia|destruct Hl as (_ & ? & _); lia].
Qed.

(** A chain that gets its first or next cluster. *)
Lemma file_chain_grown w c l x w' : geom_ok (w_geom w) -> file_chain w c l -> w_geom w' = w_geom w ->
  cluster w x -> x ∉ l ->
  (forall c', cluster w c' -> entries w' c' =
     if c' =? x then eoc w else if c' =? List.last l 0 then x else entries w c') ->
  file_chain w' (if c =? 0 then x else c) (l ++ [x]).
Proof.
  intros Hg Hch Eg Hx Hxl He. assert (Hx' := Hx). unfold cluster in Hx'.
  assert (g_entries (w_geom w) <= eoc w) as Heoc by (pose proof (entries_fit _ Hg); unfold eoc; lia).
  unfold file_chain in *. destruct (Z.eqb_spec c 0) as [->|Hc].
  - rewrite Hch in *. rewrite (proj2 (Z.eqb_neq x 0)) by lia. split; [|done]. unfold w_chain. rewrite Eg.
    cbn [app chain]. split; [done|]. split; [lia|]. rewrite He, Z.eqb_refl by done. exact Heoc.
  - rewrite (proj2 (Z.eqb_neq c 0)) by done. destruct Hch as [Hch Hne].
    split; [|by destruct l]. destruct l as [|y l' _] using rev_ind; [done|].
    unfold w_chain in *. rewrite Eg, <- app_assoc. cbn [app]. rewrite List.last_last in He.
    assert (Hyl : forall z, z ∈ l' ++ [y] -> cluster w z) by (intros z; by apply (chain_range _ _ _ _ _ Hch)).
    eapply chain_snoc; [exact Hch|done| | |done|].
    + intros z Hz. rewrite He by (apply Hyl, elem_of_app; by left).
      rewrite (proj2 (Z.eqb_neq z x)), (proj2 (Z.eqb_neq z y)); [done|..].
      * intros ->. pose proof (chain_NoDup _ _ _ _ Hch) as (_ & Hd & _)%NoDup_app. apply (Hd y Hz). by left.
      * intros ->. apply Hxl, elem_of_app. by left.
    + rewrite He by (apply Hyl, elem_of_app; right; by left).
      rewrite (proj2 (Z.eqb_neq y x)), Z.eqb_refl; [done|]. intros ->. apply Hxl, elem_of_app. right. by left.
    + by rewrite He, Z.eqb_refl by done.
Qed.

Section Write.
Context {D : Type} `{WorkingDrive D contents online many} (copied : Z -> Prop).
Implicit Types (v : vol D) (w : view) (fp : FIL).

Abbreviation holds := (holds (contents := contents) (online := online) copied).
Abbreviation sees := (sees (contents := contents) (online := online) copied).

Lemma sees_nonzero v w l fp x : sees v w l fp -> x ∈ l -> entries w x <> 0.
Proof.
  intros Hs Hx. pose proof (fo_chain _ _ _ (se_file _ _ _ _ _ Hs)) as Hch. unfold file_chain in Hch.
  pose proof (geom_bounds _ (sees_geom _ Hs)). destruct (f_sclust fp =? 0).
  { rewrite Hch in Hx. by apply not_elem_of_nil in Hx. }
  destruct Hch as [Hch _]. apply (chain_nonzero _ _ _ _ _ Hch Hx). lia.
Qed.

Lemma last_cluster v w l fp : sees v w l fp -> let c := List.last l 0 in
  (l = [] /\ c = 0) \/ (c ∈ l /\ cluster w c /\ entries w c <> 0).
Proof.
  intros Hs. destruct l as [|y l _] using rev_ind; [by left|]. right. rewrite List.last_last.
  assert (y ∈ l ++ [y]) as Hy by (apply elem_of_app; right; by left).
  split; [done|]. split; [by apply (sees_clusters _ Hs)|by eapply sees_nonzero].
Qed.

Lemma sector_of_app g l x k : geom_ok g -> sector_of g l k -> sector_of g (l ++ [x]) k.
Proof.
  intros Hg Hk. pose proof (go_csize _ Hg). unfold sector_of in *. rewrite zlen_app.
  change (zlen [x]) with 1. nia.
Qed.

Lemma file_ok_grown w l x w' fp c : geom_ok (w_geom w) -> (forall y, y ∈ l -> cluster w y) ->
  file_ok w l fp -> same_data w w' -> file_chain w' c (l ++ [x]) ->
  file_ok w' (l ++ [x]) (set_f_sclust c fp).
Proof.
  intros Hg Hl [F1 F2 F3 F4 F5] [Eg Hd] Hch. split; [done|done| |done|].
  - rewrite Eg, zlen_app. cbn [f_objsize set_f_sclust]. pose proof (go_csize _ Hg).
    change (zlen [x]) with 1. unfold SS in *. nia.
  - destruct F5 as [F5|(E & k & Hk & Ek)]; [by left|right].
    change (f_sect (set_f_sclust c fp)) with (f_sect fp). rewrite Eg. split.
    + rewrite Ek, Hd, <- Ek; [done|]. apply same_data_entries_fat; [done|].
      by apply (file_sector_range w l Hg).
    + exists k. split; [by apply sector_of_app|by rewrite file_sector_app].
Qed.

(** The file has got the cluster [x]. *)
Lemma sees_grown v w l fp L v' x : let wL := set_w_disk L w in
  sees v w l fp -> (forall s, w_disk w s = overlay fp L s) -> holds v wL -> tidy w ->
  cluster w x -> entries w x = 0 -> holds v' (link (List.last l 0) x wL) -> on_fat w v' ->
  exists w', grown w l x w' /\
    sees v' w' (l ++ [x]) (set_f_sclust (if f_sclust fp =? 0 then x else f_sclust fp) fp).
Proof.
  intros wL Hs HL Hv Ht Hx Hx0 Hv' Hf'. set (c := List.last l 0) in *. set (wK := link c x wL) in *.
  pose proof (sees_geom _ Hs) as Hg. assert (Hf := se_file _ _ _ _ _ Hs).
  assert (HeL : forall c', cluster w c' -> entries wL c' = entries w c')
    by (intros c' Hc'; by apply (sees_entries _ Hs)).
  assert (Hw : volume wL) by by eapply holds_volume.
  assert (Hx0' : entries wL x = 0) by (by rewrite HeL).
  assert (Hc : c = 0 \/ cluster wL c /\ entries wL c <> 0).
  { destruct (last_cluster _ _ _ _ Hs) as [[_ ?]|(_ & Hcl & Hcn)]; [by left|right]. by rewrite HeL. }
  set (w' := set_w_disk (overlay fp (w_disk wK)) wK). exists w'.
  assert (Hdata : same_data w w').
  { destruct (link_data wL c x Hw Hx Hx0' Hc) as [_ Hd]. split; [done|]. intros s Hsf.
    cbn [w' set_w_disk w_disk]. rewrite HL. unfold overlay. case_match; [done|]. by apply Hd. }
  assert (HeW : forall c', cluster w c' -> entries w' c' =
    if c' =? x then eoc w else if c' =? c then x else entries w c').
  { intros c' Hc'. transitivity (entries wK c').
    - apply (entries_ext wK w'); [done..| |done]. intros s Hin. by apply (overlay_fat _ Hs).
    - unfold wK. rewrite (link_entries wL c x Hw Hx Hx0' Hc c' Hc'), HeL by done. done. }
  assert (Hxl : x ∉ l) by (intros Hxl; by apply (sees_nonzero _ _ _ _ _ Hs Hxl)).
  split.
  - split; [done|done| |].
    + intros c' Hc' Hcl Hcx. rewrite HeW by done. rewrite (proj2 (Z.eqb_neq c' x)) by done.
      destruct (Z.eqb_spec c' c) as [->|]; [|done].
      destruct (last_cluster _ _ _ _ Hs) as [[_ E]|[? _]]; [|done].
      fold c in E. unfold cluster in Hc'. lia.
    + eapply (tidy_ext wK w'); [done..| |].
      { intros c' Hc'. apply (entries_ext wK w'); [done..| |done]. intros s Hin. by apply (overlay_fat _ Hs). }
      apply link_tidy; [done..|]. eapply (tidy_ext w wL); done.
  - split.
    + exists (w_disk wK). split; [exact Hv'|]. intros s. done.
    + eapply file_ok_grown; [done|apply (sees_clusters _ Hs)|done|done|].
      apply (file_chain_grown w); [done|apply Hf|done..].
    + intros k Hk E. unfold on_fat in Hf'. rewrite E in Hf'.
      assert (geom_ok (w_geom w')) as Hg' by done.
      assert (forall y, y ∈ l ++ [x] -> cluster w' y) as Hl'.
      { intros y [Hy| ->%list_elem_of_singleton]%elem_of_app; [by apply (sees_clusters _ Hs)|done]. }
      pose proof (same_data_entries_fat _ _ Hg' (file_sector_range w' _ Hg' Hl' k Hk)) as Hfat.
      change (w_geom w') with (w_geom w) in *. congruence.
Qed.

(** *** The cluster to write to *)

(** [create_chain] of a cluster with a successor. *)
Lemma sees_create_next v w l fp c Q : sees v w l fp -> cluster w c -> cluster w (entries w c) ->
  (forall v', sees v' w l fp -> Q (entries w c) v') -> wp (create_chain c) Q v.
Proof.
  intros Hs Hc Hn HQ. unfold create_chain, the_fs. do 2 wp_step.
  destruct (sees_fs _ Hs) as (_ & -> & _). unfold cluster in *.
  pose proof (geom_bounds _ (sees_geom _ Hs)) as [Hb _].
  rewrite (proj2 (Z.eqb_neq c 0)) by lia. apply wp_bind.
  eapply (sees_get_fat _ Hs); [done|]. intros v1 Hs1.
  rewrite (proj2 (Z.ltb_ge _ 2)), (proj2 (Z.eqb_neq _ DISK_ERR)), (proj2 (Z.ltb_lt _ _))
    by (unfold DISK_ERR; lia).
  apply wp_ret. by apply HQ.
Qed.

(** [create_chain] at the end of the file. *)
Lemma sees_create v w l fp Q : sees v w l fp -> tidy w ->
  (forall v', sees v' w l fp -> (forall c, cluster w c -> entries w c <> 0) -> Q 0 v') ->
  (forall v' w' x, cluster w x -> grown w l x w' ->
     sees v' w' (l ++ [x]) (set_f_sclust (if f_sclust fp =? 0 then x else f_sclust fp) fp) -> Q x v') ->
  wp (create_chain (List.last l 0)) Q v.
Proof.
  intros Hs Ht H0' H1'. destruct (se_holds _ _ _ _ _ Hs) as (L & Hv & HL). set (wL := set_w_disk L w).
  pose proof (sees_geom _ Hs) as Hg.
  assert (HeL : forall c', cluster w c' -> entries wL c' = entries w c')
    by (intros c' Hc'; by apply (sees_entries _ Hs)).
  eapply wp_mono.
  { apply (see_create_chain copied v wL); [exact Hv|by eapply (tidy_ext w wL)|].
    destruct l as [|y l' _] using rev_ind; [by left|right]. rewrite List.last_last.
    assert (y ∈ l' ++ [y]) as Hy by (apply elem_of_app; right; by left).
    assert (cluster w y) as Hcy by by apply (sees_clusters _ Hs). split; [done|]. rewrite HeL by done.
    pose proof (fo_chain _ _ _ (se_file _ _ _ _ _ Hs)) as Hch. unfold file_chain in Hch.
    destruct (f_sclust fp =? 0); [by destruct l'|]. destruct Hch as [Hch _].
    by apply (chain_end _ _ _ _ _ Hch). }
  intros r v' [(-> & Hv' & Hm & Hnone)|(Hx & Hx0 & Hv' & Hf')].
  - apply H0'; [|intros c Hc; rewrite <- HeL by done; by apply Hnone].
    split; [by exists L|apply (se_file _ _ _ _ _ Hs)|]. intros k Hk E. destruct Hm as [->|Hm].
    { by apply (se_apart _ _ _ _ _ Hs k Hk). }
    unfold on_fat in Hm. cbn [wL set_w_disk w_geom] in Hm. rewrite E in Hm.
    destruct (sees_sector _ Hs k Hk). congruence.
  - rewrite HeL in Hx0 by done.
    destruct (sees_grown _ _ _ _ L v' r Hs HL Hv Ht Hx Hx0 Hv' Hf') as (w' & Hgr & Hs'). by eapply H1'.
Qed.

(** The object [fp'] has the cluster of the file pointer of [fp]. *)
Record entered w l fp w' l' fp' : Prop := {
  en_ready : ready w l w' l';
  en_cluster : at_cluster (w := w') (l := l') fp';
  en_sector : sector_of (w_geom w) l' (fptr fp / SS);
  en_same : file_id' fp' = file_id' fp /\ fptr fp' = fptr fp /\ f_objsize fp' = f_objsize fp
}.

Lemma lookupZ_app_end (l : list Z) x : lookupZ (l ++ [x]) (zlen l) = Some x.
Proof.
  unfold lookupZ. pose proof (zlen_nonneg l). destruct (Z.leb_spec 0 (zlen l)); [|lia].
  unfold zlen. rewrite Nat2Z.id. by apply list_lookup_middle.
Qed.

Lemma lookupZ_last (l : list Z) x i : lookupZ l i = Some x -> i + 1 = zlen l -> List.last l 0 = x.
Proof.
  destruct l as [|y l _] using rev_ind; [unfold lookupZ; by case_match|].
  rewrite List.last_last, zlen_app. change (zlen [y]) with 1. intros Hi E.
  replace i with (zlen l) in Hi by lia. rewrite lookupZ_app_end in Hi. congruence.
Qed.

(** The last part of [write_cluster]. *)
Definition enter_cluster (fp : FIL) (clst : Z) : FatFs.K (D := D) (FIL + option FRESULT) :=
  if clst =? 0 then ret (inr None) else
  if clst =? 1 then ret (inr (Some FR_INT_ERR)) else
  if clst =? DISK_ERR then ret (inr (Some FR_DISK_ERR)) else
  let fp := set_f_clust clst fp in
  ret (inl (if f_sclust fp =? 0 then set_f_sclust clst fp else fp)).

Section Enter.
Context {v w l fp} (Hs : sees v w l fp) (Ht : tidy w).
Context (Hm : fptr fp mod SS = 0) (E0 : fptr fp / SS mod g_csize (w_geom w) = 0).
Abbreviation i := (fptr fp / SS / g_csize (w_geom w)).

Lemma start_sector l' : i < zlen l' -> sector_of (w_geom w) l' (fptr fp / SS).
Proof.
  intros Hi. destruct (position _ Hs Hm) as (H0i & Hmb & Ep & Hci). rewrite E0 in Ep.
  assert (fptr fp / SS = g_csize (w_geom w) * i) as -> by (unfold SS in *; Z.div_mod_to_equations; lia).
  unfold sector_of. nia.
Qed.

(** The cluster is there. *)
Lemma enter_there x Q v1 : sees v1 w l fp -> lookupZ l i = Some x ->
  (forall fp', entered w l fp w l fp' -> sees v1 w l fp' -> Q (inl fp') v1) ->
  wp (enter_cluster fp x) Q v1.
Proof.
  intros Hs1 Ex HQ. pose proof (lookupZ_Some_range _ _ _ Ex) as Hi.
  pose proof (cluster_at_range w l (sees_clusters _ Hs) i Hi) as Hx. unfold cluster_at in Hx.
  rewrite Ex in Hx. cbn in Hx. unfold cluster in Hx. pose proof (geom_bounds _ (sees_geom _ Hs)) as [Hn _].
  unfold enter_cluster.
  rewrite (proj2 (Z.eqb_neq x 0)), (proj2 (Z.eqb_neq x 1)), (proj2 (Z.eqb_neq x DISK_ERR)) by (unfold DISK_ERR; lia).
  apply wp_ret. cbv zeta. change (f_sclust (set_f_clust x fp)) with (f_sclust fp).
  destruct (Z.eqb_spec (f_sclust fp) 0) as [Ec|].
  { pose proof (fo_chain _ _ _ (se_file _ _ _ _ _ Hs)) as Hch. unfold file_chain in Hch.
    rewrite Ec in Hch. cbn in Hch. rewrite Hch in Hi. unfold zlen in Hi. cbn in Hi. lia. }
  apply HQ; [|eapply sees_update; [exact Hs1|done..|]; apply (se_file _ _ _ _ _ Hs1)].
  split; [split; [done|by left]|done|apply start_sector; lia|done].
Qed.

(** The cluster is new. *)
Lemma enter_new x w' Q v1 : cluster w x -> grown w l x w' -> i = zlen l ->
  sees v1 w' (l ++ [x]) (set_f_sclust (if f_sclust fp =? 0 then x else f_sclust fp) fp) ->
  (forall fp', entered w l fp w' (l ++ [x]) fp' -> sees v1 w' (l ++ [x]) fp' -> Q (inl fp') v1) ->
  wp (enter_cluster fp x) Q v1.
Proof.
  intros Hx Hgr Hi Hs1 HQ. assert (Hx' := Hx). unfold cluster in Hx'.
  pose proof (geom_bounds _ (sees_geom _ Hs)) as [Hn _]. unfold enter_cluster.
  rewrite (proj2 (Z.eqb_neq x 0)), (proj2 (Z.eqb_neq x 1)), (proj2 (Z.eqb_neq x DISK_ERR)) by (unfold DISK_ERR; lia).
  apply wp_ret. cbv zeta. change (f_sclust (set_f_clust x fp)) with (f_sclust fp). set (fp' := if _ : bool then _ else _).
  assert (Ef : f_sclust fp' = (if f_sclust fp =? 0 then x else f_sclust fp) /\ fptr fp' = fptr fp /\
    f_objsize fp' = f_objsize fp /\ f_buf fp' = f_buf fp /\ f_sect fp' = f_sect fp /\
    has_flag fp' FA_DIRTY = has_flag fp FA_DIRTY /\ f_clust fp' = x /\ file_id' fp' = file_id' fp) by (unfold fp'; by case_match).
  destruct Ef as (E1 & E2 & E3 & E4 & E5 & E6 & E7 & E8). apply HQ.
  - split; [split; [apply Hgr|right; by exists x]| | |done].
    + unfold at_cluster. rewrite E2, E7, (proj1 (gr_data _ _ _ _ Hgr)), Hi. apply lookupZ_app_end.
    + apply start_sector. rewrite zlen_app. change (zlen [x]) with 1. lia.
  - eapply sees_update; [exact Hs1|done..|]. rewrite E2. apply (se_file _ _ _ _ _ Hs1).
Qed.
End Enter.

Section WriteCluster.
Context {v w l fp} (Hs : sees v w l fp) (Hp : placed w l fp) (Ht : tidy w) (Hm : fptr fp mod SS = 0).
Context (Q : FIL + option FRESULT -> vol D -> Prop).
Context (Hin : forall v' w' l' fp', entered w l fp w' l' fp' -> sees v' w' l' fp' -> Q (inl fp') v').
Context (Hfull : forall v', sees v' w l fp -> (forall c, cluster w c -> entries w c <> 0) -> Q (inr None) v').
Abbreviation i := (fptr fp / SS / g_csize (w_geom w)).

(** A new cluster at the end of the file. *)
Lemma see_enter_end : fptr fp / SS mod g_csize (w_geom w) = 0 -> i = zlen l ->
  wp (let* clst := create_chain (List.last l 0) in enter_cluster fp clst) Q v.
Proof.
  intros E0 Ei. apply wp_bind. eapply sees_create; [exact Hs|done|..].
  - intros v1 Hs1 Hnone. unfold enter_cluster. cbn [Z.eqb]. apply wp_ret. by apply Hfull.
  - intros v1 w' x Hx Hgr Hs1. eapply (enter_new Hs Hm E0); [done..|]. intros fp' Hen Hs'. by eapply Hin.
Qed.

Lemma see_enter_first : fptr fp = 0 ->
  wp (let* clst := (if f_sclust fp =? 0 then create_chain 0 else ret (f_sclust fp)) in
      enter_cluster fp clst) Q v.
Proof.
  intros Ep. assert (fptr fp / SS mod g_csize (w_geom w) = 0 /\ i = 0) as [E0 Ei] by by rewrite Ep.
  pose proof (fo_chain _ _ _ (se_file _ _ _ _ _ Hs)) as Hch. unfold file_chain in Hch.
  destruct (f_sclust fp =? 0).
  - pose proof (see_enter_end E0) as Hend. rewrite Hch in Hend. apply Hend. by rewrite Ei.
  - destruct Hch as [Hch Hne]. apply wp_bind, wp_ret.
    eapply (enter_there Hs Ht Hm E0); [done| |intros fp' Hen Hs'; by eapply Hin].
    rewrite Ei. destruct l as [|y l']; [done|]. by destruct Hch as (-> & _).
Qed.

Lemma see_enter_next : fptr fp <> 0 -> fptr fp / SS mod g_csize (w_geom w) = 0 ->
  wp (let* clst := create_chain (f_clust fp) in enter_cluster fp clst) Q v.
Proof.
  intros Hne E0. destruct (previous_cluster _ Hs Hp Hm E0 Hne) as [H1i Eprev].
  destruct (position _ Hs Hm) as (H0i & Hmb & Epos & Hci). rewrite E0 in Epos.
  assert (Hf := se_file _ _ _ _ _ Hs). destruct (fo_size _ _ _ Hf) as [Hfp _].
  pose proof (fo_room _ _ _ Hf) as Hroom. pose proof (csize_pos w (sees_geom _ Hs)) as Hc.
  destruct (Z.lt_ge_cases i (zlen l)) as [Hlt|Hge].
  - destruct (lookupZ_lt l i ltac:(lia)) as [x Ex].
    pose proof (file_chain_nonempty _ _ _ _ _ (fo_chain _ _ _ Hf) Ex) as Hch.
    assert (Hr : forall j y, lookupZ l j = Some y -> cluster w y).
    { intros j y E. pose proof (cluster_at_range w l (sees_clusters _ Hs) j (lookupZ_Some_range _ _ _ E)) as Hr.
      unfold cluster_at in Hr. by rewrite E in Hr. }
    assert (entries w (f_clust fp) = x) as Enext.
    { eapply (chain_next _ _ _ _ (i - 1) _ _ Hch); [lia|exact Eprev|].
      replace (i - 1 + 1) with i by lia. exact Ex. }
    apply wp_bind. eapply sees_create_next; [exact Hs|by eapply Hr|rewrite Enext; by eapply Hr|].
    intros v1 Hs1. rewrite Enext. eapply (enter_there Hs Ht Hm E0); [done|done|].
    intros fp' Hen Hs'. by eapply Hin.
  - assert (i = zlen l) as Ei by (unfold SS in *; nia).
    rewrite <- (lookupZ_last l (f_clust fp) (i - 1) Eprev ltac:(lia)). by apply see_enter_end.
Qed.

Lemma see_write_cluster : wp (write_cluster fp (fptr fp / SS mod g_csize (w_geom w))) Q v.
Proof.
  unfold write_cluster. destruct (Z.eqb_spec (fptr fp / SS mod g_csize (w_geom w)) 0) as [E0|Hne]; cbn [negb].
  - apply (wp_ext _ (let* clst := (if fptr fp =? 0
                then (if f_sclust fp =? 0 then create_chain 0 else ret (f_sclust fp))
                else create_chain (f_clust fp)) in enter_cluster fp clst)); [done|].
    destruct (Z.eqb_spec (fptr fp) 0); [by apply see_enter_first|by apply see_enter_next].
  - apply wp_ret. apply Hin with (w' := w) (l' := l); [|done]. pose proof (inner_cluster _ Hs Hp Hm Hne) as Hat.
    split; [split; [done|by left]|done| |done]. destruct (position _ Hs Hm) as (H0i & Hmb & Epos & Hci).
    unfold at_cluster in Hat. apply lookupZ_Some_range in Hat. unfold sector_of.
    assert (fptr fp / SS = g_csize (w_geom w) * i + fptr fp / SS mod g_csize (w_geom w)) as ->
      by (apply Z.div_mod; lia). nia.
Qed.
End WriteCluster.

(** *** Stores *)

Lemma bytes_ext (a b : list Z) : zlen a = zlen b ->
  (forall j, 0 <= j < zlen a -> byte_at a j = byte_at b j) -> a = b.
Proof.
  intros Hl Hb. apply lookupZ_ext; [done|]. intros j Hj.
  rewrite !byte_at_lookup by lia. f_equal. by apply Hb.
Qed.

Lemma written_ext c c' s n b x : c x = c' x -> written c s n b x = written c' s n b x.
Proof. intros E. unfold written. by case_match. Qed.

Lemma has_add f fp : f <> 0 -> has_flag (add_flag f fp) f = true.
Proof.
  intros Hf. unfold has_flag, add_flag. cbn. apply negb_true_iff, Z.eqb_neq. intros E. apply Hf.
  apply Z.bits_inj'. intros n _. rewrite Z.bits_0.
  assert (Z.testbit (Z.land (Z.lor (f_flag fp) f) f) n = false) as En by (rewrite E; apply Z.bits_0).
  rewrite Z.land_spec, Z.lor_spec in En. by destruct (Z.testbit f n), (Z.testbit (f_flag fp) n).
Qed.

Section Store.
Context {v w l fp} (Hs : sees v w l fp) (k cc : Z) (b : list Z).
Context (Hcc : 0 <= cc) (Hb : cc * SS <= zlen b).
Context (Hrun : forall j, 0 <= j < cc -> sector_of (w_geom w) l (k + j) /\
  file_sector (w_geom w) l (k + j) = file_sector (w_geom w) l k + j).
Abbreviation s := (file_sector (w_geom w) l k).

(** What the drive, the window and the buffer hold after the store. *)
Lemma sees_store v' fp' L' : v_fs v' = v_fs v -> holds v' (set_w_disk L' w) ->
  (forall y, overlay fp' L' y = written (w_disk w) s cc b y) ->
  f_sclust fp' = f_sclust fp -> f_objsize fp' = f_objsize fp -> fptr fp' = fptr fp ->
  sector (f_buf fp') ->
  f_sect fp' = 0 /\ has_flag fp' FA_DIRTY = false \/
    written (w_disk w) s cc b (f_sect fp') = f_buf fp' /\
    (exists k', sector_of (w_geom w) l k' /\ f_sect fp' = file_sector (w_geom w) l k') ->
  sees v' (store w s cc b) l fp'.
Proof.
  intros Ev Hv HL Ec Eo Ep Hbuf Hcached. pose proof (sees_geom _ Hs) as Hg.
  destruct (se_file _ _ _ _ _ Hs) as [F1 F2 F3 F4 F5]. split.
  - exists L'. split; [exact Hv|]. intros y. by rewrite HL.
  - split; [|by rewrite Eo, Ep|by rewrite Eo|done|exact Hcached]. rewrite Ec. unfold file_chain in *.
    case_match; [done|]. destruct F1 as [F1 Hne]. split; [|done].
    eapply chain_ext; [exact F1|]. intros x Hx.
    apply (store_entries Hg (sees_clusters _ Hs) k cc b Hrun). by apply (sees_clusters _ Hs).
  - rewrite Ev. apply (se_apart _ _ _ _ _ Hs).
Qed.

(** Whole sectors from the buffer of the caller. *)
Lemma see_write_direct wbuff off Q : b = drop (Z.to_nat off) wbuff -> 0 <= off -> off + cc * SS <= zlen wbuff ->
  has_flag fp FA_DIRTY = false -> Forall is_byte wbuff -> 1 <= cc <= many -> cc < 256 ->
  (forall v' fp', sees v' (store w s cc b) l fp' -> file_id' fp' = file_id' fp -> fptr fp' = fptr fp ->
     f_objsize fp' = f_objsize fp -> f_clust fp' = f_clust fp -> Q (RES_OK, fp') v') ->
  wp (write_direct fp wbuff off s cc) Q v.
Proof.
  intros Eb Hoff Hlen Hclean Hbytes Hmany Hcc' HQ. pose proof (sees_geom _ Hs) as Hg.
  pose proof (geom_bounds _ Hg) as Hbd. destruct (se_holds _ _ _ _ _ Hs) as (L & Hv & HL).
  assert (Hr : s + cc <= 2 ^ 32 /\ g_database (w_geom w) <= s).
  { destruct (Hrun (cc - 1)) as [Hk1 E]; [lia|]. destruct (Hrun 0) as [Hk0 E0]; [lia|].
    pose proof (sees_range _ Hs _ Hk1). pose proof (sees_range _ Hs _ Hk0). lia. }
  unfold write_direct, the_fs. do 2 wp_step. destruct (sees_fs _ Hs) as (_ & _ & _ & _ & _ & -> & _).
  assert (Forall is_byte b) as Hbb by (subst b; by apply Forall_drop).
  apply wp_bind, wp_on_drive. rewrite <- Eb. eapply wp_mono.
  { apply (wd_write (contents := contents) (many := many)); [apply (h_online _ _ _ Hv)|lia|lia|lia|lia|done]. }
  intros r d (-> & Ho & Hc). change (negb (RES_OK =? RES_OK)) with false. cbv iota.
  assert (Hv' : holds (Vol (v_fs v) d) (set_w_disk (written L s cc b) w)).
  { eapply (holds_write_data copied v (set_w_disk L w)); [done|done|exact Hc|cbn; lia|lia|lia|lia|done|].
    rewrite in_range_false. destruct (decide (winsect (v_fs v) < s \/ s + cc <= winsect (v_fs v))); [done|].
    destruct (Hrun (winsect (v_fs v) - s)) as [Hj Ej]; [lia|]. destruct (se_apart _ _ _ _ _ Hs _ Hj). lia. }
  assert (HL' : forall y, overlay fp (written L s cc b) y = written (w_disk w) s cc b y).
  { intros y. rewrite overlay_clean by done. apply written_ext. rewrite HL. by rewrite overlay_clean. }
  destruct (se_file _ _ _ _ _ Hs) as [F1 F2 F3 F4 F5].
  assert (Hfs : 0 <= f_sect fp < 2 ^ 32).
  { destruct (sees_buffer _ Hs) as [->|(k' & Hk' & ->)]; [lia|]. pose proof (sees_range _ Hs k' Hk'). lia. }
  destruct (run_test s cc (f_sect fp)) as [-> Hu]; [lia..|]. destruct (in_range s cc _) eqn:Ein.
  2: { apply wp_ret, HQ; [|done..]. eapply (sees_store _ fp); [done|exact Hv'|done..|].
       destruct F5 as [F5|[E F5]]; [by left|right]. split; [|done]. unfold written. by rewrite Ein. }
  rewrite Hu by done. assert (Ein' := Ein). rewrite in_range_spec in Ein'. rewrite u32_small by (unfold SS; lia).
  destruct (written_at (w_disk w) s cc b (f_sect fp)) as [Hwl Hwb]; [lia..|].
  apply wp_bind, wp_array_slice; [unfold SS; lia|unfold SS in *; lia|]. intros bs Hbs1 Hbs2 Hbs3.
  apply wp_bind, wp_array_copy; [lia|rewrite Hbs1, (proj1 F4); done|]. intros b0 [Hb0l Hb0] Hb0b.
  change (Z.of_nat (Z.to_nat SS)) with SS in *.
  assert (Eb0 : written (w_disk w) s cc b (f_sect fp) = b0).
  { apply bytes_ext; [by rewrite Hwl, Hb0l, (proj1 F4)|]. intros j Hj. rewrite Hwl in Hj.
    rewrite Hwb, Hb0 by (done || rewrite (proj1 F4); done). rewrite (proj2 (in_range_spec 0 _ j)) by lia.
    rewrite Hbs2 by lia. subst b. rewrite byte_at_drop by (unfold SS in *; lia). f_equal. lia. }
  apply wp_ret, HQ; [|unfold file_id', clear_flag; cbn; by rewrite ?ldiff_ldiff|done..].
  eapply (sees_store _ _ (written L s cc b)); [done|exact Hv'| |done..| |].
  - intros y. rewrite overlay_clean by apply clear_has. rewrite <- HL'. by rewrite overlay_clean.
  - split; [by rewrite <- (proj1 F4)|]. apply Hb0b; [apply F4|by apply Hbs3].
  - right. split; [exact Eb0|]. exists (k + (f_sect fp - s)). destruct (Hrun (f_sect fp - s)) as [Hj Ej]; [lia|].
    split; [done|]. cbn. lia.
Qed.
End Store.

(** [n] bytes have been transferred. *)
Lemma sees_advance v w l fp n : sees v w l fp -> 0 <= n -> fptr fp + n < 2 ^ 32 ->
  fptr fp + n <= zlen l * (g_csize (w_geom w) * SS) ->
  fptr (advance n fp) = fptr fp + n /\ f_objsize (advance n fp) = Z.max (f_objsize fp) (fptr fp + n) /\
  sees v w l (advance n fp).
Proof.
  intros Hs Hn Hlt Hroom. destruct Hs as [Hh [F1 F2 F3 F4 F5] Ha].
  assert (E : fptr (advance n fp) = fptr fp + n) by (apply u32_small; lia).
  assert (Eo : f_objsize (advance n fp) = Z.max (f_objsize fp) (fptr fp + n)).
  { rewrite <- E. cbn. destruct (Z.ltb_spec (f_objsize fp) (u32 (fptr fp + n))); lia. }
  split; [done|]. split; [done|]. split; [exact Hh| |exact Ha].
  split; [done|rewrite E, Eo; lia|rewrite Eo; lia|done|exact F5].
Qed.

(** The sector [k] of the file pointer is in the buffer of [fp2], and new bytes
    are put into it. *)
Lemma sees_put v w l fp fp2 k b : sees v w l fp -> sector_of (w_geom w) l k ->
  has_flag fp FA_DIRTY = false \/ f_sect fp = file_sector (w_geom w) l k ->
  f_sect fp2 = file_sector (w_geom w) l k -> f_sclust fp2 = f_sclust fp ->
  f_objsize fp2 = f_objsize fp -> fptr fp2 = fptr fp -> sector b ->
  sees v (store w (file_sector (w_geom w) l k) 1 b) l (add_flag FA_DIRTY (set_f_buf b fp2)).
Proof.
  intros Hs Hk Hor Es Ec Eo Ep Hb. set (s := file_sector (w_geom w) l k) in *.
  destruct (se_holds _ _ _ _ _ Hs) as (L & Hv & HL).
  assert (Hone : forall c x, written c s 1 b x = if x =? s then b else c x) by (intros; apply written_1, Hb).
  apply (sees_store (fp := fp) Hs k 1 b) with (L' := L); try done.
  - intros j Hj. replace j with 0 by lia. by rewrite !Z.add_0_r.
  - intros y. fold s. rewrite Hone, HL. unfold overlay. rewrite has_add by done. cbn [f_sect add_flag set_f_flag set_f_buf f_buf].
    rewrite Es. cbn [andb]. destruct (Z.eqb_spec y s) as [->|Hne]; [done|].
    destruct Hor as [->|E]; [done|]. rewrite E, (proj2 (Z.eqb_neq y s)) by done. by rewrite andb_false_r.
  - right. cbn [f_sect add_flag set_f_flag set_f_buf f_buf]. rewrite Es. fold s. rewrite Hone, Z.eqb_refl.
    split; [done|by exists k].
Qed.

(** [fill_sector] *)
Lemma see_fill_sector v w l fp Q : sees v w l fp -> has_flag fp FA_DIRTY = false ->
  sector_of (w_geom w) l (fptr fp / SS) -> let s := file_sector (w_geom w) l (fptr fp / SS) in
  (forall v' fp', sees v' w l fp -> f_sect fp' = s -> sector (f_buf fp') ->
     (fptr fp < f_objsize fp -> f_buf fp' = w_disk w s) -> f_sclust fp' = f_sclust fp ->
     f_objsize fp' = f_objsize fp -> fptr fp' = fptr fp -> f_clust fp' = f_clust fp ->
     file_id' fp' = file_id' fp -> Q (FR_OK, fp') v') ->
  wp (fill_sector fp s) Q v.
Proof.
  intros Hs Hclean Hk s HQ. unfold fill_sector. apply wp_bind.
  pose proof (sees_range _ Hs _ Hk) as Hr. fold s in Hr. pose proof (geom_bounds _ (sees_geom _ Hs)) as Hbd.
  assert (Hf := se_file _ _ _ _ _ Hs). pose proof (fo_buf _ _ _ Hf) as Hbuf. assert (Hlen := proj1 Hbuf).
  destruct (Z.eqb_spec (f_sect fp) s) as [E|Hne]; cbn [negb andb].
  { apply wp_ret. change (negb (RES_OK =? RES_OK)) with false. apply wp_ret, HQ; try done. intros _.
    destruct (fo_cached _ _ _ Hf) as [[E0 _]|[Ec _]]; [lia|]. cbn. by rewrite <- Ec, E. }
  destruct (Z.ltb_spec (fptr fp) (f_objsize fp)).
  2: { apply wp_ret. change (negb (RES_OK =? RES_OK)) with false. apply wp_ret, HQ; try done. cbn. lia. }
  eapply see_read_buf; [exact Hs|exact Hclean|exact Hk|]. intros v1 Hs1. fold s in Hs1 |- *.
  change (negb (RES_OK =? RES_OK)) with false. apply wp_ret, HQ; try done.
  - destruct Hs1 as [(L & Hv & HL) _ Ha]. destruct Hs as [_ Hf' _]. split; [|done..].
    exists L. split; [done|]. intros y. rewrite HL. by rewrite !overlay_clean.
  - apply (se_file _ _ _ _ _ Hs1).
Qed.

(** *** The loop *)

Section Loop.
Context (w0 : view) (l0 : list Z) (size pos : Z) (wbuff : list Z) (fp0 : FIL).
Context (Hmany : g_csize (w_geom w0) <= many) (Hbytes : Forall is_byte wbuff) (Hpos : 0 <= pos).

(** [n] bytes have been written. *)
Record writing (n : Z) v w l fp : Prop := {
  wg_sees : sees v w l fp;
  wg_wrote : wrote w0 l0 size pos n wbuff w l;
  wg_ptr : fptr fp = pos + n;
  wg_size : f_objsize fp = Z.max size (pos + n);
  wg_id : file_id' fp = file_id' fp0
}.

(** What the loop does with [fuel]; it stops early if the disk is full. *)
Definition writes (fuel : nat) : Prop := forall v w l fp n btw Q,
  writing n v w l fp -> placed w l fp -> 0 <= n -> 0 <= btw -> n + btw <= zlen wbuff ->
  pos + n + btw < 2 ^ 32 -> btw < Z.of_nat fuel ->
  (forall v' w' l' fp' n', writing n' v' w' l' fp' -> placed w' l' fp' -> n <= n' <= n + btw ->
     n' < n + btw -> (forall c, cluster w' c -> entries w' c <> 0) -> Q (FR_OK, add_flag FA_MODIFIED fp', n') v') ->
  (forall v' w' l' fp', writing (n + btw) v' w' l' fp' -> placed w' l' fp' ->
     Q (FR_OK, add_flag FA_MODIFIED fp', n + btw) v') ->
  wp (write_bytes fuel fp wbuff n btw) Q v.

Lemma write_next_chunk fuel v w1 l fp1 n btw m Q : writes fuel ->
  0 <= n -> n + btw <= zlen wbuff -> pos + n + btw < 2 ^ 32 -> btw < Z.of_nat (S fuel) ->
  (forall v' w' l' fp' n', writing n' v' w' l' fp' -> placed w' l' fp' -> n <= n' <= n + btw ->
     n' < n + btw -> (forall c, cluster w' c -> entries w' c <> 0) -> Q (FR_OK, add_flag FA_MODIFIED fp', n') v') ->
  (forall v' w' l' fp', writing (n + btw) v' w' l' fp' -> placed w' l' fp' ->
     Q (FR_OK, add_flag FA_MODIFIED fp', n + btw) v') ->
  sees v w1 l fp1 -> at_cluster (w := w1) (l := l) fp1 -> 0 < m <= btw ->
  wrote w0 l0 size pos (n + m) wbuff w1 l -> fptr fp1 = pos + n -> f_objsize fp1 = Z.max size (pos + n) ->
  file_id' fp1 = file_id' fp0 -> sector_of (w_geom w1) l (fptr fp1 / SS) ->
  fptr fp1 / SS mod g_csize (w_geom w1) * SS + fptr fp1 mod SS + m <= g_csize (w_geom w1) * SS ->
  (fptr fp1 + m) mod SS = 0 \/
    f_sect fp1 = file_sector (w_geom w1) l (fptr fp1 / SS) /\ fptr fp1 mod SS + m < SS ->
  wp (write_bytes fuel (advance m fp1) wbuff (n + m) (btw - m)) Q v.
Proof.
  intros IH Hn Hlen H32 Hfuel Hfull Hdone Hs Hat Hm Hw Ep Eo Eid Hk Hfit Hsect.
  pose proof (sees_geom _ Hs) as Hg. pose proof (csize_pos w1 Hg) as Hc.
  destruct (sees_advance _ _ _ _ m Hs) as (E1 & E2 & Hs'); [lia|lia| |].
  { set (k := fptr fp1 / SS) in *. pose proof (Z.div_mod (fptr fp1) SS ltac:(done)) as Ed. fold k in Ed.
    pose proof (Z.div_mod k (g_csize (w_geom w1)) ltac:(lia)) as Ek.
    pose proof (sector_of_index w1 l Hg k Hk) as Hi. unfold SS in *. nia. }
  apply IH with (w := w1) (l := l); [| |lia|lia|lia|lia|lia|..].
  - split; [done|done|lia|lia|]. by rewrite <- Eid.
  - apply (placed_moved copied w1 l fp1 _ m); [exact Hg|exact Hat|lia|lia|done..].
  - intros v' w' l' fp' n' Hwg Hp Hn' Hlt. apply Hfull with (w' := w') (l' := l'); [done|done|lia|lia].
  - replace (n + m + (btw - m)) with (n + btw) by lia. intros v' w' l' fp' Hwg Hp. by eapply Hdone.
Qed.

(** The bytes of the sector with the file pointer after a partial transfer. *)
Lemma put_bytes w l fp buf bs b n m : let k := fptr fp / SS in
  fptr fp = pos + n -> size <= f_objsize fp -> 0 <= n -> 0 < m -> zlen bs = m -> sector buf ->
  fptr fp mod SS + m <= SS ->
  buf = w_disk w (file_sector (w_geom w) l k) \/ fptr fp mod SS = 0 /\ f_objsize fp <= fptr fp ->
  (forall j, 0 <= j < m -> byte_at bs j = byte_at wbuff (n + j)) ->
  filled buf (fptr fp mod SS) m (fun j => byte_at bs (j - fptr fp mod SS)) b ->
  forall t, 0 <= t < 1 * SS -> k * SS + t < size \/ pos <= k * SS + t < pos + n + m ->
    byte_at b t = if in_range (pos + n) m (k * SS + t) then byte_at wbuff (k * SS + t - pos)
                  else file_byte w l (k * SS + t).
Proof.
  intros k Ep Hsz Hn Hm Hbl [Hlen _] Hfit Hbuf Hbs [Hb1 Hb2] t Ht Hr.
  pose proof (Z.div_mod (fptr fp) SS ltac:(done)) as Ed. fold k in Ed. set (pm := fptr fp mod SS) in *.
  pose proof (Z.mod_pos_bound (fptr fp) SS ltac:(done)) as Hpm. fold pm in Hpm.
  rewrite Hb2 by lia. replace (in_range (pos + n) m (k * SS + t)) with (in_range pm m t).
  2: { unfold in_range. rewrite <- Ep, Ed. unfold SS in *.
       destruct (Z.leb_spec pm t), (Z.leb_spec (512 * k + pm) (k * 512 + t)), (Z.ltb_spec t (pm + m)),
         (Z.ltb_spec (k * 512 + t) (512 * k + pm + m)); cbn; done || lia. }
  destruct (in_range pm m t) eqn:E; [rewrite in_range_spec in E|rewrite in_range_false in E].
  - rewrite Hbs by lia. f_equal. unfold SS in *. lia.
  - destruct Hbuf as [->|[E0 Ho]]; [|unfold SS in *; lia]. unfold file_byte.
    rewrite Z.div_add_l, (Z.div_small t), Z.add_0_r by (done || lia). f_equal.
    rewrite Z.add_comm, Z_mod_plus_full, Z.mod_small by lia. done.
Qed.

Lemma writing_geom n v w l fp : writing n v w l fp -> w_geom w = w_geom w0.
Proof. intros Hwg. apply (wr_geom _ _ _ _ _ _ _ _ (wg_wrote _ _ _ _ _ Hwg)). Qed.

Lemma writing_room n v w l fp : writing n v w l fp ->
  Z.max size (pos + n) <= zlen l * (g_csize (w_geom w) * SS).
Proof.
  intros [Hs _ _ Eo _]. rewrite <- Eo. apply (fo_room _ _ _ (se_file _ _ _ _ _ Hs)).
Qed.

Lemma wrote_put n v w l fp buf bs b m : let k := fptr fp / SS in
  writing n v w l fp -> 0 <= n -> 0 < m -> zlen bs = m -> sector buf -> sector b ->
  fptr fp mod SS + m <= SS -> sector_of (w_geom w) l k ->
  buf = w_disk w (file_sector (w_geom w) l k) \/ fptr fp mod SS = 0 /\ f_objsize fp <= fptr fp ->
  (forall j, 0 <= j < m -> byte_at bs j = byte_at wbuff (n + j)) ->
  filled buf (fptr fp mod SS) m (fun j => byte_at bs (j - fptr fp mod SS)) b ->
  wrote w0 l0 size pos (n + m) wbuff (store w (file_sector (w_geom w) l k) 1 b) l.
Proof.
  intros k Hwg Hn Hm Hbs1 Hbuf Hb Hfit Hk Hcont Hbs Hfill. pose proof Hwg as [Hs Hw Eptr Esz Ei].
  pose proof (sees_geom _ Hs) as Hg. pose proof (Z.mod_pos_bound (fptr fp) SS ltac:(done)) as Hmod.
  pose proof (Z.div_mod (fptr fp) SS ltac:(done)) as Ed. fold k in Ed.
  assert (Hend : (k + 1) * SS <= zlen l * (g_csize (w_geom w) * SS)) by (unfold sector_of, SS in *; nia).
  apply (wrote_store (w0 := w0) (w := w)); try done.
  - rewrite <- (writing_geom _ _ _ _ _ Hwg). exact Hg.
  - apply (sees_clusters _ Hs).
  - eapply file_chain_NoDup, fo_chain, se_file, Hs.
  - by eapply writing_room.
  - rewrite (proj1 Hb). unfold SS. lia.
  - intros j Hj. replace j with 0 by lia. by rewrite !Z.add_0_r.
  - lia.
  - unfold SS in *. lia.
  - unfold SS in *. lia.
  - unfold SS in *. lia.
  - by apply (put_bytes w l fp buf bs b n m); try done; lia.
Qed.

(** A transfer through the buffer [fp2] with the sector of the file pointer. *)
Lemma writes_partial fuel v w l fp fp2 n btw Q : let k := fptr fp / SS in
  let s := file_sector (w_geom w) l k in writes fuel ->
  writing n v w l fp -> 0 <= n -> 0 < btw -> n + btw <= zlen wbuff -> pos + n + btw < 2 ^ 32 ->
  btw < Z.of_nat (S fuel) ->
  (forall v' w' l' fp' n', writing n' v' w' l' fp' -> placed w' l' fp' -> n <= n' <= n + btw ->
     n' < n + btw -> (forall c, cluster w' c -> entries w' c <> 0) -> Q (FR_OK, add_flag FA_MODIFIED fp', n') v') ->
  (forall v' w' l' fp', writing (n + btw) v' w' l' fp' -> placed w' l' fp' ->
     Q (FR_OK, add_flag FA_MODIFIED fp', n + btw) v') ->
  sector_of (w_geom w) l k -> at_cluster (w := w) (l := l) fp2 ->
  has_flag fp FA_DIRTY = false \/ f_sect fp = s -> f_sect fp2 = s -> sector (f_buf fp2) ->
  f_buf fp2 = w_disk w s \/ fptr fp mod SS = 0 /\ f_objsize fp <= fptr fp ->
  f_sclust fp2 = f_sclust fp -> f_objsize fp2 = f_objsize fp -> fptr fp2 = fptr fp ->
  file_id' fp2 = file_id' fp ->
  wp (let wcnt := SS - fptr fp2 mod SS in
      let wcnt := if btw <? wcnt then btw else wcnt in
      let* bytes := array_slice wbuff n (Z.to_nat wcnt) in
      let* b := array_copy (f_buf fp2) (fptr fp2 mod SS) bytes in
      write_bytes fuel (advance wcnt (add_flag FA_DIRTY (set_f_buf b fp2))) wbuff (n + wcnt) (btw - wcnt)) Q v.
Proof.
  intros k s IH Hwg Hn Hbtw Hlen H32 Hfuel Hfull Hdone Hk Hat Hor Es Hbuf Hcont Ec Eo Ep Eid.
  pose proof Hwg as [Hs Hw Eptr Esz Ei]. pose proof (sees_geom _ Hs) as Hg. pose proof (csize_pos w Hg) as Hc.
  pose proof (Z.mod_pos_bound (fptr fp) SS ltac:(done)) as Hm. cbv zeta. rewrite Ep.
  replace (if btw <? SS - fptr fp mod SS then btw else SS - fptr fp mod SS)
    with (Z.min btw (SS - fptr fp mod SS)) by (destruct (Z.ltb_spec btw (SS - fptr fp mod SS)); lia).
  set (m := Z.min _ _). assert (0 < m <= btw /\ fptr fp mod SS + m <= SS) as [Hmb Hfit] by lia.
  pose proof (Z.mod_pos_bound k (g_csize (w_geom w)) ltac:(lia)) as Hkm.
  pose proof (writing_room _ _ _ _ _ Hwg) as Hroom.
  apply wp_bind, wp_array_slice; [lia..|]. intros bs Hbs1 Hbs2 Hbs3. rewrite Z2Nat.id in * by lia.
  apply wp_bind, wp_array_copy; [lia|rewrite (proj1 Hbuf); lia|]. intros b Hb Hbb. rewrite Hbs1 in Hb.
  assert (sector b) as Hbsec.
  { split; [rewrite (proj1 Hb); apply Hbuf|]. apply Hbb; [apply Hbuf|auto]. }
  pose proof (sees_put _ _ _ _ fp2 k b Hs Hk Hor Es Ec Eo Ep Hbsec) as Hs2. fold s in Hs2.
  eapply write_next_chunk; [done..|exact Hs2|exact Hat|exact Hmb| |by cbn; rewrite Ep|by cbn; rewrite Eo| | | |].
  - apply (wrote_put n v w l fp (f_buf fp2) bs b m); done || lia.
  - rewrite file_id'_dirty. by rewrite <- Ei, <- Eid.
  - cbn. rewrite Ep. exact Hk.
  - cbn. rewrite Ep. fold k. unfold SS in *. nia.
  - cbn. rewrite Ep. destruct (Z.min_spec btw (SS - fptr fp mod SS)) as [[Hlt E]|[Hle E]]; fold m in E; rewrite E.
    + right. split; [exact Es|lia].
    + left. unfold SS in *. Z.div_mod_to_equations. lia.
Qed.

(** Whole sectors from the file pointer on. *)
Lemma wrote_run n v w l fp m : let k := fptr fp / SS in
  writing n v w l fp -> 0 <= n -> 0 < m -> n + m * SS <= zlen wbuff -> fptr fp mod SS = 0 ->
  sector_of (w_geom w) l k -> k mod g_csize (w_geom w) + m <= g_csize (w_geom w) ->
  wrote w0 l0 size pos (n + m * SS) wbuff
    (store w (file_sector (w_geom w) l k) m (drop (Z.to_nat n) wbuff)) l.
Proof.
  intros k Hwg Hn Hm Hlen Hmod Hk Hfit. pose proof Hwg as [Hs Hw Eptr Esz Ei].
  pose proof (sees_geom _ Hs) as Hg.
  pose proof (Z.div_mod (fptr fp) SS ltac:(done)) as Ed. fold k in Ed.
  assert (Hrun := cluster_run w l Hg k m Hk Hfit).
  destruct (Hrun (m - 1)) as [Hlast _]; [lia|].
  apply (wrote_store (w0 := w0) (w := w)); try done.
  - rewrite <- (writing_geom _ _ _ _ _ Hwg). exact Hg.
  - apply (sees_clusters _ Hs).
  - eapply file_chain_NoDup, fo_chain, se_file, Hs.
  - by eapply writing_room.
  - lia.
  - rewrite zlen_dropZ by (unfold SS in *; lia). lia.
  - unfold SS in *. lia.
  - unfold sector_of, SS in *. nia.
  - unfold SS in *. lia.
  - unfold SS in *. lia.
  - intros t Ht _. rewrite byte_at_drop by lia.
    rewrite (proj2 (in_range_spec _ _ _)) by (unfold SS in *; lia). f_equal. unfold SS in *. lia.
Qed.

Lemma writing_cleaned n v v' w l fp : writing n v w l fp -> sees v' w l (cleaned fp) ->
  writing n v' w l (cleaned fp).
Proof.
  intros [Hs Hw Eptr Esz Ei] Hs'. split; [done|done|..]; unfold cleaned in *; case_match; try done.
  rewrite <- Ei. unfold file_id', clear_flag. cbn. by rewrite ldiff_ldiff.
Qed.

(** The cluster for the next byte. *)
Lemma writing_entered n v v' w l fp w' l' fp' : writing n v w l fp -> entered w l fp w' l' fp' ->
  sees v' w' l' fp' -> writing n v' w' l' fp'.
Proof.
  intros Hwg [Hr _ _ (E1 & E2 & E3)] Hs'. pose proof Hwg as [Hs Hw Eptr Esz Ei].
  split; [done| |congruence|congruence|congruence]. pose proof (writing_geom _ _ _ _ _ Hwg) as Eg.
  eapply (wrote_ready (w := w)); [|done|apply (sees_clusters _ Hs)|..|by eapply writing_room|done].
  - rewrite <- Eg. apply (sees_geom _ Hs).
  - intros x. by eapply sees_nonzero.
Qed.

(** From the cluster of the file pointer on, with a clean buffer. *)
Lemma writes_sector fuel v w l fp n btw Q : let k := fptr fp / SS in
  let csect := k mod g_csize (w_geom w) in let s := file_sector (w_geom w) l k in
  let cc := if g_csize (w_geom w) <? csect + btw / SS then g_csize (w_geom w) - csect else btw / SS in
  writes fuel -> writing n v w l fp -> 0 <= n -> 0 < btw -> n + btw <= zlen wbuff -> pos + n + btw < 2 ^ 32 ->
  btw < Z.of_nat (S fuel) ->
  (forall v' w' l' fp' n', writing n' v' w' l' fp' -> placed w' l' fp' -> n <= n' <= n + btw ->
     n' < n + btw -> (forall c, cluster w' c -> entries w' c <> 0) -> Q (FR_OK, add_flag FA_MODIFIED fp', n') v') ->
  (forall v' w' l' fp', writing (n + btw) v' w' l' fp' -> placed w' l' fp' ->
     Q (FR_OK, add_flag FA_MODIFIED fp', n + btw) v') ->
  sector_of (w_geom w) l k -> at_cluster (w := w) (l := l) fp -> fptr fp mod SS = 0 ->
  has_flag fp FA_DIRTY = false ->
  wp (if 0 <? btw / SS then
        let* r := write_direct fp wbuff n s cc in
        if negb (r.1 =? RES_OK) then ret (FR_DISK_ERR, set_f_err FR_DISK_ERR fp, n)
        else write_bytes fuel (advance (SS * cc) r.2) wbuff (n + SS * cc) (btw - SS * cc)
      else
        let* l := fill_sector fp s in
        if is_ok l.1 then
          (let wcnt := SS - fptr l.2 mod SS in
           let wcnt := if btw <? wcnt then btw else wcnt in
           let* bytes := array_slice wbuff n (Z.to_nat wcnt) in
           let* b := array_copy (f_buf l.2) (fptr l.2 mod SS) bytes in
           write_bytes fuel (advance wcnt (add_flag FA_DIRTY (set_f_buf b l.2))) wbuff (n + wcnt) (btw - wcnt))
        else ret (l.1, set_f_err l.1 l.2, n)) Q v.
Proof.
  intros k csect s cc IH Hwg Hn Hbtw Hlen H32 Hfuel Hfull Hdone Hk Hat Hmod Hclean.
  pose proof Hwg as [Hs Hw Eptr Esz Ei]. pose proof (sees_geom _ Hs) as Hg. pose proof (csize_pos w Hg) as Hc.
  pose proof (Z.mod_pos_bound k (g_csize (w_geom w)) ltac:(lia)) as Hkm. fold csect in Hkm.
  pose proof (writing_geom _ _ _ _ _ Hwg) as Eg. destruct (Z.ltb_spec 0 (btw / SS)) as [Hcc|Hcc].
  - assert (1 <= cc /\ csect + cc <= g_csize (w_geom w) /\ cc * SS <= btw) as (Hc1 & Hc2 & Hc3).
    { subst cc. destruct (Z.ltb_spec (g_csize (w_geom w)) (csect + btw / SS));
        unfold SS in *; Z.div_mod_to_equations; lia. }
    apply wp_bind. rewrite <- Eg in Hmany.
    eapply (see_write_direct Hs k cc (drop (Z.to_nat n) wbuff));
      [lia|rewrite zlen_dropZ by lia; lia|by apply cluster_run|done|lia|lia|done|done|lia|lia|].
    intros v2 fp2 Hs2 Eid2 Ep2 Eo2 Ec2. cbn [fst snd]. change (negb (RES_OK =? RES_OK)) with false. cbv iota.
    rewrite (Z.mul_comm SS cc).
    eapply (write_next_chunk fuel v2); [done..|exact Hs2| |unfold SS in *; lia|apply (wrote_run n v w l fp cc Hwg); lia || done|congruence|congruence
      |congruence|by rewrite Ep2|rewrite Ep2; cbn [store set_w_disk w_geom]; fold k csect; rewrite Hmod; unfold SS; lia|].
    + unfold at_cluster. rewrite Ep2, Ec2. exact Hat.
    + left. rewrite Ep2, Z_mod_plus_full. done.
  - apply wp_bind. apply (see_fill_sector _ _ _ _ _ Hs Hclean Hk).
    intros v2 fp2 Hs2 E1 E2 E3 E4 E5 E6 E7 E8. change (is_ok FR_OK) with true. cbn [fst snd].
    eapply (writes_partial fuel v2 w l fp fp2); try done.
    + unfold at_cluster. rewrite E6, E7. exact Hat.
    + by left.
    + destruct (Z.lt_ge_cases (fptr fp) (f_objsize fp)); [left; by apply E3|by right].
Qed.

Lemma writes_all fuel : writes fuel.
Proof.
  induction fuel as [|fuel IH]; intros v w l fp n btw Q Hwg Hp Hn Hbtw Hlen H32 Hfuel Hfull Hdone; [lia|].
  cbn [write_bytes]. destruct (Z.eqb_spec btw 0) as [->|Hne].
  { apply wp_ret. rewrite Z.add_0_r in Hdone. by eapply Hdone. }
  pose proof Hwg as [Hs Hw Eptr Esz Ei]. pose proof (sees_geom _ Hs) as Hg.
  unfold the_fs. do 2 wp_step. rewrite (see_sector_offset _ Hs).
  destruct (Z.eqb_spec (fptr fp mod SS) 0) as [Hmod|Hmod]; cbn [negb].
  2: { assert (0 < fptr fp) by (destruct (decide (fptr fp = 0)) as [E|]; [by rewrite E in Hmod|];
         destruct (fo_size _ _ _ (se_file _ _ _ _ _ Hs)); lia).
       pose proof (pl_sect _ _ _ Hp Hmod) as Esect.
       assert (Hk : sector_of (w_geom w) l (fptr fp / SS)).
       { pose proof (writing_room _ _ _ _ _ Hwg). unfold sector_of, SS in *. Z.div_mod_to_equations. nia. }
       eapply (writes_partial fuel v w l fp fp); try done; [lia|by apply (placed_at_cluster _ Hs Hp)|by right|apply Hs|].
       left. rewrite <- Esect. destruct (fo_cached _ _ _ (se_file _ _ _ _ _ Hs)) as [[E0 _]|[E _]]; [|done].
       pose proof (sees_range _ Hs _ Hk). pose proof (geom_bounds _ Hg). lia. }
  apply wp_bind. eapply (see_write_cluster Hs Hp); [apply Hw|done| |].
  2: { intros v1 Hs1 Hnone. apply wp_ret. eapply Hfull; [|done|lia|lia|done]. by split. }
  intros v1 w1 l1 fp1 Hen Hs1. pose proof (writing_entered _ _ v1 _ _ _ _ _ _ Hwg Hen Hs1) as Hwg1.
  destruct Hen as [_ Hat Hk (_ & Ep1 & Eo1)]. apply wp_bind. eapply see_write_back; [exact Hs1|].
  intros v2 Hs2. pose proof (writing_cleaned _ _ _ _ _ _ Hwg1 Hs2) as Hwg2. set (fp2 := cleaned fp1) in *.
  assert (Ep2 : fptr fp2 = fptr fp /\ f_clust fp2 = f_clust fp1) by (unfold fp2, cleaned; case_match; done).
  destruct Ep2 as [Ep2 Ec2]. assert (Eg : w_geom w = w_geom w1).
  { rewrite (writing_geom _ _ _ _ _ Hwg1). by eapply writing_geom. }
  destruct (sees_fs _ Hs) as (_ & _ & _ & -> & _). rewrite <- Ep2. rewrite Eg in *.
  unfold at_cluster in Hat. rewrite Ep1, <- Ep2, <- Ec2 in Hat. rewrite <- Ep2 in Hk, Hmod.
  pose proof (sector_of_index w1 l1 (sees_geom _ Hs2) _ Hk) as Hi.
  pose proof (cluster_at_range w1 l1 (sees_clusters _ Hs2) _ Hi) as Hcl.
  assert (Ecl : cluster_at l1 (fptr fp2 / SS / g_csize (w_geom w1)) = f_clust fp2)
    by (unfold cluster_at; by rewrite Hat).
  rewrite Ecl in Hcl. apply wp_bind. eapply (sees_clst2sect _ Hs2); [done|].
  destruct (see_sector _ _ _ _ _ _ Hs2 Hk) as [Hnz Esect]. rewrite Ecl in Hnz, Esect.
  rewrite Hnz, Esect. apply (writes_sector fuel v2 w1 l1 fp2); try done; [lia|apply cleaned_clean].
Qed.
End Loop.
End Write.
