(* ===== verification/FatSeek.v ===== *)
(** * FatFs: seeking

    [f_lseek] to a position in the file follows the chain to its cluster and
    leaves the contents alone. *)

From stdpp Require Import sets.
From S2P Require Import Prelude FatData FatFs FatPath FatFile FatVolume FatTable FatChain FatAlloc.
From S2P Require Import FatContents FatRead FatWrite.

#[local] Open Scope Z_scope.
#[local] Open Scope list_scope.

(** The size of a cluster is a power of two: the start of the cluster of a byte. *)
Lemma ldiff_cluster a c : 1 <= c < 256 -> Z.land c (c - 1) = 0 -> 
  Z.ldiff a (c * SS - 1) = c * SS * (a / (c * SS)).
Proof.
  intros Hc E. destruct (pow2_exponent c Hc E) as (k & Hk & ->).
  change SS with (2 ^ 9). rewrite <- Z.pow_add_r by lia.
  replace (2 ^ (k + 9) - 1) with (Z.ones (k + 9)) by (rewrite Z.ones_equiv; lia).
  rewrite Z.ldiff_ones_r, Z.shiftl_mul_pow2, Z.shiftr_div_pow2 by lia. lia.
Qed.

Section Seek.
Context {D : Type} `{WorkingDrive D contents online many} (copied : Z -> Prop).
Implicit Types (v : vol D) (w : view) (fp : FIL).

Abbreviation sees := (sees (contents := contents) (online := online) copied).
Abbreviation clsize w := (g_csize (w_geom w) * SS).

(** The next cluster of the file. *)
Lemma see_seek_next v w l fp i x y Q : sees v w l fp -> 0 <= i ->
  lookupZ l i = Some x -> lookupZ l (i + 1) = Some y ->
  (forall v', sees v' w l fp -> cluster w y -> Q y v') ->
  wp (if has_flag fp FA_WRITE then create_chain x else get_fat x) Q v.
Proof.
  intros Hs Hi Ex Ey HQ. assert (Hf := se_file _ _ _ _ _ Hs).
  pose proof (file_chain_nonempty _ _ _ _ _ (fo_chain _ _ _ Hf) Ex) as Hch.
  pose proof (chain_next _ _ _ _ _ _ _ Hch Hi Ex Ey) as E.
  assert (Hr : forall j z, lookupZ l j = Some z -> cluster w z).
  { intros j z Ez. pose proof (cluster_at_range w l (sees_clusters _ Hs) j (lookupZ_Some_range _ _ _ Ez)) as Hr.
    unfold cluster_at in Hr. by rewrite Ez in Hr. }
  assert (E' : entries w x = y) by exact E. destruct (has_flag fp FA_WRITE).
  - eapply sees_create_next; [exact Hs|by eapply Hr|rewrite E'; by eapply Hr|].
    intros v1 Hs1. rewrite E'. by eapply HQ, Hr.
  - eapply (sees_get_fat _ Hs); [by eapply Hr|]. intros v1 Hs1. rewrite E'. by eapply HQ, Hr.
Qed.

(** The loop ends in the cluster of the byte before the position. *)
Lemma see_seek_loop fuel v w l fp x i ofs Q : sees v w l fp -> 0 <= i -> 
  lookupZ l i = Some x -> f_clust fp = x -> fptr fp = clsize w * i -> 0 < ofs ->
  fptr fp + ofs <= f_objsize fp -> ofs / SS < Z.of_nat fuel ->
  (forall v' fp' x' ofs', sees v' w l fp' -> file_id fp' = file_id fp -> 0 < ofs' <= clsize w ->
     fptr fp' + ofs' = fptr fp + ofs -> f_clust fp' = x' -> fptr fp' mod clsize w = 0 ->
     lookupZ l (fptr fp' / clsize w) = Some x' -> Q (fp', inl (x', ofs')) v') ->
  wp (seek_loop fuel fp (clsize w) x ofs) Q v.
Proof.
  revert v fp x i ofs Q. induction fuel as [|fuel IH]; intros v fp x i ofs Q Hs Hi Ex Ec Ep Hofs Hend Hfuel HQ;
    [pose proof (Z.div_pos ofs SS ltac:(lia) ltac:(done)); lia|].
  pose proof (csize_pos w (sees_geom _ Hs)) as Hc. assert (Hf := se_file _ _ _ _ _ Hs).
  destruct (fo_size _ _ _ Hf) as [_ Ho]. pose proof (fo_room _ _ _ Hf) as Hroom.
  assert (Hcl : 512 <= clsize w) by (unfold SS; lia).
  cbn [seek_loop]. destruct (Z.leb_spec ofs (clsize w)) as [Hle|Hgt].
  { apply wp_ret, HQ; try done; try lia.
    - rewrite Ep, Z.mul_comm, Z.mod_mul by lia. done.
    - rewrite Ep, (Z.mul_comm (clsize w)), Z.div_mul by lia. done. }
  unfold the_fs. do 2 wp_step. apply wp_bind.
  assert (0 <= i + 1 < zlen l) as Hi1 by nia. destruct (lookupZ_lt l (i + 1) Hi1) as [y Ey].
  set (fp1 := set_fptr (u32 (fptr fp + clsize w)) fp).
  assert (Ep1 : fptr fp1 = clsize w * (i + 1)) by (cbn; rewrite u32_small by lia; lia).
  assert (Hs1 : sees v w l fp1) by (eapply sees_update; [exact Hs|done..|lia]).
  eapply (see_seek_next v w l fp1 i); [done..|]. intros v2 Hs2 Hy. assert (Hy' := Hy). unfold cluster in Hy'.
  pose proof (geom_bounds _ (sees_geom _ Hs)) as [Hn _]. destruct (sees_fs _ Hs) as (_ & -> & _).
  rewrite (proj2 (Z.eqb_neq y 0)), (proj2 (Z.eqb_neq y DISK_ERR)) by (unfold DISK_ERR; lia). rewrite andb_false_r.
  rewrite (proj2 (Z.leb_gt y 1)), (proj2 (Z.leb_gt _ y)) by lia. cbn [orb].
  eapply (IH v2 (set_f_clust y fp1) y (i + 1)); [|lia|done|done|exact Ep1|lia|cbn in *; lia| |].
  - eapply sees_update; [exact Hs2|done..|]. cbn [fptr set_f_clust]. rewrite Ep1. cbn. lia.
  - unfold SS in *. Z.div_mod_to_equations. lia.
  - intros v3 fp3 x3 ofs3 Hs3 Eid3 Hofs3 E3. apply HQ; [done|by rewrite Eid3|done|].
    change (fptr (set_f_clust y fp1)) with (fptr fp1) in E3. lia.
Qed.

(** The state of [seek_to] before the loop. *)
Definition seek_start (fp : FIL) (ifptr bcs ofs : Z) : FatFs.K (D := D) (FIL * (Z * Z + FRESULT)) :=
  if (0 <? ifptr) && ((ifptr - 1) / bcs <=? (ofs - 1) / bcs) then
    let fp := set_fptr (Z.ldiff (ifptr - 1) (bcs - 1)) fp in
    ret (fp, inl (f_clust fp, ofs - fptr fp))
  else
    let* clst := (if f_sclust fp =? 0 then create_chain 0 else ret (f_sclust fp)) in
    if (f_sclust fp =? 0) && (clst =? 1) then ret (fp, inr FR_INT_ERR) else
    if (f_sclust fp =? 0) && (clst =? DISK_ERR) then ret (fp, inr FR_DISK_ERR) else
    let fp := if f_sclust fp =? 0 then set_f_sclust clst fp else fp in
    ret (set_f_clust clst fp, inl (clst, ofs)).

(** The start of the file. *)
Lemma see_seek_first v w l fp ofs Q : sees v w l fp -> 0 < ofs <= f_objsize fp ->
  (forall fp' i x, sees v w l fp' -> file_id fp' = file_id fp -> 0 <= i -> lookupZ l i = Some x ->
     f_clust fp' = x -> fptr fp' = clsize w * i -> fptr fp' < ofs -> Q (fp', inl (x, ofs - fptr fp')) v) ->
  wp (let fp := set_fptr 0 fp in
      let* clst := (if f_sclust fp =? 0 then create_chain 0 else ret (f_sclust fp)) in
      if (f_sclust fp =? 0) && (clst =? 1) then ret (fp, inr FR_INT_ERR) else
      if (f_sclust fp =? 0) && (clst =? DISK_ERR) then ret (fp, inr FR_DISK_ERR) else
      let fp := if f_sclust fp =? 0 then set_f_sclust clst fp else fp in
      ret (set_f_clust clst fp, @inl (Z * Z) FRESULT (clst, ofs))) Q v.
Proof.
  intros Hs Hofs HQ. assert (Hf := se_file _ _ _ _ _ Hs). destruct (fo_size _ _ _ Hf) as [Hfp Ho].
  pose proof (fo_room _ _ _ Hf) as Hroom. pose proof (fo_chain _ _ _ Hf) as Hch. unfold file_chain in Hch.
  cbv zeta. cbn [f_sclust set_fptr]. destruct (f_sclust fp =? 0) eqn:E0.
  { rewrite Hch in Hroom. unfold zlen in Hroom. cbn in Hroom. lia. }
  cbn [andb]. apply wp_bind, wp_ret, wp_ret. destruct Hch as [Hch Hne].
  assert (Ex : lookupZ l 0 = Some (f_sclust fp)) by (destruct l; [done|]; by destruct Hch as (-> & _)).
  specialize (HQ (set_f_clust (f_sclust fp) (set_fptr 0 fp)) 0 (f_sclust fp)).
  cbn [fptr set_f_clust set_fptr] in HQ. rewrite Z.sub_0_r in HQ. apply HQ; try done; [|lia..].
  eapply sees_update; [exact Hs|done..|]. cbn. lia.
Qed.

Lemma see_seek_start v w l fp ofs Q : sees v w l fp -> placed w l fp -> 0 < ofs <= f_objsize fp ->
  (forall fp' i x, sees v w l fp' -> file_id fp' = file_id fp -> 0 <= i -> lookupZ l i = Some x ->
     f_clust fp' = x -> fptr fp' = clsize w * i -> fptr fp' < ofs -> Q (fp', inl (x, ofs - fptr fp')) v) ->
  wp (seek_start (set_fptr 0 fp) (fptr fp) (clsize w) ofs) Q v.
Proof.
  intros Hs Hp Hofs HQ. pose proof (sees_geom _ Hs) as Hg. pose proof (go_csize _ Hg) as [Hc Hc2].
  assert (Hf := se_file _ _ _ _ _ Hs). destruct (fo_size _ _ _ Hf) as [Hfp Ho]. pose proof (fo_room _ _ _ Hf) as Hroom.
  assert (Hcl : 0 < clsize w) by (unfold SS; lia). unfold seek_start.
  destruct (Z.ltb_spec 0 (fptr fp)) as [Hpos|Hzero]; cbn [andb];
    [destruct (Z.leb_spec ((fptr fp - 1) / clsize w) ((ofs - 1) / clsize w)) as [Hle|Hgt]|].
  - apply wp_ret. cbv zeta. rewrite ldiff_cluster by done. set (i := (fptr fp - 1) / clsize w) in *.
    assert (0 <= i) by (apply Z.div_pos; lia).
    assert (clsize w * i <= fptr fp - 1 /\ clsize w * i < ofs) as [Hi1 Hi2].
    { pose proof (Z.mul_div_le (fptr fp - 1) (clsize w) ltac:(lia)) as Hd1. fold i in Hd1.
      pose proof (Z.mul_div_le (ofs - 1) (clsize w) ltac:(lia)). nia. }
    eapply (HQ (set_fptr (clsize w * i) fp)); [|done|done|by apply Hp|done|done|done].
    eapply sees_update; [exact Hs|done..|]. cbn. nia.
  - by eapply (see_seek_first v w l fp ofs).
  - by eapply (see_seek_first v w l fp ofs).
Qed.

(** The sector that [seek_to] finds, or 0 at the start of one. *)
Definition seek_sector w l (ofs : Z) : Z :=
  if ofs mod SS =? 0 then 0 else file_sector (w_geom w) l (ofs / SS).

(** The sector of a byte in the cluster that ends at or after it. *)
Lemma cluster_sector w l x p ofs : geom_ok (w_geom w) -> 0 <= p -> p mod clsize w = 0 ->
  lookupZ l (p / clsize w) = Some x -> 0 < ofs <= clsize w -> ofs mod SS <> 0 ->
  data_sector (w_geom w) x 0 + ofs / SS = file_sector (w_geom w) l ((p + ofs) / SS).
Proof.
  intros Hg Hp0 Hp Ex Hofs Hm. pose proof (csize_pos w Hg) as Hc. set (c := g_csize (w_geom w)) in *.
  set (i := p / (c * SS)) in *. assert (0 < c * SS) by (unfold SS; lia).
  pose proof (Z.div_mod p (c * SS) ltac:(lia)) as Ep. fold i in Ep. rewrite Hp, Z.add_0_r in Ep.
  assert (0 <= ofs / SS < c) as Hj by (unfold SS in *; Z.div_mod_to_equations; lia).
  assert ((p + ofs) / SS = ofs / SS + i * c) as E.
  { rewrite Ep. replace (c * SS * i + ofs) with (ofs + i * c * SS) by ring. by rewrite Z.div_add. }
  unfold file_sector, data_sector. fold c. rewrite E, Z.div_add, Z_mod_plus_full by lia.
  rewrite (Z.div_small (ofs / SS)), Z.mod_small by lia. unfold cluster_at. rewrite Z.add_0_l, Ex. cbn. lia.
Qed.

(** The end of [seek_to]. *)
Lemma see_seek_end v w l fp x ofs ofs' Q : sees v w l fp -> 0 < ofs <= f_objsize fp ->
  0 < ofs' <= clsize w -> fptr fp + ofs' = ofs -> fptr fp mod clsize w = 0 ->
  lookupZ l (fptr fp / clsize w) = Some x -> f_clust fp = x ->
  (forall v' fp', sees v' w l fp' -> file_id fp' = file_id fp -> fptr fp' = ofs ->
     (0 < ofs -> lookupZ l ((ofs - 1) / clsize w) = Some (f_clust fp')) ->
     Q (fp', inl (seek_sector w l ofs)) v') ->
  wp (let fp := set_fptr (u32 (fptr fp + ofs')) fp in
      if ofs' mod SS =? 0 then ret (fp, @inl Z FRESULT 0) else
      let* nsect := clst2sect x in
      if nsect =? 0 then ret (fp, inr FR_INT_ERR)
      else ret (fp, inl (u32 (nsect + ofs' / SS)))) Q v.
Proof.
  intros Hs Hofs Hofs' E Hmod Ex Ec HQ. pose proof (sees_geom _ Hs) as Hg. pose proof (csize_pos w Hg) as Hc.
  assert (Hf := se_file _ _ _ _ _ Hs). destruct (fo_size _ _ _ Hf) as [Hfp Ho].
  assert (Hcl : 0 < clsize w) by (unfold SS; lia). cbv zeta. rewrite E, u32_small by lia.
  pose proof (Z.div_mod (fptr fp) (clsize w) ltac:(lia)) as Ep. rewrite Hmod, Z.add_0_r in Ep.
  set (i := fptr fp / clsize w) in *.
  assert (ofs' mod SS = ofs mod SS) as Em.
  { rewrite <- E, Ep. replace (clsize w * i + ofs') with (ofs' + g_csize (w_geom w) * i * SS) by ring.
    by rewrite Z_mod_plus_full. }
  rewrite Em.
  assert (Hp' : sees v w l (set_fptr ofs fp)) by (eapply sees_update; [exact Hs|done..|cbn; lia]).
  assert (Hl : 0 < ofs -> lookupZ l ((ofs - 1) / clsize w) = Some (f_clust (set_fptr ofs fp))).
  { intros _. cbn. rewrite Ec, <- Ex. f_equal. symmetry. apply (Z.div_unique _ _ _ (ofs' - 1)); lia. }
  specialize (HQ v (set_fptr ofs fp) Hp' eq_refl eq_refl Hl). unfold seek_sector in HQ.
  destruct (Z.eqb_spec (ofs mod SS) 0) as [E0|Hne]; [by apply wp_ret|].
  assert (Hk : sector_of (w_geom w) l (ofs / SS)).
  { replace (ofs / SS) with (ofs / SS * SS / SS) by (by rewrite Z.div_mul).
    apply (byte_sector _ Hs). unfold SS in *. Z.div_mod_to_equations. lia. }
  pose proof (sees_range _ Hs _ Hk) as Hr. pose proof (geom_bounds _ Hg).
  assert (Hx : cluster w x).
  { pose proof (cluster_at_range w l (sees_clusters _ Hs) _ (lookupZ_Some_range _ _ _ Ex)) as Hr'.
    unfold cluster_at in Hr'. by rewrite Ex in Hr'. }
  pose proof (cluster_sector w l x (fptr fp) ofs' Hg ltac:(lia) Hmod Ex Hofs'
    ltac:(by rewrite Em)) as Esec. rewrite E in Esec.
  apply wp_bind. eapply (sees_clst2sect _ Hs); [done|].
  pose proof (data_sector_range w Hg x 0 Hx ltac:(lia)).
  rewrite (proj2 (Z.eqb_neq _ 0)), Esec, u32_small by lia. by apply wp_ret.
Qed.

Lemma see_seek_to v w l fp ofs Q : sees v w l fp -> placed w l fp -> 0 <= ofs <= f_objsize fp ->
  (forall v' fp', sees v' w l fp' -> file_id fp' = file_id fp -> fptr fp' = ofs ->
     (0 < ofs -> lookupZ l ((ofs - 1) / clsize w) = Some (f_clust fp')) ->
     Q (fp', inl (seek_sector w l ofs)) v') ->
  wp (seek_to fp ofs) Q v.
Proof.
  intros Hs Hp Hofs HQ. unfold seek_to, the_fs. do 2 wp_step. destruct (sees_fs _ Hs) as (_ & _ & _ & Ec & _).
  pose proof (sees_geom _ Hs) as Hg. pose proof (csize_pos w Hg) as Hc.
  assert (Hf := se_file _ _ _ _ _ Hs). destruct (fo_size _ _ _ Hf) as [Hfp Ho].
  destruct (Z.eqb_spec ofs 0) as [->|Hne].
  { apply wp_ret, HQ; [eapply sees_update; [exact Hs|done..|cbn; lia]|done|done|lia]. }
  rewrite Ec, (u32_small (clsize w)) by (unfold SS; lia). apply wp_bind.
  eapply (see_seek_start v w l fp ofs); [done|done|lia|].
  intros fp1 i x Hs1 Eid Hi Ex Ecl Ep1 Hlt. cbn iota beta.
  assert (Hx : cluster w x).
  { pose proof (cluster_at_range w l (sees_clusters _ Hs) i (lookupZ_Some_range _ _ _ Ex)) as Hr.
    unfold cluster_at in Hr. by rewrite Ex in Hr. }
  unfold cluster in Hx. rewrite (proj2 (Z.eqb_neq x 0)) by lia. apply wp_bind.
  assert (f_objsize fp1 = f_objsize fp) as Eo by (unfold file_id in Eid; congruence).
  eapply (see_seek_loop _ v w l fp1 x i); [done|done|done|done|done|lia|lia|lia|].
  intros v2 fp2 x2 ofs2 Hs2 Eid2 Hofs2 Epos Ecl2 Hmod Ex2. cbn iota beta.
  assert (f_objsize fp2 = f_objsize fp1) as Eo2 by (unfold file_id in Eid2; congruence).
  eapply (see_seek_end v2 w l fp2 x2 ofs ofs2); [done|lia|done|lia|done..|].
  intros v3 fp3 Hs3 Eid3 Ep3 Hl3. apply HQ; [done|congruence|done|done].
Qed.

(** [f_lseek] on the volume, within the file. *)
Lemma see_seek_on v w l fp ofs Q : sees v w l fp -> placed w l fp -> 0 <= ofs <= f_objsize fp ->
  (forall v' fp', sees v' w l fp' -> placed w l fp' -> file_id fp' = file_id fp -> fptr fp' = ofs ->
     Q (FR_OK, fp') v') ->
  wp (seek_on fp ofs) Q v.
Proof.
  intros Hs Hp Hofs HQ. unfold seek_on. rewrite (proj2 (Z.ltb_ge (f_objsize fp) ofs)) by lia. cbn [andb].
  apply wp_bind. apply (see_seek_to _ _ _ _ _ _ Hs Hp Hofs). intros v1 fp1 Hs1 Eid Ep Hcl. cbn iota beta.
  assert (f_objsize fp1 = f_objsize fp) as Eo by (unfold file_id in Eid; congruence).
  rewrite (proj2 (Z.ltb_ge (f_objsize fp1) (fptr fp1))) by lia. rewrite Ep. unfold seek_sector.
  destruct (Z.eqb_spec (ofs mod SS) 0) as [E0|Hne]; cbn [negb andb].
  { apply wp_ret, HQ; [done| |done|done]. split; rewrite Ep; done. }
  assert (Hk : sector_of (w_geom w) l (ofs / SS)).
  { replace (ofs / SS) with (ofs / SS * SS / SS) by (by rewrite Z.div_mul).
    apply (byte_sector _ Hs). unfold SS in *. Z.div_mod_to_equations. lia. }
  set (s := file_sector (w_geom w) l (ofs / SS)).
  destruct (Z.eqb_spec s (f_sect fp1)) as [Es|Hns]; cbn [negb].
  { apply wp_ret, HQ; [done| |done|done]. split; rewrite Ep; done. }
  apply wp_bind. eapply see_write_back; [exact Hs1|]. intros v2 Hs2. apply wp_bind.
  eapply see_read_buf; [exact Hs2|apply cleaned_clean|exact Hk|]. intros v3 Hs3. fold s in Hs3 |- *. cbn [fst snd].
  change (negb (RES_OK =? RES_OK)) with false. set (fp3 := set_f_sect _ _) in *.
  assert (E3 : fptr fp3 = fptr fp1 /\ f_clust fp3 = f_clust fp1 /\ f_sect fp3 = s)
    by (unfold fp3, cleaned; by case_match). destruct E3 as (E3 & E4 & E5).
  apply wp_ret, HQ; [exact Hs3| | |congruence].
  - split; rewrite E3, Ep; [by rewrite E4|by rewrite E5].
  - rewrite <- Eid, <- (file_id_cleaned fp1). done.
Qed.
End Seek.
