(* ===== verification/FatTheorems.v ===== *)
(** * FatFs: theorems

    What the file functions do to a mounted volume on a drive that works. *)

From stdpp Require Import sets.
From S2P Require Import Prelude FatData FatFs FatPath FatFile FatVolume FatTable FatChain FatAlloc.
From S2P Require Import FatContents FatRead FatWrite FatSeek.

#[local] Open Scope Z_scope.
#[local] Open Scope list_scope.

Section Theorems.
Context {D : Type} `{WorkingDrive D contents online many} (copied : Z -> Prop).
Implicit Types (v : vol D) (w : view) (fp : FIL) (s : ff D).

Abbreviation holds := (holds (contents := contents) (online := online) copied).
Abbreviation sees := (sees (contents := contents) (online := online) copied).
Abbreviation writing := (writing (contents := contents) (online := online) copied).

(** ** The FAT *)

(** [C35]: for FAT12, FAT16 and FAT32 alike, an entry that [put_fat] writes is read back
    by [get_fat], cut to the width of the entries; the entries next to it, which
    share bytes and sectors with it, and all sectors outside of the FAT stay as they
    are. *)
Theorem fat_entries_roundtrip v w c x c' : holds v w -> cluster w c -> cluster w c' ->
  wp (let* res := put_fat c x in let* y := get_fat c' in ret (res, y)) (fun r v' =>
    r = (FR_OK, if c' =? c then x mod fat_mod (g_type (w_geom w)) else entries w c') /\
    exists w', holds v' w' /\ same_data w w') v.
Proof.
  intros Hv Hc Hc'. apply wp_bind. eapply see_put_fat; [exact Hv|exact Hc|]. intros v1 Hv1 _.
  apply wp_bind. eapply see_get_fat; [exact Hv1|exact Hc'|]. intros v2 Hv2 _. apply wp_ret.
  pose proof (holds_volume _ _ _ Hv) as Hw. split.
  - f_equal. exact (put_entry_entries w c Hw Hc x c' Hc').
  - exists (put_entry c x w). split; [exact Hv2|by apply put_entry_data].
Qed.

(** [remove_chain] frees the clusters of a chain and no others: their entries
    become 0, all other entries and all data stay, and [free_clst] still is the
    number of free clusters if it was. *)
Theorem remove_chain_frees v w c l : holds v w -> tidy w -> w_chain w c l -> l <> [] ->
  wp (remove_chain c 0) (fun res v' => res = FR_OK /\ exists w', holds v' w' /\ tidy w' /\
    same_data w w' /\
    forall c', cluster w c' -> entries w' c' = if bool_decide (c' ∈ l) then 0 else entries w c') v.
Proof.
  intros Hv Ht Hl Hne. pose proof (holds_volume _ _ _ Hv) as Hw.
  pose proof (geom_bounds _ (proj1 Hw)) as [Hn _].
  eapply (see_remove_chain copied v w c l 0); [done|done|done|done|by left|].
  intros v' Hv'. split; [done|]. exists (foldl free_one w l). split; [exact Hv'|].
  destruct (free_all_spec l w Hw) as (_ & Hd & He & Ht').
  - by eapply chain_NoDup.
  - intros x. apply (chain_range _ _ _ _ _ Hl).
  - split; [|done]. apply Ht'; [done|]. intros x Hx. apply (chain_nonzero _ _ _ _ _ Hl Hx). lia.
Qed.

(** [create_chain] after the last cluster of a file, or for a new one, returns 0
    only if no cluster is free; otherwise it returns a cluster that was free, links
    it after the last one and marks it as the end; all other entries and all data
    stay, and [free_clst] still is the number of free clusters if it was. *)
Theorem create_chain_extends v w l c : holds v w -> tidy w -> file_chain w c l ->
  wp (create_chain (List.last l 0)) (fun x v' =>
    (x = 0 /\ holds v' w /\ forall c', cluster w c' -> entries w c' <> 0) \/
    (cluster w x /\ entries w x = 0 /\ exists w', holds v' w' /\ tidy w' /\ same_data w w' /\
       file_chain w' (if c =? 0 then x else c) (l ++ [x]) /\
       forall c', cluster w c' -> c' ∉ l -> c' <> x -> entries w' c' = entries w c')) v.
Proof.
  intros Hv Ht Hch. pose proof (holds_volume _ _ _ Hv) as Hw. pose proof (geom_bounds _ (proj1 Hw)) as [Hn _].
  assert (Hnz : forall y, y ∈ l -> cluster w y /\ entries w y <> 0).
  { intros y Hy. split; [by eapply file_chain_clusters|]. unfold file_chain in Hch. destruct (c =? 0).
    { rewrite Hch in Hy. by apply not_elem_of_nil in Hy. }
    apply (chain_nonzero _ _ _ _ _ (proj1 Hch) Hy). lia. }
  assert (Hlast : l = [] /\ List.last l 0 = 0 \/ List.last l 0 ∈ l).
  { destruct l as [|y l' _] using rev_ind; [by left|right]. rewrite List.last_last.
    apply elem_of_app. right. by left. }
  eapply wp_mono.
  { apply (see_create_chain copied v w); [done..|]. destruct Hlast as [[_ ->]|Hin]; [by left|right].
    split; [by apply Hnz|]. unfold file_chain in Hch. destruct l as [|y l' _] using rev_ind; [by apply not_elem_of_nil in Hin|].
    rewrite List.last_last. destruct (c =? 0); [by destruct l'|]. by apply (chain_end _ _ _ _ _ (proj1 Hch)). }
  intros x v' [(-> & Hv' & _ & Hnone)|(Hx & Hx0 & Hv' & _)]; [by left|right].
  assert (Hlk : List.last l 0 = 0 \/ cluster w (List.last l 0) /\ entries w (List.last l 0) <> 0).
  { destruct Hlast as [[_ ->]|Hin]; [by left|right; by apply Hnz]. }
  split; [done|]. split; [done|]. exists (link (List.last l 0) x w). split; [exact Hv'|].
  split; [by apply link_tidy|]. split; [by apply link_data|].
  assert (Hxl : x ∉ l) by (intros Hxl; by apply (Hnz x Hxl)). split.
  - apply (file_chain_grown w c l x); [apply Hw|done|done|done|done|by apply link_entries].
  - intros c' Hc' Hcl Hcx. rewrite link_entries by done. rewrite (proj2 (Z.eqb_neq c' x)) by done.
    destruct (Z.eqb_spec c' (List.last l 0)) as [E|]; [|done].
    destruct Hlast as [[_ E0]|Hin]; [rewrite E0 in E; unfold cluster in Hc'; lia|congruence].
Qed.

(** ** Files *)

(** The volume of the filesystem object [p]. *)
Definition vol_of (p : Z) (s : ff D) : vol D := Vol (ff_objs s p) (ff_drive s).

(** What a call for the volume [p] leaves alone. *)
Definition others (p : Z) (s s' : ff D) : Prop :=
  ff_fatfs s' = ff_fatfs s /\ ff_fsid s' = ff_fsid s /\
  forall q, q <> p -> ff_objs s' q = ff_objs s q.

(** [fp] is open on [p], a file with the clusters [l] in the view [w]. *)
Record opened (p : Z) (s : ff D) (w : view) (l : list Z) (fp : FIL) : Prop := {
  op_sees : sees (vol_of p s) w l fp;
  op_placed : placed w l fp;
  op_fs : f_fs fp = Some p /\ f_id fp = g_id (w_geom w);
  op_err : f_err fp = FR_OK
}.

#[global] Instance others_preorder p : PreOrder (others p).
Proof.
  split; [by intros s|]. intros s1 s2 s3 (E1 & E2 & E3) (F1 & F2 & F3).
  split; [congruence|]. split; [congruence|]. intros q Hq. by rewrite F3, E3.
Qed.

(** A function of the volume [p]. *)
Lemma see_on_fs {A} p (m : FatFs.K (D := D) A) Q s :
  wp m (fun a v' => forall s', vol_of p s' = v' -> others p s s' -> Q a s') (vol_of p s) ->
  wp (on_fs p m) Q s.
Proof.
  intros Hm. apply wp_zoom. eapply wp_mono; [exact Hm|]. intros a v' HQ. apply HQ.
  - unfold vol_of. cbn. rewrite fupd_eq. by destruct v'.
  - split; [done|]. split; [done|]. intros q Hq. cbn. by rewrite fupd_ne.
Qed.

(** [validate] of an open file. *)
Lemma see_opened p s w l fp Q : opened p s w l fp ->
  (forall s', opened p s' w l fp -> others p s s' -> Q (Some p) s') ->
  wp (validate (f_fs fp) (f_id fp)) Q s.
Proof.
  intros [Hs Hp [Efs Eid] He] HQ. rewrite Efs, Eid. pose proof (sees_geom _ Hs) as Hg.
  destruct (sees_fs _ Hs) as (Et & _ & _ & _ & _ & Ep & _). cbn [vol_of v_fs] in Et, Ep.
  unfold validate. apply wp_bind, see_on_fs. unfold the_fs. apply wp_gets. intros s1 E1 O1.
  assert (Egid : fs_id (ff_objs s p) = g_id (w_geom w)).
  { destruct (se_holds _ _ _ _ _ Hs) as (L & Hv & _). pose proof (h_geom _ _ _ Hv) as E. cbn in E. by rewrite <- E. }
  cbn [vol_of v_fs]. rewrite Et, Egid, Z.eqb_refl.
  assert (negb (g_type (w_geom w) =? 0) = true) as ->.
  { destruct (go_type _ Hg) as [E|[E|E]]; by rewrite E. }
  cbn [andb]. rewrite Ep. apply wp_bind, see_on_fs, wp_on_drive. rewrite E1.
  destruct (se_holds _ _ _ _ _ Hs) as (L & Hv & _).
  eapply wp_mono; [apply (wd_status (contents := contents) (many := many)), (h_online _ _ _ Hv)|].
  intros r d (-> & Ho & Hc) s2 E2 O2. change (Z.land 0 STA_NOINIT =? 0) with true. apply wp_ret, HQ.
  - split; [|done|done|done]. rewrite E2. by apply sees_drive.
  - by transitivity s1.
Qed.

Lemma see_f_read p s w l fp buff btr Q : opened p s w l fp -> has_flag fp FA_READ = true ->
  g_csize (w_geom w) <= many -> 0 <= btr <= zlen buff -> let n := Z.min btr (f_objsize fp - fptr fp) in
  (forall s' fp' b, filled buff 0 n (fun i => file_byte w l (fptr fp + i)) b -> opened p s' w l fp' ->
     fptr fp' = fptr fp + n -> file_id fp' = file_id fp -> others p s s' -> Q (FR_OK, fp', b, n) s') ->
  wp (f_read fp buff btr) Q s.
Proof.
  intros Hop Hread Hmany Hbtr n HQ. unfold f_read. apply wp_bind. eapply see_opened; [exact Hop|].
  intros s1 [Hs Hp Hfs He] O1. rewrite He, Hread. change (is_ok FR_OK) with true. cbn [negb].
  destruct (fo_size _ _ _ (se_file _ _ _ _ _ Hs)) as [Hfp Ho]. rewrite u32_small by lia.
  replace (if f_objsize fp - fptr fp <? btr then f_objsize fp - fptr fp else btr)
    with n by (subst n; destruct (Z.ltb_spec (f_objsize fp - fptr fp) btr); lia).
  apply see_on_fs.
  eapply (reads_all copied w l _ Hmany); [exact Hs|exact Hp|lia|lia|lia|lia|lia|].
  intros v2 fp2 b Hs2 Hp2 Ep2 Eid2 Hb s2 E2 O2. rewrite Z.add_0_l.
  assert (f_fs fp2 = f_fs fp /\ f_id fp2 = f_id fp /\ f_err fp2 = f_err fp) as (F1 & F2 & F3)
    by (unfold file_id in Eid2; by simplify_eq).
  apply HQ; [eapply filled_ext; [|exact Hb]; intros j _; cbv beta; f_equal; lia| |done|done|by transitivity s1].
  split; [by rewrite E2|done|by rewrite F1, F2|by rewrite F3].
Qed.

(** [C28]: [f_read] of a file that is open for reading, on a drive that transfers
    a whole cluster at a time ([g_csize <= many]; the drive of the repository does
    so for clusters of one sector, see [FatVirtio]), returns [FR_OK] and puts the
    bytes of the file from the file pointer on into the buffer, as many as asked
    for or up to the end of the file, and nothing else into the buffer; the file
    pointer moves on by their number. The contents of the volume do not change,
    and the pending data in the buffer of the file object is read like what is on
    the drive. *)
Theorem f_read_contents p s w l fp buff btr : opened p s w l fp -> has_flag fp FA_READ = true ->
  g_csize (w_geom w) <= many -> 0 <= btr <= zlen buff -> 
  wp (f_read fp buff btr) (fun r s' => exists fp' b,
    let n := Z.min btr (f_objsize fp - fptr fp) in
    r = (FR_OK, fp', b, n) /\ filled buff 0 n (fun i => file_byte w l (fptr fp + i)) b /\
    opened p s' w l fp' /\ fptr fp' = fptr fp + n /\ file_id fp' = file_id fp /\ others p s s') s.
Proof.
  intros Hop Hread Hmany Hbtr. eapply see_f_read; [exact Hop|done..|].
  intros s' fp' b Hb Hop' Ep Eid O. by exists fp', b.
Qed.

(** An open file after writing: its mode and the place of its entry stay, and it is
    marked for [f_sync]. *)
Definition same_mode (fp fp' : FIL) : Prop :=
  (forall f, Z.land f (Z.lor FA_DIRTY FA_MODIFIED) = 0 -> has_flag fp' f = has_flag fp f) /\
  dir_sect fp' = dir_sect fp /\ dir_ptr fp' = dir_ptr fp /\ has_flag fp' FA_MODIFIED = true.

Lemma wrote_none w l size pos data : tidy w -> wrote w l size pos 0 data w l.
Proof.
  intros Ht. split; try done.
  - exists []. rewrite app_nil_r. split; [done|]. by intros x ?%not_elem_of_nil.
  - intros p Hp Hr. destruct (in_range pos 0 p) eqn:E; [|done]. rewrite in_range_spec in E. lia.
Qed.

Lemma land_ldiff_other a b f : Z.land f b = 0 -> Z.land (Z.ldiff a b) f = Z.land a f.
Proof.
  intros E. apply Z.bits_inj'. intros n _. rewrite !Z.land_spec, Z.ldiff_spec.
  assert (Z.testbit (Z.land f b) n = false) as En by (rewrite E; apply Z.bits_0).
  rewrite Z.land_spec in En.
  by destruct (Z.testbit a n), (Z.testbit b n), (Z.testbit f n).
Qed.

Lemma same_mode_written fp fp' : file_id' fp' = file_id' fp ->
  same_mode fp (add_flag FA_MODIFIED fp').
Proof.
  unfold file_id'. intros E. split; [|split; [by simplify_eq|split; [by simplify_eq|]]].
  2: { unfold has_flag, add_flag. cbn [f_flag set_f_flag]. rewrite Z.land_lor_distr_l. apply negb_true_iff, Z.eqb_neq.
       rewrite Z.lor_eq_0_iff. by intros [_ ?]. }
  intros f Hf. assert (Ef : Z.ldiff (f_flag fp') FA_DIRTY = Z.ldiff (f_flag fp) FA_DIRTY) by congruence.
  unfold has_flag, add_flag. cbn [f_flag set_f_flag]. do 2 f_equal.
  assert (Hm : Z.land f FA_MODIFIED = 0 /\ Z.land f FA_DIRTY = 0).
  { rewrite Z.land_lor_distr_r in Hf. by apply Z.lor_eq_0_iff in Hf as [? ?]. }
  destruct Hm as [Hm Hd]. transitivity (Z.land (f_flag fp') f).
  - rewrite Z.land_lor_distr_l, (Z.land_comm FA_MODIFIED), Hm. apply Z.lor_0_r.
  - by rewrite <- (land_ldiff_other (f_flag fp') FA_DIRTY), Ef, land_ldiff_other.
Qed.

(** What the loop of [f_write] leaves behind. *)
Lemma writing_post p s s1 s' w l fp wbuff v' w' l' fp' n : let fp2 := add_flag FA_MODIFIED fp' in
  f_fs fp = Some p /\ f_id fp = g_id (w_geom w) -> f_err fp = FR_OK ->
  writing w l (f_objsize fp) (fptr fp) wbuff fp n v' w' l' fp' -> placed w' l' fp' ->
  vol_of p s' = v' -> others p s s1 -> others p s1 s' ->
  opened p s' w' l' fp2 /\ fptr fp2 = fptr fp + n /\
  f_objsize fp2 = Z.max (f_objsize fp) (fptr fp + n) /\ same_mode fp fp2 /\ others p s s'.
Proof.
  intros fp2 [Efs Eid] He [Hs' Hw' Ep' Eo' Ei'] Hp' E' O1 O'.
  assert (f_fs fp' = f_fs fp /\ f_id fp' = f_id fp /\ f_err fp' = f_err fp) as (F1 & F2 & F3)
    by (unfold file_id' in Ei'; by simplify_eq).
  split; [|split; [done|split; [done|split; [by apply same_mode_written|by transitivity s1]]]].
  split; [|by destruct Hp'| |by rewrite <- F3 in He].
  - rewrite E'. eapply sees_update; [exact Hs'|done..| |apply (se_file _ _ _ _ _ Hs')].
    unfold fp2, has_flag, add_flag. cbn [f_flag set_f_flag]. by rewrite Z.land_lor_distr_l, Z.lor_0_r.
  - cbn. by rewrite F1, F2, (wr_geom _ _ _ _ _ _ _ _ Hw').
Qed.

(** The number of bytes that fit below 4 GiB. *)
Lemma write_limit a n : 0 <= a < 2 ^ 32 -> 0 <= n < 2 ^ 32 ->
  (if u32 (a + n) <? a then 0xFFFFFFFF - a else n) = Z.min n (2 ^ 32 - 1 - a).
Proof.
  intros Ha Hn. unfold u32. destruct (Z.lt_ge_cases (a + n) (2 ^ 32)) as [Hlt|Hge].
  - rewrite Z.mod_small, (proj2 (Z.ltb_ge _ _)) by lia. lia.
  - rewrite <- (Z_mod_plus_full _ (-1)), Z.mod_small, (proj2 (Z.ltb_lt _ _)) by lia. lia.
Qed.

Lemma see_f_write p s w l fp wbuff btw : opened p s w l fp -> has_flag fp FA_WRITE = true ->
  g_csize (w_geom w) <= many -> tidy w -> Forall is_byte wbuff -> 0 <= btw <= zlen wbuff -> btw < 2 ^ 32 ->
  wp (f_write fp wbuff btw) (fun r s' => exists fp' w' l' n,
    r = (FR_OK, fp', n) /\ 0 <= n <= Z.min btw (2 ^ 32 - 1 - fptr fp) /\
    (n < Z.min btw (2 ^ 32 - 1 - fptr fp) -> forall c, cluster w' c -> entries w' c <> 0) /\
    wrote w l (f_objsize fp) (fptr fp) n wbuff w' l' /\ opened p s' w' l' fp' /\
    fptr fp' = fptr fp + n /\ f_objsize fp' = Z.max (f_objsize fp) (fptr fp + n) /\
    same_mode fp fp' /\ others p s s') s.
Proof.
  intros Hop Hwrite Hmany Ht Hbytes Hbtw H32. unfold f_write. apply wp_bind. eapply see_opened; [exact Hop|].
  intros s1 [Hs Hp Hfs He] O1. rewrite He, Hwrite. change (is_ok FR_OK) with true. cbn [negb].
  destruct (fo_size _ _ _ (se_file _ _ _ _ _ Hs)) as [Hfp Ho]. rewrite write_limit by lia.
  set (m := Z.min _ _). apply see_on_fs.
  assert (Hstart : writing w l (f_objsize fp) (fptr fp) wbuff fp 0 (vol_of p s1) w l fp).
  { split; [done|by apply wrote_none|lia|lia|done]. }
  eapply (writes_all copied w l (f_objsize fp) (fptr fp) wbuff fp Hmany Hbytes);
    [lia|exact Hstart|exact Hp|lia|lia|lia|lia|lia|..].
  - intros v' w' l' fp' n Hwg Hp' Hn Hlt Hnone s' E' O'. exists (add_flag FA_MODIFIED fp'), w', l', n.
    split; [done|]. split; [lia|]. split; [done|]. split; [apply Hwg|]. by eapply writing_post.
  - intros v' w' l' fp' Hwg Hp' s' E' O'. exists (add_flag FA_MODIFIED fp'), w', l', m.
    split; [done|]. split; [lia|]. split; [lia|]. rewrite Z.add_0_l in Hwg.
    split; [apply Hwg|]. by eapply writing_post.
Qed.

(** [C27]: [f_write] to a file that is open for writing, on a drive that transfers
    a whole cluster at a time ([g_csize <= many]; the drive of the repository does
    so for clusters of one sector) and a volume whose count of free clusters is
    right and whose FAT has no entry 1 ([tidy]), returns [FR_OK] and the number of
    bytes it wrote: as many as asked for, unless the file would get longer than 4
    GiB or the last cluster of the disk is taken. They are in the file from the
    file pointer on, over what it had there and after its end; all its other bytes
    stay, and so do the chains of all other files and directories and all sectors
    that are not in the file or the FAT; the clusters the file gets were free, and
    the number of free clusters stays known. *)
Theorem f_write_contents p s w l fp wbuff btw : opened p s w l fp -> has_flag fp FA_WRITE = true ->
  g_csize (w_geom w) <= many -> tidy w -> Forall is_byte wbuff -> 0 <= btw <= zlen wbuff -> btw < 2 ^ 32 ->
  wp (f_write fp wbuff btw) (fun r s' => exists fp' w' l' n,
    r = (FR_OK, fp', n) /\ 0 <= n <= Z.min btw (2 ^ 32 - 1 - fptr fp) /\
    (n < Z.min btw (2 ^ 32 - 1 - fptr fp) -> forall c, cluster w' c -> entries w' c <> 0) /\
    wrote w l (f_objsize fp) (fptr fp) n wbuff w' l' /\ opened p s' w' l' fp' /\
    fptr fp' = fptr fp + n /\ f_objsize fp' = Z.max (f_objsize fp) (fptr fp + n) /\
    same_mode fp fp' /\ others p s s') s.
Proof. exact (see_f_write p s w l fp wbuff btw). Qed.

(** [f_lseek] within the file. *)
Lemma see_lseek p s w l fp ofs Q : opened p s w l fp -> 0 <= ofs <= f_objsize fp ->
  (forall s' fp', opened p s' w l fp' -> fptr fp' = ofs -> file_id fp' = file_id fp -> others p s s' ->
     Q (FR_OK, fp') s') ->
  wp (f_lseek fp ofs) Q s.
Proof.
  intros Hop Hofs HQ. unfold f_lseek. apply wp_bind. eapply see_opened; [exact Hop|].
  intros s1 [Hs Hp [Efs Eid] He] O1. rewrite He. change (is_ok FR_OK) with true. cbn [negb]. apply see_on_fs.
  eapply see_seek_on; [exact Hs|exact Hp|exact Hofs|]. intros v' fp' Hs' Hp' E' Ep' s' Es' O'.
  assert (f_fs fp' = f_fs fp /\ f_id fp' = f_id fp /\ f_err fp' = f_err fp) as (F1 & F2 & F3)
    by (unfold file_id in E'; by simplify_eq).
  apply HQ; [|done|done|by transitivity s1].
  split; [by rewrite Es'|done|by rewrite F1, F2|by rewrite F3].
Qed.

Lemma file_id_mode fp fp' f : file_id fp' = file_id fp -> Z.land f FA_DIRTY = 0 ->
  has_flag fp' f = has_flag fp f.
Proof.
  intros E Hf. assert (Ef : Z.ldiff (f_flag fp') FA_DIRTY = Z.ldiff (f_flag fp) FA_DIRTY)
    by (unfold file_id in E; congruence).
  unfold has_flag. do 2 f_equal. by rewrite <- (land_ldiff_other (f_flag fp') FA_DIRTY), Ef, land_ldiff_other.
Qed.

(** [C29]: What [f_write] has written, [f_read] reads back after [f_lseek] to
    where it was written, at any position in the file and of any length below 4
    GiB, across sectors and clusters, before any of it is flushed; with room on
    the disk that is all of it. The file is open for both, the drive transfers a
    whole cluster at a time ([g_csize <= many]; the drive of the repository does
    so for clusters of one sector), and the volume is [tidy]. *)
Theorem write_seek_read p s w l fp data buff : opened p s w l fp ->
  has_flag fp FA_WRITE = true -> has_flag fp FA_READ = true ->
  g_csize (w_geom w) <= many -> tidy w -> Forall is_byte data -> zlen data <= zlen buff ->
  fptr fp + zlen data < 2 ^ 32 ->
  wp (let* r := f_write fp data (zlen data) in
      let* k := f_lseek r.1.2 (fptr fp) in
      let* x := f_read k.2 buff r.2 in ret (r.2, x)) (fun r s' => exists fp' b n w' l',
    r = (n, (FR_OK, fp', b, n)) /\ take (Z.to_nat n) b = take (Z.to_nat n) data /\
    opened p s' w' l' fp' /\ tidy w' /\ 0 <= n <= zlen data /\
    (n < zlen data -> forall c, cluster w' c -> entries w' c <> 0)) s.
Proof.
  intros Hop Hwr Hrd Hmany Ht Hbytes Hlen H32. pose proof (zlen_nonneg data) as Hd.
  destruct (fo_size _ _ _ (se_file _ _ _ _ _ (op_sees _ _ _ _ _ Hop))) as [Hfp Ho].
  apply wp_bind. eapply wp_mono; [eapply see_f_write; [exact Hop|done..|lia|lia]|].
  intros r s1 (fp1 & w1 & l1 & n & -> & Hn & Hfull & Hw & Hop1 & Ep1 & Eo1 & Hmode & O1). cbn [fst snd].
  rewrite Z.min_l in Hn, Hfull by lia. apply wp_bind.
  eapply see_lseek; [exact Hop1|lia|]. intros s2 fp2 Hop2 Ep2 Eid2 O2. cbn [fst snd]. apply wp_bind.
  assert (f_objsize fp2 = f_objsize fp1) as Eo2 by (unfold file_id in Eid2; congruence).
  eapply see_f_read; [exact Hop2| | |lia|].
  { rewrite (file_id_mode _ _ FA_READ Eid2), (proj1 Hmode) by done. exact Hrd. }
  { by rewrite (wr_geom _ _ _ _ _ _ _ _ Hw). }
  rewrite Z.min_l by lia. intros s3 fp3 b Hb Hop3 _ _ _.
  apply wp_ret. exists fp3, b, n, w1, l1. split; [done|].
  split; [|split; [done|split; [apply (wr_tidy _ _ _ _ _ _ _ _ Hw)|done]]].
  apply bytes_ext; [rewrite !zlen_take; [done|lia|rewrite (proj1 Hb); lia]|].
  intros j Hj. rewrite zlen_take in Hj by (rewrite (proj1 Hb); lia). rewrite !byte_at_take by lia.
  rewrite (proj2 Hb), (proj2 (in_range_spec 0 n j)) by lia. rewrite Ep2, (wr_bytes _ _ _ _ _ _ _ _ Hw) by lia.
  rewrite (proj2 (in_range_spec _ _ _)) by lia. f_equal. lia.
Qed.
End Theorems.
