(* ===== verification/FatMount.v ===== *)
(** * FatFs: finding and mounting a volume

    What is on the disk of a volume that can be mounted, as functions of the bytes
    of the boot sector: [boot_kind] for [check_fs], [find_boot] for [find_volume] and
    [boot_geom] for [mount_volume].  Mounting gives the view of the volume that the
    theorems on files start from. *)

From S2P Require Import Prelude FatData FatFs FatPath FatFile FatVolume FatTable FatChain FatContents FatTheorems.

#[local] Open Scope Z_scope.
#[local] Open Scope list_scope.
#[local] Arguments insertZ : simpl never.
#[local] Arguments lookupZ : simpl never.

(** ** Comparing bytes *)

Definition bytes_at (l : list Z) (i : Z) (n : nat) : list Z :=
  map (fun k => byte_at l (i + Z.of_nat k)) (seq 0 n).

Lemma bytes_at_S l i n : bytes_at l i (S n) = byte_at l i :: bytes_at l (i + 1) n.
Proof.
  unfold bytes_at. cbn [seq map]. rewrite Z.add_0_r. f_equal. rewrite <- seq_shift, map_map.
  apply map_ext. intros k. f_equal. lia.
Qed.

(** ** The boot sector *)

Definition bpb_fasize (b : list Z) : Z :=
  let n := word_at b BPB_FATSz16 in if n =? 0 then dword_at b BPB_FATSz32 else n.
Definition bpb_tsect (b : list Z) : Z :=
  let n := word_at b BPB_TotSec16 in if n =? 0 then dword_at b BPB_TotSec32 else n.

(** The boot sector of a FAT12 or FAT16 volume. *)
Definition fat_bpb (b : list Z) : bool :=
  (word_at b BPB_BytsPerSec =? SS) && negb (byte_at b BPB_SecPerClus =? 0) &&
  pow2 (byte_at b BPB_SecPerClus) && negb (word_at b BPB_RsvdSecCnt =? 0) &&
  ((byte_at b BPB_NumFATs =? 1) || (byte_at b BPB_NumFATs =? 2)) &&
  negb (word_at b BPB_RootEntCnt =? 0) &&
  ((128 <=? word_at b BPB_TotSec16) || (0x10000 <=? dword_at b BPB_TotSec32)) &&
  negb (word_at b BPB_FATSz16 =? 0).

(** [check_fs]: 0 for a FAT volume, 2 for another boot sector, 3 for none. *)
Definition boot_kind (b : list Z) : Z :=
  let signed := word_at b BS_55AA =? 0xAA55 in
  let jump := byte_at b BS_JmpBoot in
  if ((jump =? 0xEB) || (jump =? 0xE9) || (jump =? 0xE8)) &&
     (signed && bool_decide (bytes_at b BS_FilSysType32 8 = FAT32_TYPE) || fat_bpb b)
  then 0 else if signed then 2 else 3.

(** The partitions of a disk that starts with a partition table. *)
Definition partitions (b : list Z) : list Z :=
  map (fun i => dword_at b (MBR_Table + i * SZ_PTE + PTE_StLba)) [0; 1; 2; 3].

(** The last partition is taken whatever it is. *)
Fixpoint find_boot_in (c : Z -> list Z) (l : list Z) : Z * Z :=
  match l with
  | [] => (3, 0)
  | pt :: rest =>
      let kind := if pt =? 0 then 3 else boot_kind (c pt) in
      if (2 <=? kind) && negb (bool_decide (rest = [])) then find_boot_in c rest else (kind, pt)
  end.

(** [find_volume]: the kind, and the sector. *)
Definition find_boot (c : Z -> list Z) : Z * Z :=
  if boot_kind (c 0) =? 2 then find_boot_in c (partitions (c 0)) else (boot_kind (c 0), 0).

(** The sectors before the data area: reserved sectors, FATs and root directory. *)
Definition bpb_sysect (b : list Z) : Z :=
  word_at b BPB_RsvdSecCnt + bpb_fasize b * byte_at b BPB_NumFATs + word_at b BPB_RootEntCnt / (SS / SZDIRE).
Definition bpb_clusters (b : list Z) : Z := (bpb_tsect b - bpb_sysect b) / byte_at b BPB_SecPerClus.
Definition bpb_type (b : list Z) : Z := fat_format (bpb_clusters b).

(** The geometry of the volume with the boot sector [b] in the sector [bsect]. *)
Definition boot_geom (id bsect : Z) (b : list Z) : geom :=
  let nf := byte_at b BPB_NumFATs in
  let fatbase := bsect + word_at b BPB_RsvdSecCnt in
  Geom (bpb_type b) nf (word_at b BPB_RootEntCnt) (byte_at b BPB_SecPerClus) (bpb_clusters b + 2)
    (bpb_fasize b) bsect fatbase
    (if bpb_type b =? FS_FAT32 then dword_at b BPB_RootClus32 else fatbase + bpb_fasize b * nf)
    (bsect + bpb_sysect b) id.

(** The conditions under which [mount_volume] takes it. *)
Definition mountable (b : list Z) : bool :=
  let cs := byte_at b BPB_SecPerClus in
  let nf := byte_at b BPB_NumFATs in
  let nroot := word_at b BPB_RootEntCnt in
  (word_at b BPB_BytsPerSec =? SS) && ((nf =? 1) || (nf =? 2)) && negb (cs =? 0) && pow2 cs &&
  (nroot mod (SS / SZDIRE) =? 0) && negb (word_at b BPB_RsvdSecCnt =? 0) &&
  (bpb_sysect b <=? bpb_tsect b) && negb (bpb_clusters b =? 0) && negb (bpb_type b =? 0) &&
  (if bpb_type b =? FS_FAT32 then (word_at b BPB_FSVer32 =? 0) && (nroot =? 0) else negb (nroot =? 0)) &&
  (fat_size (bpb_type b) (bpb_clusters b + 2) <=? bpb_fasize b * SS).

(** The volume fits: the code computes in 32 bits and does not check that. *)
Definition bpb_fits (bsect : Z) (b : list Z) : Prop :=
  0 <= bsect /\ bpb_sysect b < 2 ^ 32 /\ bsect + bpb_tsect b <= 2 ^ 32.

(** What the FSINFO sector says about the last cluster allocated and the number of
    free clusters, with the flag that says whether to write it. *)
Definition fsinfo (c : Z -> list Z) (bsect : Z) : Z * Z * Z :=
  let b := c bsect in
  let i := c (bsect + 1) in
  if (bpb_type b =? FS_FAT32) && (word_at b BPB_FSInfo32 =? 1) then
    if (word_at i BS_55AA =? 0xAA55) && (dword_at i FSI_LeadSig =? 0x41615252) &&
       (dword_at i FSI_StrucSig =? 0x61417272)
    then (dword_at i FSI_Nxt_Free, dword_at i FSI_Free_Count, 0)
    else (0xFFFFFFFF, 0xFFFFFFFF, 0)
  else (0xFFFFFFFF, 0xFFFFFFFF, 0x80).

Section Mount.
Context {D : Type} `{WorkingDrive D contents online many}.
Implicit Types (v : vol D) (c : Z -> list Z).

(** ** Reading the window *)

Lemma wp_mem_eq n (p q : list Z) i j (Q : bool -> vol D -> Prop) v :
  0 <= i -> i + Z.of_nat n <= zlen p -> 0 <= j -> j + Z.of_nat n <= zlen q ->
  Q (bool_decide (bytes_at p i n = bytes_at q j n)) v -> wp (mem_eq n p i q j) Q v.
Proof.
  revert i j. induction n as [|n IH]; intros i j Hi Hp Hj Hq HQ; cbn [mem_eq].
  { apply wp_ret. by rewrite bool_decide_eq_true_2 in HQ. }
  do 2 (apply wp_bind, wp_array_at; [lia|]). rewrite !bytes_at_S in HQ.
  destruct (Z.eqb_spec (byte_at p i) (byte_at q j)) as [E|E].
  - apply IH; [lia..|]. rewrite E in HQ. erewrite bool_decide_ext; [exact HQ|].
    split; [by intros ->|by intros [= ->]].
  - apply wp_ret. rewrite bool_decide_eq_false_2 in HQ by congruence. done.
Qed.

(** The window holds the sector [s] of the disk [c]. *)
Record loaded c (s : Z) v : Prop := {
  ld_online : online (v_drive v);
  ld_contents : contents (v_drive v) = c;
  ld_range : 0 <= s < 2 ^ 32;
  ld_win : win (v_fs v) = c s;
  ld_sect : winsect (v_fs v) = s;
  ld_flag : wflag (v_fs v) = 0;
  ld_pdrv : pdrv (v_fs v) = 0
}.

Lemma loaded_sector c s v : loaded c s v -> zlen (win (v_fs v)) = SS /\ Forall is_byte (c s) /\ zlen (c s) = SS.
Proof.
  intros [Ho <- Hr Hw _ _ _]. rewrite Hw. by destruct (wd_sector _ _ Ho Hr).
Qed.

(** Changes of other members. *)
Lemma loaded_upd c s v f : loaded c s v -> win (f (v_fs v)) = win (v_fs v) ->
  winsect (f (v_fs v)) = winsect (v_fs v) -> wflag (f (v_fs v)) = wflag (v_fs v) ->
  pdrv (f (v_fs v)) = pdrv (v_fs v) -> loaded c s (Vol (f (v_fs v)) (v_drive v)).
Proof. intros [] E1 E2 E3 E4. split; cbn; congruence. Qed.

Lemma see_get c s v i Q : loaded c s v -> 0 <= i < SS -> Q (byte_at (c s) i) v -> wp (win_get i) Q v.
Proof.
  intros Hv Hi HQ. pose proof (loaded_sector _ _ _ Hv) as (Hl & _). apply wp_bind, wp_gets.
  apply wp_array_at; [lia|]. by rewrite (ld_win _ _ _ Hv).
Qed.

Lemma see_ld_word c s v i Q : loaded c s v -> 0 <= i < SS - 1 -> Q (word_at (c s) i) v -> wp (win_ld_word i) Q v.
Proof.
  intros Hv Hi HQ. pose proof (loaded_sector _ _ _ Hv) as (Hl & Hb & _). apply wp_bind, wp_gets.
  apply wp_ld_word; rewrite ?(ld_win _ _ _ Hv) in *; [done|lia|lia|done].
Qed.

Lemma see_ld_dword c s v i Q : loaded c s v -> 0 <= i < SS - 3 -> Q (dword_at (c s) i) v -> wp (win_ld_dword i) Q v.
Proof.
  intros Hv Hi HQ. pose proof (loaded_sector _ _ _ Hv) as (Hl & Hb & _). apply wp_bind, wp_gets.
  apply wp_ld_dword; rewrite ?(ld_win _ _ _ Hv) in *; [done|lia|lia|done].
Qed.

(** A sector is loaded into a clean window. *)
Lemma see_load c s v Q : online (v_drive v) -> contents (v_drive v) = c -> zlen (win (v_fs v)) = SS ->
  pdrv (v_fs v) = 0 -> wflag (v_fs v) = 0 -> winsect (v_fs v) <> s -> 0 <= s < 2 ^ 32 ->
  (forall v', loaded c s v' -> v_fs v' = set_winsect s (set_win (c s) (v_fs v)) -> Q FR_OK v') ->
  wp (move_window s) Q v.
Proof.
  intros Ho Hc Hl Hp Hf Hne Hs HQ. unfold move_window, the_fs, check, sync_window.
  do 2 wp_step. rewrite (proj2 (Z.eqb_neq _ _)) by congruence. cbv iota. unfold the_fs. do 3 wp_step.
  rewrite Hf. cbn [Z.eqb]. wp_step. change (is_ok FR_OK) with true. cbv iota. do 3 wp_step. rewrite Hp.
  apply wp_on_drive. eapply wp_mono.
  { apply wd_read; [done|lia| |lia|unfold SS in *; lia]. pose proof wd_many. lia. }
  intros r d' (-> & Ho' & Hc'). cbn [fst snd]. change (Z.to_nat 1) with 1%nat.
  rewrite blocks_1, drop_ge, app_nil_r by (unfold zlen, SS in *; lia).
  unfold fs_upd. do 2 wp_step. change (negb (RES_OK =? RES_OK)) with false. cbv iota. wp_steps.
  rewrite Hc. apply HQ; [|done]. split; cbn; congruence || done.
Qed.

(** ** [check_fs] *)

(** A computation that reads only. *)
Definition yields {A} (m : M (vol D) A) (x : A) v : Prop :=
  forall Q : A -> vol D -> Prop, Q x v -> wp m Q v.

Lemma yields_ret {A} (x : A) v : yields (ret x) x v.
Proof. intros Q HQ. by apply wp_ret. Qed.

Lemma yields_andM a b x y v : yields a x v -> yields b y v -> yields (andM a b) (x && y) v.
Proof. intros Ha Hb Q HQ. apply wp_bind, Ha. destruct x; [by apply Hb|by apply wp_ret]. Qed.

Lemma yields_bind {A B} (m : M (vol D) A) (f : A -> M (vol D) B) x y v :
  yields m x v -> yields (f x) y v -> yields (bind m f) y v.
Proof. intros Hm Hf Q HQ. apply wp_bind, Hm. by apply Hf. Qed.

Lemma yields_if {A} (b : bool) (m1 m2 : M (vol D) A) x1 x2 v : yields m1 x1 v -> yields m2 x2 v ->
  yields (if b then m1 else m2) (if b then x1 else x2) v.
Proof. by destruct b. Qed.

Lemma yields_conv {A} (m : M (vol D) A) x y v : yields m x v -> x = y -> yields m y v.
Proof. by intros Hm <-. Qed.

Section Loaded.
Context (c : Z -> list Z) (s : Z) (v : vol D) (Hv : loaded c s v).

Lemma yields_get i : 0 <= i < SS -> yields (win_get i) (byte_at (c s) i) v.
Proof. intros Hi Q. by eapply see_get. Qed.
Lemma yields_word i : 0 <= i < SS - 1 -> yields (win_ld_word i) (word_at (c s) i) v.
Proof. intros Hi Q. by eapply see_ld_word. Qed.
Lemma yields_dword i : 0 <= i < SS - 3 -> yields (win_ld_dword i) (dword_at (c s) i) v.
Proof. intros Hi Q. by eapply see_ld_dword. Qed.
Lemma yields_eq n i q : 0 <= i -> i + Z.of_nat n <= SS -> zlen q = Z.of_nat n ->
  yields (let* fs := the_fs in mem_eq n (win fs) i q 0) (bool_decide (bytes_at (c s) i n = bytes_at q 0 n)) v.
Proof.
  intros Hi Hn Hq Q HQ. pose proof (loaded_sector _ _ _ Hv) as (Hl & _). apply wp_bind, wp_gets.
  apply wp_mem_eq; [lia..|]. by rewrite (ld_win _ _ _ Hv).
Qed.
End Loaded.

Ltac yield :=
  lazymatch goal with
  | |- yields (ret _) _ _ => apply yields_ret
  | |- yields (win_get _) _ _ => eapply yields_get; [eassumption|vm_compute; intuition discriminate]
  | |- yields (win_ld_word _) _ _ => eapply yields_word; [eassumption|vm_compute; intuition discriminate]
  | |- yields (win_ld_dword _) _ _ => eapply yields_dword; [eassumption|vm_compute; intuition discriminate]
  | |- yields (bind the_fs _) _ _ => eapply yields_eq; [eassumption|vm_compute; intuition discriminate..|reflexivity]
  | |- yields (andM _ _) _ _ => eapply yields_andM
  | |- yields (bind _ _) _ _ => eapply yields_bind; cbn beta
  | |- yields (if _ then _ else _) _ _ => eapply yields_if
  end.

Lemma size_test w : pow2 w && (SS <=? w) && (w <=? SS) = (w =? SS).
Proof.
  destruct (Z.eqb_spec w SS) as [->|Hne]; [done|].
  destruct (Z.leb_spec SS w), (Z.leb_spec w SS); rewrite ?andb_false_r; done || lia.
Qed.

Lemma fats_test n : is_byte n -> (u32 (n - 1) <=? 1) = (n =? 1) || (n =? 2).
Proof.
  unfold is_byte, u32. intros Hn. destruct (Z.eqb_spec n 0) as [->|]; [done|].
  rewrite Z.mod_small by lia. destruct (Z.leb_spec (n - 1) 1), (Z.eqb_spec n 1), (Z.eqb_spec n 2); cbn; done || lia.
Qed.

(** The conditions of [check_fs] on the parameters of the volume. *)
Lemma yields_fat_bpb c s v : loaded c s v ->
  let w := word_at (c s) BPB_BytsPerSec in let b := byte_at (c s) BPB_SecPerClus in
  yields (andM (ret (pow2 w && (SS <=? w) && (w <=? SS) && negb (b =? 0) && pow2 b))
      (andM (let* n := win_ld_word BPB_RsvdSecCnt in ret (negb (n =? 0)))
      (andM (let* n := win_get BPB_NumFATs in ret (u32 (n - 1) <=? 1))
      (andM (let* n := win_ld_word BPB_RootEntCnt in ret (negb (n =? 0)))
      (andM (let* n := win_ld_word BPB_TotSec16 in
             if 128 <=? n then ret true else
             let* n := win_ld_dword BPB_TotSec32 in ret (0x10000 <=? n))
            (let* n := win_ld_word BPB_FATSz16 in ret (negb (n =? 0)))))))) (fat_bpb (c s)) v.
Proof.
  intros Hv w b. pose proof (loaded_sector _ _ _ Hv) as (_ & Hb & _).
  eapply yields_conv; [repeat yield|]. unfold fat_bpb. rewrite size_test, fats_test by by apply byte_at_range.
  by rewrite !andb_assoc.
Qed.

Lemma see_check_fs c s v Q : online (v_drive v) -> contents (v_drive v) = c -> zlen (win (v_fs v)) = SS ->
  pdrv (v_fs v) = 0 -> 0 <= s < 2 ^ 32 - 1 ->
  (forall v', loaded c s v' -> Q (boot_kind (c s)) v') -> wp (check_fs s) Q v.
Proof.
  intros Ho Hc Hl Hp Hs HQ. unfold check_fs, fs_upd. do 3 wp_step.
  apply (see_load c); [done|done|done|done|done|cbn; vm_compute (u32 (0 - 1)); lia|lia|].
  intros v1 Hv1 _. change (is_ok FR_OK) with true. cbn [negb]. specialize (HQ v1 Hv1).
  apply wp_bind. eapply yields_word; [done|vm_compute; intuition discriminate|].
  apply wp_bind. eapply yields_get; [done|vm_compute; intuition discriminate|].
  unfold boot_kind in HQ. cbv zeta in HQ. destruct (_ || _); cbn [andb] in HQ; [|destruct (_ =? _); by apply wp_ret].
  apply wp_bind. eapply yields_if; [repeat yield|repeat yield|]. cbv beta.
  change (bytes_at FAT32_TYPE 0 8) with FAT32_TYPE. 
  destruct (word_at (c s) BS_55AA =? 0xAA55); cbn [andb orb] in HQ.
  - destruct (bool_decide _); cbn [orb] in HQ; [by apply wp_ret|].
    apply wp_bind. eapply yields_word; [done|vm_compute; intuition discriminate|].
    apply wp_bind. eapply yields_get; [done|vm_compute; intuition discriminate|].
    apply wp_bind, (yields_fat_bpb c s v1 Hv1). by destruct (fat_bpb (c s)); apply wp_ret.
  - apply wp_bind. eapply yields_word; [done|vm_compute; intuition discriminate|].
    apply wp_bind. eapply yields_get; [done|vm_compute; intuition discriminate|].
    apply wp_bind, (yields_fat_bpb c s v1 Hv1). by destruct (fat_bpb (c s)); apply wp_ret.
Qed.
(** ** [find_volume] *)

Lemma dword_at_range l i : Forall is_byte l -> 0 <= dword_at l i < 2 ^ 32.
Proof.
  intros Hl. pose proof (byte_at_range l i Hl). pose proof (byte_at_range l (i + 1) Hl).
  pose proof (byte_at_range l (i + 2) Hl). pose proof (byte_at_range l (i + 2 + 1) Hl).
  unfold dword_at, word_at, is_byte in *. lia.
Qed.

Lemma word_at_range l i : Forall is_byte l -> 0 <= word_at l i < 2 ^ 16.
Proof.
  intros Hl. pose proof (byte_at_range l i Hl). pose proof (byte_at_range l (i + 1) Hl).
  unfold word_at, is_byte in *. lia.
Qed.

(** Nothing but the window has changed, and it is clean. *)
Definition probing c v : Prop :=
  online (v_drive v) /\ contents (v_drive v) = c /\ zlen (win (v_fs v)) = SS /\ pdrv (v_fs v) = 0.

Lemma loaded_probing c s v : loaded c s v -> probing c v.
Proof. intros Hv. pose proof (loaded_sector _ _ _ Hv) as (Hl & _). by destruct Hv. Qed.

Lemma see_try_partitions c l v Q : probing c v -> Forall (fun pt => 0 <= pt < 2 ^ 32 - 1) l ->
  (forall v', probing c v' -> ((find_boot_in c l).1 < 2 -> loaded c (find_boot_in c l).2 v') ->
     Q (find_boot_in c l).1 v') ->
  wp (try_partitions l) Q v.
Proof.
  revert v Q. induction l as [|pt l IH]; intros v Q Hv Hl HQ.
  { apply wp_ret, HQ; [done|]. cbn. lia. }
  apply Forall_cons in Hl as [Hpt Hl]. cbn [try_partitions find_boot_in] in *. apply wp_bind.
  pose proof Hv as (Ho & Hc & Hz & Hp).
  assert (Hnext : forall kind v1, probing c v1 -> (kind < 2 -> loaded c pt v1) ->
    kind = (if pt =? 0 then 3 else boot_kind (c pt)) ->
    wp (if (2 <=? kind) && negb (bool_decide (l = [])) then try_partitions l else ret kind) Q v1).
  { intros kind v1 Hv1 Hk ->. destruct (_ && _); [by apply IH|]. by apply wp_ret, HQ. }
  destruct (Z.eqb_spec pt 0) as [->|Hne]; cbn [negb].
  - apply wp_ret. by apply Hnext; [done|lia|].
  - apply (see_check_fs c); [done..|]. intros v1 Hv1. apply Hnext; [by eapply loaded_probing|done|done].
Qed.

Definition partitions_ok c : Prop := Forall (fun pt => pt <> 2 ^ 32 - 1) (partitions (c 0)).

Lemma see_find_volume c v Q : probing c v -> partitions_ok c ->
  (forall v', probing c v' -> ((find_boot c).1 < 2 -> loaded c (find_boot c).2 v') -> Q (find_boot c).1 v') ->
  wp find_volume Q v.
Proof.
  intros (Ho & Hc & Hz & Hp) Hpt HQ. unfold find_volume. apply wp_bind.
  apply (see_check_fs c); [done|done|done|done|lia|]. intros v1 Hv1. unfold find_boot in HQ.
  destruct (Z.eqb_spec (boot_kind (c 0)) 2) as [E|E]; cbn [negb].
  - do 4 (apply wp_bind; eapply yields_dword; [exact Hv1|vm_compute; intuition discriminate|]).
    apply (see_try_partitions c (partitions (c 0))); [by eapply loaded_probing| |exact HQ].
    pose proof (loaded_sector _ _ _ Hv1) as (_ & Hb & _). unfold partitions_ok in Hpt.
    rewrite List.Forall_forall in Hpt |- *. intros pt Hin. specialize (Hpt pt Hin).
    apply List.in_map_iff in Hin as (i & <- & _). pose proof (dword_at_range (c 0) (MBR_Table + i * SZ_PTE + PTE_StLba) Hb). lia.
  - apply wp_ret, HQ; [by eapply loaded_probing|]. intros _. exact Hv1.
Qed.
(** ** [mount_volume] *)

Lemma see_upd c s v f Q : loaded c s v ->
  win (f (v_fs v)) = win (v_fs v) /\ winsect (f (v_fs v)) = winsect (v_fs v) /\
  wflag (f (v_fs v)) = wflag (v_fs v) /\ pdrv (f (v_fs v)) = pdrv (v_fs v) ->
  (forall v', loaded c s v' -> v_fs v' = f (v_fs v) -> Q tt v') -> wp (fs_upd f) Q v.
Proof.
  intros Hv (E1 & E2 & E3 & E4) HQ. apply wp_modify, HQ; [|done]. by apply loaded_upd.
Qed.

(** The geometry and the counters in the object, whatever its type and id. *)
Definition set_up c (bsect : Z) (fs : FATFS) : Prop :=
  (forall id, geom_of (set_fs_type (bpb_type (c bsect)) (set_fs_id id fs)) = boot_geom id bsect (c bsect)) /\
  (last_clst fs, free_clst fs, fsi_flag fs) = fsinfo c bsect.

Definition geom_set c (bsect : Z) (fs : FATFS) : Prop :=
  forall id, geom_of (set_fs_type (bpb_type (c bsect)) (set_fs_id id fs)) = boot_geom id bsect (c bsect).

Lemma geom_set_counts c bsect v f : geom_set c bsect (v_fs v) ->
  (forall id t, geom_of (set_fs_type t (set_fs_id id (f (v_fs v)))) = geom_of (set_fs_type t (set_fs_id id (v_fs v)))) ->
  geom_set c bsect (f (v_fs v)).
Proof. intros Hg E id. by rewrite E. Qed.

Lemma see_load_fsinfo c bsect v Q : loaded c bsect v -> geom_set c bsect (v_fs v) -> bsect + 1 < 2 ^ 32 ->
  (forall s v', s = bsect \/ s = bsect + 1 -> loaded c s v' -> set_up c bsect (v_fs v') -> Q tt v') ->
  wp (load_fsinfo (bpb_type (c bsect)) bsect) Q v.
Proof.
  intros Hv Hg Hs HQ. unfold load_fsinfo. unfold set_up, fsinfo in HQ. apply wp_bind.
  eapply see_upd; [exact Hv|done|]. intros v1 Hv1 E1.
  assert (Hg1 : geom_set c bsect (v_fs v1)) by (intros id; rewrite E1; apply (Hg id)).
  pose proof (ld_range _ _ _ Hv) as Hr. apply wp_bind. unfold andM at 1. apply wp_bind, wp_ret.
  destruct (bpb_type (c bsect) =? FS_FAT32); cbn [andb] in HQ.
  2: { apply wp_ret, wp_ret. eapply HQ; [by left|exact Hv1|]. split; [exact Hg1|by rewrite E1]. }
  unfold andM at 1. apply wp_bind, wp_bind. eapply yields_word; [exact Hv1|vm_compute; intuition discriminate|].
  apply wp_ret. destruct (word_at (c bsect) BPB_FSInfo32 =? 1).
  2: { apply wp_ret, wp_ret. eapply HQ; [by left|exact Hv1|]. split; [exact Hg1|by rewrite E1]. }
  apply wp_bind. unfold u32. rewrite Z.mod_small by lia. pose proof (loaded_sector _ _ _ Hv1) as (Hl & _).
  apply (see_load c); [apply Hv1|apply Hv1|done|apply Hv1|apply Hv1|rewrite (ld_sect _ _ _ Hv1); lia|lia|].
  intros v2 Hv2 E2. apply wp_ret. change (is_ok FR_OK) with true. cbv iota. apply wp_bind.
  eapply see_upd; [exact Hv2|done|]. intros v3 Hv3 E3.
  assert (Hg3 : geom_set c bsect (v_fs v3)) by (intros id; rewrite E3, E2; apply (Hg1 id)).
  apply wp_bind. eapply yields_conv; [repeat yield|by rewrite andb_assoc|].
  destruct (_ && _ && _).
  2: { apply wp_ret. eapply HQ; [by right|exact Hv3|]. split; [exact Hg3|by rewrite E3, E2, E1]. }
  apply wp_bind. eapply yields_dword; [exact Hv3|vm_compute; intuition discriminate|]. apply wp_bind.
  eapply see_upd; [exact Hv3|done|]. intros v4 Hv4 E4. apply wp_bind.
  eapply yields_dword; [exact Hv4|vm_compute; intuition discriminate|].
  eapply see_upd; [exact Hv4|done|]. intros v5 Hv5 E5. eapply HQ; [by right|exact Hv5|]. split.
  - intros id. rewrite E5, E4. apply (Hg3 id).
  - by rewrite E5, E4, E3.
Qed.
(** The numbers of a boot sector that fit. *)
Lemma pow2_div_le a b : 0 <= a -> 1 <= b -> 0 <= a / b <= a.
Proof. intros Ha Hb. split; [apply Z.div_pos; lia|]. apply Z.div_le_upper_bound; nia. Qed.

Section ReadBpb.
Context (c : Z -> list Z) (bsect : Z) (Hfits : bpb_fits bsect (c bsect)).
Context (Hbytes : Forall is_byte (c bsect)).
Abbreviation b := (c bsect).

Lemma fasize_range : 0 <= bpb_fasize b < 2 ^ 32.
Proof.
  unfold bpb_fasize. pose proof (word_at_range b BPB_FATSz16 Hbytes). pose proof (dword_at_range b BPB_FATSz32 Hbytes).
  cbv zeta. destruct (_ =? 0); lia.
Qed.

Lemma sysect_parts : 0 <= bpb_fasize b * byte_at b BPB_NumFATs < 2 ^ 32 /\
  0 <= word_at b BPB_RsvdSecCnt < 2 ^ 16 /\ 0 <= word_at b BPB_RootEntCnt / (SS / SZDIRE) /\
  bpb_sysect b = word_at b BPB_RsvdSecCnt + bpb_fasize b * byte_at b BPB_NumFATs +
    word_at b BPB_RootEntCnt / (SS / SZDIRE) /\ 0 <= bpb_sysect b < 2 ^ 32.
Proof.
  destruct Hfits as (_ & Hs & _). pose proof fasize_range. pose proof (byte_at_range b BPB_NumFATs Hbytes).
  pose proof (word_at_range b BPB_RsvdSecCnt Hbytes). pose proof (word_at_range b BPB_RootEntCnt Hbytes).
  unfold is_byte, bpb_sysect in *. change (SS / SZDIRE) with 16 in *.
  assert (0 <= word_at b BPB_RootEntCnt / 16) by (apply Z.div_pos; lia).
  assert (0 <= bpb_fasize b * byte_at b BPB_NumFATs) by (apply Z.mul_nonneg_nonneg; lia). lia.
Qed.

(** What the conditions give. *)
Lemma clusters_facts : byte_at b BPB_SecPerClus <> 0 -> bpb_sysect b <= bpb_tsect b -> bpb_clusters b <> 0 ->
  bpb_type b <> 0 ->
  1 <= byte_at b BPB_SecPerClus < 256 /\ 1 <= bpb_clusters b <= MAX_FAT32 /\
  byte_at b BPB_SecPerClus * bpb_clusters b <= bpb_tsect b - bpb_sysect b.
Proof.
  intros Hcs Hle Hn Ht. pose proof (byte_at_range b BPB_SecPerClus Hbytes) as Hb. unfold is_byte in Hb.
  split; [lia|]. assert (0 <= bpb_clusters b) by (apply Z.div_pos; lia).
  assert (byte_at b BPB_SecPerClus * bpb_clusters b <= bpb_tsect b - bpb_sysect b) by (apply Z.mul_div_le; lia).
  split; [|done]. split; [lia|]. unfold bpb_type, fat_format, MAX_FAT12, MAX_FAT16, MAX_FAT32 in *.
  destruct (Z.leb_spec (bpb_clusters b) 4085), (Z.leb_spec (bpb_clusters b) 65525),
    (Z.leb_spec (bpb_clusters b) 268435445); lia.
Qed.

Lemma mountable_clusters : mountable b = true ->
  bpb_sysect b <= bpb_tsect b /\ 1 <= byte_at b BPB_SecPerClus < 256 /\ 1 <= bpb_clusters b <= MAX_FAT32 /\
  byte_at b BPB_SecPerClus * bpb_clusters b <= bpb_tsect b - bpb_sysect b.
Proof.
  unfold mountable. cbv zeta. intros Hm. breflect.
  destruct Hm as ((((((((((_ & _) & Hcs) & _) & _) & _) & Hle) & Hn) & Ht) & _) & _).
  split; [done|]. by apply clusters_facts.
Qed.

(** The test of the size of the FAT. *)
Lemma fat_room sz n : 0 <= sz < 2 ^ 32 - 512 ->
  (n <? u32 (sz + (SS - 1)) / SS) = negb (sz <=? n * SS).
Proof.
  intros Hsz. unfold u32, SS. rewrite Z.mod_small by lia.
  destruct (Z.ltb_spec n ((sz + (512 - 1)) / 512)), (Z.leb_spec sz (n * 512)); cbn; try done; Z.div_mod_to_equations; lia.
Qed.
End ReadBpb.
(** The geometry of a volume that is taken. *)
Lemma boot_geom_ok c id bsect : Forall is_byte (c bsect) -> bpb_fits bsect (c bsect) ->
  mountable (c bsect) = true -> geom_ok (boot_geom id bsect (c bsect)).
Proof.
  intros Hb Hf Hm. destruct (mountable_clusters c bsect Hb Hm) as (Hle & Hcs & Hn & Hmul).
  destruct (sysect_parts c bsect Hf Hb) as (Hp & Hr & Hd & Es & Hs). destruct Hf as (Hb0 & _ & Hend).
  pose proof (fasize_range c bsect Hb) as Hfa.
  unfold mountable in Hm. cbv zeta in Hm. breflect.
  destruct Hm as ((((((((((_ & Hnf) & _) & Hpow) & _) & Hrsv) & _) & _) & Ht) & _) & Hroom).
  split; unfold boot_geom; cbn [g_type g_fats g_csize g_entries g_fsize g_fatbase g_database].
  - unfold bpb_type, fat_format in *. repeat case_match; auto. done.
  - exact Hnf.
  - split; [lia|]. unfold pow2 in Hpow. by apply Z.eqb_eq.
  - split; [lia|]. unfold bpb_type, fat_format, max_clusters in *.
    destruct (Z.leb_spec (bpb_clusters (c bsect)) MAX_FAT12); [cbn; lia|].
    destruct (Z.leb_spec (bpb_clusters (c bsect)) MAX_FAT16); [cbn; lia|].
    destruct (Z.leb_spec (bpb_clusters (c bsect)) MAX_FAT32); [cbn; lia|done].
  - exact Hroom.
  - lia.
  - nia.
  - lia.
Qed.

Lemma fat_size_small type n : 0 <= n <= 0x0FFFFFF7 -> 0 <= fat_size type n < 2 ^ 32 - 512.
Proof.
  intros Hn. unfold fat_size. repeat case_match; Z.div_mod_to_equations; lia.
Qed.

(** The size of the FAT as it is computed for FAT12 and FAT16. *)
Lemma fat_size_u32 type n : type = FS_FAT12 \/ type = FS_FAT16 -> 0 <= n <= 0x0FFFFFF7 ->
  (if type =? FS_FAT16 then u32 (n * 2) else u32 (u32 (n * 3) / 2 + Z.land n 1)) = fat_size type n.
Proof.
  intros [-> | ->] Hn; unfold fat_size; cbn [Z.eqb Pos.eqb FS_FAT12 FS_FAT16]; [|apply u32_small; lia].
  change 1 with (Z.ones 1). rewrite Z.land_ones by lia. change (2 ^ 1) with 2.
  rewrite (u32_small (n * 3)) by lia. apply u32_small. Z.div_mod_to_equations. lia.
Qed.

Lemma bpb_type_cases b : bpb_type b = FS_FAT12 \/ bpb_type b = FS_FAT16 \/ bpb_type b = FS_FAT32 \/ bpb_type b = 0.
Proof. unfold bpb_type, fat_format. repeat case_match; auto. Qed.

(** The last step of [read_bpb]. *)
Lemma see_finish c bsect v sz Q : loaded c bsect v -> geom_set c bsect (v_fs v) -> bsect + 1 < 2 ^ 32 ->
  0 <= sz < 2 ^ 32 - 512 ->
  (sz <= bpb_fasize (c bsect) * SS -> forall s v', s = bsect \/ s = bsect + 1 -> loaded c s v' ->
     set_up c bsect (v_fs v') -> Q (inl (bpb_type (c bsect))) v') ->
  (bpb_fasize (c bsect) * SS < sz -> Q (inr FR_NO_FILESYSTEM) v) ->
  wp (if bpb_fasize (c bsect) <? u32 (sz + (SS - 1)) / SS then ret (inr FR_NO_FILESYSTEM) else
      do* load_fsinfo (bpb_type (c bsect)) bsect in ret (inl (bpb_type (c bsect)))) Q v.
Proof.
  intros Hv Hg Hs Hsz HQ1 HQ2. rewrite fat_room by done.
  destruct (Z.leb_spec sz (bpb_fasize (c bsect) * SS)); cbn [negb]; [|by apply wp_ret, HQ2].
  apply wp_bind. eapply see_load_fsinfo; [exact Hv|exact Hg|done|]. intros s v' Hs' Hv' Hset.
  apply wp_ret. by eapply HQ1.
Qed.

(** The part of [read_bpb] after the number of clusters is known. *)
Definition parts_set c (bsect : Z) (fs : FATFS) : Prop :=
  fsize fs = bpb_fasize (c bsect) /\ n_fats fs = byte_at (c bsect) BPB_NumFATs /\
  csize fs = byte_at (c bsect) BPB_SecPerClus /\ n_rootdir fs = word_at (c bsect) BPB_RootEntCnt.

(** The conditions that are left then. *)
Definition root_fits (b : list Z) : bool :=
  (if bpb_type b =? FS_FAT32 then (word_at b BPB_FSVer32 =? 0) && (word_at b BPB_RootEntCnt =? 0)
   else negb (word_at b BPB_RootEntCnt =? 0)) &&
  (fat_size (bpb_type b) (bpb_clusters b + 2) <=? bpb_fasize b * SS).

Definition read_root (c : Z -> list Z) (bsect : Z) : FatFs.K (D := D) (Z + FRESULT) :=
  let b := c bsect in let no_fs := ret (inr FR_NO_FILESYSTEM) in
  let finish sz := if bpb_fasize b <? u32 (sz + (SS - 1)) / SS then no_fs else
    do* load_fsinfo (bpb_type b) bsect in ret (inl (bpb_type b)) in
  let nent := u32 (bpb_clusters b + 2) in
  do* fs_upd (fun fs => set_database (u32 (bsect + bpb_sysect b)) (set_fatbase (u32 (bsect + word_at b BPB_RsvdSecCnt))
                (set_volbase bsect (set_n_fatent nent fs)))) in
  if bpb_type b =? FS_FAT32 then
    let* ver := win_ld_word BPB_FSVer32 in
    if negb (ver =? 0) then no_fs else
    if negb (word_at b BPB_RootEntCnt =? 0) then no_fs else
    let* root := win_ld_dword BPB_RootClus32 in
    do* fs_upd (set_dirbase root) in
    finish (u32 (nent * 4))
  else
    if word_at b BPB_RootEntCnt =? 0 then no_fs else
    do* fs_upd (set_dirbase (u32 (u32 (bsect + word_at b BPB_RsvdSecCnt) + bpb_fasize b * byte_at b BPB_NumFATs))) in
    finish (if bpb_type b =? FS_FAT16 then u32 (nent * 2) else u32 (u32 (nent * 3) / 2 + Z.land nent 1)).

Lemma see_read_root c bsect v Q : loaded c bsect v -> bpb_fits bsect (c bsect) -> parts_set c bsect (v_fs v) ->
  byte_at (c bsect) BPB_SecPerClus <> 0 -> word_at (c bsect) BPB_RsvdSecCnt <> 0 ->
  bpb_sysect (c bsect) <= bpb_tsect (c bsect) -> bpb_clusters (c bsect) <> 0 -> bpb_type (c bsect) <> 0 ->
  (root_fits (c bsect) = true -> forall s v', s = bsect \/ s = bsect + 1 -> loaded c s v' ->
     set_up c bsect (v_fs v') -> Q (inl (bpb_type (c bsect))) v') ->
  (root_fits (c bsect) = false -> forall v', loaded c bsect v' -> Q (inr FR_NO_FILESYSTEM) v') ->
  wp (read_root c bsect) Q v.
Proof.
  intros Hv Hfits (P1 & P2 & P3 & P4) Hcs Hrsv Hle Hn Ht HQ1 HQ2. pose proof (loaded_sector _ _ _ Hv) as (_ & Hb & _).
  destruct (clusters_facts c bsect Hb Hcs Hle Hn Ht) as (Hcs' & Hn' & Hmul).
  destruct (sysect_parts c bsect Hfits Hb) as (Hp & Hr & Hd & Es & Hs).
  pose proof Hfits as (Hb0 & _ & Hend). unfold root_fits in HQ1, HQ2. unfold MAX_FAT32 in Hn'.
  unfold read_root. cbv zeta. rewrite !(u32_small (bpb_clusters _ + 2)), !u32_small by nia.
  apply wp_bind. eapply see_upd; [exact Hv|done|]. intros v1 Hv1 E1.
  assert (Hsz : 0 <= fat_size (bpb_type (c bsect)) (bpb_clusters (c bsect) + 2) < 2 ^ 32 - 512)
    by (apply fat_size_small; lia).
  assert (Hend' : bsect + 1 < 2 ^ 32) by nia.
  destruct (Z.eqb_spec (bpb_type (c bsect)) FS_FAT32) as [E|E].
  - apply wp_bind. eapply yields_word; [exact Hv1|vm_compute; intuition discriminate|].
    destruct (word_at (c bsect) BPB_FSVer32 =? 0); cbn [negb andb] in *; [|by apply wp_ret, HQ2].
    destruct (word_at (c bsect) BPB_RootEntCnt =? 0); cbn [negb andb] in *; [|by apply wp_ret, HQ2].
    apply wp_bind. eapply yields_dword; [exact Hv1|vm_compute; intuition discriminate|].
    apply wp_bind. eapply see_upd; [exact Hv1|done|]. intros v2 Hv2 E2.
    replace (u32 ((bpb_clusters (c bsect) + 2) * 4)) with (fat_size (bpb_type (c bsect)) (bpb_clusters (c bsect) + 2)).
    2: { rewrite E, u32_small by lia. reflexivity. }
    apply see_finish; [exact Hv2| |done|done| |].
    + intros id. rewrite E2, E1. unfold geom_of, boot_geom. cbn. rewrite E. cbn. by rewrite P1, P2, P3, P4.
    + intros Hroom. apply HQ1. by apply Z.leb_le.
    + intros Hroom. apply HQ2; [by apply Z.leb_gt|done].
  - destruct (word_at (c bsect) BPB_RootEntCnt =? 0); cbn [negb andb] in *; [by apply wp_ret, HQ2|].
    apply wp_bind. eapply see_upd; [exact Hv1|done|]. intros v2 Hv2 E2.
    replace (if bpb_type (c bsect) =? FS_FAT16 then _ else _)
      with (fat_size (bpb_type (c bsect)) (bpb_clusters (c bsect) + 2)).
    2: { symmetry. apply fat_size_u32; [|lia]. destruct (bpb_type_cases (c bsect)) as [?|[?|[?|?]]]; tauto. }
    apply see_finish; [exact Hv2| |done|done| |].
    + intros id. rewrite E2, E1. unfold geom_of, boot_geom. cbn.
      rewrite (proj2 (Z.eqb_neq _ _) E), u32_small by nia. by rewrite P1, P2, P3, P4.
    + intros Hroom. apply HQ1. by apply Z.leb_le.
    + intros Hroom. apply HQ2; [by apply Z.leb_gt|done].
Qed.

Lemma see_read_bpb c bsect v Q : loaded c bsect v -> bpb_fits bsect (c bsect) ->
  (mountable (c bsect) = true -> forall s v', s = bsect \/ s = bsect + 1 -> loaded c s v' ->
     set_up c bsect (v_fs v') -> Q (inl (bpb_type (c bsect))) v') ->
  (mountable (c bsect) = false -> forall v', loaded c bsect v' -> Q (inr FR_NO_FILESYSTEM) v') ->
  wp read_bpb Q v.
Proof.
  intros Hv Hfits HQ1 HQ2. pose proof (loaded_sector _ _ _ Hv) as (_ & Hb & _).
  destruct (sysect_parts c bsect Hfits Hb) as (Hp & Hr & Hd & Es & Hs). pose proof (ld_sect _ _ _ Hv) as Ews.
  unfold read_bpb, the_fs. do 2 wp_step. rewrite Ews.
  unfold mountable in HQ1, HQ2. cbv zeta in HQ1, HQ2.
  apply wp_bind. eapply yields_word; [exact Hv|vm_compute; intuition discriminate|].
  destruct (word_at (c bsect) BPB_BytsPerSec =? SS); cbn [negb andb] in HQ1, HQ2 |- *; [|by apply wp_ret, HQ2].
  apply wp_bind. eapply yields_word; [exact Hv|vm_compute; intuition discriminate|].
  apply wp_bind. eapply (yields_conv _ _ (bpb_fasize (c bsect))); [repeat yield|reflexivity|].
  apply wp_bind. eapply see_upd; [exact Hv|done|]. intros v1 Hv1 E1.
  apply wp_bind. eapply yields_get; [exact Hv1|vm_compute; intuition discriminate|].
  apply wp_bind. eapply see_upd; [exact Hv1|done|]. intros v2 Hv2 E2. rewrite <- negb_orb.
  destruct (_ || _); cbn [negb andb] in HQ1, HQ2 |- *; [|by apply wp_ret, HQ2].
  apply wp_bind. eapply yields_get; [exact Hv2|vm_compute; intuition discriminate|].
  apply wp_bind. eapply see_upd; [exact Hv2|done|]. intros v3 Hv3 E3.
  destruct (Z.eqb_spec (byte_at (c bsect) BPB_SecPerClus) 0) as [|Hcs]; cbn [negb andb orb] in HQ1, HQ2 |- *; [by apply wp_ret, HQ2|].
  destruct (pow2 _); cbn [negb andb] in HQ1, HQ2 |- *; [|by apply wp_ret, HQ2].
  apply wp_bind. eapply yields_word; [exact Hv3|vm_compute; intuition discriminate|].
  apply wp_bind. eapply see_upd; [exact Hv3|done|]. intros v4 Hv4 E4.
  destruct (_ mod _ =? 0); cbn [negb andb] in HQ1, HQ2 |- *; [|by apply wp_ret, HQ2].
  apply wp_bind. eapply yields_word; [exact Hv4|vm_compute; intuition discriminate|].
  apply wp_bind. eapply (yields_conv _ _ (bpb_tsect (c bsect))); [repeat yield|reflexivity|].
  apply wp_bind. eapply yields_word; [exact Hv4|vm_compute; intuition discriminate|].
  destruct (Z.eqb_spec (word_at (c bsect) BPB_RsvdSecCnt) 0) as [|Hrsv]; cbn [negb andb] in HQ1, HQ2 |- *; [by apply wp_ret, HQ2|].
  rewrite (u32_small (bpb_fasize _ * _)) by done. rewrite <- Es, (u32_small (bpb_sysect _)) by done.
  change ((bpb_tsect (c bsect) - bpb_sysect (c bsect)) / byte_at (c bsect) BPB_SecPerClus)
    with (bpb_clusters (c bsect)).
  change (fat_format (bpb_clusters (c bsect))) with (bpb_type (c bsect)).
  rewrite (Z.ltb_antisym (bpb_sysect (c bsect)) (bpb_tsect (c bsect))).
  destruct (Z.leb_spec (bpb_sysect (c bsect)) (bpb_tsect (c bsect))) as [Hle|]; cbn [negb andb] in HQ1, HQ2 |- *; [|by apply wp_ret, HQ2].
  destruct (Z.eqb_spec (bpb_clusters (c bsect)) 0) as [|Hn]; cbn [negb andb] in HQ1, HQ2 |- *; [by apply wp_ret, HQ2|].
  destruct (Z.eqb_spec (bpb_type (c bsect)) 0) as [|Ht]; cbn [negb andb] in HQ1, HQ2 |- *; [by apply wp_ret, HQ2|].
  apply (see_read_root c bsect v4 Q); try done.
  unfold parts_set. rewrite E4, E3, E2, E1. done.
Qed.
(** ** Mounting *)

Lemma boot_kind_cases b : boot_kind b = 0 \/ boot_kind b = 2 \/ boot_kind b = 3.
Proof. unfold boot_kind. repeat case_match; auto. Qed.

Lemma kind_cases c : (find_boot c).1 = 0 \/ (find_boot c).1 = 2 \/ (find_boot c).1 = 3.
Proof.
  unfold find_boot. destruct (_ =? 2); [|apply boot_kind_cases].
  induction (partitions (c 0)) as [|pt l IH]; cbn; [auto|]. destruct (_ && _); [done|].
  destruct (pt =? 0); [auto|apply boot_kind_cases].
Qed.


(** A path without a drive prefix. *)
Fixpoint plain_path (path : list Z) : bool :=
  match path with
  | [] => false
  | c :: path => if IsTerminator c then true else negb (c =? 58) && plain_path path
  end.

Lemma see_find_colon {St} path n fuel (Q : Z * Z -> St -> Prop) s : 0 <= n ->
  plain_path (drop (Z.to_nat n) path) = true -> (length (drop (Z.to_nat n) path) <= fuel)%nat ->
  (forall tc k, (tc =? 58) = false -> Q (tc, k) s) -> wp (find_colon fuel path n) Q s.
Proof.
  revert n. induction fuel as [|fuel IH]; intros n Hn Hp Hl HQ.
  { destruct (drop _ path); [done|cbn in Hl; lia]. }
  destruct (drop (Z.to_nat n) path) as [|c rest] eqn:E; [done|]. cbn [find_colon]. apply wp_bind.
  assert (Ec : lookupZ path n = Some c).
  { unfold lookupZ. destruct (Z.leb_spec 0 n); [|lia]. replace (Z.to_nat n) with (Z.to_nat n + 0)%nat by lia.
    by rewrite <- lookup_drop, E. }
  eapply wp_array_get; [exact Ec|]. cbn [plain_path] in Hp.
  assert (E1 : drop (Z.to_nat (n + 1)) path = rest).
  { replace (Z.to_nat (n + 1)) with (Z.to_nat n + 1)%nat by lia. by rewrite <- drop_drop, E. }
  destruct (IsTerminator c) eqn:Et; cbn [negb andb].
  - apply wp_ret, HQ. unfold IsTerminator in Et. apply Z.ltb_lt in Et. apply Z.eqb_neq. lia.
  - apply andb_true_iff in Hp as [Hc Hp]. rewrite Hc. apply IH; [lia|by rewrite E1|rewrite E1; cbn in Hl; lia|done].
Qed.

Lemma see_get_ldnumber {St} path (Q : Z * option (list Z) -> St -> Prop) s : plain_path path = true ->
  Q (0, Some path) s -> wp (get_ldnumber (Some path)) Q s.
Proof.
  intros Hp HQ. unfold get_ldnumber. apply wp_bind. apply see_find_colon; [lia|exact Hp|change (drop (Z.to_nat 0) path) with path; lia|].
  intros tc k E. rewrite E. by apply wp_ret.
Qed.

(** A drive that can be started: [cold] is the state [disk_initialize] expects. *)
Class StartingDrive (cold : D -> Prop) : Prop :=
  wd_init : forall d, cold d ->
    wp (disk_initialize 0) (fun r d' => r = 0 /\ online d' /\ contents d' = contents d) d.

(** The view of a volume that has been mounted: nothing is pending. *)
Definition volume_view c (bsect id : Z) : view :=
  View (boot_geom id bsect (c bsect)) (fsinfo c bsect).1.1 (fsinfo c bsect).1.2 (fsinfo c bsect).2 c.

(** The sectors of the first FAT that are known to be the same in the second. *)
Definition copies_agree (copied : Z -> Prop) c (g : geom) : Prop :=
  g_fats g = 2 -> forall s, in_fat g s = true -> copied s -> c (s + g_fsize g) = c s.

Lemma holds_mounted copied c bsect s0 id v : Forall is_byte (c bsect) -> bpb_fits bsect (c bsect) ->
  mountable (c bsect) = true -> copies_agree copied c (boot_geom id bsect (c bsect)) ->
  s0 = bsect \/ s0 = bsect + 1 -> loaded c s0 v -> set_up c bsect (v_fs v) ->
  holds (contents := contents) (online := online) copied
    (Vol (set_fs_id id (set_fs_type (bpb_type (c bsect)) (v_fs v))) (v_drive v)) (volume_view c bsect id).
Proof.
  intros Hb Hf Hm Hcp Hs0 Hv [Hg Hcnt]. pose proof (boot_geom_ok c id bsect Hb Hf Hm) as Hok.
  pose proof (sysect_parts c bsect Hf Hb) as (Hp & Hr & Hd & Es & Hs).
  assert (Hrsv : 1 <= word_at (c bsect) BPB_RsvdSecCnt).
  { destruct Hok as [_ _ _ _ _ Hfb _ _]. unfold mountable in Hm. cbv zeta in Hm. breflect. lia. }
  pose proof (geom_bounds _ Hok) as (_ & Hfs & _). destruct Hv as [Ho Hc Hr0 Hw Hws Hfl Hpd].
  split; cbn [v_fs v_drive volume_view w_geom w_last w_free w_fsi w_disk]; try done.
  - apply Hg.
  - unfold volume_view. by rewrite <- Hcnt.
  - intros s Hs'. rewrite <- Hc. by apply wd_sector.
  - cbn. rewrite Hws. split; [done|]. unfold in_copy. cbn. destruct (_ =? 2); [|done]. cbn.
    apply in_range_false. cbn in Hfs. destruct Hf as (Hb0 & _). destruct Hs0; lia.
  - cbn. by rewrite Hw, Hws.
  - intros s _ _. by rewrite Hc.
  - intros s H2 Hs' Hcs _. rewrite Hc. by apply Hcp.
Qed.
Section MountVolume.
Context {cold : D -> Prop} `{!StartingDrive cold}.
Context (p : Z) (s : ff D) (path : list Z) (mode : Z) (copied : Z -> Prop).
Context (Hreg : ff_fatfs s = Some p) (Hpath : plain_path path = true).
(** The object is registered and not mounted yet. *)
Context (Htype : fs_type (ff_objs s p) = 0) (Hpdrv : pdrv (ff_objs s p) = 0) (Hwin : zlen (win (ff_objs s p)) = SS).
Context (Hcold : cold (ff_drive s)).
Abbreviation c := (contents (ff_drive s)).
Abbreviation bsect := (find_boot c).2.
Abbreviation id := (u16 (ff_fsid s + 1)).
Context (Hparts : partitions_ok c) (Hfits : (find_boot c).1 < 2 -> bpb_fits bsect (c bsect)).
Context (Hcopies : copies_agree copied c (boot_geom id bsect (c bsect))).

(** The result of mounting. *)
Definition mount_result : FRESULT :=
  if ((find_boot c).1 <? 2) && mountable (c bsect) then FR_OK else FR_NO_FILESYSTEM.

(** Only the object [p] and the counter of mounts change. *)
Definition mounts_only (s' : ff D) : Prop :=
  ff_fatfs s' = ff_fatfs s /\ (forall q, q <> p -> ff_objs s' q = ff_objs s q).

(** The rest of [mount_volume] when the volume has been found. *)
Lemma see_mount_found v1 s1 Q : vol_of p s1 = v1 -> others p s s1 -> loaded c bsect v1 -> (find_boot c).1 < 2 ->
  (forall s', mounts_only s' ->
     (mountable (c bsect) = true ->
        holds (contents := contents) (online := online) copied (vol_of p s') (volume_view c bsect id)) ->
     Q (mount_result, Some path, Some p) s') ->
  wp (let* r := on_fs p read_bpb in
      match r with
      | inr res => ret (res, Some path, Some p)
      | inl fmt =>
          do* on_fs p (fs_upd (set_fs_type fmt)) in
          do* modify (fun s => FF (ff_fatfs s) (u16 (ff_fsid s + 1)) (ff_objs s) (ff_drive s)) in
          let* id := gets ff_fsid in
          do* on_fs p (fs_upd (set_fs_id id)) in
          ret (FR_OK, Some path, Some p)
      end) Q s1.
Proof.
  intros E1 O1 Hv1 Hk HQ. pose proof (loaded_sector _ _ _ Hv1) as (_ & Hb & _).
  unfold mount_result in HQ. rewrite (proj2 (Z.ltb_lt _ _) Hk) in HQ.
  apply wp_bind, see_on_fs. rewrite E1. eapply see_read_bpb; [exact Hv1|by apply Hfits|..].
  - intros Hm s0 v2 Hs0 Hv2 Hset s2 E2 O2. rewrite Hm in HQ.
    apply wp_bind, see_on_fs, wp_modify. intros s3 E3 O3. apply wp_bind, wp_modify, wp_bind, wp_gets.
    apply wp_bind, see_on_fs, wp_modify. intros s4 E4 O4. apply wp_ret.
    destruct O1 as (A1 & B1 & C1), O2 as (A2 & B2 & C2), O3 as (A3 & B3 & C3), O4 as (A4 & B4 & C4). cbn in A4, B4, C4, E4.
    apply HQ.
    + split; [congruence|]. intros q Hq. rewrite C4, C3, C2, C1; done.
    + intros _. rewrite E4. 
      assert (Ev : vol_of p s3 = Vol (set_fs_type (bpb_type (c bsect)) (v_fs v2)) (v_drive v2)) by (by rewrite E3, E2).
      unfold vol_of in Ev. injection Ev as Ef Ed. cbn [ff_objs ff_drive ff_fsid vol_of v_fs v_drive].
      rewrite Ef, Ed, B3, B2, B1. eapply holds_mounted; [exact Hb|by apply Hfits|exact Hm|exact Hcopies|exact Hs0|exact Hv2|exact Hset].
  - intros Hm v2 Hv2 s2 E2 O2. rewrite Hm in HQ. apply wp_ret, HQ; [|by intros ?].
    destruct O1 as (A1 & B1 & C1), O2 as (A2 & B2 & C2). split; [congruence|]. intros q Hq. rewrite C2, C1; done.
Qed.

(** [mount_volume] of a volume that is not mounted yet. *)
Lemma see_mount_volume Q :
  (forall s', mounts_only s' ->
     (((find_boot c).1 <? 2) && mountable (c bsect) = true ->
        holds (contents := contents) (online := online) copied (vol_of p s') (volume_view c bsect id)) ->
     Q (mount_result, Some path, Some p) s') ->
  wp (mount_volume (Some path) mode) Q s.
Proof.
  intros HQ. unfold mount_volume. apply wp_bind, see_get_ldnumber; [exact Hpath|]. cbn [Z.ltb].
  apply wp_bind, wp_gets. rewrite Hreg. apply wp_bind, see_on_fs, wp_gets. intros s1 E1 O1.
  cbn [vol_of v_fs]. rewrite Htype. cbn [Z.eqb negb andb]. apply wp_bind, wp_ret.
  apply wp_bind, see_on_fs, wp_modify. intros s2 E2 O2. apply wp_bind, see_on_fs, wp_on_drive.
  rewrite Hpdrv. rewrite E2, E1. cbn [vol_of v_fs v_drive].
  eapply wp_mono; [by apply wd_init|]. intros r d (-> & Ho & Hc) s3 E3 O3.
  cbn [Z.land Z.eqb negb]. change (Z.land 0 STA_PROTECT =? 0) with true. cbn [negb]. rewrite andb_false_r.
  apply wp_bind, see_on_fs. rewrite E3. apply (see_find_volume c); [split; [done|split; [done|split; done]]|exact Hparts|].
  intros v4 Hv4 Hk s4 E4 O4.
  assert (O : others p s s4) by (transitivity s1; [done|transitivity s2; [done|by transitivity s3]]).
  destruct (Z.ltb_spec (find_boot c).1 2) as [Hlt|Hge].
  - rewrite (proj2 (Z.eqb_neq _ 4)), (proj2 (Z.leb_gt 2 _)) by lia.
    eapply see_mount_found; [exact E4|exact O|by apply Hk|done|]. intros s' Hs' Hh. by apply HQ.
  - assert (mount_result = FR_NO_FILESYSTEM) as Er.
    { unfold mount_result. by rewrite (proj2 (Z.ltb_ge _ _)). }
    destruct O as (A & B & C). specialize (HQ s4 (conj A C)). rewrite Er in HQ.
    assert (Q (FR_NO_FILESYSTEM, Some path, Some p) s4) as HQ'.
    { apply HQ. by intros ?. }
    destruct (kind_cases c) as [E|[E|E]]; rewrite E in *; [lia|by apply wp_ret..].
Qed.
End MountVolume.
(** [f_mount] when no volume was mounted. *)
Lemma see_f_mount `{!StartingDrive cold} copied p s path (Q : FRESULT -> ff D -> Prop) :
  ff_fatfs s = None -> plain_path path = true -> zlen (win (ff_objs s p)) = SS -> cold (ff_drive s) ->
  let c := contents (ff_drive s) in let bsect := (find_boot c).2 in let id := u16 (ff_fsid s + 1) in
  partitions_ok c -> ((find_boot c).1 < 2 -> bpb_fits bsect (c bsect)) ->
  copies_agree copied c (boot_geom id bsect (c bsect)) ->
  let ok := ((find_boot c).1 <? 2) && mountable (c bsect) in
  (forall s', ff_fatfs s' = Some p -> (forall q, q <> p -> ff_objs s' q = ff_objs s q) ->
     (ok = true -> holds (contents := contents) (online := online) copied (vol_of p s') (volume_view c bsect id)) ->
     Q (if ok then FR_OK else FR_NO_FILESYSTEM) s') ->
  wp (f_mount (Some p) path 1) Q s.
Proof.
  intros Hreg Hpath Hwin Hcold c bsect id Hparts Hfits Hcopies ok HQ. unfold f_mount.
  apply wp_bind, see_get_ldnumber; [exact Hpath|]. cbn [fst Z.ltb]. apply wp_bind, wp_gets. rewrite Hreg.
  apply wp_bind, wp_ret, wp_bind, wp_bind, see_on_fs, wp_modify. intros s1 E1 (O1 & O2 & O3).
  apply wp_modify, wp_ret. cbn [Z.eqb]. apply wp_bind.
  unfold vol_of in E1. cbn [v_fs v_drive] in E1. injection E1 as Ef Ed.
  apply (see_mount_volume p _ path 0 copied); cbn [ff_fatfs ff_objs ff_drive ff_fsid]; rewrite ?Ef, ?Ed, ?O2; try done.
  intros s' [F1 F2] Hh. apply wp_ret. cbn [fst ff_fatfs ff_objs ff_drive ff_fsid] in *. unfold mount_result. cbn [ff_drive].
  rewrite ?Ed, ?O2 in *. apply HQ; [done| |exact Hh]. intros q Hq. rewrite F2, O3; done.
Qed.

(** [C33]: [f_mount] of a volume at once, by a path without a drive number, when
    none was mounted, for a drive that can be started, whose FAT copies agree,
    whose partition table has no partition that starts at sector 2^32 - 1
    ([partitions_ok]) and whose boot sector has sizes that do not overflow 32 bits
    ([bpb_fits]; the code does not check that, see [FatBoot.fat_size_overflows]),
    and otherwise any content: it returns [FR_OK] exactly if there is a boot
    sector, at the start of the drive or of the partition its table names first,
    whose parameters are those of a FAT volume, and [FR_NO_FILESYSTEM] otherwise;
    then the object is the view of that volume: its type by the number of
    clusters, the places of the FATs, the root directory and the data area as the
    parameters say, all within bounds, and the counters of the FSINFO sector. The
    drive is not written to. *)
Theorem f_mount_mounts `{!StartingDrive cold} copied p s path :
  ff_fatfs s = None -> plain_path path = true -> zlen (win (ff_objs s p)) = SS -> cold (ff_drive s) ->
  let c := contents (ff_drive s) in let bsect := (find_boot c).2 in let id := u16 (ff_fsid s + 1) in
  partitions_ok c -> ((find_boot c).1 < 2 -> bpb_fits bsect (c bsect)) ->
  copies_agree copied c (boot_geom id bsect (c bsect)) ->
  wp (f_mount (Some p) path 1) (fun res s' =>
    ff_fatfs s' = Some p /\ (forall q, q <> p -> ff_objs s' q = ff_objs s q) /\
    (res = FR_OK /\ (find_boot c).1 < 2 /\ mountable (c bsect) = true /\
       geom_ok (boot_geom id bsect (c bsect)) /\
       holds (contents := contents) (online := online) copied (vol_of p s') (volume_view c bsect id) \/
     res = FR_NO_FILESYSTEM /\ ((find_boot c).1 < 2 -> mountable (c bsect) = false))) s.
Proof.
  intros Hreg Hpath Hwin Hcold c bsect id Hparts Hfits Hcopies.
  apply (see_f_mount copied p s path _ Hreg Hpath Hwin Hcold Hparts Hfits Hcopies). intros s' F1 F2 Hh.
  split; [done|]. split; [done|]. fold c in Hh |- *. 
  change (find_boot (contents (ff_drive s))).2 with bsect in Hh |- *. fold id in Hh.
  destruct ((find_boot c).1 <? 2) eqn:Ek; cbn [andb] in *; [|right; split; [done|]; lia].
  apply Z.ltb_lt in Ek. destruct (mountable (c bsect)) eqn:Em; [left|by right].
  specialize (Hh eq_refl). split; [done|]. split; [done|]. split; [done|]. split; [apply (h_ok _ _ _ Hh)|exact Hh].
Qed.
End Mount.
