(* ===== verification/FatEntries.v ===== *)
(** * FatFs: directories

    The entries of a directory on the logical disk, by their index: those of the
    fixed root directory of FAT12 and FAT16, or those in the clusters of a chain.
    [dir_find] is a search in this sequence. *)

From stdpp Require Import sets.
From S2P Require Import Prelude FatData FatFs FatPath FatFile FatVolume FatTable FatChain FatContents.
From S2P Require Import FatTheorems FatWrite FatMount.

#[local] Open Scope Z_scope.
#[local] Open Scope list_scope.
#[local] Arguments insertZ : simpl never.
#[local] Arguments lookupZ : simpl never.

(** ** The entries *)

(** The first cluster of the directory [c], where 0 is the root: on FAT32 the root is
    a chain as well. *)
Definition dir_start (w : view) (c : Z) : Z :=
  if (c =? 0) && (FS_FAT32 <=? g_type (w_geom w)) then g_dirbase (w_geom w) else c.

(** The fixed root directory is between the FATs and the data. *)
Definition root_ok (g : geom) : Prop :=
  1 <= g_rootdir g /\ g_rootdir g mod 16 = 0 /\ g_fatbase g + g_fats g * g_fsize g <= g_dirbase g /\
  g_dirbase g + g_rootdir g / 16 <= g_database g.

Record dir_ok (w : view) (c : Z) (l : list Z) : Prop := {
  do_root : dir_start w c = 0 -> root_ok (w_geom w);
  do_chain : dir_start w c <> 0 -> w_chain w (dir_start w c) l /\ l <> []
}.

(** The sector and the offset of entry [k], and the number of entries. *)
Definition dir_sector (w : view) (c : Z) (l : list Z) (k : Z) : Z :=
  if dir_start w c =? 0 then g_dirbase (w_geom w) + k / 16 else file_sector (w_geom w) l (k / 16).
Definition dir_offset (k : Z) : Z := 32 * (k mod 16).
Definition dir_room (w : view) (c : Z) (l : list Z) : Z :=
  if dir_start w c =? 0 then g_rootdir (w_geom w) else 16 * (zlen l * g_csize (w_geom w)).
Definition dir_len (w : view) (c : Z) (l : list Z) : Z := Z.min 65536 (dir_room w c l).

(** Byte [j] of entry [k]. *)
Definition dir_byte (w : view) (c : Z) (l : list Z) (k j : Z) : Z :=
  byte_at (w_disk w (dir_sector w c l k)) (dir_offset k + j).
Definition dir_name (w : view) (c : Z) (l : list Z) (k : Z) : list Z :=
  bytes_at (w_disk w (dir_sector w c l k)) (dir_offset k) 11.

(** Entry [k] is a file or a directory with the name. *)
Definition dir_match (w : view) (c : Z) (l : list Z) (name : list Z) (k : Z) : bool :=
  (Z.land (dir_byte w c l k DIR_Attr) AM_VOL =? 0) && bool_decide (dir_name w c l k = name).

(** The first of [n] entries from [k] on that matches, before the end mark. *)
Fixpoint find_entry (w : view) (c : Z) (l name : list Z) (n : nat) (k : Z) : option Z :=
  match n with
  | O => None
  | S n =>
      if dir_byte w c l k DIR_Name =? 0 then None
      else if dir_match w c l name k then Some k else find_entry w c l name n (k + 1)
  end.
Definition dir_lookup (w : view) (c : Z) (l name : list Z) : option Z :=
  find_entry w c l name (Z.to_nat (dir_len w c l)) 0.

Lemma find_entry_Some w c l name n k i : find_entry w c l name n k = Some i ->
  k <= i < k + Z.of_nat n /\ dir_match w c l name i = true /\ dir_byte w c l i DIR_Name <> 0.
Proof.
  revert k. induction n as [|n IH]; intros k; cbn [find_entry]; [done|].
  destruct (Z.eqb_spec (dir_byte w c l k DIR_Name) 0); [done|].
  destruct (dir_match w c l name k) eqn:E; [intros [= <-]; split; [lia|done]|].
  intros Hi%IH. destruct Hi as (Hi & ?). split; [lia|done].
Qed.

Lemma dir_lookup_Some w c l name i : dir_lookup w c l name = Some i ->
  0 <= i < dir_len w c l /\ dir_match w c l name i = true /\ dir_byte w c l i DIR_Name <> 0.
Proof.
  intros Hi%find_entry_Some. unfold dir_lookup in Hi. destruct Hi as (Hi & ?). split; [lia|done].
Qed.

(** ** Where the entries are *)

Section Places.
Context (w : view) (c : Z) (l : list Z) (Hg : geom_ok (w_geom w)) (Hd : dir_ok w c l).
Abbreviation g := (w_geom w).

Lemma dir_clusters x : dir_start w c <> 0 -> x ∈ l -> cluster w x.
Proof. intros Hc Hx. destruct (do_chain _ _ _ Hd Hc) as [Hl _]. by apply (chain_range _ _ _ _ _ Hl). Qed.

Lemma dir_len_pos : 1 <= dir_len w c l <= 65536.
Proof.
  unfold dir_len, dir_room. destruct (Z.eqb_spec (dir_start w c) 0) as [E|E].
  - destruct (do_root _ _ _ Hd E). lia.
  - destruct (do_chain _ _ _ Hd E) as [_ Hl]. destruct l as [|x l']; [done|].
    pose proof (csize_pos w Hg). unfold zlen. cbn [length]. nia.
Qed.

Lemma dir_index k : 0 <= k < dir_len w c l -> dir_start w c <> 0 -> sector_of g l (k / 16).
Proof.
  intros Hk E. unfold dir_len, dir_room in Hk. rewrite (proj2 (Z.eqb_neq _ _) E) in Hk. unfold sector_of.
  split; [apply Z.div_pos; lia|apply Z.div_lt_upper_bound; lia].
Qed.

(** Entries are in sectors of the drive that are in no FAT. *)
Lemma dir_sector_proper k : 0 <= k < dir_len w c l ->
  proper g (dir_sector w c l k) /\ in_fat g (dir_sector w c l k) = false /\ 0 < dir_sector w c l k.
Proof.
  intros Hk. pose proof (geom_bounds _ Hg) as Hb. unfold dir_sector.
  destruct (Z.eqb_spec (dir_start w c) 0) as [E|E].
  - destruct (do_root _ _ _ Hd E) as (H1 & H2 & H3 & H4). unfold dir_len, dir_room in Hk. rewrite E in Hk. cbn in Hk.
    assert (0 <= k / 16 < g_rootdir g / 16) as Hi by (Z.div_mod_to_equations; lia).
    pose proof (go_fats _ Hg) as Hf. unfold proper, in_copy, in_fat. split; [split; [lia|]|split; [|lia]].
    + destruct (Z.eqb_spec (g_fats g) 2) as [E2|]; [|done]. cbn. apply in_range_false. rewrite E2 in H3. lia.
    + apply in_range_false. right. destruct Hf as [Ef|Ef]; rewrite Ef in H3; lia.
  - pose proof (file_sector_range w l Hg (fun x => dir_clusters x E) _ (dir_index k Hk E)) as Hr.
    destruct (proper_data g _ Hg Hr). split; [done|]. split; [done|lia].
Qed.

Lemma dir_sector_behind i : 0 <= i < dir_len w c l -> g_fatbase g <= dir_sector w c l i.
Proof.
  intros Hi. unfold dir_sector. pose proof (geom_bounds _ Hg) as Hb. destruct (Z.eqb_spec (dir_start w c) 0) as [E|E].
  - destruct (do_root _ _ _ Hd E) as (_ & _ & Hr & _). assert (0 <= i / 16) by (apply Z.div_pos; lia).
    destruct (go_fats _ Hg) as [Ef|Ef]; rewrite Ef in Hr; lia.
  - pose proof (file_sector_range w l Hg (fun x => dir_clusters x E) _ (dir_index i Hi E)). lia.
Qed.

(** Directories are whole sectors. *)
Lemma dir_len_whole : dir_len w c l mod 16 = 0.
Proof.
  unfold dir_len, dir_room. destruct (Z.eqb_spec (dir_start w c) 0) as [E|E].
  - destruct (do_root _ _ _ Hd E) as (_ & Hm & _). Z.div_mod_to_equations. lia.
  - Z.div_mod_to_equations. lia.
Qed.

Lemma dir_offset_range k : 0 <= dir_offset k /\ dir_offset k + 32 <= SS.
Proof. unfold dir_offset, SS. pose proof (Z.mod_pos_bound k 16). lia. Qed.
End Places.

(** ** Walking *)

(** [dp] is at entry [k]. *)
Record dir_at (w : view) (c : Z) (l : list Z) (k : Z) (dp : DIR) : Prop := {
  da_start : dj_sclust dp = c;
  da_ptr : dptr dp = 32 * k;
  da_sect : dsect dp = dir_sector w c l k;
  da_dir : ddir dp = dir_offset k;
  da_clust : if dir_start w c =? 0 then dclust dp = 0
             else lookupZ l (k / 16 / g_csize (w_geom w)) = Some (dclust dp)
}.

Section Walking.
Context {D : Type} `{WorkingDrive D contents online many} (copied : Z -> Prop).
Implicit Types (v : vol D) (dp : DIR).
Abbreviation holds := (holds (contents := contents) (online := online) copied).

Lemma see_clst2sect v w x Q : holds v w -> cluster w x -> Q (data_sector (w_geom w) x 0) v ->
  wp (clst2sect x) Q v.
Proof.
  intros Hv Hc HQ. unfold clst2sect, the_fs.
  destruct (holds_fields _ _ _ Hv) as (_ & _ & _ & Ec & Ed), (entries_u32 _ _ _ Hv) as [_ En].
  pose proof (h_ok _ _ _ Hv) as Hok.
  do 2 wp_step. rewrite Ec, Ed, En. pose proof (csize_pos w Hok).
  pose proof (data_sector_range w Hok x 0 Hc ltac:(lia)) as Hr. unfold cluster, data_sector in *.
  pose proof (geom_bounds _ Hok) as (Hn & _ & _ & Hd & _).
  rewrite (u32_small (x - 2)) by lia. cbv zeta. rewrite (proj2 (Z.leb_gt _ _)) by lia. apply wp_ret.
  assert (0 <= g_csize (w_geom w) * (x - 2)) by nia.
  rewrite (u32_small (_ * _)), u32_small by lia. by rewrite <- (Z.add_0_r (g_database (w_geom w) + _)).
Qed.

Lemma chain_starts w x l : w_chain w x l -> l <> [] -> lookupZ l 0 = Some x /\ cluster w x.
Proof. destruct l as [|y l]; [done|]. by intros (-> & ? & _) _. Qed.

Lemma file_sector_first w x l : geom_ok (w_geom w) -> w_chain w x l -> l <> [] ->
  file_sector (w_geom w) l 0 = data_sector (w_geom w) x 0.
Proof.
  intros Hg Hl Hne. destruct (chain_starts w x l Hl Hne) as [E _].
  unfold file_sector, cluster_at. pose proof (csize_pos w Hg). rewrite Z.div_0_l, Z.mod_0_l by lia. by rewrite E.
Qed.

(** To the first entry. *)
Lemma see_dir_sdi v w c l dp Q : holds v w -> dir_ok w c l -> dj_sclust dp = c ->
  (forall dp', dir_at w c l 0 dp' -> fn dp' = fn dp -> dj_attr dp' = dj_attr dp -> Q (FR_OK, dp') v) ->
  wp (dir_sdi dp 0) Q v.
Proof.
  intros Hv Hd Hc HQ. unfold dir_sdi, the_fs. do 2 wp_step. pose proof (h_ok _ _ _ Hv) as Hok.
  change ((MAX_DIR <=? 0) || negb (0 mod SZDIRE =? 0)) with false. cbv iota.
  destruct (holds_fields _ _ _ Hv) as (Et & _ & _ & Ecs & _).
  assert (Egeo : dirbase (v_fs v) = g_dirbase (w_geom w) /\ n_rootdir (v_fs v) = g_rootdir (w_geom w))
    by (rewrite <- (h_geom _ _ _ Hv); done).
  destruct Egeo as [Edb Ert]. rewrite Et, Edb, Ert. cbn [dj_sclust set_dptr]. rewrite Hc.
  change (if (c =? 0) && (FS_FAT32 <=? g_type (w_geom w)) then g_dirbase (w_geom w) else c) with (dir_start w c).
  pose proof (dir_sector_proper w c l Hok Hd 0) as Hp. pose proof (dir_len_pos w c l Hok Hd) as Hlen.
  destruct Hp as ((Hp & _) & _ & Hpos); [lia|]. unfold dir_sector in Hp, Hpos.
  destruct (Z.eqb_spec (dir_start w c) 0) as [E|E].
  - destruct (do_root _ _ _ Hd E) as (Hr & _). change (0 / SZDIRE) with 0. rewrite (proj2 (Z.leb_gt _ _)) by lia.
    cbn [dsect set_dclust set_dsect]. change (0 / SS) with 0. change (0 / 16) with 0 in *. rewrite Z.add_0_r in *.
    rewrite (proj2 (Z.eqb_neq _ _)), u32_small by lia. apply wp_ret, HQ; [|done..]. split; try done.
    + unfold dir_sector. rewrite E. symmetry. apply Z.add_0_r.
    + by rewrite E.
  - destruct (do_chain _ _ _ Hd E) as [Hl Hne]. destruct (chain_starts w _ l Hl Hne) as [E0 Hcl].
    pose proof (csize_pos w Hok) as Hcs. rewrite Ecs. apply wp_bind. change (Z.to_nat (0 / SS) + 1)%nat with 1%nat.
    cbn [sdi_follow]. rewrite u32_small, (proj2 (Z.ltb_lt _ _)) by (unfold SS; lia). apply wp_ret.
    apply wp_bind. eapply see_clst2sect; [exact Hv|exact Hcl|]. cbn [dsect set_dclust set_dsect].
    change (0 / SS) with 0. change (0 / 16) with 0 in *. rewrite (file_sector_first w _ l Hok Hl Hne) in Hp, Hpos.
    rewrite Z.add_0_r.
    rewrite (proj2 (Z.eqb_neq _ _)), u32_small by lia. apply wp_ret, HQ; [|done..]. split; try done.
    + cbn. unfold dir_sector. rewrite (proj2 (Z.eqb_neq _ _) E). symmetry.
      change (0 / 16) with 0. by apply file_sector_first.
    + rewrite (proj2 (Z.eqb_neq _ _) E). cbn. rewrite Z.div_0_l by lia. exact E0.
Qed.

(** The arithmetic of a step. *)
Lemma next_entry k : 0 <= k ->
  32 * (k + 1) / SS = (k + 1) / 16 /\ 32 * (k + 1) mod SS = dir_offset (k + 1) /\
  ((k + 1) mod 16 <> 0 -> (k + 1) / 16 = k / 16) /\ ((k + 1) mod 16 = 0 -> (k + 1) / 16 = k / 16 + 1).
Proof. intros Hk. unfold dir_offset, SS. repeat split; intros; Z.div_mod_to_equations; lia. Qed.

Lemma next_in_cluster j n : 1 <= n -> 0 <= j ->
  ((j + 1) mod n <> 0 -> (j + 1) / n = j / n /\ (j + 1) mod n = j mod n + 1) /\
  ((j + 1) mod n = 0 -> (j + 1) / n = j / n + 1).
Proof.
  intros Hn Hj. pose proof (Z.div_mod j n ltac:(lia)) as E. pose proof (Z.mod_pos_bound j n ltac:(lia)) as Hr.
  destruct (Z.eq_dec (j mod n) (n - 1)) as [El|Hne].
  - assert ((j + 1) / n = j / n + 1) as Ed by (symmetry; apply (Z.div_unique_pos _ _ _ 0); lia).
    assert ((j + 1) mod n = 0) as Em by (symmetry; apply (Z.mod_unique_pos _ _ (j / n + 1)); lia). lia.
  - assert ((j + 1) / n = j / n) as Ed by (symmetry; apply (Z.div_unique_pos _ _ _ (j mod n + 1)); lia).
    assert ((j + 1) mod n = j mod n + 1) as Em by (symmetry; apply (Z.mod_unique_pos _ _ (j / n)); lia). lia.
Qed.

(** The cluster after the one at [i] is the next of the chain, or the end. *)
Lemma chain_step w x l i y : w_chain w x l -> 0 <= i -> lookupZ l i = Some y ->
  cluster w y /\ (i + 1 < zlen l -> lookupZ l (i + 1) = Some (entries w y)) /\
  (zlen l <= i + 1 -> g_entries (w_geom w) <= entries w y).
Proof.
  intros Hl Hi Hy. pose proof (lookupZ_Some_range _ _ _ Hy) as Hr. split; [|split].
  - apply (chain_range _ _ _ _ _ Hl). unfold lookupZ in Hy.
    rewrite (proj2 (Z.leb_le 0 i)) in Hy by lia. by eapply list_elem_of_lookup_2.
  - intros Hn. destruct (lookupZ_lt l (i + 1) ltac:(lia)) as [z Hz]. rewrite Hz. f_equal. symmetry.
    exact (chain_next _ _ _ _ _ _ _ Hl Hi Hy Hz).
  - intros Hn. destruct (exists_last (l := l)) as (l' & z & ->); [intros ->; unfold zlen in Hr; cbn in Hr; lia|].
    rewrite zlen_app in Hr, Hn. change (zlen [z]) with 1 in *.
    assert (i = zlen l') as -> by lia. rewrite lookupZ_app_end in Hy. injection Hy as ->. by eapply chain_end.
Qed.

(** What a walk leaves alone. *)
Definition same_target (dp dp' : DIR) : Prop := fn dp' = fn dp /\ dj_attr dp' = dj_attr dp.

(** To the next sector of a directory in a chain: in the same cluster or in the next. *)
Lemma see_next_sector v w c l k dp dp1 e1 e2 Q : holds v w -> dir_ok w c l -> 0 <= k < dir_len w c l -> dir_at w c l k dp ->
  dir_start w c <> 0 -> (k + 1) / 16 = k / 16 + 1 -> (k + 1) mod 16 = 0 -> k + 1 < 65536 ->
  dp1 = set_dsect (u32 (dir_sector w c l k + 1)) dp ->
  (forall v' dp', holds v' w -> k + 1 < dir_len w c l -> dir_at w c l (k + 1) dp' -> same_target dp dp' ->
     Q (FR_OK, dp') v') ->
  (forall v' dp', holds v' w -> k + 1 = dir_len w c l -> same_target dp dp' -> Q (FR_NO_FILE, dp') v') ->
  let finish dp := ret (FR_OK, set_ddir (dir_offset (k + 1)) (set_dptr (32 * (k + 1)) dp)) in
  wp (if negb (Z.land ((k + 1) / 16) (csize (v_fs v) - 1) =? 0) then finish dp1
      else let* clst := get_fat (dclust dp) in
           if clst <=? 1 then ret e1 else
           if clst =? DISK_ERR then ret e2 else
           if clst <? n_fatent (v_fs v) then
             let* sect := clst2sect clst in finish (set_dsect sect (set_dclust clst dp1))
           else ret (FR_NO_FILE, set_dsect 0 dp1)) Q v.
Proof.
  intros Hv Hd Hk [Ac Ap As Ao Ax] E Hnext Hz Hlim Edp HQ HN finish. pose proof (h_ok _ _ _ Hv) as Hok.
  destruct (holds_fields _ _ _ Hv) as (_ & En & _ & Ecs & _).
  destruct (do_chain _ _ _ Hd E) as [Hl Hne]. pose proof (csize_pos w Hok) as Hcs.
  rewrite (proj2 (Z.eqb_neq _ _) E) in Ax. rewrite Ecs, En.
  assert (dir_len w c l = Z.min 65536 (16 * (zlen l * g_csize (w_geom w)))) as El
    by (unfold dir_len, dir_room; by rewrite (proj2 (Z.eqb_neq _ _) E)).
  assert (0 <= k / 16) as Hk16 by (apply Z.div_pos; lia).
  pose proof (go_csize _ Hok) as [Hc1 Hc2].
  rewrite (land_pow2 _ _ Hc1 Hc2), Hnext.
  destruct (next_in_cluster (k / 16) (g_csize (w_geom w)) ltac:(lia) Hk16) as [Hin Hout].
  set (n := g_csize (w_geom w)) in *.
  assert (Hsucc : lookupZ l ((k + 1) / 16 / n) = lookupZ l ((k / 16 + 1) / n)) by by rewrite Hnext.
  destruct (Z.eqb_spec ((k / 16 + 1) mod n) 0) as [Ez|Ez]; cbn [negb].
  - specialize (Hout Ez). destruct (chain_step w _ l _ _ Hl (Z.div_pos _ n Hk16 ltac:(lia)) Ax) as (Hy & Hs & He).
    apply wp_bind. eapply see_get_fat; [exact Hv|exact Hy|]. intros v1 Hv1 _. change (fat_entry _ _ _) with (entries w (dclust dp)).
    pose proof (entry_range w (dclust dp) (holds_volume _ _ _ Hv) Hy) as Her. pose proof (geom_bounds _ Hok) as (Hb & _).
    pose proof (lookupZ_Some_range _ _ _ Ax) as Hr.
    destruct (Z.lt_ge_cases (k / 16 / n + 1) (zlen l)) as [Hlt|Hge].
    + specialize (Hs Hlt). destruct (chain_step w _ l (k / 16 / n + 1) _ Hl ltac:(lia) Hs) as ([Hn2 Hn3] & _).
      rewrite (proj2 (Z.leb_gt _ 1)), (proj2 (Z.eqb_neq _ DISK_ERR)), (proj2 (Z.ltb_lt _ _)) by (unfold DISK_ERR; lia).
      apply wp_bind. eapply see_clst2sect; [exact Hv1|done|].
      assert (k + 1 < dir_len w c l).
      { assert ((k / 16 + 1) / n <= zlen l - 1) by lia.
        pose proof (Z.div_mod (k / 16 + 1) n ltac:(lia)). pose proof (Z.div_mod (k + 1) 16 ltac:(lia)). nia. }
      apply wp_ret, HQ; [done|done| |by subst dp1]. subst dp1. split; try done.
      * cbn. unfold dir_sector, file_sector, cluster_at. rewrite (proj2 (Z.eqb_neq _ _) E). fold n.
        by rewrite Hsucc, Hnext, Ez, Hout, Hs.
      * rewrite (proj2 (Z.eqb_neq _ _) E). cbn. fold n. by rewrite Hsucc, Hout, Hs.
    + specialize (He Hge). rewrite (proj2 (Z.leb_gt _ 1)), (proj2 (Z.eqb_neq _ DISK_ERR)), (proj2 (Z.ltb_ge _ _)) by (unfold DISK_ERR; lia).
      apply wp_ret, HN; [done| |by subst dp1].
      pose proof (Z.div_mod (k / 16 + 1) n ltac:(lia)). pose proof (Z.div_mod (k + 1) 16 ltac:(lia)).
      nia.
  - destruct (Hin Ez) as [Hq Hm]. pose proof (lookupZ_Some_range _ _ _ Ax) as Hr.
    assert (k + 1 < dir_len w c l) as Hlt.
    { pose proof (Z.div_mod (k / 16 + 1) n ltac:(lia)). pose proof (Z.div_mod (k + 1) 16 ltac:(lia)).
      pose proof (Z.mod_pos_bound (k / 16 + 1) n ltac:(lia)). nia. }
    assert (dir_sector w c l k + 1 = dir_sector w c l (k + 1)) as Es.
    { unfold dir_sector, file_sector, data_sector. rewrite (proj2 (Z.eqb_neq _ _) E), Hnext. fold n. rewrite Hq, Hm. lia. }
    destruct (dir_sector_proper w c l Hok Hd (k + 1) ltac:(lia)) as ((Hp1 & _) & _).
    apply wp_ret, HQ; [done|done| |by subst dp1]. subst dp1. rewrite Es, u32_small by done. split; try done.
    rewrite (proj2 (Z.eqb_neq _ _) E). cbn. fold n. by rewrite Hsucc, Hq.
Qed.

(** To the next entry. *)
Lemma see_dir_next v w c l k dp Q : holds v w -> dir_ok w c l -> 0 <= k < dir_len w c l -> dir_at w c l k dp ->
  (forall v' dp', holds v' w -> k + 1 < dir_len w c l -> dir_at w c l (k + 1) dp' -> same_target dp dp' ->
     Q (FR_OK, dp') v') ->
  (forall v' dp', holds v' w -> k + 1 = dir_len w c l -> same_target dp dp' -> Q (FR_NO_FILE, dp') v') ->
  wp (dir_next dp false) Q v.
Proof.
  intros Hv Hd Hk [Ac Ap As Ao Ax] HQ HN. pose proof (h_ok _ _ _ Hv) as Hok.
  destruct (dir_sector_proper w c l Hok Hd k Hk) as ((Hp & _) & _ & Hpos).
  pose proof (dir_len_pos w c l Hok Hd) as Hlen. destruct (next_entry k ltac:(lia)) as (Ed & Em & Hsame & Hnext).
  unfold dir_next, the_fs. do 2 wp_step. rewrite Ap. change SZDIRE with 32.
  rewrite u32_small by lia. replace (32 * k + 32) with (32 * (k + 1)) by lia. cbv zeta.
  destruct (Z.leb_spec MAX_DIR (32 * (k + 1))) as [Hmax|Hmax]; unfold MAX_DIR in Hmax.
  { apply wp_ret, HN; [done|lia|done]. }
  rewrite As, (proj2 (Z.eqb_neq _ 0)) by lia. rewrite Ed, Em.
  assert (negb (dir_offset (k + 1) =? 0) = negb ((k + 1) mod 16 =? 0)) as ->.
  { unfold dir_offset. f_equal. destruct (Z.eqb_spec (32 * ((k + 1) mod 16)) 0), (Z.eqb_spec ((k + 1) mod 16) 0); lia || done. }
  destruct (Z.eqb_spec ((k + 1) mod 16) 0) as [Ez|Ez]; cbn [negb].
  2:{ pose proof (dir_len_whole w c l Hd). specialize (Hsame Ez). apply wp_ret, HQ; [done| |split; try done|done].
      - Z.div_mod_to_equations. lia.
      - cbn. unfold dir_sector in *. by rewrite Hsame.
      - by rewrite Hsame. }
  specialize (Hnext Ez). cbn [dclust dsect set_dsect]. destruct (Z.eqb_spec (dir_start w c) 0) as [E|E].
  - rewrite Ax. cbn [Z.eqb]. assert (n_rootdir (v_fs v) = g_rootdir (w_geom w)) as -> by (rewrite <- (h_geom _ _ _ Hv); done).
    assert (dir_len w c l = Z.min 65536 (g_rootdir (w_geom w))) as El by (unfold dir_len, dir_room; by rewrite E).
    rewrite (Z.mul_comm 32), Z.div_mul by lia.
    destruct (Z.leb_spec (g_rootdir (w_geom w)) (k + 1)); apply wp_ret; [apply HN; [done|lia|done]|].
    assert (dir_sector w c l k + 1 = dir_sector w c l (k + 1)) as Es by (unfold dir_sector; rewrite E, Hnext; cbn; lia).
    destruct (dir_sector_proper w c l Hok Hd (k + 1) ltac:(lia)) as ((Hp1 & _) & _).
    rewrite Es, u32_small by done. apply HQ; [done|lia| |done]. split; try done.
    + cbn. lia.
    + by rewrite E.
  - pose proof (lookupZ_Some_range _ _ _ Ax) as [Hi _].
    destruct (chain_step w _ l _ _ (proj1 (do_chain _ _ _ Hd E)) Hi Ax) as ([Hy _] & _).
    rewrite (proj2 (Z.eqb_neq (dclust dp) 0)) by lia.
    eapply (see_next_sector v w c l k dp); try done; [|lia]. split; try done. by rewrite (proj2 (Z.eqb_neq _ _) E).
Qed.
(** *** [dir_find] *)

(** [dp] is at the entry [k], which is in the window. *)
Record found (w : view) (c : Z) (l : list Z) (k : Z) (dp dp' : DIR) (v : vol D) : Prop := {
  fo_at : dir_at w c l k dp';
  fo_fn : fn dp' = fn dp;
  fo_attr : dj_attr dp' = Z.land (dir_byte w c l k DIR_Attr) AM_MASK;
  fo_window : winsect (v_fs v) = dir_sector w c l k
}.

Lemma see_entry_byte v w c l k j Q : holds v w -> winsect (v_fs v) = dir_sector w c l k -> 0 <= j < 32 ->
  Q (dir_byte w c l k j) v -> wp (win_get (dir_offset k + j)) Q v.
Proof.
  intros Hv Hs Hj HQ. pose proof (dir_offset_range k). eapply see_win_get; [done|lia|]. by rewrite Hs.
Qed.

Lemma see_find_loop w c l dp Q : dir_ok w c l -> 11 <= zlen (fn dp) ->
  (forall k dp' v', holds v' w -> 0 <= k < dir_len w c l -> found w c l k dp dp' v' ->
     dir_lookup w c l (bytes_at (fn dp) 0 11) = Some k -> Q (FR_OK, dp') v') ->
  (forall dp' v', holds v' w -> fn dp' = fn dp -> dir_lookup w c l (bytes_at (fn dp) 0 11) = None -> Q (FR_NO_FILE, dp') v') ->
  forall fuel k dp1 v, holds v w -> 0 <= k < dir_len w c l -> dir_at w c l k dp1 -> fn dp1 = fn dp ->
  dir_len w c l - k <= Z.of_nat fuel ->
  dir_lookup w c l (bytes_at (fn dp) 0 11) =
    find_entry w c l (bytes_at (fn dp) 0 11) (Z.to_nat (dir_len w c l - k)) k ->
  wp (find_loop fuel dp1) Q v.
Proof.
  intros Hd Hfn HQ HN. set (name := bytes_at (fn dp) 0 11) in *.
  induction fuel as [|fuel IH]; intros k dp1 v Hv Hk Ha Ef Hfuel Hfind; [lia|]. cbn [find_loop].
  pose proof (h_ok _ _ _ Hv) as Hok. destruct (dir_sector_proper w c l Hok Hd k Hk) as (Hp & _).
  apply wp_bind. eapply see_move_window; [exact Hv|by rewrite (da_sect _ _ _ _ _ Ha)|]. intros v1 Hv1 Hs1.
  rewrite (da_sect _ _ _ _ _ Ha) in Hs1. change (negb (is_ok FR_OK)) with false. cbv iota. rewrite (da_dir _ _ _ _ _ Ha).
  apply wp_bind. apply (see_entry_byte v1 w c l); [done|done|done|].
  replace (Z.to_nat (dir_len w c l - k)) with (S (Z.to_nat (dir_len w c l - (k + 1)))) in Hfind by lia.
  cbn [find_entry] in Hfind. destruct (Z.eqb_spec (dir_byte w c l k DIR_Name) 0) as [|Hb]; [by apply wp_ret, HN|].
  apply wp_bind. apply (see_entry_byte v1 w c l); [done|done|done|].
  unfold the_fs. do 2 wp_step. cbn [dj_attr set_dj_attr ddir fn]. apply wp_bind.
  apply (wp_mono _ (fun same v' => same = dir_match w c l name k /\ v' = v1)).
  { unfold dir_match. destruct (_ =? 0); cbn [negb andb]; [|by apply wp_ret].
    rewrite (da_dir _ _ _ _ _ Ha), Ef. apply wp_mem_eq; [|by rewrite (proj1 (window_sector copied v1 w Hv1)); destruct (dir_offset_range k); unfold SS in *; lia|lia|lia|].
    - destruct (dir_offset_range k). lia.
    - unfold dir_name. by rewrite (h_win _ _ _ Hv1), Hs1. }
  intros same v' [-> ->]. destruct (dir_match w c l name k).
  { apply wp_ret, (HQ k); [done|done| |done]. split; try done. by destruct Ha. }
  apply wp_bind. eapply (see_dir_next v1 w c l k); [done|done|done|by destruct Ha|..].
  - intros v2 dp2 Hv2 Hlt Ha2 [Hf2 _]. cbn [fst snd]. apply (IH (k + 1)); [done|lia|done| |lia|done].
    by rewrite Hf2.
  - intros v2 dp2 Hv2 He [Hf2 _]. apply wp_ret, HN; [done|by rewrite Hf2|]. rewrite Hfind. by replace (dir_len w c l - (k + 1)) with 0 by lia.
Qed.
Lemma see_dir_find v w c l dp Q : holds v w -> dir_ok w c l -> dj_sclust dp = c -> 11 <= zlen (fn dp) ->
  (forall k dp' v', holds v' w -> 0 <= k < dir_len w c l -> found w c l k dp dp' v' ->
     dir_lookup w c l (bytes_at (fn dp) 0 11) = Some k -> Q (FR_OK, dp') v') ->
  (forall dp' v', holds v' w -> fn dp' = fn dp -> dir_lookup w c l (bytes_at (fn dp) 0 11) = None -> Q (FR_NO_FILE, dp') v') ->
  wp (dir_find dp) Q v.
Proof.
  intros Hv Hd Hc Hfn HQ HN. unfold dir_find. pose proof (dir_len_pos w c l (h_ok _ _ _ Hv) Hd).
  apply wp_bind. eapply see_dir_sdi; [done|done|done|]. intros dp1 Ha Hf _. cbn [fst snd].
  change (negb (is_ok FR_OK)) with false. cbv iota.
  apply (see_find_loop w c l dp Q Hd Hfn HQ HN dir_rounds 0); [done|lia|done|done| |].
  - change (Z.of_nat dir_rounds) with 65537. lia.
  - unfold dir_lookup. by rewrite Z.sub_0_r.
Qed.

(** [dir_find] finds the first entry of the directory, before the end mark, that
    has the 11 bytes of the name and is not a volume label, whether the directory is
    the fixed root of FAT12 and FAT16 or a chain of clusters, and leaves the object at
    that entry, with its attributes and its sector in the window; if there is none it
    returns [FR_NO_FILE].  It ends after at most 65536 entries, and the contents of the
    volume do not change. *)
Theorem dir_find_looks_up v w c l dp : holds v w -> dir_ok w c l -> dj_sclust dp = c -> 11 <= zlen (fn dp) ->
  wp (dir_find dp) (fun r v' => holds v' w /\
    match dir_lookup w c l (bytes_at (fn dp) 0 11) with
    | Some k => r.1 = FR_OK /\ 0 <= k < dir_len w c l /\ found w c l k dp r.2 v'
    | None => r.1 = FR_NO_FILE
    end) v.
Proof.
  intros Hv Hd Hc Hfn. eapply see_dir_find; [done..| |].
  - intros k dp' v' Hv' Hk Hf E. by rewrite E.
  - intros dp' v' Hv' _ E. by rewrite E.
Qed.
End Walking.

(** The root directory of a mounted volume. *)
Lemma root_dir_ok c bsect id l : Forall is_byte (c bsect) -> bpb_fits bsect (c bsect) -> mountable (c bsect) = true ->
  (bpb_type (c bsect) = FS_FAT32 -> w_chain (volume_view c bsect id) (dword_at (c bsect) BPB_RootClus32) l /\ l <> []) ->
  dir_ok (volume_view c bsect id) 0 l.
Proof.
  intros Hb Hf Hm Hl. pose proof (boot_geom_ok c id bsect Hb Hf Hm) as Hok.
  pose proof (geom_bounds _ Hok) as (Hn & _). pose proof (word_at_range (c bsect) BPB_RootEntCnt Hb) as Hre.
  pose proof (go_type _ Hok) as Ht. unfold dir_start, volume_view, boot_geom in *. 
  destruct (sysect_parts c bsect Hf Hb) as (_ & _ & _ & Es & _). unfold mountable in Hm. cbv zeta in Hm. breflect.
  destruct Hm as ((((((((((_ & _) & _) & _) & Hmod) & _) & _) & _) & _) & Hroot) & _).
  split; unfold dir_start; cbn [w_geom g_type g_dirbase Z.eqb andb] in *.
  - destruct (Z.eqb_spec (bpb_type (c bsect)) FS_FAT32) as [E|E].
    + rewrite E. change (FS_FAT32 <=? FS_FAT32) with true. cbv iota. intros E0. destruct (Hl E) as [Hch Hne].
      destruct l as [|x l']; [done|]. destruct Hch as (E1 & Hx & _). lia.
    + intros _. breflect. change (SS / SZDIRE) with 16 in *. split; cbn [g_rootdir g_fatbase g_fats g_fsize g_dirbase g_database]; [lia|].
      split; [done|]. split; lia.
  - destruct (Z.eqb_spec (bpb_type (c bsect)) FS_FAT32) as [E|E].
    + replace (FS_FAT32 <=? bpb_type (c bsect)) with true by by rewrite E. intros _. exact (Hl E).
    + destruct Ht as [E1|[E1|E1]]; rewrite E1 in *; try done.
Qed.
