(* ===== verification/FatNames.v ===== *)
(** * FatFs: names

    The names of 8.3 form in the text of a path and in directory entries: [create_name]
    takes the text of a segment to the name of the entry, [get_fileinfo] takes it
    back. *)

From S2P Require Import Prelude FatData FatFs FatPath FatFile FatVolume FatTable FatChain FatContents FatWrite.
From S2P Require Import FatTheorems FatMount FatEntries.

#[local] Open Scope Z_scope.
#[local] Open Scope list_scope.
#[local] Arguments insertZ : simpl never.
#[local] Arguments lookupZ : simpl never.

(** ** Names and their text *)

Definition upper (c : Z) : Z := if IsLower c then c - 0x20 else c.

(** A character that can be in a name; the others of ASCII are separators, the dot,
    control characters and those [create_name] rejects. *)
Definition name_char (c : Z) : bool :=
  (32 <? c) && (c <? 128) && negb (IsSeparator c) && negb (c =? 46) && negb (strchr illegal_chars c).

Record fname := Fname { base : list Z; ext : list Z }.

Definition legal (n : fname) : bool :=
  forallb name_char (base n) && forallb name_char (ext n) &&
  (1 <=? zlen (base n)) && (zlen (base n) <=? 8) && (zlen (ext n) <=? 3).

Definition text (n : fname) : list Z := base n ++ match ext n with [] => [] | e => 46 :: e end.

Definition pad (n : nat) (l : list Z) : list Z := l ++ replicate (n - length l) 32.
Definition entry_name (n : fname) : list Z := pad 8 (map upper (base n)) ++ pad 3 (map upper (ext n)).

(** The segments of a path, and its end. *)
Fixpoint path_text (names : list fname) : list Z :=
  match names with
  | [] => [0]
  | [n] => text n ++ [0]
  | n :: names => text n ++ 47 :: path_text names
  end.

Lemma name_char_spec c : name_char c = true ->
  32 < c < 128 /\ IsSeparator c = false /\ (c =? 46) = false /\ dbc_1st c = false /\ strchr illegal_chars c = false.
Proof.
  unfold name_char, dbc_1st. intros Hc. breflect. destruct Hc as ((((Hc1 & Hc2) & Hs) & Hd) & Hi).
  split; [lia|]. split; [by destruct (IsSeparator c)|]. split; [by apply Z.eqb_neq|].
  split; [|by destruct (strchr _ _)]. change (dbc 0) with 0x81. by rewrite (proj2 (Z.leb_gt _ _)) by lia.
Qed.

(** ** Storing a name *)

(** The characters from [i] on. *)
Fixpoint fill (sfn : list Z) (i : Z) (l : list Z) : list Z :=
  match l with
  | [] => sfn
  | c :: l => fill (insertZ i (upper c) sfn) (i + 1) l
  end.

Lemma zlen_fill l sfn i : zlen (fill sfn i l) = zlen sfn.
Proof. revert sfn i. induction l as [|c l IH]; intros sfn i; cbn [fill]; [done|]. by rewrite IH, zlen_insertZ. Qed.

Lemma insertZ_middle (a b : list Z) x y : insertZ (zlen a) x (a ++ y :: b) = a ++ x :: b.
Proof.
  unfold insertZ, zlen. destruct (Z.leb_spec 0 (Z.of_nat (length a))); [|lia]. rewrite Nat2Z.id.
  by rewrite insert_app_r_alt, Nat.sub_diag by lia.
Qed.

Lemma fill_pad l a b : (length l <= length b)%nat ->
  fill (a ++ b) (zlen a) l = a ++ map upper l ++ drop (length l) b.
Proof.
  revert a b. induction l as [|c l IH]; intros a b Hl; [done|]. destruct b as [|y b]; [cbn in Hl; lia|].
  cbn [fill map]. rewrite insertZ_middle. change (a ++ upper c :: b) with (a ++ [upper c] ++ b). rewrite app_assoc.
  replace (zlen a + 1) with (zlen (a ++ [upper c])) by (rewrite zlen_app; done).
  rewrite IH by (cbn in Hl; lia). by rewrite <- app_assoc.
Qed.

Section Names.
Context {St : Type}.
Implicit Types (s : St) (p sfn : list Z).

(** The text from [si] on starts with [l]. *)
Definition at_text p si l tail : Prop := 0 <= si /\ drop (Z.to_nat si) p = l ++ tail.

Lemma at_text_get p si c l tail : at_text p si (c :: l) tail ->
  lookupZ p si = Some c /\ at_text p (si + 1) l tail.
Proof.
  intros [Hi E]. unfold lookupZ. destruct (Z.leb_spec 0 si); [|lia]. split.
  - replace (Z.to_nat si) with (Z.to_nat si + 0)%nat by lia. by rewrite <- lookup_drop, E.
  - split; [lia|]. replace (Z.to_nat (si + 1)) with (Z.to_nat si + 1)%nat by lia. by rewrite <- drop_drop, E.
Qed.

Lemma at_text_tail p si tail c : at_text p si [] (c :: tail) -> at_text p si [c] tail.
Proof. done. Qed.

(** A run of characters of a name. *)
Lemma see_name_run p l tail fuel ni Q s : forallb name_char l = true ->
  forall sfn si i, at_text p si l tail -> 0 <= i -> i + zlen l <= ni -> ni <= zlen sfn ->
  (at_text p (si + zlen l) [] tail ->
   wp (name_chars fuel p (fill sfn i l) (si + zlen l) (i + zlen l) ni) Q s) ->
  wp (name_chars (length l + fuel) p sfn si i ni) Q s.
Proof.
  induction l as [|c l IH]; intros Hl sfn si i Hp Hi Hn Hs HQ.
  { cbn [length Nat.add fill] in *. change (zlen []) with 0 in HQ. rewrite !Z.add_0_r in HQ. by apply HQ. }
  cbn [forallb] in Hl. apply andb_true_iff in Hl as [Hc Hl]. destruct (name_char_spec c Hc) as (Hr & E1 & E2 & E3 & E4).
  destruct (at_text_get _ _ _ _ _ Hp) as [Eg Hp']. assert (zlen (c :: l) = zlen l + 1) as El by (unfold zlen; cbn; lia).
  pose proof (zlen_nonneg l). cbn [length Nat.add name_chars]. apply wp_bind. eapply wp_array_get; [exact Eg|].
  rewrite (proj2 (Z.leb_gt _ _)), E1, E2, (proj2 (Z.leb_gt _ _)), E3, E4 by lia. cbn [orb negb]. fold (upper c).
  apply wp_bind, wp_array_set; [lia|]. apply (IH Hl (insertZ i (upper c) sfn) (si + 1) (i + 1)); [done|lia|lia|by rewrite zlen_insertZ|].
  intros Ht. cbn [fill] in HQ. rewrite El in HQ. replace (si + 1 + zlen l) with (si + (zlen l + 1)) in * by lia.
  replace (i + 1 + zlen l) with (i + (zlen l + 1)) by lia. by apply HQ.
Qed.

(** What follows a segment: the end of the path, or a separator and the next one. *)
Definition segment_end (d : Z) (tail : list Z) : Prop :=
  d = 0 \/ d = 47 /\ exists c tail', tail = c :: tail' /\ name_char c = true.

Lemma see_name_end p d tail fuel ni sfn si i Q s : segment_end d tail -> at_text p si [d] tail ->
  Q (Some (d, sfn, si + 1, i)) s -> wp (name_chars (S fuel) p sfn si i ni) Q s.
Proof.
  intros He Hp HQ. destruct (at_text_get _ _ _ _ _ Hp) as [Eg Hp']. cbn [name_chars].
  apply wp_bind. eapply wp_array_get; [exact Eg|]. destruct He as [->|(-> & c & tail' & -> & Hc)]; [by apply wp_ret|].
  change (47 <=? 32) with false. change (IsSeparator 47) with true. cbv iota. apply wp_bind. cbn [skip_separators].
  destruct (name_char_spec c Hc) as (_ & Es & _). destruct (at_text_get p (si + 1) c [] tail' Hp') as [Eg' _].
  apply wp_bind. eapply wp_array_get; [exact Eg'|]. rewrite Es. by do 2 apply wp_ret.
Qed.

Lemma legal_spec n : legal n = true -> forallb name_char (base n) = true /\ forallb name_char (ext n) = true /\
  1 <= zlen (base n) <= 8 /\ 0 <= zlen (ext n) <= 3.
Proof.
  unfold legal. intros Hn. breflect. destruct Hn as ((((Hb & He) & H1) & H2) & H3). pose proof (zlen_nonneg (ext n)).
  split; [done|]. split; [done|]. lia.
Qed.

(** The two parts of the name. *)
Lemma fill_base b x : (length b <= 8)%nat ->
  fill (replicate 11 32 ++ [x]) 0 b = pad 8 (map upper b) ++ replicate 3 32 ++ [x].
Proof.
  intros Hb. change (fill (replicate 11 32 ++ [x]) 0 b) with (fill ([] ++ (replicate 8 32 ++ replicate 3 32) ++ [x]) (zlen (@nil Z)) b).
  rewrite fill_pad by (rewrite !length_app, !length_replicate; lia). unfold pad.
  by rewrite length_map, <- !app_assoc, drop_app_le, drop_replicate by (rewrite length_replicate; lia).
Qed.

Lemma fill_ext a e x : zlen a = 8 -> (length e <= 3)%nat ->
  fill (a ++ replicate 3 32 ++ [x]) 8 e = (a ++ pad 3 (map upper e)) ++ [x].
Proof.
  intros <- He. rewrite fill_pad by (rewrite length_app, length_replicate; lia). unfold pad.
  rewrite length_map, drop_app_le, drop_replicate by (rewrite length_replicate; lia). by rewrite <- !app_assoc.
Qed.

Lemma zlen_pad n l : (length l <= n)%nat -> zlen (pad n l) = Z.of_nat n.
Proof. intros Hl. unfold zlen, pad. rewrite length_app, length_replicate. lia. Qed.

(** The whole segment: the base, and the extension after a dot. *)
Lemma see_segment p b e x d tail fuel Q s : legal (Fname b e) = true -> segment_end d tail ->
  p = text (Fname b e) ++ d :: tail -> (length p <= fuel)%nat ->
  (forall i, 1 <= i -> Q (Some (d, entry_name (Fname b e) ++ [x], zlen (text (Fname b e)) + 1, i)) s) ->
  wp (name_chars fuel p (replicate 11 32 ++ [x]) 0 0 8) Q s.
Proof.
  intros Hn He Hp Hf HQ. destruct (legal_spec _ Hn) as (Hb & Hx & Lb & Lx). unfold text, entry_name in *. cbn [base ext] in *.
  assert (length b <= 8 /\ length e <= 3)%nat as [Nb Ne] by (unfold zlen in *; lia).
  assert (zlen (replicate 11 32 ++ [x]) = 12) as Z12 by (rewrite zlen_app; done).
  destruct e as [|e0 e1]; [|set (e := e0 :: e1) in *].
  - rewrite app_nil_r in Hp, HQ. rewrite Hp, length_app in Hf. cbn [length] in Hf.
    replace fuel with (length b + S (fuel - length b - 1))%nat by lia.
    eapply (see_name_run p b (d :: tail)); [done|split; [done|by rewrite Hp]|lia|lia|lia|]. intros Ht.
    eapply see_name_end; [exact He|exact Ht|]. rewrite fill_base by done. rewrite Z.add_0_l.
    specialize (HQ (0 + zlen b) ltac:(lia)). by rewrite <- app_assoc in HQ.
  - assert (Hp' : p = b ++ 46 :: e ++ d :: tail) by by rewrite Hp, <- app_assoc.
    rewrite Hp', length_app in Hf. cbn [length] in Hf. rewrite length_app in Hf. cbn [length] in Hf.
    replace fuel with (length b + S (length e + S (fuel - length b - length e - 2)))%nat by lia.
    eapply (see_name_run p b (46 :: e ++ d :: tail)); [done|split; [done|by rewrite Hp']|lia|lia|lia|]. intros Ht.
    destruct (at_text_get p (0 + zlen b) 46 [] (e ++ d :: tail) Ht) as [Eg Ht2]. cbn [name_chars].
    apply wp_bind. eapply wp_array_get; [exact Eg|]. cbv beta. change (46 <=? 32) with false. change (IsSeparator 46) with false.
    cbn [orb Z.eqb negb Pos.eqb]. rewrite fill_base by done.
    eapply (see_name_run p e (d :: tail)); [done|exact Ht2|lia|lia| |].
    + rewrite zlen_app, zlen_pad by (rewrite length_map; done). change (zlen (replicate 3 32 ++ [x])) with 4. lia.
    + intros Ht3. eapply see_name_end; [exact He|exact Ht3|]. rewrite fill_ext by (done || (rewrite zlen_pad by (rewrite length_map; done); done)).
      specialize (HQ (8 + zlen e) ltac:(lia)). rewrite zlen_app in HQ. change (zlen (46 :: e)) with (zlen ([46] ++ e)) in HQ.
      rewrite zlen_app in HQ. change (zlen [46]) with 1 in HQ.
      by replace (0 + zlen b + 1 + zlen e + 1) with (zlen b + (1 + zlen e) + 1) by lia.
Qed.
Lemma zlen_entry_name n : legal n = true -> zlen (entry_name n) = 11.
Proof.
  intros Hn. destruct (legal_spec n Hn) as (_ & _ & Lb & Lx). unfold zlen in *.
  unfold entry_name. rewrite length_app. unfold pad. rewrite !length_app, !length_map, !length_replicate. lia.
Qed.

(** A short name starts with a character that stands for itself. *)
Lemma entry_name_first n x : legal n = true -> exists c, lookupZ (entry_name n ++ [x]) 0 = Some c /\ 32 < c < 128.
Proof.
  intros Hn. destruct (legal_spec n Hn) as (Hb & _ & Lb & _). unfold entry_name, pad.
  destruct (base n) as [|c b]; [unfold zlen in Lb; cbn in Lb; lia|]. cbn [forallb] in Hb.
  apply andb_true_iff in Hb as [Hc _]. destruct (name_char_spec c Hc) as ((H1 & H2) & _).
  exists (upper c). split; [done|]. unfold upper, IsLower. destruct (_ && _) eqn:E; [|lia]. breflect. lia.
Qed.

Lemma split_fn (sfn : list Z) : zlen sfn = 12 -> (forall j, 0 <= j < 11 -> byte_at sfn j = 32) ->
  exists x, sfn = replicate 11 32 ++ [x].
Proof.
  intros Hl Hb. exists (byte_at sfn 11). apply bytes_ext; [done|]. intros j Hj. rewrite Hl in Hj.
  destruct (Z.eq_dec j 11) as [->|]; [done|].
  rewrite Hb by lia. rewrite byte_at_app by lia. change (zlen (replicate 11 32)) with 11.
  rewrite (proj2 (Z.ltb_lt j 11)) by lia. assert (exists k, (k < 11)%nat /\ j = Z.of_nat k) as (k & Hk & ->) by (exists (Z.to_nat j); lia).
  do 11 (destruct k as [|k]; [done|]). lia.
Qed.

(** [create_name] of a segment in the text of a path. *)
Lemma see_create_name n d tail fnm Q s : legal n = true -> segment_end d tail -> zlen fnm = 12 ->
  Q (FR_OK, entry_name n ++ [if d =? 0 then NS_LAST else 0], tail) s ->
  wp (create_name fnm (text n ++ d :: tail)) Q s.
Proof.
  intros Hn He Hl HQ. unfold create_name. apply wp_bind, wp_array_copy; [lia|rewrite Hl; done|].
  intros sfn [Hs1 Hs2] _. destruct (split_fn sfn) as [x ->]; [by rewrite Hs1|intros j Hj; rewrite Hs2 by lia|].
  { change (zlen (replicate 11 32)) with 11. unfold in_range. rewrite (proj2 (Z.leb_le 0 j)), (proj2 (Z.ltb_lt j (0 + 11))) by lia.
    cbn [andb]. assert (exists k, (k < 11)%nat /\ j = Z.of_nat k) as (k & Hk & ->) by (exists (Z.to_nat j); lia).
    do 11 (destruct k as [|k]; [done|]). lia. }
  destruct n as [b e]. apply wp_bind. eapply (see_segment _ b e x d tail); [exact Hn|exact He|done|lia|].
  intros i Hi. set (n := Fname b e) in *. rewrite (proj2 (Z.eqb_neq i 0)) by lia.
  destruct (entry_name_first n x Hn) as (c0 & E0 & Hc0). pose proof (zlen_entry_name n Hn) as L11.
  apply wp_bind. eapply wp_array_get; [exact E0|]. rewrite (proj2 (Z.eqb_neq c0 DDEM)) by (unfold DDEM; lia). apply wp_bind, wp_ret.
  assert (Edrop : drop (Z.to_nat (zlen (text n) + 1)) (text n ++ d :: tail) = tail).
  { change (d :: tail) with ([d] ++ tail). rewrite app_assoc. unfold zlen.
    replace (Z.to_nat (Z.of_nat (length (text n)) + 1)) with (length (text n ++ [d])) by (rewrite length_app; cbn; lia).
    apply drop_app_length. }
  rewrite Edrop. apply wp_bind. apply (wp_mono _ (fun r s' => r = (d =? 0) /\ s' = s)).
  { destruct He as [->|(-> & c & tail' & -> & Hc)]; [by apply wp_ret|]. change (47 <=? 32) with false. cbv iota.
    destruct (name_char_spec c Hc) as ((H1 & _) & _).
    destruct (at_text_get (text n ++ 47 :: c :: tail') (zlen (text n) + 1) c [] tail') as [Eg _].
    { split; [pose proof (zlen_nonneg (text n)); lia|exact Edrop]. }
    apply wp_bind. eapply wp_array_get; [exact Eg|]. apply wp_ret. split; [|done]. apply Z.leb_gt. lia. }
  intros last s' [-> ->]. apply wp_bind, wp_array_set; [rewrite zlen_app, L11; unfold NSFLAG; change (zlen [x]) with 1; lia|].
  change NSFLAG with 11. rewrite <- L11, insertZ_middle. by apply wp_ret.
Qed.
End Names.

(** ** Showing a name *)

Section Shown.
Context {D : Type} `{WorkingDrive D contents online many} (copied : Z -> Prop).
Implicit Types (v : vol D).
Abbreviation holds := (holds (contents := contents) (online := online) copied).

Context (v : vol D) (w : view) (c : Z) (l : list Z) (k : Z) (Hv : holds v w).
Context (Hwin : winsect (v_fs v) = dir_sector w c l k).

(** Bytes [si] to [si + length t] of the entry are [t]. *)
Definition bytes_of (si : Z) (t : list Z) : Prop :=
  forall j, 0 <= j < zlen t -> dir_byte w c l k (si + j) = byte_at t j.

Lemma bytes_of_cons si x t : bytes_of si (x :: t) -> dir_byte w c l k si = x /\ bytes_of (si + 1) t.
Proof.
  intros Ht. pose proof (zlen_nonneg t). assert (zlen (x :: t) = zlen t + 1) as E by (unfold zlen; cbn; lia). split.
  - rewrite <- (Z.add_0_r si). by rewrite Ht by lia.
  - intros j Hj. rewrite <- Z.add_assoc, Ht by lia. change (x :: t) with ([x] ++ t). rewrite byte_at_app by lia.
    change (zlen [x]) with 1. rewrite (proj2 (Z.ltb_ge _ _)) by lia. f_equal. lia.
Qed.

Lemma see_spaces a m si fname Q : 0 <= si -> si + Z.of_nat a <= 32 -> bytes_of si (replicate a 32) ->
  wp (name_loop m (si + Z.of_nat a) (dir_offset k) fname) Q v ->
  wp (name_loop (a + m) si (dir_offset k) fname) Q v.
Proof.
  revert si. induction a as [|a IH]; intros si Hi Hl Hb HQ; cbn [Nat.add name_loop]; [by rewrite Z.add_0_r in HQ|].
  change (replicate (S a) 32) with (32 :: replicate a 32) in Hb. apply bytes_of_cons in Hb as [Hb1 Hb2].
  apply wp_bind. eapply (see_entry_byte copied v w c l); [exact Hv|done|lia|]. rewrite Hb1. cbn [Z.eqb Pos.eqb]. apply IH; [lia|lia|done|]. by replace (si + 1 + Z.of_nat a) with (si + Z.of_nat (S a)) by lia.
Qed.

Lemma see_chars t m si fname Q : forallb (fun x => 32 <? x) t = true -> 0 <= si -> si + zlen t <= 8 \/ 9 <= si /\ si + zlen t <= 32 ->
  bytes_of si t -> wp (name_loop m (si + zlen t) (dir_offset k) (fname ++ t)) Q v ->
  wp (name_loop (length t + m) si (dir_offset k) fname) Q v.
Proof.
  revert si fname. induction t as [|x t IH]; intros si fname Ht Hi Hl Hb HQ; cbn [length Nat.add name_loop].
  { by rewrite Z.add_0_r, app_nil_r in HQ. }
  assert (zlen (x :: t) = zlen t + 1) as E by (unfold zlen; cbn; lia). pose proof (zlen_nonneg t). rewrite E in *.
  apply bytes_of_cons in Hb as [Hb1 Hb2]. cbn [forallb] in Ht. apply andb_true_iff in Ht as [Hx Ht]. apply Z.ltb_lt in Hx.
  apply wp_bind. eapply (see_entry_byte copied v w c l); [exact Hv|done|lia|].
  rewrite Hb1, (proj2 (Z.eqb_neq x 32)), (proj2 (Z.eqb_neq x RDDEM)) by (unfold RDDEM; lia). cbv zeta iota.
  rewrite (proj2 (Z.eqb_neq (si + 1) 9)) by lia. cbv iota. apply IH; [done|lia|lia|done|].
  rewrite <- app_assoc. cbn [app]. by replace (si + 1 + zlen t) with (si + (zlen t + 1)) by lia.
Qed.

Lemma bytes_of_app si t1 t2 : bytes_of si (t1 ++ t2) -> bytes_of si t1 /\ bytes_of (si + zlen t1) t2.
Proof.
  intros Ht. pose proof (zlen_nonneg t1). pose proof (zlen_nonneg t2). unfold bytes_of in Ht. rewrite zlen_app in Ht. split; intros j Hj.
  - rewrite Ht by lia. rewrite byte_at_app by lia. by rewrite (proj2 (Z.ltb_lt _ _)) by lia.
  - rewrite <- Z.add_assoc, Ht by lia. rewrite byte_at_app by lia. rewrite (proj2 (Z.ltb_ge _ _)) by lia. f_equal. lia.
Qed.

Lemma upper_chars t : forallb name_char t = true -> forallb (fun x => 32 <? x) (map upper t) = true.
Proof.
  intros Ht. apply forallb_forall. intros y (x & <- & Hx)%in_map_iff. eapply forallb_forall in Ht; [|exact Hx].
  destruct (name_char_spec x Ht) as ((H1 & H2) & _). unfold upper, IsLower. apply Z.ltb_lt. destruct (_ && _) eqn:E; [|lia].
  breflect. lia.
Qed.

(** A character after the base: the dot comes first. *)
Lemma see_name_loop n Q : legal n = true -> bytes_of 0 (entry_name n) ->
  Q (map upper (text n)) v -> wp (name_loop 11 0 (dir_offset k) []) Q v.
Proof.
  intros Hn Hb HQ. destruct (legal_spec n Hn) as (Hbs & Hx & Lb & Lx). destruct n as [b e]. unfold text, entry_name in *.
  cbn [base ext] in *. rewrite map_app in HQ. set (b' := map upper b) in *. set (e' := map upper e) in *.
  assert (length b' = length b /\ length e' = length e) as [Nb Ne] by (subst b' e'; by rewrite !length_map).
  assert (Zb : zlen b' = zlen b /\ zlen b = Z.of_nat (length b)) by (unfold zlen; by rewrite Nb).
  assert (Ze : zlen e' = zlen e /\ zlen e = Z.of_nat (length e)) by (unfold zlen; by rewrite Ne).
  destruct Zb as [Zb Zb'], Ze as [Ze Ze']. apply bytes_of_app in Hb as [Hb He].
  rewrite zlen_pad in He by lia. unfold pad in Hb, He. rewrite Nb in Hb. rewrite Ne in He.
  apply bytes_of_app in Hb as [Hb1 Hb2], He as [He1 He2]. change (0 + Z.of_nat 8) with 8 in *.
  replace 11%nat with (length b' + ((8 - length b) + 3))%nat by lia.
  apply see_chars; [by apply upper_chars|lia|lia|done|]. rewrite Z.add_0_l, Zb in *. cbn [app].
  apply see_spaces; [lia|lia|done|]. replace (zlen b + Z.of_nat (8 - length b)) with 8 by lia.
  destruct e as [|e0 e1].
  - cbn in e'. subst e'. change 3%nat with (3 + 0)%nat. apply see_spaces; [lia|lia|done|]. cbn [name_loop].
    apply wp_ret. by rewrite app_nil_r in HQ.
  - set (e1' := map upper e1) in *. change e' with (upper e0 :: e1') in *.
    pose proof (upper_chars (e0 :: e1) Hx) as Hup. change (map upper (e0 :: e1)) with (upper e0 :: e1') in Hup.
    cbn [forallb] in Hup. apply andb_true_iff in Hup as [Hu0 Hu1]. apply Z.ltb_lt in Hu0.
    assert (zlen (upper e0 :: e1') = zlen e1' + 1) as Z1 by (unfold zlen; cbn; lia). rewrite Z1 in *.
    assert (length e1' = length e1) as N1 by apply length_map. assert (zlen e1' = Z.of_nat (length e1)) as Z2 by (unfold zlen; by rewrite N1).
    cbn [length] in *. apply bytes_of_cons in He1 as [Hc0 He1].
    replace 3%nat with (S (length e1' + ((2 - length e1) + 0))) by lia. cbn [name_loop].
    apply wp_bind. eapply (see_entry_byte copied v w c l); [exact Hv|done|lia|]. rewrite Hc0.
    rewrite (proj2 (Z.eqb_neq _ 32)), (proj2 (Z.eqb_neq _ RDDEM)) by (unfold RDDEM; lia). cbv zeta iota.
    change (8 + 1 =? 9) with true. cbv iota.
    apply see_chars; [done|lia|lia|done|]. replace (8 + 1 + zlen e1') with (8 + (zlen e1' + 1)) by lia.
    apply see_spaces; [lia|lia|done|]. cbn [name_loop]. apply wp_ret.
    rewrite <- !app_assoc. exact HQ.
Qed.
End Shown.

Lemma byte_at_bytes l i n j : 0 <= j < Z.of_nat n -> byte_at (bytes_at l i n) j = byte_at l (i + j).
Proof.
  revert i j. induction n as [|n IH]; intros i j Hj; [lia|]. rewrite bytes_at_S.
  change (byte_at l i :: bytes_at l (i + 1) n) with ([byte_at l i] ++ bytes_at l (i + 1) n). rewrite byte_at_app by lia.
  change (zlen [byte_at l i]) with 1. destruct (Z.ltb_spec j 1).
  - replace j with 0 by lia. by rewrite Z.add_0_r.
  - rewrite IH by lia. f_equal. lia.
Qed.

Lemma bytes_at_whole t x n : zlen t = Z.of_nat n -> bytes_at (t ++ [x]) 0 n = t.
Proof.
  intros Hl. assert (zlen (bytes_at (t ++ [x]) 0 n) = Z.of_nat n) as E by (unfold zlen, bytes_at; by rewrite length_map, length_seq).
  apply bytes_ext; [congruence|]. intros j Hj. rewrite byte_at_bytes, byte_at_app by lia.
  by rewrite (proj2 (Z.ltb_lt _ _)) by lia.
Qed.

(** A word and a double word of entry [k]. *)
Definition dir_word (w : view) (c : Z) (l : list Z) (k j : Z) : Z :=
  word_at (w_disk w (dir_sector w c l k)) (dir_offset k + j).
Definition dir_dword (w : view) (c : Z) (l : list Z) (k j : Z) : Z :=
  dword_at (w_disk w (dir_sector w c l k)) (dir_offset k + j).

(** What [get_fileinfo] says of entry [k] with the name [n]. *)
Definition entry_info (w : view) (c : Z) (l : list Z) (k : Z) (n : fname) : FILINFO :=
  MkFILINFO (dir_dword w c l k DIR_FileSize) (dir_word w c l k (DIR_ModTime + 2)) (dir_word w c l k DIR_ModTime)
    (Z.land (dir_byte w c l k DIR_Attr) AM_MASK) (map upper (text n)).

Section Info.
Context {D : Type} `{WorkingDrive D contents online many} (copied : Z -> Prop).
Implicit Types (v : vol D).
Abbreviation holds := (holds (contents := contents) (online := online) copied).

Lemma see_entry_word v w c l k j Q : holds v w -> winsect (v_fs v) = dir_sector w c l k -> 0 <= j < 31 ->
  Q (dir_word w c l k j) v -> wp (win_ld_word (dir_offset k + j)) Q v.
Proof.
  intros Hv Hs Hj HQ. destruct (dir_offset_range k), (window_sector copied v w Hv) as [Hl Hb]. apply wp_bind, wp_gets.
  apply wp_ld_word; [done|lia|lia|]. by rewrite (h_win _ _ _ Hv), Hs.
Qed.

Lemma see_entry_dword v w c l k j Q : holds v w -> winsect (v_fs v) = dir_sector w c l k -> 0 <= j < 29 ->
  Q (dir_dword w c l k j) v -> wp (win_ld_dword (dir_offset k + j)) Q v.
Proof.
  intros Hv Hs Hj HQ. destruct (dir_offset_range k), (window_sector copied v w Hv) as [Hl Hb]. apply wp_bind, wp_gets.
  apply wp_ld_dword; [done|lia|lia|]. by rewrite (h_win _ _ _ Hv), Hs.
Qed.

Lemma see_get_fileinfo v w c l k n dp fno Q : holds v w -> legal n = true -> dir_at w c l k dp -> 0 < dir_sector w c l k ->
  winsect (v_fs v) = dir_sector w c l k -> dir_name w c l k = entry_name n ->
  Q (entry_info w c l k n) v -> wp (get_fileinfo dp fno) Q v.
Proof.
  intros Hv Hn Ha Hpos Hs Hname HQ. unfold get_fileinfo. rewrite (da_sect _ _ _ _ _ Ha), (da_dir _ _ _ _ _ Ha).
  rewrite (proj2 (Z.eqb_neq _ _)) by lia. apply wp_bind. eapply (see_name_loop copied v w c l k Hv Hs n); [done|..].
  { intros j Hj. rewrite zlen_entry_name in Hj by done. rewrite <- Hname. unfold dir_name. rewrite byte_at_bytes by lia.
    unfold dir_byte. f_equal. }
  apply wp_bind. eapply see_entry_byte; [done|done|done|]. apply wp_bind. eapply see_entry_dword; [done|done|done|].
  apply wp_bind. rewrite Z.add_0_r. eapply see_entry_word; [done|done|done|].
  apply wp_bind. rewrite <- Z.add_assoc. eapply see_entry_word; [done|done|done|]. by apply wp_ret.
Qed.

(** [C34]: a name of 8.3 form survives the way to the entry and back: [create_name] takes
    its text, in any case, to the 11 bytes in which entries are compared, padded
    with blanks; [dir_find] finds the entry with these bytes if the directory has
    one; and [get_fileinfo] shows of this entry the name in upper case with its dot,
    without the blanks, with the size, the attributes and the time of the entry. *)
Theorem names_roundtrip v w c l n dp fno : holds v w -> dir_ok w c l -> dj_sclust dp = c ->
  zlen (fn dp) = 12 -> legal n = true ->
  wp (let* r := create_name (fn dp) (text n ++ [0]) in
      let* f := dir_find (set_fn r.1.2 dp) in
      if is_ok f.1 then let* i := get_fileinfo f.2 fno in ret (r.1.1, f.1, Some i) else ret (r.1.1, f.1, None))
    (fun r v' => holds v' w /\
      match dir_lookup w c l (entry_name n) with
      | Some k => r = (FR_OK, FR_OK, Some (entry_info w c l k n))
      | None => r = (FR_OK, FR_NO_FILE, None)
      end) v.
Proof.
  intros Hv Hd Hc Hl Hn. apply wp_bind, see_create_name; [done|by left|done|]. cbn [fst snd Z.eqb].
  pose proof (zlen_entry_name n Hn) as L11.
  assert (bytes_at (fn (set_fn (entry_name n ++ [NS_LAST]) dp)) 0 11 = entry_name n) as E by by apply bytes_at_whole.
  apply wp_bind. eapply (see_dir_find copied v w c l); [done|done|done|cbn [fn set_fn]; rewrite zlen_app, L11; change (zlen [NS_LAST]) with 1; lia|..]; rewrite E.
  - intros k dp' v' Hv' Hk [Ha _ _ Hwin] Hf. cbn [fst is_ok fr_eqb]. change (is_ok FR_OK) with true. cbv iota.
    destruct (dir_sector_proper w c l (h_ok _ _ _ Hv) Hd k Hk) as (_ & _ & Hpos).
    destruct (dir_lookup_Some _ _ _ _ _ Hf) as (_ & Hm & _). apply andb_true_iff in Hm as [_ Hm%bool_decide_eq_true_1].
    apply wp_bind. eapply see_get_fileinfo; [exact Hv'|exact Hn|exact Ha|exact Hpos|exact Hwin|exact Hm|].
    apply wp_ret. by rewrite Hf.
  - intros dp' v' Hv' _ Hf. change (is_ok (FR_NO_FILE, dp').1) with false. cbv iota. apply wp_ret. by rewrite Hf.
Qed.
End Info.
