(* ===== verification/FatOpen.v ===== *)
(** * FatFs: opening a file

    Where a path leads on the logical disk, directory by directory, and that
    [follow_path] and [f_open] go there.  With mounting and reading this connects the
    contents of a drive to what an application reads. *)

From stdpp Require Import sets.
From S2P Require Import Prelude FatData FatFs FatPath FatFile FatVolume FatTable FatChain FatContents FatRead FatWrite.
From S2P Require Import FatTheorems FatMount FatEntries FatNames.

#[local] Open Scope Z_scope.
#[local] Open Scope list_scope.
#[local] Arguments insertZ : simpl never.
#[local] Arguments lookupZ : simpl never.

(** ** Paths on the logical disk *)

Definition dir_attr (w : view) (c : Z) (l : list Z) (k : Z) : Z := Z.land (dir_byte w c l k DIR_Attr) AM_MASK.
Definition is_dir (w : view) (c : Z) (l : list Z) (k : Z) : bool := negb (Z.land (dir_attr w c l k) AM_DIR =? 0).

(** The first cluster of what entry [k] stands for, and its size. *)
Definition entry_cluster (w : view) (c : Z) (l : list Z) (k : Z) : Z :=
  dir_word w c l k DIR_FstClusLO +
  (if g_type (w_geom w) =? FS_FAT32 then 65536 * dir_word w c l k DIR_FstClusHI else 0).
Definition entry_size (w : view) (c : Z) (l : list Z) (k : Z) : Z := dir_dword w c l k DIR_FileSize.

(** From the directory [c] the names lead to entry [k] of the directory with the
    clusters [l], or to nothing. *)
Inductive leads (w : view) : Z -> list fname -> (Z * list Z * Z) + FRESULT -> Prop :=
  | leads_here c l n k : dir_ok w c l -> dir_lookup w c l (entry_name n) = Some k ->
      leads w c [n] (inl (c, l, k))
  | leads_no_file c l n : dir_ok w c l -> dir_lookup w c l (entry_name n) = None ->
      leads w c [n] (inr FR_NO_FILE)
  | leads_no_path c l n names : names <> [] -> dir_ok w c l -> dir_lookup w c l (entry_name n) = None ->
      leads w c (n :: names) (inr FR_NO_PATH)
  | leads_no_dir c l n k names : names <> [] -> dir_ok w c l -> dir_lookup w c l (entry_name n) = Some k ->
      is_dir w c l k = false -> leads w c (n :: names) (inr FR_NO_PATH)
  | leads_down c l n k names r : names <> [] -> dir_ok w c l -> dir_lookup w c l (entry_name n) = Some k ->
      is_dir w c l k = true -> leads w (entry_cluster w c l k) names r -> leads w c (n :: names) r.

Lemma leads_error w c names r e : leads w c names r -> r = inr e -> e = FR_NO_FILE \/ e = FR_NO_PATH.
Proof. induction 1; intros E; try discriminate; auto; injection E as <-; auto. Qed.

(** The clusters of a file are none of those of the directory. *)
Definition apart (w : view) (c : Z) (l lf : list Z) : Prop := dir_start w c = 0 \/ forall x, x ∈ l -> x ∉ lf.

(** Entry [k] is that of a file with the clusters [lf]. *)
Record file_at (w : view) (c : Z) (l : list Z) (k : Z) (lf : list Z) : Prop := {
  fa_chain : file_chain w (entry_cluster w c l k) lf;
  fa_room : entry_size w c l k <= zlen lf * (g_csize (w_geom w) * SS);
  fa_apart : apart w c l lf
}.

(** ** The text of paths *)

Lemma path_text_cons (n : fname) (names : list fname) : path_text (n :: names) = text n ++ (if bool_decide (names = []) then 0 else 47) ::
  (if bool_decide (names = []) then [] else path_text names).
Proof. by destruct names. Qed.

Lemma path_text_first (n : fname) (names : list fname) : legal n = true -> exists c rest, path_text (n :: names) = c :: rest /\ name_char c = true.
Proof.
  intros Hn. destruct (legal_spec n Hn) as (Hb & _ & Lb & _). destruct n as [[|c b] e]; [unfold zlen in Lb; cbn in Lb; lia|].
  cbn [base forallb] in Hb. apply andb_true_iff in Hb as [Hc _].
  rewrite path_text_cons. unfold text. cbn [base app]. eauto.
Qed.

Lemma path_text_end (names : list fname) : forallb legal names = true ->
  segment_end (if bool_decide (names = []) then 0 else 47) (if bool_decide (names = []) then [] else path_text names).
Proof.
  destruct names as [|m names]; [by left|]. intros Hl. right. split; [done|]. cbn [forallb] in Hl.
  apply andb_true_iff in Hl as [Hm _]. destruct (path_text_first m names Hm) as (c & rest & E & Hc).
  rewrite bool_decide_eq_false_2 by done. eauto.
Qed.

Lemma plain_app t rest : forallb (fun c => negb (IsTerminator c) && negb (c =? 58)) t = true ->
  plain_path rest = true -> plain_path (t ++ rest) = true.
Proof.
  induction t as [|c t IH]; [done|]. cbn [forallb app plain_path]. intros Ht Hr. apply andb_true_iff in Ht as [Hc Ht].
  apply andb_true_iff in Hc as [Hc1 Hc2]. destruct (IsTerminator c); [done|]. rewrite Hc2. by apply IH.
Qed.

Lemma name_chars_plain t : forallb name_char t = true -> forallb (fun c => negb (IsTerminator c) && negb (c =? 58)) t = true.
Proof.
  intros Ht. apply forallb_forall. intros c Hc. eapply forallb_forall in Ht; [|exact Hc].
  destruct (name_char_spec c Ht) as (Hr & _ & _ & _ & Hi). unfold IsTerminator. rewrite (proj2 (Z.ltb_ge _ _)) by lia.
  destruct (Z.eqb_spec c 58) as [->|]; done.
Qed.

Lemma path_text_plain names : forallb legal names = true -> plain_path (path_text names) = true.
Proof.
  induction names as [|n names IH]; [done|]. cbn [forallb]. intros Hl. apply andb_true_iff in Hl as [Hn Hl].
  destruct (legal_spec n Hn) as (Hb & Hx & _). rewrite path_text_cons. apply plain_app.
  - unfold text. rewrite forallb_app, name_chars_plain by done. destruct (ext n) as [|x e]; [done|].
    exact (name_chars_plain (x :: e) Hx).
  - specialize (IH Hl). destruct names; [done|]. rewrite bool_decide_eq_false_2 by done. exact IH.
Qed.

Lemma path_text_length names : (length names <= length (path_text names))%nat.
Proof.
  induction names as [|n names IH]; [cbn; lia|]. rewrite path_text_cons, length_app. cbn [length].
  destruct names; [cbn; lia|]. rewrite bool_decide_eq_false_2 by done. cbn [length] in *.
  unfold text. rewrite length_app. lia.
Qed.

(** ** Directories and files in different sectors *)

Lemma cluster_at_elem lf i : 0 <= i < zlen lf -> cluster_at lf i ∈ lf.
Proof.
  intros Hi. unfold cluster_at. destruct (lookupZ_lt lf i Hi) as [x E]. rewrite E. cbn. unfold lookupZ in E.
  destruct (0 <=? i); [|done]. by eapply list_elem_of_lookup_2.
Qed.

Lemma apart_sectors w c l k lf : geom_ok (w_geom w) -> dir_ok w c l -> 0 <= k < dir_len w c l ->
  (forall x, x ∈ lf -> cluster w x) -> apart w c l lf ->
  forall j, sector_of (w_geom w) lf j -> dir_sector w c l k <> file_sector (w_geom w) lf j.
Proof.
  intros Hg Hd Hk Hch Hap j Hj E. pose proof (csize_pos w Hg) as Hcs.
  pose proof (file_sector_range w lf Hg Hch j Hj) as Hr.
  pose proof (sector_of_index w lf Hg j Hj) as Hij. unfold dir_sector in E. destruct (Z.eqb_spec (dir_start w c) 0) as [E0|E0].
  - destruct (do_root _ _ _ Hd E0) as (H1 & H2 & _ & H4). unfold dir_len, dir_room in Hk. rewrite E0 in Hk. cbn in Hk.
    assert (k / 16 < g_rootdir (w_geom w) / 16) by (Z.div_mod_to_equations; lia). lia.
  - destruct Hap as [Hap|Hap]; [done|]. pose proof (sector_of_index w l Hg _ (dir_index w c l k Hk E0)) as Hik.
    apply (Hap (cluster_at l (k / 16 / g_csize (w_geom w)))); [by apply cluster_at_elem|].
    unfold file_sector, data_sector in E.
    pose proof (Z.mod_pos_bound (k / 16) (g_csize (w_geom w))). pose proof (Z.mod_pos_bound j (g_csize (w_geom w))).
    pose proof (Z.div_mod_unique (g_csize (w_geom w)) (cluster_at l (k / 16 / g_csize (w_geom w)) - 2)
      (cluster_at lf (j / g_csize (w_geom w)) - 2) (k / 16 mod g_csize (w_geom w)) (j mod g_csize (w_geom w))) as Hu.
    assert (cluster_at l (k / 16 / g_csize (w_geom w)) = cluster_at lf (j / g_csize (w_geom w))) as -> by lia.
    by apply cluster_at_elem.
Qed.

Section Open.
Context {D : Type} `{WorkingDrive D contents online many} (copied : Z -> Prop).
Implicit Types (v : vol D) (s : ff D).
Abbreviation holds := (holds (contents := contents) (online := online) copied).
Abbreviation opened := (opened (contents := contents) (online := online) copied).

(** The cluster in an entry in the window. *)
Lemma see_ld_clust v w c l k Q : holds v w -> winsect (v_fs v) = dir_sector w c l k ->
  Q (entry_cluster w c l k) v -> wp (ld_clust (dir_offset k)) Q v.
Proof.
  intros Hv Hs HQ. unfold ld_clust, the_fs. apply wp_bind, wp_gets.
  apply wp_bind. eapply see_entry_word; [done|done|done|]. destruct (holds_fields _ _ _ Hv) as (-> & _).
  unfold entry_cluster in HQ. destruct (_ =? _); [|by apply wp_ret; rewrite Z.add_0_r in HQ].
  apply wp_bind. eapply see_entry_word; [done|done|done|]. apply wp_ret.
  destruct (window_sector copied v w Hv) as [_ Hb]. rewrite (h_win _ _ _ Hv), Hs in Hb.
  rewrite Z.lor_comm, lor_shift by (lia || by apply word_at_range). exact HQ.
Qed.

(** Where [follow_path] ends: at the entry, or with the error. *)
Definition arrived (w : view) (r : (Z * list Z * Z) + FRESULT) (a : FRESULT * DIR) (v : vol D) : Prop :=
  holds v w /\ lookupZ (fn a.2) NSFLAG <> None /\
  match r with
  | inl (c, l, k) => a.1 = FR_OK /\ 0 <= k < dir_len w c l /\ dir_ok w c l /\
      (exists dp, found w c l k dp a.2 v) /\ lookupZ (fn a.2) NSFLAG = Some NS_LAST
  | inr e => a.1 = e /\ e <> FR_OK
  end.

(** One segment of the path. *)
Lemma see_follow_step v w c l n names dp fuel Q : holds v w -> dir_ok w c l -> legal n = true -> forallb legal names = true ->
  dj_sclust dp = c -> zlen (fn dp) = 12 ->
  let flag := if bool_decide (names = []) then NS_LAST else 0 in
  (dir_lookup w c l (entry_name n) = None -> forall dp' v', holds v' w -> lookupZ (fn dp') NSFLAG = Some flag ->
     Q (if bool_decide (names = []) then FR_NO_FILE else FR_NO_PATH, dp') v') ->
  (forall k, dir_lookup w c l (entry_name n) = Some k -> forall dp0 dp' v', holds v' w -> 0 <= k < dir_len w c l ->
     found w c l k dp0 dp' v' -> lookupZ (fn dp') NSFLAG = Some flag -> zlen (fn dp') = 12 ->
     if bool_decide (names = []) then Q (FR_OK, dp') v' else
     if is_dir w c l k then wp (follow_loop fuel (set_dj_sclust (entry_cluster w c l k) dp') (path_text names)) Q v'
     else Q (FR_NO_PATH, dp') v') ->
  wp (follow_loop (S fuel) dp (path_text (n :: names))) Q v.
Proof.
  intros Hv Hd Hn Hnames Hc Hfn flag HN HS. cbn [follow_loop]. rewrite path_text_cons.
  apply wp_bind, see_create_name; [done|by apply path_text_end|done|]. change (negb (is_ok FR_OK)) with false. cbv iota beta.
  pose proof (zlen_entry_name n Hn) as L11. set (x := if _ =? 0 then NS_LAST else 0).
  assert (x = flag) as Ex by (subst x flag; by case_bool_decide).
  set (dp1 := set_fn _ dp). assert (fn dp1 = entry_name n ++ [x]) as E1 by done.
  assert (bytes_at (fn dp1) 0 11 = entry_name n) as E by (rewrite E1; by apply bytes_at_whole).
  assert (lookupZ (fn dp1) NSFLAG = Some flag) as Eflag.
  { rewrite E1, <- Ex. change NSFLAG with 11. rewrite <- L11. apply lookupZ_app_end. }
  assert (zlen (fn dp1) = 12) as L12 by (rewrite E1, zlen_app, L11; done).
  assert (negb (Z.land flag NS_LAST =? 0) = bool_decide (names = [])) as Elast by (subst flag; by case_bool_decide).
  apply wp_bind. eapply (see_dir_find copied v w c l dp1); [done|done|done|lia|..]; rewrite E.
  - intros k dp' v' Hv' Hk Hf Hlk. pose proof (fo_fn _ _ _ _ _ _ _ Hf) as Efn. cbv iota beta.
    apply wp_bind. eapply wp_array_get; [by rewrite Efn, Eflag|]. change (negb (is_ok FR_OK)) with false. cbv iota.
    rewrite Elast. specialize (HS k Hlk dp1 dp' v' Hv' Hk Hf). rewrite Efn in HS. specialize (HS Eflag L12).
    case_bool_decide; [by apply wp_ret|]. rewrite (fo_attr _ _ _ _ _ _ _ Hf).
    change (Z.land (dir_byte w c l k DIR_Attr) AM_MASK) with (dir_attr w c l k). unfold is_dir in HS.
    destruct (Z.land (dir_attr w c l k) AM_DIR =? 0); cbn [negb] in HS; [by apply wp_ret|].
    apply wp_bind. rewrite (da_ptr _ _ _ _ _ (fo_at _ _ _ _ _ _ _ Hf)).
    assert (32 * k mod SS = dir_offset k) as -> by (unfold dir_offset, SS; Z.div_mod_to_equations; lia).
    eapply see_ld_clust; [done|by apply fo_window with (1 := Hf)|exact HS].
  - intros dp' v' Hv' Efn Hlk. cbv iota beta. apply wp_bind. eapply wp_array_get; [by rewrite Efn, Eflag|].
    change (negb (is_ok FR_NO_FILE)) with true. cbv iota. rewrite Elast. apply wp_ret. cbn [fr_eqb andb].
    specialize (HN Hlk dp' v' Hv'). rewrite Efn in HN. specialize (HN Eflag). by case_bool_decide.
Qed.

Lemma see_follow_loop w names r c : leads w c names r -> forall fuel dp v, holds v w -> forallb legal names = true ->
  dj_sclust dp = c -> zlen (fn dp) = 12 -> (length names <= fuel)%nat ->
  wp (follow_loop fuel dp (path_text names)) (arrived w r) v.
Proof.
  induction 1 as [c l n k Hd Hk|c l n Hd Hk|c l n names Hne Hd Hk|c l n k names Hne Hd Hk Hdir|c l n k names r Hne Hd Hk Hdir Hl IH];
    intros [|fuel] dp v Hv Hnames Hc Hfn Hf; try (cbn in Hf; lia);
    cbn [forallb] in Hnames; apply andb_true_iff in Hnames as [Hn Hnames];
    (eapply (see_follow_step v w c l); [done..| |]; [intros E dp' v' Hv' Eflag|intros k' E dp0 dp' v' Hv' Hk' Hfd Eflag L12]);
    rewrite Hk in E; try discriminate; try (injection E as <-); rewrite ?(bool_decide_eq_false_2 (names = [])) in * by done.
  - cbn [bool_decide]. split; [done|]. split; [cbn; by rewrite Eflag|]. split; [done|]. split; [done|]. split; [done|]. by split; [exists dp0|].
  - split; [done|]. split; [cbn; by rewrite Eflag|by split].
  - split; [done|]. split; [cbn; by rewrite Eflag|by split].
  - rewrite Hdir. split; [done|]. split; [cbn; by rewrite Eflag|by split].
  - rewrite Hdir. apply IH; [done|done|done|done|cbn in Hf; lia].
Qed.
(** The path may start with separators. *)
Lemma see_skip (m : nat) n names fuel (i : Z) path v (Q : Z -> vol D -> Prop) : legal n = true -> 0 <= i ->
  drop (Z.to_nat i) path = replicate m 47 ++ path_text (n :: names) -> (m < fuel)%nat ->
  Q (i + Z.of_nat m) v -> wp (skip_separators fuel path i) Q v.
Proof.
  intros Hn. destruct (path_text_first n names Hn) as (x & rest & -> & Hx). destruct (name_char_spec x Hx) as (_ & Es & _).
  revert fuel i. induction m as [|m IH]; intros [|fuel] i Hi Hp Hf HQ; [lia| |lia|]; cbn [skip_separators].
  - destruct (at_text_get path i x [] rest) as [Eg _]; [by split|]. apply wp_bind. eapply wp_array_get; [exact Eg|].
    rewrite Es. apply wp_ret. by rewrite Z.add_0_r in HQ.
  - change (replicate (S m) 47) with (47 :: replicate m 47) in Hp.
    destruct (at_text_get path i 47 (replicate m 47) (x :: rest)) as [Eg [_ Hp']]; [by split|].
    apply wp_bind. eapply wp_array_get; [exact Eg|]. change (IsSeparator 47) with true. cbv iota.
    apply IH; [lia|done|lia|]. by replace (i + 1 + Z.of_nat m) with (i + Z.of_nat (S m)) by lia.
Qed.

Lemma see_follow_path w names r m v dp : leads w 0 names r -> names <> [] -> holds v w -> forallb legal names = true ->
  zlen (fn dp) = 12 -> wp (follow_path dp (replicate m 47 ++ path_text names)) (arrived w r) v.
Proof.
  intros Hl Hne Hv Hnames Hfn. destruct names as [|n names]; [done|]. pose proof Hnames as Hn.
  cbn [forallb] in Hn. apply andb_true_iff in Hn as [Hn _]. unfold follow_path. apply wp_bind.
  eapply (see_skip m n names); [done|lia|done|rewrite length_app, length_replicate; lia|].
  assert (drop (Z.to_nat (0 + Z.of_nat m)) (replicate m 47 ++ path_text (n :: names)) = path_text (n :: names)) as ->.
  { rewrite Z.add_0_l, Nat2Z.id. replace m with (length (replicate m 47)) at 1 by apply length_replicate. apply drop_app_length. }
  destruct (path_text_first n names Hn) as (x & rest & E & Hx). destruct (name_char_spec x Hx) as ((Hx1 & _) & _).
  apply wp_bind. apply wp_array_get with (x := x); [by rewrite E|]. rewrite (proj2 (Z.ltb_ge x 32)) by lia.
  eapply see_follow_loop; [exact Hl|done|done|done|done|]. pose proof (path_text_length (n :: names)). lia.
Qed.

(** *** A volume that is mounted *)

Lemma see_mounted p s w path mode Q : ff_fatfs s = Some p -> holds (vol_of p s) w -> plain_path path = true ->
  (forall s', others p s s' -> holds (vol_of p s') w -> Q (FR_OK, Some path, Some p) s') ->
  wp (mount_volume (Some path) mode) Q s.
Proof.
  intros Hreg Hv Hp HQ. pose proof (h_ok _ _ _ Hv) as Hg. destruct (holds_fields _ _ _ Hv) as (Et & _). cbn [vol_of v_fs] in Et.
  unfold mount_volume. apply wp_bind, see_get_ldnumber; [exact Hp|]. cbn [Z.ltb].
  apply wp_bind, wp_gets. rewrite Hreg. apply wp_bind, see_on_fs, wp_gets. intros s1 E1 O1. cbn [vol_of v_fs].
  rewrite Et. assert (negb (g_type (w_geom w) =? 0) = true) as -> by (destruct (go_type _ Hg) as [E|[E|E]]; by rewrite E).
  pose proof (h_pdrv _ _ _ Hv) as Ep. cbn [vol_of v_fs] in Ep. rewrite Ep.
  apply wp_bind, see_on_fs, wp_on_drive. rewrite E1.
  eapply wp_mono; [apply (wd_status (contents := contents) (many := many)), (h_online _ _ _ Hv)|].
  intros r d (-> & Ho & Hc) s2 E2 O2. change (Z.land 0 STA_NOINIT =? 0) with true. change (Z.land 0 STA_PROTECT =? 0) with true.
  cbn [negb andb]. rewrite andb_false_r. apply wp_ret, HQ; [by transitivity s1|]. rewrite E2.
  destruct Hv. split; cbn [vol_of v_fs v_drive] in *; rewrite ?Hc; done.
Qed.

(** *** Opening *)

(** The result of opening what the path leads to in a mode that does not create. *)
Definition open_result (w : view) (r : (Z * list Z * Z) + FRESULT) (mode : Z) : FRESULT :=
  match r with
  | inr e => e
  | inl (c, l, k) =>
      if is_dir w c l k then FR_NO_FILE
      else if negb (Z.land mode FA_WRITE =? 0) && negb (Z.land (dir_attr w c l k) AM_RDO =? 0) then FR_DENIED
      else FR_OK
  end.

(** The object of the file that was opened. *)
Definition fresh_file (w : view) (c : Z) (l : list Z) (k mode : Z) (fp : FIL) : Prop :=
  fptr fp = 0 /\ f_objsize fp = entry_size w c l k /\ f_sclust fp = entry_cluster w c l k /\ f_flag fp = mode /\
  dir_sect fp = dir_sector w c l k /\ dir_ptr fp = dir_offset k.

Lemma see_fresh p s w c l k lf mode fp x : holds (vol_of p s) w -> dir_ok w c l -> 0 <= k < dir_len w c l -> file_at w c l k lf ->
  winsect (ff_objs s p) = dir_sector w c l k -> 0 <= mode <= 3 ->
  fp = MkFIL (Some p) (fs_id (ff_objs s p)) (entry_cluster w c l k) (entry_size w c l k) mode FR_OK 0 x 0
         (dir_sector w c l k) (dir_offset k) (replicate (Z.to_nat SS) 0) ->
  opened p s w lf fp /\ fresh_file w c l k mode fp.
Proof.
  intros Hv Hd Hk Hf Hs Hm ->. pose proof (h_ok _ _ _ Hv) as Hg. pose proof (holds_sectors copied _ _ Hv) as Hsec.
  destruct (dir_sector_proper w c l Hg Hd k Hk) as ((Hp & _) & _).
  pose proof (dword_at_range _ (dir_offset k + DIR_FileSize) (proj2 (Hsec _ Hp))) as Hsize.
  split; [|done]. split; [|split; cbn; [lia|done]| |done].
  - split.
    + exists (w_disk w). split; [by apply holds_ext with (L := w_disk w) in Hv|]. intros t. unfold overlay, has_flag. cbn [f_flag].
      assert (Z.land mode FA_DIRTY = 0) as -> by (assert (mode = 0 \/ mode = 1 \/ mode = 2 \/ mode = 3) as [->|[->|[->| ->]]] by lia; done).
      done.
    + split; cbn; [apply Hf|unfold entry_size, dir_dword; lia|apply Hf|split; [done|by apply Forall_replicate]|].
      left. split; [done|]. unfold has_flag. cbn.
      by assert (mode = 0 \/ mode = 1 \/ mode = 2 \/ mode = 3) as [->|[->|[->| ->]]] by lia.
    + intros j Hj. cbn [vol_of v_fs]. rewrite Hs. eapply apart_sectors; [done|done|done| |apply Hf|done].
      intros t. apply (file_chain_clusters w _ lf t (fa_chain _ _ _ _ _ Hf)).
  - cbn. split; [done|]. pose proof (h_geom _ _ _ Hv) as E. cbn in E. by rewrite <- E.
Qed.

(** [open_on], [f_open] on the volume, for an existing file. *)
Lemma see_open_on p s w names r m fp mode : leads w 0 names r -> names <> [] -> forallb legal names = true ->
  holds (vol_of p s) w -> 0 <= mode <= 3 ->
  wp (open_on p fp (replicate m 47 ++ path_text names) mode) (fun a v' => holds v' w /\
    a.1 = open_result w r mode /\
    match r with
    | inl (c, l, k) => a.1 = FR_OK -> forall s' lf, vol_of p s' = v' -> file_at w c l k lf ->
        opened p s' w lf a.2 /\ fresh_file w c l k mode a.2
    | inr e => e <> FR_OK
    end) (vol_of p s).
Proof.
  intros Hl Hne Hnames Hv Hm. unfold open_on. apply wp_bind. eapply wp_mono; [eapply see_follow_path; done|].
  intros [res dj] v' (Hv' & Hfl & Hr). cbn [fst snd] in *. destruct (lookupZ (fn dj) NSFLAG) as [flag|] eqn:Eflag; [|done].
  apply wp_bind. eapply wp_array_get; [exact Eflag|]. cbv zeta.
  assert (Z.land mode (Z.lor FA_CREATE_ALWAYS (Z.lor FA_OPEN_ALWAYS FA_CREATE_NEW)) = 0 /\ Z.land mode FA_CREATE_ALWAYS = 0 /\
          Z.land mode FA_SEEKEND = 0) as (M1 & M2 & M3)
    by (assert (mode = 0 \/ mode = 1 \/ mode = 2 \/ mode = 3) as [->|[->|[->| ->]]] by lia; done).
  rewrite M1. change (negb (0 =? 0)) with false. cbv iota. apply wp_bind, wp_ret. cbv iota beta.
  destruct r as [[[c l] k]|e].
  2:{ destruct Hr as [-> He]. unfold open_existing. assert (is_ok e = false) as Eok by by destruct e.
      rewrite Eok. cbn [andb negb]. rewrite !Eok. cbn [negb]. rewrite ?Eok. cbn [negb]. by apply wp_ret. }
  destruct Hr as (-> & Hk & Hd & [dp0 Hf] & [= ->]). change (is_ok FR_OK && _) with false. cbv iota.
  assert (open_existing FR_OK dj mode = open_result w (inl (c, l, k)) mode) as ->.
  { unfold open_existing, open_result, is_dir. rewrite (fo_attr _ _ _ _ _ _ _ Hf). done. }
  destruct (negb (is_ok _)) eqn:Eok; [apply wp_ret; split; [done|]; split; [done|]; cbn [fst]; intros E; by rewrite E in Eok|].
  assert (open_result w (inl (c, l, k)) mode = FR_OK) as Eres.
  { unfold open_result in *. destruct (is_dir w c l k); [done|]. by destruct (_ && _). }
  rewrite M2. change (negb (0 =? 0)) with false. cbv iota. pose proof (fo_window _ _ _ _ _ _ _ Hf) as Hwin.
  pose proof (fo_at _ _ _ _ _ _ _ Hf) as Ha. rewrite (da_dir _ _ _ _ _ Ha).
  apply wp_bind, wp_gets, wp_bind. eapply see_ld_clust; [exact Hv'|exact Hwin|].
  apply wp_bind. eapply see_entry_dword; [exact Hv'|exact Hwin|done|]. rewrite M3. cbn [Z.eqb negb andb].
  apply wp_ret. split; [done|]. split; [done|]. intros _ s' lf Es Hfa. cbn [snd]. eapply see_fresh; [by rewrite Es|exact Hd|exact Hk|exact Hfa| |done|].
  - by rewrite <- Hwin, <- Es.
  - rewrite <- Hwin. by rewrite <- Es.
Qed.

(** [f_open] on a mounted volume. *)
Lemma see_f_open p s w names r m fp mode : ff_fatfs s = Some p -> holds (vol_of p s) w ->
  names <> [] -> forallb legal names = true -> leads w 0 names r -> 0 <= mode <= 3 ->
  wp (f_open fp (replicate m 47 ++ path_text names) mode) (fun a s' => others p s s' /\ holds (vol_of p s') w /\
    a.1 = open_result w r mode /\
    (a.1 <> FR_OK -> f_fs a.2 = None) /\
    match r with
    | inl (c, l, k) => a.1 = FR_OK -> forall lf, file_at w c l k lf ->
        opened p s' w lf a.2 /\ fresh_file w c l k mode a.2
    | inr e => e = FR_NO_FILE \/ e = FR_NO_PATH
    end) s.
Proof.
  intros Hreg Hv Hne Hnames Hl Hm. unfold f_open.
  assert (Z.land mode OPEN_FLAGS = mode) as -> by (assert (mode = 0 \/ mode = 1 \/ mode = 2 \/ mode = 3) as [->|[->|[->| ->]]] by lia; done).
  apply wp_bind. eapply see_mounted; [exact Hreg|exact Hv| |].
  { apply plain_app; [|by apply path_text_plain]. clear. by induction m. }
  intros s1 O1 Hv1. apply wp_bind, see_on_fs. eapply wp_mono; [by eapply see_open_on|]. cbn beta.
  intros [res fp1] v2 (Hv2 & Er & Hr) s2 E2 O2. cbn [fst snd] in *. apply wp_ret. split; [by transitivity s1|].
  split; [by rewrite E2|]. cbn [fst snd]. split; [done|]. split; [intros Hne'; by destruct res|].
  destruct r as [[[c l] k]|e]; [|by eapply leads_error]. intros -> lf Hfa. cbn [is_ok fr_eqb]. by apply Hr.
Qed.

(** [C32]: [f_open] of an existing file, in a mode that does not create or
    truncate (the flags [FA_READ] and [FA_WRITE] only), by a path of legal 8.3
    names, on a mounted volume: it follows the names from the root directory on,
    through chains of clusters or the fixed root, each the first entry of its
    directory with that name, and returns [FR_NO_PATH] if a directory on the way
    is missing or is none, [FR_NO_FILE] if the last name is missing or a
    directory, [FR_DENIED] for writing to a read-only file; otherwise [FR_OK] with
    an object of the file of that entry, at its start, with its size and its chain
    of clusters, ready for [f_read], [f_write] and [f_lseek]. The contents of the
    volume and the other volumes stay. *)
Theorem f_open_opens p s w names r m fp mode : ff_fatfs s = Some p -> holds (vol_of p s) w ->
  names <> [] -> forallb legal names = true -> leads w 0 names r -> 0 <= mode <= 3 ->
  wp (f_open fp (replicate m 47 ++ path_text names) mode) (fun a s' => others p s s' /\ holds (vol_of p s') w /\
    a.1 = open_result w r mode /\
    (a.1 <> FR_OK -> f_fs a.2 = None) /\
    match r with
    | inl (c, l, k) => a.1 = FR_OK -> forall lf, file_at w c l k lf ->
        opened p s' w lf a.2 /\ fresh_file w c l k mode a.2
    | inr e => e = FR_NO_FILE \/ e = FR_NO_PATH
    end) s.
Proof. apply see_f_open. Qed.

(** *** Mounting, opening and reading *)

Lemma see_mount_open_read `{!StartingDrive (contents := contents) (online := online) cold} p s path names k1 l k lf fp m buff btr :
  ff_fatfs s = None -> plain_path path = true -> zlen (win (ff_objs s p)) = SS -> cold (ff_drive s) ->
  let c := contents (ff_drive s) in let bsect := (find_boot c).2 in
  let w := volume_view c bsect (u16 (ff_fsid s + 1)) in
  partitions_ok c -> (find_boot c).1 < 2 -> bpb_fits bsect (c bsect) -> mountable (c bsect) = true ->
  copies_agree copied c (w_geom w) -> g_csize (w_geom w) <= many ->
  names <> [] -> forallb legal names = true -> leads w 0 names (inl (k1, l, k)) -> is_dir w k1 l k = false ->
  file_at w k1 l k lf -> 0 <= btr <= zlen buff ->
  wp (let* r1 := f_mount (Some p) path 1 in
      let* r2 := f_open fp (replicate m 47 ++ path_text names) FA_READ in
      let* r3 := f_read r2.2 buff btr in
      ret (r1, r2.1, r3.1.1.1, r3.1.2, r3.2)) (fun r s' => exists b,
    let n := Z.min btr (entry_size w k1 l k) in
    r = (FR_OK, FR_OK, FR_OK, b, n) /\ filled buff 0 n (file_byte w lf) b) s.
Proof.
  intros Hreg Hpath Hwin Hcold c bsect w Hparts Hk Hfits Hm Hcp Hcs Hne Hnames Hl Hdir Hfa Hbtr.
  apply wp_bind. eapply see_f_mount; [exact Hreg|exact Hpath|exact Hwin|exact Hcold|exact Hparts|done|exact Hcp|].
  change (contents (ff_drive s)) with c. change (find_boot c).2 with bsect. rewrite (proj2 (Z.ltb_lt _ _) Hk), Hm. cbn [andb].
  intros s1 F1 _ Hh. specialize (Hh eq_refl). change (volume_view _ _ _) with w in Hh.
  apply wp_bind. eapply wp_mono; [eapply (see_f_open p s1 w names (inl (k1, l, k)) m fp FA_READ); done|]. cbn beta.
  intros [res fp1] s2 (_ & _ & Er & _ & Hop). cbn [fst snd] in *. unfold open_result in Er. rewrite Hdir in Er.
  change (negb (Z.land FA_READ FA_WRITE =? 0)) with false in Er. cbn [andb] in Er. subst res.
  destruct (Hop eq_refl lf Hfa) as (Ho & Ep & Es & _ & Ef & _).
  apply wp_bind. eapply see_f_read; [exact Ho|unfold has_flag; by rewrite Ef|exact Hcs|exact Hbtr|].
  intros s3 fp3 b Hb _ _ _ _. apply wp_ret. cbn [fst snd]. rewrite Ep, Es, Z.sub_0_r in *. exists b. split; [done|].
  eapply filled_ext; [|exact Hb]. intros j _. cbn. by rewrite Z.add_0_l.
Qed.

(** [C30]: From the drive to the application: on a drive that can be started and
    transfers a whole cluster at a time ([g_csize <= many]; the drive of the
    repository does so for clusters of one sector), with a boot sector that can be
    mounted and whose sizes do not overflow ([bpb_fits], [partitions_ok]) and with
    FAT copies that agree, whose directories lead along legal 8.3 names to a file:
    [f_mount], [f_open] for reading and [f_read] all return [FR_OK] and put the
    first bytes of this file, as many as asked for or as it has, into the buffer
    and change nothing else of it. Which bytes these are is a function of the
    contents of the drive alone: the parameters in the boot sector, the entries of
    the directories, the chain in the FAT and the sectors of its clusters. *)
Theorem mount_open_read `{!StartingDrive (contents := contents) (online := online) cold} p s path names k1 l k lf fp m buff btr :
  ff_fatfs s = None -> plain_path path = true -> zlen (win (ff_objs s p)) = SS -> cold (ff_drive s) ->
  let c := contents (ff_drive s) in let bsect := (find_boot c).2 in
  let w := volume_view c bsect (u16 (ff_fsid s + 1)) in
  partitions_ok c -> (find_boot c).1 < 2 -> bpb_fits bsect (c bsect) -> mountable (c bsect) = true ->
  copies_agree copied c (w_geom w) -> g_csize (w_geom w) <= many ->
  names <> [] -> forallb legal names = true -> leads w 0 names (inl (k1, l, k)) -> is_dir w k1 l k = false ->
  file_at w k1 l k lf -> 0 <= btr <= zlen buff ->
  wp (let* r1 := f_mount (Some p) path 1 in
      let* r2 := f_open fp (replicate m 47 ++ path_text names) FA_READ in
      let* r3 := f_read r2.2 buff btr in
      ret (r1, r2.1, r3.1.1.1, r3.1.2, r3.2)) (fun r s' => exists b,
    let n := Z.min btr (entry_size w k1 l k) in
    r = (FR_OK, FR_OK, FR_OK, b, n) /\ filled buff 0 n (file_byte w lf) b) s.
Proof. apply see_mount_open_read. Qed.
End Open.
