(* ===== verification/FatSync.v ===== *)
(** * FatFs: writing back

    What [f_sync] does: the buffer of the file object, the directory entry, the window
    and the FSINFO sector go to the drive.  Afterwards the drive alone holds the
    volume, and mounting it again, opening the path of the file and reading give what
    was written. *)

From stdpp Require Import sets.
From S2P Require Import Prelude FatData FatFs FatPath FatFile FatVolume FatTable FatChain FatContents FatRead FatWrite.
From S2P Require Import FatTheorems FatMount FatEntries FatNames FatOpen.

#[local] Open Scope Z_scope.
#[local] Open Scope list_scope.
#[local] Arguments insertZ : simpl never.
#[local] Arguments lookupZ : simpl never.

(** ** Bytes that are put *)

Lemma zlen_put_word l i x : zlen (put_word l i x) = zlen l.
Proof. unfold put_word. by rewrite !zlen_insertZ. Qed.
Lemma zlen_put_dword l i x : zlen (put_dword l i x) = zlen l.
Proof. unfold put_dword. by rewrite !zlen_put_word. Qed.

Lemma byte_at_put_word l i x j : 0 <= i -> i + 1 < zlen l ->
  byte_at (put_word l i x) j = if j =? i + 1 then u8 (Z.shiftr x 8) else if j =? i then u8 x else byte_at l j.
Proof.
  intros Hi Hl. unfold put_word. rewrite byte_at_insert by (rewrite zlen_insertZ; lia).
  destruct (j =? i + 1); [done|]. by rewrite byte_at_insert by lia.
Qed.

Lemma byte_at_put_word_ne l i x j : 0 <= i -> i + 1 < zlen l -> j < i \/ i + 2 <= j -> byte_at (put_word l i x) j = byte_at l j.
Proof. intros Hi Hl Hj. rewrite byte_at_put_word by done. by rewrite !(proj2 (Z.eqb_neq _ _)) by lia. Qed.

Lemma byte_at_put_dword_ne l i x j : 0 <= i -> i + 3 < zlen l -> j < i \/ i + 4 <= j -> byte_at (put_dword l i x) j = byte_at l j.
Proof. intros Hi Hl Hj. unfold put_dword. rewrite !byte_at_put_word_ne; rewrite ?zlen_put_word; done || lia. Qed.

Lemma word_at_put l i x : 0 <= i -> i + 1 < zlen l -> word_at (put_word l i x) i = u16 x.
Proof.
  intros Hi Hl. unfold word_at. rewrite !byte_at_put_word by done. rewrite Z.eqb_refl, (proj2 (Z.eqb_neq i (i + 1))), Z.eqb_refl by lia.
  unfold u8, u16. rewrite Z.shiftr_div_pow2 by lia. Z.div_mod_to_equations. lia.
Qed.

Lemma word_at_put_ne l i x j : 0 <= i -> i + 1 < zlen l -> j + 1 < i \/ i + 2 <= j -> word_at (put_word l i x) j = word_at l j.
Proof. intros Hi Hl Hj. unfold word_at. by rewrite !byte_at_put_word_ne by lia. Qed.

Lemma dword_at_put l i x : 0 <= i -> i + 3 < zlen l -> dword_at (put_dword l i x) i = u32 x.
Proof.
  intros Hi Hl. unfold dword_at, put_dword. rewrite word_at_put by (rewrite ?zlen_put_word; lia).
  rewrite word_at_put_ne, word_at_put by (rewrite ?zlen_put_word; lia).
  unfold u16, u32. rewrite !Z.shiftr_div_pow2 by lia. Z.div_mod_to_equations. lia.
Qed.

Lemma word_at_put_dword_ne l i x j : 0 <= i -> i + 3 < zlen l -> j + 1 < i \/ i + 4 <= j -> word_at (put_dword l i x) j = word_at l j.
Proof. intros Hi Hl Hj. unfold word_at. by rewrite !byte_at_put_dword_ne by lia. Qed.

Lemma dword_at_put_dword_ne l i x j : 0 <= i -> i + 3 < zlen l -> j + 3 < i \/ i + 4 <= j -> dword_at (put_dword l i x) j = dword_at l j.
Proof. intros Hi Hl Hj. unfold dword_at. by rewrite !word_at_put_dword_ne by lia. Qed.

Lemma dword_at_put_word_ne l i x j : 0 <= i -> i + 1 < zlen l -> j + 3 < i \/ i + 2 <= j -> dword_at (put_word l i x) j = dword_at l j.
Proof. intros Hi Hl Hj. unfold dword_at. by rewrite !word_at_put_ne by lia. Qed.

(** ** The entry and the FSINFO sector as they are written *)

Definition entry_edit (type o cl size tm : Z) (b : list Z) : list Z :=
  let b := insertZ (o + DIR_Attr) (Z.lor (byte_at b (o + DIR_Attr)) AM_ARC) b in
  let b := put_word b (o + DIR_FstClusLO) (u16 cl) in
  let b := if type =? FS_FAT32 then put_word b (o + DIR_FstClusHI) (u16 (Z.shiftr cl 16)) else b in
  let b := put_dword b (o + DIR_FileSize) size in
  let b := put_dword b (o + DIR_ModTime) tm in
  put_word b (o + DIR_LstAccDate) 0.

Definition fsinfo_sector (free last : Z) : list Z :=
  let b := replicate (Z.to_nat SS) 0 in
  let b := put_word b BS_55AA 0xAA55 in
  let b := put_dword b FSI_LeadSig 0x41615252 in
  let b := put_dword b FSI_StrucSig 0x61417272 in
  let b := put_dword b FSI_Free_Count free in
  put_dword b FSI_Nxt_Free last.

Lemma sector_put_attr b j : sector b -> sector (insertZ j (Z.lor (byte_at b j) AM_ARC) b).
Proof.
  intros Hb. apply sector_insert; [done|]. pose proof (byte_at_range b j (proj2 Hb)) as Hr.
  change (0 <= Z.lor (byte_at b j) AM_ARC < 2 ^ 8). apply bits_range; [lia|]. intros n Hn.
  rewrite Z.lor_spec, !(testbit_high _ 8) by (unfold is_byte, AM_ARC in *; lia). done.
Qed.

Section Entry.
Context (type o cl size tm : Z) (b : list Z) (Ho : 0 <= o /\ o + 32 <= SS) (Hb : sector b).
Abbreviation edit := (entry_edit type o cl size tm b).

Lemma sector_edit : sector edit.
Proof.
  unfold entry_edit. apply sector_put_word, sector_put_dword, sector_put_dword.
  destruct (type =? FS_FAT32); [apply sector_put_word|]; by apply sector_put_word, sector_put_attr.
Qed.

(** The offsets of the members of an entry. *)
Ltac offsets := unfold DIR_Attr, DIR_FstClusLO, DIR_FstClusHI, DIR_FileSize, DIR_ModTime, DIR_LstAccDate in *.
Ltac room := try destruct (type =? FS_FAT32); rewrite ?zlen_put_dword, ?zlen_put_word, ?zlen_insertZ, ?(proj1 Hb); unfold SS in *; lia.

Lemma edit_other j : j < o + 11 \/ o + 32 <= j -> byte_at edit j = byte_at b j.
Proof.
  intros Hj. unfold entry_edit. offsets. pose proof (proj1 Hb) as Hl. unfold SS in *.
  rewrite byte_at_put_word_ne by room. rewrite !byte_at_put_dword_ne by room.
  destruct (type =? FS_FAT32); rewrite ?byte_at_put_word_ne by room; rewrite byte_at_insert by lia;
    by rewrite (proj2 (Z.eqb_neq _ _)) by lia.
Qed.

Lemma edit_attr : byte_at edit (o + DIR_Attr) = Z.lor (byte_at b (o + DIR_Attr)) AM_ARC.
Proof.
  unfold entry_edit. offsets. pose proof (proj1 Hb) as Hl. unfold SS in *.
  rewrite byte_at_put_word_ne by room. rewrite !byte_at_put_dword_ne by room.
  destruct (type =? FS_FAT32); rewrite ?byte_at_put_word_ne by room; rewrite byte_at_insert by lia; by rewrite Z.eqb_refl.
Qed.

Lemma edit_size : dword_at edit (o + DIR_FileSize) = u32 size.
Proof.
  unfold entry_edit. offsets. rewrite dword_at_put_word_ne by room.
  rewrite dword_at_put_dword_ne by room.
  by rewrite dword_at_put by room.
Qed.

Lemma edit_low : word_at edit (o + DIR_FstClusLO) = u16 cl.
Proof.
  unfold entry_edit. offsets. rewrite word_at_put_ne by room.
  rewrite !word_at_put_dword_ne by room.
  destruct (type =? FS_FAT32); rewrite ?word_at_put_ne by room; rewrite word_at_put by room;
    unfold u16; by rewrite Z.mod_mod.
Qed.

Lemma edit_high : type = FS_FAT32 -> word_at edit (o + DIR_FstClusHI) = u16 (Z.shiftr cl 16).
Proof.
  intros E. unfold entry_edit. offsets. rewrite E, Z.eqb_refl. rewrite word_at_put_ne by room.
  rewrite !word_at_put_dword_ne by room. rewrite word_at_put by room. unfold u16. by rewrite Z.mod_mod.
Qed.
End Entry.

Lemma sector_fsinfo free last : sector (fsinfo_sector free last).
Proof.
  unfold fsinfo_sector. repeat apply sector_put_dword. apply sector_put_word. split; [done|]. by apply Forall_replicate.
Qed.

(** ** The volume after writing back *)

Definition has_fsinfo (w : view) : bool := (g_type (w_geom w) =? FS_FAT32) && (w_fsi w =? 1).

(** The FSINFO sector is in the reserved area.  The code does not check that. *)
Definition fsinfo_ok (w : view) : Prop :=
  has_fsinfo w = true -> 0 <= g_volbase (w_geom w) /\ g_volbase (w_geom w) + 1 < g_fatbase (w_geom w).

Definition synced_view (w : view) : view :=
  if has_fsinfo w
  then View (w_geom w) (w_last w) (w_free w) 0
         (fupd (w_disk w) (g_volbase (w_geom w) + 1) (fsinfo_sector (w_free w) (w_last w)))
  else w.

(** The entry of the open file [fp] has been written. *)
Definition entry_view (tm : Z) (fp : FIL) (w : view) : view :=
  set_w_disk (fupd (w_disk w) (dir_sect fp)
    (entry_edit (g_type (w_geom w)) (dir_ptr fp) (f_sclust fp) (f_objsize fp) tm (w_disk w (dir_sect fp)))) w.

Section Sync.
Context {D : Type} `{WorkingDrive D contents online many} (copied : Z -> Prop).
Implicit Types (v : vol D).
Abbreviation holds := (holds (contents := contents) (online := online) copied).

Lemma see_put {A} fs d m l (k : FatFs.K (D := D) A) Q :
  (forall R : list Z -> vol D -> Prop, R l (Vol fs d) -> wp (m (win fs)) R (Vol fs d)) ->
  wp k Q (Vol (set_win l fs) d) -> wp (do* win_upd m in k) Q (Vol fs d).
Proof.
  intros Hm Hk. apply wp_bind. unfold win_upd, the_fs, fs_upd. apply wp_bind, wp_gets, wp_bind, Hm, wp_modify. exact Hk.
Qed.

Lemma see_put_word {A} fs d i x (k : FatFs.K (D := D) A) Q : 0 <= i -> i + 1 < zlen (win fs) ->
  wp k Q (Vol (set_win (put_word (win fs) i x) fs) d) -> wp (do* win_st_word i x in k) Q (Vol fs d).
Proof. intros Hi Hl. apply see_put. intros R HR. by apply wp_st_word. Qed.

Lemma see_put_dword {A} fs d i x (k : FatFs.K (D := D) A) Q : 0 <= i -> i + 3 < zlen (win fs) ->
  wp k Q (Vol (set_win (put_dword (win fs) i x) fs) d) -> wp (do* win_st_dword i x in k) Q (Vol fs d).
Proof. intros Hi Hl. apply see_put. intros R HR. by apply wp_st_dword. Qed.

Lemma see_put_byte {A} fs d i x (k : FatFs.K (D := D) A) Q : 0 <= i < zlen (win fs) ->
  wp k Q (Vol (set_win (insertZ i x (win fs)) fs) d) -> wp (do* win_set i x in k) Q (Vol fs d).
Proof. intros Hi. apply see_put. intros R HR. by apply wp_array_set. Qed.

(** The FSINFO sector is on the drive and in the window. *)
Lemma holds_fsinfo v w d b : holds v w -> wflag (v_fs v) = 0 -> online d -> sector b ->
  0 <= g_volbase (w_geom w) -> g_volbase (w_geom w) + 1 < g_fatbase (w_geom w) ->
  (forall x, contents d x = if x =? g_volbase (w_geom w) + 1 then b else contents (v_drive v) x) ->
  holds (Vol (set_fsi_flag 0 (set_winsect (g_volbase (w_geom w) + 1) (set_win b (v_fs v)))) d)
    (View (w_geom w) (w_last w) (w_free w) 0 (fupd (w_disk w) (g_volbase (w_geom w) + 1) b)).
Proof.
  intros Hv Hf Ho Hb Hv0 Hv1 Hc. destruct Hv as [Ho' Hp Hg Hok (Hc1 & Hc2 & Hc3) Hsec Hws Hwin Hdisk Hcopy].
  pose proof (geom_bounds _ Hok) as Hgb. set (s0 := g_volbase (w_geom w) + 1) in *.
  split; cbn [v_fs v_drive w_geom w_last w_free w_fsi w_disk set_fsi_flag set_winsect set_win pdrv winsect win wflag last_clst free_clst fsi_flag]; try done.
  - intros s Hs. unfold fupd. case_match; [done|by apply Hsec].
  - split; [lia|]. unfold in_copy. destruct (_ =? 2); [|done]. cbn. apply in_range_false. lia.
  - by rewrite fupd_eq.
  - intros s Hs _. rewrite Hc. unfold fupd. destruct (s =? s0); [done|]. apply Hdisk; auto.
  - intros s H2 Hin Hcp _. rewrite Hc. unfold in_fat in Hin. rewrite in_range_spec in Hin.
    rewrite (proj2 (Z.eqb_neq _ s0)), fupd_ne by lia. apply Hcopy; auto. unfold in_fat. by rewrite in_range_spec.
Qed.

Lemma see_sync_fs v w Q : holds v w -> fsinfo_ok w ->
  (forall v', holds v' (synced_view w) -> wflag (v_fs v') = 0 ->
     winsect (v_fs v') = winsect (v_fs v) \/ has_fsinfo w = true /\ winsect (v_fs v') = g_volbase (w_geom w) + 1 -> Q FR_OK v') ->
  wp sync_fs Q v.
Proof.
  intros Hv Hfi HQ. unfold sync_fs, check. apply wp_bind. eapply see_sync_window; [exact Hv|]. intros v1 Hv1 Hs1 Hf1.
  change (is_ok FR_OK) with true. cbv iota. apply wp_bind, wp_gets. destruct (holds_fields _ _ _ Hv1) as (Et & _).
  pose proof (h_counts _ _ _ Hv1) as (El & Ef & Es). pose proof (h_pdrv _ _ _ Hv1) as Ep. rewrite Et, Es. fold (has_fsinfo w).
  apply wp_bind. apply (wp_mono _ (fun _ v' => holds v' (synced_view w) /\ wflag (v_fs v') = 0 /\
    (winsect (v_fs v') = winsect (v_fs v) \/ has_fsinfo w = true /\ winsect (v_fs v') = g_volbase (w_geom w) + 1))).
  - unfold synced_view. destruct (has_fsinfo w) eqn:Eh; [|apply wp_ret; by auto].
    destruct (Hfi Eh) as [Hv0 Hlt]. destruct v1 as [fs1 d1]. cbn [v_fs v_drive] in *.
    pose proof (geom_bounds _ (h_ok _ _ _ Hv1)) as Hgb.
    assert (volbase fs1 = g_volbase (w_geom w)) as Evb by (rewrite <- (h_geom _ _ _ Hv1); done).
    unfold fs_upd. apply wp_bind, wp_modify. cbn [v_fs v_drive].
    apply see_put_word; [done|done|]. apply see_put_dword; [done|done|]. apply see_put_dword; [done|done|].
    apply see_put_dword; [done|done|]. apply see_put_dword; [done|done|].
    cbn [win set_win]. rewrite El, Ef. fold (fsinfo_sector (w_free w) (w_last w)).
    apply wp_bind, wp_modify, wp_bind, wp_gets. cbn [v_fs v_drive win winsect pdrv set_winsect set_win volbase]. rewrite Ep, Evb, u32_small by lia.
    apply wp_bind. eapply see_write_one; [apply (h_online _ _ _ Hv1)|apply sector_fsinfo|lia|]. intros d' Ho' Hc'.
    cbn [v_fs v_drive] in *. apply wp_modify. split; [|auto].
    eapply (holds_fsinfo (Vol fs1 d1)); [exact Hv1|done|exact Ho'|apply sector_fsinfo|done|done|exact Hc'].
  - intros _ v2 (Hv2 & Hf2 & Hs2). apply wp_bind. rewrite Ep. apply wp_on_drive. eapply wp_mono.
    { apply (wd_sync (contents := contents) (many := many)), (h_online _ _ _ Hv2). }
    intros r d (-> & Ho & Hc). change (negb (RES_OK =? RES_OK)) with false. apply wp_ret, HQ; [|done|done].
    destruct Hv2. split; cbn [v_fs v_drive]; rewrite ?Hc; done.
Qed.

(** *** The directory entry *)

Lemma holds_time v w Q : holds v w -> (forall tm v', holds v' w -> v_fs v' = v_fs v -> Q tm v') -> wp (on_drive get_fattime) Q v.
Proof.
  intros Hv HQ. apply wp_on_drive. eapply wp_mono.
  { apply (wd_time (contents := contents) (many := many)), (h_online _ _ _ Hv). }
  intros tm d (Ho & Hc). apply HQ; [|done]. destruct Hv. split; cbn [v_fs v_drive]; rewrite ?Hc; done.
Qed.

Lemma see_put_clust {A} fs d o cl (k : FatFs.K (D := D) A) Q : 0 <= o -> o + 32 <= zlen (win fs) ->
  wp k Q (Vol (set_win (if fs_type fs =? FS_FAT32
                        then put_word (put_word (win fs) (o + DIR_FstClusLO) (u16 cl)) (o + DIR_FstClusHI) (u16 (Z.shiftr cl 16))
                        else put_word (win fs) (o + DIR_FstClusLO) (u16 cl)) fs) d) ->
  wp (do* st_clust o cl in k) Q (Vol fs d).
Proof.
  intros Ho Hl Hk. unfold st_clust. apply wp_bind, wp_bind, wp_gets. cbn [v_fs].
  unfold DIR_FstClusLO, DIR_FstClusHI in *. apply see_put_word; [lia|lia|].
  destruct (fs_type fs =? FS_FAT32); [|by apply wp_ret]. 
  unfold win_st_word, win_upd, the_fs, fs_upd. apply wp_bind, wp_gets, wp_bind.
  apply wp_st_word; [lia|cbn; rewrite zlen_put_word; lia|]. apply wp_modify. exact Hk.
Qed.

Lemma see_sync_entry v w fp Q : holds v w -> proper (w_geom w) (dir_sect fp) -> 0 <= dir_ptr fp -> dir_ptr fp + 32 <= SS ->
  fsinfo_ok w ->
  (forall v' tm, holds v' (synced_view (entry_view tm fp w)) -> wflag (v_fs v') = 0 ->
     winsect (v_fs v') = dir_sect fp \/ has_fsinfo w = true /\ winsect (v_fs v') = g_volbase (w_geom w) + 1 ->
     Q (FR_OK, clear_flag FA_MODIFIED fp) v') ->
  wp (sync_entry fp) Q v.
Proof.
  intros Hv Hp Ho Ho32 Hfi HQ. unfold sync_entry. apply wp_bind. eapply holds_time; [exact Hv|]. intros tm v1 Hv1 _.
  apply wp_bind. eapply see_move_window; [exact Hv1|exact Hp|]. intros v2 Hv2 Hs2.
  change (negb (is_ok FR_OK)) with false. cbv iota zeta. apply wp_bind.
  eapply see_win_get; [exact Hv2|unfold DIR_Attr, SS in *; lia|]. rewrite Hs2.
  pose proof (h_sector _ _ _ Hv2 (dir_sect fp) (proj1 Hp)) as Hsec. pose proof (h_win _ _ _ Hv2) as Ew. rewrite Hs2 in Ew.
  destruct (holds_fields _ _ _ Hv2) as (Et & _). destruct v2 as [fs2 d2]. cbn [v_fs v_drive] in *.
  assert (zlen (win fs2) = SS) as Hl by (rewrite Ew; apply Hsec).
  unfold SS, DIR_Attr, DIR_FileSize, DIR_ModTime, DIR_LstAccDate in *.
  apply see_put_byte; [lia|]. apply see_put_clust; [lia|cbn; rewrite zlen_insertZ; lia|].
  assert (forall y, zlen (if (y =? FS_FAT32) then put_word (put_word (insertZ (dir_ptr fp + 11) (Z.lor (byte_at (w_disk w (dir_sect fp)) (dir_ptr fp + 11)) AM_ARC) (win fs2)) (dir_ptr fp + DIR_FstClusLO) (u16 (f_sclust fp))) (dir_ptr fp + DIR_FstClusHI) (u16 (Z.shiftr (f_sclust fp) 16)) else put_word (insertZ (dir_ptr fp + 11) (Z.lor (byte_at (w_disk w (dir_sect fp)) (dir_ptr fp + 11)) AM_ARC) (win fs2)) (dir_ptr fp + DIR_FstClusLO) (u16 (f_sclust fp))) = 512) as Hl2
    by (intros y; destruct (_ =? _); rewrite ?zlen_put_word, zlen_insertZ; exact Hl).
  apply see_put_dword; [lia|cbn [win set_win fs_type]; rewrite Hl2; lia|].
  apply see_put_dword; [lia|cbn [win set_win fs_type]; rewrite zlen_put_dword, Hl2; lia|].
  apply see_put_word; [lia|cbn [win set_win fs_type]; rewrite !zlen_put_dword, Hl2; lia|].
  cbn [win set_win fs_type]. rewrite Et, Ew. apply wp_bind, wp_modify. cbn [v_fs v_drive].
  apply wp_bind. eapply (see_sync_fs _ (entry_view tm fp w)).
  - pose proof (holds_store copied _ _ _ Hv2 (sector_edit (g_type (w_geom w)) (dir_ptr fp) (f_sclust fp) (f_objsize fp) tm _ Hsec)) as Hst.
    cbn [v_fs v_drive] in Hst. rewrite Hs2 in Hst. exact Hst.
  - exact Hfi.
  - cbn [v_fs winsect set_wflag set_win]. rewrite Hs2. intros v' Hv' Hf' Hw'. by eapply wp_ret, HQ.
Qed.
End Sync.

(** ** What is on the drive afterwards *)

(** The open file [fp] with the clusters [lf] is that of entry [k] of the directory. *)
Record entry_of (w : view) (c : Z) (l : list Z) (k : Z) (lf : list Z) (fp : FIL) : Prop := {
  eo_dir : dir_ok w c l;
  eo_index : 0 <= k < dir_len w c l;
  eo_place : dir_sect fp = dir_sector w c l k /\ dir_ptr fp = dir_offset k;
  eo_apart : apart w c l lf
}.

(** Chains only depend on the FAT. *)
Lemma w_chain_same_fat w w' x l : geom_ok (w_geom w) -> w_geom w' = w_geom w ->
  (forall s, in_fat (w_geom w) s = true -> w_disk w' s = w_disk w s) -> w_chain w x l -> w_chain w' x l.
Proof.
  intros Hg Eg Hs Hl. unfold w_chain in *. rewrite Eg. eapply chain_ext; [exact Hl|]. intros y Hy.
  unfold entries. rewrite Eg. apply fat_entry_ext; [done| |exact Hs]. exact (chain_range _ _ _ _ _ Hl Hy).
Qed.

Lemma file_chain_same_fat w w' x l : geom_ok (w_geom w) -> w_geom w' = w_geom w ->
  (forall s, in_fat (w_geom w) s = true -> w_disk w' s = w_disk w s) -> file_chain w x l -> file_chain w' x l.
Proof.
  unfold file_chain. intros Hg Eg Hs Hl. destruct (x =? 0); [done|]. destruct Hl as [Hl Hne]. split; [|done].
  by eapply w_chain_same_fat.
Qed.

Lemma dir_ok_same_fat w w' c l : geom_ok (w_geom w) -> w_geom w' = w_geom w ->
  (forall s, in_fat (w_geom w) s = true -> w_disk w' s = w_disk w s) -> dir_ok w c l -> dir_ok w' c l.
Proof.
  intros Hg Eg Hs [Hr Hc]. assert (dir_start w' c = dir_start w c) as E by (unfold dir_start; by rewrite Eg).
  split; rewrite E; [by rewrite Eg|]. intros Hne. destruct (Hc Hne). split; [|done]. by eapply w_chain_same_fat.
Qed.

Section Saved.
Context (w : view) (c : Z) (l : list Z) (k : Z) (lf : list Z) (fp : FIL) (tm : Z).
Context (Hg : geom_ok (w_geom w)) (He : entry_of w c l k lf fp) (Hfi : fsinfo_ok w).
Context (Hlf : forall x, x ∈ lf -> cluster w x) (Hsec : sectors (w_disk w)).
Abbreviation g := (w_geom w).
Definition saved : view := synced_view (entry_view tm fp w).

Lemma saved_geom : w_geom saved = g.
Proof. unfold saved, synced_view. by destruct (has_fsinfo _). Qed.

Lemma saved_disk s : w_disk saved s =
  if has_fsinfo w && (s =? g_volbase g + 1) then fsinfo_sector (w_free w) (w_last w)
  else if s =? dir_sect fp
       then entry_edit (g_type g) (dir_ptr fp) (f_sclust fp) (f_objsize fp) tm (w_disk w (dir_sect fp))
       else w_disk w s.
Proof.
  unfold saved, synced_view. change (has_fsinfo (entry_view tm fp w)) with (has_fsinfo w).
  destruct (has_fsinfo w); cbn [w_disk entry_view set_w_disk w_geom andb]; unfold fupd; by destruct (_ =? _).
Qed.

(** Sectors behind the reserved area that are not that of the entry stay. *)
Lemma saved_other s : g_fatbase g <= s -> s <> dir_sect fp -> w_disk saved s = w_disk w s.
Proof.
  intros Hs Hne. rewrite saved_disk. destruct (has_fsinfo w) eqn:E; cbn [andb]; [|by rewrite (proj2 (Z.eqb_neq _ _))].
  destruct (Hfi E) as [_ Hlt]. by rewrite !(proj2 (Z.eqb_neq _ _)) by lia.
Qed.

Lemma dir_sect_behind : g_fatbase g <= dir_sect fp /\ in_fat g (dir_sect fp) = false /\ proper g (dir_sect fp).
Proof.
  destruct He as [Hd Hk [-> _] _]. destruct (dir_sector_proper w c l Hg Hd k Hk) as (Hp & Hin & _).
  split; [exact (dir_sector_behind w c l Hg Hd k Hk)|by split].
Qed.

Lemma saved_fat s : in_fat g s = true -> w_disk saved s = w_disk w s.
Proof.
  intros Hs. destruct dir_sect_behind as (_ & Hn & _). apply saved_other.
  - unfold in_fat in Hs. rewrite in_range_spec in Hs. lia.
  - intros ->. congruence.
Qed.

Lemma saved_file j : sector_of g lf j -> w_disk saved (file_sector g lf j) = w_disk w (file_sector g lf j).
Proof.
  intros Hj. destruct He as [Hd Hk [Es _] Hap]. pose proof (file_sector_range w lf Hg Hlf j Hj). pose proof (geom_bounds _ Hg).
  apply saved_other; [lia|]. rewrite Es. intros E. by apply (apart_sectors w c l k lf Hg Hd Hk Hlf Hap j Hj).
Qed.

(** The sector of the entry. *)
Lemma saved_entry : w_disk saved (dir_sect fp) =
  entry_edit (g_type g) (dir_ptr fp) (f_sclust fp) (f_objsize fp) tm (w_disk w (dir_sect fp)).
Proof.
  destruct dir_sect_behind as (Hb & _). rewrite saved_disk. destruct (has_fsinfo w) eqn:E; cbn [andb].
  - destruct (Hfi E) as [_ Hlt]. rewrite (proj2 (Z.eqb_neq _ _)) by lia. by rewrite Z.eqb_refl.
  - by rewrite Z.eqb_refl.
Qed.

(** *** The directory *)

Lemma saved_start : dir_start saved c = dir_start w c.
Proof. unfold dir_start. by rewrite saved_geom. Qed.
Lemma saved_sector i : dir_sector saved c l i = dir_sector w c l i.
Proof. unfold dir_sector. by rewrite saved_start, saved_geom. Qed.
Lemma saved_len : dir_len saved c l = dir_len w c l.
Proof. unfold dir_len, dir_room. by rewrite saved_start, saved_geom. Qed.

(** Entries in the same sector have the same quotient. *)
Lemma dir_sector_inj i j : 0 <= i < dir_len w c l -> 0 <= j < dir_len w c l ->
  dir_sector w c l i = dir_sector w c l j -> i / 16 = j / 16.
Proof.
  intros Hi Hj E. destruct He as [Hd _ _ _]. unfold dir_sector in E. destruct (Z.eqb_spec (dir_start w c) 0) as [E0|E0]; [lia|].
  destruct (do_chain _ _ _ Hd E0) as [Hl _].
  apply (file_sector_inj w l Hg); [by eapply chain_NoDup|by apply (dir_index w c l i)|by apply (dir_index w c l j)|exact E].
Qed.

Lemma saved_byte i j : 0 <= i < dir_len w c l -> 0 <= j < 32 -> i <> k \/ j < 11 ->
  dir_byte saved c l i j = dir_byte w c l i j.
Proof.
  intros Hi Hj Hij. unfold dir_byte. rewrite saved_sector. pose proof He as [Hd Hk [Es Eo] _].
  destruct (Z.eq_dec (dir_sector w c l i) (dir_sect fp)) as [E|Hne].
  - rewrite E, saved_entry, Eo. apply edit_other; [apply dir_offset_range|apply Hsec; apply dir_sect_behind|].
    destruct (Z.eq_dec i k) as [->|Hik]; [left; unfold dir_offset; lia|].
    rewrite Es in E. pose proof (dir_sector_inj i k Hi Hk E) as Eq. unfold dir_offset. Z.div_mod_to_equations. lia.
  - by rewrite saved_other by (done || exact (dir_sector_behind w c l Hg Hd i Hi)).
Qed.

Lemma saved_attr : dir_byte saved c l k DIR_Attr = Z.lor (dir_byte w c l k DIR_Attr) AM_ARC.
Proof.
  pose proof He as [Hd Hk [Es Eo] _]. unfold dir_byte. rewrite saved_sector, <- Es, saved_entry, Eo.
  apply edit_attr; [apply dir_offset_range|apply Hsec; apply dir_sect_behind].
Qed.

Lemma find_entry_ext w' name n i : (forall j, i <= j < i + Z.of_nat n ->
    dir_byte w' c l j DIR_Name = dir_byte w c l j DIR_Name /\ dir_match w' c l name j = dir_match w c l name j) ->
  find_entry w' c l name n i = find_entry w c l name n i.
Proof.
  revert i. induction n as [|n IH]; intros i Hj; [done|]. cbn [find_entry].
  destruct (Hj i ltac:(lia)) as [-> ->]. rewrite IH; [done|]. intros j Hj'. apply Hj. lia.
Qed.

(** The directory shows the same names. *)
Lemma saved_lookup name : dir_lookup saved c l name = dir_lookup w c l name.
Proof.
  unfold dir_lookup. rewrite saved_len. apply find_entry_ext. intros j Hj.
  assert (0 <= j < dir_len w c l) as Hj' by lia.
  split; [by apply saved_byte; unfold DIR_Name; lia|]. unfold dir_match.
  assert (dir_name saved c l j = dir_name w c l j) as ->.
  { unfold dir_name, bytes_at. apply map_ext_in. intros i Hi%in_seq. apply (saved_byte j (Z.of_nat i)); lia. }
  f_equal. f_equal. destruct (Z.eq_dec j k) as [->|Hne].
  - rewrite saved_attr, Z.land_lor_distr_l. change (Z.land AM_ARC AM_VOL) with 0. apply Z.lor_0_r.
  - by rewrite saved_byte by (unfold DIR_Attr; lia).
Qed.

Lemma saved_size : 0 <= f_objsize fp < 2 ^ 32 -> entry_size saved c l k = f_objsize fp.
Proof.
  intros Hs. pose proof He as [Hd Hk [Es Eo] _]. unfold entry_size, dir_dword.
  rewrite saved_sector, <- Es, saved_entry, Eo, edit_size; [by apply u32_small|apply dir_offset_range|apply Hsec; apply dir_sect_behind].
Qed.

Lemma saved_cluster : f_sclust fp = 0 \/ cluster w (f_sclust fp) -> entry_cluster saved c l k = f_sclust fp.
Proof.
  intros Hc. pose proof He as [Hd Hk [Es Eo] _]. unfold entry_cluster, dir_word. rewrite saved_sector, <- Es, saved_entry, Eo, saved_geom.
  pose proof (dir_offset_range k) as Hr. assert (sector (w_disk w (dir_sect fp))) as Hs by (apply Hsec, dir_sect_behind).
  rewrite edit_low by done. pose proof (go_entries _ Hg) as Hn. unfold cluster in Hc. unfold max_clusters in Hn.
  destruct (Z.eqb_spec (g_type g) FS_FAT32) as [E|E].
  - rewrite edit_high by done. rewrite E in Hn. cbn in Hn. unfold u16. rewrite Z.shiftr_div_pow2 by lia.
    unfold MAX_FAT32 in Hn. Z.div_mod_to_equations. lia.
  - unfold u16. rewrite Z.mod_small; [lia|]. unfold MAX_FAT12, MAX_FAT16 in Hn.
    destruct (go_type _ Hg) as [Et|[Et|Et]]; rewrite Et in Hn; cbn in Hn; [lia|lia|done].
Qed.

Lemma saved_byte_of i : sector_of g lf (i / SS) -> file_byte saved lf i = file_byte w lf i.
Proof. intros Hi. unfold file_byte. by rewrite saved_geom, saved_file. Qed.

Lemma saved_file_at : file_chain w (f_sclust fp) lf -> 0 <= f_objsize fp < 2 ^ 32 ->
  f_objsize fp <= zlen lf * (g_csize g * SS) -> file_at saved c l k lf.
Proof.
  intros Hch Hs Hroom. assert (f_sclust fp = 0 \/ cluster w (f_sclust fp)) as Hc.
  { unfold file_chain in Hch. destruct (Z.eqb_spec (f_sclust fp) 0); [by left|right].
    destruct Hch as [Hch Hne]. destruct lf as [|x l']; [done|]. by destruct Hch as (-> & ? & _). }
  split; [rewrite saved_cluster by done|rewrite saved_size, saved_geom by done; exact Hroom|].
  - eapply file_chain_same_fat; [exact Hg|exact saved_geom|exact saved_fat|exact Hch].
  - unfold apart. rewrite saved_start. apply He.
Qed.
End Saved.

(** ** [f_sync] and [f_close] *)

Section Close.
Context {D : Type} `{WorkingDrive D contents online many} (copied : Z -> Prop).
Implicit Types (v : vol D) (s : ff D).
Abbreviation holds := (holds (contents := contents) (online := online) copied).
Abbreviation sees := (sees (contents := contents) (online := online) copied).
Abbreviation opened := (opened (contents := contents) (online := online) copied).

(** A file object without pending data. *)
Lemma sees_clean v w l fp : sees v w l fp -> has_flag fp FA_DIRTY = false -> holds v w.
Proof.
  intros [(L & Hv & HL) _ _] Hc. apply (holds_ext copied _ _ (w_disk w)) in Hv.
  - by destruct w.
  - intros x. rewrite HL. unfold overlay. by rewrite Hc.
Qed.

Lemma sees_intro v w l fp : holds v w -> has_flag fp FA_DIRTY = false -> file_ok w l fp ->
  (forall k, sector_of (w_geom w) l k -> winsect (v_fs v) <> file_sector (w_geom w) l k) -> sees v w l fp.
Proof.
  intros Hv Hc Hf Ha. split; [|done|done]. exists (w_disk w). split; [by destruct w|].
  intros x. unfold overlay. by rewrite Hc.
Qed.

Lemma sees_sectors v w l fp : sees v w l fp -> sectors (w_disk w).
Proof.
  intros [(L & Hv & HL) Hf _] x Hx. rewrite HL. unfold overlay. destruct (_ && _); [apply Hf|].
  by apply (holds_sectors copied _ _ Hv).
Qed.

(** What [f_sync] leaves of the object. *)
Definition synced_file (fp : FIL) : FIL := clear_flag FA_MODIFIED (cleaned fp).

Lemma synced_file_clean fp : has_flag (synced_file fp) FA_DIRTY = false.
Proof.
  pose proof (cleaned_clean fp) as Hc. unfold synced_file, has_flag in *. cbn [f_flag clear_flag set_f_flag].
  apply negb_false_iff, Z.eqb_eq in Hc. apply negb_false_iff, Z.eqb_eq. apply Z.bits_inj'. intros n Hn.
  apply (f_equal (fun z => Z.testbit z n)) in Hc. rewrite Z.land_spec, Z.bits_0 in *. rewrite Z.ldiff_spec.
  by destruct (Z.testbit (f_flag (cleaned fp)) n), (Z.testbit FA_DIRTY n), (Z.testbit FA_MODIFIED n).
Qed.

Lemma synced_file_same fp : f_fs (synced_file fp) = f_fs fp /\ f_id (synced_file fp) = f_id fp /\
  f_sclust (synced_file fp) = f_sclust fp /\ f_objsize (synced_file fp) = f_objsize fp /\
  f_err (synced_file fp) = f_err fp /\ fptr (synced_file fp) = fptr fp /\ f_clust (synced_file fp) = f_clust fp /\
  f_sect (synced_file fp) = f_sect fp /\ f_buf (synced_file fp) = f_buf fp.
Proof. unfold synced_file, cleaned. by destruct (has_flag fp FA_DIRTY). Qed.

Lemma entry_view_cleaned tm w fp : entry_view tm (cleaned fp) w = entry_view tm fp w.
Proof. unfold cleaned. by destruct (has_flag fp FA_DIRTY). Qed.

(** The file in the view after writing back. *)
Lemma synced_file_ok w c l k lf fp tm : geom_ok (w_geom w) -> sectors (w_disk w) -> entry_of w c l k lf fp -> fsinfo_ok w ->
  file_ok w lf (cleaned fp) -> file_ok (saved w fp tm) lf (synced_file fp).
Proof.
  intros Hg Hsec He Hfi [Hch Hs Hroom Hbuf Hcached].
  destruct (synced_file_same fp) as (_ & _ & E3 & E4 & _ & E6 & _ & E8 & E9).
  assert (f_sclust (cleaned fp) = f_sclust fp /\ f_objsize (cleaned fp) = f_objsize fp /\ fptr (cleaned fp) = fptr fp /\
    f_sect (cleaned fp) = f_sect fp /\ f_buf (cleaned fp) = f_buf fp) as (F1 & F2 & F3 & F4 & F5)
    by (unfold cleaned; by destruct (has_flag fp FA_DIRTY)).
  rewrite F1, F2, F3, F4, F5 in *. assert (forall x, x ∈ lf -> cluster w x) as Hlf by (intros x; by apply (file_chain_clusters w _ lf x Hch)).
  split; rewrite ?E3, ?E4, ?E6, ?E8, ?E9, ?saved_geom; try done.
  - eapply file_chain_same_fat; [exact Hg|apply saved_geom| |exact Hch]. by apply (saved_fat w c l k lf fp tm).
  - destruct Hcached as [[? _]|[Eb (j & Hj & Ej)]]; [left; split; [done|apply synced_file_clean]|right].
    split; [|by exists j]. rewrite Ej. rewrite (saved_file w c l k lf fp tm Hg He Hfi Hlf j Hj). by rewrite <- Ej.
Qed.

Lemma see_f_sync p s w c l k lf fp Q : opened p s w lf fp -> has_flag fp FA_MODIFIED = true ->
  entry_of w c l k lf fp -> fsinfo_ok w ->
  (forall s' tm, opened p s' (saved w fp tm) lf (synced_file fp) -> others p s s' ->
     (forall x, proper (w_geom w) x -> contents (ff_drive s') x = w_disk (saved w fp tm) x) ->
     Q (FR_OK, synced_file fp) s') ->
  wp (f_sync fp) Q s.
Proof.
  intros Hop Hmod He Hfi HQ. unfold f_sync. apply wp_bind. eapply see_opened; [exact Hop|].
  intros s1 [Hs Hp [Efs Eid] Her] O1. rewrite Hmod. cbn [negb]. apply see_on_fs.
  apply wp_bind. eapply see_write_back; [exact Hs|]. intros v2 Hs2. cbv iota.
  pose proof (sees_geom copied Hs2) as Hg. pose proof (sees_clean _ _ _ _ Hs2 (cleaned_clean fp)) as Hv2.
  pose proof (holds_sectors copied _ _ Hv2) as Hsec.
  destruct (dir_sect_behind w c l k lf fp Hg He) as (Hb & _ & Hpr). pose proof He as [Hd Hk [Es Eo] Hap].
  assert (dir_sect (cleaned fp) = dir_sect fp /\ dir_ptr (cleaned fp) = dir_ptr fp) as [C1 C2]
    by (unfold cleaned; by destruct (has_flag fp FA_DIRTY)).
  pose proof (dir_offset_range k) as Hor.
  eapply see_sync_entry; [exact Hv2|by rewrite C1|rewrite C2, Eo; lia|rewrite C2, Eo; lia|exact Hfi|].
  intros v3 tm Hv3 Hf3 Hw3 s3 E3 O3. rewrite entry_view_cleaned in Hv3. rewrite C1 in Hw3.
  change (synced_view (entry_view tm fp w)) with (saved w fp tm) in Hv3.
  destruct (synced_file_same fp) as (S1 & S2 & _ & _ & S5 & S6 & S7 & S8 & _).
  assert (forall x, x ∈ lf -> cluster w x) as Hlf by (intros x; apply (sees_clusters copied Hs x)).
  pose proof (synced_file_ok w c l k lf fp tm Hg Hsec He Hfi (se_file _ _ _ _ _ Hs2)) as Hok.
  apply (HQ s3 tm); [|by transitivity s1|].
  - split; [|split; rewrite saved_geom, ?S6, ?S7, ?S8; apply Hp|by rewrite S1, S2, saved_geom|by rewrite S5].
    rewrite E3. apply sees_intro; [exact Hv3|apply synced_file_clean|exact Hok|]. rewrite saved_geom. intros j Hj.
    pose proof (file_sector_range w lf Hg Hlf j Hj) as Hr. pose proof (geom_bounds _ Hg) as Hgb.
    destruct Hw3 as [->|[Eh ->]]; [rewrite Es; by eapply apart_sectors|]. destruct (Hfi Eh). lia.
  - intros x Hx. pose proof (h_disk _ _ _ Hv3 x) as Hc. rewrite saved_geom in Hc. rewrite <- E3 in Hc. apply Hc; [done|].
    right. rewrite <- E3 in Hf3. exact Hf3.
Qed.

(** [f_sync] of a file with unwritten changes returns [FR_OK], and afterwards
    nothing is left in memory: what is on the drive, in every sector outside of the
    second FAT, is the volume.  There the entry of the file has its size and its first
    cluster, so that the entry is that of the file again, with all its bytes as the
    application saw them; the archive bit is set; the directory shows the same names;
    no other entry, file or sector of the FAT has changed, and the file is still open
    at the same place. *)
Theorem f_sync_stores p s w c l k lf fp : opened p s w lf fp -> has_flag fp FA_MODIFIED = true ->
  entry_of w c l k lf fp -> fsinfo_ok w ->
  wp (f_sync fp) (fun r s' => exists fp' w', r = (FR_OK, fp') /\ opened p s' w' lf fp' /\ others p s s' /\
    has_flag fp' FA_DIRTY = false /\ fptr fp' = fptr fp /\ f_objsize fp' = f_objsize fp /\
    (forall x, proper (w_geom w) x -> contents (ff_drive s') x = w_disk w' x) /\
    w_geom w' = w_geom w /\ file_at w' c l k lf /\ entry_size w' c l k = f_objsize fp /\
    dir_byte w' c l k DIR_Attr = Z.lor (dir_byte w c l k DIR_Attr) AM_ARC /\
    (forall name, dir_lookup w' c l name = dir_lookup w c l name) /\
    (forall i, 0 <= i < f_objsize fp -> file_byte w' lf i = file_byte w lf i) /\
    (forall x, g_fatbase (w_geom w) <= x -> x <> dir_sect fp -> w_disk w' x = w_disk w x)) s.
Proof.
  intros Hop Hmod He Hfi. pose proof (op_sees _ _ _ _ _ _ Hop) as Hs. pose proof (sees_geom copied Hs) as Hg.
  eapply see_f_sync; [exact Hop|exact Hmod|exact He|exact Hfi|]. intros s' tm Hop' O' Hc.
  destruct (se_file _ _ _ _ _ Hs) as [Hch Hsz Hroom _ _].
  assert (forall x, x ∈ lf -> cluster w x) as Hlf by (intros x; by apply (file_chain_clusters w _ lf x Hch)).
  assert (sectors (w_disk w)) as Hsec by apply (sees_sectors _ _ _ _ Hs).
  destruct (synced_file_same fp) as (_ & _ & _ & E4 & _ & E6 & _).
  exists (synced_file fp), (saved w fp tm). split; [done|]. split; [done|]. split; [done|].
  split; [apply synced_file_clean|]. split; [done|]. split; [done|]. split; [exact Hc|]. split; [apply saved_geom|].
  split; [by eapply saved_file_at; try done; lia|]. split; [by eapply saved_size; try done; lia|].
  split; [by eapply saved_attr|]. split; [intros name; by eapply saved_lookup|].
  split; [intros i Hi|intros x Hx Hne; by eapply saved_other].
  eapply saved_byte_of; try done. unfold sector_of, SS in *. split; [apply Z.div_pos; lia|apply Z.div_lt_upper_bound; lia].
Qed.
End Close.

(** ** Paths that stay *)

(** The names lead from the directory [d] to entry [k] of [c], through directories
    with clusters that are not in [lf]. *)
Inductive path_to (w : view) (lf : list Z) (c : Z) (l : list Z) (k : Z) : Z -> list fname -> Prop :=
  | path_here n : dir_ok w c l -> apart w c l lf -> dir_lookup w c l (entry_name n) = Some k ->
      path_to w lf c l k c [n]
  | path_down d ld i n names : names <> [] -> dir_ok w d ld -> apart w d ld lf -> dir_lookup w d ld (entry_name n) = Some i ->
      is_dir w d ld i = true -> path_to w lf c l k (entry_cluster w d ld i) names -> path_to w lf c l k d (n :: names).

Lemma path_leads w lf c l k d names : path_to w lf c l k d names -> leads w d names (inl (c, l, k)).
Proof. induction 1; [by apply leads_here|by eapply leads_down]. Qed.

(** A change of the volume that leaves the directories on paths apart from [lf] what
    they are, up to the archive bit. *)
Record keeps_dir (w w' : view) (d : Z) (ld : list Z) : Prop := {
  kd_ok : dir_ok w' d ld;
  kd_lookup name : dir_lookup w' d ld name = dir_lookup w d ld name;
  kd_down i : 0 <= i < dir_len w d ld -> is_dir w d ld i = true ->
    is_dir w' d ld i = true /\ entry_cluster w' d ld i = entry_cluster w d ld i
}.

Lemma path_kept w w' lf lf' c l k d names : path_to w lf c l k d names ->
  (forall d ld, dir_ok w d ld -> apart w d ld lf -> keeps_dir w w' d ld /\ apart w' d ld lf') ->
  path_to w' lf' c l k d names.
Proof.
  intros Hp Hk. induction Hp as [n Hd Ha Hn|d ld i n names Hne Hd Ha Hn Hdir Hp IH].
  - destruct (Hk c l Hd Ha) as [[Hd' Hl _] Ha']. apply path_here; [done|done|]. by rewrite Hl.
  - destruct (Hk d ld Hd Ha) as [[Hd' Hl Hdn] Ha']. pose proof (dir_lookup_Some _ _ _ _ _ Hn) as (Hi & _).
    destruct (Hdn i Hi Hdir) as [Hdir' Ec]. eapply path_down; [done|done|done|by rewrite Hl|done|]. by rewrite Ec.
Qed.

(** Directories only depend on their sectors. *)
Section SameSectors.
Context (w w' : view) (d : Z) (ld : list Z) (Eg : w_geom w' = w_geom w).
Context (Hs : forall i, 0 <= i < dir_len w d ld -> w_disk w' (dir_sector w d ld i) = w_disk w (dir_sector w d ld i)).

Lemma same_start : dir_start w' d = dir_start w d.
Proof. unfold dir_start. by rewrite Eg. Qed.
Lemma same_sector i : dir_sector w' d ld i = dir_sector w d ld i.
Proof. unfold dir_sector. by rewrite same_start, Eg. Qed.
Lemma same_len : dir_len w' d ld = dir_len w d ld.
Proof. unfold dir_len, dir_room. by rewrite same_start, Eg. Qed.

Lemma find_entry_same name n i : (forall j, i <= j < i + Z.of_nat n ->
    dir_byte w' d ld j DIR_Name = dir_byte w d ld j DIR_Name /\ dir_match w' d ld name j = dir_match w d ld name j) ->
  find_entry w' d ld name n i = find_entry w d ld name n i.
Proof. apply find_entry_ext. Qed.

Lemma same_lookup name : dir_lookup w' d ld name = dir_lookup w d ld name.
Proof.
  unfold dir_lookup. rewrite same_len. apply find_entry_same. intros j Hj.
  assert (0 <= j < dir_len w d ld) as Hj' by lia. specialize (Hs j Hj').
  unfold dir_match, dir_byte, dir_name. by rewrite !same_sector, Hs.
Qed.

Lemma same_entry i : 0 <= i < dir_len w d ld ->
  dir_attr w' d ld i = dir_attr w d ld i /\ entry_cluster w' d ld i = entry_cluster w d ld i /\
  entry_size w' d ld i = entry_size w d ld i.
Proof.
  intros Hi. specialize (Hs i Hi).
  unfold dir_attr, dir_byte, entry_cluster, entry_size, dir_word, dir_dword. by rewrite !same_sector, Hs, Eg.
Qed.

Lemma keeps_same : dir_ok w' d ld -> keeps_dir w w' d ld.
Proof.
  intros Hd. split; [done|exact same_lookup|]. intros i Hi Hdir. destruct (same_entry i Hi) as (Ea & Ec & _).
  split; [|done]. unfold is_dir in *. by rewrite Ea.
Qed.
End SameSectors.

(** ** Writing *)

Section Wrote.
Context (w w' : view) (lf lf' : list Z) (size pos n : Z) (data : list Z).
Context (Hw : wrote w lf size pos n data w' lf') (Hg : geom_ok (w_geom w)) (Hlf : forall x, x ∈ lf -> cluster w x).

Lemma wrote_clusters x : x ∈ lf' -> cluster w x.
Proof.
  destruct (wr_chain _ _ _ _ _ _ _ _ Hw) as (ext & -> & Hext). intros [Hx|Hx]%elem_of_app; [by apply Hlf|by apply Hext].
Qed.

(** The clusters of other chains are no new ones. *)
Lemma wrote_apart x ld : w_chain w x ld -> (forall y, y ∈ ld -> y ∉ lf) -> forall y, y ∈ ld -> y ∉ lf'.
Proof.
  intros Hl Ha y Hy. destruct (wr_chain _ _ _ _ _ _ _ _ Hw) as (ext & -> & Hext).
  intros [Hy'|Hy']%elem_of_app; [by apply (Ha y)|]. destruct (Hext y Hy') as [_ E0].
  apply (chain_nonzero _ _ _ _ _ Hl Hy); [|done]. pose proof (geom_bounds _ Hg). lia.
Qed.

Lemma wrote_chain x ld : w_chain w x ld -> (forall y, y ∈ ld -> y ∉ lf) -> w_chain w' x ld.
Proof.
  intros Hl Ha. unfold w_chain. rewrite (wr_geom _ _ _ _ _ _ _ _ Hw). eapply chain_ext; [exact Hl|]. intros y Hy.
  apply (wr_others _ _ _ _ _ _ _ _ Hw); [exact (chain_range _ _ _ _ _ Hl Hy)|by apply Ha|].
  apply (chain_nonzero _ _ _ _ _ Hl Hy). pose proof (geom_bounds _ Hg). lia.
Qed.

Lemma wrote_still_apart d ld : dir_ok w d ld -> apart w d ld lf -> apart w d ld lf'.
Proof.
  intros Hd Ha. destruct (Z.eq_dec (dir_start w d) 0) as [E|E]; [by left|right]. destruct Ha as [Ha|Ha]; [done|].
  eapply wrote_apart; [apply (do_chain _ _ _ Hd E)|exact Ha].
Qed.

Lemma wrote_dir_sector d ld i : dir_ok w d ld -> apart w d ld lf -> 0 <= i < dir_len w d ld ->
  w_disk w' (dir_sector w d ld i) = w_disk w (dir_sector w d ld i).
Proof.
  intros Hd Ha Hi. destruct (dir_sector_proper w d ld Hg Hd i Hi) as (_ & Hin & _).
  apply (wr_disk _ _ _ _ _ _ _ _ Hw); [done|]. intros j Hj.
  by apply (apart_sectors w d ld i lf' Hg Hd Hi wrote_clusters (wrote_still_apart d ld Hd Ha)).
Qed.

Lemma wrote_keeps d ld : dir_ok w d ld -> apart w d ld lf -> keeps_dir w w' d ld /\ apart w' d ld lf'.
Proof.
  intros Hd Ha. pose proof (wr_geom _ _ _ _ _ _ _ _ Hw) as Eg.
  assert (dir_start w' d = dir_start w d) as Est by (unfold dir_start; by rewrite Eg).
  split; [|unfold apart; rewrite Est; by apply wrote_still_apart]. apply keeps_same; [exact Eg|intros i; by apply wrote_dir_sector|].
  split; rewrite Est; [rewrite Eg; apply Hd|]. intros E. destruct (do_chain _ _ _ Hd E) as [Hl Hne]. split; [|done].
  apply wrote_chain; [done|]. by destruct Ha as [Ha|Ha].
Qed.

(** The entry of the file is where it was. *)
Lemma wrote_entry c l k fp fp' : entry_of w c l k lf fp -> dir_sect fp' = dir_sect fp -> dir_ptr fp' = dir_ptr fp ->
  entry_of w' c l k lf' fp' /\ is_dir w' c l k = is_dir w c l k.
Proof.
  intros [Hd Hk [Es Eo] Ha] F1 F2. pose proof (wr_geom _ _ _ _ _ _ _ _ Hw) as Eg.
  destruct (wrote_keeps c l Hd Ha) as [[Hd' _ _] Ha'].
  destruct (same_entry w w' c l Eg (fun i => wrote_dir_sector c l i Hd Ha) k Hk) as (Ea & _).
  split; [|unfold is_dir; by rewrite Ea]. split; [done|by rewrite (same_len w w' c l Eg)| |done].
  by rewrite F1, F2, (same_sector w w' c l Eg).
Qed.

Lemma wrote_boot : w_disk w' 0 = w_disk w 0.
Proof.
  pose proof (geom_bounds _ Hg) as Hb. pose proof (go_fatbase _ Hg) as H1.
  apply (wr_disk _ _ _ _ _ _ _ _ Hw); [unfold in_fat; apply in_range_false; lia|].
  intros j Hj. pose proof (file_sector_range w lf' Hg wrote_clusters j Hj). lia.
Qed.
End Wrote.

(** ** Writing back *)

Section Kept.
Context (w : view) (c : Z) (l : list Z) (k : Z) (lf : list Z) (fp : FIL) (tm : Z).
Context (Hg : geom_ok (w_geom w)) (He : entry_of w c l k lf fp) (Hfi : fsinfo_ok w) (Hsec : sectors (w_disk w)).
Context (Hfile : is_dir w c l k = false).
Abbreviation w' := (saved w fp tm).

(** A sector of a directory: only the entry of the file changes. *)
Lemma saved_dir_byte d ld i j : dir_ok w d ld -> 0 <= i < dir_len w d ld -> 0 <= j < 32 ->
  j < 11 \/ dir_sector w d ld i <> dir_sect fp \/ dir_offset i <> dir_ptr fp ->
  dir_byte w' d ld i j = dir_byte w d ld i j.
Proof.
  intros Hd Hi Hj Hne. unfold dir_byte. rewrite (same_sector w w' d ld (saved_geom w fp tm)).
  destruct (Z.eq_dec (dir_sector w d ld i) (dir_sect fp)) as [E|E].
  - rewrite E, (saved_entry w c l k lf fp tm Hg He Hfi). destruct (dir_sect_behind w c l k lf fp Hg He) as (_ & _ & Hp).
    pose proof (dir_offset_range k) as Hr. destruct He as [_ _ [_ Eo] _].
    apply edit_other; [rewrite Eo; lia|apply Hsec, Hp|]. rewrite Eo in *. unfold dir_offset in *. lia.
  - destruct (dir_sector_proper w d ld Hg Hd i Hi) as (_ & Hin & _).
    rewrite (saved_other w fp tm Hfi); [done|exact (dir_sector_behind w d ld Hg Hd i Hi)|done].
Qed.

(** Another entry at the same place is the entry of the file. *)
Lemma saved_dir_attr d ld i : dir_ok w d ld -> 0 <= i < dir_len w d ld ->
  dir_byte w' d ld i DIR_Attr = dir_byte w d ld i DIR_Attr \/
  dir_byte w' d ld i DIR_Attr = Z.lor (dir_byte w d ld i DIR_Attr) AM_ARC /\ is_dir w d ld i = false.
Proof.
  intros Hd Hi. destruct (Z.eq_dec (dir_sector w d ld i) (dir_sect fp)) as [E1|E1];
    [|left; apply saved_dir_byte; unfold DIR_Attr; auto; lia].
  destruct (Z.eq_dec (dir_offset i) (dir_ptr fp)) as [E2|E2]; [|left; apply saved_dir_byte; unfold DIR_Attr; auto; lia].
  right. pose proof He as [_ _ [Es Eo] _].
  pose proof (saved_attr w c l k lf fp tm Hg He Hfi Hsec) as Ha. unfold is_dir, dir_attr, dir_byte in *.
  rewrite (same_sector w w' d ld (saved_geom w fp tm)), E1, E2, Es, Eo in *.
  rewrite (same_sector w w' c l (saved_geom w fp tm)) in Ha. by rewrite Ha.
Qed.

Lemma saved_keeps d ld : dir_ok w d ld -> keeps_dir w w' d ld.
Proof.
  intros Hd. assert (Hfat : forall s, in_fat (w_geom w) s = true -> w_disk w' s = w_disk w s)
    by (intros s; by apply (saved_fat w c l k lf fp tm)).
  split; [by apply (dir_ok_same_fat w w' d ld Hg (saved_geom w fp tm) Hfat)| |].
  - intros name. unfold dir_lookup. rewrite (same_len w w' d ld (saved_geom w fp tm)). apply find_entry_same.
    intros j Hj. assert (0 <= j < dir_len w d ld) as Hj' by lia.
    split; [by apply saved_dir_byte; unfold DIR_Name; auto; lia|]. unfold dir_match.
    assert (dir_name w' d ld j = dir_name w d ld j) as ->.
    { unfold dir_name, bytes_at. apply map_ext_in. intros i Hi%in_seq. apply (saved_dir_byte d ld j (Z.of_nat i)); auto; lia. }
    f_equal. f_equal. destruct (saved_dir_attr d ld j Hd Hj') as [->|[-> _]]; [done|].
    rewrite Z.land_lor_distr_l. change (Z.land AM_ARC AM_VOL) with 0. apply Z.lor_0_r.
  - intros i Hi Hdir. destruct (saved_dir_attr d ld i Hd Hi) as [Ea|[_ Ef]]; [|congruence].
    split; [unfold is_dir, dir_attr in *; by rewrite Ea|].
    assert (Hb : forall j, 0 <= j < 32 -> dir_byte w' d ld i j = dir_byte w d ld i j).
    { intros j Hj. apply saved_dir_byte; [done..|]. pose proof He as [_ _ [Es Eo] _].
      destruct (Z.eq_dec (dir_sector w d ld i) (dir_sect fp)) as [E1|E1]; [|auto].
      destruct (Z.eq_dec (dir_offset i) (dir_ptr fp)) as [E2|E2]; [|auto].
      unfold is_dir, dir_attr, dir_byte in Hdir, Hfile. rewrite <- Es, <- Eo in Hfile. rewrite E1, E2 in Hdir. congruence. }
    assert (Hw : forall j, 0 <= j < 31 -> dir_word w' d ld i j = dir_word w d ld i j).
    { intros j Hj. pose proof (Hb j) as B1. pose proof (Hb (j + 1)) as B2. unfold dir_byte in B1, B2.
      unfold dir_word, word_at. rewrite <- Z.add_assoc, B1, B2 by lia. done. }
    unfold entry_cluster, DIR_FstClusLO, DIR_FstClusHI. by rewrite !Hw, saved_geom by lia.
Qed.

Lemma saved_isdir : is_dir w' c l k = false.
Proof.
  unfold is_dir, dir_attr in *. rewrite (saved_attr w c l k lf fp tm Hg He Hfi Hsec).
  rewrite !Z.land_lor_distr_l. change (Z.land (Z.land AM_ARC AM_MASK) AM_DIR) with 0. by rewrite Z.lor_0_r.
Qed.

Lemma saved_boot : g_volbase (w_geom w) = 0 -> w_disk w' 0 = w_disk w 0.
Proof.
  intros E. destruct (dir_sect_behind w c l k lf fp Hg He) as (Hb & _). pose proof (go_fatbase _ Hg) as H1.
  rewrite saved_disk, E. change (0 =? 0 + 1) with false. rewrite andb_false_r. by rewrite (proj2 (Z.eqb_neq 0 _)) by lia.
Qed.
End Kept.

(** ** The drive alone *)

(** Another mount gives the volume another number, and nothing else depends on it. *)
Definition renamed (id : Z) (w : view) : view :=
  View (Geom (g_type (w_geom w)) (g_fats (w_geom w)) (g_rootdir (w_geom w)) (g_csize (w_geom w)) (g_entries (w_geom w))
          (g_fsize (w_geom w)) (g_volbase (w_geom w)) (g_fatbase (w_geom w)) (g_dirbase (w_geom w)) (g_database (w_geom w)) id)
    (w_last w) (w_free w) (w_fsi w) (w_disk w).

Lemma renamed_dir_ok id w d ld : dir_ok w d ld -> dir_ok (renamed id w) d ld.
Proof. intros [Hr Hc]. split; [exact Hr|exact Hc]. Qed.

Lemma renamed_geom_ok id w : geom_ok (w_geom w) -> geom_ok (w_geom (renamed id w)).
Proof. by intros []. Qed.

Lemma renamed_lookup id w d ld name : dir_lookup (renamed id w) d ld name = dir_lookup w d ld name.
Proof. unfold dir_lookup. apply find_entry_ext. by intros j _. Qed.

Lemma renamed_path id w lf c l k d names : path_to w lf c l k d names -> path_to (renamed id w) lf c l k d names.
Proof.
  induction 1 as [n Hd Ha Hn|d ld i n names Hne Hd Ha Hn Hdir Hp IH].
  - apply path_here; [by apply renamed_dir_ok|exact Ha|by rewrite renamed_lookup].
  - eapply path_down; [done|by apply renamed_dir_ok|exact Ha|by rewrite renamed_lookup|exact Hdir|exact IH].
Qed.

(** A volume on a drive without a partition table, whose boot sector can be mounted.
    A FAT32 volume has its FSINFO sector behind the boot sector, before the FATs. *)
Record whole_drive (w : view) : Prop := {
  wd_geom : w_geom w = boot_geom (g_id (w_geom w)) 0 (w_disk w 0);
  wd_kind : boot_kind (w_disk w 0) = 0;
  wd_mountable : mountable (w_disk w 0) = true;
  wd_fits : bpb_fits 0 (w_disk w 0);
  wd_parts : partitions_ok (w_disk w);
  wd_reserved : g_type (w_geom w) = FS_FAT32 -> 1 < g_fatbase (w_geom w)
}.

Lemma whole_volbase w : whole_drive w -> g_volbase (w_geom w) = 0.
Proof. intros Hw. by rewrite (wd_geom _ Hw). Qed.

Lemma whole_fsinfo w : whole_drive w -> fsinfo_ok w.
Proof.
  intros Hw. unfold fsinfo_ok, has_fsinfo. intros [E%Z.eqb_eq _]%andb_true_iff. rewrite (whole_volbase w Hw).
  pose proof (wd_reserved _ Hw E). lia.
Qed.

Lemma whole_kept w w' : whole_drive w -> w_geom w' = w_geom w -> w_disk w' 0 = w_disk w 0 -> whole_drive w'.
Proof. intros [H1 H2 H3 H4 H5 H6] Eg E0. split; unfold partitions_ok in *; by rewrite ?Eg, ?E0. Qed.

Section Again.
Context (w : view) (cv : Z -> list Z) (id : Z) (Hg : geom_ok (w_geom w)) (Hw : whole_drive w).
Context (Hcv : forall x, proper (w_geom w) x -> cv x = w_disk w x).
Abbreviation w0 := (renamed id w).
Abbreviation w2 := (volume_view cv 0 id).

Lemma proper_boot : proper (w_geom w) 0.
Proof.
  pose proof (geom_bounds _ Hg) as (_ & Hs & _). pose proof (go_fatbase _ Hg). split; [lia|]. unfold in_copy.
  destruct (_ =? 2); [|done]. cbn. apply in_range_false. lia.
Qed.

Lemma again_boot : cv 0 = w_disk w 0.
Proof. apply Hcv, proper_boot. Qed.

Lemma again_geom : w_geom w2 = w_geom w0.
Proof.
  unfold volume_view, renamed. cbn [w_geom]. rewrite again_boot. rewrite (wd_geom _ Hw) at 1 2 3 4 5 6 7 8 9 10. done.
Qed.

Lemma again_found : find_boot cv = (0, 0).
Proof. unfold find_boot. rewrite again_boot, (wd_kind _ Hw). done. Qed.

Lemma again_fat s : in_fat (w_geom w0) s = true -> w_disk w2 s = w_disk w0 s.
Proof. intros Hs. apply Hcv. by apply proper_fat. Qed.

Lemma again_sector d ld i : dir_ok w0 d ld -> 0 <= i < dir_len w0 d ld ->
  w_disk w2 (dir_sector w0 d ld i) = w_disk w0 (dir_sector w0 d ld i).
Proof. intros Hd Hi. apply Hcv. exact (proj1 (dir_sector_proper w0 d ld (renamed_geom_ok id w Hg) Hd i Hi)). Qed.

Lemma again_keeps lf d ld : dir_ok w0 d ld -> apart w0 d ld lf -> keeps_dir w0 w2 d ld /\ apart w2 d ld lf.
Proof.
  intros Hd Ha. split; [|unfold apart, dir_start in *; by rewrite again_geom].
  apply keeps_same; [exact again_geom|intros i; by apply again_sector|].
  eapply dir_ok_same_fat; [exact (renamed_geom_ok id w Hg)|exact again_geom|exact again_fat|exact Hd].
Qed.

Lemma again_path lf c l k names : path_to w lf c l k 0 names -> leads w2 0 names (inl (c, l, k)).
Proof.
  intros Hp%(renamed_path id). eapply path_leads, path_kept; [exact Hp|]. intros d ld. apply again_keeps.
Qed.

Lemma again_entry c l k : dir_ok w c l -> 0 <= k < dir_len w c l ->
  is_dir w2 c l k = is_dir w c l k /\ entry_cluster w2 c l k = entry_cluster w c l k /\ entry_size w2 c l k = entry_size w c l k.
Proof.
  intros Hd Hk. apply (renamed_dir_ok id) in Hd.
  destruct (same_entry w0 w2 c l again_geom (fun i => again_sector c l i Hd) k Hk) as (Ea & Ec & Es).
  split; [unfold is_dir; by rewrite Ea|done].
Qed.

Lemma again_file c l k lf : dir_ok w c l -> 0 <= k < dir_len w c l -> file_at w c l k lf -> file_at w2 c l k lf.
Proof.
  intros Hd Hk [Hch Hroom Ha]. destruct (again_entry c l k Hd Hk) as (_ & Ec & Es). split.
  - rewrite Ec. eapply (file_chain_same_fat w0); [exact (renamed_geom_ok id w Hg)|exact again_geom|exact again_fat|exact Hch].
  - rewrite Es, again_geom. exact Hroom.
  - unfold apart, dir_start in *. rewrite again_geom. exact Ha.
Qed.

Lemma again_byte lf i : (forall x, x ∈ lf -> cluster w x) -> sector_of (w_geom w) lf (i / SS) -> file_byte w2 lf i = file_byte w lf i.
Proof.
  intros Hlf Hi. unfold file_byte. rewrite again_geom. f_equal. apply Hcv.
  pose proof (file_sector_range w lf Hg Hlf _ Hi) as Hr. exact (proj1 (proper_data (w_geom w) _ Hg Hr)).
Qed.
End Again.

(** ** Starting again *)

Section Survive.
Context {D : Type} `{WorkingDrive D contents online many} (copied : Z -> Prop).
Context {cold : D -> Prop} `{!StartingDrive (contents := contents) (online := online) cold}.
Implicit Types (s : ff D).
Abbreviation opened := (opened (contents := contents) (online := online) copied).

(** [f_mount], [f_open] and [f_read] on a drive that holds the view. *)
Lemma see_read_again q s path names w c l k lf fp m buff : geom_ok (w_geom w) -> whole_drive w ->
  (forall x, proper (w_geom w) x -> contents (ff_drive s) x = w_disk w x) ->
  dir_ok w c l -> 0 <= k < dir_len w c l -> path_to w lf c l k 0 names -> is_dir w c l k = false -> file_at w c l k lf ->
  g_csize (w_geom w) <= many -> forallb legal names = true ->
  ff_fatfs s = None -> plain_path path = true -> zlen (win (ff_objs s q)) = SS -> cold (ff_drive s) ->
  wp (let* r1 := f_mount (Some q) path 1 in
      let* r2 := f_open fp (replicate m 47 ++ path_text names) FA_READ in
      let* r3 := f_read r2.2 buff (zlen buff) in
      ret (r1, r2.1, r3.1.1.1, r3.1.2, r3.2)) (fun r s' => exists b,
    let n := Z.min (zlen buff) (entry_size w c l k) in
    r = (FR_OK, FR_OK, FR_OK, b, n) /\ filled buff 0 n (file_byte w lf) b) s.
Proof.
  intros Hg Hw Hcv Hd Hk Hp Hdir Hf Hcs Hnames Hreg Hpath Hwin Hcold. pose proof (zlen_nonneg buff).
  set (id := u16 (ff_fsid s + 1)). set (cv := contents (ff_drive s)) in *.
  pose proof (again_found w cv Hg Hw Hcv) as Eb. pose proof (again_boot w cv Hg Hcv) as E0.
  destruct (again_entry w cv id Hg Hw Hcv c l k Hd Hk) as (Ed & _ & Es).
  pose proof (again_geom w cv id Hg Hw Hcv) as Eg. pose proof (again_path w cv id Hg Hw Hcv lf c l k names Hp) as Hl.
  pose proof (again_file w cv id Hg Hw Hcv c l k lf Hd Hk Hf) as Hf2.
  assert (partitions_ok cv) as Hparts by (unfold partitions_ok; rewrite E0; apply Hw).
  pose proof (see_mount_open_read (cold := cold) (fun _ => False) q s path names c l k lf fp m buff (zlen buff)) as Hread.
  cbv zeta in Hread. change (contents (ff_drive s)) with cv in Hread. rewrite Eb in Hread. cbn [fst snd] in Hread. fold id in Hread.
  rewrite E0, Es, Ed, Eg in Hread.
  eapply wp_mono; [apply Hread; [done..|apply Hw|apply Hw|by intros _ x _|exact Hcs|by destruct Hp|done|exact Hl|exact Hdir|exact Hf2|lia]|].
  cbv beta. intros r s' (b & -> & Hb). exists b. split; [done|]. eapply filled_ext; [|exact Hb].
  intros j Hj. apply (again_byte w cv id Hg Hw Hcv).
  - intros x. exact (file_chain_clusters w _ lf x (fa_chain _ _ _ _ _ Hf)).
  - pose proof (fa_room _ _ _ _ _ Hf). unfold sector_of, SS in *. split; [apply Z.div_pos; lia|apply Z.div_lt_upper_bound; lia].
Qed.

(** The last view of a file that was written and synchronised. *)
Lemma path_saved w c l k lf fp tm d names : geom_ok (w_geom w) -> entry_of w c l k lf fp -> fsinfo_ok w -> sectors (w_disk w) ->
  is_dir w c l k = false -> path_to w lf c l k d names -> path_to (saved w fp tm) lf c l k d names.
Proof.
  intros Hg He Hfi Hsec Hdir Hp. eapply path_kept; [exact Hp|]. intros e le Hd Ha.
  split; [by eapply saved_keeps|]. unfold apart, dir_start in *. by rewrite saved_geom.
Qed.

(** After [f_sync] the drive alone gives the file, with the bytes it had when open. *)
Lemma see_reopened q s path names w c l k lf fp tm fp2 m buff : geom_ok (w_geom w) -> whole_drive w -> sectors (w_disk w) ->
  entry_of w c l k lf fp -> file_ok w lf fp -> is_dir w c l k = false -> path_to w lf c l k 0 names ->
  (forall x, proper (w_geom w) x -> contents (ff_drive s) x = w_disk (saved w fp tm) x) ->
  g_csize (w_geom w) <= many -> forallb legal names = true ->
  ff_fatfs s = None -> plain_path path = true -> zlen (win (ff_objs s q)) = SS -> cold (ff_drive s) ->
  wp (let* r1 := f_mount (Some q) path 1 in
      let* r2 := f_open fp2 (replicate m 47 ++ path_text names) FA_READ in
      let* r3 := f_read r2.2 buff (zlen buff) in
      ret (r1, r2.1, r3.1.1.1, r3.1.2, r3.2)) (fun r s' => exists b,
    let n := Z.min (zlen buff) (f_objsize fp) in
    r = (FR_OK, FR_OK, FR_OK, b, n) /\ filled buff 0 n (file_byte w lf) b) s.
Proof.
  intros Hg Hwd Hsec He [Hch Hsz Hroom _ _] Hdir Hp Hc Hcs Hnames Hreg Hpath Hwin Hcold. pose proof (whole_fsinfo w Hwd) as Hfi.
  set (w2 := saved w fp tm) in *. assert (w_geom w2 = w_geom w) as Eg2 by apply saved_geom. pose proof He as [Hd Hk _ _].
  assert (Hlf : forall x, x ∈ lf -> cluster w x) by (intros x; exact (file_chain_clusters w _ lf x Hch)).
  pose proof (saved_size w c l k lf fp tm Hg He Hfi Hsec ltac:(lia)) as Esz. fold w2 in Esz.
  eapply wp_mono; [eapply (see_read_again q s path names w2 c l k lf); try done|].
  - by rewrite Eg2.
  - apply (whole_kept w); [done|done|]. apply (saved_boot w c l k lf); [done..|by apply whole_volbase].
  - intros x Hx. apply Hc. by rewrite <- Eg2.
  - apply (kd_ok _ _ _ _ (saved_keeps w c l k lf fp tm Hg He Hfi Hsec Hdir c l Hd)).
  - by rewrite (same_len w w2 c l Eg2).
  - by apply path_saved.
  - by apply (saved_isdir w c l k lf).
  - apply saved_file_at; done || lia.
  - by rewrite Eg2.
  - cbv beta. intros r s' (b & -> & Hb). rewrite Esz in *. exists b. split; [done|]. eapply filled_ext; [|exact Hb].
    intros j Hj. apply (saved_byte_of w c l k lf); [done..|].
    unfold sector_of, SS in *. split; [apply Z.div_pos; lia|apply Z.div_lt_upper_bound; lia].
Qed.

(** [C31]: What is written survives. After [f_write] and [f_sync] on an
    unpartitioned drive ([whole_drive]) that transfers a whole cluster at a time
    ([g_csize <= many]; the drive of the repository does so for clusters of one
    sector) and a [tidy] volume, to a file with a path of legal 8.3 names, memory
    may be lost: when a system starts with the contents of the drive and nothing
    else, [f_mount], [f_open] of the path of the file and [f_read] return [FR_OK]
    and the bytes of the file, the old ones with those that were written in their
    place, up to its new end, also when the file has got new clusters. *)
Theorem write_survives p s w lf fp data c l k names : opened p s w lf fp -> has_flag fp FA_WRITE = true ->
  g_csize (w_geom w) <= many -> tidy w -> Forall is_byte data -> fptr fp + zlen data < 2 ^ 32 ->
  whole_drive w -> entry_of w c l k lf fp -> is_dir w c l k = false -> path_to w lf c l k 0 names -> forallb legal names = true ->
  wp (let* r := f_write fp data (zlen data) in
      let* y := f_sync r.1.2 in ret (r.1.1, r.2, y.1)) (fun r s' => exists n w',
    r = (FR_OK, n, FR_OK) /\ 0 <= n <= zlen data /\ w_geom w' = w_geom w /\
    (n < zlen data -> forall x, cluster w' x -> entries w' x <> 0) /\
    forall q s2 path fp2 m buff, ff_fatfs s2 = None -> plain_path path = true -> zlen (win (ff_objs s2 q)) = SS ->
      cold (ff_drive s2) -> (forall x, contents (ff_drive s2) x = contents (ff_drive s') x) ->
      wp (let* r1 := f_mount (Some q) path 1 in
          let* r2 := f_open fp2 (replicate m 47 ++ path_text names) FA_READ in
          let* r3 := f_read r2.2 buff (zlen buff) in
          ret (r1, r2.1, r3.1.1.1, r3.1.2, r3.2)) (fun r2 _ => exists b,
        let len := Z.min (zlen buff) (Z.max (f_objsize fp) (fptr fp + n)) in
        r2 = (FR_OK, FR_OK, FR_OK, b, len) /\
        filled buff 0 len (fun i => if in_range (fptr fp) n i then byte_at data (i - fptr fp) else file_byte w lf i) b) s2) s.
Proof.
  intros Hop Hwr Hmany Ht Hbytes H32 Hwd He Hdir Hp Hnames. pose proof (zlen_nonneg data) as Hd.
  pose proof (op_sees _ _ _ _ _ _ Hop) as Hs. pose proof (sees_geom copied Hs) as Hg.
  destruct (fo_size _ _ _ (se_file _ _ _ _ _ Hs)) as [Hfp Ho].
  assert (Hlf : forall x, x ∈ lf -> cluster w x) by (intros x; apply (sees_clusters copied Hs x)).
  apply wp_bind. eapply wp_mono; [eapply see_f_write; [exact Hop|done..|lia|lia]|].
  intros r s1 (fp1 & w1 & l1 & n & -> & Hn & Hfull & Hw & Hop1 & Ep1 & Eo1 & (_ & M1 & M2 & M3) & _). cbn [fst snd].
  rewrite Z.min_l in Hn, Hfull by lia. pose proof (wr_geom _ _ _ _ _ _ _ _ Hw) as Eg1.
  pose proof (op_sees _ _ _ _ _ _ Hop1) as Hs1. pose proof (sees_geom copied Hs1) as Hg1.
  destruct (wrote_entry w w1 lf l1 _ _ _ _ Hw Hg Hlf c l k fp fp1 He M1 M2) as [He1 Hdir1]. rewrite Hdir in Hdir1.
  pose proof (whole_kept w w1 Hwd Eg1 (wrote_boot w w1 lf l1 _ _ _ _ Hw Hg Hlf)) as Hwd1.
  pose proof (whole_fsinfo w1 Hwd1) as Hfi1. pose proof (sees_sectors copied _ _ _ _ Hs1) as Hsec1.
  assert (path_to w1 l1 c l k 0 names) as Hp1 by (eapply path_kept; [exact Hp|intros d ld; by eapply wrote_keeps]).
  apply wp_bind. eapply see_f_sync; [exact Hop1|exact M3|exact He1|exact Hfi1|]. intros s2 tm _ _ Hc.
  apply wp_ret. exists n, w1. split; [done|]. split; [done|]. split; [done|]. split; [done|].
  intros q s3 path fp2 m buff Hreg Hpath Hwin Hcold Econt.
  eapply wp_mono; [eapply (see_reopened q s3 path names w1 c l k l1 fp1 tm); try done|].
  - exact (se_file _ _ _ _ _ Hs1).
  - intros x Hx. rewrite Econt. by apply Hc.
  - by rewrite Eg1.
  - cbv beta. intros r s' (b & -> & Hb). rewrite Eo1 in *. exists b. split; [done|].
    eapply filled_ext; [|exact Hb]. intros j Hj. apply (wr_bytes _ _ _ _ _ _ _ _ Hw); lia.
Qed.
End Survive.
