(* ===== verification/FatRam.v ===== *)
(** * FatFs: a volume on a RAM drive

    A drive that satisfies the contract, and a small FAT12 volume on it with a file
    of two clusters, for the witnesses of the theorems. *)

From stdpp Require Import sets.
From S2P Require Import Prelude FatData FatFs FatPath FatFile FatVolume FatTable FatChain FatAlloc.
From S2P Require Import FatContents FatRead FatWrite FatSeek FatTheorems.

#[local] Open Scope Z_scope.
#[local] Open Scope list_scope.

(** ** The drive *)

Definition ram : Type := Z -> list Z.

#[export] Instance ram_drive : Drive ram := {
  disk_status _ := ret 0;
  disk_initialize _ := ret 0;
  disk_read _ b s n := fun d =>
    Done (RES_OK, blocks d s (Z.to_nat n) ++ drop (Z.to_nat (n * SS)) b) d;
  disk_write _ b s n := fun d => Done RES_OK (written d s n b);
  disk_ioctl _ _ := ret RES_OK;
  get_fattime := ret 0
}.

Definition ram_contents (d : ram) : Z -> list Z := d.
Definition ram_online (d : ram) : Prop := forall s, 0 <= s < 2 ^ 32 -> sector (d s).

#[export] Instance ram_works : WorkingDrive ram ram_contents ram_online 256.
Proof.
  split; try done.
  - intros d s Hd. apply Hd.
  - intros d b s n Hd Hs Hn Hsn Hb Hbytes. unfold wp. cbn. split; [done|]. split; [|done].
    intros x Hx. apply written_sector; [lia|done|done|]. intros _. by apply Hd.
Qed.

(** ** The volume *)

(** Entries 2 and 3 are the chain of a file; 4 and 5 are free. *)
Definition ram_fat : list Z :=
  [0xF8; 0xFF; 0xFF; 0x03; 0xF0; 0xFF] ++ replicate 506 0.

Definition ram_disk : ram := fun s =>
  if (s =? 1) || (s =? 2) then ram_fat else replicate 512 (s mod 256).

Definition ram_geom : geom := Geom FS_FAT12 2 16 2 6 1 0 1 3 4 1.
Definition ram_view : view := View ram_geom 3 2 0 ram_disk.

Definition ram_fs : FATFS :=
  MkFATFS FS_FAT12 0 2 0 0 1 16 2 3 2 6 1 0 1 3 4 0 (ram_disk 0).

Definition ram_ff : ff ram := FF (Some 5) 1 (fun _ => ram_fs) ram_disk.

(** A file of 1500 bytes, open for reading and writing. *)
Definition ram_file : FIL :=
  MkFIL (Some 5) 1 2 1500 (Z.lor FA_READ FA_WRITE) FR_OK 0 0 0 3 0 (replicate 512 0).

Lemma replicate_sector x : is_byte x -> sector (replicate 512 x).
Proof. intros Hx. split; [done|]. apply Forall_replicate. exact Hx. Qed.

Lemma ram_sector s : sector (ram_disk s).
Proof.
  unfold ram_disk. destruct (_ || _).
  - split; [done|]. unfold ram_fat. apply Forall_app_2; [|apply Forall_replicate; unfold is_byte; lia].
    repeat constructor; unfold is_byte; lia.
  - apply replicate_sector. unfold is_byte. Z.div_mod_to_equations. lia.
Qed.

Lemma ram_geom_ok : geom_ok ram_geom.
Proof. split; [by left|by right|..]; repeat split; vm_compute; congruence. Qed.

Lemma ram_holds : holds (contents := ram_contents) (online := ram_online) (fun _ => True)
  (vol_of 5 ram_ff) ram_view.
Proof.
  split; try done.
  - intros s _. apply ram_sector.
  - exact ram_geom_ok.
  - intros s _. apply ram_sector.
  - intros s _ Hs _ _. unfold in_fat in Hs. rewrite in_range_spec in Hs. cbn in Hs.
    replace s with 1 by lia. done.
Qed.

Lemma ram_entries c : 2 <= c < 6 -> entries ram_view c = if c =? 2 then 3 else if c =? 3 then 0xFFF else 0.
Proof.
  intros Hc. assert (c = 2 \/ c = 3 \/ c = 4 \/ c = 5) as [->|[->|[->| ->]]] by lia; by vm_compute.
Qed.

Lemma ram_tidy : tidy ram_view.
Proof.
  split; [|split; [|done]].
  - split; [done|]. intros _. by vm_compute.
  - intros c Hc. cbn in Hc. rewrite ram_entries by lia. repeat case_match; lia.
Qed.

Lemma ram_chain : file_chain ram_view 2 [2; 3].
Proof. split; [|done]. repeat split; vm_compute; congruence. Qed.

Lemma ram_opened : opened (contents := ram_contents) (online := ram_online) (fun _ => True)
  5 ram_ff ram_view [2; 3] ram_file.
Proof.
  split; [|split; done|done|done]. split.
  - exists ram_disk. split; [exact ram_holds|]. intros s. done.
  - split; [exact ram_chain|done|done|by apply replicate_sector|by left].
  - intros k Hk. unfold sector_of in Hk. cbn in Hk.
    pose proof (file_sector_range ram_view [2; 3] ram_geom_ok) as Hr. cbn. intros E.
    assert (4 <= file_sector ram_geom [2; 3] k) as Hlow; [|lia].
    apply (Hr (fun x Hx => file_chain_clusters _ _ _ _ ram_chain Hx) k). exact Hk.
Qed.

(** ** Witnesses *)

Lemma fat_entries_roundtrip_witness :
  cluster ram_view 4 /\ cluster ram_view 3 /\
  wp (let* res := put_fat 4 0x123 in let* y := get_fat 3 in ret (res, y)) (fun r v' =>
    r = (FR_OK, 0xFFF) /\
    exists w', holds (contents := ram_contents) (online := ram_online) (fun _ => True) v' w' /\
      same_data ram_view w') (vol_of 5 ram_ff).
Proof.
  split; [unfold cluster; cbn; lia|]. split; [unfold cluster; cbn; lia|].
  apply (fat_entries_roundtrip (fun _ => True) (vol_of 5 ram_ff) ram_view 4 0x123 3 ram_holds);
    unfold cluster; cbn; lia.
Defined.

Lemma remove_chain_frees_witness :
  wp (remove_chain 2 0) (fun res v' => res = FR_OK /\ exists w',
    holds (contents := ram_contents) (online := ram_online) (fun _ => True) v' w' /\ tidy w' /\
    same_data ram_view w' /\ forall c', cluster ram_view c' ->
      entries w' c' = if bool_decide (c' ∈ [2; 3]) then 0 else entries ram_view c') (vol_of 5 ram_ff).
Proof.
  apply (remove_chain_frees (fun _ => True) (vol_of 5 ram_ff) ram_view 2 [2; 3] ram_holds ram_tidy).
  - exact (proj1 ram_chain).
  - discriminate.
Defined.

Lemma create_chain_extends_witness :
  wp (create_chain 3) (fun x v' =>
    (x = 0 /\ holds (contents := ram_contents) (online := ram_online) (fun _ => True) v' ram_view /\
       forall c', cluster ram_view c' -> entries ram_view c' <> 0) \/
    (cluster ram_view x /\ entries ram_view x = 0 /\ exists w',
       holds (contents := ram_contents) (online := ram_online) (fun _ => True) v' w' /\ tidy w' /\
       same_data ram_view w' /\ file_chain w' 2 [2; 3; x] /\
       forall c', cluster ram_view c' -> c' ∉ [2; 3] -> c' <> x -> entries w' c' = entries ram_view c'))
    (vol_of 5 ram_ff).
Proof.
  exact (create_chain_extends (fun _ => True) (vol_of 5 ram_ff) ram_view [2; 3] 2 ram_holds ram_tidy ram_chain).
Defined.

Lemma f_read_contents_witness :
  wp (f_read ram_file (replicate 2000 7) 2000) (fun r s' => exists fp' b,
    r = (FR_OK, fp', b, 1500) /\
    filled (replicate 2000 7) 0 1500 (fun i => file_byte ram_view [2; 3] (0 + i)) b /\
    opened (contents := ram_contents) (online := ram_online) (fun _ => True) 5 s' ram_view [2; 3] fp' /\
    fptr fp' = 0 + 1500 /\ file_id fp' = file_id ram_file /\ others 5 ram_ff s') ram_ff.
Proof.
  exact (f_read_contents (many := 256) (fun _ => True) 5 ram_ff ram_view [2; 3] ram_file (replicate 2000 7) 2000
    ram_opened eq_refl ltac:(cbn; lia) ltac:(vm_compute; split; congruence)).
Defined.

(** The write goes over the end of the file into a third cluster. *)
Lemma f_write_contents_witness :
  Forall is_byte (replicate 3000 9) /\
  wp (f_write ram_file (replicate 3000 9) 3000) (fun r s' => exists fp' w' l' n,
    r = (FR_OK, fp', n) /\ 0 <= n <= 3000 /\
    (n < 3000 -> forall c, cluster w' c -> entries w' c <> 0) /\
    wrote ram_view [2; 3] 1500 0 n (replicate 3000 9) w' l' /\
    opened (contents := ram_contents) (online := ram_online) (fun _ => True) 5 s' w' l' fp' /\
    fptr fp' = 0 + n /\ f_objsize fp' = Z.max 1500 (0 + n) /\
    same_mode ram_file fp' /\ others 5 ram_ff s') ram_ff.
Proof.
  assert (Forall is_byte (replicate 3000 9)) as Hb by (apply Forall_replicate; unfold is_byte; lia).
  split; [exact Hb|].
  apply (f_write_contents (many := 256) (fun _ => True) 5 ram_ff ram_view [2; 3] ram_file (replicate 3000 9) 3000
    ram_opened eq_refl ltac:(cbn; lia) ram_tidy Hb); [vm_compute; split; congruence|lia].
Defined.

Lemma write_seek_read_witness :
  wp (let* r := f_write ram_file (replicate 3000 9) (zlen (replicate 3000 9)) in
      let* k := f_lseek r.1.2 0 in
      let* x := f_read k.2 (replicate 3000 0) r.2 in ret (r.2, x)) (fun r s' => exists fp' b n w' l',
    r = (n, (FR_OK, fp', b, n)) /\ take (Z.to_nat n) b = take (Z.to_nat n) (replicate 3000 9) /\
    opened (contents := ram_contents) (online := ram_online) (fun _ => True) 5 s' w' l' fp' /\ tidy w' /\
    0 <= n <= zlen (replicate 3000 9) /\
    (n < zlen (replicate 3000 9) -> forall c, cluster w' c -> entries w' c <> 0)) ram_ff.
Proof.
  apply (write_seek_read (many := 256) (fun _ => True) 5 ram_ff ram_view [2; 3] ram_file (replicate 3000 9) (replicate 3000 0)
    ram_opened eq_refl eq_refl ltac:(cbn; lia) ram_tidy).
  - apply Forall_replicate. unfold is_byte. lia.
  - vm_compute. congruence.
  - vm_compute. reflexivity.
Defined.
