(* ===== verification/FatVirtio.v ===== *)
(** * FatFs on the disk driver

    [ff.c] is linked with [diskio.c] of the same directory: the drive of the file
    system is the virtio driver.  It works one sector at a time, so the theorems
    on files hold on it for volumes with clusters of one sector; with larger
    clusters [f_read] can ask for several sectors at once, and gets the first one
    several times.  They are for a device that fails no request. *)

From S2P Require Import Prelude VirtioDisk VirtioTheorems.
From S2P Require Import FatData FatFs FatPath FatFile FatVolume FatTable FatChain FatAlloc.
From S2P Require Import FatContents FatRead FatWrite FatSeek FatTheorems FatMount FatRam.

#[local] Open Scope Z_scope.
#[local] Open Scope list_scope.
#[local] Arguments insertZ : simpl never.
#[local] Arguments lookupZ : simpl never.

Section Link.
Context {D : Type} (dev : device D) (addr : place -> Z) (base : Z) (fuel : nat) (b : Z).

(** [b] is the local variable [buffer] of [disk_read] and [disk_write], [base] the
    address of the memory that [virtio_disk_init] gives to the device. *)
#[export] Instance virtio_drive : Drive (VirtioDisk.world D) := {
  disk_status := VirtioDisk.disk_status;
  disk_initialize := VirtioDisk.disk_initialize dev base;
  disk_read := VirtioDisk.disk_read dev addr fuel b;
  disk_write := VirtioDisk.disk_write dev addr fuel b;
  disk_ioctl pdrv cmd := let* r := VirtioDisk.disk_ioctl pdrv cmd in ret r.1;
  get_fattime := ret VirtioDisk.get_fattime
}.
End Link.

Section Works.
Context {D : Type} (dev : device D) (addr : place -> Z) (at_addr : Z -> option place).
Context (contents : D -> Z -> list Z) (seen : D -> Z) (status : D -> Z -> Z -> Z).
Context (delay : D -> nat) (longest : nat).
Context (Hdev : block_device dev at_addr contents seen status delay longest).
Context (Haddr : forall p, at_addr (addr p) = Some p).
(** No request fails: the driver does not return from one that does. *)
Context (Hanswers : forall x t s, status x t s = 0).
Context (base : Z) (fuel : nat) (b : Z) (Hfuel : (longest + 5 <= fuel)%nat).

#[local] Instance linked : Drive (VirtioDisk.world D) := virtio_drive dev addr base fuel b.

(** The driver is between requests, and what is on the disk are sectors. *)
Definition attached (w : VirtioDisk.world D) : Prop :=
  idle seen w /\ initialised (m_disk (w_mem w)) <> 0 /\
  is_Some (lookupZ (m_bufs (w_mem w)) b) /\
  forall s, 0 <= s < 2 ^ 32 -> sector (contents (w_dev w) s).

Definition stored_on (w : VirtioDisk.world D) : Z -> list Z := contents (w_dev w).

Lemma attached_status w : attached w ->
  wp (VirtioDisk.disk_status 0) (fun r w' => r = 0 /\ attached w' /\ stored_on w' = stored_on w) w.
Proof.
  intros Hw. pose proof Hw as (_ & Hi & _). unfold VirtioDisk.disk_status, virtio_disk_status. cbn [Z.eqb DEV_VIRTIO].
  apply wp_bind, wp_bind. apply wp_gets, wp_ret. destruct (Z.eqb_spec (initialised (m_disk (w_mem w))) 0); [done|].
  by apply wp_ret.
Qed.

(** The driver is a drive that works, for one sector at a time. *)
#[export] Instance virtio_works : WorkingDrive (VirtioDisk.world D) stored_on attached 1.
Proof.
  split; try done.
  - intros w s (_ & _ & _ & Hs). apply Hs.
  - apply attached_status.
  - intros w buff s n Hw Hs Hn Hsn Hlen. assert (n = 1) as -> by lia.
    pose proof Hw as (Hidle & Hi & [x Hx] & Hsec). unfold disk_read, linked, virtio_drive.
    destruct (Hsec s ltac:(lia)) as [Hl _].
    eapply (see_read_sector dev addr at_addr contents seen status delay longest Hdev Haddr Hanswers);
      [done|done|exact Hx|lia|exact Hl|unfold SS, BSIZE in *; lia|done|].
    intros w' y H1 H2 H3 H4. change (Z.to_nat 1) with 1%nat. rewrite blocks_1.
    split; [done|]. split; [|exact H4]. split; [done|]. split; [done|]. split; [by eexists|]. by rewrite H4.
  - intros w buff s n Hw Hs Hn Hsn Hlen Hbytes. assert (n = 1) as -> by lia.
    pose proof Hw as (Hidle & Hi & [x Hx] & Hsec). unfold disk_write, linked, virtio_drive.
    eapply (see_write_sector dev addr at_addr contents seen status delay longest Hdev Haddr Hanswers);
      [done|done|exact Hx|lia|unfold SS, BSIZE in *; lia|done|].
    intros w' y H1 H2 H3 H4. unfold SS in Hlen. split; [done|]. split.
    + split; [done|]. split; [done|]. split; [by eexists|]. intros z Hz. rewrite H4. unfold fupd.
      case_match; [|by apply Hsec]. split; [|by apply Forall_take].
      change 512%nat with (Z.to_nat 512). rewrite zlen_take; unfold SS; lia.
    + intros z. unfold stored_on. rewrite H4. unfold fupd, written.
      destruct (in_range s 1 z) eqn:E.
      * rewrite in_range_spec in E. assert (z = s) as -> by lia. by rewrite Z.eqb_refl, Z.sub_diag.
      * rewrite in_range_false in E. destruct (Z.eqb_spec z s); [lia|done].
  - intros w Hw. cbn. apply wp_bind. unfold VirtioDisk.disk_ioctl. apply wp_bind.
    eapply wp_mono; [by apply attached_status|]. intros r w' (-> & H1 & H2). cbn. by apply wp_ret, wp_ret.
Qed.

(** Before [disk_initialize]: the driver is zeroed, and queue 0 is large enough. *)
Context (max : Z) (Hset : block_setup dev contents seen max) (Hmax : NUM <= max).

Definition unattached (w : VirtioDisk.world D) : Prop :=
  unused seen w /\ is_Some (lookupZ (m_bufs (w_mem w)) b) /\
  forall s, 0 <= s < 2 ^ 32 -> sector (contents (w_dev w) s).

#[export] Instance virtio_starts : StartingDrive (contents := stored_on) (online := attached) unattached.
Proof.
  intros w (Hw & Hb & Hsec). change (disk_initialize 0) with (VirtioDisk.disk_initialize (D := D) dev base DEV_VIRTIO).
  eapply (see_disk_initialize dev at_addr base contents seen status delay longest Hdev max Hset); [exact Hw|].
  rewrite (proj2 (Z.ltb_ge _ _)) by done. intros w' E1 E2 E3 E4. split; [done|].
  destruct (fresh_idle seen w' E3 E4) as [Hidle Hinit].
  split; [|exact E2]. split; [done|]. split; [by rewrite Hinit|]. split; [by rewrite E1|]. by rewrite E2.
Qed.
End Works.

(** ** A volume on the modelled device *)

(** The volume of [FatRam] on the device of [VirtioTheorems], with the driver
    initialised. *)
Definition virtio_world : VirtioDisk.world plain :=
  World (w_mem VirtioTheorems.ready) (Plain ram_disk (pl_seen (w_dev VirtioTheorems.ready)) 3) [].
Definition virtio_ff : ff (VirtioDisk.world plain) := FF (Some 5) 1 (fun _ => ram_fs) virtio_world.

#[local] Instance plain_drive : Drive (VirtioDisk.world plain) :=
  virtio_drive plain_device plain_addr 0x80030000 100 0.

(** The clusters of this volume have two sectors.  [f_read] of 1024 bytes asks the
    drive for both sectors of the first cluster at once, and returns [FR_OK] with
    the first of them twice; read in two parts the file is what it is. *)
Lemma cluster_misread :
  match f_read ram_file (replicate 1024 0) 1024 virtio_ff with
  | Done (res, _, buff, br) _ =>
      res = FR_OK /\ br = 1024 /\ buff = replicate 1024 4 /\ buff <> replicate 512 4 ++ replicate 512 5
  | Fault _ => False
  end /\
  match (let* r := f_read ram_file (replicate 1024 0) 512 in
         f_read r.1.1.2 (replicate 1024 0) 512) virtio_ff with
  | Done (res, _, buff, _) _ => res = FR_OK /\ take 512 buff = replicate 512 5
  | Fault _ => False
  end.
Proof. vm_compute. repeat split; discriminate. Qed.
