(* ===== verification/FatBoot.v ===== *)
(** * FatFs: a disk with a file in a directory

    A FAT12 volume of 140 sectors with the file [DIR/FILE.TXT] of three clusters, as
    the contents of a drive, for the witnesses of the theorems on mounting, names,
    directories and opening: on a RAM drive and on the modelled virtio device. *)

From stdpp Require Import sets.
From S2P Require Import Prelude VirtioDisk VirtioTheorems.
From S2P Require Import FatData FatFs FatPath FatFile FatVolume FatTable FatChain FatAlloc FatContents FatTheorems.
From S2P Require Import FatMount FatEntries FatNames FatOpen FatSync FatRam FatVirtio.

#[local] Open Scope Z_scope.
#[local] Open Scope list_scope.

(** ** The disk *)

(** 512 bytes per sector, one sector per cluster, one reserved sector, two FATs of one
    sector, 16 entries in the root directory. *)
Definition boot_sector : list Z :=
  [0xEB; 0x3C; 0x90; 77; 83; 68; 79; 83; 53; 46; 48; 0x00; 0x02; 1; 1; 0; 2; 16; 0; 140; 0; 0xF8; 1; 0] ++
  replicate 486 0 ++ [0x55; 0xAA].

(** Entry 2 is the directory, 3, 4 and 5 are the file. *)
Definition boot_fat : list Z := [0xF8; 0xFF; 0xFF; 0xFF; 0x4F; 0x00; 0x05; 0xF0; 0xFF] ++ replicate 503 0.

(** [DIR], a directory in cluster 2. *)
Definition boot_root : list Z :=
  [68; 73; 82; 32; 32; 32; 32; 32; 32; 32; 32; AM_DIR] ++ replicate 14 0 ++ [2; 0; 0; 0; 0; 0] ++ replicate 480 0.

(** [FILE.TXT], 1500 bytes from cluster 3 on. *)
Definition boot_dir : list Z :=
  [70; 73; 76; 69; 32; 32; 32; 32; 84; 88; 84; AM_ARC] ++ replicate 14 0 ++ [3; 0; 0xDC; 0x05; 0; 0] ++ replicate 480 0.

Definition boot_disk : ram := fun s =>
  if s =? 0 then boot_sector else if (s =? 1) || (s =? 2) then boot_fat
  else if s =? 3 then boot_root else if s =? 4 then boot_dir else replicate 512 (s mod 256).

Definition DIR_name : fname := Fname [68; 73; 82] [].
Definition FILE_name : fname := Fname [102; 105; 108; 101] [116; 120; 116].

Definition boot_view : view := volume_view boot_disk 0 1.

Definition all_bytes (l : list Z) : bool := (length l =? 512)%nat && forallb (fun x => (0 <=? x) && (x <? 256)) l.

Lemma all_bytes_sector l : all_bytes l = true -> sector l.
Proof.
  unfold all_bytes. intros Hl. apply andb_true_iff in Hl as [E%Nat.eqb_eq Hl]. split; [unfold zlen; by rewrite E|].
  apply Forall_forall. intros x Hx. eapply forallb_forall in Hl; [|by apply list_elem_of_In].
  apply andb_true_iff in Hl as [H1%Z.leb_le H2%Z.ltb_lt]. by split.
Qed.

Lemma boot_sectors s : sector (boot_disk s).
Proof.
  unfold boot_disk. destruct (s =? 0); [by apply all_bytes_sector; vm_compute|].
  destruct (_ || _); [by apply all_bytes_sector; vm_compute|].
  destruct (s =? 3); [by apply all_bytes_sector; vm_compute|].
  destruct (s =? 4); [by apply all_bytes_sector; vm_compute|].
  apply replicate_sector. unfold is_byte. Z.div_mod_to_equations. lia.
Qed.

Lemma boot_mountable : find_boot boot_disk = (0, 0) /\ mountable (boot_disk 0) = true /\ partitions_ok boot_disk /\
  bpb_fits 0 (boot_disk 0) /\ w_geom boot_view = Geom FS_FAT12 2 16 1 138 1 0 1 3 4 1.
Proof.
  split; [by vm_compute|]. split; [by vm_compute|]. split; [repeat constructor; by vm_compute|].
  split; [|by vm_compute]. unfold bpb_fits. vm_compute. repeat split; congruence.
Qed.

Lemma boot_copies : copies_agree (fun _ => True) boot_disk (w_geom boot_view).
Proof.
  intros _ s Hs _. destruct boot_mountable as (_ & _ & _ & _ & E). rewrite E in *. unfold in_fat in Hs.
  rewrite in_range_spec in Hs. cbn in Hs. assert (s = 1) as -> by lia. done.
Qed.

(** ** Directories and files *)

Lemma boot_root_ok : dir_ok boot_view 0 [].
Proof.
  destruct boot_mountable as (_ & Hm & _ & Hf & _). apply root_dir_ok; [apply boot_sectors|done|done|].
  intros E. by vm_compute in E.
Qed.

Lemma boot_dir_ok : dir_ok boot_view 2 [2].
Proof.
  split; [intros E; by vm_compute in E|]. intros _. split; [|done].
  split; [by vm_compute|]. split; [vm_compute; split; congruence|]. vm_compute. congruence.
Qed.

Lemma boot_leads : leads boot_view 0 [DIR_name; FILE_name] (inl (2, [2], 0)).
Proof.
  eapply (leads_down _ 0 [] _ 0); [done|exact boot_root_ok|by vm_compute|by vm_compute|].
  assert (entry_cluster boot_view 0 [] 0 = 2) as -> by by vm_compute.
  apply leads_here; [exact boot_dir_ok|by vm_compute].
Qed.

Lemma boot_file : file_at boot_view 2 [2] 0 [3; 4; 5].
Proof.
  split.
  - assert (entry_cluster boot_view 2 [2] 0 = 3) as -> by by vm_compute. split; [|done].
    repeat split; vm_compute; congruence.
  - by vm_compute.
  - right. intros x Hx Hin. apply list_elem_of_In in Hx, Hin. cbn in Hx, Hin. lia.
Qed.

(** ** On a RAM drive *)

#[export] Instance ram_starts : StartingDrive (contents := ram_contents) (online := ram_online) ram_online.
Proof. by intros d Hd. Qed.

Definition blank_fs : FATFS := MkFATFS 0 0 0 0 0 0 0 0 0 0 0 0 0 0 0 0 0 (replicate 512 0).
Definition cold_ff : ff ram := FF None 0 (fun _ => blank_fs) boot_disk.

Definition boot_fs : FATFS :=
  MkFATFS FS_FAT12 0 2 0 0x80 1 16 1 0xFFFFFFFF 0xFFFFFFFF 138 1 0 1 3 4 0 boot_sector.
Definition boot_ff : ff ram := FF (Some 5) 1 (fun _ => boot_fs) boot_disk.

Lemma boot_holds : holds (contents := ram_contents) (online := ram_online) (fun _ => True) (vol_of 5 boot_ff) boot_view.
Proof.
  destruct boot_mountable as (_ & Hm & _ & Hf & E). 
  split; [intros s _; apply boot_sectors|done|by rewrite E| |by vm_compute|intros s _; apply boot_sectors| |done|done|].
  - apply (boot_geom_ok boot_disk 1 0 (proj2 (boot_sectors 0)) Hf Hm).
  - rewrite E. by split.
  - intros s H2 Hs _ _. apply (boot_copies H2 s Hs I).
Qed.

Lemma f_mount_mounts_witness :
  let c := ram_contents (ff_drive cold_ff) in let bsect := (find_boot c).2 in let id := u16 (ff_fsid cold_ff + 1) in
  (bsect = 0 /\ mountable (c bsect) = true) /\
  wp (f_mount (Some 5) [0] 1) (fun res s' => ff_fatfs s' = Some 5 /\
    (forall q, q <> 5 -> ff_objs s' q = ff_objs cold_ff q) /\
    (res = FR_OK /\ (find_boot c).1 < 2 /\ mountable (c bsect) = true /\ geom_ok (boot_geom id bsect (c bsect)) /\
       holds (contents := ram_contents) (online := ram_online) (fun _ => True) (vol_of 5 s') (volume_view c bsect id) \/
     res = FR_NO_FILESYSTEM /\ ((find_boot c).1 < 2 -> mountable (c bsect) = false))) cold_ff.
Proof.
  intros c bsect id. destruct boot_mountable as (Hb & Hm & Hp & Hf & E).
  assert (bsect = 0) as Eb by by (subst bsect; change c with boot_disk; rewrite Hb).
  split; [by rewrite Eb|].
  apply (f_mount_mounts (contents := ram_contents) (online := ram_online) (many := 256) (cold := ram_online) (fun _ => True) 5 cold_ff [0] eq_refl eq_refl eq_refl (fun s _ => boot_sectors s) Hp).
  - intros _. fold c. fold bsect. rewrite Eb. exact Hf.
  - fold c. fold bsect. rewrite Eb. exact boot_copies.
Defined.

(** An object for the search of a name in the root directory. *)
Definition search (name : list Z) : DIR := MkDIR 0 0 0 0 0 0 name.

Lemma dir_find_looks_up_witness :
  dir_lookup boot_view 0 [] (bytes_at (fn (search (entry_name DIR_name ++ [0]))) 0 11) = Some 0 /\
  wp (dir_find (search (entry_name DIR_name ++ [0]))) (fun r v' =>
    holds (contents := ram_contents) (online := ram_online) (fun _ => True) v' boot_view /\
    match dir_lookup boot_view 0 [] (bytes_at (fn (search (entry_name DIR_name ++ [0]))) 0 11) with
    | Some k => r.1 = FR_OK /\ 0 <= k < dir_len boot_view 0 [] /\
        found boot_view 0 [] k (search (entry_name DIR_name ++ [0])) r.2 v'
    | None => r.1 = FR_NO_FILE
    end) (vol_of 5 boot_ff).
Proof.
  split; [by vm_compute|].
  apply (dir_find_looks_up (contents := ram_contents) (online := ram_online) (many := 256) (fun _ => True) (vol_of 5 boot_ff) boot_view 0 [] _ boot_holds boot_root_ok); by vm_compute.
Defined.

Lemma names_roundtrip_witness :
  wp (let* r := create_name (fn DIR0) (text DIR_name ++ [0]) in
      let* f := dir_find (set_fn r.1.2 DIR0) in
      if is_ok f.1 then let* i := get_fileinfo f.2 (MkFILINFO 0 0 0 0 []) in ret (r.1.1, f.1, Some i)
      else ret (r.1.1, f.1, None)) (fun r v' =>
    holds (contents := ram_contents) (online := ram_online) (fun _ => True) v' boot_view /\
    r = (FR_OK, FR_OK, Some (MkFILINFO 0 0 0 AM_DIR [68; 73; 82]))) (vol_of 5 boot_ff).
Proof.
  refine (names_roundtrip (contents := ram_contents) (online := ram_online) (many := 256) (fun _ => True) (vol_of 5 boot_ff) boot_view 0 [] DIR_name DIR0 (MkFILINFO 0 0 0 0 [])
    boot_holds boot_root_ok _ _ _); by vm_compute.
Defined.

Lemma f_open_opens_witness :
  wp (f_open ram_file (replicate 1 47 ++ path_text [DIR_name; FILE_name]) FA_READ) (fun a s' =>
    others 5 boot_ff s' /\
    holds (contents := ram_contents) (online := ram_online) (fun _ => True) (vol_of 5 s') boot_view /\
    a.1 = open_result boot_view (inl (2, [2], 0)) FA_READ /\ (a.1 <> FR_OK -> f_fs a.2 = None) /\
    (a.1 = FR_OK -> forall lf, file_at boot_view 2 [2] 0 lf ->
       opened (contents := ram_contents) (online := ram_online) (fun _ => True) 5 s' boot_view lf a.2 /\
       fresh_file boot_view 2 [2] 0 FA_READ a.2)) boot_ff.
Proof.
  apply (f_open_opens (contents := ram_contents) (online := ram_online) (many := 256) (fun _ => True) 5 boot_ff boot_view [DIR_name; FILE_name] (inl (2, [2], 0)) 1 ram_file FA_READ);
    [done|exact boot_holds|done|by vm_compute|exact boot_leads|vm_compute; intuition discriminate].
Defined.

(** The file, open and with changes that are not written. *)
Definition boot_open : FIL :=
  MkFIL (Some 5) 1 3 1400 (Z.lor FA_WRITE FA_MODIFIED) FR_OK 0 0 0 4 0 (replicate 512 0).

Lemma boot_opened : opened (contents := ram_contents) (online := ram_online) (fun _ => True) 5 boot_ff boot_view [3; 4; 5] boot_open.
Proof.
  pose proof boot_file as [Hch _ _]. assert (entry_cluster boot_view 2 [2] 0 = 3) as E by by vm_compute. rewrite E in Hch.
  split; [|split; done| |done].
  - apply sees_intro; [exact boot_holds|done| |].
    + split; [exact Hch|done|by vm_compute|by apply replicate_sector|by left].
    + intros k Hk. pose proof (file_sector_range boot_view [3; 4; 5] (h_ok _ _ _ boot_holds)
        (fun x => file_chain_clusters boot_view 3 [3; 4; 5] x Hch) k Hk) as Hr.
      assert (g_database (w_geom boot_view) = 4) as Ed by by vm_compute. change (winsect (v_fs (vol_of 5 boot_ff))) with 0. lia.
  - split; [done|]. by vm_compute.
Qed.

Lemma boot_entry : entry_of boot_view 2 [2] 0 [3; 4; 5] boot_open.
Proof.
  split; [exact boot_dir_ok| |split; by vm_compute|exact (fa_apart _ _ _ _ _ boot_file)].
  assert (dir_len boot_view 2 [2] = 16) as -> by by vm_compute. lia.
Qed.

Lemma f_sync_stores_witness :
  wp (f_sync boot_open) (fun r s' => exists fp' w', r = (FR_OK, fp') /\
    opened (contents := ram_contents) (online := ram_online) (fun _ => True) 5 s' w' [3; 4; 5] fp' /\ others 5 boot_ff s' /\
    has_flag fp' FA_DIRTY = false /\ fptr fp' = fptr boot_open /\ f_objsize fp' = f_objsize boot_open /\
    (forall x, proper (w_geom boot_view) x -> ram_contents (ff_drive s') x = w_disk w' x) /\
    w_geom w' = w_geom boot_view /\ file_at w' 2 [2] 0 [3; 4; 5] /\ entry_size w' 2 [2] 0 = f_objsize boot_open /\
    dir_byte w' 2 [2] 0 DIR_Attr = Z.lor (dir_byte boot_view 2 [2] 0 DIR_Attr) AM_ARC /\
    (forall name, dir_lookup w' 2 [2] name = dir_lookup boot_view 2 [2] name) /\
    (forall i, 0 <= i < f_objsize boot_open -> file_byte w' [3; 4; 5] i = file_byte boot_view [3; 4; 5] i) /\
    (forall x, g_fatbase (w_geom boot_view) <= x -> x <> dir_sect boot_open -> w_disk w' x = w_disk boot_view x)) boot_ff.
Proof.
  refine (f_sync_stores (contents := ram_contents) (online := ram_online) (many := 256) (fun _ => True) 5 boot_ff boot_view
    2 [2] 0 [3; 4; 5] boot_open boot_opened eq_refl boot_entry _).
  intros Hf. by vm_compute in Hf.
Defined.

Lemma boot_tidy : tidy boot_view.
Proof.
  split; [split|split].
  - vm_compute. intuition discriminate.
  - intros E. by vm_compute in E.
  - intros c Hc. assert (forallb (fun c => negb (entries boot_view c =? 1)) (clusters boot_view) = true) as E by by vm_compute.
    eapply forallb_forall in E; [|apply list_elem_of_In, elem_of_clusters, Hc]. by apply negb_true_iff, Z.eqb_neq in E.
  - vm_compute. intuition discriminate.
Qed.

Lemma boot_whole : whole_drive boot_view.
Proof.
  destruct boot_mountable as (_ & Hm & Hp & Hf & _).
  split; [done|by vm_compute|exact Hm|exact Hf|exact Hp|]. intros E. by vm_compute in E.
Qed.

Lemma boot_path : path_to boot_view [3; 4; 5] 2 [2] 0 0 [DIR_name; FILE_name].
Proof.
  eapply (path_down _ _ _ _ _ 0 []); [done|exact boot_root_ok|by left; vm_compute|by vm_compute|by vm_compute|].
  assert (entry_cluster boot_view 0 [] 0 = 2) as -> by by vm_compute.
  apply path_here; [exact boot_dir_ok|exact (fa_apart _ _ _ _ _ boot_file)|by vm_compute].
Qed.

(** 1600 bytes do not fit in the three clusters of the file. *)
Lemma write_survives_witness :
  wp (let* r := f_write boot_open (replicate 1600 7) (zlen (replicate 1600 7)) in
      let* y := f_sync r.1.2 in ret (r.1.1, r.2, y.1)) (fun r s' => exists n w',
    r = (FR_OK, n, FR_OK) /\ 0 <= n <= zlen (replicate 1600 7) /\ w_geom w' = w_geom boot_view /\
    (n < zlen (replicate 1600 7) -> forall x, cluster w' x -> entries w' x <> 0) /\
    forall q s2 path fp2 m buff, ff_fatfs s2 = None -> plain_path path = true -> zlen (win (ff_objs s2 q)) = SS ->
      ram_online (ff_drive s2) -> (forall x, ram_contents (ff_drive s2) x = ram_contents (ff_drive s') x) ->
      wp (let* r1 := f_mount (Some q) path 1 in
          let* r2 := f_open fp2 (replicate m 47 ++ path_text [DIR_name; FILE_name]) FA_READ in
          let* r3 := f_read r2.2 buff (zlen buff) in
          ret (r1, r2.1, r3.1.1.1, r3.1.2, r3.2)) (fun r2 _ => exists b,
        let len := Z.min (zlen buff) (Z.max (f_objsize boot_open) (fptr boot_open + n)) in
        r2 = (FR_OK, FR_OK, FR_OK, b, len) /\
        filled buff 0 len (fun i => if in_range (fptr boot_open) n i then byte_at (replicate 1600 7) (i - fptr boot_open)
                                    else file_byte boot_view [3; 4; 5] i) b) s2) boot_ff.
Proof.
  assert (Forall is_byte (replicate 1600 7)) as Hb by by apply Forall_replicate.
  assert (g_csize (w_geom boot_view) <= 256) as Hcs by by destruct boot_mountable as (_ & _ & _ & _ & ->).
  exact (write_survives (contents := ram_contents) (online := ram_online) (many := 256) (cold := ram_online) (fun _ => True) 5 boot_ff boot_view
    [3; 4; 5] boot_open (replicate 1600 7) 2 [2] 0 [DIR_name; FILE_name] boot_opened eq_refl Hcs boot_tidy Hb eq_refl
    boot_whole boot_entry eq_refl boot_path eq_refl).
Defined.

(** ** On the virtio device *)

#[local] Instance boot_drive : Drive (VirtioDisk.world plain) := virtio_drive plain_device plain_addr 0x80030000 100 0.

Definition boot_world : VirtioDisk.world plain :=
  World (Memory disk_bss [Buf 0 0 0 0 0 (replicate 512 0)]) (Plain boot_disk 0 3) [].
Definition virtio_cold : ff (VirtioDisk.world plain) := FF None 0 (fun _ => blank_fs) boot_world.

Lemma mount_open_read_witness :
  entry_size boot_view 2 [2] 0 = 1500 /\
  wp (let* r1 := f_mount (Some 5) [0] 1 in
      let* r2 := f_open ram_file (replicate 0 47 ++ path_text [DIR_name; FILE_name]) FA_READ in
      let* r3 := f_read r2.2 (replicate 2000 0) 2000 in
      ret (r1, r2.1, r3.1.1.1, r3.1.2, r3.2)) (fun r s' => exists b,
    let n := Z.min 2000 (entry_size boot_view 2 [2] 0) in
    r = (FR_OK, FR_OK, FR_OK, b, n) /\
    filled (replicate 2000 0) 0 n (file_byte boot_view [3; 4; 5]) b) virtio_cold.
Proof.
  split; [by vm_compute|].
  destruct boot_mountable as (Hb & Hm & Hp & Hf & E).
  pose proof (virtio_works plain_device plain_addr plain_place pl_contents pl_seen (fun _ _ _ => 0) pl_delay 3 plain_keeps
    plain_place_addr (fun _ _ _ => eq_refl) 0x80030000 100 0 ltac:(lia)) as Hworks.
  pose proof (virtio_starts plain_device plain_addr plain_place pl_contents pl_seen (fun _ _ _ => 0) pl_delay 3 plain_keeps
    0x80030000 100 0 1024 plain_setup ltac:(by vm_compute)) as Hstarts.
  pose proof (mount_open_read (contents := stored_on pl_contents) (online := attached pl_contents pl_seen 0) (many := 1)
    (cold := unattached pl_contents pl_seen 0) (fun _ => True) 5 virtio_cold [0] [DIR_name; FILE_name] 2 [2] 0 [3; 4; 5] ram_file 0
    (replicate 2000 0) 2000) as Hread.
  change (stored_on pl_contents (ff_drive virtio_cold)) with boot_disk in Hread. cbv zeta in Hread. rewrite Hb in Hread.
  change (volume_view boot_disk (0, 0).2 (u16 (ff_fsid virtio_cold + 1))) with boot_view in Hread.
  refine (Hread eq_refl eq_refl eq_refl _ Hp eq_refl Hf Hm boot_copies _ _ eq_refl boot_leads _ boot_file _).
  - split; [by split|]. split; [by exists (Buf 0 0 0 0 0 (replicate 512 0))|]. exact (fun s _ => boot_sectors s).
  - by rewrite E.
  - discriminate.
  - by vm_compute.
  - vm_compute. split; discriminate.
Defined.

(** ** Parameters out of range *)

(** A FAT32 boot sector with FATs of [0x80000001] sectors: twice that is 2 in 32 bits.
    [f_mount] takes the volume, with the data area inside of its first FAT, where
    the first data sector is also the third sector of the table. *)
Definition overflowing_sector : list Z :=
  [0xEB; 0x3C; 0x90; 77; 83; 68; 79; 83; 53; 46; 48; 0x00; 0x02; 1; 1; 0; 2; 0; 0; 0; 0; 0xF8; 0; 0] ++
  replicate 8 0 ++ [0x70; 0x11; 0x01; 0; 0x01; 0; 0; 0x80; 0; 0; 0; 0; 2; 0; 0; 0] ++ replicate 34 0 ++ FAT32_TYPE ++
  replicate 420 0 ++ [0x55; 0xAA].

Definition overflowing_ff : ff ram :=
  FF None 0 (fun _ => blank_fs) (fun s => if s =? 0 then overflowing_sector else replicate 512 0).

Lemma fat_size_overflows : length overflowing_sector = 512%nat /\ ~ bpb_fits 0 overflowing_sector /\
  match f_mount (Some 5) [0] 1 overflowing_ff with
  | Done res s' => let fs := ff_objs s' 5 in
      res = FR_OK /\ fs_type fs = FS_FAT32 /\ fsize fs = 0x80000001 /\ fatbase fs = 1 /\ database fs = 3
  | Fault _ => False
  end.
Proof.
  split; [done|]. split; [intros (_ & H & _); by vm_compute in H|]. vm_compute. repeat split.
Qed.
